(* ===== verification/_CoqProject ===== *)
-Q . S2P
Prelude.v
Float64.v
Rounding.v
GoString.v
Json.v
Url.v
Sha256.v
Providers.v
Health.v
Selector.v
Router.v
Sse.v
Pricing.v
Money.v
Budget.v
Estimator.v
Guard.v
Durable.v
Exact.v
Semantic.v
Lookup.v
Regex.v
Redact.v
Wire.v
Auth.v
Handlers.v
Config.v
Stream.v
Upstream.v
OpenaiWire.v
Ingress.v
JsonText.v
JsonLine.v
Dialect.v
Anthropic.v
Gemini.v
Embedder.v
Wiring.v
Admin.v
Adapters.v
Relay.v
LlmSim.v
Samples.v
Corpus.v
Study.v
Verdict.v
Collect.v
Calibrate.v
Conformance.v
Decimal.v
Timestamp.v
Ledger.v
Canvas.v
Figures.v
Process.v
Metrics.v
JsonIndent.v
ProfileFile.v
StudyRun.v
Report.v
Published.v
