(* ===== verification/Prelude.v ===== *)
(** * Penstock, verified

    Penstock is a gateway for language-model APIs written in Go (src/): it takes
    OpenAI-shaped chat requests, picks a backend from a chain, translates to and
    from the backend's wire, relays streams, caches answers, and bills tenants
    against budgets.  Beside it the repository keeps the programs that measure it: a
    deterministic upstream, the recording of its profiles, the study of the cache, the
    figures, and the test suite of the adapters.  This library models all of them,
    from the bytes of a configuration and of a request to the bytes of the answer, of
    the ledger, of a result file and of a figure, and proves what makes them correct.
    All files are under [internal/] unless said otherwise.

    ** How the parts interact

    A request passes the middleware ([Ingress]: recovery, access log, key,
    slot, mux), then [Handlers.handleChatCompletions]: the cache is asked
    ([Lookup] over [Exact] and [Semantic], vectors from [Embedder]), the budget
    reserved ([Guard] over [Estimator], [Budget], [Pricing]), the route's chain
    tried ([Router] over [Selector] and [Health]) until an adapter answers
    ([OpenaiWire], [Anthropic], [Gemini], all on [Upstream], [Sse] and
    [Stream]), the answer or stream written ([Wire], with [Redact] for what an
    upstream says), the reservation settled, its totals made durable ([Durable]) and
    a row appended to the ledger ([Ledger]).  [Config] and [Wiring] build all of it
    from the file; [Process] opens, serves and releases it; [Admin] shows the
    balances; [Metrics] counts.

    The study ([Corpus], [Study], [Verdict], [Collect], [StudyRun], [Report]) runs the
    gateway's own stores over a corpus of labelled questions; [Figures] draws what it
    wrote ([Published]).  [Calibrate] times a provider and writes the profile
    ([ProfileFile]) that [LlmSim] replays to the adapters.

    ** Files

    Foundations (the Go language and standard library as far as used):
    - [Prelude]: 64-bit integers, instants, tactics, hint databases, lists;
      [Float64]: binary64 on [SpecFloat], [Rounding]: how far it is from exact
      arithmetic; [GoString]: strings, TrimSpace, Itoa;
      [Json], [JsonText], [JsonLine], [JsonIndent]: encoding/json both ways, compact,
      in lines and indented; [Decimal]: the shortest decimal of a float;
      [Timestamp]: RFC 3339; [Regex]: regexp; [Url]: path segments; [Sha256];
      [Money]: the interface [USD] with binary64 and exact instances.

    Providers:
    - [Providers] (providers/types.go, errors.go, httpclient.go), [Sse]
      (providers/sse.go), [Stream] (the reader machine common to the adapters'
      stream.go), [Upstream] (their HTTP code);
    - [OpenaiWire] (providers/openaiwire/, providers/rewrite.go), [Dialect],
      [Anthropic] (providers/anthropic/), [Gemini] (providers/gemini/);
    - [Adapters]: the registry (providers/factory.go) and the contract [Honest]
      that the three adapters, renamed providers and booted chains keep;
    - [Conformance]: the suite of providers/conformance, run on the three adapters.

    Routing: [Health] (router/health.go, policy.go, types.go), [Selector]
    (router/selector.go), [Router] (router/orchestrator.go).

    Money: [Pricing] (pricing/pricing.go), [Ledger] (pricing/ledger.go), [Budget]
    (budget/enforcer.go, types.go), [Estimator], [Guard], [Durable] (budget/store.go,
    sqlitestore.go and the persistence of enforcer.go).

    Cache: [Exact], [Semantic], [Embedder] (cache/embed_gemini.go), [Lookup]
    (cache/policy.go, key.go, messages.go, lookup.go).

    Serving: [Redact], [Wire] (httperr/, ingress/errors.go, accounting.go,
    metrics.go), [Auth] (ingress/auth.go, limits.go), [Handlers]
    (ingress/handlers.go, cached.go), [Ingress] (ingress/server.go), [Relay]
    (pumpStream, and a stream from the upstream's bytes to the client's), [Config]
    (config/), [Wiring] and [Process] (cmd/penstock/main.go), [Admin] (admin/),
    [Metrics] (obs/).

    Measuring: [LlmSim] (llmsim/, cmd/llmsim), [Calibrate] and [ProfileFile]
    (cmd/calibrate), [Samples], [Corpus], [Study], [Verdict], [Collect], [StudyRun],
    [Report] (cmd/cachestudy), [Canvas], [Figures] (cmd/plot), [Published]
    (cmd/cachestudy and cmd/plot together).

    ** Correspondence

    A struct is a record, a tagged string an inductive type, a method a
    definition of the same name over the state it changes; a critical section
    under a mutex is one function, and a concurrent history a sequence of them
    ([Budget], [Health], [Exact], [Auth]); writes outside a lock, workers and the
    shutdown of the process are steps of a relation ([Durable], [Collect], [LlmSim],
    [Process]).  Maps are [gmap]s; a pointer structure (the recency list of
    [Exact]) is a heap of nodes.  A panic is [None].  Goroutines appear as the
    events they feed to a loop ([Handlers.loop_event]).  What the program reads
    of the outside (clocks, random draws, the HTTP client, the client's
    connection, the file system) is given to the operation that reads it, and
    every theorem holds for all of it.

    ** What the theorems say

    - Nothing partial is passed off as whole: [Relay.done_is_the_whole_bill],
      [Adapters.every_member_is_honest], [OpenaiWire.whole_only_after_done]; and of
      the single wires [Anthropic.whole_only_after_stop],
      [Gemini.whole_only_after_finish], [Handlers.stream_relayed_in_order].
    - What is billed is what is told and what is reserved is given back:
      [Budget.budget_bounded], [Budget.committed_is_outstanding],
      [Handlers.reservation_closed_once], [Guard.settle_bills_once],
      [Admin.headroom_is_what_is_admitted].  The first two and the last are of money
      that rounds, binary64 included, with the rounding they allow written out.
    - Durability: [Durable.restart_restores_spend], [Durable.store_never_regresses],
      [Ledger.ledger_reads_back].
    - Routing: [Router.attempts_follow_policy], [Router.chain_bounded],
      [Router.no_peer_starved], [Health.health_reachable_wf] and the lemmas on
      probes and recovery.
    - Translation: [Anthropic.request_crosses], [Gemini.prompt_crosses],
      [Gemini.url_names_the_model], [OpenaiWire.chat_is_verbatim_or_classed].
    - Caching: [Exact.exact_refines_list], [Exact.hit_is_own_latest_answer],
      [Lookup.key_is_the_question], [Handlers.replay_is_the_stream],
      [Sse.frames_roundtrip].
    - Doors: [Ingress.refused_at_the_door],
      [Ingress.every_request_is_measured_once], [Wiring.keys_follow_the_file],
      [Embedder.key_is_never_told], [Redact.provider_keys_are_redacted].
    - Booting and ending: [Config.loaded_is_bounded], [Wiring.valid_config_boots],
      [Process.every_exit_releases], [Process.clean_drain_loses_nothing].
    - The simulator: [LlmSim.simulated_stream_crosses], [LlmSim.hangs_are_bounded].
    - The studies: [Corpus.loads_exactly_the_trustworthy],
      [Collect.all_answers_or_none], [Study.exact_tier_is_the_repeats],
      [Verdict.clean_threshold_separates], [Verdict.thresholds_are_the_grid].
    - The figures: [Canvas.crossing_is_intersection],
      [Figures.only_checked_figures_are_written]; both committed figures are drawn
      again ([Figures.FiguresExample.the_committed_figures]).
    - One program's file read by another: [Published.the_figure_shows_the_study],
      [ProfileFile.the_simulator_replays_the_recording].
    - Foundations: [Regex.match_at_hd] and [Regex.no_match_at] (the backtracking
      matcher against what a pattern matches), the round trips of [JsonText],
      [JsonIndent], [Decimal] and [Timestamp].

    Each has a concrete instance beside it where it has hypotheses; behaviours
    that depart from what a comment or a neighbouring path says are theorems of
    the Example modules.

    ** Interfaces

    [USD] and [RoundedUSD] (money), [SpendStore] and [SpendStoreLaws] (the store
    of [Durable]), [Registered] (what boot needs of a registry), [Marked] and
    [Emitting] (what a wire promises the reader machine), [Honest] (what a
    provider promises the gateway), [Quiet] (what a handler promises the
    middleware), [Source] and [SourceLaws] (the random generator of [LlmSim]),
    [Arith] (the coordinates of [Canvas], binary64 or exact), [Client] and
    [ClientLaws] (the Prometheus client of [Metrics]).  Clients are proved against
    the class; instances discharge it.

    ** Fuel and bounds

    [Json.value] recurses on the scanner's nesting limit, 10000, which is the
    program's own.  The readers of [Sse] and [Stream] recurse on the length of
    the body, and every turn consumes a byte ([Next_shorter]); [Router] on the
    attempt budget, which [chain_bounded] shows is enough; the trims and digit
    loops on the length of the string; a search of [Regex] on the length of the text,
    of which every match takes a byte; [Collect.embed_batches] on the number of
    texts; the draining reader of [Conformance] on the bytes of the body and one.
    The float loops of the programs have fuel in steps: the thresholds of a sweep
    ([Verdict.thresholds_are_the_grid] says when they end, and that they need not),
    the ticks of a figure ([Figures.max_tick]: 1000, four seconds of added latency;
    [Figures.only_checked_figures_are_written] tells a run that would need more from
    one that ends).  Sizes (64 KiB events, 32 MiB answers, 8 KiB failures) are those
    of the source.

    ** Integers, floats, instants

    - Go's [int], [int64] and [time.Duration] are [Z] restricted to 64-bit
      two's complement: [wrap64] is the wrap-around of every arithmetic
      operation on them, [wrapu64] the one of [uint64].
    - [time.Time] is a [Z], nanoseconds since Go's zero time (year one), so
      the zero value [time.Time{}] is [0]; [Time.Sub] saturates the way Go's
      does, [Time.Add] does not wrap (Go's wall clock has 64 bits of seconds).
    - [float64] is binary64 with every rounding.  Conservation of money is proved
      for any money that rounds each sum and difference by no more than [usd_err] of
      it: exact money by nothing, binary64 by one part in 2^53 ([Rounding]).  That
      rounding does carry a budget past its cap is
      [Budget.rounding_passes_the_cap].

    ** Not modelled

    YAML decoding (third party: a configuration and a price table are what it
    returned); the text of SQL (a table of rows); log lines and the progress of the
    commands; histogram buckets, the text exposition of Prometheus and the spans of
    obs/tracing.go; pattern matching of net/http's mux, and its listeners; the parsing
    of flags; the sentences of a denial; [math.Log] and [math.Exp] (parameters of
    [LlmSim]); the -dump listing of cmd/plot. *)

From Stdlib Require Import ZArith Lia String.
From stdpp Require Import base gmap strings list numbers sorting.

Declare Scope go_scope.
Delimit Scope go_scope with go.

Open Scope Z_scope.

(** ** 64-bit integers *)

Definition min_int64 : Z := - 2 ^ 63.
Definition max_int64 : Z := 2 ^ 63 - 1.

(** Two's complement wrap-around of a signed 64-bit result. *)
Definition wrap64 (z : Z) : Z := (z + 2 ^ 63) mod 2 ^ 64 - 2 ^ 63.

(** Wrap-around of an unsigned 64-bit result. *)
Definition wrapu64 (z : Z) : Z := z mod 2 ^ 64.

Definition is_int64 (z : Z) : Prop := min_int64 <= z <= max_int64.

Notation "a +i b" := (wrap64 (a + b)) (at level 50, left associativity) : go_scope.
Notation "a -i b" := (wrap64 (a - b)) (at level 50, left associativity) : go_scope.
Notation "a *i b" := (wrap64 (a * b)) (at level 40, left associativity) : go_scope.
Open Scope go_scope.

(** Left shift of a signed 64-bit integer by a non-negative count. *)
Definition shl64 (z n : Z) : Z := wrap64 (Z.shiftl z n).

(** ** Instants and durations *)

Abbreviation Time := Z (only parsing).
Abbreviation Duration := Z (only parsing).

Definition zeroTime : Time := 0.
Definition time_IsZero (t : Time) : bool := t =? 0.

(** [t.Sub(u)] saturates at the extremes of [time.Duration]. *)
Definition time_Sub (t u : Time) : Duration := Z.max min_int64 (Z.min max_int64 (t - u)).
Definition time_Add (t : Time) (d : Duration) : Time := t + d.
Definition time_Before (t u : Time) : bool := t <? u.
Definition time_After (t u : Time) : bool := u <? t.

Definition Nanosecond : Duration := 1.
Definition Millisecond : Duration := 1000000.
Definition Second : Duration := 1000000000.
Definition Minute : Duration := 60 * Second.
Definition Hour : Duration := 60 * Minute.

(** ** Tactics *)

(** Case analysis on the first [match]/[if] found in the goal or a hypothesis. *)
Ltac break_goal :=
  match goal with
  | |- context [match ?x with _ => _ end] => destruct x eqn:?
  end.
Ltac break_hyp :=
  match goal with
  | H : context [match ?x with _ => _ end] |- _ => destruct x eqn:?
  end.

(** Turn the boolean tests of the code into propositions. *)
Ltac bool_to_prop :=
  repeat match goal with
  | H : (_ && _)%bool = true |- _ => apply andb_true_iff in H; destruct H
  | H : (_ || _)%bool = false |- _ => apply orb_false_iff in H; destruct H
  | H : negb _ = true |- _ => apply negb_true_iff in H
  | H : negb _ = false |- _ => apply negb_false_iff in H
  | H : (_ <? _) = true |- _ => apply Z.ltb_lt in H
  | H : (_ <? _) = false |- _ => apply Z.ltb_ge in H
  | H : (_ <=? _) = true |- _ => apply Z.leb_le in H
  | H : (_ <=? _) = false |- _ => apply Z.leb_gt in H
  | H : (_ =? _) = true |- _ => apply Z.eqb_eq in H
  | H : (_ =? _) = false |- _ => apply Z.eqb_neq in H
  | H : bool_decide _ = true |- _ => apply bool_decide_eq_true in H
  | H : bool_decide _ = false |- _ => apply bool_decide_eq_false in H
  end.

(** ** Lemmas on machine integers *)

Lemma wrap64_range z : is_int64 (wrap64 z).
Proof.
  unfold is_int64, wrap64, min_int64, max_int64.
  pose proof (Z.mod_pos_bound (z + 2 ^ 63) (2 ^ 64)). lia.
Qed.

Lemma wrap64_id z : is_int64 z -> wrap64 z = z.
Proof.
  unfold is_int64, wrap64, min_int64, max_int64. intros H.
  rewrite Z.mod_small; lia.
Qed.

Lemma wrap64_idemp z : wrap64 (wrap64 z) = wrap64 z.
Proof. apply wrap64_id, wrap64_range. Qed.

Lemma wrap64_eqm a b : (exists k, a = b + k * 2 ^ 64) -> wrap64 a = wrap64 b.
Proof.
  intros [k ->]. unfold wrap64. f_equal.
  replace (b + k * 2 ^ 64 + 2 ^ 63) with (b + 2 ^ 63 + k * 2 ^ 64) by lia.
  apply Z_mod_plus_full.
Qed.

Lemma wrap64_spec z : exists k, wrap64 z = z + k * 2 ^ 64.
Proof.
  unfold wrap64. exists (- ((z + 2 ^ 63) / 2 ^ 64)).
  pose proof (Z.div_mod (z + 2 ^ 63) (2 ^ 64)). lia.
Qed.

Lemma wrap64_add_l a b : wrap64 a +i b = a +i b.
Proof. destruct (wrap64_spec a) as [k ->]. apply wrap64_eqm. exists k. lia. Qed.

Lemma wrap64_add_r a b : a +i wrap64 b = a +i b.
Proof. destruct (wrap64_spec b) as [k ->]. apply wrap64_eqm. exists k. lia. Qed.

Lemma wrap64_sub_l a b : wrap64 a -i b = a -i b.
Proof. destruct (wrap64_spec a) as [k ->]. apply wrap64_eqm. exists k. lia. Qed.

Lemma wrap64_sub_r a b : a -i wrap64 b = a -i b.
Proof. destruct (wrap64_spec b) as [k ->]. apply wrap64_eqm. exists (- k). lia. Qed.

Lemma wrapu64_id z : 0 <= z < 2 ^ 64 -> wrapu64 z = z.
Proof. apply Z.mod_small. Qed.

Lemma wrapu64_range z : 0 <= wrapu64 z < 2 ^ 64.
Proof. apply Z.mod_pos_bound. lia. Qed.

(** ** Lemmas on instants *)

Lemma time_Sub_lt t u d : is_int64 d -> time_Sub t u < d -> t - u < d.
Proof. unfold is_int64, time_Sub, min_int64, max_int64. lia. Qed.

Lemma time_Sub_ge t u d : is_int64 d -> d <= time_Sub t u -> min_int64 < d -> d <= t - u.
Proof. unfold is_int64, time_Sub, min_int64, max_int64. lia. Qed.

(** For a duration of the representable range, saturation is invisible to a
    comparison. *)
Lemma time_Sub_ltb t u d :
  min_int64 < d <= max_int64 -> (time_Sub t u <? d) = (t - u <? d).
Proof.
  unfold time_Sub, min_int64, max_int64. intros H.
  destruct (t - u <? d) eqn:E; bool_to_prop; [apply Z.ltb_lt | apply Z.ltb_ge]; lia.
Qed.

Lemma time_Sub_leb t u d :
  min_int64 < d <= max_int64 -> (d <=? time_Sub t u) = (d <=? t - u).
Proof.
  unfold time_Sub, min_int64, max_int64. intros H.
  destruct (d <=? t - u) eqn:E; bool_to_prop; [apply Z.leb_le | apply Z.leb_gt]; lia.
Qed.

(** ** Lemmas on lists *)

Lemma list_filter_ext_in {A} (P Q : A -> Prop) `{!forall x, Decision (P x)}
    `{!forall x, Decision (Q x)} (l : list A) :
  (forall x, x ∈ l -> P x <-> Q x) -> base.filter P l = base.filter Q l.
Proof.
  induction l as [|x l IH]; intros Hl; [done|]. rewrite !filter_cons.
  rewrite IH by (intros; apply Hl; by right).
  pose proof (Hl x (list_elem_of_here _ _)). do 2 case_decide; naive_solver.
Qed.

Lemma list_filter_all {A} (P : A -> Prop) `{!forall x, Decision (P x)} (l : list A) :
  Forall P l -> base.filter P l = l.
Proof. induction 1; [done|]. rewrite filter_cons, decide_True by done. by f_equal. Qed.

(** ** Hint databases *)

Create HintDb go_arith.
Create Rewrite HintDb go_arith.
#[export] Hint Resolve wrap64_range wrapu64_range : go_arith.
#[export] Hint Rewrite wrap64_idemp wrap64_add_l wrap64_add_r wrap64_sub_l wrap64_sub_r
  : go_arith.
