(* ===== verification/Float64.v ===== *)
(** * IEEE-754 binary64, as Go's [float64]

    Money (USD), latency averages and similarity scores are [float64] in the
    program.  The model computes with the Standard Library's executable
    specification of IEEE-754 ([SpecFloat], precision 53, maximal exponent
    1024, round to nearest even), so a witness evaluates the same roundings
    the program performs (on a target that does not fuse multiply and add,
    such as amd64).  [f64_nonneg] is closed under the operations the accounting
    uses, so a cost computed from non-negative rates is never negative and never
    a NaN. *)

From Stdlib Require Import ZArith Lia.
From Stdlib Require Import SpecFloat.
From stdpp Require Import base numbers.
From S2P Require Import Prelude.

Local Open Scope Z_scope.

Abbreviation f64 := spec_float (only parsing).

Definition f64_prec : Z := 53.
Definition f64_emax : Z := 1024.

Definition f64_zero : f64 := S754_zero false.

(** [float64(n)] for an integer [n]. *)
Definition f64_of_Z (z : Z) : f64 := binary_normalize f64_prec f64_emax z 0 false.

Definition f64_add (x y : f64) : f64 := SFadd f64_prec f64_emax x y.
Definition f64_sub (x y : f64) : f64 := SFsub f64_prec f64_emax x y.
Definition f64_mul (x y : f64) : f64 := SFmul f64_prec f64_emax x y.
Definition f64_div (x y : f64) : f64 := SFdiv f64_prec f64_emax x y.
Definition f64_sqrt (x : f64) : f64 := SFsqrt f64_prec f64_emax x.

Definition f64_ltb (x y : f64) : bool := SFltb x y.
Definition f64_leb (x y : f64) : bool := SFleb x y.
Definition f64_eqb (x y : f64) : bool := SFeqb x y.
Definition f64_is_nan (x : f64) : bool := match x with S754_nan => true | _ => false end.

(** A decimal constant [p/q] of the source, [p] and [q] exactly representable. *)
Definition f64_ratio (p q : Z) : f64 := f64_div (f64_of_Z p) (f64_of_Z q).

(** [int64(x)]: truncation toward zero.  Out of range (and NaN) the result is
    the one of amd64, [math.MinInt64]. *)
Definition f64_to_int64 (x : f64) : Z :=
  match x with
  | S754_zero _ => 0
  | S754_finite s m e =>
      let magnitude := if 0 <=? e then Z.shiftl (Zpos m) e else Z.shiftr (Zpos m) (- e) in
      let t := cond_Zopp s magnitude in
      if (min_int64 <=? t) && (t <=? max_int64) then t else min_int64
  | _ => min_int64
  end.

(** [math.Round]: to the nearest integer, halves away from zero; the sign of a
    zero is kept. *)
Definition f64_round (x : f64) : f64 :=
  match x with
  | S754_finite s m e =>
      if 0 <=? e then x
      else match Z.shiftr (Zpos m + Z.shiftl 1 (- e - 1)) (- e) with
           | 0 => S754_zero s
           | q => binary_normalize f64_prec f64_emax (cond_Zopp s q) 0 s
           end
  | _ => x
  end.

(** [math.Ceil]. *)
Definition f64_ceil (x : f64) : f64 :=
  match x with
  | S754_finite s m e =>
      if 0 <=? e then x
      else match Z.shiftr (if s then Zpos m else Zpos m + Z.shiftl 1 (- e) - 1) (- e) with
           | 0 => S754_zero s
           | q => binary_normalize f64_prec f64_emax (cond_Zopp s q) 0 s
           end
  | _ => x
  end.

#[export] Instance spec_float_eq_dec : EqDecision f64.
Proof. solve_decision. Defined.

(** ** Facts about comparison and addition *)

Lemma f64_ltb_irrefl x : f64_ltb x x = false.
Proof.
  unfold f64_ltb, SFltb, SFcompare. destruct x as [s|s| |s m e]; try destruct s; try reflexivity;
    rewrite Z.compare_refl, Pos.compare_cont_refl; reflexivity.
Qed.

Lemma f64_add_zero_r x :
  x <> S754_zero true -> f64_add x f64_zero = x.
Proof.
  intros H. destruct x as [[]|s| |s m e]; try reflexivity; congruence.
Qed.

(** ** Non-negative values

    Positive zero, positive finite numbers and positive infinity. *)

Definition f64_nonneg (x : f64) : Prop :=
  match x with
  | S754_zero false | S754_infinity false | S754_finite false _ _ => True
  | _ => False
  end.

Definition f64_finite (x : f64) : bool :=
  match x with S754_zero _ | S754_finite _ _ _ => true | _ => false end.

Lemma shr_1_nonneg r : 0 <= shr_m r -> 0 <= shr_m (shr_1 r).
Proof. destruct r as [[|[p|p|]|p] b1 b2]; simpl; lia. Qed.

Lemma iter_shr_1_nonneg p r : 0 <= shr_m r -> 0 <= shr_m (SpecFloat.iter_pos shr_1 p r).
Proof. revert r. induction p; intros r Hr; simpl; auto using shr_1_nonneg. Qed.

Lemma shr_fexp_nonneg m e l : 0 <= m -> 0 <= shr_m (shr_fexp f64_prec f64_emax m e l).1.
Proof.
  intros Hm. unfold shr_fexp, shr.
  assert (0 <= shr_m (shr_record_of_loc m l)) by (destruct l as [|[]]; simpl; lia).
  destruct (_ - _); simpl; [done| |done]. by apply iter_shr_1_nonneg.
Qed.

Lemma round_nearest_even_nonneg m l : 0 <= m -> 0 <= round_nearest_even m l.
Proof. intros Hm. destruct l as [|[]]; simpl; try destruct (Z.even m); lia. Qed.

Lemma binary_round_aux_nonneg m e l :
  0 <= m -> f64_nonneg (binary_round_aux f64_prec f64_emax false m e l).
Proof.
  intros Hm. unfold binary_round_aux.
  pose proof (shr_fexp_nonneg m e l Hm) as H1.
  destruct (shr_fexp _ _ m e l) as [r1 e1]; simpl in H1.
  pose proof (shr_fexp_nonneg _ e1 loc_Exact
    (round_nearest_even_nonneg _ (loc_of_shr_record r1) H1)) as H2.
  destruct (shr_fexp _ _ _ e1 loc_Exact) as [r2 e2]; simpl in H2.
  destruct (shr_m r2) as [|p|p]; simpl; [done| |lia]. by destruct (e2 <=? _).
Qed.

Lemma binary_normalize_nonneg m e :
  0 <= m -> f64_nonneg (binary_normalize f64_prec f64_emax m e false).
Proof.
  intros Hm. destruct m as [|p|p]; simpl; [done| |lia].
  unfold binary_round. destruct (shl_align _ _ _). by apply binary_round_aux_nonneg.
Qed.

Lemma f64_of_Z_nonneg z : 0 <= z -> f64_nonneg (f64_of_Z z).
Proof. apply binary_normalize_nonneg. Qed.

Lemma f64_add_nonneg x y : f64_nonneg x -> f64_nonneg y -> f64_nonneg (f64_add x y).
Proof.
  destruct x as [[]|[]| |[] mx ex], y as [[]|[]| |[] my ey]; simpl; try done.
  intros _ _. change (f64_nonneg (binary_normalize f64_prec f64_emax
    (Zpos (shl_align mx ex (Z.min ex ey)).1 + Zpos (shl_align my ey (Z.min ex ey)).1)
    (Z.min ex ey) false)).
  apply binary_normalize_nonneg. lia.
Qed.

Lemma f64_mul_nonneg x y :
  f64_nonneg x -> f64_nonneg y -> f64_finite x = true -> f64_finite y = true ->
  f64_nonneg (f64_mul x y).
Proof.
  destruct x as [[]|[]| |[] mx ex], y as [[]|[]| |[] my ey]; simpl; try done.
  intros _ _ _ _. by apply binary_round_aux_nonneg.
Qed.

Lemma f64_div_nonneg x m e :
  f64_nonneg x -> f64_nonneg (f64_div x (S754_finite false m e)).
Proof.
  destruct x as [[]|[]| |[] mx ex]; simpl; try done. intros _.
  unfold f64_div, SFdiv.
  destruct (SFdiv_core_binary _ _ _ _ _ _) as [[mz ez] lz] eqn:E. simpl.
  apply binary_round_aux_nonneg. unfold SFdiv_core_binary in E.
  set (s := match _ with Z0 => _ | Zpos _ => _ | Zneg _ => _ end) in E.
  assert (Hs : 0 <= s).
  { unfold s. destruct (_ - _) as [|p|p]; [lia| |lia]. by apply Z.shiftl_nonneg. }
  pose proof (Z_div_mod s (Zpos m) ltac:(lia)) as D.
  destruct (Z.div_eucl s (Zpos m)) as [q r]. destruct D as [D1 D2].
  injection E as <- _ _. nia.
Qed.

(** A non-negative value is not less than zero, and comparing with a NaN is
    false. *)
Lemma f64_nonneg_not_neg x : f64_nonneg x -> f64_ltb x f64_zero = false.
Proof. by destruct x as [[]|[]| |[] m e]. Qed.

Lemma f64_nan_ltb x : f64_ltb S754_nan x = false /\ f64_ltb x S754_nan = false.
Proof. by destruct x. Qed.

(** ** A 64-bit integer converts to a finite number *)

Lemma digits2_pos_log2 p : Zpos (digits2_pos p) = Z.log2 (Zpos p) + 1.
Proof.
  assert (E : digits2_pos p = Pos.size p) by (induction p; simpl; congruence). rewrite E.
  destruct p; simpl; lia.
Qed.

Lemma Zdigits2_le a b : 0 <= a <= b -> Zdigits2 a <= Zdigits2 b.
Proof.
  intros [Ha Hb]. destruct a as [|a|a], b as [|b|b]; simpl; try lia.
  rewrite !digits2_pos_log2. pose proof (Z.log2_le_mono (Zpos a) (Zpos b)). lia.
Qed.

Lemma Zdigits2_succ a : 0 <= a -> Zdigits2 (a + 1) <= Zdigits2 a + 1.
Proof.
  intros Ha. destruct a as [|a|a]; [simpl; lia| |lia].
  change (Zpos a + 1) with (Zpos (a + 1)). unfold Zdigits2. rewrite !digits2_pos_log2.
  pose proof (Z.log2_succ_le (Zpos a)) as L.
  change (Z.succ (Zpos a)) with (Zpos (a + 1)) in L. lia.
Qed.

Lemma shr_1_le r : 0 <= shr_m r -> shr_m (shr_1 r) <= shr_m r.
Proof. destruct r as [[|[p|p|]|p] b1 b2]; simpl; lia. Qed.

Lemma iter_shr_1_le p r : 0 <= shr_m r -> shr_m (SpecFloat.iter_pos shr_1 p r) <= shr_m r.
Proof.
  revert r. induction p; intros r Hr; simpl.
  - pose proof (shr_1_nonneg r Hr). pose proof (shr_1_le r Hr).
    pose proof (IHp (shr_1 r) ltac:(done)).
    pose proof (IHp (SpecFloat.iter_pos shr_1 p (shr_1 r)) ltac:(by apply iter_shr_1_nonneg)). lia.
  - pose proof (IHp r Hr).
    pose proof (IHp (SpecFloat.iter_pos shr_1 p r) ltac:(by apply iter_shr_1_nonneg)). lia.
  - by apply shr_1_le.
Qed.

Lemma shr_fexp_le m e l :
  0 <= m -> shr_m (shr_fexp f64_prec f64_emax m e l).1 <= m /\
  (shr_fexp f64_prec f64_emax m e l).2
  = Z.max e (fexp f64_prec f64_emax (Zdigits2 m + e)).
Proof.
  intros Hm. unfold shr_fexp, shr.
  assert (E : shr_m (shr_record_of_loc m l) = m) by (destruct l as [|[]]; done).
  destruct (_ - e) eqn:D; cbn [fst snd]; rewrite ?E; [lia| |lia]. split; [|lia].
  rewrite <- E at 2. apply iter_shr_1_le. by rewrite E.
Qed.

Lemma binary_round_aux_finite m e l :
  0 <= m -> -60 <= e <= 64 -> Zdigits2 m + e <= 64 ->
  f64_finite (binary_round_aux f64_prec f64_emax false m e l) = true.
Proof.
  intros Hm He Hd. unfold binary_round_aux.
  destruct (shr_fexp_le m e l Hm) as [L1 E1]. pose proof (shr_fexp_nonneg m e l Hm) as N1.
  destruct (shr_fexp _ _ m e l) as [r1 e1]; cbn [fst snd] in *.
  set (m2 := round_nearest_even _ _).
  assert (N2 : 0 <= m2) by (by apply round_nearest_even_nonneg).
  assert (L2 : m2 <= m + 1).
  { unfold m2, round_nearest_even. destruct (loc_of_shr_record r1) as [|[]];
      try destruct (Z.even _); lia. }
  destruct (shr_fexp_le m2 e1 loc_Exact N2) as [L3 E3].
  pose proof (shr_fexp_nonneg m2 e1 loc_Exact N2) as N3.
  destruct (shr_fexp _ _ m2 e1 loc_Exact) as [r2 e2]; cbn [fst snd] in *.
  pose proof (Zdigits2_le m2 (m + 1) ltac:(lia)). pose proof (Zdigits2_succ m Hm).
  assert (e2 <= 971) by (unfold fexp, emin, f64_prec, f64_emax in *; lia).
  destruct (shr_m r2) as [|p|p]; simpl; [done| |lia].
  unfold f64_emax, f64_prec. replace (e2 <=? 1024 - 53) with true; [done|].
  symmetry. apply Z.leb_le. lia.
Qed.

Lemma digits2_shift m d : Zpos (digits2_pos (Pos.iter xO m d)) = Zpos (digits2_pos m) + Zpos d.
Proof.
  revert m. induction d as [|d IH] using Pos.peano_ind; intros m; [simpl; lia|].
  rewrite Pos.iter_succ. simpl. rewrite Pos2Z.inj_succ, IH. lia.
Qed.

Lemma f64_of_Z_finite z : 0 <= z <= max_int64 -> f64_finite (f64_of_Z z) = true.
Proof.
  intros Hz. unfold f64_of_Z. destruct z as [|p|p]; [done| |lia].
  unfold binary_normalize, binary_round.
  assert (Hd : 1 <= Zpos (digits2_pos p) <= 64).
  { rewrite digits2_pos_log2. pose proof (Z.log2_nonneg (Zpos p)).
    pose proof (Z.log2_le_mono (Zpos p) max_int64 ltac:(lia)) as L.
    change (Z.log2 max_int64) with 62 in L. lia. }
  rewrite Z.add_0_r. set (d := Zpos (digits2_pos p)) in *.
  assert (Hf : fexp f64_prec f64_emax d = d - 53)
    by (unfold fexp, emin, f64_prec, f64_emax; lia).
  rewrite Hf. unfold shl_align. rewrite Z.sub_0_r.
  destruct (d - 53) eqn:E; apply binary_round_aux_finite; try lia;
    unfold Zdigits2; rewrite ?digits2_shift; fold d; lia.
Qed.

(** ** The order *)

(** A number's place in the order, lexicographically. *)
Definition f64_rank (x : f64) : Z * Z * Z :=
  match x with
  | S754_infinity true => (0, 0, 0)
  | S754_finite true m e => (1, - e, - Zpos m)
  | S754_zero _ => (2, 0, 0)
  | S754_finite false m e => (3, e, Zpos m)
  | S754_infinity false => (4, 0, 0)
  | S754_nan => (0, 0, 0)
  end.

Definition rank_lt (p q : Z * Z * Z) : Prop :=
  p.1.1 < q.1.1 \/ p.1.1 = q.1.1 /\ (p.1.2 < q.1.2 \/ p.1.2 = q.1.2 /\ p.2 < q.2).

Lemma f64_ltb_rank x y :
  f64_is_nan x = false -> f64_is_nan y = false ->
  f64_ltb x y = true <-> rank_lt (f64_rank x) (f64_rank y).
Proof.
  intros Hx Hy. unfold f64_ltb, SFltb, SFcompare, rank_lt.
  destruct x as [[]|[]| |[] m e], y as [[]|[]| |[] m' e']; simpl in *; try done;
    try (split; [done|lia]); try (split; [lia|done]);
    destruct (Z.compare_spec e e') as [->|E|E]; simpl;
    try (fold (Pos.compare m m'); destruct (Pos.compare_spec m m') as [->|E|E]; simpl);
    split; intros; try done; lia.
Qed.

Lemma f64_not_less_trans a b c :
  f64_is_nan a = false -> f64_is_nan b = false -> f64_is_nan c = false ->
  f64_ltb b a = false -> f64_ltb c b = false -> f64_ltb c a = false.
Proof.
  intros Ha Hb Hc H1 H2. apply not_true_iff_false. rewrite f64_ltb_rank by done.
  apply not_true_iff_false in H1, H2. rewrite f64_ltb_rank in H1, H2 by done.
  unfold rank_lt in *. lia.
Qed.

Lemma f64_less_asym a b :
  f64_is_nan a = false -> f64_is_nan b = false -> f64_ltb a b = true -> f64_ltb b a = false.
Proof.
  intros Ha Hb H. apply not_true_iff_false. rewrite f64_ltb_rank by done.
  rewrite f64_ltb_rank in H by done. unfold rank_lt in *. lia.
Qed.

Lemma f64_leb_not_ltb x y : f64_leb x y = true -> f64_ltb y x = false.
Proof.
  unfold f64_leb, f64_ltb, SFleb, SFltb, SFcompare. intros H.
  destruct x as [[]|[]| |[] m e], y as [[]|[]| |[] m' e']; simpl in *; try done;
    rewrite (Z.compare_antisym e e'); destruct (e ?= e') eqn:E; simpl in *; try done;
    change (Pos.compare_cont Eq m m') with (Pos.compare m m') in *;
    change (Pos.compare_cont Eq m' m) with (Pos.compare m' m) in *;
    rewrite (Pos.compare_antisym m m'); destruct (m ?= m')%positive; done.
Qed.

Lemma f64_to_int64_range x : is_int64 (f64_to_int64 x).
Proof.
  unfold f64_to_int64, is_int64. destruct x as [s|s| |s m e]; try (unfold min_int64, max_int64; lia).
  match goal with |- context [cond_Zopp s ?m] => generalize (cond_Zopp s m) end. intros t.
  destruct ((min_int64 <=? t) && (t <=? max_int64)) eqn:E; [bool_to_prop; lia|unfold min_int64, max_int64; lia].
Qed.
