(* ===== verification/Rounding.v ===== *)
(** * How far binary64 arithmetic is from exact arithmetic

    Every finite [float64] is a whole number of units of 2^-1074, so its value is
    an integer, [f64_units].  Addition and subtraction of numbers give the exact
    result rounded to nearest: off by at most one part in 2^53 of it, exact as
    long as it needs no more than 53 bits, and infinite only past the largest
    number.  Comparison is exact.  The accounting of money ([Money], [Budget],
    [Admin]) and the geometry of a figure ([Canvas]) rest on this. *)

From Stdlib Require Import ZArith Lia SpecFloat.
From stdpp Require Import base numbers.
From S2P Require Import Prelude Float64.

Local Open Scope Z_scope.

(** ** Numbers and their values *)

(** What a [float64] can be: its mantissa and exponent are canonical. *)
Definition is_float (x : f64) : Prop := valid_binary f64_prec f64_emax x = true.

Definition is_number (x : f64) : Prop := is_float x /\ f64_finite x = true.

(** The value, in units of 2^-1074; no unit of measure for an infinity or a NaN. *)
Definition f64_units (x : f64) : Z :=
  match x with S754_finite s m e => cond_Zopp s (Zpos m * 2 ^ (e + 1074)) | _ => 0 end.

(** Half a unit in the last place of a result, at most. *)
Definition f64_rounding (v : Z) : Z := Z.abs v / 2 ^ 53.

(** [math.MaxFloat64]. *)
Definition max_units : Z := (2 ^ 53 - 1) * 2 ^ 2045.

(** ** Mantissas *)

Lemma shl_align_value m e ez : ez <= e -> Zpos (shl_align m e ez).1 = Zpos m * 2 ^ (e - ez).
Proof.
  intros L. unfold shl_align. destruct (ez - e) as [|d|d] eqn:D; cbn [fst].
  - replace (e - ez) with 0 by lia. lia.
  - lia.
  - replace (e - ez) with (Zpos d) by lia. clear D L.
    induction d as [|d IH] using Pos.peano_ind; [simpl; lia|].
    rewrite Pos.iter_succ, Pos2Z.inj_succ, Z.pow_succ_r by lia. rewrite Pos2Z.inj_xO, IH. ring.
Qed.

Lemma shl_align_exponent m e ez : ez <= e -> (shl_align m e ez).2 = ez.
Proof. intros L. unfold shl_align. destruct (ez - e) as [|d|d] eqn:D; cbn [snd]; lia. Qed.

Lemma shl_align_down m e ez : e < ez -> shl_align m e ez = (m, e).
Proof. intros L. unfold shl_align. by destruct (ez - e) as [|d|d] eqn:D; [lia| |lia]. Qed.

Lemma digits2_bounds m :
  1 <= Zpos (digits2_pos m) /\ 2 ^ (Zpos (digits2_pos m) - 1) <= Zpos m < 2 ^ Zpos (digits2_pos m).
Proof.
  rewrite digits2_pos_log2. replace (Z.log2 (Zpos m) + 1 - 1) with (Z.log2 (Zpos m)) by lia.
  pose proof (Z.log2_nonneg (Zpos m)). split; [lia|]. by apply Z.log2_spec.
Qed.

Lemma digits2_unique m d : 1 <= d -> 2 ^ (d - 1) <= Zpos m < 2 ^ d -> Zpos (digits2_pos m) = d.
Proof.
  intros D B. rewrite digits2_pos_log2. rewrite (Z.log2_unique (Zpos m) (d - 1)); [lia|lia|].
  replace (Z.succ (d - 1)) with d by lia. exact B.
Qed.

Lemma bounded_mantissa m e : bounded f64_prec f64_emax m e = true ->
  Zpos m < 2 ^ 53 /\ (-1074 < e -> 2 ^ 52 <= Zpos m) /\ -1074 <= e.
Proof.
  unfold bounded, canonical_mantissa. intros [C%Z.eqb_eq _]%andb_true_iff. unfold fexp, emin, f64_prec, f64_emax in C.
  rewrite digits2_pos_log2 in C. pose proof (Z.log2_spec (Zpos m) eq_refl) as [L U].
  assert (Z.log2 (Zpos m) <= 52) by lia. split_and!.
  - eapply Z.lt_le_trans; [exact U|]. apply Z.pow_le_mono_r; lia.
  - intros E. assert (Z.log2 (Zpos m) = 52) as L52 by lia. by rewrite L52 in L.
  - lia.
Qed.

Lemma bounded_exponent m e : bounded f64_prec f64_emax m e = true -> e <= 971.
Proof. unfold bounded. by intros [_ E%Z.leb_le]%andb_true_iff. Qed.

(** The order of two canonical magnitudes is the one of their exponents first. *)
Lemma magnitude_order m e m' e' :
  bounded f64_prec f64_emax m e = true -> bounded f64_prec f64_emax m' e' = true ->
  (e < e' \/ e = e' /\ (m <= m')%positive) ->
  Zpos (shl_align m e (Z.min e e')).1 <= Zpos (shl_align m' e' (Z.min e e')).1.
Proof.
  intros B B' O. rewrite !shl_align_value by lia. apply bounded_mantissa in B as (U & _ & L), B' as (_ & L' & _).
  destruct O as [O|[-> O]]; [|rewrite !Z.min_id, Z.sub_diag; lia].
  rewrite Z.min_l, Z.sub_diag by lia. specialize (L' ltac:(lia)).
  replace (2 ^ (e' - e)) with (2 * 2 ^ (e' - e - 1)) by (rewrite <- Z.pow_succ_r by lia; f_equal; lia).
  pose proof (Z.pow_pos_nonneg 2 (e' - e - 1)). nia.
Qed.

(** ** Shifting right, with the bits that fall off *)

(** [r] is [m] shifted by [k]: its last two fields compare what fell off with
    half of the last bit that is left. *)
Definition shifted (m k : Z) (r : shr_record) : Prop :=
  exists lost, m = shr_m r * 2 ^ k + lost /\ 0 <= shr_m r /\ 0 <= lost < 2 ^ k /\
    match shr_r r, shr_s r with
    | false, false => lost = 0
    | false, true => 0 < 2 * lost < 2 ^ k
    | true, false => 2 * lost = 2 ^ k
    | true, true => 2 ^ k < 2 * lost
    end.

Lemma shr_1_spec r : 0 <= shr_m r ->
  shr_m r = 2 * shr_m (shr_1 r) + Z.b2z (shr_r (shr_1 r)) /\ shr_s (shr_1 r) = shr_r r || shr_s r.
Proof. destruct r as [[|[p|p|]|p] b1 b2]; cbn; intros; split; done || lia. Qed.

Lemma shifted_exact m : 0 <= m -> shifted m 0 (Build_shr_record m false false).
Proof. intros H. exists 0. cbn. split_and!; lia. Qed.

Lemma shifted_once m k r : 0 <= k -> shifted m k r -> shifted m (k + 1) (shr_1 r).
Proof.
  intros Hk (lost & E & N & L & C). destruct (shr_1_spec r N) as [E1 E2].
  exists (Z.b2z (shr_r (shr_1 r)) * 2 ^ k + lost). pose proof (shr_1_nonneg r N). rewrite E2.
  rewrite Z.pow_add_r by lia. change (2 ^ 1) with 2. pose proof (Z.pow_pos_nonneg 2 k).
  split_and!; try done.
  - rewrite E at 1. rewrite E1. ring.
  - destruct (shr_r (shr_1 r)); cbn [Z.b2z]; lia.
  - destruct (shr_r (shr_1 r)); cbn [Z.b2z]; lia.
  - destruct (shr_r (shr_1 r)), (shr_r r), (shr_s r); cbn [Z.b2z orb]; lia.
Qed.

Lemma shifted_iter p : forall m k r, 0 <= k -> shifted m k r -> shifted m (k + Zpos p) (SpecFloat.iter_pos shr_1 p r).
Proof.
  induction p as [p IH|p IH|]; intros m k r Hk S; cbn [SpecFloat.iter_pos].
  - replace (k + Zpos p~1) with (k + 1 + Zpos p + Zpos p) by lia.
    apply IH; [lia|]. apply IH; [lia|]. by apply shifted_once.
  - replace (k + Zpos p~0) with (k + Zpos p + Zpos p) by lia. apply IH; [lia|]. by apply IH.
  - by apply shifted_once.
Qed.

(** Rounding to nearest: at most half of the last bit away, and never past a
    multiple of it. *)
Lemma round_nearest m k r : 0 <= k -> shifted m k r ->
  let q := round_nearest_even (shr_m r) (loc_of_shr_record r) in
  2 * Z.abs (q * 2 ^ k - m) <= 2 ^ k /\
  (forall u, m <= u * 2 ^ k -> q <= u) /\ (forall u, u * 2 ^ k <= m -> u <= q).
Proof.
  intros Hk (lost & E & N & L & C). pose proof (Z.pow_pos_nonneg 2 k ltac:(lia) Hk) as P.
  assert (Q : let q := round_nearest_even (shr_m r) (loc_of_shr_record r) in
    q = shr_m r /\ 2 * lost <= 2 ^ k \/ q = shr_m r + 1 /\ 2 ^ k <= 2 * lost).
  { destruct r as [q [] []]; cbn in *; try (destruct (Z.even q)); lia. }
  cbv zeta in Q |- *. generalize dependent (round_nearest_even (shr_m r) (loc_of_shr_record r)).
  intros q Q. set (p := 2 ^ k) in *. split_and!.
  - destruct Q as [[-> ?]|[-> ?]]; nia.
  - intros u U. destruct Q as [[-> ?]|[-> ?]]; nia.
  - intros u U. destruct Q as [[-> ?]|[-> ?]]; nia.
Qed.

(** ** Rounding a mantissa *)

Lemma canonical_shift m e : fexp f64_prec f64_emax (Zdigits2 (Zpos m) + e) = e ->
  shr_fexp f64_prec f64_emax (Zpos m) e loc_Exact = (Build_shr_record (Zpos m) false false, e).
Proof. intros C. unfold shr_fexp. rewrite C, Z.sub_diag. done. Qed.

Lemma round_canonical s m e : fexp f64_prec f64_emax (Zpos (digits2_pos m) + e) = e ->
  binary_round_aux f64_prec f64_emax s (Zpos m) e loc_Exact
  = if e <=? 971 then S754_finite s m e else S754_infinity s.
Proof. intros C. unfold binary_round_aux. rewrite canonical_shift by done. cbn -[Z.leb]. rewrite canonical_shift by done. done. Qed.

Lemma canonical_of_digits m e : -1074 <= e -> 2 ^ 52 <= Zpos m < 2 ^ 53 ->
  fexp f64_prec f64_emax (Zpos (digits2_pos m) + e) = e.
Proof. intros E B. rewrite (digits2_unique m 53) by lia. unfold fexp, emin, f64_prec, f64_emax. lia. Qed.

(** What is left to do once a mantissa of 53 bits was rounded: a carry into the
    54th is shifted out again. *)
Lemma after_rounding q e : -1074 <= e -> 2 ^ 52 <= q <= 2 ^ 53 ->
  exists m' e', (shr_fexp f64_prec f64_emax q e loc_Exact) = (Build_shr_record (Zpos m') false false, e') /\
    e <= e' <= e + 1 /\ (q < 2 ^ 53 -> e' = e) /\ Zpos m' * 2 ^ (e' - e) = q /\
    fexp f64_prec f64_emax (Zpos (digits2_pos m') + e') = e'.
Proof.
  intros E [L U]. destruct (Z.eq_dec q (2 ^ 53)) as [->|N].
  - exists (2 ^ 52)%positive, (e + 1). unfold shr_fexp. change (Zdigits2 (2 ^ 53)) with 54.
    replace (fexp f64_prec f64_emax (54 + e)) with (e + 1) by (unfold fexp, emin, f64_prec, f64_emax; lia).
    replace (e + 1 - e) with 1 by lia. split_and!; [done|lia|lia|lia|done|].
    apply canonical_of_digits; lia.
  - destruct q as [|m|m]; [lia| |lia]. exists m, e.
    assert (C : fexp f64_prec f64_emax (Zpos (digits2_pos m) + e) = e) by (apply canonical_of_digits; lia).
    rewrite canonical_shift by done. split_and!; [done|lia|lia|done|rewrite Z.sub_diag; lia|done].
Qed.

(** [m * 2^e] rounded to 53 bits: a canonical mantissa and exponent within one
    part in 2^53, the exponent in range whenever the value is. *)
Definition rounds (m : positive) (e : Z) (m' : positive) (e' : Z) : Prop :=
  -1074 <= e' /\ fexp f64_prec f64_emax (Zpos (digits2_pos m') + e') = e' /\
  Z.abs (Zpos m' * 2 ^ (e' + 1074) - Zpos m * 2 ^ (e + 1074)) * 2 ^ 53 <= Zpos m * 2 ^ (e + 1074) /\
  (Zpos m * 2 ^ (e + 1074) <= max_units -> e' <= 971).

(** A value in range has an exponent in range, with its 53 bits. *)
Lemma exponent_in_range m e : -1074 <= e -> Zpos m * 2 ^ (e + 1074) <= max_units -> Zpos (digits2_pos m) + e <= 1024.
Proof.
  intros E L. destruct (digits2_bounds m) as (D & Lo & _). destruct (Z_le_gt_dec (Zpos (digits2_pos m) + e) 1024) as [|G]; [done|].
  exfalso. assert (2 ^ 2098 <= Zpos m * 2 ^ (e + 1074)); [|unfold max_units in L; lia].
  transitivity (2 ^ (Zpos (digits2_pos m) - 1) * 2 ^ (e + 1074)).
  - rewrite <- Z.pow_add_r by lia. apply Z.pow_le_mono_r; lia.
  - apply Z.mul_le_mono_nonneg_r; [|done]. apply Z.pow_nonneg. lia.
Qed.

Lemma round_up_exponent s m e : -1074 <= e -> fexp f64_prec f64_emax (Zpos (digits2_pos m) + e) <= e ->
  exists m' e', rounds m e m' e' /\
    binary_round f64_prec f64_emax s m e = (if e' <=? 971 then S754_finite s m' e' else S754_infinity s).
Proof.
  intros E F. set (f := fexp f64_prec f64_emax (Zpos (digits2_pos m) + e)) in *.
  unfold binary_round. fold f. pose proof (shl_align_value m e f F) as V. pose proof (shl_align_exponent m e f F) as X.
  destruct (shl_align m e f) as [m' e']. cbn [fst snd] in V, X. subst e'.
  assert (D : Zpos (digits2_pos m') = Zpos (digits2_pos m) + (e - f)).
  { rewrite !digits2_pos_log2, V, Z.log2_mul_pow2; lia. }
  assert (C : fexp f64_prec f64_emax (Zpos (digits2_pos m') + f) = f).
  { rewrite D. replace (_ + (e - f) + f) with (Zpos (digits2_pos m) + e) by lia. done. }
  exists m', f. split; [|by apply round_canonical]. unfold rounds.
  assert (F' : -1074 <= f) by (unfold f, fexp, emin, f64_prec, f64_emax; lia).
  split_and!; [done|done| |].
  - rewrite V, <- Z.mul_assoc, <- Z.pow_add_r by lia. replace (e - f + (f + 1074)) with (e + 1074) by lia.
    rewrite Z.sub_diag. pose proof (Z.pow_nonneg 2 (e + 1074)). lia.
  - intros L. apply exponent_in_range in L; [|done]. unfold f, fexp, emin, f64_prec, f64_emax. lia.
Qed.

Lemma round_down_mantissa s m e : -1074 <= e -> e < fexp f64_prec f64_emax (Zpos (digits2_pos m) + e) ->
  exists m' e', rounds m e m' e' /\
    binary_round f64_prec f64_emax s m e = (if e' <=? 971 then S754_finite s m' e' else S754_infinity s).
Proof.
  intros E F. set (f := fexp f64_prec f64_emax (Zpos (digits2_pos m) + e)) in *.
  set (d := Zpos (digits2_pos m)) in *. assert (Ef : f = d + e - 53) by (unfold f, fexp, emin, f64_prec, f64_emax in *; lia).
  unfold binary_round. fold d f. rewrite shl_align_down by done.
  unfold binary_round_aux, shr_fexp at 1. change (Zdigits2 (Zpos m)) with d. fold f.
  unfold shr. destruct (f - e) as [|n|n] eqn:N; [lia| |lia].
  pose proof (shifted_iter n (Zpos m) 0 _ ltac:(lia) (shifted_exact (Zpos m) ltac:(lia))) as S.
  cbn [shr_record_of_loc]. rewrite Z.add_0_l in S.
  destruct (round_nearest _ _ _ (Pos2Z.is_nonneg n) S) as (Near & Up & Down).
  generalize dependent (round_nearest_even (shr_m (SpecFloat.iter_pos shr_1 n {| shr_m := Zpos m; shr_r := false; shr_s := false |}))
    (loc_of_shr_record (SpecFloat.iter_pos shr_1 n {| shr_m := Zpos m; shr_r := false; shr_s := false |}))).
  intros q Near Up Down. destruct (digits2_bounds m) as (_ & Lo & Hi). fold d in Lo, Hi.
  assert (L : 2 ^ 52 * 2 ^ Zpos n <= Zpos m) by (rewrite <- Z.pow_add_r by lia; replace (52 + Zpos n) with (d - 1) by lia; done).
  assert (U : Zpos m <= 2 ^ 53 * 2 ^ Zpos n) by (rewrite <- Z.pow_add_r by lia; replace (53 + Zpos n) with d by lia; lia).
  replace (e + Zpos n) with f by lia.
  destruct (after_rounding q f ltac:(lia) (conj (Down _ L) (Up _ U))) as (m' & e' & -> & Le & Small & V & C).
  exists m', e'. split; [|done]. unfold rounds. split_and!; [lia|done| |].
  - replace (Zpos m' * 2 ^ (e' + 1074)) with (q * 2 ^ Zpos n * 2 ^ (e + 1074)).
    2:{ rewrite <- V. rewrite <- !Z.mul_assoc, <- !Z.pow_add_r by lia. do 2 f_equal. lia. }
    rewrite <- Z.mul_sub_distr_r, Z.abs_mul. pose proof (Z.pow_nonneg 2 (e + 1074) ltac:(lia)) as P.
    rewrite (Z.abs_eq (2 ^ (e + 1074))) by done.
    replace (_ * 2 ^ (e + 1074) * 2 ^ 53) with (2 ^ 52 * (2 * Z.abs (q * 2 ^ Zpos n - Zpos m)) * 2 ^ (e + 1074)) by ring.
    apply Z.mul_le_mono_nonneg_r; [done|]. lia.
  - intros R. pose proof (exponent_in_range m e E R) as X. fold d in X. assert (f <= 971) by lia.
    destruct (Z.eq_dec f 971) as [Ff|]; [|lia].
    assert (q <= 2 ^ 53 - 1); [|rewrite Small; lia]. apply Up. unfold max_units in R.
    replace 2045 with (Zpos n + (e + 1074)) in R by lia. rewrite (Z.pow_add_r 2 (Zpos n)), Z.mul_assoc in R by lia.
    apply Z.mul_le_mono_pos_r in R; [done|]. apply Z.pow_pos_nonneg; lia.
Qed.

Lemma binary_round_rounds s m e : -1074 <= e -> exists m' e', rounds m e m' e' /\
  binary_round f64_prec f64_emax s m e = (if e' <=? 971 then S754_finite s m' e' else S754_infinity s).
Proof.
  intros E. destruct (Z_le_gt_dec (fexp f64_prec f64_emax (Zpos (digits2_pos m) + e)) e).
  - by apply round_up_exponent.
  - apply round_down_mantissa; lia.
Qed.

(** ** Addition, subtraction and comparison *)

(** [x] is the exact result [v] rounded: a number within [f64_rounding] of it, or
    an infinity of its sign when [v] is past the largest number. *)
Definition rounds_to (x : f64) (v : Z) : Prop :=
  (is_number x \/ x = S754_infinity (v <? 0) /\ max_units < Z.abs v) /\
  (is_number x -> Z.abs (f64_units x - v) <= f64_rounding v).

Lemma rounding_bound a b : Z.abs a * 2 ^ 53 <= Z.abs b -> Z.abs a <= f64_rounding b.
Proof. intros H. apply Z.div_le_lower_bound; lia. Qed.

Lemma rounding_nonneg v : 0 <= f64_rounding v.
Proof. apply Z.div_pos; lia. Qed.

Lemma rounding_le v : f64_rounding v <= Z.abs v.
Proof. apply Z.div_le_upper_bound; lia. Qed.

Lemma rounding_mono a b : Z.abs a <= Z.abs b -> f64_rounding a <= f64_rounding b.
Proof. intros H. by apply Z.div_le_mono. Qed.

Lemma units_finite s m e : f64_units (S754_finite s m e) = cond_Zopp s (Zpos m * 2 ^ (e + 1074)).
Proof. done. Qed.

Lemma cond_Zopp_mul s a b : cond_Zopp s (a * b) = cond_Zopp s a * b.
Proof. destruct s; cbn [cond_Zopp]; lia. Qed.

(** Rounding a signed mantissa. *)
Lemma signed_round s m e : -1074 <= e ->
  rounds_to (binary_round f64_prec f64_emax s m e) (cond_Zopp s (Zpos m * 2 ^ (e + 1074))).
Proof.
  intros E. destruct (binary_round_rounds s m e E) as (m' & e' & (L & C & Near & In) & ->).
  pose proof (Z.pow_pos_nonneg 2 (e + 1074) ltac:(lia) ltac:(lia)) as P.
  set (v := Zpos m * 2 ^ (e + 1074)) in *. assert (V : 0 < v) by (unfold v; lia).
  destruct (Z.leb_spec e' 971) as [R|R]; split.
  - left. split; [|done]. unfold is_float, valid_binary, bounded, canonical_mantissa. rewrite C, Z.eqb_refl. by apply Z.leb_le.
  - intros _. rewrite units_finite. apply rounding_bound.
    replace (Z.abs (cond_Zopp s v)) with v by (destruct s; cbn [cond_Zopp]; lia).
    etransitivity; [|exact Near]. destruct s; cbn [cond_Zopp]; lia.
  - right. split; [f_equal; destruct s; cbn [cond_Zopp]; symmetry; [apply Z.ltb_lt|apply Z.ltb_ge]; lia|].
    destruct (Z_le_gt_dec v max_units) as [X|X]; [specialize (In X); lia|]. destruct s; cbn [cond_Zopp]; lia.
  - by intros [_ ?].
Qed.

Lemma exactly x : is_number x -> rounds_to x (f64_units x).
Proof. intros N. split; [by left|]. intros _. rewrite Z.sub_diag. apply rounding_nonneg. Qed.

Lemma zero_number s : is_number (S754_zero s).
Proof. done. Qed.

Lemma normalize_rounds z e s : -1074 <= e ->
  rounds_to (binary_normalize f64_prec f64_emax z e s) (z * 2 ^ (e + 1074)).
Proof.
  intros E. destruct z as [|m|m]; cbn [binary_normalize].
  - rewrite Z.mul_0_l. apply (exactly (S754_zero s)), zero_number.
  - by apply (signed_round false).
  - change (Zneg m) with (- Zpos m). rewrite Z.mul_opp_l. by apply (signed_round true).
Qed.

Lemma number_exponent s m e : is_number (S754_finite s m e) -> -1074 <= e.
Proof. intros [B _]. by destruct (bounded_mantissa m e B) as (_ & _ & L). Qed.

(** A mantissa brought to a smaller exponent has the same value. *)
Lemma aligned_units s m e ez : -1074 <= ez <= e ->
  cond_Zopp s (Zpos (shl_align m e ez).1) * 2 ^ (ez + 1074) = f64_units (S754_finite s m e).
Proof.
  intros L. rewrite units_finite, shl_align_value, <- !cond_Zopp_mul, <- Z.mul_assoc, <- Z.pow_add_r by lia.
  do 3 f_equal. lia.
Qed.

Lemma f64_add_rounds a b : is_number a -> is_number b -> rounds_to (f64_add a b) (f64_units a + f64_units b).
Proof.
  intros A B. pose proof A as [_ Fa]. pose proof B as [_ Fb].
  destruct a as [sa|sa| |sa ma ea]; try done; destruct b as [sb|sb| |sb mb eb]; try done; unfold f64_add, SFadd.
  - destruct sa, sb; exact (exactly (S754_zero _) (zero_number _)).
  - exact (exactly _ B).
  - cbn [f64_units]. rewrite Z.add_0_r. exact (exactly _ A).
  - apply number_exponent in A, B. cbn zeta.
    rewrite <- (aligned_units sa ma ea (Z.min ea eb)), <- (aligned_units sb mb eb (Z.min ea eb)) by lia.
    rewrite <- Z.mul_add_distr_r. apply normalize_rounds. lia.
Qed.

Lemma f64_sub_rounds a b : is_number a -> is_number b -> rounds_to (f64_sub a b) (f64_units a - f64_units b).
Proof.
  intros A B. pose proof A as [_ Fa]. pose proof B as [_ Fb].
  destruct a as [sa|sa| |sa ma ea]; try done; destruct b as [sb|sb| |sb mb eb]; try done; unfold f64_sub, SFsub.
  - destruct sa, sb; exact (exactly (S754_zero _) (zero_number _)).
  - replace (_ - _) with (f64_units (S754_finite (negb sb) mb eb)).
    + apply exactly. split; [exact (proj1 B)|done].
    + cbn [f64_units]. destruct sb; cbn [negb cond_Zopp]; lia.
  - cbn [f64_units]. rewrite Z.sub_0_r. exact (exactly _ A).
  - apply number_exponent in A, B. cbn zeta.
    rewrite <- (aligned_units sa ma ea (Z.min ea eb)), <- (aligned_units sb mb eb (Z.min ea eb)) by lia.
    rewrite <- Z.mul_sub_distr_r. apply normalize_rounds. lia.
Qed.

Lemma units_bounded x : is_number x -> Z.abs (f64_units x) <= max_units.
Proof.
  intros [B F]. destruct x as [s|s| |s m e]; try done. pose proof (bounded_exponent m e B). apply bounded_mantissa in B as (U & _ & L).
  rewrite units_finite. replace (Z.abs _) with (Zpos m * 2 ^ (e + 1074)).
  2:{ pose proof (Z.pow_nonneg 2 (e + 1074) ltac:(lia)). destruct s; cbn [cond_Zopp]; lia. }
  unfold max_units. apply Z.mul_le_mono_nonneg; [lia|lia|apply Z.pow_nonneg; lia|apply Z.pow_le_mono_r; lia].
Qed.

(** A canonical magnitude is compared by its exponent, then by its mantissa. *)
Lemma magnitude_compare m e m' e' : bounded f64_prec f64_emax m e = true -> bounded f64_prec f64_emax m' e' = true ->
  (Zpos m * 2 ^ (e + 1074) ?= Zpos m' * 2 ^ (e' + 1074)) = match e ?= e' with Eq => Pos.compare m m' | c => c end.
Proof.
  intros B B'. apply bounded_mantissa in B as (U & L & E), B' as (U' & L' & E').
  assert (G : forall a b x y, a < 2 ^ 53 -> 2 ^ 52 <= b -> -1074 <= x < y -> a * 2 ^ (x + 1074) < b * 2 ^ (y + 1074)).
  { intros a b x y Ha Hb Hx. replace (y + 1074) with (1 + (x + 1074) + (y - x - 1)) by lia.
    rewrite (Z.pow_add_r 2 _ (y - x - 1)), (Z.pow_add_r 2 1) by lia.
    pose proof (Z.pow_pos_nonneg 2 (x + 1074) ltac:(lia) ltac:(lia)). pose proof (Z.pow_pos_nonneg 2 (y - x - 1) ltac:(lia) ltac:(lia)).
    apply Z.lt_le_trans with (b * (2 ^ 1 * 2 ^ (x + 1074))); nia. }
  destruct (Z.compare_spec e e') as [->|C|C].
  - rewrite <- Zmult_compare_compat_r; [done|]. apply Z.lt_gt, Z.pow_pos_nonneg; lia.
  - apply Z.compare_lt_iff, G; lia.
  - apply Z.compare_gt_iff, G; lia.
Qed.

Lemma f64_compare a b : is_number a -> is_number b -> SFcompare a b = Some (f64_units a ?= f64_units b).
Proof.
  intros [A Fa] [B Fb]. destruct a as [sa|sa| |sa ma ea]; try done; destruct b as [sb|sb| |sb mb eb]; try done.
  - pose proof (number_exponent sb mb eb (conj B Fb)) as E. pose proof (Z.pow_pos_nonneg 2 (eb + 1074) ltac:(lia) ltac:(lia)).
    cbn [SFcompare f64_units]. destruct sb; cbn [cond_Zopp]; f_equal; symmetry; [apply Z.compare_gt_iff|apply Z.compare_lt_iff]; lia.
  - pose proof (number_exponent sa ma ea (conj A Fa)) as E. pose proof (Z.pow_pos_nonneg 2 (ea + 1074) ltac:(lia) ltac:(lia)).
    cbn [SFcompare f64_units]. destruct sa; cbn [cond_Zopp]; f_equal; symmetry; [apply Z.compare_lt_iff|apply Z.compare_gt_iff]; lia.
  - pose proof (number_exponent sa ma ea (conj A Fa)). pose proof (number_exponent sb mb eb (conj B Fb)).
    pose proof (Z.pow_pos_nonneg 2 (ea + 1074) ltac:(lia) ltac:(lia)). pose proof (Z.pow_pos_nonneg 2 (eb + 1074) ltac:(lia) ltac:(lia)).
    rewrite !units_finite. cbn [SFcompare]. destruct sa, sb; cbn [cond_Zopp]; f_equal; symmetry.
    + rewrite <- Z.compare_opp, !Z.opp_involutive. rewrite magnitude_compare by done. rewrite (Z.compare_antisym ea eb).
      change (Pos.compare_cont Eq ma mb) with (Pos.compare ma mb). rewrite (Pos.compare_antisym ma mb).
      by destruct (ea ?= eb).
    + apply Z.compare_lt_iff. lia.
    + apply Z.compare_gt_iff. lia.
    + by rewrite magnitude_compare by done.
Qed.

Lemma f64_ltb_units a b : is_number a -> is_number b -> f64_ltb a b = (f64_units a <? f64_units b).
Proof. intros A B. unfold f64_ltb, SFltb, Z.ltb. by rewrite f64_compare. Qed.

Lemma f64_leb_units a b : is_number a -> is_number b -> f64_leb a b = (f64_units a <=? f64_units b).
Proof. intros A B. unfold f64_leb, SFleb, Z.leb. rewrite f64_compare by done. by destruct (_ ?= _). Qed.

(** Past the largest number. *)
Lemma inf_above c : is_number c -> f64_ltb c (S754_infinity false) = true.
Proof. intros [_ F]. by destruct c as [s|s| |[] m e]. Qed.

Lemma inf_absorbs x : is_number x -> f64_add (S754_infinity false) x = S754_infinity false.
Proof. intros [_ F]. by destruct x. Qed.
