(* ===== verification/GoString.v ===== *)
(** * The Go string functions the program calls

    A Go string is a [string] of bytes.  [Cut], [HasPrefix], [TrimPrefix],
    [TrimSpace] (Unicode white space, on the UTF-8 encoding), [strconv.Itoa],
    byte-wise order and sorting. *)

From Stdlib Require Import ZArith Lia String Ascii Sorted.
From stdpp Require Import base list strings numbers sorting pretty.
From S2P Require Import Prelude.

Local Open Scope string_scope.

(** ** Prefixes and separators *)

Fixpoint HasPrefix (s p : string) : bool :=
  match p, s with
  | "", _ => true
  | String a p, String b s => Ascii.eqb a b && HasPrefix s p
  | _, "" => false
  end.

(** [strings.TrimPrefix], or [None] when the prefix is missing ([CutPrefix]). *)
Fixpoint CutPrefix (s p : string) : option string :=
  match p, s with
  | "", _ => Some s
  | String a p, String b s => if Ascii.eqb a b then CutPrefix s p else None
  | _, "" => None
  end.
Definition TrimPrefix (s p : string) : string := default s (CutPrefix s p).

(** [strings.Cut(s, sep)] for a separator of one byte. *)
Fixpoint Cut (s : string) (sep : ascii) : string * string * bool :=
  match s with
  | "" => ("", "", false)
  | String a s' =>
      if Ascii.eqb a sep then ("", s', true)
      else let '(before, after, found) := Cut s' sep in
           (String a before, after, found)
  end.

Fixpoint contains_byte (s : string) (b : ascii) : bool :=
  match s with
  | "" => false
  | String a s => Ascii.eqb a b || contains_byte s b
  end.

Definition str_rev (s : string) : string := string_of_list_ascii (rev (list_ascii_of_string s)).

Definition HasSuffix (s p : string) : bool := HasPrefix (str_rev s) (str_rev p).
Definition TrimSuffix (s p : string) : string :=
  match CutPrefix (str_rev s) (str_rev p) with Some r => str_rev r | None => s end.

(** ** White space *)

Definition byte_of (n : nat) : ascii := ascii_of_nat n.
Definition bytes (l : list nat) : string := string_of_list_ascii (byte_of <$> l).

(** The UTF-8 encodings of the runes [unicode.IsSpace] accepts. *)
Definition space_runes : list string :=
  (bytes <$> [[9]; [10]; [11]; [12]; [13]; [32]; [194; 133]; [194; 160]; [225; 154; 128];
              [226; 128; 168]; [226; 128; 169]; [226; 128; 175]; [226; 129; 159];
              [227; 128; 128]])%nat
  ++ ((fun n => bytes [226; 128; n]) <$> seq 128 11)%nat.

(** The first of [runes] that starts [s], removed. *)
Fixpoint cut_any (s : string) (runes : list string) : option string :=
  match runes with
  | [] => None
  | r :: runes => match CutPrefix s r with Some s' => Some s' | None => cut_any s runes end
  end.

Fixpoint trim_any (fuel : nat) (s : string) (runes : list string) : string :=
  match fuel with
  | O => s
  | S fuel => match cut_any s runes with Some s' => trim_any fuel s' runes | None => s end
  end.

Definition TrimLeftSpace (s : string) : string := trim_any (String.length s) s space_runes.
Definition TrimRightSpace (s : string) : string :=
  str_rev (trim_any (String.length s) (str_rev s) (str_rev <$> space_runes)).
Definition TrimSpace (s : string) : string := TrimRightSpace (TrimLeftSpace s).

(** ** Numbers, case and order *)

(** [strconv.Itoa]. *)
Definition Itoa (n : Z) : string := pretty n.

Definition is_digit (c : ascii) : bool :=
  let n := nat_of_ascii c in (48 <=? n)%nat && (n <=? 57)%nat.
Definition digit_val (c : ascii) : Z := Z.of_nat (nat_of_ascii c) - 48.

Definition upper_ascii (c : ascii) : ascii :=
  let n := nat_of_ascii c in
  if (97 <=? n)%nat && (n <=? 122)%nat then ascii_of_nat (n - 32) else c.
Definition lower_ascii (c : ascii) : ascii :=
  let n := nat_of_ascii c in
  if (65 <=? n)%nat && (n <=? 90)%nat then ascii_of_nat (n + 32) else c.

(** [slices.Sorted] on strings: bytewise order. *)
Definition Sorted_strings (l : list string) : list string := merge_sort String.le l.

(** ** Facts *)

Lemma HasPrefix_CutPrefix s p : HasPrefix s p = true <-> exists r, CutPrefix s p = Some r.
Proof.
  revert s. induction p as [|a p IH]; intros s; simpl.
  - destruct s; naive_solver.
  - destruct s as [|b s]; [naive_solver|]. simpl.
    destruct (Ascii.eqb a b); simpl.
    + apply IH.
    + naive_solver.
Qed.

Lemma str_app_nil s : "" +:+ s = s.
Proof. done. Qed.
Lemma str_app_cons a s t : String a s +:+ t = String a (s +:+ t).
Proof. done. Qed.

Lemma str_app_length a b : String.length (a +:+ b) = (String.length a + String.length b)%nat.
Proof. induction a as [|x a IH]; [done|]. rewrite str_app_cons. simpl. by rewrite IH. Qed.

Lemma CutPrefix_Some s p r : CutPrefix s p = Some r <-> s = p +:+ r.
Proof.
  revert s. induction p as [|a p IH]; intros s; simpl.
  - rewrite str_app_nil. destruct s; simpl; split; congruence.
  - rewrite str_app_cons. destruct s as [|b s]; simpl; [split; congruence|].
    destruct (Ascii.eqb_spec a b) as [->|Hne].
    + rewrite IH. split; congruence.
    + split; congruence.
Qed.

Lemma Cut_found s sep before after :
  Cut s sep = (before, after, true) <->
  s = before +:+ String sep after /\ contains_byte before sep = false.
Proof.
  revert before after. induction s as [|a s IH]; intros before after; simpl.
  { split; [done|]. intros [E _]. by destruct before. }
  destruct (Ascii.eqb_spec a sep) as [->|Hne].
  - split; [intros [= <- <-]; done|]. intros [E Hc].
    destruct before as [|b before]; [rewrite str_app_nil in E; congruence|].
    rewrite str_app_cons in E. injection E as <- _. simpl in Hc. by rewrite Ascii.eqb_refl in Hc.
  - destruct (Cut s sep) as [[b' a'] f'] eqn:C. split.
    + intros [= <- <- ->]. destruct (proj1 (IH b' a') eq_refl) as [-> Hc].
      split; [done|]. simpl. rewrite Hc. destruct (Ascii.eqb_spec a sep); done.
    + intros [E Hc]. destruct before as [|b before]; [rewrite str_app_nil in E; congruence|].
      rewrite str_app_cons in E. simpl in Hc. injection E as <- E.
      apply orb_false_iff in Hc as [_ Hc].
      destruct (IH before after) as [_ IH2]. specialize (IH2 (conj E Hc)). congruence.
Qed.

Lemma Cut_missing s sep : contains_byte s sep = false -> Cut s sep = (s, "", false).
Proof.
  induction s as [|a s IH]; simpl; [done|]. intros Hc. apply orb_false_iff in Hc as [H1 H2].
  rewrite H1. by rewrite IH.
Qed.

Lemma app_inj_byte a b x y sep :
  contains_byte a sep = false -> contains_byte b sep = false ->
  a +:+ String sep x = b +:+ String sep y -> a = b /\ x = y.
Proof.
  intros Ha Hb E.
  pose proof (proj2 (Cut_found (a +:+ String sep x) sep a x) (conj eq_refl Ha)) as C1.
  pose proof (proj2 (Cut_found (b +:+ String sep y) sep b y) (conj eq_refl Hb)) as C2.
  rewrite E in C1. rewrite C1 in C2. by simplify_eq.
Qed.

(** ** Long texts

    A polynomial fingerprint modulo 2^61-1, to compare a text of several thousand
    bytes with a file of the repository. *)
Definition fingerprint (s : string) : Z :=
  fold_left (fun h c => (h * 131 + Z.of_N (N_of_ascii c)) mod 2305843009213693951)%Z (list_ascii_of_string s) 7%Z.
