(* ===== verification/Json.v ===== *)
(** * encoding/json, as far as the program uses it

    The program hands JSON around as text ([json.RawMessage]) and decodes it
    three ways: into a struct that names a few fields, into [any] with
    [UseNumber], and back with [json.Marshal].  A text is a [string] of bytes.
    [value] is the grammar of the scanner, whose nesting limit is the fuel of
    the recursion; [members] and [elements] give the raw texts a typed decoder
    works on; [go_any] is a decoded [any], whose maps are association lists
    kept sorted by key, so that equal maps are equal lists and [Marshal] is a
    plain printer. *)

From Stdlib Require Import ZArith Lia String Ascii SpecFloat.
From stdpp Require Import base list strings numbers.
From S2P Require Import Prelude Float64 GoString.

Local Open Scope Z_scope.

Definition code (c : ascii) : nat := nat_of_ascii c.

(** ** Trees *)

Inductive json :=
| JNull
| JBool (b : bool)
| JNum (lit : string)
| JStr (s : string)
| JArr (l : list json)
| JObj (ms : list (string * json)).

(** ** UTF-8 ([utf8.DecodeRune], [utf8.EncodeRune]) *)

Definition within (lo hi : nat) (c : ascii) : bool := (lo <=? code c)%nat && (code c <=? hi)%nat.
Definition cont_byte : ascii -> bool := within 128 191.

(** The width of the rune [s] starts with, [0] when it is not one. *)
Definition utf8_width (s : string) : nat :=
  match s with
  | "" => 0
  | String a t =>
      if (code a <? 128)%nat then 1
      else match t with
      | "" => 0
      | String b t =>
          if within 194 223 a then if cont_byte b then 2 else 0
          else match t with
          | "" => 0
          | String c t =>
              if within 224 239 a then
                if (if Nat.eqb (code a) 224 then within 160 191 b
                    else if Nat.eqb (code a) 237 then within 128 159 b
                    else cont_byte b) && cont_byte c then 3 else 0
              else match t with
              | "" => 0
              | String d _ =>
                  if within 240 244 a then
                    if (if Nat.eqb (code a) 240 then within 144 191 b
                        else if Nat.eqb (code a) 244 then within 128 143 b
                        else cont_byte b) && cont_byte c && cont_byte d then 4 else 0
                  else 0
              end
          end
      end
  end%nat.

Definition replacement : string := bytes [239; 191; 189]%nat.

(** Every byte that starts no rune becomes U+FFFD; [k] bytes are owed to the
    rune being copied. *)
Fixpoint sanitize_from (k : nat) (s : string) : string :=
  match s with
  | "" => ""
  | String c t =>
      match k with
      | S k => String c (sanitize_from k t)
      | O => match utf8_width s with
             | O => replacement +:+ sanitize_from 0 t
             | S k => String c (sanitize_from k t)
             end
      end
  end.
Definition sanitize : string -> string := sanitize_from 0.

Definition byte_Z (z : Z) : ascii := ascii_of_nat (Z.to_nat z).

Definition encode_rune (r : Z) : string :=
  if r <? 128 then String (byte_Z r) ""
  else if r <? 2048 then
    String (byte_Z (192 + r / 64)) (String (byte_Z (128 + r mod 64)) "")
  else if r <? 65536 then
    String (byte_Z (224 + r / 4096))
      (String (byte_Z (128 + (r / 64) mod 64)) (String (byte_Z (128 + r mod 64)) ""))
  else
    String (byte_Z (240 + r / 262144))
      (String (byte_Z (128 + (r / 4096) mod 64))
        (String (byte_Z (128 + (r / 64) mod 64)) (String (byte_Z (128 + r mod 64)) ""))).

(** ** String literals *)

Definition dquote : ascii := "034"%char.
Definition backslash : ascii := "\"%char.

Definition hex_val (c : ascii) : option Z :=
  let n := Z.of_nat (code c) in
  if within 48 57 c then Some (n - 48)
  else if within 97 102 c then Some (n - 87)
  else if within 65 70 c then Some (n - 55)
  else None.

Definition hex4 (a b c d : ascii) : option Z :=
  match hex_val a, hex_val b, hex_val c, hex_val d with
  | Some a, Some b, Some c, Some d => Some (4096 * a + 256 * b + 16 * c + d)
  | _, _, _, _ => None
  end.

(** What a one-letter escape stands for. *)
Definition escape_of (e : ascii) : option ascii :=
  if Ascii.eqb e dquote || Ascii.eqb e backslash || Ascii.eqb e "/"%char then Some e
  else if Ascii.eqb e "b"%char then Some "008"%char
  else if Ascii.eqb e "f"%char then Some "012"%char
  else if Ascii.eqb e "n"%char then Some "010"%char
  else if Ascii.eqb e "r"%char then Some "013"%char
  else if Ascii.eqb e "t"%char then Some "009"%char
  else None.

Definition cons_lex (c : ascii) (r : option (string * string)) : option (string * string) :=
  match r with Some (body, rest) => Some (String c body, rest) | None => None end.

(** The literal whose opening quote was just read: its body, escapes and all,
    and what follows the closing quote. *)
Fixpoint lex_str (s : string) : option (string * string) :=
  match s with
  | "" => None
  | String c t =>
      if Ascii.eqb c dquote then Some ("", t)
      else if Ascii.eqb c backslash then
        match t with
        | "" => None
        | String e t =>
            if Ascii.eqb e "u"%char then
              match t with
              | String h1 (String h2 (String h3 (String h4 t))) =>
                  match hex4 h1 h2 h3 h4 with
                  | Some _ => cons_lex c (cons_lex e (cons_lex h1 (cons_lex h2
                                (cons_lex h3 (cons_lex h4 (lex_str t))))))
                  | None => None
                  end
              | _ => None
              end
            else match escape_of e with
                 | Some _ => cons_lex c (cons_lex e (lex_str t))
                 | None => None
                 end
        end
      else if (code c <? 32)%nat then None
      else cons_lex c (lex_str t)
  end.

Definition is_surrogate (r : Z) : bool := (55296 <=? r) && (r <? 57344).

(** [utf16.DecodeRune], [None] where it gives the replacement character. *)
Definition surrogate_pair (r1 r2 : Z) : option Z :=
  if (55296 <=? r1) && (r1 <? 56320) && (56320 <=? r2) && (r2 <? 57344)
  then Some ((r1 - 55296) * 1024 + (r2 - 56320) + 65536)
  else None.

(** The escapes of a body, resolved. *)
Fixpoint unescape (s : string) : string :=
  match s with
  | "" => ""
  | String c t =>
      if Ascii.eqb c backslash then
        match t with
        | "" => ""
        | String e t =>
            if Ascii.eqb e "u"%char then
              match t with
              | String h1 (String h2 (String h3 (String h4 t))) =>
                  let r := default 65533 (hex4 h1 h2 h3 h4) in
                  if is_surrogate r then
                    match t with
                    | String b' (String u' (String g1 (String g2 (String g3 (String g4 t'))))) =>
                        if Ascii.eqb b' backslash && Ascii.eqb u' "u"%char then
                          match (r2 ← hex4 g1 g2 g3 g4; surrogate_pair r r2) with
                          | Some rr => encode_rune rr +:+ unescape t'
                          | None => replacement +:+ unescape t
                          end
                        else replacement +:+ unescape t
                    | _ => replacement +:+ unescape t
                    end
                  else encode_rune r +:+ unescape t
              | _ => ""
              end
            else String (default e (escape_of e)) (unescape t)
        end
      else String c (unescape t)
  end.

(** The string a literal's body stands for ([unquote]). *)
Definition unquote (body : string) : string := sanitize (unescape body).

(** ** Number literals *)

Fixpoint take_digits (s : string) : string * string :=
  match s with
  | String c t =>
      if is_digit c then let '(d, r) := take_digits t in (String c d, r) else ("", s)
  | "" => ("", "")
  end.

Definition is_exp (c : ascii) : bool := Ascii.eqb c "e"%char || Ascii.eqb c "E"%char.
Definition is_sign (c : ascii) : bool := Ascii.eqb c "+"%char || Ascii.eqb c "-"%char.

Definition lex_minus (s : string) : string * string :=
  match s with
  | String c t => if Ascii.eqb c "-"%char then ("-", t) else ("", s)
  | "" => ("", "")
  end.

Definition lex_int (s : string) : option (string * string) :=
  match s with
  | "" => None
  | String c t =>
      if Ascii.eqb c "0"%char then Some ("0", t)
      else if is_digit c then Some (take_digits s)
      else None
  end.

Definition lex_frac (s : string) : option (string * string) :=
  match s with
  | String c t =>
      if Ascii.eqb c "."%char then
        let '(d, r) := take_digits t in
        if bool_decide (d = "") then None else Some (String c d, r)
      else Some ("", s)
  | "" => Some ("", "")
  end.

Definition lex_exp (s : string) : option (string * string) :=
  match s with
  | String c t =>
      if is_exp c then
        let '(sg, t) := match t with
                        | String d t' => if is_sign d then (String d "", t') else ("", t)
                        | "" => ("", "")
                        end in
        let '(d, r) := take_digits t in
        if bool_decide (d = "") then None else Some (String c (sg +:+ d), r)
      else Some ("", s)
  | "" => Some ("", "")
  end.

Definition lex_number (s : string) : option (string * string) :=
  let '(sg, s) := lex_minus s in
  match lex_int s with
  | None => None
  | Some (i, s) =>
      match lex_frac s with
      | None => None
      | Some (f, s) =>
          match lex_exp s with
          | None => None
          | Some (e, s) => Some (sg +:+ i +:+ f +:+ e, s)
          end
      end
  end.

(** ** Values *)

Definition is_ws (c : ascii) : bool :=
  Ascii.eqb c " "%char || Ascii.eqb c "009"%char || Ascii.eqb c "010"%char
  || Ascii.eqb c "013"%char.

Fixpoint skip_ws (s : string) : string :=
  match s with
  | String c t => if is_ws c then skip_ws t else s
  | "" => ""
  end.

Fixpoint take_bytes (n : nat) (s : string) : string :=
  match n, s with
  | S n, String c t => String c (take_bytes n t)
  | _, _ => ""
  end.

(** The text a parser consumed. *)
Definition consumed (s rest : string) : string :=
  take_bytes (String.length s - String.length rest) s.

Abbreviation parser := (string -> option (json * string)) (only parsing).

(** The members of an object from its first key on, each with its raw text. *)
Fixpoint loop_members (pv : parser) (n : nat) (s : string)
    : option (list (string * (string * json)) * string) :=
  match n, s with
  | S n, String q s1 =>
      if negb (Ascii.eqb q dquote) then None
      else match lex_str s1 with
      | None => None
      | Some (body, s2) =>
          match skip_ws s2 with
          | String c s3 =>
              if negb (Ascii.eqb c ":"%char) then None
              else
                let s4 := skip_ws s3 in
                match pv s4 with
                | None => None
                | Some (v, s5) =>
                    let m := (unquote body, (consumed s4 s5, v)) in
                    match skip_ws s5 with
                    | String c s6 =>
                        if Ascii.eqb c ","%char then
                          match loop_members pv n (skip_ws s6) with
                          | Some (l, r) => Some (m :: l, r)
                          | None => None
                          end
                        else if Ascii.eqb c "}"%char then Some ([m], s6) else None
                    | "" => None
                    end
                end
          | "" => None
          end
      end
  | _, _ => None
  end.

Definition object_body (pv : parser) (s : string)
    : option (list (string * (string * json)) * string) :=
  let s := skip_ws s in
  match s with
  | String c t =>
      if Ascii.eqb c "}"%char then Some ([], t)
      else loop_members pv (S (String.length s)) s
  | "" => None
  end.

Fixpoint loop_elements (pv : parser) (n : nat) (s : string)
    : option (list (string * json) * string) :=
  match n with
  | O => None
  | S n =>
      match pv s with
      | None => None
      | Some (v, s1) =>
          let m := (consumed s s1, v) in
          match skip_ws s1 with
          | String c s2 =>
              if Ascii.eqb c ","%char then
                match loop_elements pv n (skip_ws s2) with
                | Some (l, r) => Some (m :: l, r)
                | None => None
                end
              else if Ascii.eqb c "]"%char then Some ([m], s2) else None
          | "" => None
          end
      end
  end.

Definition array_body (pv : parser) (s : string) : option (list (string * json) * string) :=
  let s := skip_ws s in
  match s with
  | String c t =>
      if Ascii.eqb c "]"%char then Some ([], t)
      else loop_elements pv (S (String.length s)) s
  | "" => None
  end.

(** One value, [s] starting at its first byte; [d] levels of nesting are left. *)
Fixpoint value (d : nat) (s : string) : option (json * string) :=
  match s with
  | "" => None
  | String c t =>
      if Ascii.eqb c dquote then
        match lex_str t with
        | Some (body, r) => Some (JStr (unquote body), r)
        | None => None
        end
      else if Ascii.eqb c "{"%char then
        match d with
        | O => None
        | S d =>
            match object_body (value d) t with
            | Some (ms, r) => Some (JObj ((fun m => (m.1, m.2.2)) <$> ms), r)
            | None => None
            end
        end
      else if Ascii.eqb c "["%char then
        match d with
        | O => None
        | S d =>
            match array_body (value d) t with
            | Some (l, r) => Some (JArr (snd <$> l), r)
            | None => None
            end
        end
      else if Ascii.eqb c "t"%char then
        match CutPrefix t "rue" with Some r => Some (JBool true, r) | None => None end
      else if Ascii.eqb c "f"%char then
        match CutPrefix t "alse" with Some r => Some (JBool false, r) | None => None end
      else if Ascii.eqb c "n"%char then
        match CutPrefix t "ull" with Some r => Some (JNull, r) | None => None end
      else
        match lex_number s with
        | Some (lit, r) => Some (JNum lit, r)
        | None => None
        end
  end.

Definition maxNestingDepth : nat := Z.to_nat 10000.

(** A whole text: one value, white space around it ([Unmarshal]'s check). *)
Definition parse (s : string) : option json :=
  match value maxNestingDepth (skip_ws s) with
  | Some (v, r) => if bool_decide (skip_ws r = "") then Some v else None
  | None => None
  end.

(** What [Decoder.Decode] reads first, and what is left. *)
Definition decode_first (s : string) : option (json * string) :=
  value maxNestingDepth (skip_ws s).

(** The raw texts inside a container. *)
Definition members (s : string) : list (string * string) :=
  match skip_ws s with
  | String c t =>
      if Ascii.eqb c "{"%char then
        match object_body (value (pred maxNestingDepth)) t with
        | Some (ms, _) => (fun m => (m.1, m.2.1)) <$> ms
        | None => []
        end
      else []
  | "" => []
  end.

Definition elements (s : string) : list string :=
  match skip_ws s with
  | String c t =>
      if Ascii.eqb c "["%char then
        match array_body (value (pred maxNestingDepth)) t with
        | Some (l, _) => fst <$> l
        | None => []
        end
      else []
  | "" => []
  end.

(** ** [any] with [UseNumber] *)

(** Insertion in a map kept sorted by key; an existing key is replaced. *)
Fixpoint obj_put (k : string) (v : json) (m : list (string * json)) : list (string * json) :=
  match m with
  | [] => [(k, v)]
  | (k', v') :: t =>
      match String.compare k k' with
      | Lt => (k, v) :: m
      | Eq => (k, v) :: t
      | Gt => (k', v') :: obj_put k v t
      end
  end.

Fixpoint obj_get (k : string) (m : list (string * json)) : option json :=
  match m with
  | [] => None
  | (k', v) :: t => if String.eqb k k' then Some v else obj_get k t
  end.

Fixpoint obj_delete (k : string) (m : list (string * json)) : list (string * json) :=
  match m with
  | [] => []
  | (k', v) :: t => if String.eqb k k' then t else (k', v) :: obj_delete k t
  end.

(** The value [Decode(&any)] builds: of two members of one name the last stays. *)
Fixpoint go_any (j : json) : json :=
  match j with
  | JArr l => JArr (map go_any l)
  | JObj ms =>
      JObj ((fix build (ms : list (string * json)) (acc : list (string * json)) :=
               match ms with
               | [] => acc
               | (k, v) :: ms => build ms (obj_put k (go_any v) acc)
               end) ms [])
  | j => j
  end.

(** ** [json.Marshal] *)

Definition hex_digit (n : nat) : ascii :=
  if (n <? 10)%nat then ascii_of_nat (48 + n) else ascii_of_nat (87 + n).

Definition u_escape (n : nat) : string :=
  String backslash (String "u" (String "0" (String "0"
    (String (hex_digit (n / 16)) (String (hex_digit (n mod 16)) ""))))).

(** An ASCII byte inside a string, HTML characters escaped. *)
Definition quote_ascii (c : ascii) : string :=
  if Ascii.eqb c dquote || Ascii.eqb c backslash then String backslash (String c "")
  else if Ascii.eqb c "008"%char then String backslash (String "b" "")
  else if Ascii.eqb c "012"%char then String backslash (String "f" "")
  else if Ascii.eqb c "010"%char then String backslash (String "n" "")
  else if Ascii.eqb c "013"%char then String backslash (String "r" "")
  else if Ascii.eqb c "009"%char then String backslash (String "t" "")
  else if (code c <? 32)%nat || Ascii.eqb c "<"%char || Ascii.eqb c ">"%char
          || Ascii.eqb c "&"%char then u_escape (code c)
  else String c "".

Definition line_separator : string := bytes [226; 128; 168]%nat.
Definition paragraph_separator : string := bytes [226; 128; 169]%nat.

(** Bytes still owed to the rune being copied or skipped. *)
Inductive quote_mode := Fresh | Copy (k : nat) | Skip (k : nat).
Definition copying (k : nat) : quote_mode := match k with O => Fresh | _ => Copy k end.
Definition skipping (k : nat) : quote_mode := match k with O => Fresh | _ => Skip k end.

Fixpoint quote_from (m : quote_mode) (s : string) : string :=
  match s with
  | "" => ""
  | String c t =>
      match m with
      | Copy k => String c (quote_from (copying (pred k)) t)
      | Skip k => quote_from (skipping (pred k)) t
      | Fresh =>
          match utf8_width s with
          | O => String backslash "ufffd" +:+ quote_from Fresh t
          | 1%nat => quote_ascii c +:+ quote_from Fresh t
          | S k =>
              if HasPrefix s line_separator then String backslash "u2028" +:+ quote_from (Skip 2) t
              else if HasPrefix s paragraph_separator
              then String backslash "u2029" +:+ quote_from (Skip 2) t
              else String c (quote_from (Copy k) t)
          end
      end
  end.

Definition quote (s : string) : string :=
  String dquote (quote_from Fresh s +:+ String dquote "").

Fixpoint comma_join (l : list string) : string :=
  match l with
  | [] => ""
  | [s] => s
  | s :: l => s +:+ String "," (comma_join l)
  end.

Fixpoint marshal (j : json) : string :=
  match j with
  | JNull => "null"
  | JBool true => "true"
  | JBool false => "false"
  | JNum lit => lit
  | JStr s => quote s
  | JArr l => String "[" (comma_join (map marshal l) +:+ "]")
  | JObj ms =>
      String "{" (comma_join (map (fun p => quote p.1 +:+ String ":" (marshal p.2)) ms) +:+ "}")
  end.

(** ** [Unmarshal] into the types the program decodes *)

(** A decoder takes the raw text of a valid value and what the destination
    holds; a value of the wrong type is reported and changes nothing, and
    decoding goes on. *)
Definition decoder (A : Type) : Type := string -> A -> A * bool.

Definition Unmarshal {A} (d : decoder A) (raw : string) (zero : A) : option A :=
  match parse raw with
  | None => None
  | Some _ => let '(v, ok) := d raw zero in if ok then Some v else None
  end.

Definition tree_of (raw : string) : json := default JNull (parse raw).

Definition dec_string : decoder string := fun raw old =>
  match tree_of raw with JStr s => (s, true) | JNull => (old, true) | _ => (old, false) end.

Definition dec_bool : decoder bool := fun raw old =>
  match tree_of raw with JBool b => (b, true) | JNull => (old, true) | _ => (old, false) end.

Definition dec_raw : decoder string := fun raw _ => (raw, true).

(** A pointer field: [null] makes it nil, anything else is decoded through it. *)
Definition dec_ptr {A} (zero : A) (d : decoder A) : decoder (option A) := fun raw old =>
  match tree_of raw with
  | JNull => (None, true)
  | _ => let '(v, ok) := d raw (default zero old) in (Some v, ok)
  end.

Fixpoint digits_val (acc : Z) (s : string) : option Z :=
  match s with
  | "" => Some acc
  | String c t => if is_digit c then digits_val (10 * acc + digit_val c) t else None
  end.

(** [strconv.ParseInt(lit, 10, 64)] on a JSON number. *)
Definition ParseInt (lit : string) : option Z :=
  let '(sg, s) := lex_minus lit in
  if bool_decide (s = "") then None
  else match digits_val 0 s with
  | None => None
  | Some n =>
      let z := if bool_decide (sg = "") then n else - n in
      if (min_int64 <=? z) && (z <=? max_int64) then Some z else None
  end.

Definition dec_int : decoder Z := fun raw old =>
  match tree_of raw with
  | JNum lit => match ParseInt lit with Some z => (z, true) | None => (old, false) end
  | JNull => (old, true)
  | _ => (old, false)
  end.

(** [m] times a power of ten, rounded once to a format of [prec] bits; [None]
    when it overflows.  Beyond 400 powers of ten past its digits the result is
    settled, for [float64] and so for [float32]. *)
Definition decimal_in (prec emax : Z) (neg : bool) (m e : Z) : option f64 :=
  match m with
  | Zpos p =>
      let top := Z.log2 m / 3 + 1 + e in
      if 400 <? Z.log2 m / 4 + e then None
      else if top <? -400 then Some (S754_zero neg)
      else
        let x := if 0 <=? e then binary_normalize prec emax
                                   (if neg then - (m * 10 ^ e) else m * 10 ^ e) 0 neg
                 else SFdiv prec emax (S754_finite neg p 0)
                        (S754_finite false (Z.to_pos (10 ^ (- e))) 0) in
        match x with S754_infinity _ => None | _ => Some x end
  | _ => Some (S754_zero neg)
  end.

(** A JSON number as a sign, its digits and a power of ten. *)
Definition decimal_parts (lit : string) : bool * Z * Z :=
  let '(sg, s) := lex_minus lit in
  let '(i, s) := take_digits s in
  let '(f, s) := match s with
                 | String c t => if Ascii.eqb c "."%char then take_digits t else ("", s)
                 | "" => ("", "")
                 end in
  let e := match s with
           | String _ t =>
               match t with
               | String d t' =>
                   if Ascii.eqb d "-"%char then - default 0 (digits_val 0 t')
                   else if Ascii.eqb d "+"%char then default 0 (digits_val 0 t')
                   else default 0 (digits_val 0 t)
               | "" => 0
               end
           | "" => 0
           end in
  (negb (bool_decide (sg = "")), default 0 (digits_val 0 (i +:+ f)), e - Z.of_nat (String.length f)).

(** [strconv.ParseFloat(lit, 64)] on a JSON number. *)
Definition ParseFloat (lit : string) : option f64 :=
  let '(neg, m, e) := decimal_parts lit in decimal_in f64_prec f64_emax neg m e.

(** [strconv.ParseFloat(lit, 32)], promoted to [float64], which is exact. *)
Definition ParseFloat32 (lit : string) : option f64 :=
  let '(neg, m, e) := decimal_parts lit in
  match decimal_in 24 128 neg m e with
  | Some (S754_finite s n k) => Some (binary_normalize f64_prec f64_emax (if s then Zneg n else Zpos n) k s)
  | x => x
  end.

Definition dec_float : decoder f64 := fun raw old =>
  match tree_of raw with
  | JNum lit => match ParseFloat lit with Some x => (x, true) | None => (old, false) end
  | JNull => (old, true)
  | _ => (old, false)
  end.

Definition dec_float32 : decoder f64 := fun raw old =>
  match tree_of raw with
  | JNum lit => match ParseFloat32 lit with Some x => (x, true) | None => (old, false) end
  | JNull => (old, true)
  | _ => (old, false)
  end.

(** A Go slice as [Unmarshal] treats it: a backing array that survives a second
    decoding of the same field, and a length. *)
Record slice (A : Type) := mkSlice { slice_len : nat; backing : list A }.
Arguments mkSlice {A}. Arguments slice_len {A}. Arguments backing {A}.

Definition nil_slice {A} : slice A := mkSlice 0 [].
Definition slice_list {A} (s : slice A) : list A := take (slice_len s) (backing s).

(** Elements are decoded over what the backing array already holds. *)
Fixpoint decode_over {A} (zero : A) (d : decoder A) (texts : list string) (old : list A)
    : list A * bool :=
  match texts with
  | [] => (old, true)
  | t :: texts =>
      let '(v, ok) := d t (default zero (head old)) in
      let '(vs, oks) := decode_over zero d texts (tail old) in
      (v :: vs, ok && oks)
  end.

Definition dec_slice {A} (zero : A) (d : decoder A) : decoder (slice A) := fun raw old =>
  match tree_of raw with
  | JNull => (nil_slice, true)
  | JArr [] => (nil_slice, true)
  | JArr _ =>
      let texts := elements raw in
      let '(b, ok) := decode_over zero d texts (backing old) in
      (mkSlice (length texts) b, ok)
  | _ => (old, false)
  end.

(** The names of two fields agree up to case; U+017F and U+212A fold to ASCII. *)
Fixpoint foldName (s : string) : string :=
  match s with
  | "" => ""
  | String c t =>
      match t with
      | String d t' =>
          if Nat.eqb (code c) 197 && Nat.eqb (code d) 191 then String "S" (foldName t')
          else match t' with
               | String e t'' =>
                   if Nat.eqb (code c) 226 && Nat.eqb (code d) 132 && Nat.eqb (code e) 170
                   then String "K" (foldName t'')
                   else String (upper_ascii c) (foldName t)
               | "" => String (upper_ascii c) (foldName t)
               end
      | "" => String (upper_ascii c) (foldName t)
      end
  end.

Definition field (A : Type) : Type := (string * decoder A)%type.

Fixpoint find_field {A} (fs : list (field A)) (k : string) : option (decoder A) :=
  match fs with
  | [] => None
  | (n, d) :: fs => if String.eqb (foldName n) (foldName k) then Some d else find_field fs k
  end.

Fixpoint dec_fields {A} (fs : list (field A)) (ms : list (string * string)) (v : A) : A * bool :=
  match ms with
  | [] => (v, true)
  | (k, t) :: ms =>
      let '(v, ok) := match find_field fs k with Some d => d t v | None => (v, true) end in
      let '(v, oks) := dec_fields fs ms v in
      (v, ok && oks)
  end.

Definition dec_struct {A} (fs : list (field A)) : decoder A := fun raw old =>
  match tree_of raw with
  | JObj _ => dec_fields fs (members raw) old
  | JNull => (old, true)
  | _ => (old, false)
  end.

(** A field of a struct, through its getter and setter. *)
Definition at_field {A B} (get : A -> B) (set : B -> A -> A) (d : decoder B) : decoder A :=
  fun raw old => let '(v, ok) := d raw (get old) in (set v old, ok).

(** ** Strings: printing and reading *)

Fixpoint drop_bytes (n : nat) (s : string) : string :=
  match n, s with
  | S n, String _ t => drop_bytes n t
  | _, _ => s
  end.

Definition valid_utf8 (s : string) : Prop := sanitize s = s.

Lemma str_app_assoc a b c : (a +:+ b) +:+ c = a +:+ (b +:+ c).
Proof. induction a as [|x a IH]; [done|]. rewrite !str_app_cons. by rewrite IH. Qed.

Lemma str_app_empty a : a +:+ "" = a.
Proof. induction a as [|x a IH]; [done|]. rewrite str_app_cons. by rewrite IH. Qed.

Lemma str_concat_cons w l : String.concat "" (w :: l) = w +:+ String.concat "" l.
Proof. destruct l as [|x l]; cbn; [by rewrite str_app_empty|done]. Qed.
Lemma str_concat_app l m : String.concat "" (l ++ m) = String.concat "" l +:+ String.concat "" m.
Proof. induction l as [|x l IH]; [done|]. by rewrite <- app_comm_cons, !str_concat_cons, IH, str_app_assoc. Qed.

Lemma str_app_inv_head a b c : a +:+ b = a +:+ c -> b = c.
Proof.
  induction a as [|x a IH]; [done|]. rewrite !str_app_cons. intros [= E]. by apply IH.
Qed.

Lemma take_drop_bytes n s : take_bytes n s +:+ drop_bytes n s = s.
Proof.
  revert s. induction n as [|n IH]; intros [|c s]; try done. simpl.
  rewrite str_app_cons. by rewrite IH.
Qed.

Lemma consumed_app p r : consumed (p +:+ r) r = p.
Proof.
  unfold consumed. rewrite str_app_length.
  replace (String.length p + String.length r - String.length r)%nat with (String.length p) by lia.
  induction p as [|c p IH]; [done|]. rewrite str_app_cons. simpl. by rewrite IH.
Qed.

(** [s] starts with [n] bytes, all from the upper half. *)
Fixpoint high_run (n : nat) (s : string) : Prop :=
  match n, s with
  | O, _ => True
  | S n, String c t => (128 <= code c)%nat /\ high_run n t
  | S _, "" => False
  end.

Lemma within_high lo hi c : within lo hi c = true -> (lo <= code c)%nat.
Proof. unfold within. intros [H _]%andb_true_iff. by apply Nat.leb_le. Qed.

(** The width says what the rune is made of, and depends on nothing else. *)
Lemma utf8_width_cases c s : 
  match utf8_width (String c s) with
  | O => True
  | 1%nat => (code c < 128)%nat
  | n => high_run n (String c s) /\ forall t, utf8_width (take_bytes n (String c s) +:+ t) = n
  end.
Proof.
  unfold utf8_width. destruct (code c <? 128)%nat eqn:A; [by apply Nat.ltb_lt|].
  apply Nat.ltb_ge in A. destruct s as [|d s]; [done|].
  destruct (within 194 223 c) eqn:B2.
  { destruct (cont_byte d) eqn:D; [|done]. pose proof (within_high _ _ _ D). split; [simpl; lia|].
    intros t. cbn [take_bytes]. rewrite !str_app_cons. unfold utf8_width.
    destruct (code c <? 128)%nat eqn:A'; [apply Nat.ltb_lt in A'; lia|]. by rewrite B2, D. }
  destruct s as [|e s]; [done|]. destruct (within 224 239 c) eqn:B3.
  { destruct ((if Nat.eqb (code c) 224 then _ else _) && _) eqn:D; [|done].
    pose proof D as D'. apply andb_true_iff in D' as [D1 D2].
    assert (128 <= code d)%nat by (destruct (Nat.eqb _ _) in D1; [|destruct (Nat.eqb _ _) in D1];
      apply within_high in D1; lia).
    pose proof (within_high _ _ _ D2). split; [simpl; lia|].
    intros t. cbn [take_bytes]. rewrite !str_app_cons. unfold utf8_width.
    destruct (code c <? 128)%nat eqn:A'; [apply Nat.ltb_lt in A'; lia|]. by rewrite B2, B3, D. }
  destruct s as [|f s]; [done|]. destruct (within 240 244 c) eqn:B4; [|done].
  destruct ((if Nat.eqb (code c) 240 then _ else _) && _ && _) eqn:D; [|done].
  pose proof D as D'. apply andb_true_iff in D' as [D1 D3]. apply andb_true_iff in D1 as [D1 D2].
  assert (128 <= code d)%nat by (destruct (Nat.eqb _ _) in D1; [|destruct (Nat.eqb _ _) in D1];
    apply within_high in D1; lia).
  pose proof (within_high _ _ _ D2). pose proof (within_high _ _ _ D3). split; [simpl; lia|].
  intros t. cbn [take_bytes]. rewrite !str_app_cons. unfold utf8_width.
  destruct (code c <? 128)%nat eqn:A'; [apply Nat.ltb_lt in A'; lia|]. by rewrite B2, B3, B4, D.
Qed.

Lemma sanitize_from_copy k s :
  high_run k s -> sanitize_from k s = take_bytes k s +:+ sanitize (drop_bytes k s).
Proof.
  revert s. induction k as [|k IH]; intros [|c s]; simpl; try done.
  intros [_ H]. rewrite str_app_cons. f_equal. by apply IH.
Qed.

Lemma quote_from_copy k s :
  high_run k s -> quote_from (copying k) s = take_bytes k s +:+ quote_from Fresh (drop_bytes k s).
Proof.
  revert s. induction k as [|k IH]; intros [|c s]; simpl; try done.
  intros [_ H]. rewrite str_app_cons. f_equal. by apply IH.
Qed.

(** One rune of [s] and what each pass makes of it. *)
Definition rune_len (s : string) : nat := Nat.max 1 (utf8_width s).

Definition sanitized_rune (s : string) : string :=
  match utf8_width s with O => replacement | n => take_bytes n s end.

Definition quoted_rune (s : string) : string :=
  match utf8_width s with
  | O => String backslash "ufffd"
  | 1%nat => match s with String c _ => quote_ascii c | "" => "" end
  | n => if HasPrefix s line_separator then String backslash "u2028"
         else if HasPrefix s paragraph_separator then String backslash "u2029"
         else take_bytes n s
  end.

Lemma sanitize_rune c s :
  sanitize (String c s)
  = sanitized_rune (String c s) +:+ sanitize (drop_bytes (rune_len (String c s)) (String c s)).
Proof.
  unfold sanitize at 1, sanitized_rune, rune_len. cbn [sanitize_from].
  pose proof (utf8_width_cases c s) as W. destruct (utf8_width (String c s)) as [|k]; [done|].
  destruct k as [|k].
  - simpl. rewrite str_app_cons, str_app_nil. by destruct s.
  - destruct W as [[_ H] _]. rewrite sanitize_from_copy by done.
    cbn [take_bytes drop_bytes]. by rewrite str_app_cons.
Qed.

Lemma separator_width p s :
  p = line_separator \/ p = paragraph_separator -> utf8_width (p +:+ s) = 3%nat.
Proof. by intros [-> | ->]. Qed.

Lemma quote_rune c s :
  quote_from Fresh (String c s)
  = quoted_rune (String c s) +:+ quote_from Fresh (drop_bytes (rune_len (String c s)) (String c s)).
Proof.
  unfold quoted_rune, rune_len. pose proof (utf8_width_cases c s) as W. cbn [quote_from].
  destruct (utf8_width (String c s)) as [|[|k]] eqn:E; [done|by simpl; destruct s|].
  destruct (HasPrefix (String c s) line_separator) eqn:P1.
  { apply HasPrefix_CutPrefix in P1 as [r P1]. apply CutPrefix_Some in P1. rewrite P1 in E.
    rewrite separator_width in E by auto. injection E as <-.
    change (line_separator +:+ r) with
      (String (byte_of 226) (String (byte_of 128) (String (byte_of 168) r))) in P1.
    injection P1 as -> ->. done. }
  destruct (HasPrefix (String c s) paragraph_separator) eqn:P2.
  { apply HasPrefix_CutPrefix in P2 as [r P2]. apply CutPrefix_Some in P2. rewrite P2 in E.
    rewrite separator_width in E by auto. injection E as <-.
    change (paragraph_separator +:+ r) with
      (String (byte_of 226) (String (byte_of 128) (String (byte_of 169) r))) in P2.
    injection P2 as -> ->. done. }
  destruct W as [[_ H] _]. cbn [Nat.max take_bytes drop_bytes].
  rewrite str_app_cons. f_equal. by apply (quote_from_copy (S k)).
Qed.

Lemma drop_bytes_length n s :
  (String.length (drop_bytes n s) <= String.length s - n)%nat.
Proof. revert s. induction n as [|n IH]; intros [|c s]; simpl; try lia. apply IH. Qed.

(** Induction over the runes of a string. *)
Lemma rune_ind (P : string -> Prop) :
  P "" ->
  (forall c s, P (drop_bytes (rune_len (String c s)) (String c s)) -> P (String c s)) ->
  forall s, P s.
Proof.
  intros P0 PS s. remember (String.length s) as n eqn:E.
  revert s E. induction n as [n IH] using lt_wf_ind. intros [|c s] ->; [done|].
  apply PS. eapply IH; [|done].
  pose proof (drop_bytes_length (rune_len (String c s)) (String c s)).
  unfold rune_len in *. simpl String.length in *. lia.
Qed.

(** [p] read in front of a literal. *)
Definition prepend (p : string) (r : option (string * string)) : option (string * string) :=
  match r with Some (b, rest) => Some (p +:+ b, rest) | None => None end.

(** Read a literal piece in front of [t]. *)
Ltac lex_piece :=
  match goal with |- lex_str (?p +:+ ?t) = _ =>
    let q := eval vm_compute in p in
    change p with q; rewrite ?str_app_cons, str_app_nil; cbn; by destruct (lex_str t) as [[]|]
  end.

Lemma lex_quote_ascii c t : lex_str (quote_ascii c +:+ t) = prepend (quote_ascii c) (lex_str t).
Proof.
  destruct c as [[] [] [] [] [] [] [] []]; lex_piece.
Qed.

Lemma unescape_quote_ascii c t : unescape (quote_ascii c +:+ t) = String c (unescape t).
Proof. by destruct c as [[] [] [] [] [] [] [] []]. Qed.

Lemma high_not_special c :
  (128 <= code c)%nat ->
  Ascii.eqb c dquote = false /\ Ascii.eqb c backslash = false /\ (code c <? 32)%nat = false.
Proof.
  intros H. split_and!; [| |apply Nat.ltb_ge; lia]; apply Ascii.eqb_neq; intros ->;
    vm_compute in H; lia.
Qed.

Lemma lex_high n s t :
  high_run n s -> lex_str (take_bytes n s +:+ t) = prepend (take_bytes n s) (lex_str t).
Proof.
  revert s. induction n as [|n IH]; intros [|c s]; simpl; try done.
  1, 2: rewrite str_app_nil; by destruct (lex_str t) as [[]|].
  intros [Hc H]. destruct (high_not_special c Hc) as (-> & -> & ->). rewrite IH by done. by destruct (lex_str t) as [[]|].
Qed.

Lemma unescape_high n s t :
  high_run n s -> unescape (take_bytes n s +:+ t) = take_bytes n s +:+ unescape t.
Proof.
  revert s. induction n as [|n IH]; intros [|c s]; simpl; try done.
  intros [Hc H]. destruct (high_not_special c Hc) as (_ & -> & _). rewrite str_app_cons.
  f_equal. by apply IH.
Qed.

Lemma lex_quoted_rune c s t :
  lex_str (quoted_rune (String c s) +:+ t) = prepend (quoted_rune (String c s)) (lex_str t).
Proof.
  unfold quoted_rune. pose proof (utf8_width_cases c s) as W.
  destruct (utf8_width (String c s)) as [|[|k]].
  - lex_piece.
  - apply lex_quote_ascii.
  - destruct (HasPrefix _ line_separator); [lex_piece|].
    destruct (HasPrefix _ paragraph_separator); [lex_piece|].
    by apply lex_high, W.
Qed.

Lemma prefix_take3 s p r : CutPrefix s p = Some r -> String.length p = 3%nat -> take_bytes 3 s = p.
Proof.
  intros E L. apply CutPrefix_Some in E. subst s.
  destruct p as [|a [|b [|d [|]]]]; done.
Qed.

Lemma unescape_quoted_rune c s t :
  unescape (quoted_rune (String c s) +:+ t) = sanitized_rune (String c s) +:+ unescape t.
Proof.
  unfold quoted_rune, sanitized_rune. pose proof (utf8_width_cases c s) as W.
  destruct (utf8_width (String c s)) as [|[|k]] eqn:E; [done| |].
  - rewrite unescape_quote_ascii. simpl. by rewrite str_app_cons, str_app_nil.
  - destruct (HasPrefix _ line_separator) eqn:P1.
    { apply HasPrefix_CutPrefix in P1 as [r P1]. pose proof (prefix_take3 _ _ _ P1 eq_refl) as T.
      apply CutPrefix_Some in P1. rewrite P1, separator_width in E by auto.
      injection E as <-. by rewrite T. }
    destruct (HasPrefix _ paragraph_separator) eqn:P2.
    { apply HasPrefix_CutPrefix in P2 as [r P2]. pose proof (prefix_take3 _ _ _ P2 eq_refl) as T.
      apply CutPrefix_Some in P2. rewrite P2, separator_width in E by auto.
      injection E as <-. by rewrite T. }
    by apply unescape_high, W.
Qed.

(** What [Marshal] quotes is one literal, and it stands for the string it was
    made from, with invalid bytes replaced. *)
Lemma lex_quote s rest :
  lex_str (quote_from Fresh s +:+ String dquote rest) = Some (quote_from Fresh s, rest).
Proof.
  induction s as [|c s IH] using rune_ind; [done|].
  rewrite quote_rune, str_app_assoc, lex_quoted_rune. by rewrite IH.
Qed.

Lemma unescape_quote s : unescape (quote_from Fresh s) = sanitize s.
Proof.
  induction s as [|c s IH] using rune_ind; [done|].
  rewrite quote_rune, sanitize_rune, unescape_quoted_rune. by rewrite IH.
Qed.

Lemma sanitized_rune_width c s t :
  sanitize (sanitized_rune (String c s) +:+ t) = sanitized_rune (String c s) +:+ sanitize t.
Proof.
  unfold sanitized_rune. pose proof (utf8_width_cases c s) as W.
  destruct (utf8_width (String c s)) as [|[|k]] eqn:E.
  - unfold replacement, bytes. simpl. rewrite !str_app_cons, str_app_nil. done.
  - cbn [take_bytes]. rewrite !str_app_cons, !str_app_nil. unfold sanitize at 1. cbn [sanitize_from].
    unfold utf8_width. by replace (code c <? 128)%nat with true by (symmetry; by apply Nat.ltb_lt).
  - destruct W as [[_ H] W]. specialize (W t). unfold sanitize at 1.
    change (take_bytes (S (S k)) (String c s)) with (String c (take_bytes (S k) s)) in *.
    rewrite str_app_cons in W |- *. cbn [sanitize_from]. rewrite W.
    rewrite str_app_cons. f_equal. clear W E. revert s H. generalize (S k). clear. intros n.
    induction n as [|n IH]; intros [|d s]; simpl; try done.
    intros [_ H]. rewrite str_app_cons. f_equal. by apply IH.
Qed.

Lemma sanitize_valid s : valid_utf8 (sanitize s).
Proof.
  unfold valid_utf8. induction s as [|c s IH] using rune_ind; [done|].
  rewrite sanitize_rune, sanitized_rune_width. by rewrite IH.
Qed.

Lemma unquote_valid body : valid_utf8 (unquote body).
Proof. apply sanitize_valid. Qed.

Lemma unquote_quote s : unquote (quote_from Fresh s) = sanitize s.
Proof. unfold unquote. rewrite unescape_quote. apply sanitize_valid. Qed.

(** ** Numbers: what ends one *)

(** Nothing a number could go on with. *)
Definition stops (s : string) : Prop :=
  match s with
  | "" => True
  | String c _ => is_digit c = false /\ is_exp c = false /\ Ascii.eqb c "."%char = false
                  /\ is_sign c = false
  end.

Fixpoint all_digits (s : string) : bool :=
  match s with "" => true | String c t => is_digit c && all_digits t end.

Lemma take_digits_spec s d r : take_digits s = (d, r) -> s = d +:+ r /\ all_digits d = true.
Proof.
  revert d r. induction s as [|c s IH]; simpl; intros d r; [by intros [= <- <-]|].
  destruct (is_digit c) eqn:D; [|by intros [= <- <-]].
  destruct (take_digits s) as [d' r'] eqn:E. intros [= <- <-].
  rewrite str_app_cons. destruct (IH _ _ eq_refl) as [<- H]. simpl. by rewrite D, H.
Qed.

Definition no_digit (s : string) : Prop :=
  match s with "" => True | String c _ => is_digit c = false end.

Lemma take_digits_read d rest :
  all_digits d = true -> no_digit rest -> take_digits (d +:+ rest) = (d, rest).
Proof.
  intros H N. induction d as [|c d IH].
  - rewrite str_app_nil. destruct rest as [|c rest]; [done|]. simpl in *. by rewrite N.
  - simpl in H. apply andb_true_iff in H as [H1 H2]. rewrite str_app_cons. simpl.
    by rewrite H1, (IH H2).
Qed.

(** The grammar of number literals. *)
Definition int_part (i : string) : Prop :=
  i = "0" \/ exists c t, i = String c t /\ Ascii.eqb c "0"%char = false /\ all_digits i = true.
Definition frac_part (f : string) : Prop :=
  f = "" \/ exists d, f = String "." d /\ all_digits d = true /\ d <> "".
Definition exp_part (e : string) : Prop :=
  e = "" \/ exists c sg d, e = String c (sg +:+ d) /\ is_exp c = true /\
    (sg = "" \/ exists x, sg = String x "" /\ is_sign x = true) /\
    all_digits d = true /\ d <> "".
Definition number (lit : string) : Prop :=
  exists sg i f e, lit = sg +:+ i +:+ f +:+ e /\ (sg = "" \/ sg = "-") /\
    int_part i /\ frac_part f /\ exp_part e.

Lemma lex_minus_spec s sg r : lex_minus s = (sg, r) -> s = sg +:+ r /\ (sg = "" \/ sg = "-").
Proof.
  destruct s as [|c s]; simpl; [intros [= <- <-]; auto|].
  destruct (Ascii.eqb_spec c "-"%char) as [->|]; intros [= <- <-]; auto.
Qed.

Lemma lex_int_spec s i r : lex_int s = Some (i, r) -> s = i +:+ r /\ int_part i.
Proof.
  destruct s as [|c s]; [done|]. cbn [lex_int]. destruct (Ascii.eqb c "0"%char) eqn:Z.
  - apply Ascii.eqb_eq in Z as ->. intros [= <- <-]. split; [done|by left].
  - destruct (is_digit c) eqn:D; [|done]. intros [= E].
    destruct (take_digits_spec (String c s) _ _ E) as [E1 E2]. split; [done|]. right.
    rewrite D in E. destruct (take_digits s). injection E as <- <-. eauto.
Qed.

Lemma lex_frac_spec s f r : lex_frac s = Some (f, r) -> s = f +:+ r /\ frac_part f.
Proof.
  destruct s as [|c s]; cbn [lex_frac]; [intros [= <- <-]; split; [done|by left]|].
  destruct (Ascii.eqb_spec c "."%char) as [->|]; [|intros [= <- <-]; split; [done|by left]].
  destruct (take_digits s) as [d r'] eqn:E. case_bool_decide; [done|]. intros [= <- <-].
  apply take_digits_spec in E as [-> E]. split; [done|]. right. eauto.
Qed.

Lemma lex_exp_spec s e r : lex_exp s = Some (e, r) -> s = e +:+ r /\ exp_part e.
Proof.
  destruct s as [|c s]; cbn [lex_exp]; [intros [= <- <-]; split; [done|by left]|].
  destruct (is_exp c) eqn:X; [|intros [= <- <-]; split; [done|by left]].
  set (p := match s with "" => _ | String d t' => _ end).
  assert (P : s = p.1 +:+ p.2 /\ (p.1 = "" \/ exists x, p.1 = String x "" /\ is_sign x = true)).
  { unfold p. destruct s as [|d s]; simpl; [auto|]. destruct (is_sign d) eqn:D; simpl; eauto. }
  destruct p as [sg t]. simpl in P. destruct P as [-> P].
  destruct (take_digits t) as [d r'] eqn:E. case_bool_decide; [done|]. intros [= <- <-].
  apply take_digits_spec in E as [-> E]. split; [by rewrite str_app_cons, str_app_assoc|].
  right. exists c, sg, d. done.
Qed.

Lemma lex_number_spec s lit r : lex_number s = Some (lit, r) -> s = lit +:+ r /\ number lit.
Proof.
  unfold lex_number. destruct (lex_minus s) as [sg s1] eqn:E1.
  destruct (lex_int s1) as [[i s2]|] eqn:E2; [|done].
  destruct (lex_frac s2) as [[f s3]|] eqn:E3; [|done].
  destruct (lex_exp s3) as [[e s4]|] eqn:E4; [|done]. intros [= <- <-].
  apply lex_minus_spec in E1 as [-> ?]. apply lex_int_spec in E2 as [-> ?].
  apply lex_frac_spec in E3 as [-> ?]. apply lex_exp_spec in E4 as [-> ?].
  split; [by rewrite !str_app_assoc|]. exists sg, i, f, e. done.
Qed.

Lemma stops_no_digit s : stops s -> no_digit s.
Proof. destruct s; [done|]. by intros []. Qed.

Lemma digit_not_sign c : is_digit c = true -> Ascii.eqb c "-"%char = false /\ is_sign c = false.
Proof.
  intros D. unfold is_sign. split; [|apply orb_false_iff; split]; apply Ascii.eqb_neq; by intros ->.
Qed.

(** After the integer part comes nothing, a point or an exponent. *)
Lemma no_digit_tail f e rest : frac_part f -> exp_part e -> stops rest -> no_digit (f +:+ e +:+ rest).
Proof.
  intros [->|(d & -> & _)] He Hs; [|done]. rewrite str_app_nil.
  destruct He as [->|(c & sg & d & -> & X & _)]; [by apply stops_no_digit|].
  rewrite str_app_cons. simpl. unfold is_exp in X. apply orb_true_iff in X as [X|X];
    apply Ascii.eqb_eq in X as ->; done.
Qed.

Lemma lex_exp_read e rest : exp_part e -> stops rest -> lex_exp (e +:+ rest) = Some (e, rest).
Proof.
  intros [->|(c & sg & d & -> & X & Hsg & Hd & Hn)] Hs.
  - rewrite str_app_nil. destruct rest as [|c rest]; [done|]. destruct Hs as (_ & Hs & _).
    cbn [lex_exp]. by rewrite Hs.
  - rewrite str_app_cons. cbn [lex_exp]. rewrite X, str_app_assoc.
    assert (T : (match sg +:+ d +:+ rest with
                 | "" => ("", "")
                 | String d0 t' => if is_sign d0 then (String d0 "", t') else ("", sg +:+ d +:+ rest)
                 end) = (sg, d +:+ rest)).
    { destruct Hsg as [->|(x & -> & Hx)].
      - rewrite str_app_nil. destruct d as [|y d]; [done|]. rewrite str_app_cons.
        simpl in Hd. apply andb_true_iff in Hd as [Hd _]. destruct (digit_not_sign _ Hd) as [_ ->]. done.
      - rewrite str_app_cons, Hx, str_app_nil. done. }
    rewrite T. rewrite take_digits_read by (auto using stops_no_digit).
    by rewrite bool_decide_false.
Qed.

Lemma lex_frac_read f e rest :
  frac_part f -> exp_part e -> stops rest ->
  lex_frac (f +:+ e +:+ rest) = Some (f, e +:+ rest).
Proof.
  intros Hf He Hs. destruct Hf as [->|(d & -> & Hd & Hn)].
  - rewrite str_app_nil. destruct He as [->|(c & sg & d & -> & X & _)].
    + rewrite str_app_nil. destruct rest as [|c rest]; [done|]. destruct Hs as (_ & _ & Hs & _).
      cbn [lex_frac]. by rewrite Hs.
    + rewrite str_app_cons. cbn [lex_frac]. unfold is_exp in X.
      apply orb_true_iff in X as [X|X]; apply Ascii.eqb_eq in X as ->; done.
  - rewrite str_app_cons. cbn [lex_frac Ascii.eqb Bool.eqb].
    rewrite take_digits_read; [by rewrite bool_decide_false|done|].
    rewrite <- (str_app_nil (e +:+ rest)). apply (no_digit_tail "" e rest); [by left|done|done].
Qed.

Lemma lex_int_read i rest : int_part i -> no_digit rest -> lex_int (i +:+ rest) = Some (i, rest).
Proof.
  intros [->|(c & t & -> & Z & D)] N; [done|]. rewrite str_app_cons. cbn [lex_int].
  pose proof D as D'. simpl in D'. apply andb_true_iff in D' as [D1 _].
  rewrite Z, D1, <- str_app_cons. by rewrite take_digits_read.
Qed.

Lemma lex_minus_read sg i rest :
  sg = "" \/ sg = "-" -> int_part i -> lex_minus (sg +:+ i +:+ rest) = (sg, i +:+ rest).
Proof.
  intros [->| ->] Hi; [|done]. rewrite str_app_nil.
  destruct Hi as [->|(c & t & -> & _ & D)]; [done|]. rewrite str_app_cons. simpl in *.
  apply andb_true_iff in D as [D _]. by destruct (digit_not_sign _ D) as [-> _].
Qed.

Lemma lex_number_read lit rest : number lit -> stops rest -> lex_number (lit +:+ rest) = Some (lit, rest).
Proof.
  intros (sg & i & f & e & -> & Hsg & Hi & Hf & He) Hs. unfold lex_number.
  rewrite !str_app_assoc. rewrite lex_minus_read by done.
  rewrite lex_int_read by auto using no_digit_tail. rewrite lex_frac_read by done.
  by rewrite lex_exp_read.
Qed.

Lemma number_start lit : number lit -> exists c t, lit = String c t /\ (c = "-"%char \/ is_digit c = true).
Proof.
  intros (sg & i & f & e & -> & Hsg & Hi & _). destruct Hsg as [->| ->].
  - rewrite str_app_nil. destruct Hi as [->|(c & t & -> & _ & D)].
    + eexists _, _. rewrite str_app_cons. split; [done|by right].
    + rewrite str_app_cons. simpl in D. apply andb_true_iff in D as [D _]. eauto.
  - eexists _, _. rewrite str_app_cons. split; [done|by left].
Qed.

(** ** Maps as sorted lists *)

Definition key_lt (p q : string * json) : Prop := String.compare p.1 q.1 = Lt.
Definition sorted_keys (m : list (string * json)) : Prop := Sorted.StronglySorted key_lt m.

Lemma str_compare_refl s : String.compare s s = Eq.
Proof. pose proof (String.compare_antisym s s). by destruct (String.compare s s). Qed.

Lemma str_compare_trans a b c :
  String.compare a b = Lt -> String.compare b c = Lt -> String.compare a c = Lt.
Proof.
  revert b c. induction a as [|x a IH]; intros [|y b] [|z c]; simpl; try done.
  unfold Ascii.compare. destruct (N.compare_spec (N_of_ascii x) (N_of_ascii y)) as [E|L|L];
    destruct (N.compare_spec (N_of_ascii y) (N_of_ascii z)) as [E'|L'|L']; try done; intros H1 H2;
    destruct (N.compare_spec (N_of_ascii x) (N_of_ascii z)) as [E''|L''|L'']; try done; try lia.
  by apply (IH b).
Qed.

Lemma str_compare_gt a b : String.compare a b = Gt <-> String.compare b a = Lt.
Proof. rewrite String.compare_antisym. by destruct (String.compare b a). Qed.

Lemma obj_put_keys k v m : forall p, p ∈ obj_put k v m -> p = (k, v) \/ p ∈ m.
Proof.
  induction m as [|[k' v'] m IH]; simpl; intros p.
  - intros ->%list_elem_of_singleton. by left.
  - destruct (String.compare k k'); rewrite !elem_of_cons; [naive_solver..|].
    intros [->|Hp]; [auto|]. destruct (IH p Hp); auto.
Qed.

Lemma obj_put_sorted k v m : sorted_keys m -> sorted_keys (obj_put k v m).
Proof.
  unfold sorted_keys. induction 1 as [|[k' v'] m Hs IH Hf]; simpl; [by repeat constructor|].
  rewrite list.Forall_forall in Hf. destruct (String.compare k k') eqn:C.
  - apply String.compare_eq_iff in C as ->. constructor; [done|]. by apply list.Forall_forall.
  - constructor; [by constructor; [|apply list.Forall_forall]|]. apply list.Forall_forall.
    intros p [->|Hp]%elem_of_cons; [done|]. eapply str_compare_trans; [exact C|]. by apply Hf.
  - constructor; [done|]. apply list.Forall_forall. intros p [->|Hp]%obj_put_keys; [|by apply Hf].
    by apply str_compare_gt.
Qed.

Lemma obj_put_above k v m : Forall (fun p => key_lt p (k, v)) m -> obj_put k v m = m ++ [(k, v)].
Proof.
  induction 1 as [|[k' v'] m H Hm IH]; [done|]. simpl.
  apply str_compare_gt in H. simpl in H. rewrite H. by rewrite IH.
Qed.

(** Sorted lists of distinct keys are maps: a lookup sees the last [obj_put]. *)
Lemma obj_get_put k v m k' :
  obj_get k' (obj_put k v m) = if decide (k' = k) then Some v else obj_get k' m.
Proof.
  induction m as [|[k0 v0] m IH]; simpl.
  - destruct (String.eqb_spec k' k), (decide (k' = k)); done.
  - destruct (String.compare k k0) eqn:C; simpl.
    + apply String.compare_eq_iff in C as <-.
      by destruct (String.eqb_spec k' k), (decide (k' = k)).
    + by destruct (String.eqb_spec k' k), (decide (k' = k)).
    + rewrite IH. destruct (String.eqb_spec k' k0) as [->|]; [|done].
      destruct (decide (k0 = k)) as [->|]; [|done]. by rewrite str_compare_refl in C.
Qed.

Lemma obj_get_below k m : Forall (fun p => String.compare k p.1 = Lt) m -> obj_get k m = None.
Proof.
  induction 1 as [|[k' v'] m H Hm IH]; [done|]. simpl in *.
  destruct (String.eqb_spec k k') as [->|]; [by rewrite str_compare_refl in H|done].
Qed.

Lemma obj_get_delete k m k' :
  sorted_keys m -> obj_get k' (obj_delete k m) = if decide (k' = k) then None else obj_get k' m.
Proof.
  unfold sorted_keys. induction 1 as [|[k0 v0] m Hs IH Hf]; simpl; [by destruct (decide _)|].
  destruct (String.eqb_spec k k0) as [->|].
  - destruct (decide (k' = k0)) as [->|]; [by apply obj_get_below|].
    by destruct (String.eqb_spec k' k0).
  - simpl. rewrite IH. destruct (String.eqb_spec k' k0) as [->|]; [|done].
    by destruct (decide (k0 = k)).
Qed.

Lemma obj_delete_sub k m : forall p, p ∈ obj_delete k m -> p ∈ m.
Proof.
  induction m as [|[k0 v0] m IH]; simpl; [done|]. intros p.
  destruct (String.eqb k k0); [by constructor|].
  intros [->|Hp]%elem_of_cons; constructor; auto.
Qed.

Lemma obj_delete_sorted k m : sorted_keys m -> sorted_keys (obj_delete k m).
Proof.
  unfold sorted_keys. induction 1 as [|[k0 v0] m Hs IH Hf]; simpl; [constructor|].
  destruct (String.eqb k k0); [done|]. constructor; [done|].
  rewrite list.Forall_forall in Hf |- *. intros p Hp. by apply Hf, (obj_delete_sub k).
Qed.

(** Two maps that agree on every key are the same list. *)
Lemma sorted_keys_ext m m' :
  sorted_keys m -> sorted_keys m' -> (forall k, obj_get k m = obj_get k m') -> m = m'.
Proof.
  intros Hs. revert m'. unfold sorted_keys in *.
  induction Hs as [|[k v] m Hs IH Hf]; intros [|[k' v'] m'] Hs' E; [done| | |].
  - specialize (E k'). simpl in E. by rewrite String.eqb_refl in E.
  - specialize (E k). simpl in E. by rewrite String.eqb_refl in E.
  - inversion_clear Hs' as [|? ? Hs2 Hf2].
    assert (k = k') as <-.
    { destruct (String.compare k k') eqn:C; [by apply String.compare_eq_iff| |].
      - pose proof (E k) as Ek. simpl in Ek. rewrite String.eqb_refl in Ek.
        assert (N : obj_get k ((k', v') :: m') = None); [|simpl in N; by rewrite N in Ek].
        apply obj_get_below. constructor; [done|]. rewrite list.Forall_forall in Hf2 |- *. intros p Hp.
        by apply (str_compare_trans _ _ _ C), Hf2.
      - apply str_compare_gt in C. pose proof (E k') as Ek. simpl in Ek. rewrite String.eqb_refl in Ek.
        assert (N : obj_get k' ((k, v) :: m) = None); [|simpl in N; by rewrite N in Ek].
        apply obj_get_below.
        constructor; [done|]. rewrite list.Forall_forall in Hf |- *. intros p Hp.
        by apply (str_compare_trans _ _ _ C), Hf. }
    pose proof (E k) as Ek. simpl in Ek. rewrite String.eqb_refl in Ek. injection Ek as <-.
    f_equal. apply IH; [done|]. intros x. destruct (decide (x = k)) as [->|Hne].
    + rewrite !obj_get_below; [done|exact Hf2|exact Hf].
    + specialize (E x). simpl in E. by destruct (String.eqb_spec x k).
Qed.

(** ** Printing and reading values *)

Lemma json_ind' (P : json -> Prop) :
  P JNull -> (forall b, P (JBool b)) -> (forall lit, P (JNum lit)) -> (forall s, P (JStr s)) ->
  (forall l, Forall P l -> P (JArr l)) -> (forall ms, Forall (fun p => P p.2) ms -> P (JObj ms)) ->
  forall j, P j.
Proof.
  intros H1 H2 H3 H4 H5 H6. fix F 1.
  intros [|b|lit|s|l|ms]; [apply H1|apply H2|apply H3|apply H4|apply H5|apply H6].
  - induction l as [|j l IH]; constructor; [apply F|exact IH].
  - induction ms as [|[k v] ms IH]; constructor; [apply F|exact IH].
Qed.

(** Values [Marshal] prints as they are: [d] bounds their nesting. *)
Inductive text_json : nat -> json -> Prop :=
| text_null d : text_json d JNull
| text_bool d b : text_json d (JBool b)
| text_num d lit : number lit -> text_json d (JNum lit)
| text_str d s : valid_utf8 s -> text_json d (JStr s)
| text_arr d l : Forall (text_json d) l -> text_json (S d) (JArr l)
| text_obj d ms : Forall (fun p => valid_utf8 p.1 /\ text_json d p.2) ms -> text_json (S d) (JObj ms).

(** The same with every object a map: what decoding into [any] gives. *)
Inductive wf_json : nat -> json -> Prop :=
| wf_null d : wf_json d JNull
| wf_bool d b : wf_json d (JBool b)
| wf_num d lit : number lit -> wf_json d (JNum lit)
| wf_str d s : valid_utf8 s -> wf_json d (JStr s)
| wf_arr d l : Forall (wf_json d) l -> wf_json (S d) (JArr l)
| wf_obj d ms : sorted_keys ms -> Forall (fun p => valid_utf8 p.1 /\ wf_json d p.2) ms ->
    wf_json (S d) (JObj ms).

Lemma wf_text d j : wf_json d j -> text_json d j.
Proof.
  revert d. induction j as [|b|lit|s|l IH|ms IH] using json_ind'; intros d W;
    inversion_clear W as [|d1 b1|d1 ? Hn|d1 ? Hv|d1 ? Hl|d1 ? Hs Hm]; constructor; try done;
    rewrite list.Forall_forall in IH |- *.
  - rewrite list.Forall_forall in Hl. eauto.
  - rewrite list.Forall_forall in Hm. intros p Hp. destruct (Hm p Hp). split; [done|]. by apply IH.
Qed.

Lemma value_str d t :
  value d (String dquote t) = match lex_str t with
                              | Some (body, r) => Some (JStr (unquote body), r)
                              | None => None
                              end.
Proof. by destruct d. Qed.

Lemma value_obj d t :
  value (S d) (String "{" t) = match object_body (value d) t with
                               | Some (ms, r) => Some (JObj ((fun m => (m.1, m.2.2)) <$> ms), r)
                               | None => None
                               end.
Proof. done. Qed.

Lemma value_arr d t :
  value (S d) (String "[" t) = match array_body (value d) t with
                               | Some (l, r) => Some (JArr (snd <$> l), r)
                               | None => None
                               end.
Proof. done. Qed.

Lemma value_num d c t lit r :
  c = "-"%char \/ is_digit c = true -> lex_number (String c t) = Some (lit, r) ->
  value d (String c t) = Some (JNum lit, r).
Proof.
  intros Hc E. assert (value d (String c t) = match lex_number (String c t) with
    | Some (lit, r) => Some (JNum lit, r) | None => None end) as ->; [|by rewrite E].
  clear E. destruct Hc as [->|Hc]; [by destruct d|].
  destruct d, c as [[] [] [] [] [] [] [] []]; done.
Qed.

(** A text that starts a value: nothing is skipped in front of it, and it ends
    no array. *)
Definition starts (t : string) : Prop := exists c u, t = String c u /\ is_ws c = false /\ c <> "]"%char.

Lemma starts_skip t rest : starts t -> skip_ws (t +:+ rest) = t +:+ rest.
Proof. intros (c & u & -> & W & _). rewrite str_app_cons. simpl. by rewrite W. Qed.

Lemma skip_starts t : starts t -> skip_ws t = t.
Proof. intros H. rewrite <- (str_app_empty t) at 1 2. by apply starts_skip. Qed.

(** A text that stands for a value wherever one is read. *)
Definition reads_as (d : nat) (t : string) (j : json) : Prop :=
  starts t /\ forall rest, stops rest -> value d (t +:+ rest) = Some (j, rest).

Lemma text_starts d j : text_json d j -> starts (marshal j).
Proof.
  intros W. destruct j as [|[]|lit|s|l|ms]; cbn [marshal]; try (by eexists _, _).
  inversion_clear W as [| |? ? H| | |]. destruct (number_start _ H) as (c & t & -> & Hc).
  exists c, t. split_and!; [done| |].
  - destruct Hc as [->|Hc]; [done|]. by destruct c as [[] [] [] [] [] [] [] []].
  - destruct Hc as [->|Hc]; [done|]. intros ->. done.
Qed.

Lemma comma_join_cons2 t u l : comma_join (t :: u :: l) = t +:+ String "," (comma_join (u :: l)).
Proof. done. Qed.

Lemma comma_join_starts t l rest :
  starts t -> starts (comma_join (t :: l) +:+ rest).
Proof.
  intros (c & u & -> & H). destruct l as [|t' l]; [cbn [comma_join]|rewrite comma_join_cons2, str_app_assoc];
    rewrite str_app_cons; by eexists _, _.
Qed.

Lemma comma_join_length {A} (f : A -> string) l :
  (length l <= S (String.length (comma_join (map f l))))%nat.
Proof.
  induction l as [|j l IH]; [simpl; lia|]. destruct l; [simpl; lia|].
  cbn [map] in *. rewrite comma_join_cons2, str_app_length. simpl in *. lia.
Qed.

(** Elements and members are given with their texts. *)
Lemma loop_elements_read d n l rest :
  l <> [] -> Forall (fun p => reads_as d p.1 p.2) l -> (length l <= n)%nat ->
  loop_elements (value d) n (comma_join (map fst l) +:+ String "]" rest) = Some (l, rest).
Proof.
  intros Hne Hl. revert n. induction Hl as [|[t j] l [Hw Hj] Hl IH]; intros n Hn; [done|].
  destruct n as [|n]; [simpl in Hn; lia|]. simpl in Hn, Hj. cbn [map loop_elements fst].
  destruct l as [|[t' j'] l].
  - cbn [comma_join map]. rewrite Hj by (simpl; auto). rewrite consumed_app. done.
  - cbn [map fst]. rewrite comma_join_cons2, str_app_assoc, str_app_cons, Hj by (simpl; auto).
    rewrite consumed_app. cbn -[comma_join map].
    rewrite (skip_starts (comma_join (t' :: map fst l) +:+ String "]" rest))
      by (apply comma_join_starts, (Forall_inv Hl)).
    change (t' :: map fst l) with (map fst ((t', j') :: l)).
    rewrite IH by (try done; simpl in *; lia). done.
Qed.

Definition member_text (m : string * (string * json)) : string := quote m.1 +:+ String ":" m.2.1.

Lemma member_starts m : starts (member_text m).
Proof. unfold member_text, quote. rewrite str_app_cons. by eexists _, _. Qed.

Lemma loop_members_read d n ms rest :
  ms <> [] ->
  Forall (fun m => valid_utf8 m.1 /\ reads_as d m.2.1 m.2.2) ms -> (length ms <= n)%nat ->
  loop_members (value d) n (comma_join (map member_text ms) +:+ String "}" rest) = Some (ms, rest).
Proof.
  intros Hne Hl. revert n. induction Hl as [|[k [t v]] ms (Hk & Hw & Hv) Hl IH]; intros n Hn; [done|].
  destruct n as [|n]; [simpl in Hn; lia|]. simpl in Hn, Hk, Hv, Hw.
  assert (M : forall x, member_text (k, (t, v)) +:+ x
            = String dquote (quote_from Fresh k +:+ String dquote (String ":" (t +:+ x)))).
  { intros x. unfold member_text, quote. simpl. by rewrite !str_app_cons, !str_app_assoc, !str_app_cons. }
  destruct ms as [|p ms].
  - cbn [map comma_join]. rewrite M. cbn -[quote_from value lex_str].
    rewrite lex_quote. cbn -[value]. rewrite starts_skip by done.
    rewrite Hv by (simpl; auto). cbn. rewrite unquote_quote, Hk, consumed_app. done.
  - cbn [map]. rewrite comma_join_cons2.
    rewrite str_app_assoc, M, str_app_cons. cbn -[quote_from value lex_str comma_join map].
    rewrite lex_quote. cbn -[value comma_join map].
    change (member_text p :: map member_text ms) with (map member_text (p :: ms)).
    set (tl := comma_join (map member_text (p :: ms)) +:+ String "}" rest) in *.
    rewrite starts_skip by done.
    rewrite Hv by (simpl; auto). cbn -[value comma_join map].
    assert (E : skip_ws tl = tl).
    { apply skip_starts. unfold tl. cbn [map]. apply comma_join_starts, member_starts. }
    rewrite E. unfold tl at 2. rewrite IH by (try done; simpl in *; lia).
    by rewrite unquote_quote, Hk, consumed_app.
Qed.

Lemma CutPrefix_app p r : CutPrefix (p +:+ r) p = Some r.
Proof. by apply CutPrefix_Some. Qed.

(** The inside of an array and of an object. *)
Lemma array_body_read d l rest :
  Forall (fun p => reads_as d p.1 p.2) l ->
  array_body (value d) (comma_join (map fst l) +:+ String "]" rest) = Some (l, rest).
Proof.
  intros Hl. unfold array_body. destruct l as [|p l]; [done|].
  pose proof (loop_elements_read d (S (String.length (comma_join (map fst (p :: l)) +:+ String "]" rest)))
                (p :: l) rest ltac:(done) Hl) as L.
  destruct (comma_join_starts p.1 (map fst l) (String "]" rest) (proj1 (Forall_inv Hl)))
    as (c & t & E & W & Hc).
  change (p.1 :: map fst l) with (map fst (p :: l)) in E. rewrite E in L |- *. cbn [skip_ws]. rewrite W.
  destruct (Ascii.eqb_spec c "]"%char); [done|]. rewrite L; [done|].
  rewrite <- E, str_app_length. pose proof (comma_join_length fst (p :: l)). lia.
Qed.

Lemma object_body_read d ms rest :
  Forall (fun m => valid_utf8 m.1 /\ reads_as d m.2.1 m.2.2) ms ->
  object_body (value d) (comma_join (map member_text ms) +:+ String "}" rest) = Some (ms, rest).
Proof.
  intros Hl. unfold object_body. destruct ms as [|m ms]; [done|].
  pose proof (loop_members_read d (S (String.length (comma_join (map member_text (m :: ms)) +:+ String "}" rest)))
                (m :: ms) rest ltac:(done) Hl) as L.
  assert (E : exists t, comma_join (map member_text (m :: ms)) +:+ String "}" rest = String dquote t).
  { cbn [map]. destruct (map member_text ms); [|rewrite comma_join_cons2, str_app_assoc];
      unfold member_text, quote; simpl; rewrite !str_app_cons; by eexists. }
  destruct E as [t E]. rewrite E in L |- *.
  cbn [skip_ws is_ws Ascii.eqb Bool.eqb dquote orb]. rewrite L; [done|].
  rewrite <- E, str_app_length. pose proof (comma_join_length member_text (m :: ms)). lia.
Qed.

Lemma reads_str d s : reads_as d (quote s) (JStr (sanitize s)).
Proof.
  split; [by eexists _, _|]. intros rest _. unfold quote.
  rewrite str_app_cons, str_app_assoc, str_app_cons, str_app_nil, value_str, lex_quote.
  by rewrite unquote_quote.
Qed.

Lemma reads_num d lit : number lit -> reads_as d lit (JNum lit).
Proof.
  intros H. split; [by apply (text_starts d (JNum lit)); constructor|]. intros rest Hr.
  pose proof (lex_number_read lit rest H Hr) as R.
  destruct (number_start _ H) as (c & t & -> & Hc). rewrite str_app_cons in R |- *.
  by apply value_num.
Qed.

Lemma reads_null d : reads_as d "null" JNull.
Proof.
  split; [by eexists _, _|]. intros rest _. change ("null" +:+ rest) with (String "n" ("ull" +:+ rest)).
  destruct d; cbn -[CutPrefix]; by rewrite (CutPrefix_app "ull" rest).
Qed.

Lemma reads_bool d (b : bool) : reads_as d (if b then "true" else "false") (JBool b).
Proof.
  split; [destruct b; by eexists _, _|]. intros rest _. destruct b.
  - change ("true" +:+ rest) with (String "t" ("rue" +:+ rest)).
    destruct d; cbn -[CutPrefix]; by rewrite (CutPrefix_app "rue" rest).
  - change ("false" +:+ rest) with (String "f" ("alse" +:+ rest)).
    destruct d; cbn -[CutPrefix]; by rewrite (CutPrefix_app "alse" rest).
Qed.

Definition array_text (texts : list string) : string := String "[" (comma_join texts +:+ "]").
Definition object_text (ms : list (string * (string * json))) : string :=
  String "{" (comma_join (map member_text ms) +:+ "}").

Lemma reads_arr d l :
  Forall (fun p => reads_as d p.1 p.2) l -> reads_as (S d) (array_text (map fst l)) (JArr (map snd l)).
Proof.
  intros Hl. split; [by eexists _, _|]. intros rest _. unfold array_text.
  by rewrite str_app_cons, str_app_assoc, str_app_cons, str_app_nil, value_arr, array_body_read.
Qed.

Lemma reads_obj d ms :
  Forall (fun m => valid_utf8 m.1 /\ reads_as d m.2.1 m.2.2) ms ->
  reads_as (S d) (object_text ms) (JObj (map (fun m => (m.1, m.2.2)) ms)).
Proof.
  intros Hl. split; [by eexists _, _|]. intros rest _. unfold object_text.
  by rewrite str_app_cons, str_app_assoc, str_app_cons, str_app_nil, value_obj, object_body_read.
Qed.

(** Members and elements with the texts [marshal] gives them. *)
Definition with_text (p : string * json) : string * (string * json) := (p.1, (marshal p.2, p.2)).

Lemma marshal_obj ms : marshal (JObj ms) = object_text (map with_text ms).
Proof. cbn [marshal]. unfold object_text. by rewrite map_map. Qed.
Lemma marshal_arr l : marshal (JArr l) = array_text (map fst (map (fun j => (marshal j, j)) l)).
Proof. cbn [marshal]. unfold array_text. by rewrite map_map. Qed.

Definition reads_back (d : nat) (j : json) : Prop := reads_as d (marshal j) j.

Lemma value_text j d : text_json d j -> reads_back d j.
Proof.
  unfold reads_back.
  revert d. induction j as [|b|lit|s|l IH|ms IH] using json_ind'; intros d W.
  - apply reads_null.
  - change (marshal (JBool b)) with (if b then "true" else "false"). apply reads_bool.
  - inversion_clear W as [| |? ? H| | |]. by apply reads_num.
  - inversion_clear W as [| | |? ? H| |]. unfold valid_utf8 in H. rewrite <- H at 2. apply reads_str.
  - inversion_clear W as [| | | |d' ? H|]. rewrite marshal_arr.
    replace (JArr l) with (JArr (map snd (map (fun j => (marshal j, j)) l)))
      by (rewrite map_map; simpl; by rewrite map_id).
    apply reads_arr. rewrite list.Forall_forall in IH. rewrite list.Forall_forall in H. apply list.Forall_forall.
    intros p (x & -> & Hx)%list_elem_of_fmap. by apply IH, H.
  - inversion_clear W as [| | | | |d' ? H]. rewrite marshal_obj.
    replace (JObj ms) with (JObj (map (fun m => (m.1, m.2.2)) (map with_text ms)))
      by (rewrite map_map; f_equal; clear; induction ms as [|[] ms E]; [done|]; cbn; by f_equal).
    apply reads_obj. rewrite list.Forall_forall in IH. rewrite list.Forall_forall in H. apply list.Forall_forall.
    intros p (x & -> & Hx)%list_elem_of_fmap. destruct (H x Hx). split; [done|]. by apply (IH x).
Qed.

Lemma value_marshal j d : wf_json d j -> reads_back d j.
Proof. intros W. by apply value_text, wf_text. Qed.

(** Such a text is parsed, and decoded first from what it starts. *)
Lemma reads_parse t j : reads_as maxNestingDepth t j -> parse t = Some j.
Proof.
  intros [S V]. unfold parse. pose proof (starts_skip t "" S) as E. specialize (V "" I).
  rewrite str_app_empty in E, V. by rewrite E, V.
Qed.

Lemma reads_first t j : reads_as maxNestingDepth t j -> decode_first t = Some (j, "").
Proof.
  intros [S V]. unfold decode_first. pose proof (starts_skip t "" S) as E. specialize (V "" I).
  rewrite str_app_empty in E, V. by rewrite E, V.
Qed.

(** Printed text parses back, with the raw text of every part. *)
Lemma parse_text j : text_json maxNestingDepth j -> parse (marshal j) = Some j.
Proof. intros W. by apply reads_parse, value_text. Qed.


(** ** What a decoded value is *)

Lemma loop_elements_all (P : json -> Prop) pv n s l r :
  (forall s j r, pv s = Some (j, r) -> P j) ->
  loop_elements pv n s = Some (l, r) -> Forall (fun p => P p.2) l.
Proof.
  intros Hp. revert s l r. induction n as [|n IH]; intros s l r; [done|]. cbn [loop_elements].
  destruct (pv s) as [[v s1]|] eqn:E; [|done]. destruct (skip_ws s1) as [|c s2]; [done|].
  destruct (Ascii.eqb c ","%char).
  - destruct (loop_elements pv n (skip_ws s2)) as [[l' r']|] eqn:E'; [|done].
    intros [= <- <-]. constructor; [by eapply Hp|by eapply IH].
  - destruct (Ascii.eqb c "]"%char); [|done]. intros [= <- <-]. repeat constructor. by eapply Hp.
Qed.

Lemma loop_members_all (P : json -> Prop) pv n s l r :
  (forall s j r, pv s = Some (j, r) -> P j) ->
  loop_members pv n s = Some (l, r) -> Forall (fun p => valid_utf8 p.1 /\ P p.2.2) l.
Proof.
  intros Hp. revert s l r. induction n as [|n IH]; intros s l r; [done|]. cbn [loop_members].
  destruct s as [|q s1]; [done|]. destruct (negb _); [done|].
  destruct (lex_str s1) as [[body s2]|]; [|done]. destruct (skip_ws s2) as [|c s3]; [done|].
  destruct (negb _); [done|]. destruct (pv (skip_ws s3)) as [[v s5]|] eqn:E; [|done].
  destruct (skip_ws s5) as [|c' s6]; [done|]. destruct (Ascii.eqb c' ","%char).
  - destruct (loop_members pv n (skip_ws s6)) as [[l' r']|] eqn:E'; [|done].
    intros [= <- <-]. constructor; [|by eapply IH]. split; [apply unquote_valid|by eapply Hp].
  - destruct (Ascii.eqb c' "}"%char); [|done]. intros [= <- <-].
    repeat constructor; [apply unquote_valid|by eapply Hp].
Qed.

Fixpoint build (ms acc : list (string * json)) : list (string * json) :=
  match ms with
  | [] => acc
  | (k, v) :: ms => build ms (obj_put k (go_any v) acc)
  end.

Lemma go_any_obj ms : go_any (JObj ms) = JObj (build ms []).
Proof. done. Qed.

Lemma build_sorted ms acc : sorted_keys acc -> sorted_keys (build ms acc).
Proof.
  revert acc. induction ms as [|[k v] ms IH]; intros acc H; [done|]. by apply IH, obj_put_sorted.
Qed.

Lemma build_all (P : string * json -> Prop) ms acc :
  Forall P acc -> Forall (fun p => P (p.1, go_any p.2)) ms -> Forall P (build ms acc).
Proof.
  intros Ha Hm. revert acc Ha. induction Hm as [|[k v] ms Hk Hm IH]; intros acc Ha; [done|].
  apply IH. rewrite list.Forall_forall in Ha |- *. intros p [->|Hp]%obj_put_keys; [done|by apply Ha].
Qed.

Definition well_read (d : nat) (j : json) : Prop := wf_json d (go_any j).

Lemma object_body_wf pv d s ms r :
  (forall s j r, pv s = Some (j, r) -> well_read d j) ->
  object_body pv s = Some (ms, r) -> well_read (S d) (JObj ((fun m => (m.1, m.2.2)) <$> ms)).
Proof.
  intros IH E. unfold well_read. rewrite go_any_obj. constructor.
  { apply build_sorted. constructor. }
  apply build_all; [constructor|]. unfold object_body in E.
  destruct (skip_ws s) as [|c t]; [done|].
  destruct (Ascii.eqb c "}"%char); [injection E as <- <-; constructor|].
  apply (loop_members_all (well_read d)) in E; [|exact IH].
  apply Forall_fmap. eapply list.Forall_impl; [exact E|]. done.
Qed.

Lemma array_body_wf pv d s l r :
  (forall s j r, pv s = Some (j, r) -> well_read d j) ->
  array_body pv s = Some (l, r) -> well_read (S d) (JArr (snd <$> l)).
Proof.
  intros IH E. constructor. unfold array_body in E.
  destruct (skip_ws s) as [|c t]; [done|].
  destruct (Ascii.eqb c "]"%char); [injection E as <- <-; constructor|].
  apply (loop_elements_all (well_read d)) in E; [|exact IH].
  apply Forall_fmap, Forall_fmap. eapply list.Forall_impl; [exact E|]. done.
Qed.

Lemma value_wf d s j r : value d s = Some (j, r) -> well_read d j.
Proof.
  revert s j r. induction d as [|d IH]; intros [|c s] j r; try done; cbn [value];
    (destruct (Ascii.eqb c dquote);
     [destruct (lex_str s) as [[]|]; [|done]; intros [= <- <-]; constructor; apply unquote_valid|]).
  1: destruct (Ascii.eqb c "{"%char); [done|]; destruct (Ascii.eqb c "["%char); [done|].
  2: destruct (Ascii.eqb c "{"%char);
    [destruct (object_body (value d) s) as [[ms r']|] eqn:E; [|done]; intros [= <- <-];
     by eapply object_body_wf|].
  2: destruct (Ascii.eqb c "["%char);
    [destruct (array_body (value d) s) as [[l r']|] eqn:E; [|done]; intros [= <- <-];
     by eapply array_body_wf|].
  all: destruct (Ascii.eqb c "t"%char); [destruct (CutPrefix _ _); [|done]; intros [= <- <-]; constructor|].
  all: destruct (Ascii.eqb c "f"%char); [destruct (CutPrefix _ _); [|done]; intros [= <- <-]; constructor|].
  all: destruct (Ascii.eqb c "n"%char); [destruct (CutPrefix _ _); [|done]; intros [= <- <-]; constructor|].
  all: destruct (lex_number _) as [[lit r']|] eqn:E; [|done]; intros [= <- <-]; constructor;
       by apply lex_number_spec in E as [_ E].
Qed.

Lemma parse_wf s j : parse s = Some j -> wf_json maxNestingDepth (go_any j).
Proof.
  unfold parse. destruct (value maxNestingDepth (skip_ws s)) as [[v r]|] eqn:E; [|done].
  case_bool_decide; [|done]. intros [= <-]. by eapply value_wf.
Qed.

Lemma build_id m : Forall (fun p => go_any p.2 = p.2) m -> forall acc,
  sorted_keys (acc ++ m) -> build m acc = acc ++ m.
Proof.
  induction 1 as [|[k v] m Hv Hm IH]; intros acc Hs; [by rewrite app_nil_r|].
  simpl in *. rewrite Hv. rewrite obj_put_above.
  - rewrite IH by (by rewrite <- app_assoc). by rewrite <- app_assoc.
  - clear -Hs. unfold sorted_keys in Hs. induction acc as [|p acc IH]; [constructor|].
    simpl in Hs. inversion_clear Hs as [|? ? Hs' Hf]. constructor; [|by apply IH].
    rewrite list.Forall_forall in Hf. apply Hf. apply elem_of_app. right. by constructor.
Qed.

Lemma go_any_wf j d : wf_json d j -> go_any j = j.
Proof.
  revert d. induction j as [|b|lit|s|l IH|ms IH] using json_ind'; intros d W; try done.
  - inversion_clear W as [| | | |d' ? H|]. cbn [go_any]. f_equal.
    rewrite list.Forall_forall in IH, H. rewrite <- (map_id l) at 2. apply map_ext_in.
    intros x Hx%list_elem_of_In. by eapply IH, H.
  - inversion_clear W as [| | | | |d' ? Hs H]. rewrite go_any_obj. f_equal.
    rewrite (build_id ms); [done| |done]. rewrite list.Forall_forall in IH, H |- *.
    intros x Hx. destruct (H x Hx). by eapply IH.
Qed.

(** Marshalled text parses back to what was marshalled. *)
Lemma parse_marshal j : wf_json maxNestingDepth j -> parse (marshal j) = Some j.
Proof. intros W. by apply reads_parse, value_marshal. Qed.

Lemma marshal_inj j j' :
  wf_json maxNestingDepth j -> wf_json maxNestingDepth j' -> marshal j = marshal j' -> j = j'.
Proof.
  intros W W' E. apply parse_marshal in W, W'. rewrite E in W. congruence.
Qed.

Lemma deep : (100 <= maxNestingDepth)%nat.
Proof. unfold maxNestingDepth. lia. Qed.

Lemma nesting : exists d, maxNestingDepth = S (S (S d)).
Proof. exists (Z.to_nat 9997). unfold maxNestingDepth. lia. Qed.

(** The raw texts of a text that was put together. *)
Lemma members_object ms :
  Forall (fun m => valid_utf8 m.1 /\ reads_as (pred maxNestingDepth) m.2.1 m.2.2) ms ->
  members (object_text ms) = (fun m => (m.1, m.2.1)) <$> ms.
Proof.
  intros H. unfold members, object_text. cbn [skip_ws is_ws Ascii.eqb Bool.eqb orb].
  by rewrite object_body_read.
Qed.

Lemma elements_array l :
  Forall (fun p => reads_as (pred maxNestingDepth) p.1 p.2) l -> elements (array_text (map fst l)) = fst <$> l.
Proof.
  intros H. unfold elements, array_text. cbn [skip_ws is_ws Ascii.eqb Bool.eqb orb].
  by rewrite array_body_read.
Qed.

Lemma members_text ms :
  text_json maxNestingDepth (JObj ms) ->
  members (marshal (JObj ms)) = (fun p => (p.1, marshal p.2)) <$> ms.
Proof.
  destruct nesting as [d N]. intros W. rewrite marshal_obj, members_object.
  - change (map with_text ms) with (with_text <$> ms). by rewrite <- list_fmap_compose.
  - rewrite N in W |- *. inversion_clear W as [| | | | |d' ? H].
    rewrite list.Forall_forall in H. apply list.Forall_forall. intros p (x & -> & Hx)%list_elem_of_fmap.
    destruct (H x Hx). split; [done|]. by apply value_text.
Qed.

Lemma elements_text l :
  text_json maxNestingDepth (JArr l) -> elements (marshal (JArr l)) = marshal <$> l.
Proof.
  destruct nesting as [d N]. intros W. rewrite marshal_arr, elements_array.
  - change (map (fun j => (marshal j, j)) l) with ((fun j => (marshal j, j)) <$> l).
    by rewrite <- list_fmap_compose.
  - rewrite N in W |- *. inversion_clear W as [| | | |d' ? H|].
    rewrite list.Forall_forall in H. apply list.Forall_forall. intros p (x & -> & Hx)%list_elem_of_fmap.
    by apply value_text, H.
Qed.

#[global] Opaque maxNestingDepth.

(** ** Content parts, as both the estimator and the cache read them *)

Record part := mkPart { PType : string; PText : string }.
Definition zeroPart : part := mkPart "" "".

Definition dec_part : decoder part := dec_struct
  [("type", at_field PType (fun v p => mkPart v (PText p)) dec_string);
   ("text", at_field PText (fun v p => mkPart (PType p) v) dec_string)].

(** The texts of the parts of type [text], one after the other. *)
Fixpoint join_text (l : list part) : string :=
  match l with
  | [] => ""
  | p :: l => if String.eqb (PType p) "text" then PText p +:+ join_text l else join_text l
  end.

(** A text written with single quotes for double ones. *)
Fixpoint quoted (s : string) : string :=
  match s with
  | "" => ""
  | String c t => String (if Ascii.eqb c "'"%char then dquote else c) (quoted t)
  end.
