(* ===== verification/Url.v ===== *)
(** * Path segments of a URL (net/url)

    [PathEscape] as the adapters use it on the name of a model, and
    [PathUnescape], by which a server reads a segment back. *)

From Stdlib Require Import ZArith Lia String Ascii.
From stdpp Require Import base strings list numbers.
From S2P Require Import Prelude GoString Json.

Local Open Scope Z_scope.
Local Open Scope string_scope.

(** [url.PathEscape]: a byte that may not stand in a path segment is written in
    hexadecimal. *)
Definition is_alphanumeric (c : ascii) : bool :=
  let n := nat_of_ascii c in
  ((97 <=? n) && (n <=? 122) || (65 <=? n) && (n <=? 90) || (48 <=? n) && (n <=? 57))%nat.
Definition segment_byte (c : ascii) : bool := is_alphanumeric c || contains_byte "-_.~$&+:=@" c.
Definition upper_hex (n : nat) : ascii :=
  if (n <? 10)%nat then ascii_of_nat (48 + n) else ascii_of_nat (55 + n).

Fixpoint PathEscape (s : string) : string :=
  match s with
  | "" => ""
  | String c s =>
      if segment_byte c then String c (PathEscape s)
      else String "%" (String (upper_hex (nat_of_ascii c / 16))
             (String (upper_hex (nat_of_ascii c mod 16)) (PathEscape s)))
  end.

(** [url.PathUnescape]. *)
Fixpoint PathUnescape (s : string) : option string :=
  match s with
  | "" => Some ""
  | String c t =>
      if Ascii.eqb c "%"%char then
        match t with
        | String h (String l t) =>
            match hex_val h, hex_val l with
            | Some h, Some l => String (ascii_of_nat (Z.to_nat (16 * h + l))) <$> PathUnescape t
            | _, _ => None
            end
        | _ => None
        end
      else String c <$> PathUnescape t
  end.

Lemma escaped_byte c : exists h l,
  hex_val (upper_hex (nat_of_ascii c / 16)) = Some h /\ hex_val (upper_hex (nat_of_ascii c mod 16)) = Some l /\
  ascii_of_nat (Z.to_nat (16 * h + l)) = c.
Proof. destruct c as [[] [] [] [] [] [] [] []]; eexists _, _; repeat split. Qed.

Lemma PathUnescape_escape s : PathUnescape (PathEscape s) = Some s.
Proof.
  induction s as [|c s IH]; [done|]. cbn [PathEscape]. destruct (segment_byte c) eqn:B.
  - cbn [PathUnescape]. destruct (Ascii.eqb_spec c "%"%char) as [->|_]; [done|]. by rewrite IH.
  - cbn [PathUnescape]. rewrite Ascii.eqb_refl.
    destruct (escaped_byte c) as (h & l & -> & -> & E). by rewrite IH, E.
Qed.

(** A byte that ends a path segment, or a path. *)
Lemma escape_keeps_out c s : segment_byte c = false -> c <> "%"%char ->
  (forall n, (n < 16)%nat -> upper_hex n <> c) -> contains_byte (PathEscape s) c = false.
Proof.
  intros B P X. assert (N : forall a, a <> c -> Ascii.eqb a c = false) by (intros a ?; by apply Ascii.eqb_neq).
  induction s as [|a s IH]; [done|]. cbn [PathEscape]. destruct (segment_byte a) eqn:A.
  - cbn [contains_byte]. rewrite IH, N; [done|]. congruence.
  - cbn [contains_byte]. pose proof (nat_ascii_bounded a) as L.
    rewrite IH, !N; [done| | |congruence]; apply X.
    + apply Nat.mod_upper_bound. lia.
    + apply Nat.Div0.div_lt_upper_bound. lia.
Qed.

(** No byte that ends a segment, or a path, is left. *)
Lemma escape_one_segment s :
  contains_byte (PathEscape s) "/" = false /\ contains_byte (PathEscape s) "?" = false /\
  contains_byte (PathEscape s) "#" = false.
Proof.
  split_and!; apply escape_keeps_out; try done; intros n L; do 16 (destruct n as [|n]; [done|]); lia.
Qed.
