(* ===== verification/Sha256.v ===== *)
(** * crypto/sha256 and encoding/hex, as the cache key uses them

    FIPS 180-4 over a [string] of bytes; words are [Z] modulo [2 ^ 32]. *)

From Stdlib Require Import ZArith Lia String Ascii.
From stdpp Require Import base list strings numbers.
From S2P Require Import Prelude.

Local Open Scope Z_scope.

Definition w32 (z : Z) : Z := z mod 2 ^ 32.
Definition rotr (x n : Z) : Z := Z.lor (Z.shiftr x n) (w32 (Z.shiftl x (32 - n))).
Definition not32 (x : Z) : Z := 2 ^ 32 - 1 - x.

Definition big_sigma0 (x : Z) : Z := Z.lxor (rotr x 2) (Z.lxor (rotr x 13) (rotr x 22)).
Definition big_sigma1 (x : Z) : Z := Z.lxor (rotr x 6) (Z.lxor (rotr x 11) (rotr x 25)).
Definition small_sigma0 (x : Z) : Z := Z.lxor (rotr x 7) (Z.lxor (rotr x 18) (Z.shiftr x 3)).
Definition small_sigma1 (x : Z) : Z := Z.lxor (rotr x 17) (Z.lxor (rotr x 19) (Z.shiftr x 10)).
Definition choose (x y z : Z) : Z := Z.lxor (Z.land x y) (Z.land (not32 x) z).
Definition majority (x y z : Z) : Z := Z.lxor (Z.land x y) (Z.lxor (Z.land x z) (Z.land y z)).

(** The standard derives its constants from the first primes: the first 32 bits
    of the fractional parts of their cube roots and of their square roots. *)
Definition is_prime (n : Z) : bool :=
  forallb (fun d => negb (n mod Z.of_nat d =? 0)) (seq 2 (Z.to_nat (Z.sqrt n) - 1)).
Definition primes (below : nat) : list Z := filter is_prime (Z.of_nat <$> seq 2 (below - 2)).

(** The integer cube root, bit by bit. *)
Definition cbrt (n : Z) : Z :=
  fold_left (fun r i => let r' := r + 2 ^ Z.of_nat i in if r' * r' * r' <=? n then r' else r)
    (rev (seq 0 36)) 0.

Definition round_constants : list Z :=
  Eval vm_compute in (fun p => w32 (cbrt (p * 2 ^ 96))) <$> primes 312.

Record digest := mkDigest { hA : Z; hB : Z; hC : Z; hD : Z; hE : Z; hF : Z; hG : Z; hH : Z }.

Definition initial : digest :=
  Eval vm_compute in
  match (fun p => w32 (Z.sqrt (p * 2 ^ 64))) <$> primes 20 with
  | [a; b; c; d; e; f; g; h] => mkDigest a b c d e f g h
  | _ => mkDigest 0 0 0 0 0 0 0 0
  end.

(** The message schedule, newest word first. *)
Fixpoint extend_schedule (n : nat) (w : list Z) : list Z :=
  match n with
  | O => w
  | S n =>
      let at_ i := nth i w 0 in
      extend_schedule n
        (w32 (small_sigma1 (at_ 1%nat) + at_ 6%nat + small_sigma0 (at_ 14%nat) + at_ 15%nat) :: w)
  end.

Definition one_round (s : digest) (kw : Z * Z) : digest :=
  let t1 := w32 (hH s + big_sigma1 (hE s) + choose (hE s) (hF s) (hG s) + kw.1 + kw.2) in
  let t2 := w32 (big_sigma0 (hA s) + majority (hA s) (hB s) (hC s)) in
  mkDigest (w32 (t1 + t2)) (hA s) (hB s) (hC s) (w32 (hD s + t1)) (hE s) (hF s) (hG s).

Definition compress (h : digest) (block : list Z) : digest :=
  let schedule := rev (extend_schedule 48 (rev block)) in
  let s := fold_left one_round (combine round_constants schedule) h in
  mkDigest (w32 (hA h + hA s)) (w32 (hB h + hB s)) (w32 (hC h + hC s)) (w32 (hD h + hD s))
           (w32 (hE h + hE s)) (w32 (hF h + hF s)) (w32 (hG h + hG s)) (w32 (hH h + hH s)).

Fixpoint words (l : list Z) : list Z :=
  match l with
  | a :: b :: c :: d :: l => (16777216 * a + 65536 * b + 256 * c + d) :: words l
  | _ => []
  end.

Fixpoint blocks (fuel : nat) (l : list Z) : list (list Z) :=
  match fuel, l with
  | S fuel, _ :: _ => take 16 l :: blocks fuel (drop 16 l)
  | _, _ => []
  end.

(** [n] in [k] big-endian bytes. *)
Fixpoint be_bytes (k : nat) (n : Z) (acc : list Z) : list Z :=
  match k with
  | O => acc
  | S k => be_bytes k (n / 256) ((n mod 256) :: acc)
  end.

Definition pad (m : list Z) : list Z :=
  let n := Z.of_nat (length m) in
  m ++ [128] ++ replicate (Z.to_nat ((55 - n) mod 64)) 0 ++ be_bytes 8 (8 * n) [].

Definition string_bytes (s : string) : list Z :=
  (fun c => Z.of_nat (nat_of_ascii c)) <$> list_ascii_of_string s.

(** [sha256.Sum256]: the 32 bytes of the digest. *)
Definition Sum256 (s : string) : list Z :=
  let ws := words (pad (string_bytes s)) in
  let h := fold_left compress (blocks (length ws) ws) initial in
  concat ((fun w => be_bytes 4 w []) <$>
    [hA h; hB h; hC h; hD h; hE h; hF h; hG h; hH h]).

Definition hex_char (n : Z) : ascii :=
  ascii_of_nat (Z.to_nat (if n <? 10 then 48 + n else 87 + n)).

(** [hex.EncodeToString]. *)
Fixpoint EncodeToString (l : list Z) : string :=
  match l with
  | [] => ""
  | b :: l => String (hex_char (b / 16)) (String (hex_char (b mod 16)) (EncodeToString l))
  end.

(** The two published one- and two-block vectors. *)
Example sum256_abc :
  EncodeToString (Sum256 "abc")
  = "ba7816bf8f01cfea414140de5dae2223b00361a396177a9cb410ff61f20015ad"%string.
Proof. vm_compute. reflexivity. Qed.

Example sum256_two_blocks :
  EncodeToString (Sum256 "abcdbcdecdefdefgefghfghighijhijkijkljklmklmnlmnomnopnopq")
  = "248d6a61d20638b8e5c026930c3e6039a33ce45964ff2167f6ecedd419db06c1"%string.
Proof. vm_compute. reflexivity. Qed.
