(* ===== verification/Providers.v ===== *)
(** * The provider boundary

    The vocabulary every other component shares (internal/providers/types.go,
    internal/providers/errors.go, internal/providers/httpclient.go): token
    usage, stream chunks, the failure classes, Go error values with the
    [errors.Is]/[errors.As] walks over their unwrap chains, and the mapping of
    an upstream HTTP status to a class. *)

From Stdlib Require Import ZArith String.
From stdpp Require Import base strings numbers.
From S2P Require Import Prelude.

Local Open Scope Z_scope.

(** ** Failure classes *)

(** [type ErrorClass string]: the declared constants, and any other string
    ([Attempt.Class] is [""] for a success). *)
Inductive ErrorClass :=
| ErrClassAuth
| ErrClassPaymentRequired
| ErrClassRateLimited
| ErrClassInvalidRequest
| ErrClassModelNotFound
| ErrClassUpstream
| ErrClassTimeout
| ErrClassCanceled
| ErrClassInternal
| ErrClassOther (s : string).

#[export] Instance ErrorClass_eq_dec : EqDecision ErrorClass.
Proof. solve_decision. Defined.

(** ** Usage and stream chunks *)

Record Usage := mkUsage {
  PromptTokens : Z;
  CompletionTokens : Z;
  TotalTokens : Z
}.

#[export] Instance Usage_eq_dec : EqDecision Usage.
Proof. solve_decision. Defined.

Definition zeroUsage : Usage := mkUsage 0 0 0.

Record StreamChunk := mkChunk {
  Data : string;
  ChunkUsage : option Usage;
  Keepalive : bool
}.

Definition zeroChunk : StreamChunk := mkChunk "" None false.

(** ** Requests and answers *)

Record ChatRequest := mkRequest { ReqModel : string; ReqStream : bool; ReqRaw : string }.
Record ChatResponse := mkChatResponse {
  RespModel : string; RespProvider : string; RespBody : string; RespUsage : Usage
}.

(** ** Go error values *)

(** The sentinel errors the program compares against. *)
Inductive sentinel :=
| CtxCanceled          (* context.Canceled *)
| CtxDeadlineExceeded  (* context.DeadlineExceeded *)
| IoEOF                (* io.EOF *)
| StreamTruncated      (* providers.ErrStreamTruncated *)
| SSEEventTooLarge.    (* providers.ErrSSEEventTooLarge *)

#[export] Instance sentinel_eq_dec : EqDecision sentinel.
Proof. solve_decision. Defined.

(** A sentinel, a [*ProviderError] with its wrapped cause, an error wrapped
    with [fmt.Errorf("...%w")], or an error about which nothing is known. *)
Inductive goerror :=
| ErrSentinel (s : sentinel)
| ErrProvider (provider : string) (class : ErrorClass) (status : Z)
    (message : string) (cause : option goerror)
| ErrWrap (message : string) (cause : goerror)
| ErrOpaque (message : string).

(** [errors.Is(e, target)] for a sentinel target. *)
Fixpoint errors_Is (e : goerror) (target : sentinel) : bool :=
  match e with
  | ErrSentinel s => bool_decide (s = target)
  | ErrProvider _ _ _ _ (Some c) => errors_Is c target
  | ErrProvider _ _ _ _ None => false
  | ErrWrap _ c => errors_Is c target
  | ErrOpaque _ => false
  end.

(** [errors.As(e, &pe)] with [pe *ProviderError]: the class of the first
    provider error in the chain. *)
Fixpoint errors_As_class (e : goerror) : option ErrorClass :=
  match e with
  | ErrProvider _ c _ _ _ => Some c
  | ErrWrap _ c => errors_As_class c
  | _ => None
  end.

(** What an open stream says of itself, empty where it does not say. *)
Record streamInfo := mkStreamInfo { AnsweringProvider : string; AnsweringModel : string }.

(** The contract of every backend adapter and every wrapper of one: [None] is a
    panic, and an open stream of readers [R] comes with what it says of itself. *)
Record Provider (R : Type) := mkProviderImpl {
  provName : string;
  provChat : ChatRequest -> option (ChatResponse + goerror);
  provStream : ChatRequest -> option ((R * streamInfo) + goerror)
}.
Arguments mkProviderImpl {R}. Arguments provName {R}. Arguments provChat {R}. Arguments provStream {R}.

(** The error of a context that is done. *)
Inductive ctxError := Canceled | DeadlineExceeded.

#[export] Instance ctxError_eq_dec : EqDecision ctxError.
Proof. solve_decision. Defined.

Definition ctx_sentinel (c : ctxError) : sentinel :=
  match c with Canceled => CtxCanceled | DeadlineExceeded => CtxDeadlineExceeded end.

(** ** HTTP status to class *)

Definition Is2xx (code : Z) : bool := (200 <=? code) && (code <? 300).

Definition ClassFromStatus (code : Z) : ErrorClass :=
  if (code =? 401) || (code =? 403) then ErrClassAuth
  else if code =? 402 then ErrClassPaymentRequired
  else if code =? 429 then ErrClassRateLimited
  else if code =? 404 then ErrClassModelNotFound
  else if (code =? 400) || (code =? 422) then ErrClassInvalidRequest
  else if 500 <=? code then ErrClassUpstream
  else ErrClassInternal.

(** ** Facts *)

(** A provider error anywhere in a chain of plain wraps decides the class. *)
Lemma errors_As_class_wrap m e : errors_As_class (ErrWrap m e) = errors_As_class e.
Proof. reflexivity. Qed.
