(* ===== verification/Health.v ===== *)
(** * Provider health: the circuit breaker (internal/router/health.go)

    [tracker] keeps one [providerHealth] per provider behind one mutex; every
    method is a critical section, so a method is a function from state to
    state and a concurrent history is a sequence of calls in lock order.
    [Options] and the failure policy are those of types.go and policy.go.

    The theorems: the well-formedness of every reachable state, the breaker as
    a state machine (which transitions exist, and under which guard), when a
    breaker opens, that a half-open breaker admits one probe per stall window,
    and that failures of the request rather than of the provider change
    nothing. *)

From Stdlib Require Import ZArith Lia String.
From stdpp Require Import base gmap strings list numbers.
From S2P Require Import Prelude Float64 Providers.

Local Open Scope Z_scope.

(** ** Options (internal/router/types.go) *)

Inductive Strategy :=
| StrategyPriority
| StrategyLeastLatency
| StrategyRoundRobin
| StrategyUnset
| StrategyOther (s : string).

#[export] Instance Strategy_eq_dec : EqDecision Strategy.
Proof. solve_decision. Defined.

Record Options := mkOptions {
  optStrategy : Strategy;
  MaxAttempts : Z;
  RetryBaseDelay : Duration;
  MaxRetryDelay : Duration;
  BreakerThreshold : Z;
  BreakerCooldown : Duration
}.

Definition DefaultMaxAttempts : Z := 3.
Definition DefaultRetryBaseDelay : Duration := 100 * Millisecond.
Definition DefaultMaxRetryDelay : Duration := 2 * Second.
Definition DefaultBreakerThreshold : Z := 5.
Definition DefaultBreakerCooldown : Duration := 30 * Second.

Definition withDefaults (o : Options) : Options :=
  {| optStrategy := match optStrategy o with StrategyUnset => StrategyPriority | s => s end;
     MaxAttempts := if MaxAttempts o <=? 0 then DefaultMaxAttempts else MaxAttempts o;
     RetryBaseDelay := if RetryBaseDelay o <=? 0 then DefaultRetryBaseDelay else RetryBaseDelay o;
     MaxRetryDelay := if MaxRetryDelay o <=? 0 then DefaultMaxRetryDelay else MaxRetryDelay o;
     BreakerThreshold :=
       if BreakerThreshold o <=? 0 then DefaultBreakerThreshold else BreakerThreshold o;
     BreakerCooldown :=
       if BreakerCooldown o <=? 0 then DefaultBreakerCooldown else BreakerCooldown o |}.

(** ** Failure policy (internal/router/policy.go) *)

Inductive disposition := dispositionFail | dispositionRetry | dispositionFailover.

Definition classDisposition (c : ErrorClass) : disposition :=
  match c with
  | ErrClassInvalidRequest | ErrClassCanceled => dispositionFail
  | ErrClassUpstream | ErrClassTimeout => dispositionRetry
  | ErrClassRateLimited | ErrClassAuth | ErrClassPaymentRequired | ErrClassModelNotFound =>
      dispositionFailover
  | _ => dispositionFailover
  end.

Definition countsAgainstHealth (c : ErrorClass) : bool :=
  match c with
  | ErrClassInvalidRequest | ErrClassCanceled | ErrClassModelNotFound => false
  | _ => true
  end.

(** ** State *)

Inductive breakerState := breakerClosed | breakerOpen | breakerHalfOpen.

#[export] Instance breakerState_eq_dec : EqDecision breakerState.
Proof. solve_decision. Defined.

Definition defaultRateLimitCooldown : Duration := 30 * Second.
Definition paymentRequiredCooldown : Duration := 15 * Minute.
Definition probeStallTimeout : Duration := 2 * Minute.
Definition latencyAlpha : f64 := f64_ratio 1 5.
Definition minLatencySamples : Z := 5.

Record providerHealth := mkHealth {
  breaker : breakerState;
  consecutiveFailures : Z;
  openedAt : Time;
  probeInFlight : bool;
  probeStarted : Time;
  cooldownUntil : Time;
  ewma : Duration;
  samples : Z
}.

(** The zero value a first report creates. *)
Definition zeroHealth : providerHealth :=
  mkHealth breakerClosed 0 zeroTime false zeroTime zeroTime 0 0.

Record tracker := mkTracker {
  opts : Options;
  state : gmap string providerHealth
}.

(** [NewHealth]; the clock is an argument of the calls that read it. *)
Definition NewHealth (o : Options) : tracker := mkTracker (withDefaults o) ∅.

Definition set_state (t : tracker) (p : string) (s : providerHealth) : tracker :=
  mkTracker (opts t) (<[p := s]> (state t)).

(** ** Helpers *)

(** [at]: a zero timestamp is replaced by the clock's reading [clk]. *)
Definition at_ (clk now : Time) : Time := if time_IsZero now then clk else now.

(** [get]: the provider's state, created on first report. *)
Definition get (t : tracker) (p : string) : providerHealth := default zeroHealth (state t !! p).

(** [admitProbe] hands the half-open slot to one caller. *)
Definition admitProbe (s : providerHealth) (now : Time) : bool * providerHealth :=
  if probeInFlight s && (time_Sub now (probeStarted s) <? probeStallTimeout)
  then (false, s)
  else (true, mkHealth (breaker s) (consecutiveFailures s) (openedAt s) true now
                (cooldownUntil s) (ewma s) (samples s)).

(** [observeLatency] folds one timing into the moving average. *)
Definition observeLatency (s : providerHealth) (ttft : Duration) : providerHealth :=
  let n := samples s +i 1 in
  let e :=
    if n =? 1 then ttft
    else f64_to_int64
           (f64_add (f64_mul latencyAlpha (f64_of_Z ttft))
                    (f64_mul (f64_sub (f64_of_Z 1) latencyAlpha) (f64_of_Z (ewma s)))) in
  mkHealth (breaker s) (consecutiveFailures s) (openedAt s) (probeInFlight s)
    (probeStarted s) (cooldownUntil s) e n.

(** [cooldownFor] is how long a failure class parks a provider. *)
Definition cooldownFor (class : ErrorClass) (retryAfter : Duration) : Duration :=
  match class with
  | ErrClassRateLimited => if 0 <? retryAfter then retryAfter else defaultRateLimitCooldown
  | ErrClassPaymentRequired =>
      if paymentRequiredCooldown <? retryAfter then retryAfter else paymentRequiredCooldown
  | _ => 0
  end.

(** ** Operations *)

(** [Available] answers whether the provider may be tried, and may claim the
    half-open probe for the caller. *)
Definition Available (t : tracker) (clk : Time) (p : string) (now : Time) : bool * tracker :=
  let now := at_ clk now in
  match state t !! p with
  | None => (true, t)
  | Some s =>
      if time_Before now (cooldownUntil s) then (false, t)
      else
        match breaker s with
        | breakerOpen =>
            if time_Sub now (openedAt s) <? BreakerCooldown (opts t) then (false, t)
            else
              let s := mkHealth breakerHalfOpen (consecutiveFailures s) (openedAt s)
                         (probeInFlight s) (probeStarted s) (cooldownUntil s) (ewma s)
                         (samples s) in
              let (ok, s) := admitProbe s now in (ok, set_state t p s)
        | breakerHalfOpen =>
            let (ok, s) := admitProbe s now in (ok, set_state t p s)
        | breakerClosed => (true, t)
        end
  end.

(** [RecordSuccess] closes the breaker and folds the timing in. *)
Definition RecordSuccess (t : tracker) (p : string) (ttft : Duration) : tracker :=
  let s := get t p in
  let s := mkHealth breakerClosed 0 (openedAt s) false (probeStarted s) (cooldownUntil s)
             (ewma s) (samples s) in
  set_state t p (if 0 <? ttft then observeLatency s ttft else s).

(** The pause part of [RecordFailure]: never shorten a pause already running. *)
Definition applyCooldown (s : providerHealth) (class : ErrorClass) (retryAfter : Duration)
    (now : Time) : providerHealth :=
  let pause := cooldownFor class retryAfter in
  if 0 <? pause then
    let until := time_Add now pause in
    if time_After until (cooldownUntil s)
    then mkHealth (breaker s) (consecutiveFailures s) (openedAt s) (probeInFlight s)
           (probeStarted s) until (ewma s) (samples s)
    else s
  else s.

(** The breaker part of [RecordFailure]. *)
Definition countFailure (threshold : Z) (s : providerHealth) (now : Time) : providerHealth :=
  let n := consecutiveFailures s +i 1 in
  match breaker s with
  | breakerHalfOpen =>
      mkHealth breakerOpen n now false (probeStarted s) (cooldownUntil s) (ewma s) (samples s)
  | breakerOpen =>
      mkHealth breakerOpen n (openedAt s) (probeInFlight s) (probeStarted s)
        (cooldownUntil s) (ewma s) (samples s)
  | breakerClosed =>
      if threshold <=? n
      then mkHealth breakerOpen n now (probeInFlight s) (probeStarted s) (cooldownUntil s)
             (ewma s) (samples s)
      else mkHealth breakerClosed n (openedAt s) (probeInFlight s) (probeStarted s)
             (cooldownUntil s) (ewma s) (samples s)
  end.

Definition RecordFailure (t : tracker) (clk : Time) (p : string) (class : ErrorClass)
    (retryAfter : Duration) (now : Time) : tracker :=
  let now := at_ clk now in
  let s := applyCooldown (get t p) class retryAfter now in
  set_state t p
    (if countsAgainstHealth class
     then countFailure (BreakerThreshold (opts t)) s now else s).

(** [Latency]: the average, and whether enough samples exist to trust it. *)
Definition Latency (t : tracker) (p : string) : Duration * bool :=
  match state t !! p with
  | None => (0, false)
  | Some s => if samples s <? minLatencySamples then (0, false) else (ewma s, true)
  end.

(** ** Histories *)

(** One critical section of a concurrent history, in lock order.  [clk] is
    what the tracker's clock would answer during the call. *)
Inductive health_op :=
| OpAvailable (p : string) (clk now : Time)
| OpSuccess (p : string) (ttft : Duration)
| OpFailure (p : string) (class : ErrorClass) (retryAfter : Duration) (clk now : Time).

Definition step_op (t : tracker) (o : health_op) : tracker :=
  match o with
  | OpAvailable p clk now => (Available t clk p now).2
  | OpSuccess p ttft => RecordSuccess t p ttft
  | OpFailure p class ra clk now => RecordFailure t clk p class ra now
  end.

Definition run_ops (t : tracker) (ops : list health_op) : tracker := foldl step_op t ops.

Definition op_provider (o : health_op) : string :=
  match o with OpAvailable p _ _ => p | OpSuccess p _ => p | OpFailure p _ _ _ _ => p end.

(** ** Well-formedness *)

Record wf_health (threshold : Z) (s : providerHealth) : Prop := {
  wf_probe : probeInFlight s = true -> breaker s = breakerHalfOpen;
  wf_closed : breaker s = breakerClosed -> 0 <= consecutiveFailures s < threshold
}.

Record wf_tracker (t : tracker) : Prop := {
  wf_threshold : 0 < BreakerThreshold (opts t) <= max_int64;
  wf_cooldown : 0 < BreakerCooldown (opts t) <= max_int64;
  wf_state : forall p s, state t !! p = Some s -> wf_health (BreakerThreshold (opts t)) s
}.

(** The options an operator may write: every field is a Go [int] or
    [time.Duration]. *)
Definition options_int64 (o : Options) : Prop :=
  is_int64 (BreakerThreshold o) /\ is_int64 (BreakerCooldown o).

(** The transitions of one breaker, with their guards. *)
Inductive transition (o : Options) : health_op -> providerHealth -> providerHealth -> Prop :=
| T_trip p class ra clk now s s' :
    breaker s = breakerClosed -> breaker s' = breakerOpen ->
    countsAgainstHealth class = true ->
    BreakerThreshold o <= consecutiveFailures s + 1 ->
    openedAt s' = at_ clk now ->
    transition o (OpFailure p class ra clk now) s s'
| T_probe p clk now s s' :
    breaker s = breakerOpen -> breaker s' = breakerHalfOpen ->
    BreakerCooldown o <= at_ clk now - openedAt s ->
    cooldownUntil s <= at_ clk now ->
    probeInFlight s' = true -> probeStarted s' = at_ clk now ->
    transition o (OpAvailable p clk now) s s'
| T_reopen p class ra clk now s s' :
    breaker s = breakerHalfOpen -> breaker s' = breakerOpen ->
    countsAgainstHealth class = true ->
    openedAt s' = at_ clk now -> probeInFlight s' = false ->
    transition o (OpFailure p class ra clk now) s s'
| T_close p ttft s s' :
    breaker s' = breakerClosed -> consecutiveFailures s' = 0 -> probeInFlight s' = false ->
    transition o (OpSuccess p ttft) s s'.

(** ** Lemmas *)

Lemma get_set_state t p q s :
  get (set_state t p s) q = if decide (p = q) then s else get t q.
Proof. unfold get, set_state; simpl. rewrite lookup_insert. by case_decide. Qed.

Lemma opts_set_state t p s : opts (set_state t p s) = opts t.
Proof. reflexivity. Qed.

Lemma observeLatency_keeps s d :
  breaker (observeLatency s d) = breaker s /\
  consecutiveFailures (observeLatency s d) = consecutiveFailures s /\
  openedAt (observeLatency s d) = openedAt s /\
  probeInFlight (observeLatency s d) = probeInFlight s /\
  cooldownUntil (observeLatency s d) = cooldownUntil s.
Proof. done. Qed.

Lemma applyCooldown_keeps s c ra now :
  breaker (applyCooldown s c ra now) = breaker s /\
  consecutiveFailures (applyCooldown s c ra now) = consecutiveFailures s /\
  openedAt (applyCooldown s c ra now) = openedAt s /\
  probeInFlight (applyCooldown s c ra now) = probeInFlight s /\
  probeStarted (applyCooldown s c ra now) = probeStarted s.
Proof. unfold applyCooldown. repeat case_match; done. Qed.

Lemma applyCooldown_until s c ra now :
  cooldownUntil (applyCooldown s c ra now)
  = if 0 <? cooldownFor c ra then Z.max (cooldownUntil s) (now + cooldownFor c ra)
    else cooldownUntil s.
Proof.
  unfold applyCooldown, time_After, time_Add.
  repeat case_match; bool_to_prop; simpl; lia.
Qed.

Lemma countFailure_until thr s now : cooldownUntil (countFailure thr s now) = cooldownUntil s.
Proof. unfold countFailure. repeat case_match; done. Qed.

(** Every operation leaves the options alone. *)
Lemma step_op_opts t o : opts (step_op t o) = opts t.
Proof.
  destruct o as [p clk now|p d|p c ra clk now]; simpl; try reflexivity.
  unfold Available, admitProbe. repeat case_match; simplify_eq/=; done.
Qed.

(** An operation on one provider is invisible to every other one. *)
Lemma step_op_other t o q :
  op_provider o <> q -> state (step_op t o) !! q = state t !! q.
Proof.
  intros Hne. destruct o as [p clk now|p d|p c ra clk now]; simpl in *.
  - unfold Available, admitProbe. repeat case_match; simplify_eq/=; try done;
      by rewrite lookup_insert_ne.
  - by rewrite lookup_insert_ne.
  - by rewrite lookup_insert_ne.
Qed.

Lemma zeroHealth_wf thr : 0 < thr -> wf_health thr zeroHealth.
Proof. intros; split; simpl; [done|lia]. Qed.

Lemma get_wf t p : wf_tracker t -> wf_health (BreakerThreshold (opts t)) (get t p).
Proof.
  intros [? ? W]. unfold get. destruct (state t !! p) eqn:E; simpl; [by eapply W|].
  apply zeroHealth_wf; lia.
Qed.

(** No probe is in flight outside the half-open state. *)
Lemma wf_idle thr s : wf_health thr s -> breaker s <> breakerHalfOpen -> probeInFlight s = false.
Proof. intros [W _] B. destruct (probeInFlight s); [|done]. by destruct B; apply W. Qed.

Lemma admitProbe_wf thr s now ok s' :
  breaker s = breakerHalfOpen -> admitProbe s now = (ok, s') -> wf_health thr s'.
Proof.
  unfold admitProbe. intros Hb H. case_match; simplify_eq; split; simpl; congruence.
Qed.

Lemma countFailure_wf thr s now :
  0 < thr <= max_int64 -> wf_health thr s -> wf_health thr (countFailure thr s now).
Proof.
  intros Ht [W1 W2]. unfold countFailure. destruct (breaker s) eqn:B.
  - specialize (W2 eq_refl). case_match; bool_to_prop; split; simpl; try congruence.
    + intros P. apply W1 in P. congruence.
    + intros P. apply W1 in P. congruence.
    + intros _. rewrite wrap64_id in *; unfold is_int64, min_int64, max_int64 in *; lia.
  - split; simpl; [|done]. intros P. apply W1 in P. congruence.
  - split; simpl; done.
Qed.

Lemma applyCooldown_wf thr s c ra now :
  wf_health thr s -> wf_health thr (applyCooldown s c ra now).
Proof.
  intros [W1 W2]. destruct (applyCooldown_keeps s c ra now) as (E1 & E2 & E3 & E4 & E5).
  split; rewrite ?E1, ?E2, ?E4; done.
Qed.

Lemma set_state_wf t p s :
  wf_tracker t -> wf_health (BreakerThreshold (opts t)) s -> wf_tracker (set_state t p s).
Proof.
  intros [W1 W2 W3] W. split; simpl; [done|done|].
  intros q s'. rewrite lookup_insert. case_decide; [by intros [= <-] | apply W3].
Qed.

Lemma Available_wf t clk p now : wf_tracker t -> wf_tracker (Available t clk p now).2.
Proof.
  intros W. unfold Available.
  destruct (state t !! p) eqn:E; [|done]. case_match; [done|].
  destruct (breaker p0) eqn:B; [done| |].
  - case_match; [done|]. destruct (admitProbe _ _) as [ok s'] eqn:A. simpl.
    apply set_state_wf; [done|]. by eapply admitProbe_wf in A.
  - destruct (admitProbe _ _) as [ok s'] eqn:A. simpl.
    apply set_state_wf; [done|]. by eapply admitProbe_wf in A.
Qed.

Lemma step_op_wf t o : wf_tracker t -> wf_tracker (step_op t o).
Proof.
  intros W. destruct o as [p clk now|p d|p c ra clk now]; simpl.
  - by apply Available_wf.
  - apply set_state_wf; [done|].
    assert (0 < BreakerThreshold (opts t)) by (destruct W; lia).
    case_match; split; simpl; try congruence; lia.
  - apply set_state_wf; [done|].
    assert (W' := applyCooldown_wf _ _ c ra (at_ clk now) (get_wf t p W)).
    case_match; [|done]. apply countFailure_wf; [apply W|done].
Qed.

Lemma NewHealth_wf o : options_int64 o -> wf_tracker (NewHealth o).
Proof.
  unfold options_int64, is_int64. intros [H1 H2].
  split; simpl; [| |by intros ? ?; rewrite lookup_empty];
    case_match; bool_to_prop; unfold DefaultBreakerThreshold, DefaultBreakerCooldown, Second,
      min_int64, max_int64 in *; lia.
Qed.

Lemma run_ops_wf t ops : wf_tracker t -> wf_tracker (run_ops t ops).
Proof.
  revert t; induction ops as [|o ops IH]; intros t W; simpl; [done|].
  by apply IH, step_op_wf.
Qed.

Lemma run_ops_opts t ops : opts (run_ops t ops) = opts t.
Proof.
  revert t; induction ops as [|o ops IH]; intros t; simpl; [done|].
  by rewrite IH, step_op_opts.
Qed.

(** The transition a step of the tracker makes on one provider. *)
Lemma Available_transition t clk p now :
  wf_tracker t ->
  breaker (get t p) <> breaker (get (Available t clk p now).2 p) ->
  transition (opts t) (OpAvailable p clk now) (get t p) (get (Available t clk p now).2 p).
Proof.
  intros W. pose proof (get_wf t p W) as Wp. destruct W as [_ Wc _].
  unfold Available, get in *. destruct (state t !! p) as [s|] eqn:E; simpl in *.
  2: { rewrite E. done. }
  unfold admitProbe, time_Before. destruct (_ <? _) eqn:C; simpl; [by rewrite E|].
  destruct (breaker s) eqn:B; simpl; [by rewrite E; simpl; rewrite B| |].
  - assert (P : probeInFlight s = false) by (eapply wf_idle; [exact Wp|congruence]).
    rewrite P; simpl.
    destruct (_ <? BreakerCooldown _) eqn:D; simpl; [by rewrite E; simpl; rewrite B|].
    rewrite lookup_insert_eq; simpl. intros _.
    rewrite time_Sub_ltb in D by (unfold min_int64; lia). bool_to_prop.
    by apply T_probe.
  - destruct (_ && _); simpl; rewrite lookup_insert_eq; simpl; rewrite ?B; by intros [].
Qed.

Lemma RecordFailure_transition t clk p c ra now :
  wf_tracker t ->
  breaker (get t p) <> breaker (get (RecordFailure t clk p c ra now) p) ->
  transition (opts t) (OpFailure p c ra clk now) (get t p)
    (get (RecordFailure t clk p c ra now) p).
Proof.
  intros W. pose proof (get_wf t p W) as [_ Wc]. destruct W as [Wt _ _].
  unfold RecordFailure. rewrite get_set_state, decide_True by done.
  destruct (applyCooldown_keeps (get t p) c ra (at_ clk now)) as (E1 & E2 & _).
  destruct (countsAgainstHealth c) eqn:C; [|by rewrite E1].
  unfold countFailure. rewrite E1, E2. destruct (breaker (get t p)) eqn:B; simpl.
  - specialize (Wc eq_refl). rewrite wrap64_id by (unfold is_int64, min_int64; lia).
    case_match; bool_to_prop; simpl; [|congruence]. intros _. by apply T_trip.
  - congruence.
  - intros _. by apply T_reopen.
Qed.

Lemma Available_get_other t clk p now q :
  p <> q -> get (Available t clk p now).2 q = get t q.
Proof. intros H. unfold get. by rewrite (step_op_other t (OpAvailable p clk now)). Qed.

(** The pause of a provider only ever moves later. *)
Lemma step_op_cooldown_mono t o p :
  cooldownUntil (get t p) <= cooldownUntil (get (step_op t o) p).
Proof.
  destruct o as [q clk now|q d|q c ra clk now]; simpl.
  - unfold Available, admitProbe, get. destruct (state t !! q) eqn:E; simpl; [|lia].
    all: repeat case_match; simplify_eq/=; try lia; rewrite ?lookup_insert; case_decide; subst;
      rewrite ?E; simpl; try lia.
  - unfold RecordSuccess. rewrite get_set_state. case_decide; [subst|lia].
    case_match; simpl; lia.
  - unfold RecordFailure. rewrite get_set_state. case_decide; [subst|lia].
    assert (H : cooldownUntil (get t p) <=
      cooldownUntil (applyCooldown (get t p) c ra (at_ clk now))).
    { rewrite applyCooldown_until. case_match; lia. }
    case_match; [rewrite countFailure_until|]; lia.
Qed.

Lemma run_ops_cooldown_mono t ops p :
  cooldownUntil (get t p) <= cooldownUntil (get (run_ops t ops) p).
Proof.
  revert t; induction ops as [|o ops IH]; intros t; simpl; [lia|].
  specialize (IH (step_op t o)). pose proof (step_op_cooldown_mono t o p). lia.
Qed.

(** A provider whose pause has not run out is not available. *)
Lemma Available_in_cooldown t clk p now :
  0 < cooldownUntil (get t p) -> at_ clk now < cooldownUntil (get t p) ->
  (Available t clk p now).1 = false.
Proof.
  unfold Available, get. destruct (state t !! p) eqn:E; simpl; [|unfold zeroTime; lia].
  intros _ H. unfold time_Before. by rewrite (proj2 (Z.ltb_lt _ _) H).
Qed.

(** While a probe is in flight and nothing reports on the provider, its state
    does not move, whatever else happens. *)
Definition quiet (p : string) (start : Time) (o : health_op) : Prop :=
  match o with
  | OpAvailable q clk now => q = p -> at_ clk now - start < probeStallTimeout
  | OpSuccess q _ => q <> p
  | OpFailure q _ _ _ _ => q <> p
  end.

Lemma probe_busy t clk p now s :
  state t !! p = Some s -> breaker s = breakerHalfOpen -> probeInFlight s = true ->
  at_ clk now - probeStarted s < probeStallTimeout ->
  (Available t clk p now).1 = false /\ state (Available t clk p now).2 !! p = Some s.
Proof.
  intros E B P H. unfold Available. rewrite E, B. case_match; [done|].
  unfold admitProbe. rewrite P; simpl.
  rewrite time_Sub_ltb by (unfold probeStallTimeout, Minute, Second, min_int64, max_int64; lia).
  rewrite (proj2 (Z.ltb_lt _ _) H). simpl. by rewrite lookup_insert_eq.
Qed.

Lemma run_quiet t ops p s :
  state t !! p = Some s -> breaker s = breakerHalfOpen -> probeInFlight s = true ->
  Forall (quiet p (probeStarted s)) ops -> state (run_ops t ops) !! p = Some s.
Proof.
  intros E B P F. revert t E. induction F as [|o ops Q F IH]; intros t E; simpl; [done|].
  apply IH. destruct (decide (op_provider o = p)) as [<-|Hne].
  - destruct o; simpl in *; try done. by apply probe_busy; auto.
  - by rewrite step_op_other.
Qed.

Lemma Available_half_open t clk p now t' :
  Available t clk p now = (true, t') -> breaker (get t' p) = breakerHalfOpen ->
  exists s, state t' !! p = Some s /\ probeInFlight s = true /\ 
            probeStarted s = at_ clk now /\ breaker s = breakerHalfOpen.
Proof.
  unfold Available, get. destruct (state t !! p) as [s|] eqn:E; [|intros [= <-]; by rewrite E].
  case_match; [done|]. destruct (breaker s) eqn:B.
  - intros [= <-]. rewrite E; simpl. congruence.
  - case_match; [done|]. unfold admitProbe. destruct (_ && _); intros; simplify_eq/=.
    rewrite lookup_insert_eq. eexists; split_and!; done.
  - unfold admitProbe. destruct (_ && _); intros; simplify_eq/=.
    rewrite lookup_insert_eq. eexists; split_and!; done.
Qed.

(** A run of failures that count against the provider. *)
Definition fail_run (t : tracker) (p : string)
    (fs : list (ErrorClass * Duration * Time * Time)) : tracker :=
  foldl (fun t '(c, ra, clk, now) => RecordFailure t clk p c ra now) t fs.

Definition counts (f : ErrorClass * Duration * Time * Time) : Prop :=
  countsAgainstHealth f.1.1.1 = true.

Lemma RecordFailure_get t clk p c ra now :
  countsAgainstHealth c = true ->
  get (RecordFailure t clk p c ra now) p
  = countFailure (BreakerThreshold (opts t)) (applyCooldown (get t p) c ra (at_ clk now))
      (at_ clk now).
Proof.
  intros C. unfold RecordFailure. by rewrite get_set_state, decide_True, C by done.
Qed.

Lemma fail_run_cons t p c ra clk now fs :
  fail_run t p ((c, ra, clk, now) :: fs) = fail_run (RecordFailure t clk p c ra now) p fs.
Proof. reflexivity. Qed.

Lemma fail_run_open t p fs :
  breaker (get t p) = breakerOpen -> Forall counts fs ->
  breaker (get (fail_run t p fs) p) = breakerOpen.
Proof.
  intros B F. revert t B. induction F as [|[[[c ra] clk] now] fs C F IH]; intros t B; simpl; [done|].
  apply IH. rewrite RecordFailure_get by done. unfold countFailure.
  destruct (applyCooldown_keeps (get t p) c ra (at_ clk now)) as (-> & _). by rewrite B.
Qed.

Lemma fail_run_closed t p fs :
  wf_tracker t -> breaker (get t p) = breakerClosed -> Forall counts fs ->
  breaker (get (fail_run t p fs) p) =
    if BreakerThreshold (opts t) <=? consecutiveFailures (get t p) + Z.of_nat (length fs)
    then breakerOpen else breakerClosed.
Proof.
  intros W B F. revert t W B. induction F as [|[[[c ra] clk] now] fs C F IH]; intros t W B.
  - simpl. pose proof (wf_closed _ _ (get_wf t p W) B). case_match; bool_to_prop; [lia|done].
  - rewrite fail_run_cons. pose proof (wf_closed _ _ (get_wf t p W) B) as H.
    pose proof (wf_threshold _ W) as Ht.
    assert (W' : wf_tracker (RecordFailure t clk p c ra now))
      by apply (step_op_wf t (OpFailure p c ra clk now) W).
    pose proof (RecordFailure_get t clk p c ra now C) as G. unfold countFailure in G.
    destruct (applyCooldown_keeps (get t p) c ra (at_ clk now)) as (E1 & E2 & _).
    rewrite E1, E2, B in G. rewrite wrap64_id in G by (unfold is_int64, min_int64; lia).
    rewrite length_cons, Nat2Z.inj_succ. destruct (_ <=? _) eqn:T in G; bool_to_prop.
    + rewrite fail_run_open by (rewrite ?G; done). case_match; bool_to_prop; [done|lia].
    + rewrite IH by (rewrite ?G; done). rewrite G; simpl.
      change (opts (RecordFailure t clk p c ra now)) with (opts t).
      do 2 case_match; bool_to_prop; done || lia.
Qed.

(** What a probe admitted at [now] makes of an open breaker's state. *)
Definition probing (s : providerHealth) (now : Time) : providerHealth :=
  mkHealth breakerHalfOpen (consecutiveFailures s) (openedAt s) true now
    (cooldownUntil s) (ewma s) (samples s).

Lemma Available_probe t clk p now s :
  state t !! p = Some s -> breaker s = breakerOpen -> probeInFlight s = false ->
  cooldownUntil s <= at_ clk now -> openedAt s + BreakerCooldown (opts t) <= at_ clk now ->
  0 < BreakerCooldown (opts t) <= max_int64 ->
  Available t clk p now = (true, set_state t p (probing s (at_ clk now))).
Proof.
  intros E B P Hc Ho Hr. unfold Available. rewrite E, B. unfold admitProbe, time_Before; simpl.
  rewrite (proj2 (Z.ltb_ge _ _) Hc), P, time_Sub_ltb by (unfold min_int64; lia).
  by rewrite (proj2 (Z.ltb_ge _ _)) by lia.
Qed.

(** ** Properties *)

(** A witness configuration: a breaker that opens at the second failure in a
    row, with the default cooldown of thirty seconds. *)
Definition two_strikes : Options := mkOptions StrategyUnset 0 0 0 2 0.

Lemma two_strikes_int64 : options_int64 two_strikes.
Proof. unfold options_int64, is_int64, min_int64, max_int64; simpl; lia. Qed.

(** (C28) In every history of calls on a fresh tracker, whatever their order,
    providers and timestamps, a claimed probe exists only in the half-open
    state and a closed breaker has counted fewer failures in a row than the
    threshold: the well-formedness of the tracker is an invariant. *)
Theorem health_reachable_wf o ops :
  options_int64 o -> wf_tracker (run_ops (NewHealth o) ops).
Proof. intros H. by apply run_ops_wf, NewHealth_wf. Qed.

Lemma health_reachable_wf_witness :
  wf_tracker (run_ops (NewHealth two_strikes)
    [OpFailure "groq" ErrClassUpstream 0 0 5; OpFailure "groq" ErrClassTimeout 0 0 6;
     OpAvailable "groq" 0 (40 * Second); OpSuccess "groq" 7]).
Proof. apply health_reachable_wf. exact two_strikes_int64. Defined.

(** The breaker is the state machine the package documents: whenever an
    operation changes a provider's breaker, the change is one of the four
    transitions of [transition] with its guard, namely closed to open at the
    threshold-th counted failure, open to half-open by an [Available] after
    the cooldown and the provider's own pause (claiming the probe), half-open
    to open by a counted failure, and anything to closed by a success. *)
Theorem breaker_transitions t o p :
  wf_tracker t ->
  breaker (get t p) <> breaker (get (step_op t o) p) ->
  op_provider o = p /\ transition (opts t) o (get t p) (get (step_op t o) p).
Proof.
  intros W Hne. assert (op_provider o = p) as Hp.
  { destruct (decide (op_provider o = p)); [done|]. destruct Hne.
    unfold get. by rewrite step_op_other. }
  split; [done|]. destruct o as [q clk now|q d|q c ra clk now]; simpl in *; subst q.
  - by apply Available_transition.
  - apply T_close; unfold RecordSuccess; rewrite get_set_state, decide_True by done;
      by case_match.
  - by apply RecordFailure_transition.
Qed.

Lemma breaker_transitions_witness :
  let t := run_ops (NewHealth two_strikes) [OpFailure "groq" ErrClassUpstream 0 0 5] in
  let o := OpFailure "groq" ErrClassUpstream 0 0 9 in
  op_provider o = "groq"%string /\
  transition (opts t) o (get t "groq") (get (step_op t o) "groq").
Proof.
  apply breaker_transitions.
  - apply run_ops_wf, NewHealth_wf. exact two_strikes_int64.
  - vm_compute. discriminate.
Defined.

(** A breaker opens at exactly the configured number of counted failures
    in a row and not before: after any run of failures that count, a provider
    without history is open if and only if the run is at least as long as
    [BreakerThreshold]. *)
Theorem breaker_opens_at_threshold o p fs :
  options_int64 o -> Forall counts fs ->
  breaker (get (fail_run (NewHealth o) p fs) p) = breakerOpen <->
  BreakerThreshold (withDefaults o) <= Z.of_nat (length fs).
Proof.
  intros Ho F. assert (G : get (NewHealth o) p = zeroHealth) by done.
  rewrite fail_run_closed by (rewrite ?G; auto using NewHealth_wf). rewrite G.
  cbn [consecutiveFailures zeroHealth opts NewHealth].
  case_match; bool_to_prop; split; intros; done || lia.
Qed.

Lemma breaker_opens_at_threshold_witness :
  breaker (get (fail_run (NewHealth two_strikes) "groq"
    [(ErrClassUpstream, 0, 1, 1); (ErrClassTimeout, 0, 2, 2)]) "groq") = breakerOpen.
Proof.
  apply breaker_opens_at_threshold; [exact two_strikes_int64| |simpl; lia].
  repeat constructor.
Defined.

(** Single probe: once [Available] let a caller through a breaker that is
    half open, no interleaving of other calls lets a second caller try that
    provider before the probe reports or the stall timeout of two minutes
    passes. *)
Theorem single_probe t clk p now t' ops clk1 now1 :
  Available t clk p now = (true, t') ->
  breaker (get t' p) = breakerHalfOpen ->
  Forall (quiet p (at_ clk now)) ops ->
  at_ clk1 now1 - at_ clk now < probeStallTimeout ->
  (Available (run_ops t' ops) clk1 p now1).1 = false.
Proof.
  intros A B F L. destruct (Available_half_open _ _ _ _ _ A B) as (s & E & P & S & B').
  rewrite <- S in F, L. apply (probe_busy _ _ _ _ s); auto. by apply run_quiet.
Qed.

Lemma single_probe_witness :
  let t := run_ops (NewHealth two_strikes)
             [OpFailure "groq" ErrClassUpstream 0 0 5; OpFailure "groq" ErrClassUpstream 0 0 6] in
  let t' := (Available t 0 "groq" (31 * Second)).2 in
  (Available (run_ops t' [OpAvailable "groq" 0 (32 * Second); OpSuccess "mistral" 4])
     0 "groq" (33 * Second)).1 = false.
Proof.
  apply (single_probe
    (run_ops (NewHealth two_strikes)
       [OpFailure "groq" ErrClassUpstream 0 0 5; OpFailure "groq" ErrClassUpstream 0 0 6])
    0 "groq" (31 * Second)).
  - vm_compute. reflexivity.
  - vm_compute. reflexivity.
  - repeat constructor; vm_compute; congruence.
  - vm_compute. reflexivity.
Defined.

(** A pause the provider asked for is honored: after a rate limit or a
    payment failure reported at [now], no history of later calls, successes
    included, makes the provider available again before [now] plus the
    pause. *)
Theorem pause_honored t clk p class ra now ops clk1 now1 :
  0 < at_ clk now -> 0 < cooldownFor class ra ->
  at_ clk1 now1 < at_ clk now + cooldownFor class ra ->
  (Available (run_ops (RecordFailure t clk p class ra now) ops) clk1 p now1).1 = false.
Proof.
  intros Hn Hp Hl.
  assert (H : at_ clk now + cooldownFor class ra
              <= cooldownUntil (get (RecordFailure t clk p class ra now) p)).
  { unfold RecordFailure. rewrite get_set_state, decide_True by done.
    assert (at_ clk now + cooldownFor class ra
      <= cooldownUntil (applyCooldown (get t p) class ra (at_ clk now))).
    { rewrite applyCooldown_until, (proj2 (Z.ltb_lt _ _) Hp). lia. }
    case_match; [by rewrite countFailure_until|done]. }
  pose proof (run_ops_cooldown_mono (RecordFailure t clk p class ra now) ops p).
  apply Available_in_cooldown; lia.
Qed.

Lemma pause_honored_witness :
  (Available (run_ops (RecordFailure (NewHealth two_strikes) 0 "groq" ErrClassRateLimited 0 7)
     [OpSuccess "groq" 12]) 0 "groq" (20 * Second)).1 = false.
Proof. apply pause_honored; vm_compute; reflexivity. Defined.

(** One bad caller cannot take a provider out of rotation: a failure whose
    class is about the request (a rejected payload, a client that hung up, an
    unknown model) leaves the health of every provider exactly as it was. *)
Theorem request_failure_invisible t clk p class ra now q :
  countsAgainstHealth class = false ->
  get (RecordFailure t clk p class ra now) q = get t q.
Proof.
  intros C. unfold RecordFailure. rewrite get_set_state, C. case_decide; [subst|done].
  unfold applyCooldown. destruct class; simpl in *; done.
Qed.

Lemma request_failure_invisible_witness :
  let t := run_ops (NewHealth two_strikes) [OpFailure "groq" ErrClassUpstream 0 0 5] in
  get (RecordFailure t 0 "groq" ErrClassInvalidRequest 0 6) "groq" = get t "groq".
Proof. apply request_failure_invisible. reflexivity. Defined.

(** Recovery: an open breaker whose cooldown and pause have both passed
    admits a probe; if the probe succeeds the provider is available at once,
    and if it fails with a class that counts the whole cooldown starts over. *)
Theorem breaker_recovers t clk p now ttft class ra clk2 now2 :
  wf_tracker t ->
  breaker (get t p) = breakerOpen ->
  cooldownUntil (get t p) <= at_ clk now ->
  openedAt (get t p) + BreakerCooldown (opts t) <= at_ clk now ->
  (Available t clk p now).1 = true /\
  let t' := (Available t clk p now).2 in
  (at_ clk now <= at_ clk2 now2 -> (Available (RecordSuccess t' p ttft) clk2 p now2).1 = true) /\
  (countsAgainstHealth class = true ->
   let s := get (RecordFailure t' clk2 p class ra now2) p in
   breaker s = breakerOpen /\ openedAt s = at_ clk2 now2).
Proof.
  intros W B Hc Ho. pose proof (get_wf t p W) as Wp. destruct W as [_ Wc _].
  assert (P : probeInFlight (get t p) = false) by (eapply wf_idle; [exact Wp|congruence]).
  destruct (state t !! p) as [s|] eqn:E; [|by unfold get in B; rewrite E in B].
  assert (G : get t p = s) by (unfold get; by rewrite E). rewrite G in *.
  rewrite (Available_probe t clk p now s) by done. cbn [fst snd]. split; [done|]. split.
  - intros L. unfold RecordSuccess, Available. rewrite get_set_state, decide_True by done.
    cbn [state set_state]. rewrite lookup_insert_eq. unfold time_Before.
    destruct (0 <? ttft); simpl; rewrite (proj2 (Z.ltb_ge _ _)); done || lia.
  - intros C. rewrite RecordFailure_get, get_set_state, decide_True by done.
    unfold countFailure.
    by destruct (applyCooldown_keeps (probing s (at_ clk now)) class ra (at_ clk2 now2))
      as (-> & _).
Qed.

Lemma breaker_recovers_witness :
  let t := run_ops (NewHealth two_strikes)
             [OpFailure "groq" ErrClassUpstream 0 0 5; OpFailure "groq" ErrClassUpstream 0 0 6] in
  (Available t 0 "groq" (31 * Second)).1 = true.
Proof.
  refine (proj1 (breaker_recovers
    (run_ops (NewHealth two_strikes)
       [OpFailure "groq" ErrClassUpstream 0 0 5; OpFailure "groq" ErrClassUpstream 0 0 6])
    0 "groq" (31 * Second) 1 ErrClassUpstream 0 0 (32 * Second) _ _ _ _)).
  - apply run_ops_wf, NewHealth_wf. exact two_strikes_int64.
  - vm_compute. reflexivity.
  - vm_compute. discriminate.
  - vm_compute. discriminate.
Defined.
