(* ===== verification/Selector.v ===== *)
(** * Selection strategies (internal/router/selector.go)

    A selector orders the providers of a chain that may be tried now.
    [Available] may claim a half-open probe, so the tracker is threaded through
    the scan; [h = None] is a route wired up without health tracking.

    The theorems: an order never contains a provider that is not available
    (and is exactly the available part of the chain), the least-latency order
    is the stable sort the comment describes, and the round-robin order is a
    rotation, fair over a full turn, until the call counter wraps. *)

From Stdlib Require Import ZArith Lia String.
From stdpp Require Import base gmap strings list numbers sorting.
From S2P Require Import Prelude Float64 Providers Health.

Local Open Scope Z_scope.

(** ** The available part of a chain *)

Definition Available_opt (h : option tracker) (clk : Time) (p : string) (now : Time)
    : bool * option tracker :=
  match h with
  | None => (true, None)
  | Some t => let (ok, t') := Available t clk p now in (ok, Some t')
  end.

Fixpoint availableFrom (chain : list string) (h : option tracker) (clk now : Time)
    : list string * option tracker :=
  match chain with
  | [] => ([], h)
  | name :: rest =>
      let (ok, h) := Available_opt h clk name now in
      let (out, h) := availableFrom rest h clk now in
      ((if ok then name :: out else out), h)
  end.

(** ** Stable sorting, as [slices.SortStableFunc] *)

Section SortStable.
Context {A : Type} (cmp : A -> A -> comparison).

Fixpoint insertStable (x : A) (l : list A) : list A :=
  match l with
  | [] => [x]
  | y :: l' => match cmp x y with Gt => y :: insertStable x l' | _ => x :: l end
  end.

Definition SortStableFunc (l : list A) : list A := foldr insertStable [] l.
End SortStable.

(** ** Least latency *)

Record latencyRank := mkRank { rname : string; rttft : Duration; rsampled : bool }.

Definition rank (h : option tracker) (name : string) : latencyRank :=
  match h with
  | None => mkRank name 0 false
  | Some t => mkRank name (Latency t name).1 (Latency t name).2
  end.

Definition compareRank (a b : latencyRank) : comparison :=
  if negb (Bool.eqb (rsampled a) (rsampled b))
  then (if rsampled a then Gt else Lt)
  else if negb (rsampled a) then Eq
  else rttft a ?= rttft b.

(** ** Selectors *)

Inductive Selector :=
| prioritySelector
| leastLatencySelector
| roundRobinSelector (calls : Z).

(** [NewSelector]: an unknown strategy is an error, the empty one included. *)
Definition NewSelector (s : Strategy) : option Selector :=
  match s with
  | StrategyPriority => Some prioritySelector
  | StrategyLeastLatency => Some leastLatencySelector
  | StrategyRoundRobin => Some (roundRobinSelector 0)
  | _ => None
  end.

(** The rotation loop of [roundRobinSelector.Order]: indices
    [(start + i) % total] on [uint64]. *)
Definition rotation (start : Z) (avail : list string) : list string :=
  let total := Z.of_nat (length avail) in
  omap (fun i : nat => avail !! Z.to_nat (wrapu64 (start + Z.of_nat i) mod total))
       (seq 0 (length avail)).

(** [Order], with the selector's own state after the call. *)
Definition Order (sel : Selector) (chain : list string) (h : option tracker) (clk now : Time)
    : list string * option tracker * Selector :=
  let (avail, h) := availableFrom chain h clk now in
  match sel with
  | prioritySelector => (avail, h, sel)
  | leastLatencySelector =>
      (rname <$> SortStableFunc compareRank (rank h <$> avail), h, sel)
  | roundRobinSelector calls =>
      match avail with
      | [] => (avail, h, sel)
      | _ =>
          let calls := wrapu64 (calls + 1) in
          (rotation (wrapu64 (calls - 1)) avail, h, roundRobinSelector calls)
      end
  end.

(** ** Lemmas on availability *)

(** What a tracker answers about a provider right now, probe claims aside. *)
Definition may_try (h : option tracker) (clk : Time) (now : Time) (p : string) : bool :=
  (Available_opt h clk p now).1.

(** The answer of [Available] as a function of one provider's state. *)
Definition availability (o : Options) (os : option providerHealth) (now : Time) : bool :=
  match os with
  | None => true
  | Some s =>
      if time_Before now (cooldownUntil s) then false
      else
        match breaker s with
        | breakerClosed => true
        | breakerOpen =>
            if time_Sub now (openedAt s) <? BreakerCooldown o then false
            else (admitProbe s now).1
        | breakerHalfOpen => (admitProbe s now).1
        end
  end.

Lemma Available_availability t clk p now :
  (Available t clk p now).1 = availability (opts t) (state t !! p) (at_ clk now).
Proof.
  unfold Available, availability, admitProbe. destruct (state t !! p) as [s|]; [|done].
  case_match; [done|]. destruct (breaker s); [done| |].
  - case_match; [done|]. simpl. by destruct (_ && _).
  - by destruct (_ && _).
Qed.

Lemma may_try_Some t clk now p :
  may_try (Some t) clk now p = availability (opts t) (state t !! p) (at_ clk now).
Proof.
  rewrite <- Available_availability. unfold may_try, Available_opt.
  by destruct (Available t clk p now).
Qed.

Lemma may_try_other t clk now p q :
  p <> q -> may_try (Some (Available t clk p now).2) clk now q = may_try (Some t) clk now q.
Proof.
  intros H. rewrite !may_try_Some.
  change (Available t clk p now).2 with (step_op t (OpAvailable p clk now)).
  by rewrite (step_op_other t (OpAvailable p clk now) q H), (step_op_opts t (OpAvailable p clk now)).
Qed.

Lemma availableFrom_filter chain h clk now :
  NoDup chain ->
  (availableFrom chain h clk now).1
  = base.filter (fun p => may_try h clk now p = true) chain.
Proof.
  intros N. revert h. induction N as [|p chain Hp N IH]; intros h; [done|].
  rewrite filter_cons. simpl. destruct (Available_opt h clk p now) as [ok h'] eqn:E.
  destruct (availableFrom chain h' clk now) as [out h''] eqn:F. simpl.
  assert (Hout : out = base.filter (fun q => may_try h clk now q = true) chain).
  { change out with (out, h'').1. rewrite <- F, IH.
    apply list_filter_ext_in. intros q Hq. destruct h as [t|]; simpl in E; simplify_eq/=; [|done].
    destruct (Available t clk p now) as [b t'] eqn:G. simplify_eq.
    replace t' with (Available t clk p now).2 by (by rewrite G).
    rewrite may_try_other; [done|]. by intros ->. }
  assert (M : may_try h clk now p = ok) by (unfold may_try; by rewrite E).
  destruct ok; case_decide; congruence.
Qed.

Lemma Order_out sel chain h clk now :
  let avail := (availableFrom chain h clk now).1 in
  let h' := (availableFrom chain h clk now).2 in
  (Order sel chain h clk now).1.1 =
  match sel with
  | prioritySelector => avail
  | leastLatencySelector => rname <$> SortStableFunc compareRank (rank h' <$> avail)
  | roundRobinSelector calls => rotation (wrapu64 (wrapu64 (calls + 1) - 1)) avail
  end.
Proof.
  unfold Order. destruct (availableFrom chain h clk now) as [avail h']; simpl.
  destruct sel; [done|done|]. by destruct avail.
Qed.

(** ** Lemmas on stable sorting *)

Section SortStableFacts.
Context {A : Type} (cmp : A -> A -> comparison).

Definition cmp_le (x y : A) : Prop := cmp x y <> Gt.

Context (cmp_total : forall x y, cmp_le x y \/ cmp_le y x).
Context (cmp_trans : forall x y z, cmp_le x y -> cmp_le y z -> cmp_le x z).

Lemma insertStable_perm x l : insertStable cmp x l ≡ₚ x :: l.
Proof.
  induction l as [|y l IH]; simpl; [done|].
  destruct (cmp x y); [done|done|]. rewrite IH. constructor.
Qed.

Lemma SortStableFunc_perm l : SortStableFunc cmp l ≡ₚ l.
Proof. induction l as [|x l IH]; simpl; [done|]. by rewrite insertStable_perm, IH. Qed.

Lemma insertStable_sorted x l :
  StronglySorted cmp_le l -> StronglySorted cmp_le (insertStable cmp x l).
Proof.
  induction 1 as [|y l S IH F]; simpl; [by repeat constructor|].
  destruct (cmp x y) eqn:E.
  1,2: assert (Hxy : cmp_le x y) by (unfold cmp_le; congruence).
  1,2: constructor; [by constructor|constructor; [done|]];
       eapply Forall_impl; [exact F|]; intros z Hz; by eapply cmp_trans.
  constructor; [done|]. rewrite insertStable_perm. constructor; [|done].
  destruct (cmp_total x y); [done|done].
Qed.

Lemma SortStableFunc_sorted l : StronglySorted cmp_le (SortStableFunc cmp l).
Proof. induction l; simpl; [constructor|by apply insertStable_sorted]. Qed.

(** Elements of one equivalence class keep their order. *)
Lemma insertStable_filter (P : A -> Prop) `{!forall x, Decision (P x)} x l :
  (forall y, P x -> P y -> cmp x y <> Gt) ->
  base.filter P (insertStable cmp x l) = base.filter P (x :: l).
Proof.
  intros HP. induction l as [|y l IH]; simpl; [done|].
  destruct (cmp x y) eqn:E; [done|done|].
  rewrite (filter_cons P y), IH, !filter_cons.
  do 2 case_decide; try done. exfalso. by eapply (HP y).
Qed.

Lemma SortStableFunc_stable (P : A -> Prop) `{!forall x, Decision (P x)} l :
  (forall x y, P x -> P y -> cmp x y <> Gt) ->
  base.filter P (SortStableFunc cmp l) = base.filter P l.
Proof.
  intros HP. induction l as [|x l IH]; simpl; [done|].
  rewrite insertStable_filter by eauto. by rewrite !filter_cons, IH.
Qed.
End SortStableFacts.

Lemma compareRank_total x y : cmp_le compareRank x y \/ cmp_le compareRank y x.
Proof.
  unfold cmp_le, compareRank. destruct x as [n a []], y as [m b []]; simpl; auto.
  destruct (a ?= b) eqn:E; auto. right. rewrite Z.compare_antisym, E. done.
Qed.

Lemma compareRank_trans x y z :
  cmp_le compareRank x y -> cmp_le compareRank y z -> cmp_le compareRank x z.
Proof.
  unfold cmp_le, compareRank.
  destruct x as [n a []], y as [m b []], z as [k c []]; simpl; try done.
  rewrite !Z.compare_gt_iff. lia.
Qed.

(** ** Lemmas on rotation *)

Lemma wrapu64_pred_succ c : 0 <= c < 2 ^ 64 -> wrapu64 (wrapu64 (c + 1) - 1) = c.
Proof.
  intros H. unfold wrapu64. rewrite Zminus_mod_idemp_l.
  replace (c + 1 - 1) with c by lia. by apply Z.mod_small.
Qed.

Lemma omap_lookup_total (l : list string) (f : nat -> nat) (n : list nat) :
  Forall (fun i => (f i < length l)%nat) n ->
  omap (fun i => l !! f i) n = (fun i => default ""%string (l !! f i)) <$> n.
Proof.
  induction 1 as [|i n H F IH]; simpl; [done|].
  destruct (lookup_lt_is_Some_2 l (f i) H) as [x ->]; simpl. by f_equal.
Qed.

(** Until the counter wraps, the rotation loop is list rotation. *)
Lemma rotation_rotate start avail :
  0 <= start -> start + Z.of_nat (length avail) <= 2 ^ 64 ->
  rotation start avail = rotate (Z.to_nat (start mod Z.of_nat (length avail))) avail.
Proof.
  intros H0 H1. destruct (decide (avail = [])) as [->|Hne]; [by unfold rotate; rewrite drop_nil, take_nil|].
  assert (Hlen : (0 < length avail)%nat) by (destruct avail; [done|simpl; lia]).
  set (n := Z.of_nat (length avail)) in *. apply list_eq. intros i.
  unfold rotation. fold n. rewrite omap_lookup_total.
  2: { apply Forall_forall. intros j [_ Hj]%elem_of_seq.
       pose proof (Z.mod_pos_bound (wrapu64 (start + Z.of_nat j)) n). lia. }
  destruct (decide (i < length avail)%nat) as [Hi|Hi].
  - rewrite lookup_rotate_r by done. unfold rotate_nat_add.
    rewrite list_lookup_fmap, lookup_seq_lt by done. simpl.
    rewrite wrapu64_id by lia.
    assert (Hk : (Z.to_nat ((start + Z.of_nat i) mod n) < length avail)%nat).
    { pose proof (Z.mod_pos_bound (start + Z.of_nat i) n). lia. }
    destruct (lookup_lt_is_Some_2 avail _ Hk) as [x Hx]. rewrite Hx; simpl. rewrite <- Hx.
    f_equal. rewrite Z2Nat.id by (apply Z.mod_pos_bound; lia).
    fold n. by rewrite Zplus_mod_idemp_l.
  - rewrite (lookup_ge_None_2 (rotate _ _)) by (rewrite length_rotate; lia).
    apply lookup_ge_None_2. rewrite length_fmap, length_seq. lia.
Qed.

Lemma availableFrom_all chain h clk now :
  NoDup chain -> Forall (fun p => may_try h clk now p = true) chain ->
  (availableFrom chain h clk now).1 = chain.
Proof. intros N F. rewrite availableFrom_filter by done. by apply list_filter_all. Qed.

(** ** Properties *)

(** A run of [n] round-robin calls, each at its own instant, over a chain whose
    health no call changes ([None]: a route without health tracking). *)
Fixpoint round_robin_leaders (n : nat) (sel : Selector) (chain : list string) : list string :=
  match n with
  | O => []
  | S n =>
      let '(out, _, sel) := Order sel chain None 0 0 in
      default ""%string (head out) :: round_robin_leaders n sel chain
  end.

(** Exclusion outranks ordering: whatever the strategy, the order of a
    chain without duplicates is a permutation of exactly the providers that
    [Available] accepts, so no flattering latency talks an open breaker into a
    call and no available provider is dropped. *)
Theorem order_is_available_part sel chain h clk now :
  NoDup chain ->
  (forall calls, sel = roundRobinSelector calls ->
     0 <= calls /\ calls + Z.of_nat (length chain) <= 2 ^ 64) ->
  (Order sel chain h clk now).1.1
  ≡ₚ base.filter (fun p => may_try h clk now p = true) chain.
Proof.
  intros N Hc. rewrite Order_out. cbv zeta. rewrite availableFrom_filter by done.
  set (avail := base.filter _ chain).
  assert (Hlen : (length avail <= length chain)%nat) by apply length_filter.
  destruct sel as [| |calls]; [done| |].
  - rewrite SortStableFunc_perm, <- list_fmap_compose.
    induction avail as [|p l IH]; simpl; [done|].
    destruct (availableFrom _ _ _ _) as [o [t|]]; simpl in *; constructor; apply IH; lia.
  - destruct (Hc calls eq_refl) as [H0 H1]. destruct chain as [|c chain]; [done|].
    rewrite length_cons in *.
    rewrite wrapu64_pred_succ by lia. rewrite rotation_rotate by lia.
    unfold rotate. rewrite Permutation_app_comm. by rewrite take_drop.
Qed.

Lemma order_is_available_part_witness :
  (Order (roundRobinSelector 7) ["a"; "b"; "c"]%string (Some (NewHealth two_strikes)) 0 9).1.1
  ≡ₚ base.filter (fun p => may_try (Some (NewHealth two_strikes)) 0 9 p = true)
       ["a"; "b"; "c"]%string.
Proof.
  apply order_is_available_part.
  - apply (bool_decide_unpack _). vm_compute. exact I.
  - intros calls [= <-]. simpl. lia.
Defined.

Lemma length_round_robin_leaders n sel chain :
  length (round_robin_leaders n sel chain) = n.
Proof.
  revert sel; induction n as [|n IH]; intros sel; simpl; [done|].
  destruct (Order sel chain None 0 0) as [[out h] sel']. simpl. by rewrite IH.
Qed.

(** Least latency: the order is the available part of the chain with the
    providers that lack samples first, in configured order, then the sampled
    ones by ascending smoothed time to first token, configured order breaking
    ties. *)
Theorem least_latency_order chain h clk now :
  let avail := (availableFrom chain h clk now).1 in
  let ranks := rank (availableFrom chain h clk now).2 <$> avail in
  exists sorted,
    (Order leastLatencySelector chain h clk now).1.1 = rname <$> sorted /\
    sorted ≡ₚ ranks /\
    StronglySorted (cmp_le compareRank) sorted /\
    base.filter (fun r => rsampled r = false) sorted
      = base.filter (fun r => rsampled r = false) ranks /\
    (forall d, base.filter (fun r => rsampled r = true /\ rttft r = d) sorted
      = base.filter (fun r => rsampled r = true /\ rttft r = d) ranks).
Proof.
  intros avail ranks. exists (SortStableFunc compareRank ranks).
  split_and!.
  - apply (Order_out leastLatencySelector).
  - apply SortStableFunc_perm.
  - apply SortStableFunc_sorted; [apply compareRank_total|apply compareRank_trans].
  - apply SortStableFunc_stable. intros [n a sa] [m b sb]; simpl. intros -> ->. done.
  - intros d. apply SortStableFunc_stable. intros [n a sa] [m b sb]; simpl.
    intros [-> ->] [-> ->]. unfold compareRank; simpl. by rewrite Z.compare_refl.
Qed.

Lemma round_robin_leaders_lookup n calls chain i :
  chain <> [] -> 0 <= calls -> calls + Z.of_nat n + Z.of_nat (length chain) <= 2 ^ 64 ->
  NoDup chain -> (i < n)%nat ->
  round_robin_leaders n (roundRobinSelector calls) chain !! i
  = chain !! Z.to_nat ((calls + Z.of_nat i) mod Z.of_nat (length chain)).
Proof.
  intros Hne. revert calls i. induction n as [|n IH]; intros calls i H0 H1 N Hi; [lia|].
  assert (Hlen : (0 < length chain)%nat) by (destruct chain; [done|simpl; lia]).
  simpl. unfold Order.
  pose proof (availableFrom_all chain None 0 0 N) as Hall.
  destruct (availableFrom chain None 0 0) as [avail h']. simpl in Hall.
  rewrite Hall by (apply Forall_forall; done).
  assert (Hstep : wrapu64 (calls + 1) = calls + 1) by (apply wrapu64_id; lia).
  destruct chain as [|c0 chain0] eqn:Hch; [done|]. rewrite <- Hch in *.
  rewrite wrapu64_pred_succ, Hstep by lia.
  destruct i as [|i]; simpl.
  - rewrite rotation_rotate, head_lookup, lookup_rotate_r by lia. unfold rotate_nat_add.
    rewrite Z2Nat.id by (apply Z.mod_pos_bound; lia). rewrite Zplus_mod_idemp_l.
    pose proof (Z.mod_pos_bound (calls + Z.of_nat 0) (Z.of_nat (length chain))).
    destruct (lookup_lt_is_Some_2 chain
      (Z.to_nat ((calls + Z.of_nat 0) mod Z.of_nat (length chain)))) as [x Hx]; [lia|].
    by rewrite Hx.
  - rewrite IH by (auto; lia). f_equal. f_equal. f_equal. lia.
Qed.

(** Round robin is fair: over one full turn of calls on an available
    chain, from any starting count short of the wrap, each provider leads
    exactly once, in configured order starting at the count. *)
Theorem round_robin_fair calls chain :
  chain <> [] -> NoDup chain -> 0 <= calls ->
  calls + 2 * Z.of_nat (length chain) <= 2 ^ 64 ->
  round_robin_leaders (length chain) (roundRobinSelector calls) chain
  = rotate (Z.to_nat (calls mod Z.of_nat (length chain))) chain /\
  round_robin_leaders (length chain) (roundRobinSelector calls) chain ≡ₚ chain.
Proof.
  intros Hne N H0 H1.
  assert (Hlen : (0 < length chain)%nat) by (destruct chain; [done|simpl; lia]).
  assert (E : round_robin_leaders (length chain) (roundRobinSelector calls) chain
    = rotate (Z.to_nat (calls mod Z.of_nat (length chain))) chain).
  { apply list_eq. intros i. destruct (decide (i < length chain)%nat) as [Hi|Hi].
    - rewrite round_robin_leaders_lookup by (auto; lia).
      rewrite lookup_rotate_r by done. unfold rotate_nat_add.
      rewrite Z2Nat.id by (apply Z.mod_pos_bound; lia). by rewrite Zplus_mod_idemp_l.
    - rewrite !lookup_ge_None_2; [done|rewrite length_rotate; lia|].
      rewrite length_round_robin_leaders. lia. }
  split; [done|]. rewrite E. unfold rotate. rewrite Permutation_app_comm. by rewrite take_drop.
Qed.

Lemma round_robin_fair_witness :
  round_robin_leaders 3 (roundRobinSelector 4) ["a"; "b"; "c"]%string
  = rotate 1 ["a"; "b"; "c"]%string.
Proof.
  refine (proj1 (round_robin_fair 4 ["a"; "b"; "c"]%string _ _ _ _)).
  - discriminate.
  - apply (bool_decide_unpack _). vm_compute. exact I.
  - lia.
  - simpl. lia.
Defined.

(** The wrap of the call counter is not harmless: at the last value of the
    counter a chain of three yields its first provider twice and loses its
    last one, because the index is reduced modulo 2^64 before it is reduced
    modulo the length. *)
Theorem round_robin_wrap_drops_provider :
  (Order (roundRobinSelector (2 ^ 64 - 1)) ["a"; "b"; "c"]%string None 0 0).1.1
  = ["a"; "a"; "b"]%string.
Proof. vm_compute. reflexivity. Qed.
