(* ===== verification/Router.v ===== *)
(** * The attempt loop (internal/router/orchestrator.go)

    A [Router] serves one model from a chain.  [runChain] walks the selected
    providers applying the failure policy; the streaming and the non streaming
    path share it.  The world outside the loop (what each upstream call
    returned, whether the request context is done, the clock, the random draw
    of the jitter) is an environment indexed by the number of calls made so
    far: the loop looks at each of them exactly once per call.

    The theorems: the loop terminates within the attempt budget, its attempts
    follow the failure policy ([follows]), no healthy peer is starved, the
    result is the last upstream answer, health is charged with exactly the
    failures that count, and a backoff stays within its cap. *)

From Stdlib Require Import ZArith Lia String.
From stdpp Require Import base gmap strings list numbers sorting.
From S2P Require Import Prelude Float64 Providers Health Selector.

Local Open Scope Z_scope.

(** ** State *)

Record Attempt := mkAttempt {
  AttemptProvider : string;
  Class : option ErrorClass;   (* None: the call succeeded *)
  Err : option goerror
}.

Record Router := mkRouter {
  rt_name : string;
  rt_names : list string;
  rt_opts : Options
}.

Inductive newError := NoProviders | NoHealth | NoSelector | DuplicateProvider (p : string).

(** The duplicate scan of [New]: names seen so far, in order. *)
Fixpoint addProviders (chain names : list string) : newError + list string :=
  match chain with
  | [] => inr names
  | p :: rest =>
      if bool_decide (p ∈ names) then inl (DuplicateProvider p)
      else addProviders rest (names ++ [p])
  end.

Definition New (name : string) (chain : list string) (h : option tracker)
    (sel : option Selector) (o : Options) : newError + Router :=
  match chain, h, sel with
  | [], _, _ => inl NoProviders
  | _, None, _ => inl NoHealth
  | _, _, None => inl NoSelector
  | _, Some _, Some _ =>
      match addProviders chain [] with
      | inl e => inl e
      | inr names => inr (mkRouter name names (withDefaults o))
      end
  end.

(** ** Error classification *)

Definition classOf (err : goerror) : ErrorClass :=
  match errors_As_class err with
  | Some c => c
  | None =>
      if errors_Is err CtxCanceled then ErrClassCanceled
      else if errors_Is err CtxDeadlineExceeded then ErrClassTimeout
      else ErrClassInternal
  end.

Definition canceledError (name : string) (c : ctxError) : goerror :=
  match c with
  | DeadlineExceeded =>
      ErrProvider name ErrClassTimeout 0
        "deadline exceeded before another provider could be tried"
        (Some (ErrSentinel CtxDeadlineExceeded))
  | Canceled => ErrSentinel CtxCanceled
  end.

Definition exhausted (r : Router) (last : option goerror) : goerror :=
  match last with
  | Some e => e
  | None =>
      ErrProvider (rt_name r) ErrClassUpstream 0
        "no provider attempt was made for this model" None
  end.

(** ** Backoff *)

(** [rand.Int64N(n)]: a draw [r] reduced into [0, n); it panics for [n <= 0]. *)
Definition Int64N (n r : Z) : option Z := if n <=? 0 then None else Some (r mod n).

Definition backoffDelay (o : Options) (attempt : Z) : Duration :=
  let delay := shl64 (RetryBaseDelay o) (Z.min (attempt - 1) 16) in
  if (MaxRetryDelay o <? delay) || (delay <=? 0) then MaxRetryDelay o else delay.

(** The interval [backoff] waits for, [None] when the draw panics. *)
Definition backoff (o : Options) (attempt draw : Z) : option Duration :=
  Int64N (backoffDelay o attempt +i 1) draw.

(** ** The attempt loop *)

Section RunChain.
Context {T : Type}.

(** What the world answers around one upstream call. *)
Record event := mkEvent {
  ev_ctx_before : option ctxError;  (* ctx.Err() before the call *)
  ev_result : T + goerror;          (* what call(ctx, p) returned *)
  ev_ctx_after : option ctxError;   (* ctx.Err() after the call *)
  ev_clock : Time;                  (* r.clock.Now() after the call *)
  ev_draw : Z                       (* the jitter's random draw *)
}.

Record run_state := mkRun {
  used : Z;
  lastErr : option goerror;
  health : tracker;
  attempts : list Attempt;
  delays : list (option Duration)
}.

(** What one provider's turn ends with. *)
Inductive turn := Return (res : T + goerror) | NextProvider.

Context (r : Router).
(** What the closure passed to [runChain] does to the tracker on success:
    [Chat] records it, [ChatStream] leaves that to the stream. *)
Context (on_success : tracker -> string -> tracker).
Context (env : nat -> string -> event).

Definition failed (name : string) (err : goerror) (clk : Time) (st : run_state) : run_state :=
  let class := classOf err in
  mkRun (used st + 1) (Some err)
    (if countsAgainstHealth class
     then RecordFailure (health st) clk name class 0 clk else health st)
    (attempts st ++ [mkAttempt name (Some class) (Some err)]) (delays st).

Definition waited (st : run_state) (draw : Z) : run_state :=
  mkRun (used st) (lastErr st) (health st) (attempts st)
    (delays st ++ [backoff (rt_opts r) (used st) draw]).

(** The inner [for]: attempts on one provider.  [None] is fuel exhaustion. *)
Fixpoint tryProvider (fuel : nat) (name : string) (reserved : Z) (st : run_state)
    : option (turn * run_state) :=
  match fuel with
  | O => None
  | S fuel =>
      if MaxAttempts (rt_opts r) <=? used st
      then Some (Return (inr (exhausted r (lastErr st))), st)
      else
        let ev := env (Z.to_nat (used st)) name in
        match ev_ctx_before ev with
        | Some c => Some (Return (inr (canceledError (rt_name r) c)), st)
        | None =>
            match ev_result ev with
            | inl v =>
                Some (Return (inl v),
                      mkRun (used st + 1) (lastErr st) (on_success (health st) name)
                        (attempts st ++ [mkAttempt name None None]) (delays st))
            | inr err =>
                let st := failed name err (ev_clock ev) st in
                if bool_decide (is_Some (ev_ctx_after ev)) &&
                   bool_decide (classOf err = ErrClassCanceled)
                then Some (Return (inr err), st)
                else
                  match classDisposition (classOf err) with
                  | dispositionFail => Some (Return (inr err), st)
                  | dispositionRetry =>
                      if MaxAttempts (rt_opts r) <=? used st + reserved
                      then Some (NextProvider, st)
                      else tryProvider fuel name reserved (waited st (ev_draw ev))
                  | dispositionFailover => Some (NextProvider, st)
                  end
            end
        end
  end.

(** The outer loop over the selected order. *)
Fixpoint walkChain (fuel : nat) (order : list string) (st : run_state)
    : option ((T + goerror) * run_state) :=
  match order with
  | [] => Some (inr (exhausted r (lastErr st)), st)
  | name :: rest =>
      if bool_decide (name ∈ rt_names r) then
        match tryProvider fuel name (Z.of_nat (length rest)) st with
        | None => None
        | Some (Return res, st) => Some (res, st)
        | Some (NextProvider, st) => walkChain fuel rest st
        end
      else walkChain fuel rest st
  end.

Definition noHealthyProvider : goerror :=
  ErrProvider (rt_name r) ErrClassUpstream 0
    "no healthy provider is available for this model" None.

Definition walk_fuel : nat := S (Z.to_nat (MaxAttempts (rt_opts r))).

(** [runChain], from the tracker and the selector as they are; [clk] is the
    clock at its start. *)
Definition runChain (sel : Selector) (h : tracker) (clk : Time)
    : option ((T + goerror) * run_state * Selector) :=
  let '(order, h', sel) := Order sel (rt_names r) (Some h) clk clk in
  let st := mkRun 0 None (default h h') [] [] in
  match order with
  | [] => Some (inr noHealthyProvider, st, sel)
  | _ =>
      match walkChain walk_fuel order st with
      | None => None
      | Some (res, st) => Some (res, st, sel)
      end
  end.
End RunChain.

Arguments event : clear implicits.
Arguments turn : clear implicits.

(** [Chat]: success is known when the call returns, so it is recorded there,
    with no time to first token. *)
Definition Chat {T} (r : Router) (env : nat -> string -> event T) :=
  runChain r (fun h p => RecordSuccess h p 0) env.

(** [ChatStream]: the reader records the success at its first chunk. *)
Definition ChatStream {T} (r : Router) (env : nat -> string -> event T) :=
  runChain r (fun h _ => h) env.

(** ** The timed reader *)

Record timedReader := mkTimed { tr_provider : string; tr_start : Time; tr_recorded : bool }.

(** [timedReader.Recv], given what the inner reader returned and the instants
    of [time.Since] and of the router's clock. *)
Definition timed_Recv (t : timedReader) (h : tracker) (got : StreamChunk + goerror)
    (wall : Time) : timedReader * tracker :=
  match got with
  | inl chunk =>
      if negb (tr_recorded t) && negb (Keepalive chunk)
      then (mkTimed (tr_provider t) (tr_start t) true,
            RecordSuccess h (tr_provider t) (time_Sub wall (tr_start t)))
      else (t, h)
  | inr _ => (t, h)
  end.

Fixpoint timed_run (t : timedReader) (h : tracker) (got : list ((StreamChunk + goerror) * Time))
    : timedReader * tracker :=
  match got with
  | [] => (t, h)
  | (g, wall) :: rest => let (t, h) := timed_Recv t h g wall in timed_run t h rest
  end.

(** ** The failure policy as a specification *)

(** [follows order l]: the attempts [l] visit [order] from the left without
    skipping or returning; the same provider is tried again only after a
    transient failure, the next one only after a failure that is not the
    caller's own, and nothing follows a success or a failure of the caller's. *)
Inductive follows : list string -> list Attempt -> Prop :=
| follows_nil order : follows order []
| follows_success p order : follows (p :: order) [mkAttempt p None None]
| follows_fail p order e :
    classDisposition (classOf e) = dispositionFail ->
    follows (p :: order) [mkAttempt p (Some (classOf e)) (Some e)]
| follows_retry p order e l :
    classDisposition (classOf e) = dispositionRetry ->
    follows (p :: order) l ->
    follows (p :: order) (mkAttempt p (Some (classOf e)) (Some e) :: l)
| follows_next p order e l :
    classDisposition (classOf e) <> dispositionFail ->
    follows order l ->
    follows (p :: order) (mkAttempt p (Some (classOf e)) (Some e) :: l).

(** The error the last attempt ended with. *)
Definition last_error (l : list Attempt) : option goerror := last l ≫= Err.

Section RunFacts.
Context {T : Type} (r : Router) (on_success : tracker -> string -> tracker)
  (env : nat -> string -> event T).

Local Abbreviation Max := (MaxAttempts (rt_opts r)).
Local Abbreviation try_ := (tryProvider r on_success env).
Local Abbreviation walk := (walkChain r on_success env).

(** What the attempts [l], the first of which was call number [k], do to the
    tracker. *)
Fixpoint charge (k : nat) (l : list Attempt) (h : tracker) : tracker :=
  match l with
  | [] => h
  | a :: l =>
      let clk := ev_clock (env k (AttemptProvider a)) in
      charge (S k) l
        match Class a with
        | None => on_success h (AttemptProvider a)
        | Some c =>
            if countsAgainstHealth c
            then RecordFailure h clk (AttemptProvider a) c 0 clk else h
        end
  end.

(** How a result relates to the attempts made: a success is what the last
    call returned; a failure is the error of the last call, unless the
    context was done before the next one. *)
Definition explains (res : T + goerror) (l : list Attempt) : Prop :=
  match res with
  | inl v =>
      exists p l0, l = l0 ++ [mkAttempt p None None] /\
                   ev_result (env (length l0) p) = inl v
  | inr e =>
      e = exhausted r (last_error l) \/
      exists p c, ev_ctx_before (env (length l) p) = Some c /\ e = canceledError (rt_name r) c
  end.

(** A run state that agrees with its own trace. *)
Record coherent (h0 : tracker) (st : run_state) : Prop := {
  co_used : used st = Z.of_nat (length (attempts st));
  co_max : used st <= Max;
  co_last : lastErr st = last_error (attempts st);
  co_health : health st = charge 0 (attempts st) h0
}.

Lemma charge_app k l a h :
  charge k (l ++ [a]) h = charge (k + length l) [a] (charge k l h).
Proof.
  revert k h; induction l as [|b l IH]; intros k h; simpl; [by rewrite Nat.add_0_r|].
  rewrite IH. simpl. by rewrite Nat.add_succ_r.
Qed.

Lemma last_error_app l a : last_error (l ++ [a]) = Err a.
Proof. unfold last_error. by rewrite last_snoc. Qed.

Lemma failed_coherent h0 st name err clk :
  coherent h0 st -> used st < Max ->
  clk = ev_clock (env (length (attempts st)) name) ->
  coherent h0 (failed name err clk st).
Proof.
  intros [U M L H] Hlt ->. split; simpl.
  - rewrite length_app, U; simpl. lia.
  - lia.
  - by rewrite last_error_app.
  - rewrite charge_app, <- H. simpl. by rewrite ?Nat.add_0_l.
Qed.

Lemma waited_coherent h0 st d : coherent h0 st -> coherent h0 (waited r st d).
Proof. by intros []; split. Qed.

(** One provider's turn: it ends within the fuel, its attempts follow the
    policy, and the state stays coherent. *)
Lemma tryProvider_spec h0 fuel name reserved st :
  coherent h0 st -> (Z.to_nat (Max - used st) < fuel)%nat ->
  exists out st' l,
    try_ fuel name reserved st = Some (out, st') /\
    attempts st' = attempts st ++ l /\
    match out with
    | Return (inl v) =>
        explains (inl v) (attempts st') /\ used st' <= Max /\
        used st' = Z.of_nat (length (attempts st')) /\
        health st' = charge 0 (attempts st') h0 /\
        forall rest, follows (name :: rest) l
    | Return (inr e) =>
        explains (inr e) (attempts st') /\ coherent h0 st' /\
        forall rest, follows (name :: rest) l
    | NextProvider =>
        coherent h0 st' /\ l <> [] /\
        forall rest l', follows rest l' -> follows (name :: rest) (l ++ l')
    end.
Proof.
  revert st; induction fuel as [|fuel IH]; intros st C F; [lia|]. simpl.
  pose proof C as [U M L H].
  case_match eqn:Hmax; bool_to_prop.
  { eexists _, st, []. split; [done|]. rewrite app_nil_r. split; [done|].
    split; [|split; [done|constructor]]. left. by rewrite L. }
  rewrite U, Nat2Z.id in *. set (ev := env (length (attempts st)) name).
  destruct (ev_ctx_before ev) as [c|] eqn:Ctx.
  { eexists _, st, []. split; [done|]. rewrite app_nil_r. split; [done|].
    split; [|split; [done|constructor]]. right. by exists name, c. }
  destruct (ev_result ev) as [v|err] eqn:Res.
  { eexists _, _, _. split; [done|]. split; [done|]. simpl. split_and!.
    - by exists name, (attempts st).
    - lia.
    - rewrite length_app; simpl. lia.
    - rewrite charge_app, <- H. done.
    - constructor. }
  assert (C' : coherent h0 (failed name err (ev_clock ev) st))
    by (apply failed_coherent; [done|lia|done]).
  assert (Hfail : explains (inr err) (attempts (failed name err (ev_clock ev) st)))
    by (left; unfold failed; simpl; by rewrite last_error_app).
  destruct (_ && _) eqn:Hc.
  { bool_to_prop. eexists _, _, _. split; [done|]. split; [done|]. split; [done|].
    split; [done|]. intros rest. apply follows_fail.
    match goal with E : classOf err = _ |- _ => by rewrite E end. }
  destruct (classDisposition (classOf err)) eqn:D.
  - eexists _, _, _. split; [done|]. split; [done|]. split; [done|]. split; [done|].
    intros rest. by apply follows_fail.
  - case_match eqn:Hroom; bool_to_prop.
    + eexists _, _, _. split; [done|]. split; [done|]. split; [done|]. split; [done|].
      intros rest l' Hl'. apply follows_next; [congruence|done].
    + destruct (IH (waited r (failed name err (ev_clock ev) st) (ev_draw ev)))
        as (out & st' & l & E & A & S); [by apply waited_coherent|simpl; lia|].
      exists out, st', (mkAttempt name (Some (classOf err)) (Some err) :: l).
      split; [done|]. split; [rewrite A; simpl; by rewrite <- app_assoc|].
      destruct out as [[v|e]|]; simpl in *.
      * destruct S as (? & ? & ? & ? & S). split_and!; auto. intros; by apply follows_retry.
      * destruct S as (? & ? & S). split_and!; auto. intros; by apply follows_retry.
      * destruct S as (? & ? & S). split_and!; auto. intros rest l' Hl'.
        apply follows_retry; [done|]. by apply S.
  - eexists _, _, _. split; [done|]. split; [done|]. split; [done|]. split; [done|].
    intros rest l' Hl'. apply follows_next; [congruence|done].
Qed.

(** The whole walk. *)
Lemma walkChain_spec h0 fuel order st :
  coherent h0 st -> (Z.to_nat Max < fuel)%nat -> (forall p, p ∈ order -> p ∈ rt_names r) ->
  exists res st' l,
    walk fuel order st = Some (res, st') /\
    attempts st' = attempts st ++ l /\
    explains res (attempts st') /\
    used st' <= Max /\ used st' = Z.of_nat (length (attempts st')) /\
    health st' = charge 0 (attempts st') h0 /\
    follows order l.
Proof.
  revert st; induction order as [|name order IH]; intros st C F Hin; simpl.
  { pose proof C as [U M L H]. exists (inr (exhausted r (lastErr st))), st, [].
    rewrite app_nil_r. split_and!; auto; [|constructor]. left. by rewrite L. }
  rewrite bool_decide_eq_true_2 by (apply Hin; by left).
  destruct (tryProvider_spec h0 fuel name (Z.of_nat (length order)) st C)
    as (out & st1 & l1 & E & A & S); [pose proof (co_used _ _ C); lia|].
  rewrite E. destruct out as [[v|e]|].
  - destruct S as (? & ? & ? & ? & S). exists (inl v), st1, l1. split_and!; auto.
  - destruct S as (? & C1 & S). exists (inr e), st1, l1. split_and!; auto; apply C1.
  - destruct S as (C1 & Hne & S).
    destruct (IH st1 C1 F) as (res & st2 & l2 & E2 & A2 & X2 & B2 & U2 & H2 & S2);
      [intros; apply Hin; by right|].
    exists res, st2, (l1 ++ l2). rewrite E2, A2, A. split_and!; auto;
      rewrite ?app_assoc, <- ?A, <- ?A2; auto.
Qed.
End RunFacts.

(** ** No starvation *)

Section Starvation.
Context {T : Type} (r : Router) (on_success : tracker -> string -> tracker)
  (env : nat -> string -> event T).

(** Every call fails, in a way that is the provider's fault, and the caller
    never hangs up. *)
Definition all_sick : Prop :=
  forall k p, ev_ctx_before (env k p) = None /\
    exists e, ev_result (env k p) = inr e /\ classDisposition (classOf e) <> dispositionFail.

Lemma tryProvider_leaves_room fuel name reserved st :
  all_sick -> 0 <= reserved -> used st + 1 + reserved <= MaxAttempts (rt_opts r) ->
  (Z.to_nat (MaxAttempts (rt_opts r) - used st) < fuel)%nat ->
  exists st' l,
    tryProvider r on_success env fuel name reserved st = Some (NextProvider, st') /\
    attempts st' = attempts st ++ l /\
    (exists a, a ∈ l /\ AttemptProvider a = name) /\
    used st < used st' /\ used st' + reserved <= MaxAttempts (rt_opts r).
Proof.
  intros S Hr. revert st; induction fuel as [|fuel IH]; intros st Hu F; [lia|]. simpl.
  rewrite (proj2 (Z.leb_gt _ _)) by lia.
  destruct (S (Z.to_nat (used st)) name) as (-> & err & -> & D).
  rewrite (bool_decide_eq_false_2 (classOf err = ErrClassCanceled))
    by (intros E; rewrite E in D; done).
  rewrite andb_false_r. destruct (classDisposition (classOf err)); [done| |].
  - case_match eqn:Hroom; bool_to_prop; simpl in *.
    + eexists _, _. split; [done|]. split; [done|]. split; [|simpl; lia].
      eexists. split; [by apply list_elem_of_here|done].
    + destruct (IH (waited r (failed name err (ev_clock (env (Z.to_nat (used st)) name)) st)
        (ev_draw (env (Z.to_nat (used st)) name)))) as (st' & l & E & A & X & B);
        [simpl; lia|simpl; lia|].
      exists st', (mkAttempt name (Some (classOf err)) (Some err) :: l).
      split; [done|]. split; [rewrite A; simpl; by rewrite <- app_assoc|].
      simpl in B. split; [|lia].
      eexists. split; [by apply list_elem_of_here|done].
  - eexists _, _. split; [done|]. split; [done|]. split; [|simpl; lia].
    eexists. split; [by apply list_elem_of_here|done].
Qed.

Lemma walkChain_reaches_all fuel order st :
  all_sick -> (forall p, p ∈ order -> p ∈ rt_names r) ->
  0 <= used st -> used st + Z.of_nat (length order) <= MaxAttempts (rt_opts r) ->
  (Z.to_nat (MaxAttempts (rt_opts r)) < fuel)%nat ->
  exists e st' l,
    walkChain r on_success env fuel order st = Some (inr e, st') /\
    attempts st' = attempts st ++ l /\
    forall p, p ∈ order -> exists a, a ∈ l /\ AttemptProvider a = p.
Proof.
  intros S. revert st; induction order as [|name order IH]; intros st Hin H0 Hu F; simpl.
  { eexists _, st, []. rewrite app_nil_r. split_and!; try done. by intros p ?%elem_of_nil. }
  rewrite bool_decide_eq_true_2 by (apply Hin; by left). rewrite length_cons in Hu.
  destruct (tryProvider_leaves_room fuel name (Z.of_nat (length order)) st S)
    as (st1 & l1 & -> & A & (a & Ha & Hn) & B); [lia|lia|lia|].
  destruct (IH st1) as (e & st2 & l2 & E2 & A2 & X2); [by intros; apply Hin; right|lia|lia|lia|].
  exists e, st2, (l1 ++ l2). rewrite E2, A2, A, app_assoc. split_and!; try done.
  intros p [->|Hp]%elem_of_cons.
  - exists a. split; [apply elem_of_app; by left|done].
  - destruct (X2 p Hp) as (b & Hb & ?). exists b. split; [apply elem_of_app; by right|done].
Qed.
End Starvation.

(** ** The order handed to the loop *)

Lemma availableFrom_subset chain h clk now p :
  p ∈ (availableFrom chain h clk now).1 -> p ∈ chain.
Proof.
  revert h; induction chain as [|q chain IH]; intros h; simpl; [done|].
  destruct (Available_opt h clk q now) as [ok h1].
  specialize (IH h1). destruct (availableFrom chain h1 clk now) as [out h2]. simpl in *.
  destruct ok; rewrite ?elem_of_cons; naive_solver.
Qed.

Lemma Order_subset sel chain h clk now p :
  p ∈ (Order sel chain h clk now).1.1 -> p ∈ chain.
Proof.
  rewrite Order_out. cbv zeta. destruct sel.
  - apply availableFrom_subset.
  - rewrite SortStableFunc_perm. intros (rk & -> & Hr)%list_elem_of_fmap.
    apply list_elem_of_fmap in Hr as (q & -> & Hq).
    apply availableFrom_subset in Hq. by destruct (availableFrom _ _ _ _) as [? [?|]].
  - intros (i & _ & Hi)%list_elem_of_omap. apply list_elem_of_lookup_2 in Hi.
    by apply availableFrom_subset in Hi.
Qed.

(** The tracker after selection: [Order] may have claimed probes. *)
Definition selected (r : Router) (sel : Selector) (h : tracker) (clk : Time) : tracker :=
  default h (Order sel (rt_names r) (Some h) clk clk).1.2.

Definition selection (r : Router) (sel : Selector) (h : tracker) (clk : Time) : list string :=
  (Order sel (rt_names r) (Some h) clk clk).1.1.

Lemma init_coherent {T} r (on_success : tracker -> string -> tracker)
    (env : nat -> string -> event T) h :
  0 <= MaxAttempts (rt_opts r) -> coherent r on_success env h (mkRun 0 None h [] []).
Proof. intros H. by split. Qed.

(** Everything the loop guarantees, in one place. *)
Lemma runChain_spec {T} r on_success (env : nat -> string -> event T) sel h clk :
  0 <= MaxAttempts (rt_opts r) ->
  exists res st sel',
    runChain r on_success env sel h clk = Some (res, st, sel') /\
    used st <= MaxAttempts (rt_opts r) /\
    used st = Z.of_nat (length (attempts st)) /\
    follows (selection r sel h clk) (attempts st) /\
    health st = charge on_success env 0 (attempts st) (selected r sel h clk) /\
    (selection r sel h clk <> [] -> explains r env res (attempts st)) /\
    (selection r sel h clk = [] -> res = inr (noHealthyProvider r) /\ attempts st = []).
Proof.
  intros Hm. unfold runChain, selection, selected.
  pose proof (Order_subset sel (rt_names r) (Some h) clk clk) as Hsub.
  destruct (Order sel (rt_names r) (Some h) clk clk) as [[order h'] sel'] eqn:O. simpl in *.
  destruct order as [|p order].
  - eexists _, _, _. split; [done|]. simpl. split_and!; done || constructor.
  - destruct (walkChain_spec r on_success env (default h h') (walk_fuel r) (p :: order)
      (mkRun 0 None (default h h') [] [])) as (res & st & l & E & A & X & B & U & H & F);
      [by apply init_coherent|unfold walk_fuel; lia|done|].
    rewrite E. exists res, st, sel'. simpl in A. subst l. split_and!; auto. done.
Qed.

(** ** Lemmas on construction and the timed reader *)

Lemma addProviders_spec chain names :
  NoDup names ->
  match addProviders chain names with
  | inr out => out = names ++ chain /\ NoDup out
  | inl e => exists p, e = DuplicateProvider p /\ ~ NoDup (names ++ chain)
  end.
Proof.
  revert names; induction chain as [|p chain IH]; intros names N; simpl.
  { by rewrite app_nil_r. }
  case_bool_decide as Hp.
  - exists p. split; [done|]. intros D%NoDup_app. destruct D as (_ & D & _).
    by apply (D p Hp); left.
  - specialize (IH (names ++ [p])). rewrite <- app_assoc in IH. simpl in IH.
    apply IH. apply NoDup_app. split_and!; [done| |by apply NoDup_singleton].
    intros x Hx ->%list_elem_of_singleton. done.
Qed.

(** Whether a read carries a token rather than a keepalive or an error. *)
Definition is_token (g : StreamChunk + goerror) : bool :=
  match g with inl c => negb (Keepalive c) | inr _ => false end.

(** The health a stream reports: what the tracker receives from the reads. *)
Lemma timed_run_recorded t h got :
  tr_recorded t = true -> timed_run t h got = (t, h).
Proof.
  intros R. induction got as [|[[c|e] w] got IH]; simpl; [done| |by rewrite IH].
  by rewrite R.
Qed.

Lemma backoffDelay_bounds o n :
  0 < MaxRetryDelay o -> 0 < backoffDelay o n <= MaxRetryDelay o.
Proof.
  intros H. unfold backoffDelay. destruct (_ || _) eqn:E; bool_to_prop; lia.
Qed.

(** ** Properties *)

(** (C9) The attempt loop terminates for every chain, strategy and behaviour of
    the world, it makes at most [MaxAttempts] upstream calls for one client
    request, and it records every one of them. *)
Theorem chain_bounded {T} r on_success (env : nat -> string -> event T) sel h clk :
  0 <= MaxAttempts (rt_opts r) ->
  exists res st sel',
    runChain r on_success env sel h clk = Some (res, st, sel') /\
    Z.of_nat (length (attempts st)) <= MaxAttempts (rt_opts r) /\
    used st = Z.of_nat (length (attempts st)).
Proof.
  intros Hm. destruct (runChain_spec r on_success env sel h clk Hm)
    as (res & st & sel' & E & B & U & _).
  exists res, st, sel'. split_and!; done || lia.
Qed.

(** The world of the witnesses: every provider answers with a gateway error
    until call number 2, which succeeds. *)
Definition third_time_lucky (k : nat) (p : string) : event string :=
  mkEvent None
    (if decide (k = 2)%nat then inl ("answer of " ++ p)%string
     else inr (ErrProvider p ErrClassUpstream 503 "upstream is melting" None))
    None (100 + Z.of_nat k) 12345.

Definition demo_router : Router := mkRouter "auto" ["groq"; "mistral"]%string
  (withDefaults two_strikes).

Lemma chain_bounded_witness :
  exists res st sel',
    Chat demo_router third_time_lucky prioritySelector (NewHealth two_strikes) 100
      = Some (res, st, sel') /\
    Z.of_nat (length (attempts st)) <= 3 /\ used st = Z.of_nat (length (attempts st)).
Proof. apply (chain_bounded demo_router). vm_compute. discriminate. Defined.

(** (C8) The attempts follow the failure policy: they visit the selected order
    left to right without skipping or returning, retry a provider only after a
    transient failure (upstream or timeout), fail over only when the failure
    is not the caller's own, and stop at a success, a rejected payload or a
    cancellation. *)
Theorem attempts_follow_policy {T} r on_success (env : nat -> string -> event T) sel h clk
    res st sel' :
  0 <= MaxAttempts (rt_opts r) ->
  runChain r on_success env sel h clk = Some (res, st, sel') ->
  follows (selection r sel h clk) (attempts st).
Proof.
  intros Hm E. destruct (runChain_spec r on_success env sel h clk Hm)
    as (res' & st' & sel'' & E' & _ & _ & F & _). by simplify_eq.
Qed.

Lemma attempts_follow_policy_witness :
  follows ["groq"; "mistral"]%string
    (match Chat demo_router third_time_lucky prioritySelector (NewHealth two_strikes) 100 with
     | Some (_, st, _) => attempts st
     | None => []
     end).
Proof.
  eapply (attempts_follow_policy demo_router (fun h p => RecordSuccess h p 0) third_time_lucky
    prioritySelector (NewHealth two_strikes) 100).
  - vm_compute. discriminate.
  - vm_compute. reflexivity.
Defined.

(** (C10) No starvation: when the attempt budget covers the selected order, a
    run in which every provider keeps failing (retryably or not) still calls
    every one of them before it gives up, because one attempt is reserved for
    each provider not tried yet. *)
Theorem no_peer_starved {T} r on_success (env : nat -> string -> event T) sel h clk :
  all_sick env ->
  Z.of_nat (length (selection r sel h clk)) <= MaxAttempts (rt_opts r) ->
  exists e st sel',
    runChain r on_success env sel h clk = Some (inr e, st, sel') /\
    forall p, p ∈ selection r sel h clk ->
      exists a, a ∈ attempts st /\ AttemptProvider a = p.
Proof.
  intros S Hl. unfold runChain, selection in *.
  pose proof (Order_subset sel (rt_names r) (Some h) clk clk) as Hsub.
  destruct (Order sel (rt_names r) (Some h) clk clk) as [[order h'] sel'] eqn:O. simpl in *.
  destruct order as [|p order]; [eexists _, _, _; split; [done|by intros p ?%elem_of_nil]|].
  destruct (walkChain_reaches_all r on_success env (walk_fuel r) (p :: order)
    (mkRun 0 None (default h h') [] [])) as (e & st & l & E & A & X);
    [done|done|simpl; lia|simpl in *; lia|unfold walk_fuel; lia|].
  exists e, st, sel'. rewrite E. simpl in A. subst l. done.
Qed.

Definition always_down (k : nat) (p : string) : event string :=
  mkEvent None (inr (ErrProvider p ErrClassTimeout 0 "deadline" None)) None 100 7.

Lemma no_peer_starved_witness :
  exists e st sel',
    Chat demo_router always_down prioritySelector (NewHealth two_strikes) 100
      = Some (inr e, st, sel') /\
    forall p, p ∈ ["groq"; "mistral"]%string ->
      exists a, a ∈ attempts st /\ AttemptProvider a = p.
Proof.
  apply (no_peer_starved demo_router (fun h p => RecordSuccess h p 0) always_down
    prioritySelector (NewHealth two_strikes) 100).
  - intros k p. split; [done|]. eexists. split; [done|]. discriminate.
  - vm_compute. discriminate.
Defined.

(** The caller sees the freshest evidence: a success is what the last
    recorded call returned, a failure is the error of the last recorded call
    (or the caller's own cancellation found before the next one), and a chain
    with nobody available fails without a single call. *)
Theorem result_is_last_answer {T} r on_success (env : nat -> string -> event T) sel h clk
    res st sel' :
  0 <= MaxAttempts (rt_opts r) ->
  runChain r on_success env sel h clk = Some (res, st, sel') ->
  (selection r sel h clk <> [] -> explains r env res (attempts st)) /\
  (selection r sel h clk = [] -> res = inr (noHealthyProvider r) /\ attempts st = []).
Proof.
  intros Hm E. destruct (runChain_spec r on_success env sel h clk Hm)
    as (res' & st' & sel'' & E' & _ & _ & _ & _ & X). by simplify_eq.
Qed.

Lemma result_is_last_answer_witness :
  explains demo_router third_time_lucky
    (inl "answer of mistral"%string : string + goerror)
    (match Chat demo_router third_time_lucky prioritySelector (NewHealth two_strikes) 100 with
     | Some (_, st, _) => attempts st
     | None => []
     end).
Proof.
  eapply (result_is_last_answer demo_router (fun h p => RecordSuccess h p 0) third_time_lucky
    prioritySelector (NewHealth two_strikes) 100).
  - vm_compute. discriminate.
  - vm_compute. reflexivity.
  - vm_compute. discriminate.
Defined.

(** Health is charged with exactly the recorded attempts: the tracker
    after the run is the one selection left, with one [RecordFailure] per
    attempt whose class counts against the provider, and nothing for the
    others (a success is handed to the caller's hook). *)
Theorem health_charged_exactly {T} r on_success (env : nat -> string -> event T) sel h clk
    res st sel' :
  0 <= MaxAttempts (rt_opts r) ->
  runChain r on_success env sel h clk = Some (res, st, sel') ->
  health st = charge on_success env 0 (attempts st) (selected r sel h clk).
Proof.
  intros Hm E. destruct (runChain_spec r on_success env sel h clk Hm)
    as (res' & st' & sel'' & E' & _ & _ & _ & X & _). by simplify_eq.
Qed.

Lemma health_charged_exactly_witness :
  match Chat demo_router third_time_lucky prioritySelector (NewHealth two_strikes) 100 with
  | Some (_, st, _) =>
      health st = charge (fun h p => RecordSuccess h p 0) third_time_lucky 0 (attempts st)
                    (NewHealth two_strikes)
  | None => False
  end.
Proof.
  eapply (health_charged_exactly demo_router (fun h p => RecordSuccess h p 0) third_time_lucky
    prioritySelector (NewHealth two_strikes) 100).
  - vm_compute. discriminate.
  - vm_compute. reflexivity.
Defined.

(** A backoff never panics, never sleeps a negative time and never
    outlives its cap, for every attempt number and every random draw, the
    64-bit overflow of the exponential step included. *)
Theorem backoff_bounded o attempt draw :
  0 < MaxRetryDelay o < max_int64 ->
  exists d, backoff o attempt draw = Some d /\ 0 <= d <= MaxRetryDelay o.
Proof.
  intros H. pose proof (backoffDelay_bounds o attempt ltac:(lia)) as B.
  unfold backoff, Int64N. rewrite wrap64_id by (unfold is_int64, min_int64; lia).
  rewrite (proj2 (Z.leb_gt _ _)) by lia.
  eexists. split; [done|]. pose proof (Z.mod_pos_bound draw (backoffDelay o attempt + 1)). lia.
Qed.

Lemma backoff_bounded_witness :
  exists d, backoff (withDefaults two_strikes) 60 (- 5) = Some d /\
            0 <= d <= MaxRetryDelay (withDefaults two_strikes).
Proof. apply backoff_bounded. vm_compute. split; reflexivity. Defined.

(** Construction: [New] accepts exactly the non-empty chains without
    duplicates that come with a health tracker and a selector, and keeps their
    configured order. *)
Theorem New_accepts name chain h sel o :
  (exists r, New name chain h sel o = inr r /\ rt_names r = chain /\
             0 < MaxAttempts (rt_opts r)) <->
  chain <> [] /\ NoDup chain /\ is_Some h /\ is_Some sel.
Proof.
  pose proof (addProviders_spec chain [] (NoDup_nil_2)) as A. simpl in A.
  unfold New. destruct chain as [|p chain]; [naive_solver|].
  destruct h as [h|]; [|split; [naive_solver|intros (_ & _ & [] & _); done]].
  destruct sel as [sel|]; [|split; [naive_solver|intros (_ & _ & _ & []); done]].
  destruct (addProviders (p :: chain) []) as [e|names].
  - destruct A as (q & -> & N). split; [naive_solver|]. intros (_ & D & _). done.
  - destruct A as [-> N]. split; [intros _; done|]. intros _. eexists. split_and!; [done|done|].
    simpl. case_match; bool_to_prop; [reflexivity|lia].
Qed.

(** A stream credits its provider once: whatever the reads return, the
    tracker receives one success, at the first chunk that is not a keepalive,
    and none if no such chunk arrives. *)
Theorem timed_reader_records_once p start h got :
  (timed_run (mkTimed p start false) h got).2 =
  match list_find (fun g => is_token g.1 = true) got with
  | Some (_, (_, wall)) => RecordSuccess h p (time_Sub wall start)
  | None => h
  end.
Proof.
  induction got as [|[[c|e] wall] got IH]; simpl; [done| |].
  - destruct (Keepalive c) eqn:K; simpl.
    + rewrite IH. by destruct (list_find _ got) as [[i [g w]]|].
    + by rewrite timed_run_recorded.
  - rewrite IH. by destruct (list_find _ got) as [[i [g w]]|].
Qed.

(** A probe that selection claims and the loop never uses locks the
    provider out: with a healthy leader ahead of it, a provider whose breaker
    is ready for its half-open probe has the probe claimed by a request that
    never calls it, so when the leader fails a moment later the chain has
    nobody else to try until the stall timeout. *)
Theorem unused_probe_locks_out :
  let o := two_strikes in
  let fail t p now := RecordFailure t 0 p ErrClassUpstream 0 now in
  let h0 := fail (fail (NewHealth o) "mistral"%string 5) "mistral"%string 6 in
  let now := 40 * Second in
  let groq_ok := fun (_ : nat) (p : string) =>
    mkEvent None (inl p : string + goerror) None now 0 in
  match Chat demo_router groq_ok prioritySelector h0 now with
  | Some (inl winner, st, _) =>
      winner = "groq"%string /\
      map AttemptProvider (attempts st) = ["groq"%string] /\
      selection demo_router prioritySelector h0 now = ["groq"; "mistral"]%string /\
      selection demo_router prioritySelector (health st) (now + Minute) = ["groq"%string]
  | _ => False
  end.
Proof. vm_compute. repeat split. Qed.
