(* ===== verification/Sse.v ===== *)
(** * Server-sent events (internal/providers/sse.go, and the frame writer of
      internal/ingress/handlers.go)

    A body is the bytes still unread and the error the transport reports after
    them ([io.EOF] when it simply ends); the error is sticky, as it is for a
    closed or finished body.  [ReadSlice] is bufio's over its 4096-byte buffer,
    so a long line arrives in pieces, charged piece by piece against the
    per-event budget. *)

From Stdlib Require Import ZArith Lia String Ascii.
From stdpp Require Import base list strings numbers.
From S2P Require Import Prelude GoString Providers.

Local Open Scope Z_scope.

Abbreviation bytes_ := (list ascii) (only parsing).

Definition LF : ascii := ascii_of_nat 10.
Definition CR : ascii := ascii_of_nat 13.
Definition lf_ (c : ascii) : bool := Ascii.eqb c LF.

(** ** Data *)

Definition MaxSSEEventBytes : Z := 2 ^ 20.
Definition bufferSize : nat := 4096.

Record SSEEvent := mkEvent {
  Name : string;
  EvData : string;
  HasData : bool;
  EvKeepalive : bool
}.

Definition zeroEvent : SSEEvent := mkEvent "" "" false false.

Record body := mkBody { unread : bytes_; ends_with : goerror }.

(** ** Lines *)

(** At most [n] bytes, up to and including the first newline. *)
Fixpoint take_line (n : nat) (s : bytes_) : bytes_ * bytes_ * bool :=
  match n, s with
  | S n, c :: s =>
      if lf_ c then ([c], s, true)
      else let '(p, r, found) := take_line n s in (c :: p, r, found)
  | _, _ => ([], s, false)
  end.

Inductive slice_end := SliceFound | SliceFull | SliceErr.

(** [bufio.Reader.ReadSlice('\n')]. *)
Definition ReadSlice (s : bytes_) : bytes_ * bytes_ * slice_end :=
  let '(p, r, found) := take_line bufferSize s in
  (p, r, if found then SliceFound
         else if (length p =? bufferSize)%nat then SliceFull else SliceErr).

Inductive line_result :=
| LineOk (line : bytes_)                 (* a whole line, its terminator included *)
| LineEnd (line : bytes_) (err : goerror) (* the body ended after these bytes *)
| LineTooLarge.

(** [readLine]: one line, charged against [remaining]. *)
Fixpoint readLine_loop (fuel : nat) (b : body) (acc : bytes_) (remaining : Z)
    : line_result * body * Z :=
  match fuel with
  | O => (LineTooLarge, b, remaining)
  | S fuel =>
      let '(chunk, rest, how) := ReadSlice (unread b) in
      let b := mkBody rest (ends_with b) in
      let remaining := remaining - Z.of_nat (length chunk) in
      if remaining <? 0 then (LineTooLarge, b, remaining)
      else
        let line := acc ++ chunk in
        match how with
        | SliceFull => readLine_loop fuel b line remaining
        | SliceFound => (LineOk line, b, remaining)
        | SliceErr => (LineEnd line (ends_with b), b, remaining)
        end
  end.

Definition readLine (b : body) (remaining : Z) : line_result * body * Z :=
  readLine_loop (S (length (unread b))) b [] remaining.

(** ** Events *)

(** [strings.TrimRight(line, "\r\n")]. *)
Fixpoint trim_eol (s : bytes_) : bytes_ :=
  match s with
  | [] => []
  | c :: s =>
      match trim_eol s with
      | [] => if lf_ c || Ascii.eqb c CR then [] else [c]
      | t => c :: t
      end
  end.

Definition str (s : bytes_) : string := string_of_list_ascii s.

Definition sseDataPrefix : string := "data:".
Definition sseEventPrefix : string := "event:".

Definition fieldValue (line prefix : string) : string :=
  TrimPrefix (TrimPrefix line prefix) " ".

(** [strings.Join(data, "\n")]. *)
Fixpoint join_lf (l : list string) : string :=
  match l with
  | [] => ""
  | [s] => s
  | s :: l => s +:+ String LF (join_lf l)
  end.

(** What one non-empty line does to the event being built. *)
Inductive line_effect :=
| Emit (ev : SSEEvent)
| Building (name : string) (has : bool) (data : list string) (remaining : Z).

Definition onLine (line : bytes_) (name : string) (has : bool) (data : list string)
    (remaining : Z) : line_effect :=
  let trimmed := str (trim_eol line) in
  if bool_decide (trimmed = ""%string) then
    if has || negb (bool_decide (name = ""%string))
    then Emit (mkEvent name (join_lf data) has false)
    else Building name has data MaxSSEEventBytes
  else if HasPrefix trimmed ":" then
    if negb has && bool_decide (name = ""%string)
    then Emit (mkEvent "" "" false true)
    else Building name has data remaining
  else if HasPrefix trimmed sseDataPrefix then
    Building name true (data ++ [fieldValue trimmed sseDataPrefix]) remaining
  else if HasPrefix trimmed sseEventPrefix then
    Building (fieldValue trimmed sseEventPrefix) has data remaining
  else Building name has data remaining.

Fixpoint next_loop (fuel : nat) (b : body) (name : string) (has : bool) (data : list string)
    (remaining : Z) : (SSEEvent + goerror) * body :=
  match fuel with
  | O => (inr (ends_with b), b)
  | S fuel =>
      let '(res, b, remaining) := readLine b remaining in
      let '(line, err) := match res with
                          | LineOk line => (line, None)
                          | LineEnd line e => (line, Some e)
                          | LineTooLarge => ([], Some (ErrSentinel SSEEventTooLarge))
                          end in
      let eff := match line with
                 | [] => Building name has data remaining
                 | _ => onLine line name has data remaining
                 end in
      match eff with
      | Emit ev => (inl ev, b)
      | Building name has data remaining =>
          match err with
          | Some e => (inr e, b)
          | None => next_loop fuel b name has data remaining
          end
      end
  end.

(** [Next]: every turn of the loop but the last consumes a byte, so the length
    of the body bounds the turns. *)
Definition Next (b : body) : (SSEEvent + goerror) * body :=
  next_loop (S (length (unread b))) b "" false [] MaxSSEEventBytes.

(** ** Writing frames *)

Definition ssePrefix : bytes_ := list_ascii_of_string "data: ".
Definition sseTerminator : bytes_ := [LF; LF].
Definition sseKeepaliveFrame : bytes_ := list_ascii_of_string ": keep-alive" ++ [LF; LF].
Definition sseDoneFrame : bytes_ := list_ascii_of_string "data: [DONE]" ++ [LF; LF].

Definition sseFrame (data : bytes_) : bytes_ := ssePrefix ++ data ++ sseTerminator.

(** ** Lines, without the buffer *)

(** The first line of [s], its newline included, and the rest. *)
Fixpoint split_line (s : bytes_) : bytes_ * bytes_ * bool :=
  match s with
  | [] => ([], [], false)
  | c :: s =>
      if lf_ c then ([c], s, true)
      else let '(p, r, found) := split_line s in (c :: p, r, found)
  end.

(** [readLine], as its contract states it. *)
Definition spec_readLine (b : body) (remaining : Z) : line_result :=
  let '(line, rest, found) := split_line (unread b) in
  if remaining <? Z.of_nat (length line) then LineTooLarge
  else if found then LineOk line else LineEnd line (ends_with b).

(** ** Reading lines *)

Lemma take_line_spec n s :
  let '(p, r, found) := take_line n s in
  s = p ++ r /\ (length p <= n)%nat /\
  if found then split_line s = (p, r, true)
  else if (length p =? n)%nat
       then split_line s = (let '(p', r', f) := split_line r in (p ++ p', r', f))
       else r = [] /\ split_line s = (s, [], false).
Proof.
  revert s. induction n as [|n IH]; intros s.
  - cbn. split; [done|]. split; [lia|]. by destruct (split_line s) as [[p r] f].
  - destruct s as [|c s]; simpl; [split; [done|]; split; [lia|done]|].
    destruct (lf_ c) eqn:L; simpl; [split; [done|]; split; [lia|done]|].
    specialize (IH s). destruct (take_line n s) as [[p r] found]. destruct IH as (E & Hl & IH).
    simpl. split; [by f_equal|]. split; [lia|]. destruct found; [by rewrite IH|].
    destruct (length p =? n)%nat.
    + rewrite IH. by destruct (split_line r) as [[p' r'] f].
    + destruct IH as [-> IH]. by rewrite IH.
Qed.

Lemma split_line_spec s :
  let '(p, r, found) := split_line s in
  s = p ++ r /\ (if found then p <> [] else r = []).
Proof.
  induction s as [|c s IH]; simpl; [done|]. destruct (lf_ c); [done|].
  destruct (split_line s) as [[p r] found]. destruct IH as [E IH]. simpl.
  split; [by f_equal|]. by destruct found.
Qed.

Lemma readLine_loop_spec fuel b acc remaining :
  (length (unread b) < fuel)%nat ->
  let '(line, rest, found) := split_line (unread b) in
  (readLine_loop fuel b acc remaining).1.1
  = (if remaining <? Z.of_nat (length line) then LineTooLarge
     else if found then LineOk (acc ++ line) else LineEnd (acc ++ line) (ends_with b)) /\
  (Z.of_nat (length line) <= remaining ->
   (readLine_loop fuel b acc remaining).1.2 = mkBody rest (ends_with b) /\
   (readLine_loop fuel b acc remaining).2 = remaining - Z.of_nat (length line)).
Proof.
  revert b acc remaining. induction fuel as [|fuel IH]; intros b acc remaining Hf; [lia|].
  cbn [readLine_loop]. unfold ReadSlice.
  pose proof (take_line_spec bufferSize (unread b)) as T.
  destruct (take_line bufferSize (unread b)) as [[p r] found] eqn:E. destruct T as (Es & Hl & T).
  cbn [ends_with]. destruct found.
  - rewrite T. destruct (remaining - Z.of_nat (length p) <? 0) eqn:X; bool_to_prop.
    + replace (remaining <? _) with true by (symmetry; apply Z.ltb_lt; lia). simpl. split; [done|lia].
    + replace (remaining <? _) with false by (symmetry; apply Z.ltb_ge; lia). done.
  - destruct (length p =? bufferSize)%nat eqn:F.
    + rewrite T. destruct (split_line r) as [[p' r'] f] eqn:S. rewrite length_app.
      destruct (remaining - Z.of_nat (length p) <? 0) eqn:X; bool_to_prop.
      * replace (remaining <? _) with true by (symmetry; apply Z.ltb_lt; lia). simpl.
        split; [done|lia].
      * apply Nat.eqb_eq in F.
        assert (Hr : (length r < fuel)%nat).
        { rewrite Es, length_app in Hf. unfold bufferSize in F. lia. }
        specialize (IH (mkBody r (ends_with b)) (acc ++ p) (remaining - Z.of_nat (length p)) Hr).
        cbn [unread ends_with] in IH. rewrite S in IH. destruct IH as [IH1 IH2].
        rewrite IH1, <- !app_assoc.
        replace (remaining - Z.of_nat (length p) <? Z.of_nat (length p'))
          with (remaining <? Z.of_nat (length p + length p')).
        2:{ destruct (remaining <? _) eqn:A, (remaining - _ <? _) eqn:B; bool_to_prop; done || lia. }
        split; [done|]. intros Hle. destruct IH2 as [-> ->]; [lia|]. split; [done|]. lia.
    + destruct T as [-> T]. rewrite T. rewrite app_nil_r in Es.
      rewrite Es. destruct (remaining - Z.of_nat (length p) <? 0) eqn:X; bool_to_prop.
      * replace (remaining <? _) with true by (symmetry; apply Z.ltb_lt; lia). simpl. split; [done|lia].
      * replace (remaining <? _) with false by (symmetry; apply Z.ltb_ge; lia). done.
Qed.

Lemma readLine_spec b remaining :
  let '(line, rest, found) := split_line (unread b) in
  (readLine b remaining).1.1 = spec_readLine b remaining /\
  (Z.of_nat (length line) <= remaining ->
   readLine b remaining
   = (if found then LineOk line else LineEnd line (ends_with b), mkBody rest (ends_with b),
      remaining - Z.of_nat (length line))).
Proof.
  unfold readLine, spec_readLine.
  pose proof (readLine_loop_spec (S (length (unread b))) b [] remaining ltac:(lia)) as R.
  destruct (split_line (unread b)) as [[line rest] found]. destruct R as [R1 R2].
  split; [exact R1|]. intros Hle. destruct (R2 Hle) as [R3 R4].
  replace (remaining <? Z.of_nat (length line)) with false in R1
    by (symmetry; apply Z.ltb_ge; lia).
  destruct (readLine_loop _ b [] remaining) as [[res b'] rem']; simpl in *. by subst.
Qed.

(** ** Lines and frames *)

Lemma split_line_app l s :
  (forall c, c ∈ l -> lf_ c = false) -> split_line (l ++ LF :: s) = (l ++ [LF], s, true).
Proof.
  induction l as [|c l IH]; intros Hl; simpl; [done|].
  rewrite Hl by left. rewrite IH; [done|]. intros; apply Hl; by right.
Qed.

Lemma trim_eol_lf l : trim_eol (l ++ [LF]) = trim_eol l.
Proof. induction l as [|c l IH]; simpl; [done|]. by rewrite IH. Qed.

Lemma trim_eol_app l d : trim_eol d = d -> d <> [] -> trim_eol (l ++ d) = l ++ d.
Proof.
  intros Hd Hne. induction l as [|c l IH]; simpl; [done|]. rewrite IH.
  destruct (l ++ d) eqn:E; [|done]. apply app_eq_nil in E as [_ E]. done.
Qed.

Lemma str_app a b : str (a ++ b) = str a +:+ str b.
Proof. induction a as [|c a IH]; simpl; [done|]. by rewrite IH. Qed.

Lemma TrimPrefix_app p s : TrimPrefix (p +:+ s) p = s.
Proof. unfold TrimPrefix. by rewrite (proj2 (CutPrefix_Some (p +:+ s) p s)). Qed.

Lemma HasPrefix_app p s : HasPrefix (p +:+ s) p = true.
Proof. apply HasPrefix_CutPrefix. exists s. by apply CutPrefix_Some. Qed.

Lemma next_loop_line fuel l s e name has data remaining :
  (forall c, c ∈ l -> lf_ c = false) -> Z.of_nat (length l) + 1 <= remaining ->
  next_loop (S fuel) (mkBody (l ++ LF :: s) e) name has data remaining
  = match onLine (l ++ [LF]) name has data (remaining - (Z.of_nat (length l) + 1)) with
    | Emit ev => (inl ev, mkBody s e)
    | Building name has data remaining => next_loop fuel (mkBody s e) name has data remaining
    end.
Proof.
  intros Hl Hr. cbn [next_loop].
  pose proof (readLine_spec (mkBody (l ++ LF :: s) e) remaining) as R. cbn [unread ends_with] in R.
  rewrite split_line_app in R by done. destruct R as [_ R].
  rewrite R by (rewrite length_app; simpl; lia).
  replace (Z.of_nat (length (l ++ [LF]))) with (Z.of_nat (length l) + 1)
    by (rewrite length_app; simpl; lia).
  destruct (l ++ [LF]) as [|c l'] eqn:E; [by destruct l|]. done.
Qed.

(** A payload one [data] line can carry: no newline, no trailing carriage
    return, and room in the budget for its frame. *)
Definition framable (d : bytes_) : Prop :=
  (forall c, c ∈ d -> lf_ c = false) /\ trim_eol d = d /\
  Z.of_nat (length d) + 8 <= MaxSSEEventBytes.

Lemma ssePrefix_str d : str (ssePrefix ++ d) = sseDataPrefix +:+ (" " +:+ str d).
Proof. by rewrite str_app. Qed.

Lemma frame_line d name data remaining :
  framable d ->
  onLine ((ssePrefix ++ d) ++ [LF]) name false data remaining
  = Building name true (data ++ [str d]) remaining.
Proof.
  intros (_ & Ht & _). unfold onLine. rewrite trim_eol_lf.
  assert (E : trim_eol (ssePrefix ++ d) = ssePrefix ++ d).
  { destruct d as [|c d]; [done|]. by apply trim_eol_app. }
  rewrite E, ssePrefix_str. rewrite bool_decide_false by done.
  replace (HasPrefix (sseDataPrefix +:+ " " +:+ str d) ":") with false by done.
  rewrite HasPrefix_app. unfold fieldValue. by rewrite !TrimPrefix_app.
Qed.

Lemma blank_line name data remaining :
  onLine [LF] name true data remaining = Emit (mkEvent name (join_lf data) true false).
Proof. done. Qed.

Lemma next_frame d rest e :
  framable d ->
  Next (mkBody (sseFrame d ++ rest) e) = (inl (mkEvent "" (str d) true false), mkBody rest e).
Proof.
  intros F. pose proof F as (Hn & _ & Hlen). unfold Next, sseFrame, sseTerminator.
  replace ((ssePrefix ++ d ++ [LF; LF]) ++ rest) with ((ssePrefix ++ d) ++ LF :: ([] ++ LF :: rest))
    by by rewrite <- !app_assoc.
  cbn [unread]. rewrite (length_app _ (LF :: _)). cbn [length app]. rewrite Nat.add_succ_r.
  rewrite next_loop_line.
  - rewrite frame_line by done. rewrite Nat.add_succ_r.
    change (mkBody (LF :: rest) e) with (mkBody ([] ++ LF :: rest) e).
    rewrite (next_loop_line _ []); [done|by intros c Hc%not_elem_of_nil|].
    rewrite length_app. simpl length. lia.
  - intros c [Hc|Hc]%elem_of_app; [|by apply Hn].
    unfold ssePrefix in Hc. simpl in Hc.
    repeat (apply elem_of_cons in Hc as [->|Hc]; [done|]). by apply not_elem_of_nil in Hc.
  - rewrite length_app. simpl length. lia.
Qed.

Lemma next_keepalive rest e :
  Next (mkBody (sseKeepaliveFrame ++ rest) e)
  = (inl (mkEvent "" "" false true), mkBody (LF :: rest) e).
Proof.
  unfold Next, sseKeepaliveFrame. rewrite <- app_assoc. cbn [unread app].
  rewrite length_app. rewrite Nat.add_comm. cbn [length Nat.add].
  rewrite next_loop_line; [done| |simpl; unfold MaxSSEEventBytes; lia].
  intros c Hc. simpl in Hc.
  repeat (apply elem_of_cons in Hc as [->|Hc]; [done|]). by apply not_elem_of_nil in Hc.
Qed.

(** A blank line between events costs nothing. *)
Lemma next_skip_blank rest e : Next (mkBody (LF :: rest) e) = Next (mkBody rest e).
Proof.
  unfold Next. cbn [unread length].
  change (mkBody (LF :: rest) e) with (mkBody ([] ++ LF :: rest) e) at 1.
  rewrite (next_loop_line _ [] rest e); [done|by intros c Hc%not_elem_of_nil|].
  simpl; unfold MaxSSEEventBytes; lia.
Qed.

(** ** What an event is worth *)

Lemma str_length l : String.length (str l) = length l.
Proof. induction l as [|c l IH]; simpl; [done|]. by rewrite IH. Qed.

Lemma trim_eol_length l : (length (trim_eol l) <= length l)%nat.
Proof.
  induction l as [|c l IH]; simpl; [done|].
  destruct (trim_eol l); [destruct (_ || _)|]; simpl in *; lia.
Qed.

Lemma CutPrefix_length s p r : CutPrefix s p = Some r ->
  (String.length r + String.length p = String.length s)%nat.
Proof.
  intros E. apply CutPrefix_Some in E. subst s. induction p as [|c p IH].
  - rewrite str_app_nil. simpl. lia.
  - rewrite str_app_cons. simpl. lia.
Qed.

Lemma TrimPrefix_length s p : (String.length (TrimPrefix s p) <= String.length s)%nat.
Proof.
  unfold TrimPrefix. destruct (CutPrefix s p) as [r|] eqn:E; simpl; [|lia].
  apply CutPrefix_length in E. lia.
Qed.

Lemma fieldValue_length s p :
  HasPrefix s p = true -> (String.length (fieldValue s p) + String.length p <= String.length s)%nat.
Proof.
  intros E. apply HasPrefix_CutPrefix in E as [r E]. unfold fieldValue, TrimPrefix at 2.
  rewrite E. simpl. apply CutPrefix_length in E. pose proof (TrimPrefix_length r " "). lia.
Qed.

Lemma join_lf_snoc data v :
  (String.length (join_lf (data ++ [v])) <= String.length (join_lf data) + 1 + String.length v)%nat.
Proof.
  induction data as [|s data IH]; [simpl; lia|].
  destruct data as [|s' data]; simpl in *.
  - rewrite str_app_length. simpl. lia.
  - rewrite !str_app_length. simpl. lia.
Qed.

(** An event under construction is paid for. *)
Definition paid (has : bool) (data : list string) (remaining : Z) : Prop :=
  Z.of_nat (String.length (join_lf data)) + remaining <= MaxSSEEventBytes /\
  (has = false -> data = []).

Lemma onLine_sound line name has data remaining r :
  line <> [] -> r = remaining - Z.of_nat (length line) -> paid has data remaining ->
  match onLine line name has data r with
  | Emit ev => EvKeepalive ev = true \/
      (trim_eol line = [] /\ EvKeepalive ev = false /\ EvData ev = join_lf data)
  | Building _ has' data' r' => paid has' data' r'
  end.
Proof.
  intros Hl -> [P1 P2]. unfold onLine.
  assert (Hle : (String.length (str (trim_eol line)) <= length line)%nat)
    by (rewrite str_length; apply trim_eol_length).
  assert (Hpos : (0 < length line)%nat) by (destruct line; simpl; [congruence|lia]).
  destruct (bool_decide (str (trim_eol line) = ""%string)) eqn:B; bool_to_prop.
  - destruct (has || negb _) eqn:H.
    + right. simpl. split_and!; try done. by destruct (trim_eol line).
    + apply orb_false_iff in H as [-> _]. rewrite P2 by done. by split.
  - destruct (HasPrefix _ ":"); [|destruct (HasPrefix _ sseDataPrefix) eqn:D].
    + destruct (negb has && _); [by left|]. split; [lia|done].
    + split; [|done]. apply fieldValue_length in D. simpl in D.
      pose proof (join_lf_snoc data (fieldValue (str (trim_eol line)) sseDataPrefix)). lia.
    + destruct (HasPrefix _ sseEventPrefix); (split; [lia|done]).
Qed.

Lemma next_loop_sound fuel b name has data remaining ev b' :
  paid has data remaining ->
  next_loop fuel b name has data remaining = (inl ev, b') -> EvKeepalive ev = false ->
  Z.of_nat (String.length (EvData ev)) <= MaxSSEEventBytes /\
  exists pre line, unread b = pre ++ line ++ unread b' /\ line <> [] /\ trim_eol line = [].
Proof.
  revert b name has data remaining. induction fuel as [|fuel IH];
    intros b name has data remaining P E Hk; [done|]. cbn [next_loop] in E.
  pose proof (readLine_spec b remaining) as R. pose proof (split_line_spec (unread b)) as S.
  unfold spec_readLine in R.
  destruct (split_line (unread b)) as [[line rest] found]. destruct S as [Es _].
  destruct R as [R1 R2].
  destruct (decide (Z.of_nat (length line) <= remaining)) as [Hle|Hgt].
  - rewrite R2 in E by done. clear R1 R2.
    assert (Hcase : exists err, (let '(line, err) := match (if found then LineOk line
                      else LineEnd line (ends_with b)) with
                      | LineOk line => (line, None) | LineEnd line e => (line, Some e)
                      | LineTooLarge => ([], Some (ErrSentinel SSEEventTooLarge)) end
                    in (line, err)) = (line, err)) by (destruct found; eauto).
    destruct Hcase as [err Hcase].
    destruct (match (if found then LineOk line else LineEnd line (ends_with b)) with
              | LineOk line => (line, None) | LineEnd line e => (line, Some e)
              | LineTooLarge => ([], Some (ErrSentinel SSEEventTooLarge)) end) as [line0 err0].
    injection Hcase as -> _.
    destruct line as [|c line].
    + destruct err0 as [e0|]; [done|]. simpl in E. rewrite Z.sub_0_r in E.
      destruct (IH _ _ _ _ _ P E Hk) as (H1 & pre & l & H2 & H3). split; [done|].
      exists pre, l. rewrite Es. done.
    + pose proof (onLine_sound (c :: line) name has data remaining _ ltac:(done) eq_refl P) as L.
      destruct (onLine (c :: line) name has data _) as [ev'|n' h' d' r'].
      * injection E as -> <-. destruct L as [L|(L1 & _ & L3)]; [congruence|].
        split; [rewrite L3; destruct P; lia|]. exists [], (c :: line). done.
      * destruct err0 as [e0|]; [done|].
        destruct (IH _ _ _ _ _ L E Hk) as (H1 & pre & l & H2 & H3). split; [done|].
        exists ((c :: line) ++ pre), l. cbn [unread] in H2. rewrite Es, H2, <- app_assoc. done.
  - replace (remaining <? Z.of_nat (length line)) with true in R1
      by (symmetry; apply Z.ltb_lt; lia).
    destruct (readLine b remaining) as [[res b1] rem1]. simpl in R1. subst res. done.
Qed.

(** Every event consumes a byte of the body. *)
Lemma next_loop_shorter fuel b name has data remaining ev b' :
  next_loop fuel b name has data remaining = (inl ev, b') ->
  (length (unread b') < length (unread b))%nat.
Proof.
  revert b name has data remaining. induction fuel as [|fuel IH];
    intros b name has data remaining E; [done|]. cbn [next_loop] in E.
  pose proof (readLine_spec b remaining) as R. pose proof (split_line_spec (unread b)) as S.
  unfold spec_readLine in R.
  destruct (split_line (unread b)) as [[line rest] found]. destruct S as [Es Hf], R as [R1 R2].
  rewrite Es, length_app. destruct (decide (Z.of_nat (length line) <= remaining)) as [Hle|Hgt].
  - rewrite R2 in E by done. destruct found.
    + destruct line as [|c line]; [done|]. destruct (onLine _ name has data _).
      * injection E as -> <-. simpl. lia.
      * apply IH in E. simpl in *. lia.
    + destruct line as [|c line]; [done|]. destruct (onLine _ name has data _); [|done].
      injection E as -> <-. simpl. lia.
  - replace (remaining <? Z.of_nat (length line)) with true in R1
      by (symmetry; apply Z.ltb_lt; lia).
    destruct (readLine b remaining) as [[res b1] rem1]. simpl in R1. by subst res.
Qed.

Lemma Next_shorter b ev b' : Next b = (inl ev, b') -> (length (unread b') < length (unread b))%nat.
Proof. apply next_loop_shorter. Qed.

(** Every event up to the first error. *)
Fixpoint events (fuel : nat) (b : body) : list SSEEvent * goerror :=
  match fuel with
  | O => ([], ends_with b)
  | S fuel =>
      match Next b with
      | (inl ev, b) => let '(evs, e) := events fuel b in (ev :: evs, e)
      | (inr e, _) => ([], e)
      end
  end.

Lemma events_enough f b :
  (length (unread b) < f)%nat -> events f b = events (S (length (unread b))) b.
Proof.
  assert (G : forall n f b, (length (unread b) < f)%nat -> (length (unread b) < n)%nat -> events f b = events n b).
  { clear. intros n. induction n as [|n IH]; intros [|f] b Hf Hn; [lia..|]. cbn [events].
    destruct (Next b) as [[ev|e] b'] eqn:E; [|done]. apply Next_shorter in E.
    by rewrite (IH f) by lia. }
  intros H. apply G; lia.
Qed.

(** A scan that stopped before its fuel ran out is the whole scan. *)
Lemma events_done f b :
  (length (events f b).1 < f)%nat -> events (S (length (unread b))) b = events f b.
Proof.
  revert b. induction f as [|f IH]; intros b H; [simpl in H; lia|].
  assert (U : forall k b, events (S k) b =
    match Next b with
    | (inl ev, b) => let '(evs, e) := events k b in (ev :: evs, e)
    | (inr e, _) => ([], e) end) by done.
  rewrite !U in *. clear U. destruct (Next b) as [[ev|e] b'] eqn:N; [|done].
  apply Next_shorter in N. rewrite (events_enough (length (unread b)) b') by lia.
  rewrite IH; [done|]. destruct (events f b') as [evs e]. simpl in *. lia.
Qed.

(** ** Properties *)

(** The buffered line reader is a plain line reader: whatever the length
    of the line and however the 4096-byte buffer cuts it, the result is the
    first line of the body with its terminator, charged by its length, or the
    size error exactly when the line does not fit what is left of the budget,
    or the transport's error with what came before it. *)
Theorem readLine_is_split b remaining :
  (readLine b remaining).1.1 = spec_readLine b remaining /\
  forall line, (readLine b remaining).1.1 = LineOk line ->
    unread b = line ++ unread (readLine b remaining).1.2 /\
    (readLine b remaining).2 = remaining - Z.of_nat (length line).
Proof.
  pose proof (readLine_spec b remaining) as R. pose proof (split_line_spec (unread b)) as S.
  unfold spec_readLine in *. destruct (split_line (unread b)) as [[line rest] found].
  destruct R as [R1 R2], S as [Es _]. split; [done|]. intros l0 Hl0. rewrite R1 in Hl0.
  destruct (remaining <? Z.of_nat (length line)) eqn:X; [done|]. destruct found; [|done].
  injection Hl0 as <-. bool_to_prop. by rewrite R2.
Qed.

(** A torn event is never delivered: an event with content was ended by a
    blank line that the body really contains, so what a severed connection
    leaves half written is dropped; and no event holds more than the size
    limit, whatever the upstream sends. *)
Theorem event_is_whole b ev b' :
  Next b = (inl ev, b') -> EvKeepalive ev = false ->
  Z.of_nat (String.length (EvData ev)) <= MaxSSEEventBytes /\
  exists pre line, unread b = pre ++ line ++ unread b' /\ line <> [] /\ trim_eol line = [].
Proof.
  intros E Hk. eapply next_loop_sound; [|exact E|done]. split; [|done]. simpl. lia.
Qed.

(** What the gateway writes for one chunk, and the event it stands for. *)
Definition item_bytes (i : option bytes_) : bytes_ :=
  match i with Some d => sseFrame d | None => sseKeepaliveFrame end.
Definition item_event (i : option bytes_) : SSEEvent :=
  match i with Some d => mkEvent "" (str d) true false | None => mkEvent "" "" false true end.

(** A scan of what was written, frame by frame. *)
Lemma scan_frames items e :
  (forall d, Some d ∈ items -> framable d) ->
  events (S (length items)) (mkBody (concat (item_bytes <$> items)) e) = (item_event <$> items, e) /\
  events (S (length items)) (mkBody (LF :: concat (item_bytes <$> items)) e) = (item_event <$> items, e).
Proof.
  induction items as [|i items IH]; intros F; [done|].
  assert (F' : forall d, Some d ∈ items -> framable d) by (intros; apply F; by right).
  destruct (IH F') as [IH1 IH2].
  assert (E : forall b, Next b = Next (mkBody (concat (item_bytes <$> i :: items)) e) ->
            events (S (length (i :: items))) b = (item_event <$> i :: items, e)).
  { intros b Hb. assert (Hs : forall k b, events (S k) b =
      match Next b with
      | (inl ev, b) => let '(evs, e) := events k b in (ev :: evs, e)
      | (inr e, _) => ([], e) end) by done.
    change (length (i :: items)) with (S (length items)). rewrite Hs, Hb. clear Hs.
    rewrite fmap_cons. cbn [concat]. destruct i as [d|]; cbn [item_bytes].
    - rewrite next_frame by (apply F; left). rewrite IH1. done.
    - rewrite next_keepalive. rewrite IH2. done. }
  split; apply E; [done|]. apply next_skip_blank.
Qed.

(** All the events of what was written. *)
Lemma all_frames items e :
  (forall d, Some d ∈ items -> framable d) ->
  events (S (length (concat (item_bytes <$> items)))) (mkBody (concat (item_bytes <$> items)) e)
  = (item_event <$> items, e).
Proof.
  intros F. destruct (scan_frames items e F) as [E _].
  pose proof (events_done (S (length items)) (mkBody (concat (item_bytes <$> items)) e)) as D.
  rewrite E in D. cbn [unread fst] in D. rewrite length_fmap in D. apply D. lia.
Qed.

(** (C16) Writing and reading are inverse: scanning what the gateway wrote for
    any sequence of chunks and keep-alives gives back exactly those payloads
    and keep-alives, in order, and then the end of the body; no payload is
    lost, split or merged, provided it holds no newline, does not end in a
    carriage return and fits the budget with its frame. *)
Theorem frames_roundtrip items e :
  (forall d, Some d ∈ items -> framable d) ->
  events (S (length items)) (mkBody (concat (item_bytes <$> items)) e)
  = (item_event <$> items, e).
Proof. intros F. by apply scan_frames. Qed.

(** *** Instances *)

Definition payload (s : string) : bytes_ := list_ascii_of_string s.

Definition three_items : list (option bytes_) :=
  [Some (payload "{x:1}"); None; Some []].

Lemma frames_roundtrip_witness :
  events 4 (mkBody (concat (item_bytes <$> three_items)) (ErrSentinel IoEOF))
  = (item_event <$> three_items, ErrSentinel IoEOF).
Proof.
  apply (frames_roundtrip three_items). intros d Hd. unfold three_items in Hd.
  repeat (apply elem_of_cons in Hd as [Hd|Hd]); try discriminate Hd;
    [| |by apply elem_of_nil in Hd]; injection Hd as ->;
    (split_and!; [|vm_compute; reflexivity|vm_compute; discriminate]).
  - intros c Hc. repeat (apply elem_of_cons in Hc as [->|Hc]; [reflexivity|]).
    by apply elem_of_nil in Hc.
  - intros c Hc. by apply elem_of_nil in Hc.
Defined.

Definition a_frame : body := mkBody (sseFrame (payload "hi")) (ErrSentinel IoEOF).

Lemma event_is_whole_witness :
  exists ev b', Next a_frame = (inl ev, b') /\ EvData ev = "hi"%string /\
    Z.of_nat (String.length (EvData ev)) <= MaxSSEEventBytes /\
    exists pre line, unread a_frame = pre ++ line ++ unread b' /\ line <> [] /\ trim_eol line = [].
Proof.
  exists (mkEvent "" "hi" true false), (mkBody [] (ErrSentinel IoEOF)).
  assert (E : Next a_frame = (inl (mkEvent "" "hi" true false), mkBody [] (ErrSentinel IoEOF)))
    by (vm_compute; reflexivity).
  split_and!; [exact E|reflexivity| |];
    destruct (event_is_whole _ _ _ E eq_refl) as [H1 H2]; [exact H1|exact H2].
Defined.

(** An upstream event of two [data] lines, as the wire holds it. *)
Definition two_line_event : body :=
  mkBody (payload "data: one" ++ [LF] ++ payload "data: two" ++ [LF; LF]) (ErrSentinel IoEOF).

(** The frame writer puts a payload on one [data] line without looking inside
    it, so an event of two [data] lines, which the scanner joins with a
    newline, is relayed as a frame whose second line is not a field a client
    recognises: what the client reads back has lost it. *)
Theorem two_line_payload_is_lost :
  exists ev b', Next two_line_event = (inl ev, b') /\
    EvData ev = ("one" +:+ String LF "two")%string /\
    (Next (mkBody (sseFrame (payload (EvData ev))) (ErrSentinel IoEOF))).1
    = inl (mkEvent "" "one" true false).
Proof.
  exists (mkEvent "" ("one" +:+ String LF "two") true false), (mkBody [] (ErrSentinel IoEOF)).
  split; [vm_compute; reflexivity|]. split; [reflexivity|]. vm_compute; reflexivity.
Qed.
