(* ===== verification/Pricing.v ===== *)
(** * Prices and the cost ledger (internal/pricing/pricing.go, ledger.go)

    A versioned table of list prices keyed by ["<kind>/<model>"], its
    validation, the cost of a completion in [float64] USD, and the append-only
    ledger.  Reading YAML and the embedded table are not modelled: a [Table]
    is what [decode] returned. *)

From Stdlib Require Import ZArith Lia String Ascii SpecFloat.
From stdpp Require Import base gmap strings list numbers sorting.
From S2P Require Import Prelude Float64 GoString Providers.

Local Open Scope Z_scope.

(** ** Data *)

Definition keySeparator : ascii := "/"%char.
Definition MinVersion : Z := 1.
Definition tokensPerMTok : f64 := f64_of_Z 1000000.

Record Price := mkPrice { InputPerMTok : f64; OutputPerMTok : f64; PFree : bool }.

Record Table := mkTable { Version : Z; Updated : string; Prices : gmap string Price }.

Record Cost := mkCost { CostUSD : f64; CostPriceVersion : Z; CostFree : bool }.

(** ** Cost *)

Definition clampTokens (n : Z) : Z := if n <? 0 then 0 else n.

Definition costUSD (p : Price) (promptTokens completionTokens : Z) : f64 :=
  if PFree p then f64_zero
  else
    let inn := f64_mul (f64_of_Z (clampTokens promptTokens)) (InputPerMTok p) in
    let out := f64_mul (f64_of_Z (clampTokens completionTokens)) (OutputPerMTok p) in
    f64_div (f64_add inn out) tokensPerMTok.

Definition key (kind model : string) : string := kind +:+ String keySeparator model.

Definition Table_Cost (t : Table) (kind model : string) (u : Usage) : option Cost :=
  match Prices t !! key kind model with
  | None => None
  | Some p => Some (mkCost (costUSD p (PromptTokens u) (CompletionTokens u)) (Version t) (PFree p))
  end.

(** [Models]: every key, sorted. *)
Definition Models (t : Table) : list string :=
  Sorted_strings (map_to_list (Prices t)).*1.

(** ** Validation *)

Definition validKey (k : string) : bool :=
  let '(kind, model, found) := Cut k keySeparator in
  if negb found || bool_decide (kind = ""%string) || bool_decide (model = ""%string) then false
  else bool_decide (TrimSpace kind = kind) && bool_decide (TrimSpace model = model).

Definition two_digits (a b : ascii) : option Z :=
  if is_digit a && is_digit b then Some (10 * digit_val a + digit_val b) else None.

Definition leapYear (y : Z) : bool :=
  (y mod 4 =? 0) && (negb (y mod 100 =? 0) || (y mod 400 =? 0)).

Definition daysIn (y m : Z) : Z :=
  if m =? 2 then if leapYear y then 29 else 28
  else if (m =? 4) || (m =? 6) || (m =? 9) || (m =? 11) then 30 else 31.

(** [time.Parse("2006-01-02", s)] succeeds. *)
Definition isISODate (s : string) : bool :=
  match list_ascii_of_string s with
  | [y1; y2; y3; y4; s1; m1; m2; s2; d1; d2] =>
      match two_digits y1 y2, two_digits y3 y4, two_digits m1 m2, two_digits d1 d2 with
      | Some ya, Some yb, Some m, Some d =>
          Ascii.eqb s1 "-" && Ascii.eqb s2 "-" &&
          (1 <=? m) && (m <=? 12) && (1 <=? d) && (d <=? daysIn (100 * ya + yb) m)
      | _, _, _, _ => false
      end
  | _ => false
  end.

Inductive table_error :=
| BadVersion
| UpdatedMissing
| UpdatedNotISO
| NoModels
| BadKey (k : string)
| NegativeInput (k : string)
| NegativeOutput (k : string)
| FreeWithRate (k : string)
| NoRate (k : string).

Definition when_ {E} (b : bool) (e : E) : list E := if b then [e] else [].

(** The checks on one entry of the table. *)
Definition checkPrice (k : string) (p : Price) : list table_error :=
  let noInput := f64_eqb (InputPerMTok p) f64_zero in
  let noOutput := f64_eqb (OutputPerMTok p) f64_zero in
  when_ (negb (validKey k)) (BadKey k)
  ++ when_ (f64_ltb (InputPerMTok p) f64_zero) (NegativeInput k)
  ++ when_ (f64_ltb (OutputPerMTok p) f64_zero) (NegativeOutput k)
  ++ (if PFree p && (negb noInput || negb noOutput) then [FreeWithRate k]
      else if negb (PFree p) && noInput && noOutput then [NoRate k]
      else []).

(** The problems [Validate] joins, in order; none means a nil error. *)
Definition Validate (t : Table) : list table_error :=
  when_ (Version t <? MinVersion) BadVersion
  ++ (if bool_decide (Updated t = ""%string) then [UpdatedMissing]
      else when_ (negb (isISODate (Updated t))) UpdatedNotISO)
  ++ when_ (bool_decide (Prices t = ∅)) NoModels
  ++ (Models t ≫= fun k => match Prices t !! k with Some p => checkPrice k p | None => [] end).

(** ** The ledger *)

Record Entry := mkEntry {
  Timestamp : Time;
  ETenant : string;
  ProviderKind : string;
  EModel : string;
  EPromptTokens : Z;
  ECompletionTokens : Z;
  EUSD : f64;
  EPriceVersion : Z;
  CacheHit : bool;
  RequestID : string
}.

(** A ledger is absent, drops every entry, or appends to its file; a write of
    the file may fail, and then nothing of the line lands. *)
Inductive Ledger := NopLedger | FileLedger (rows : list Entry).

Definition ledger_Write (l : Ledger) (ok : bool) (e : Entry) : Ledger * bool :=
  match l with
  | NopLedger => (NopLedger, true)
  | FileLedger rows => if ok then (FileLedger (rows ++ [e]), true) else (FileLedger rows, false)
  end.

(** ** Facts *)

Lemma when_nil {E} b (e : E) : when_ b e = [] <-> b = false.
Proof. by destruct b. Qed.

Lemma app_nil_iff {A} (l1 l2 : list A) : l1 ++ l2 = [] <-> l1 = [] /\ l2 = [].
Proof. split; [apply app_eq_nil|]. by intros [-> ->]. Qed.

Lemma elem_of_Models t k : k ∈ Models t <-> is_Some (Prices t !! k).
Proof.
  unfold Models, Sorted_strings. rewrite merge_sort_Permutation, list_elem_of_fmap. split.
  - intros ([k' p] & -> & Hk%elem_of_map_to_list). by eexists.
  - intros [p Hp]. exists (k, p). split; [done|]. by apply elem_of_map_to_list.
Qed.

Lemma bind_nil {A B} (f : A -> list B) (l : list A) :
  l ≫= f = [] <-> forall x, x ∈ l -> f x = [].
Proof.
  induction l as [|x l IH]; simpl.
  - split; [|done]. intros _ x Hx. by apply not_elem_of_nil in Hx.
  - rewrite app_nil_iff. unfold mbind in IH. rewrite IH. split.
    + intros [Hx Hl] y [->|Hy]%elem_of_cons; auto.
    + intros Hall. split; [apply Hall; left|]. intros y Hy. apply Hall. by right.
Qed.

(** What a table the validation accepts guarantees of one entry. *)
Record price_ok (k : string) (p : Price) : Prop := {
  po_key : validKey k = true;
  po_input : f64_ltb (InputPerMTok p) f64_zero = false;
  po_output : f64_ltb (OutputPerMTok p) f64_zero = false;
  po_free : PFree p = true <->
    f64_eqb (InputPerMTok p) f64_zero = true /\ f64_eqb (OutputPerMTok p) f64_zero = true
}.

Lemma checkPrice_nil k p : checkPrice k p = [] <-> price_ok k p.
Proof.
  unfold checkPrice. rewrite !app_nil_iff, !when_nil, negb_false_iff.
  destruct (PFree p) eqn:F, (f64_eqb (InputPerMTok p) f64_zero) eqn:I,
    (f64_eqb (OutputPerMTok p) f64_zero) eqn:O; simpl; split;
    (intros (A & B & C & D) || intros [A B C D]); try done; try constructor; try done;
    try rewrite F, I, O in *; try tauto; naive_solver.
Qed.

(** Positive or zero of either sign. *)
Definition f64_ge0 (x : f64) : Prop := x = S754_zero true \/ f64_nonneg x.

Lemma finite_not_neg x : f64_ltb x f64_zero = false -> f64_finite x = true -> f64_ge0 x.
Proof. destruct x as [[]|[]| |[] m e]; try done; (by left) || (by right). Qed.

Lemma tokens_times_rate n r :
  0 <= n <= max_int64 -> f64_ltb r f64_zero = false -> f64_finite r = true ->
  f64_ge0 (f64_mul (f64_of_Z n) r) /\
  (f64_eqb r f64_zero = false -> f64_nonneg (f64_mul (f64_of_Z n) r)).
Proof.
  intros Hn Hr Hf. pose proof (f64_of_Z_nonneg n ltac:(lia)) as P.
  pose proof (f64_of_Z_finite n Hn) as F.
  destruct (finite_not_neg r Hr Hf) as [->|Hp].
  - split; [|done]. left. destruct (f64_of_Z n) as [[]|[]| |[] m e]; done.
  - pose proof (f64_mul_nonneg _ _ P Hp F Hf). split; [by right|done].
Qed.

Lemma f64_add_ge0 x y : f64_ge0 x -> f64_ge0 y -> f64_nonneg x \/ f64_nonneg y ->
  f64_nonneg (f64_add x y).
Proof.
  intros [->|Hx] [->|Hy] Hxy; try by apply f64_add_nonneg.
  - by destruct Hxy.
  - by destruct y as [[]|[]| |[] m e].
  - by destruct x as [[]|[]| |[] m e].
Qed.

Lemma costUSD_nonneg k p a b :
  price_ok k p -> f64_finite (InputPerMTok p) = true -> f64_finite (OutputPerMTok p) = true ->
  a <= max_int64 -> b <= max_int64 -> f64_nonneg (costUSD p a b).
Proof.
  intros [_ Hi Ho Hfree] Fi Fo Ha Hb. unfold costUSD. destruct (PFree p) eqn:E; [done|].
  assert (Hc : forall n, n <= max_int64 -> 0 <= clampTokens n <= max_int64).
  { intros n Hn. unfold clampTokens, max_int64 in *. destruct (n <? 0) eqn:D; bool_to_prop; lia. }
  destruct (tokens_times_rate (clampTokens a) (InputPerMTok p) (Hc a Ha) Hi Fi) as [A1 A2].
  destruct (tokens_times_rate (clampTokens b) (OutputPerMTok p) (Hc b Hb) Ho Fo) as [B1 B2].
  unfold tokensPerMTok. change (f64_of_Z 1000000) with (S754_finite false 8589934592000000 (-33)).
  apply f64_div_nonneg. apply f64_add_ge0; [done|done|].
  destruct (f64_eqb (InputPerMTok p) f64_zero) eqn:I; [right|left; by apply A2].
  apply B2. destruct (f64_eqb (OutputPerMTok p) f64_zero) eqn:O; [|done].
  exfalso. enough (false = true) by done. by apply Hfree.
Qed.

(** ** Properties *)

(** Validation is exact: a table is accepted if and only if its version is
    usable, its date is an ISO date of the calendar, it prices some model, and
    every entry has a well formed key, rates that are not negative, and is
    marked free exactly when both its rates are zero. *)
Theorem validate_exact t :
  Validate t = [] <->
  MinVersion <= Version t /\ isISODate (Updated t) = true /\ Prices t <> ∅ /\
  forall k p, Prices t !! k = Some p -> price_ok k p.
Proof.
  unfold Validate. rewrite !app_nil_iff, !when_nil, bind_nil, bool_decide_eq_false, Z.ltb_ge.
  assert (U : (if bool_decide (Updated t = ""%string) then [UpdatedMissing]
               else when_ (negb (isISODate (Updated t))) UpdatedNotISO) = []
              <-> isISODate (Updated t) = true).
  { case_bool_decide as E; [rewrite E; done|]. by rewrite when_nil, negb_false_iff. }
  rewrite U. split.
  - intros (A & B & C & D). split_and!; try done. intros k p Hp.
    specialize (D k). rewrite Hp in D. apply checkPrice_nil, D, elem_of_Models. by eexists.
  - intros (A & B & C & D). split_and!; try done. intros k Hk.
    destruct (Prices t !! k) as [p|] eqn:E; [|done]. by apply checkPrice_nil, D.
Qed.

(** A cost is money: with a validated table whose rates are finite, the
    cost of any 64-bit usage, negative counts included, is never negative and
    never a NaN, costs exactly zero when the model is free, and is stamped with
    a usable price list version; and a pair is priced exactly when it has an
    entry. *)
Theorem cost_sound t kind model u :
  Validate t = [] ->
  (forall k p, Prices t !! k = Some p ->
     f64_finite (InputPerMTok p) = true /\ f64_finite (OutputPerMTok p) = true) ->
  PromptTokens u <= max_int64 -> CompletionTokens u <= max_int64 ->
  match Table_Cost t kind model u with
  | Some c => f64_nonneg (CostUSD c) /\ f64_ltb (CostUSD c) f64_zero = false /\
              f64_is_nan (CostUSD c) = false /\ (CostFree c = true -> CostUSD c = f64_zero) /\
              MinVersion <= CostPriceVersion c
  | None => Prices t !! key kind model = None
  end.
Proof.
  intros V F Ha Hb. apply validate_exact in V as (A & _ & _ & D).
  unfold Table_Cost. destruct (Prices t !! key kind model) as [p|] eqn:E; [|done].
  destruct (F _ _ E) as [Fi Fo].
  pose proof (costUSD_nonneg _ p _ _ (D _ _ E) Fi Fo Ha Hb) as N. simpl.
  split_and!; auto using f64_nonneg_not_neg.
  - by destruct (costUSD _ _ _) as [[]|[]| |[] m e].
  - intros Hf. unfold costUSD. by rewrite Hf.
Qed.

(** A key names one pair: a well formed key splits into exactly one kind
    without a separator and one model, both non-empty and without surrounding
    white space, so two different pairs never share a price, even though model
    ids may contain separators. *)
Theorem key_names_one_pair k :
  validKey k = true <->
  exists kind model,
    (k = key kind model /\ contains_byte kind keySeparator = false /\
     kind <> ""%string /\ model <> ""%string /\ TrimSpace kind = kind /\ TrimSpace model = model) /\
    forall kind' model', k = key kind' model' -> contains_byte kind' keySeparator = false ->
      kind' = kind /\ model' = model.
Proof.
  unfold validKey. destruct (Cut k keySeparator) as [[kind model] [|]] eqn:C; simpl.
  - apply Cut_found in C as [-> Hk].
    assert (Huniq : forall kind' model', key kind model = key kind' model' ->
              contains_byte kind' keySeparator = false -> kind' = kind /\ model' = model).
    { intros kind' model' E Hk'. apply app_inj_byte in E as [-> ->]; done. }
    split.
    + intros E. destruct (bool_decide (kind = _) || _) eqn:N; [done|]. bool_to_prop.
      exists kind, model. split; [done|]. apply Huniq.
    + intros (kind' & model' & (E & H1 & H2 & H3 & H4 & H5) & _).
      destruct (Huniq kind' model' E H1) as [-> ->].
      rewrite !bool_decide_false by done. simpl. by rewrite !bool_decide_true by done.
  - split; [done|]. intros (kind' & model' & (-> & H1 & _) & _).
    pose proof (proj2 (Cut_found (key kind' model') keySeparator kind' model')
                  (conj eq_refl H1)) as C'.
    rewrite C' in C. discriminate.
Qed.

(** *** Instances *)

Module PricingExample.
Definition mini : Price := mkPrice (f64_ratio 15 100) (f64_ratio 6 10) false.
Definition table : Table := mkTable 1 "2026-01-31" {["openai/gpt-4o-mini"%string := mini]}.
Definition usage : Usage := mkUsage 1000 500 1500.
(** A rate of [.nan], which the YAML decoder accepts. *)
Definition nan_price : Price := mkPrice S754_nan (f64_of_Z 1) false.
Definition nan_table : Table := mkTable 1 "2026-01-31" {["openai/gpt-4o-mini"%string := nan_price]}.

Example a_cost : costUSD mini 1000 500 = f64_ratio 45 100000.
Proof. vm_compute. reflexivity. Qed.

Example table_valid : Validate table = [].
Proof. vm_compute. reflexivity. Qed.
End PricingExample.

Lemma cost_sound_witness :
  f64_nonneg (costUSD PricingExample.mini 1000 500).
Proof.
  pose proof (cost_sound PricingExample.table "openai" "gpt-4o-mini" PricingExample.usage) as X.
  apply X.
  - exact PricingExample.table_valid.
  - intros k p. unfold PricingExample.table; simpl. rewrite lookup_singleton_Some.
    intros [_ <-]. split; vm_compute; reflexivity.
  - by vm_compute.
  - by vm_compute.
Defined.

(** A rate that is not a number is not negative and not zero, so validation
    accepts it, and every cost computed from it is a NaN. *)
Theorem nan_rate_accepted :
  Validate PricingExample.nan_table = [] /\
  option_map CostUSD (Table_Cost PricingExample.nan_table "openai" "gpt-4o-mini"
                        PricingExample.usage) = Some S754_nan.
Proof. split; vm_compute; reflexivity. Qed.
