(* ===== verification/Money.v ===== *)
(** * Money

    The program keeps USD amounts in [float64].  The accounting code uses only
    zero, addition, subtraction and comparison of them, so the model is written
    against the interface [USD] and has two implementations: [USD_f64], the
    program's own binary64 arithmetic, and [USD_Z], exact fixed-point money.

    Everything that does not depend on rounding is proved for any [USD].  The
    conservation laws (what is reserved, what is owed, how far a budget can be
    overshot) are proved for any [RoundedUSD]: money whose amounts have an integer
    value, whose sums and differences are exact up to [usd_err] of the exact
    result, and whose comparisons are exact.  Binary64 is one
    ([RoundedUSD_f64]: values in units of 2^-1074 dollars, and an error of at most
    one part in 2^53 of each result, from [Rounding]), so those laws hold of the
    arithmetic the program does; exact money is the one without error. *)

From Stdlib Require Import ZArith Lia SpecFloat.
From stdpp Require Import base numbers.
From S2P Require Import Prelude Float64 Rounding.

Local Open Scope Z_scope.

Class USD (M : Type) := {
  usd_zero : M;
  usd_add : M -> M -> M;
  usd_sub : M -> M -> M;
  usd_ltb : M -> M -> bool;
  usd_leb : M -> M -> bool
}.

#[export] Instance USD_f64 : USD f64 := {|
  usd_zero := f64_zero;
  usd_add := f64_add;
  usd_sub := f64_sub;
  usd_ltb := f64_ltb;
  usd_leb := f64_leb
|}.

#[export] Instance USD_Z : USD Z := {|
  usd_zero := 0;
  usd_add := Z.add;
  usd_sub := Z.sub;
  usd_ltb := Z.ltb;
  usd_leb := Z.leb
|}.

(** Money that rounds.  [usd_num] are the numbers, [usd_over] what a sum of
    amounts is once it passes every number. *)
Class RoundedUSD (M : Type) `{USD M} := {
  usd_num : M -> Prop;
  usd_over : M -> Prop;
  usd_val : M -> Z;
  usd_err : Z -> Z;
  usd_err_bound v : 0 <= usd_err v <= Z.abs v;
  usd_err_mono v w : Z.abs v <= Z.abs w -> usd_err v <= usd_err w;
  usd_zero_num : usd_num usd_zero;
  usd_zero_val : usd_val usd_zero = 0;
  usd_ltb_val a b : usd_num a -> usd_num b -> usd_ltb a b = (usd_val a <? usd_val b);
  usd_leb_val a b : usd_num a -> usd_num b -> usd_leb a b = (usd_val a <=? usd_val b);
  usd_add_cases a b : usd_num a -> usd_num b -> 0 <= usd_val a -> 0 <= usd_val b ->
    usd_num (usd_add a b) \/
    usd_over (usd_add a b) /\ forall c, usd_num c -> usd_val c < usd_val a + usd_val b;
  usd_add_err a b : usd_num a -> usd_num b -> usd_num (usd_add a b) ->
    Z.abs (usd_val (usd_add a b) - (usd_val a + usd_val b)) <= usd_err (usd_val a + usd_val b);
  usd_sub_num a b : usd_num a -> usd_num b -> 0 <= usd_val a -> 0 <= usd_val b -> usd_num (usd_sub a b);
  usd_sub_err a b : usd_num a -> usd_num b -> usd_num (usd_sub a b) ->
    Z.abs (usd_val (usd_sub a b) - (usd_val a - usd_val b)) <= usd_err (usd_val a - usd_val b);
  usd_over_add a b : usd_over a -> usd_num b -> usd_over (usd_add a b);
  usd_over_ltb a c : usd_over a -> usd_num c -> usd_ltb c a = true
}.

#[export] Program Instance RoundedUSD_Z : RoundedUSD Z := {|
  usd_num _ := True; usd_over _ := False; usd_val z := z; usd_err _ := 0
|}.
Solve All Obligations with (cbn; intros; first [lia|done|by left|idtac]).

#[export] Program Instance RoundedUSD_f64 : RoundedUSD f64 := {|
  usd_num := is_number; usd_over x := x = S754_infinity false;
  usd_val := f64_units; usd_err := f64_rounding
|}.
Next Obligation. intros v. split; [apply rounding_nonneg|apply rounding_le]. Qed.
Next Obligation. exact rounding_mono. Qed.
Next Obligation. apply zero_number. Qed.
Next Obligation. done. Qed.
Next Obligation. exact f64_ltb_units. Qed.
Next Obligation. exact f64_leb_units. Qed.
Next Obligation.
  cbn. intros a b A B Pa Pb. destruct (f64_add_rounds a b A B) as [[N|[-> Big]] _]; [by left|right].
  split; [f_equal; apply Z.ltb_ge; lia|]. intros c C. pose proof (units_bounded c C). lia.
Qed.
Next Obligation. cbn. intros a b A B. apply (f64_add_rounds a b A B). Qed.
Next Obligation.
  cbn. intros a b A B Pa Pb. destruct (f64_sub_rounds a b A B) as [[N|[_ Big]] _]; [done|].
  pose proof (units_bounded a A). pose proof (units_bounded b B). lia.
Qed.
Next Obligation. cbn. intros a b A B. apply (f64_sub_rounds a b A B). Qed.
Next Obligation. cbn. intros a b -> B. by apply inf_absorbs. Qed.
Next Obligation. cbn. intros a c -> C. by apply inf_above. Qed.

Arguments usd_err M {_ _} v.
Arguments usd_err_bound M {_ _} v.
Arguments usd_err_mono M {_ _} v w _.

(** An amount: a number that is not negative. *)
Definition amount `{RoundedUSD M} (a : M) : Prop := usd_num a /\ 0 <= usd_val a.
