(* ===== verification/Budget.v ===== *)
(** * Budget enforcement (internal/budget/types.go, internal/budget/enforcer.go)

    Enforcement is two phase: [Reserve] claims an estimate against a tenant's
    limits before the upstream is called, [Settle] replaces the claim with the
    real usage and cost, [Release] returns it.  [MemEnforcer] does each of them
    under one mutex, so each is a function from state to state; the durable
    write that follows a settlement is outside that lock and is modelled in
    [Durable].

    The operations are over any [USD]; the conservation laws are over any
    [RoundedUSD], so of the program's binary64, with what rounding can add to them
    written out ([drift]).

    Error messages and the text of denials are not modelled; the reason and the
    retry advice are.  Counters are 64-bit. *)

From Stdlib Require Import ZArith Lia String Sorted.
From stdpp Require Import base gmap strings list numbers pretty.
From S2P Require Import Prelude Float64 Rounding Providers Money.

Local Open Scope Z_scope.

Abbreviation TenantID := string (only parsing).

Definition dailyWindow : Duration := 24 * Hour.
Definition monthlyWindow : Duration := 30 * 24 * Hour.
Definition rateWindow : Duration := Minute.

(** ** Data *)

Inductive DenyReason :=
| DenyRequestRate
| DenyTokenRate
| DenyDailyBudget
| DenyMonthlyBudget
| DenyStoreDegraded
| DenyUnknownTenant.

#[export] Instance DenyReason_eq_dec : EqDecision DenyReason.
Proof. solve_decision. Defined.

Record Denial := mkDenial { Reason : DenyReason; RetryAfter : Duration }.

Section Enforcer.
Context {M : Type} `{USD M}.

Record Limits := mkLimits {
  RequestsPerMinute : Z;
  TokensPerMinute : Z;
  DailyUSD : M;
  MonthlyUSD : M;
  FailClosed : bool
}.

Record Estimate := mkEstimate { EstPrompt : Z; EstCompletion : Z; EstUSD : M }.

Record Reservation := mkReservation {
  Tenant : TenantID;
  Est : Estimate;
  IssuedAt : Time;
  ID : string
}.

Record tenantState := mkTenant {
  dailySpent : M;
  dailyStart : Time;
  monthlySpent : M;
  monthlyStart : Time;
  committed : M;
  requests : Z;
  requestsAt : Time;
  tokens : Z;
  tokensAt : Time
}.

(** What one durable write carries. *)
Record SpendRow := mkRow {
  RowTenant : TenantID;
  RowDailyUSD : M;
  RowMonthlyUSD : M;
  RowDailyStart : Time;
  RowMonthlyStart : Time
}.

Record MemEnforcer := mkEnforcer {
  limits : gmap string Limits;
  tenants : gmap string tenantState;
  healthy : bool;
  nextID : Z;
  done_ : gset string;
  hasStore : bool;
  seq_ : gmap string Z;
  written : gmap string Z
}.

Definition NewEnforcer (l : gmap string Limits) : MemEnforcer :=
  mkEnforcer l ∅ true 0 ∅ false ∅ ∅.

Definition set_tenant (e : MemEnforcer) (t : TenantID) (st : tenantState) : MemEnforcer :=
  mkEnforcer (limits e) (<[t := st]> (tenants e)) (healthy e) (nextID e) (done_ e)
    (hasStore e) (seq_ e) (written e).

Definition setStoreHealthy (e : MemEnforcer) (h : bool) : MemEnforcer :=
  mkEnforcer (limits e) (tenants e) h (nextID e) (done_ e) (hasStore e) (seq_ e) (written e).

Definition mark_done (e : MemEnforcer) (id : string) : MemEnforcer :=
  mkEnforcer (limits e) (tenants e) (healthy e) (nextID e) ({[id]} ∪ done_ e)
    (hasStore e) (seq_ e) (written e).

(** ** Windows *)

Definition freshTenant (now : Time) : tenantState :=
  mkTenant usd_zero now usd_zero now usd_zero 0 now 0 now.

Definition windowOver (now start : Time) (window : Duration) : bool :=
  window <=? time_Sub now start.

(** Each window turns over independently. *)
Definition rollover (st : tenantState) (now : Time) : tenantState :=
  let d := windowOver now (dailyStart st) dailyWindow in
  let m := windowOver now (monthlyStart st) monthlyWindow in
  let q := windowOver now (requestsAt st) rateWindow in
  let k := windowOver now (tokensAt st) rateWindow in
  mkTenant
    (if d then usd_zero else dailySpent st) (if d then now else dailyStart st)
    (if m then usd_zero else monthlySpent st) (if m then now else monthlyStart st)
    (committed st)
    (if q then 0 else requests st) (if q then now else requestsAt st)
    (if k then 0 else tokens st) (if k then now else tokensAt st).

(** [stateFor]: the tenant's counters with any expired window cleared; they
    stay cleared in the enforcer. *)
Definition stateFor (e : MemEnforcer) (t : TenantID) (now : Time) : tenantState * MemEnforcer :=
  let st := match tenants e !! t with
            | None => freshTenant now
            | Some st => rollover st now
            end in
  (st, set_tenant e t st).

(** [remainingIn]: what the current rate window has left. *)
Definition remainingIn (start now : Time) : Duration :=
  let left := rateWindow -i time_Sub now start in
  if left <=? 0 then Second else left.

(** ** Checks *)

Definition checkRates (st : tenantState) (l : Limits) (est : Estimate) (now : Time)
    : option Denial :=
  if (0 <? RequestsPerMinute l) && (RequestsPerMinute l <=? requests st)
  then Some (mkDenial DenyRequestRate (remainingIn (requestsAt st) now))
  else if 0 <? TokensPerMinute l then
    let wanted := EstPrompt est +i EstCompletion est in
    if TokensPerMinute l <? (tokens st +i wanted)
    then Some (mkDenial DenyTokenRate (remainingIn (tokensAt st) now))
    else None
  else None.

Definition overBudget (cap spent comm usd : M) : bool :=
  usd_ltb usd_zero cap && usd_ltb cap (usd_add (usd_add spent comm) usd).

Definition checkBudgets (st : tenantState) (l : Limits) (est : Estimate) : option Denial :=
  if overBudget (DailyUSD l) (dailySpent st) (committed st) (EstUSD est)
  then Some (mkDenial DenyDailyBudget 0)
  else if overBudget (MonthlyUSD l) (monthlySpent st) (committed st) (EstUSD est)
  then Some (mkDenial DenyMonthlyBudget 0)
  else None.

(** ** Reserve, Settle, Release *)

(** The claim [Reserve] makes on the counters. *)
Definition claim (st : tenantState) (est : Estimate) : tenantState :=
  mkTenant (dailySpent st) (dailyStart st) (monthlySpent st) (monthlyStart st)
    (usd_add (committed st) (EstUSD est))
    (requests st +i 1) (requestsAt st)
    (tokens st +i (EstPrompt est +i EstCompletion est)) (tokensAt st).

(** [strconv.FormatUint(n, 10)]. *)
Definition formatID (n : Z) : string := pretty (Z.to_N n).

Definition Reserve (e : MemEnforcer) (clk : Time) (t : TenantID) (est : Estimate)
    : (Denial + Reservation) * MemEnforcer :=
  match limits e !! t with
  | None => (inl (mkDenial DenyUnknownTenant 0), e)
  | Some l =>
      if negb (healthy e) && FailClosed l then (inl (mkDenial DenyStoreDegraded 0), e)
      else
        let '(st, e) := stateFor e t clk in
        match checkRates st l est clk with
        | Some d => (inl d, e)
        | None =>
            match checkBudgets st l est with
            | Some d => (inl d, e)
            | None =>
                let id := wrapu64 (nextID e + 1) in
                let e := set_tenant e t (claim st est) in
                (inr (mkReservation t est clk (formatID id)),
                 mkEnforcer (limits e) (tenants e) (healthy e) id (done_ e) (hasStore e)
                   (seq_ e) (written e))
            end
        end
  end.

(** [committed -= estimate], floored at zero. *)
Definition unclaim (st : tenantState) (usd : M) : M :=
  let c := usd_sub (committed st) usd in
  if usd_ltb c usd_zero then usd_zero else c.

(** What a settlement does to the counters. *)
Definition settled (st : tenantState) (est : Estimate) (actual : Usage) (usd : M)
    : tenantState :=
  let delta := TotalTokens actual -i (EstPrompt est +i EstCompletion est) in
  let tok := if delta =? 0 then tokens st
             else if (tokens st +i delta) <? 0 then 0 else tokens st +i delta in
  mkTenant (usd_add (dailySpent st) usd) (dailyStart st)
    (usd_add (monthlySpent st) usd) (monthlyStart st)
    (unclaim st (EstUSD est)) (requests st) (requestsAt st) tok (tokensAt st).

Definition rowOf (t : TenantID) (st : tenantState) : SpendRow :=
  mkRow t (dailySpent st) (monthlySpent st) (dailyStart st) (monthlyStart st).

(** The critical section of [Settle]: the new state and, with a store, the
    snapshot to persist and its sequence number. *)
Definition Settle (e : MemEnforcer) (clk : Time) (r : Reservation) (actual : Usage) (usd : M)
    : MemEnforcer * option (SpendRow * Z) :=
  if bool_decide (ID r ∈ done_ e) then (e, None)
  else
    let e := mark_done e (ID r) in
    let '(st, e) := stateFor e (Tenant r) clk in
    let st := settled st (Est r) actual usd in
    let e := set_tenant e (Tenant r) st in
    if hasStore e then
      let n := wrapu64 (default 0 (seq_ e !! Tenant r) + 1) in
      (mkEnforcer (limits e) (tenants e) (healthy e) (nextID e) (done_ e) (hasStore e)
         (<[Tenant r := n]> (seq_ e)) (written e),
       Some (rowOf (Tenant r) st, n))
    else (e, None).

Definition Release (e : MemEnforcer) (clk : Time) (r : Reservation) : MemEnforcer :=
  if bool_decide (ID r ∈ done_ e) then e
  else
    let e := mark_done e (ID r) in
    let '(st, e) := stateFor e (Tenant r) clk in
    set_tenant e (Tenant r)
      (mkTenant (dailySpent st) (dailyStart st) (monthlySpent st) (monthlyStart st)
         (unclaim st (EstUSD (Est r))) (requests st) (requestsAt st) (tokens st)
         (tokensAt st)).

(** ** Readers *)

Definition Spent (e : MemEnforcer) (clk : Time) (t : TenantID) : (M * M) * MemEnforcer :=
  let '(st, e) := stateFor e t clk in ((dailySpent st, monthlySpent st), e).

Definition Committed (e : MemEnforcer) (clk : Time) (t : TenantID) : M * MemEnforcer :=
  let '(st, e) := stateFor e t clk in (committed st, e).
End Enforcer.

Arguments Limits : clear implicits.
Arguments Estimate : clear implicits.
Arguments Reservation : clear implicits.
Arguments tenantState : clear implicits.
Arguments SpendRow : clear implicits.
Arguments MemEnforcer : clear implicits.

(** ** Lemmas on the operations *)

Section Facts.
Context {M : Type} `{USD M}.
Implicit Types (e : MemEnforcer M) (st : tenantState M) (r : Reservation M).

Lemma stateFor_tenants e t now u :
  tenants (stateFor e t now).2 !! u
  = if decide (t = u) then Some (stateFor e t now).1 else tenants e !! u.
Proof. unfold stateFor; simpl. by rewrite lookup_insert. Qed.

Lemma stateFor_frame e t now :
  limits (stateFor e t now).2 = limits e /\ healthy (stateFor e t now).2 = healthy e /\
  nextID (stateFor e t now).2 = nextID e /\ done_ (stateFor e t now).2 = done_ e /\
  hasStore (stateFor e t now).2 = hasStore e /\ seq_ (stateFor e t now).2 = seq_ e /\
  written (stateFor e t now).2 = written e.
Proof. done. Qed.

Lemma formatID_inj a b : 0 <= a -> 0 <= b -> formatID a = formatID b -> a = b.
Proof.
  unfold formatID. intros Ha Hb E. apply (inj (pretty (A := N))) in E.
  by apply Z2N.inj in E.
Qed.

(** The three ways [Reserve] ends. *)
Lemma Reserve_cases e clk t est :
  let st := (stateFor e t clk).1 in
  match Reserve e clk t est with
  | (inr r, e') =>
      exists l, limits e !! t = Some l /\ (healthy e = false -> FailClosed l = false) /\
        checkRates st l est clk = None /\ checkBudgets st l est = None /\
        r = mkReservation t est clk (formatID (wrapu64 (nextID e + 1))) /\
        limits e' = limits e /\ healthy e' = healthy e /\
        tenants e' = <[t := claim st est]> (tenants e) /\
        nextID e' = wrapu64 (nextID e + 1) /\ done_ e' = done_ e /\
        hasStore e' = hasStore e /\ seq_ e' = seq_ e /\ written e' = written e
  | (inl d, e') =>
      (limits e !! t = None /\ d = mkDenial DenyUnknownTenant 0 /\ e' = e) \/
      exists l, limits e !! t = Some l /\
        ((healthy e = false /\ FailClosed l = true /\
          d = mkDenial DenyStoreDegraded 0 /\ e' = e) \/
         ((healthy e = false -> FailClosed l = false) /\ e' = (stateFor e t clk).2 /\
          (checkRates st l est clk = Some d \/
           checkRates st l est clk = None /\ checkBudgets st l est = Some d)))
  end.
Proof.
  simpl. unfold Reserve. destruct (limits e !! t) as [l|] eqn:L; [|by left].
  destruct (negb (healthy e) && FailClosed l) eqn:F.
  { bool_to_prop. right. exists l. split; [done|]. by left. }
  assert (F' : healthy e = false -> FailClosed l = false)
    by (intros h; by rewrite h in F).
  set (st := match tenants e !! t with None => _ | Some st => _ end).
  change (stateFor e t clk) with (st, set_tenant e t st). simpl.
  destruct (checkRates st l est clk) as [d|] eqn:R.
  { right. exists l. split; [done|]. right. auto. }
  destruct (checkBudgets st l est) as [d|] eqn:B.
  { right. exists l. split; [done|]. right. auto. }
  exists l. split_and!; try done. simpl. by rewrite insert_insert_eq.
Qed.

Lemma Reserve_other e clk t est u :
  t <> u -> tenants (Reserve e clk t est).2 !! u = tenants e !! u.
Proof.
  intros Hne. pose proof (Reserve_cases e clk t est) as C. cbv zeta in C.
  destruct (Reserve e clk t est) as [[d|r] e']; simpl.
  - destruct C as [(_ & _ & ->)|(l & _ & [(_ & _ & _ & ->)|(_ & -> & _)])]; try done.
    rewrite stateFor_tenants. by rewrite decide_False.
  - destruct C as (l & _ & _ & _ & _ & _ & _ & _ & -> & _). by rewrite lookup_insert_ne.
Qed.

Lemma Settle_cases e clk r actual usd :
  (ID r ∈ done_ e /\ Settle e clk r actual usd = (e, None)) \/
  (ID r ∉ done_ e /\
   let st := settled (stateFor e (Tenant r) clk).1 (Est r) actual usd in
   let e' := (Settle e clk r actual usd).1 in
   tenants e' = <[Tenant r := st]> (tenants e) /\ limits e' = limits e /\
   healthy e' = healthy e /\ nextID e' = nextID e /\ done_ e' = {[ID r]} ∪ done_ e /\
   hasStore e' = hasStore e /\ written e' = written e /\
   if hasStore e then
     let n := wrapu64 (default 0 (seq_ e !! Tenant r) + 1) in
     seq_ e' = <[Tenant r := n]> (seq_ e) /\
     (Settle e clk r actual usd).2 = Some (rowOf (Tenant r) st, n)
   else seq_ e' = seq_ e /\ (Settle e clk r actual usd).2 = None).
Proof.
  unfold Settle. case_bool_decide as D; [by left|right]. split; [done|]. simpl.
  destruct (hasStore e) eqn:S; simpl; rewrite insert_insert_eq; by split_and!.
Qed.

Lemma Release_cases e clk r :
  (ID r ∈ done_ e /\ Release e clk r = e) \/
  (ID r ∉ done_ e /\
   let st := (stateFor e (Tenant r) clk).1 in
   let e' := Release e clk r in
   tenants e' = <[Tenant r :=
     mkTenant (dailySpent st) (dailyStart st) (monthlySpent st) (monthlyStart st)
       (unclaim st (EstUSD (Est r))) (requests st) (requestsAt st) (tokens st)
       (tokensAt st)]> (tenants e) /\
   limits e' = limits e /\ healthy e' = healthy e /\ nextID e' = nextID e /\
   done_ e' = {[ID r]} ∪ done_ e /\ hasStore e' = hasStore e /\ seq_ e' = seq_ e /\
   written e' = written e).
Proof.
  unfold Release. case_bool_decide as D; [by left|right]. split; [done|]. simpl.
  by rewrite insert_insert_eq.
Qed.
End Facts.

(** ** Histories

    A world is the enforcer, every reservation it ever issued, and (ghost state)
    per tenant how much the settlements of the current spend window exceeded
    their estimates, how many calls were made for it and the largest total such
    a call computed with.  [w] selects the daily or the monthly window. *)

Inductive window := Daily | Monthly.

(** How far rounding can have carried a tenant's counters: every call rounds at
    most three times, each time by no more than [usd_err] of twice the total it
    computed with. *)
Record roundings := mkRoundings { rcalls : Z; rpeak : Z }.

Section Histories.
Context {M : Type} `{RoundedUSD M}.
Local Abbreviation val := usd_val.

Definition drift (n : roundings) : Z := 3 * rcalls n * usd_err M (2 * rpeak n).
Definition called (n : roundings) (total : Z) : roundings := mkRoundings (rcalls n + 1) (Z.max (rpeak n) total).

Record world := mkWorld {
  enf : MemEnforcer M;
  issued : list (Reservation M);
  excess : string -> Z;
  rounded : string -> roundings
}.

Definition win_spent (w : window) (st : tenantState M) : Z :=
  val match w with Daily => dailySpent st | Monthly => monthlySpent st end.
Definition win_start (w : window) (st : tenantState M) : Time :=
  match w with Daily => dailyStart st | Monthly => monthlyStart st end.
Definition win_limit (w : window) (l : Limits M) : M :=
  match w with Daily => DailyUSD l | Monthly => MonthlyUSD l end.
Definition win_cap (w : window) (l : Limits M) : Z := val (win_limit w l).

(** The excess carried over a step: none once the window turned over. *)
Definition carried (w : window) (e e' : MemEnforcer M) (ex : string -> Z) (t : string) : Z :=
  match tenants e !! t, tenants e' !! t with
  | Some st, Some st' => if decide (win_start w st = win_start w st') then ex t else 0
  | _, _ => 0
  end.

(** What settling [r] at [usd] adds to its tenant's excess. *)
Definition settle_excess (e : MemEnforcer M) (r : Reservation M) (usd : M) (t : string) : Z :=
  if bool_decide (ID r ∈ done_ e) then 0
  else if decide (Tenant r = t) then Z.max 0 (val usd - val (EstUSD (Est r))) else 0.

(** The total a call made for [t] at [clk] with amounts of [v] computes with. *)
Definition total (w : window) (e : MemEnforcer M) (clk : Time) (t : string) (v : Z) : Z :=
  let st := (stateFor e t clk).1 in win_spent w st + val (committed st) + v.

Definition call_for (t : string) (v : Z) (rs : string -> roundings) (u : string) : roundings :=
  if decide (t = u) then called (rs u) v else rs u.

(** No counter passed the largest number: in binary64 that takes 10^308 dollars. *)
Definition in_range (e : MemEnforcer M) : Prop := forall t st, tenants e !! t = Some st ->
  usd_num (dailySpent st) /\ usd_num (monthlySpent st) /\ usd_num (committed st).

(** What a durable write changes in memory ([persist], [SetStoreHealthy]). *)
Definition store_change (e : MemEnforcer M) (h : bool) (wr : gmap string Z) : MemEnforcer M :=
  mkEnforcer (limits e) (tenants e) h (nextID e) (done_ e) (hasStore e) (seq_ e) wr.

(** One call, in lock order.  Estimates and costs are numbers and never negative
    ([Pricing.cost_nonneg]), and the 64-bit reservation counter does not
    wrap: that takes 2^64 admitted requests. *)
Inductive step (w : window) : world -> world -> Prop :=
| step_admit e iss ex rs clk t est r e' :
    Reserve e clk t est = (inr r, e') ->
    amount (EstUSD est) -> in_range e' -> nextID e + 1 < 2 ^ 64 ->
    step w (mkWorld e iss ex rs)
      (mkWorld e' (r :: iss) (carried w e e' ex)
         (call_for t (total w e clk t (val (EstUSD est))) rs))
| step_deny e iss ex rs clk t est d e' :
    Reserve e clk t est = (inl d, e') ->
    step w (mkWorld e iss ex rs) (mkWorld e' iss (carried w e e' ex) rs)
| step_settle e iss ex rs clk r actual usd e' row :
    r ∈ iss -> amount usd -> in_range e' ->
    Settle e clk r actual usd = (e', row) ->
    step w (mkWorld e iss ex rs)
      (mkWorld e' iss (fun t => carried w e e' ex t + settle_excess e r usd t)
         (call_for (Tenant r) (total w e clk (Tenant r) (val usd + val (EstUSD (Est r)))) rs))
| step_release e iss ex rs clk r :
    r ∈ iss ->
    step w (mkWorld e iss ex rs)
      (mkWorld (Release e clk r) iss (carried w e (Release e clk r) ex)
         (call_for (Tenant r) (total w e clk (Tenant r) (val (EstUSD (Est r)))) rs))
| step_read e iss ex rs clk t :
    step w (mkWorld e iss ex rs)
      (mkWorld (stateFor e t clk).2 iss (carried w e (stateFor e t clk).2 ex) rs)
| step_store e iss ex rs h wr :
    step w (mkWorld e iss ex rs) (mkWorld (store_change e h wr) iss ex rs).

Definition start_world (l : gmap string (Limits M)) : world :=
  mkWorld (NewEnforcer l) [] (fun _ => 0) (fun _ => mkRoundings 0 0).

(** What tenant [t] has reserved and not settled or released. *)
Fixpoint outstanding (done : gset string) (iss : list (Reservation M)) (t : string) : Z :=
  match iss with
  | [] => 0
  | r :: iss =>
      (if decide (Tenant r = t) then
         if bool_decide (ID r ∈ done) then 0 else val (EstUSD (Est r))
       else 0) + outstanding done iss t
  end.

(** The invariant of one tenant's counters, [d] being how far they may have
    drifted. *)
Record tenant_ok (w : window) (l : option (Limits M)) (st : tenantState M) (out ex d : Z)
    : Prop := {
  ok_daily : amount (dailySpent st);
  ok_monthly : amount (monthlySpent st);
  ok_amount : amount (committed st);
  ok_committed : Z.abs (val (committed st) - out) <= d;
  ok_excess : 0 <= ex <= win_spent w st + d;
  ok_cap : forall l', l = Some l' -> usd_num (win_limit w l') -> 0 < win_cap w l' ->
    win_spent w st + out <= win_cap w l' + ex + d /\ out <= win_cap w l' + d
}.

Record world_ok (w : window) (x : world) : Prop := {
  ok_ids : NoDup (ID <$> issued x);
  ok_id_form : forall r, r ∈ issued x -> exists k, 0 < k <= nextID (enf x) /\ ID r = formatID k;
  ok_next : 0 <= nextID (enf x) < 2 ^ 64;
  ok_done : forall r, r ∈ issued x -> amount (EstUSD (Est r));
  ok_done_ids : forall i, i ∈ done_ (enf x) -> i ∈ (ID <$> issued x);
  ok_rounded : forall t, 0 <= rcalls (rounded x t) /\ 0 <= rpeak (rounded x t);
  ok_tenants : forall t,
    match tenants (enf x) !! t with
    | Some st =>
        tenant_ok w (limits (enf x) !! t) st (outstanding (done_ (enf x)) (issued x) t)
          (excess x t) (drift (rounded x t))
    | None => (forall r, r ∈ issued x -> Tenant r <> t) /\ excess x t = 0
    end
}.

(** *** Rounding *)

Lemma usd_err_zero : usd_err M 0 = 0.
Proof. pose proof (usd_err_bound M 0). lia. Qed.

Lemma usd_err_nonneg v : 0 <= usd_err M v.
Proof. apply usd_err_bound. Qed.

Lemma drift_called n v : 0 <= rcalls n -> 0 <= rpeak n -> 0 <= v ->
  drift n + 3 * usd_err M (2 * v) <= drift (called n v).
Proof.
  intros C P V. unfold drift, called. cbn [rcalls rpeak].
  pose proof (usd_err_mono M (2 * v) (2 * Z.max (rpeak n) v) ltac:(lia)).
  pose proof (usd_err_mono M (2 * rpeak n) (2 * Z.max (rpeak n) v) ltac:(lia)). nia.
Qed.

Lemma amount_zero : amount (usd_zero : M).
Proof. split; [apply usd_zero_num|by rewrite usd_zero_val]. Qed.

Lemma amount_add (a b : M) : amount a -> amount b -> usd_num (usd_add a b) ->
  amount (usd_add a b) /\
  Z.abs (val (usd_add a b) - (val a + val b)) <= usd_err M (val a + val b) <= val a + val b.
Proof.
  intros [A Pa] [B Pb] N. pose proof (usd_add_err a b A B N). pose proof (usd_err_bound M (val a + val b)).
  split; [split; [done|]|]; lia.
Qed.

(** A sum within [m] rounds by no more than [usd_err m]. *)
Lemma amount_add_within (a b : M) m : amount a -> amount b -> usd_num (usd_add a b) -> val a + val b <= m ->
  Z.abs (val (usd_add a b) - (val a + val b)) <= usd_err M m.
Proof.
  intros A B N L. destruct (amount_add a b A B N) as [_ E]. destruct A as [_ Pa], B as [_ Pb].
  assert (usd_err M (val a + val b) <= usd_err M m) by (apply usd_err_mono; lia). lia.
Qed.

Lemma unclaim_rounds (st : tenantState M) usd m : amount (committed st) -> amount usd ->
  val (committed st) + val usd <= m ->
  amount (unclaim st usd) /\
  forall out, 0 <= out ->
    Z.abs (val (unclaim st usd) - out) <= Z.abs (val (committed st) - val usd - out) + usd_err M m.
Proof.
  intros [C Pc] [U Pu] L. unfold unclaim. pose proof (usd_sub_num _ _ C U Pc Pu) as N.
  pose proof (usd_sub_err _ _ C U N) as E.
  assert (usd_err M (val (committed st) - val usd) <= usd_err M m) by (apply usd_err_mono; lia).
  rewrite usd_ltb_val, usd_zero_val by (try done; apply usd_zero_num).
  destruct (Z.ltb_spec (val (usd_sub (committed st) usd)) 0).
  - split; [apply amount_zero|]. rewrite usd_zero_val. intros. lia.
  - split; [by split|]. intros. lia.
Qed.

(** What passes a budget check is within the cap, up to two roundings. *)
Lemma overBudget_false cap (spent comm usd : M) m :
  usd_num cap -> amount spent -> amount comm -> amount usd -> 0 < val cap ->
  val spent + val comm + val usd <= m ->
  overBudget cap spent comm usd = false ->
  val spent + val comm + val usd <= val cap + 2 * usd_err M (2 * m).
Proof.
  intros Nc S C U Pc L. unfold overBudget. rewrite usd_ltb_val, usd_zero_val by (try done; apply usd_zero_num).
  rewrite (proj2 (Z.ltb_lt _ _)) by done. cbn [andb].
  destruct S as [Ns Ps], C as [Nk Pk], U as [Nu Pu].
  destruct (usd_add_cases spent comm Ns Nk Ps Pk) as [N1|[O _]].
  2:{ by rewrite usd_over_ltb by (try done; by apply usd_over_add). }
  destruct (amount_add spent comm ltac:(by split) ltac:(by split) N1) as [[_ P1] E1].
  destruct (usd_add_cases _ _ N1 Nu P1 Pu) as [N2|[O _]]; [|by rewrite usd_over_ltb].
  rewrite usd_ltb_val by done. intros B%Z.ltb_ge.
  pose proof (amount_add_within spent comm (2 * m) ltac:(by split) ltac:(by split) N1 ltac:(lia)).
  pose proof (amount_add_within (usd_add spent comm) usd (2 * m) ltac:(by split) ltac:(by split) N2 ltac:(lia)).
  lia.
Qed.

(** *** What is outstanding *)

Lemma outstanding_notin id done iss t :
  id ∉ (ID <$> iss) -> outstanding ({[id]} ∪ done) iss t = outstanding done iss t.
Proof.
  induction iss as [|r iss IH]; simpl; [done|]. rewrite not_elem_of_cons. intros [Hr Hi].
  rewrite IH by done.
  by rewrite (bool_decide_ext (ID r ∈ {[id]} ∪ done) (ID r ∈ done)) by set_solver.
Qed.

Lemma outstanding_done r done iss t :
  r ∈ iss -> ID r ∉ done -> NoDup (ID <$> iss) ->
  outstanding ({[ID r]} ∪ done) iss t
  = outstanding done iss t - (if decide (Tenant r = t) then val (EstUSD (Est r)) else 0).
Proof.
  intros Hr Hd. induction iss as [|r' iss IH]; simpl; [by apply not_elem_of_nil in Hr|].
  rewrite NoDup_cons. intros [Hn Hnd]. apply elem_of_cons in Hr as [->|Hr].
  - rewrite outstanding_notin by done. rewrite (bool_decide_true (_ ∈ _ ∪ _)) by set_solver.
    rewrite (bool_decide_false (_ ∈ done)) by done. case_decide; lia.
  - rewrite IH by done. assert (ID r' <> ID r).
    { intros E. apply Hn. rewrite E. by apply list_elem_of_fmap_2. }
    rewrite (bool_decide_ext (ID r' ∈ {[ID r]} ∪ done) (ID r' ∈ done)) by set_solver. lia.
Qed.

Lemma outstanding_nonneg done iss t :
  (forall r, r ∈ iss -> amount (EstUSD (Est r))) -> 0 <= outstanding done iss t.
Proof.
  induction iss as [|r iss IH]; simpl; [done|]. intros Hp.
  pose proof (proj2 (Hp r (list_elem_of_here _ _))).
  assert (0 <= outstanding done iss t) by (apply IH; intros; apply Hp; by right).
  case_decide; [case_bool_decide|]; lia.
Qed.

(** What is outstanding includes every reservation not yet finished. *)
Lemma outstanding_ge r done iss :
  (forall r, r ∈ iss -> amount (EstUSD (Est r))) -> r ∈ iss -> ID r ∉ done ->
  NoDup (ID <$> iss) -> val (EstUSD (Est r)) <= outstanding done iss (Tenant r).
Proof.
  intros Hp Hr Hd Hn. pose proof (outstanding_done r done iss (Tenant r) Hr Hd Hn) as E.
  rewrite decide_True in E by done.
  pose proof (outstanding_nonneg ({[ID r]} ∪ done) iss (Tenant r) Hp). lia.
Qed.

Lemma outstanding_none done iss t :
  (forall r, r ∈ iss -> Tenant r <> t) -> outstanding done iss t = 0.
Proof.
  induction iss as [|r iss IH]; simpl; [done|]. intros Hp.
  rewrite decide_False by (apply Hp; left). rewrite IH; [done|]. intros; apply Hp; by right.
Qed.

(** *** One tenant, one operation *)

(** The excess that survives [stateFor]. *)
Definition kept (w : window) (o : option (tenantState M)) (st : tenantState M) (ex : Z) : Z :=
  match o with
  | Some s => if decide (win_start w s = win_start w st) then ex else 0
  | None => 0
  end.

Lemma windowOver_moves now start d :
  0 < d <= max_int64 -> windowOver now start d = true -> start <> now.
Proof.
  unfold windowOver. intros Hd. rewrite time_Sub_leb by (unfold min_int64; lia).
  intros ?. bool_to_prop. lia.
Qed.

Lemma tenant_ok_weaken w l s out ex d d' : d <= d' -> tenant_ok w l s out ex d -> tenant_ok w l s out ex d'.
Proof.
  intros L [A B C O E K]. constructor; [done|done|done|lia|lia|]. intros l' El N P.
  destruct (K l' El N P). lia.
Qed.

Lemma win_spent_amount w l s out ex d : tenant_ok w l s out ex d -> 0 <= win_spent w s.
Proof. intros [[_ A] [_ B] _ _ _ _]. by destruct w. Qed.

Lemma rollover_ok w l s out ex d now :
  tenant_ok w l s out ex d ->
  tenant_ok w l (rollover s now) out (kept w (Some s) (rollover s now) ex) d.
Proof.
  intros T. pose proof (win_spent_amount _ _ _ _ _ _ T) as P. destruct T as [Ha Hb Hn Hc He Hcap]. unfold kept.
  assert (D : (win_spent w (rollover s now) = win_spent w s /\
               win_start w (rollover s now) = win_start w s) \/
              (win_spent w (rollover s now) = 0 /\
               win_start w s <> win_start w (rollover s now))).
  { unfold win_spent. destruct w; simpl.
    - destruct (windowOver now (dailyStart s) dailyWindow) eqn:W; [right|by left].
      apply windowOver_moves in W; [|done]. by rewrite usd_zero_val.
    - destruct (windowOver now (monthlyStart s) monthlyWindow) eqn:W; [right|by left].
      apply windowOver_moves in W; [|done]. by rewrite usd_zero_val. }
  assert (Da : amount (dailySpent (rollover s now)) /\ amount (monthlySpent (rollover s now)))
    by (simpl; split; case_match; done || apply amount_zero).
  destruct Da as [Da Db]. destruct D as [[Es Est]|[Es Est]].
  - rewrite decide_True by done. constructor; rewrite ?Es; auto.
  - rewrite decide_False by done. constructor; rewrite ?Es; auto; [lia|].
    intros l' Hl Hl' Hp. specialize (Hcap l' Hl Hl' Hp). lia.
Qed.

Lemma drift_nonneg n : 0 <= rcalls n -> 0 <= drift n.
Proof. intros C. unfold drift. pose proof (usd_err_nonneg (2 * rpeak n)). nia. Qed.

Lemma fresh_ok w l d clk : 0 <= d -> tenant_ok w l (freshTenant clk) 0 0 d.
Proof.
  pose proof amount_zero. intros D. constructor; simpl; try done.
  - rewrite usd_zero_val. lia.
  - destruct w; unfold win_spent; simpl; rewrite usd_zero_val; lia.
  - intros l' _ _ P. destruct w; unfold win_spent; simpl; rewrite usd_zero_val; lia.
Qed.

Lemma stateFor_ok w x t clk :
  world_ok w x ->
  tenant_ok w (limits (enf x) !! t) (stateFor (enf x) t clk).1
    (outstanding (done_ (enf x)) (issued x) t)
    (kept w (tenants (enf x) !! t) (stateFor (enf x) t clk).1 (excess x t)) (drift (rounded x t)).
Proof.
  intros W. pose proof (ok_tenants _ _ W t) as T. pose proof (ok_rounded _ _ W t) as [R _].
  unfold stateFor; simpl. destruct (tenants (enf x) !! t) as [s|] eqn:E.
  - by apply rollover_ok.
  - destruct T as [Hn _]. rewrite outstanding_none by done. by apply fresh_ok, drift_nonneg.
Qed.

(** An operation replaces the counters of one tenant, keeping the windows
    [stateFor] left, and touches no other tenant. *)
Lemma world_update w x t clk e' st' iss' d rs' :
  world_ok w x ->
  let st := (stateFor (enf x) t clk).1 in
  tenants e' = <[t := st']> (tenants (enf x)) ->
  limits e' = limits (enf x) ->
  win_start w st' = win_start w st ->
  (forall u, u <> t -> outstanding (done_ e') iss' u
                       = outstanding (done_ (enf x)) (issued x) u) ->
  (forall r, r ∈ iss' -> r ∈ issued x \/ Tenant r = t) ->
  (forall u, u <> t -> d u = 0 /\ rs' u = rounded x u) ->
  (forall out ex, tenant_ok w (limits (enf x) !! t) st
       (outstanding (done_ (enf x)) (issued x) t) ex (drift (rounded x t)) ->
     out = outstanding (done_ e') iss' t ->
     tenant_ok w (limits (enf x) !! t) st' out (ex + d t) (drift (rs' t))) ->
  forall u,
    match tenants e' !! u with
    | Some s => tenant_ok w (limits e' !! u) s (outstanding (done_ e') iss' u)
                  (carried w (enf x) e' (excess x) u + d u) (drift (rs' u))
    | None => (forall r, r ∈ iss' -> Tenant r <> u) /\
              carried w (enf x) e' (excess x) u + d u = 0
    end.
Proof.
  intros W st Et El Es Ho Hi Hd Hst u. unfold carried. rewrite Et, El.
  destruct (decide (u = t)) as [->|Hne].
  - rewrite lookup_insert_eq.
    pose proof (stateFor_ok w x t clk W) as S. fold st in S. unfold kept in S.
    rewrite <- Es in S. by apply Hst.
  - rewrite lookup_insert_ne by done. destruct (Hd u Hne) as [Du Ru]. rewrite Ho, Du, Ru, Z.add_0_r by done.
    pose proof (ok_tenants _ _ W u) as T. destruct (tenants (enf x) !! u) as [s|].
    + by rewrite decide_True.
    + destruct T as [Hn He]. split; [|done]. intros r Hr. destruct (Hi r Hr) as [Hr'|Hr'].
      * by apply Hn.
      * congruence.
Qed.

(** *** One call's arithmetic *)

Lemma claim_ok w l lim st est out ex d m :
  tenant_ok w l st out ex d -> l = Some lim -> checkBudgets st lim est = None ->
  amount (EstUSD est) -> usd_num (committed (claim st est)) ->
  win_spent w st + val (committed st) + val (EstUSD est) <= m ->
  tenant_ok w l (claim st est) (val (EstUSD est) + out) (ex + 0) (d + 3 * usd_err M (2 * m)).
Proof.
  intros T -> B Hp N L. pose proof (win_spent_amount _ _ _ _ _ _ T) as Ps.
  destruct T as [Ha Hb Hn Hc He Hcap]. pose proof (usd_err_nonneg (2 * m)).
  destruct (amount_add _ _ Hn Hp N) as [Hn' _]. destruct Hn as [Nc Pc], Hp as [Ne Pe].
  pose proof (amount_add_within (committed st) (EstUSD est) (2 * m) ltac:(by split) ltac:(by split) N ltac:(lia)).
  assert (Es : win_spent w (claim st est) = win_spent w st) by (by destruct w).
  constructor; rewrite ?Es; try done; cbn [claim committed]; [lia|lia|].
  intros l' [= <-] Nw Hw. unfold checkBudgets in B.
  destruct (overBudget (DailyUSD lim) _ _ _) eqn:Bd; [done|].
  destruct (overBudget (MonthlyUSD lim) _ _ _) eqn:Bm; [done|].
  assert (X : win_spent w st + val (committed st) + val (EstUSD est) <= win_cap w lim + 2 * usd_err M (2 * m)).
  { destruct w; [apply overBudget_false with (m := m) in Bd|apply overBudget_false with (m := m) in Bm]; done. }
  lia.
Qed.

Lemma settled_ok w l st est actual usd out ex d m :
  tenant_ok w l st out ex d -> amount (EstUSD est) -> val (EstUSD est) <= out -> amount usd ->
  usd_num (dailySpent (settled st est actual usd)) -> usd_num (monthlySpent (settled st est actual usd)) ->
  win_spent w st + val (committed st) + (val usd + val (EstUSD est)) <= m ->
  tenant_ok w l (settled st est actual usd) (out - val (EstUSD est))
    (ex + Z.max 0 (val usd - val (EstUSD est))) (d + 3 * usd_err M (2 * m)).
Proof.
  intros T He' Ho Hu Na Nb L. pose proof (win_spent_amount _ _ _ _ _ _ T) as Ps.
  destruct T as [Ha Hb Hn Hc He Hcap]. pose proof (usd_err_nonneg (2 * m)).
  destruct (amount_add _ _ Ha Hu Na) as [Ha' _], (amount_add _ _ Hb Hu Nb) as [Hb' _].
  assert (S : Z.abs (win_spent w (settled st est actual usd) - (win_spent w st + val usd)) <= usd_err M (2 * m)).
  { destruct w; unfold win_spent in *; cbn [settled dailySpent monthlySpent] in *; apply amount_add_within; try done;
      destruct Hn, He', Hu; lia. }
  destruct (unclaim_rounds st (EstUSD est) (2 * m) Hn He') as [Hn' R]; [destruct Hn, He', Hu; lia|].
  specialize (R (out - val (EstUSD est))). assert (0 <= out - val (EstUSD est)) as Q by lia. specialize (R Q).
  destruct Hu as [_ Pu], He' as [_ Pe].
  constructor; try done; cbn [settled committed]; [lia|lia|]. intros l' Hl Hl' Hw. specialize (Hcap l' Hl Hl' Hw). lia.
Qed.

Lemma released_ok w l st usd out ex d m :
  tenant_ok w l st out ex d -> amount usd -> val usd <= out ->
  win_spent w st + val (committed st) + val usd <= m ->
  tenant_ok w l
    (mkTenant (dailySpent st) (dailyStart st) (monthlySpent st) (monthlyStart st)
       (unclaim st usd) (requests st) (requestsAt st) (tokens st) (tokensAt st))
    (out - val usd) (ex + 0) (d + 3 * usd_err M (2 * m)).
Proof.
  intros T Hu Ho L. pose proof (win_spent_amount _ _ _ _ _ _ T) as Ps.
  destruct T as [Ha Hb Hn Hc He Hcap]. pose proof (usd_err_nonneg (2 * m)).
  destruct (unclaim_rounds st usd (2 * m) Hn Hu) as [Hn' R]; [destruct Hn, Hu; lia|].
  specialize (R (out - val usd)). assert (0 <= out - val usd) as Q by lia. specialize (R Q). destruct Hu as [_ Pu].
  match goal with |- tenant_ok _ _ ?s _ _ _ => assert (Es : win_spent w s = win_spent w st) by (by destruct w) end.
  constructor; try done; rewrite ?Es; cbn [committed]; [lia|lia|].
  intros l' Hl Hl' Hw. specialize (Hcap l' Hl Hl' Hw). lia.
Qed.

Lemma carried_refl w e ex t : tenants e !! t <> None \/ ex t = 0 -> carried w e e ex t = ex t.
Proof.
  unfold carried. destruct (tenants e !! t); [by rewrite decide_True|].
  intros [Hn|Hx]; by try rewrite Hx.
Qed.

Lemma call_for_ok t v rs : (forall u, 0 <= rcalls (rs u) /\ 0 <= rpeak (rs u)) ->
  forall u, 0 <= rcalls (call_for t v rs u) /\ 0 <= rpeak (call_for t v rs u).
Proof. intros R u. specialize (R u). unfold call_for, called. case_decide; cbn; lia. Qed.

Lemma call_for_other t v rs u : u <> t -> call_for t v rs u = rs u.
Proof. intros N. unfold call_for. by rewrite decide_False. Qed.

Lemma call_for_drift t v rs u : (forall u, 0 <= rcalls (rs u) /\ 0 <= rpeak (rs u)) -> 0 <= v ->
  drift (rs u) <= drift (call_for t v rs u).
Proof.
  intros R V. unfold call_for. case_decide; [|done]. destruct (R u) as [C P].
  pose proof (drift_called (rs u) v C P V). pose proof (usd_err_nonneg (2 * v)). lia.
Qed.

(** What the call for [t] adds to its drift covers its three roundings. *)
Lemma call_for_here t v rs : (forall u, 0 <= rcalls (rs u) /\ 0 <= rpeak (rs u)) -> 0 <= v ->
  drift (rs t) + 3 * usd_err M (2 * v) <= drift (call_for t v rs t).
Proof. intros R V. unfold call_for. rewrite decide_True by done. destruct (R t). by apply drift_called. Qed.

Lemma total_nonneg w x clk t v : world_ok w x -> 0 <= v -> 0 <= total w (enf x) clk t v.
Proof.
  intros W V. pose proof (stateFor_ok w x t clk W) as T. pose proof (win_spent_amount _ _ _ _ _ _ T).
  destruct (ok_amount _ _ _ _ _ _ T). unfold total. lia.
Qed.

(** *** Steps *)

(** A call that changes nothing keeps the invariant. *)
Lemma unchanged_ok w e iss ex rs d rs' :
  (forall t, d t = 0) -> (forall t, 0 <= rcalls (rs' t) /\ 0 <= rpeak (rs' t)) ->
  (forall t, drift (rs t) <= drift (rs' t)) -> world_ok w (mkWorld e iss ex rs) ->
  world_ok w (mkWorld e iss (fun t => carried w e e ex t + d t) rs').
Proof.
  intros Hd R' Hr [A B C D E R T]. constructor; simpl in *; auto. intros t. specialize (T t).
  rewrite Hd, Z.add_0_r. rewrite carried_refl.
  - destruct (tenants e !! t); [eapply tenant_ok_weaken; [apply Hr|done]|done].
  - destruct (tenants e !! t); [by left|right; by destruct T].
Qed.

Lemma world_ok_ext w e iss ex ex' rs :
  (forall t, ex t = ex' t) -> world_ok w (mkWorld e iss ex rs) -> world_ok w (mkWorld e iss ex' rs).
Proof.
  intros Hx [A B C D E R T]. constructor; simpl in *; auto. intros t. rewrite <- Hx. apply T.
Qed.

Lemma read_step w e iss ex rs clk t :
  world_ok w (mkWorld e iss ex rs) ->
  world_ok w (mkWorld (stateFor e t clk).2 iss (carried w e (stateFor e t clk).2 ex) rs).
Proof.
  intros W. apply world_ok_ext with (fun u => carried w e (stateFor e t clk).2 ex u + 0);
    [intros; lia|].
  pose proof W as [A B C D E R _].
  constructor; [exact A|exact B|exact C|exact D|exact E|exact R|].
  apply (world_update w (mkWorld e iss ex rs) t clk (stateFor e t clk).2 (stateFor e t clk).1
           iss (fun _ => 0)); try done; auto.
  intros out x T ->. by rewrite Z.add_0_r.
Qed.

Lemma admit_step w e iss ex rs clk t est r e' :
  world_ok w (mkWorld e iss ex rs) ->
  Reserve e clk t est = (inr r, e') -> amount (EstUSD est) -> in_range e' -> nextID e + 1 < 2 ^ 64 ->
  world_ok w (mkWorld e' (r :: iss) (carried w e e' ex)
    (call_for t (total w e clk t (val (EstUSD est))) rs)).
Proof.
  intros W E Hp Rg Hn. pose proof (Reserve_cases e clk t est) as C. cbv zeta in C.
  rewrite E in C.
  destruct C as (lim & L & _ & _ & Bg & Hr & El & _ & Et & Ei & Ed & _).
  pose proof (total_nonneg w (mkWorld e iss ex rs) clk t _ W (proj2 Hp)) as V. cbn [enf] in V.
  pose proof W as [A B C D F R _]; cbn [enf issued excess rounded] in *.
  rewrite wrapu64_id in Hr, Ei by lia.
  assert (Fresh : ID r ∉ (ID <$> iss)).
  { intros (r0 & E0 & H0')%list_elem_of_fmap. destruct (B r0 H0') as (k & Hk & Ek).
    rewrite <- E0, Hr in Ek. simpl in Ek. apply formatID_inj in Ek; lia. }
  apply world_ok_ext with (fun u => carried w e e' ex u + 0); [intros; lia|].
  constructor; cbn [enf issued excess rounded]; rewrite ?Ei, ?Ed.
  - by constructor.
  - intros r0 [->|H0']%elem_of_cons.
    + exists (nextID e + 1). subst r. split; [lia|done].
    + destruct (B r0 H0') as (k & Hk & Ek). exists k. split; [lia|done].
  - lia.
  - intros r0 [->|H0']%elem_of_cons; [by subst r|auto].
  - set_solver.
  - by apply call_for_ok.
  - rewrite <- Ed.
    apply (world_update w (mkWorld e iss ex rs) t clk e' (claim (stateFor e t clk).1 est)
             (r :: iss) (fun _ => 0)); try done; cbn [enf issued excess rounded].
    + intros u Hu. rewrite Ed. subst r. simpl. by rewrite decide_False by congruence.
    + intros r0 [->|H0']%elem_of_cons; [right; by subst r|by left].
    + intros u Hu. split; [done|by apply call_for_other].
    + intros out x T ->. eapply tenant_ok_weaken; [by apply call_for_here|].
      cbn [outstanding]. rewrite Ed, decide_True by (by subst r).
      rewrite bool_decide_false by (intros Hi; by apply Fresh, F).
      replace (EstUSD (Est r)) with (EstUSD est) by (by subst r).
      apply claim_ok with lim; try done.
      apply (Rg t). rewrite Et. apply lookup_insert_eq.
Qed.

Lemma finish_step w e iss ex rs clk r e' st' d v :
  world_ok w (mkWorld e iss ex rs) -> r ∈ iss -> ID r ∉ done_ e ->
  let st := (stateFor e (Tenant r) clk).1 in
  tenants e' = <[Tenant r := st']> (tenants e) -> limits e' = limits e ->
  nextID e' = nextID e -> done_ e' = {[ID r]} ∪ done_ e ->
  win_start w st' = win_start w st -> 0 <= v ->
  (forall u, u <> Tenant r -> d u = 0) ->
  (forall out x k, tenant_ok w (limits e !! Tenant r) st out x k ->
     amount (EstUSD (Est r)) -> val (EstUSD (Est r)) <= out ->
     tenant_ok w (limits e !! Tenant r) st' (out - val (EstUSD (Est r))) (x + d (Tenant r))
       (k + 3 * usd_err M (2 * total w e clk (Tenant r) v))) ->
  world_ok w (mkWorld e' iss (fun u => carried w e e' ex u + d u)
    (call_for (Tenant r) (total w e clk (Tenant r) v) rs)).
Proof.
  intros W Hr Hd st Et El Ei Ed Es Hv Hx Hst.
  pose proof (total_nonneg w (mkWorld e iss ex rs) clk (Tenant r) v W Hv) as V. cbn [enf] in V.
  pose proof W as [A B C D F R _]; cbn [enf issued excess rounded] in *.
  constructor; cbn [enf issued excess rounded]; rewrite ?Ei, ?Ed; auto.
  - intros i [->%elem_of_singleton|Hi]%elem_of_union; [by apply list_elem_of_fmap_2|auto].
  - by apply call_for_ok.
  - rewrite <- Ed.
    apply (world_update w (mkWorld e iss ex rs) (Tenant r) clk e' st' iss d); try done; auto;
      cbn [enf issued excess rounded]; rewrite ?Ed.
    + intros u Hu. rewrite outstanding_done by done. rewrite decide_False by done. lia.
    + intros u Hu. split; [by apply Hx|by apply call_for_other].
    + intros out x T ->. eapply tenant_ok_weaken; [by apply call_for_here|].
      rewrite outstanding_done by done. rewrite decide_True by done.
      apply Hst; [done|auto|]. by apply outstanding_ge.
Qed.

Lemma step_ok w x y : step w x y -> world_ok w x -> world_ok w y.
Proof.
  destruct 1 as [e iss ex rs clk t est r e' E Hp Rg Hn|e iss ex rs clk t est d e' E
                |e iss ex rs clk r actual usd e' row Hr Hu Rg E|e iss ex rs clk r Hr|e iss ex rs clk t
                |e iss ex rs h wr];
    intros W.
  - by eapply admit_step.
  - pose proof (Reserve_cases e clk t est) as C. cbv zeta in C. rewrite E in C.
    assert (e' = e \/ e' = (stateFor e t clk).2) as [->| ->].
    { destruct C as [(_ & _ & ->)|(l & _ & [(_ & _ & _ & ->)|(_ & -> & _)])]; auto. }
    + apply world_ok_ext with (fun u => carried w e e ex u + 0); [intros; lia|].
      apply (unchanged_ok w e iss ex rs (fun _ => 0)); try done. apply W.
    + by apply read_step.
  - pose proof (ok_done _ _ W r Hr) as Ha. pose proof (ok_rounded _ _ W) as R. cbn [rounded] in R.
    assert (Hv : 0 <= val usd + val (EstUSD (Est r))) by (destruct Ha, Hu; lia).
    pose proof (total_nonneg w _ clk (Tenant r) _ W Hv) as V. cbn [enf] in V.
    destruct (Settle_cases e clk r actual usd) as [[Hd E2]|(Hd & Et & El & _ & Ei & Ed & _)].
    + rewrite E in E2. simplify_eq. apply (unchanged_ok w e iss ex rs); [|by apply call_for_ok|by intros; apply call_for_drift|done].
      intros u. unfold settle_excess. by rewrite bool_decide_true.
    + rewrite E in *. cbn [fst] in *. destruct (Rg (Tenant r) _ ltac:(rewrite Et; apply lookup_insert_eq)) as (Na & Nb & _).
      eapply finish_step; try done.
      * intros u Hne. unfold settle_excess. rewrite bool_decide_false by done.
        by rewrite decide_False.
      * intros out x k T _ Ho. unfold settle_excess. rewrite bool_decide_false by done.
        rewrite decide_True by done. by apply settled_ok.
  - pose proof (ok_done _ _ W r Hr) as Ha. pose proof (ok_rounded _ _ W) as R. cbn [rounded] in R.
    pose proof (total_nonneg w _ clk (Tenant r) _ W (proj2 Ha)) as V. cbn [enf] in V.
    apply world_ok_ext with (fun u => carried w e (Release e clk r) ex u + 0);
      [intros; lia|].
    destruct (Release_cases e clk r) as [[Hd ->]|(Hd & Et & El & _ & Ei & Ed & _)].
    + apply (unchanged_ok w e iss ex rs (fun _ => 0)); [done|by apply call_for_ok|by intros; apply call_for_drift|done].
    + cbv zeta in *. eapply (finish_step w e iss ex rs clk r _ _ (fun _ => 0)); try done; [apply Ha|].
      intros. by apply released_ok.
  - by apply read_step.
  - destruct W as [A B C D F R T]. by constructor.
Qed.

Lemma start_ok w l : world_ok w (start_world l).
Proof.
  constructor; simpl; try done; try set_solver.
  - constructor.
  - intros t. rewrite lookup_empty. set_solver.
Qed.

Lemma reach_ok w l x : rtc (step w) (start_world l) x -> world_ok w x.
Proof.
  intros R. pose proof (start_ok w l) as S. revert S.
  induction R as [|x y z Hs _ IH]; [done|]. intros W. apply IH. by eapply step_ok.
Qed.

Lemma reach_limits w l x : rtc (step w) (start_world l) x -> limits (enf x) = l.
Proof.
  intros R. change l with (limits (enf (start_world l))). revert R.
  generalize (start_world l). intros y R. induction R as [|x y z Hs _ IH]; [done|].
  rewrite IH. destruct Hs as [e iss ex rs clk t est r e' E _ _ _|e iss ex rs clk t est d e' E
                |e iss ex rs clk r actual usd e' row _ _ _ E|e iss ex rs clk r _|e iss ex rs clk t
                |e iss ex rs h wr]; simpl.
  - pose proof (Reserve_cases e clk t est) as C. cbv zeta in C. rewrite E in C.
    destruct C as (lim & _ & _ & _ & _ & _ & El & _). done.
  - pose proof (Reserve_cases e clk t est) as C. cbv zeta in C. rewrite E in C.
    by destruct C as [(_ & _ & ->)|(lim & _ & [(_ & _ & _ & ->)|(_ & -> & _)])].
  - destruct (Settle_cases e clk r actual usd) as [[Hd E2]|(Hd & Et & El & _)];
      rewrite E in *; by simplify_eq.
  - by destruct (Release_cases e clk r) as [[Hd ->]|(Hd & Et & El & _)].
  - done.
  - done.
Qed.
End Histories.

Arguments world : clear implicits.

(** ** Timed call sequences

    Every method of the enforcer, at the time it read the clock. *)

Section Calls.
Context {M : Type} `{USD M}.

Inductive call :=
| CReserve (t : string) (est : Estimate M)
| CSettle (r : Reservation M) (actual : Usage) (usd : M)
| CRelease (r : Reservation M)
| CSpent (t : string)
| CStore (h : bool) (wr : gmap string Z).

(** The enforcer after the call, and the tenant it admitted. *)
Definition exec (e : MemEnforcer M) (clk : Time) (c : call) : MemEnforcer M * option string :=
  match c with
  | CReserve t est =>
      match Reserve e clk t est with
      | (inr _, e') => (e', Some t)
      | (inl _, e') => (e', None)
      end
  | CSettle r actual usd => ((Settle e clk r actual usd).1, None)
  | CRelease r => (Release e clk r, None)
  | CSpent t => ((stateFor e t clk).2, None)
  | CStore h wr => (store_change e h wr, None)
  end.

Fixpoint execs (e : MemEnforcer M) (cs : list (Time * call)) : MemEnforcer M :=
  match cs with
  | [] => e
  | (clk, c) :: cs => execs (exec e clk c).1 cs
  end.

Definition admits (t : string) (o : option string) : Z :=
  if decide (o = Some t) then 1 else 0.

(** Requests of [t] admitted at a time in [[a, b)]. *)
Fixpoint admitted (t : string) (a b : Time) (e : MemEnforcer M) (cs : list (Time * call)) : Z :=
  match cs with
  | [] => 0
  | (clk, c) :: cs =>
      (if (a <=? clk) && (clk <? b) then admits t (exec e clk c).2 else 0)
      + admitted t a b (exec e clk c).1 cs
  end.

(** *** What a call does to one tenant's request window *)

Lemma checkRates_requests (st : tenantState M) (l : Limits M) est clk :
  checkRates st l est clk = None -> 0 < RequestsPerMinute l ->
  requests st < RequestsPerMinute l.
Proof.
  unfold checkRates. destruct ((0 <? RequestsPerMinute l) && _) eqn:R; [done|].
  intros _ Hp. apply andb_false_iff in R as [R|R]; bool_to_prop; lia.
Qed.

Lemma exec_request_window e clk c t lim :
  limits e !! t = Some lim -> 0 < RequestsPerMinute lim <= max_int64 ->
  let st := (stateFor e t clk).1 in
  let '(e', o) := exec e clk c in
  limits e' !! t = Some lim /\
  ((tenants e' !! t = tenants e !! t /\ admits t o = 0) \/
   (exists st', tenants e' !! t = Some st' /\ requestsAt st' = requestsAt st /\
      ((requests st' = requests st /\ admits t o = 0) \/
       (requests st' = requests st +i 1 /\ admits t o = 1 /\
        requests st < RequestsPerMinute lim)))).
Proof.
  intros L Hn. cbv zeta. unfold exec, admits. destruct c as [u est|r actual usd|r|u|h wr].
  - pose proof (Reserve_cases e clk u est) as C. pose proof (Reserve_other e clk u est t) as O.
    cbv zeta in C. destruct (Reserve e clk u est) as [[d|r] e'].
    + rewrite decide_False by done.
      destruct C as [(_ & _ & ->)|(l & _ & [(_ & _ & _ & ->)|(_ & -> & _)])]; auto.
      split; [done|]. destruct (decide (u = t)) as [->|Hne].
      * right. exists (stateFor e t clk).1. rewrite stateFor_tenants, decide_True by done. auto.
      * left. by rewrite stateFor_tenants, decide_False.
    + destruct C as (l & Ll & _ & Rt & _ & _ & El & _ & Et & _). rewrite El. split; [done|].
      destruct (decide (u = t)) as [->|Hne].
      * right. rewrite Et, lookup_insert_eq. exists (claim (stateFor e t clk).1 est).
        simplify_eq. split_and!; try done. right. rewrite decide_True by done.
        split_and!; try done. eapply checkRates_requests; [done|lia].
      * left. simpl in O. rewrite O by done. by rewrite decide_False by congruence.
  - rewrite decide_False by done.
    destruct (Settle_cases e clk r actual usd) as [[_ E]|(_ & Et & El & _)].
    + rewrite E. auto.
    + rewrite Et, El. split; [done|]. destruct (decide (Tenant r = t)) as [<-|Hne].
      * right. rewrite lookup_insert_eq. eexists. split; [done|]. auto.
      * left. by rewrite lookup_insert_ne.
  - rewrite decide_False by done.
    destruct (Release_cases e clk r) as [[_ E]|(_ & Et & El & _)].
    + rewrite E. auto.
    + rewrite Et, El. split; [done|]. destruct (decide (Tenant r = t)) as [<-|Hne].
      * right. rewrite lookup_insert_eq. eexists. split; [done|]. auto.
      * left. by rewrite lookup_insert_ne.
  - rewrite decide_False by done. split; [done|].
    destruct (decide (u = t)) as [->|Hne].
    + right. exists (stateFor e t clk).1. rewrite stateFor_tenants, decide_True by done. auto.
    + left. by rewrite stateFor_tenants, decide_False.
  - rewrite decide_False by done. auto.
Qed.

(** *** The request rate over any minute *)

Definition sorted_calls (cs : list (Time * call)) : Prop := StronglySorted Z.le cs.*1.

Lemma admitted_late t a b e cs :
  Forall (fun c => b <= c) cs.*1 -> admitted t a b e cs = 0.
Proof.
  revert e. induction cs as [|[clk c] cs IH]; intros e; simpl; [done|].
  rewrite Forall_cons. intros [Hc Hr]. rewrite IH by done.
  replace (clk <? b) with false by (symmetry; apply Z.ltb_ge; lia).
  by rewrite andb_false_r.
Qed.

Lemma admits_range t o : 0 <= admits t o <= 1.
Proof. unfold admits. case_decide; lia. Qed.

Section Rate.
Variables (t : string) (lim : Limits M) (a b : Time).
Hypothesis rpm_pos : 0 < RequestsPerMinute lim <= max_int64.
Hypothesis short : b - a <= rateWindow.
Local Abbreviation n := (RequestsPerMinute lim).

Lemma stateFor_requests e clk st :
  tenants e !! t = Some st ->
  (requests (stateFor e t clk).1 = requests st /\
   requestsAt (stateFor e t clk).1 = requestsAt st) \/
  (requests (stateFor e t clk).1 = 0 /\ requestsAt (stateFor e t clk).1 = clk /\
   rateWindow <= clk - requestsAt st).
Proof.
  intros E. unfold stateFor. rewrite E. simpl.
  destruct (windowOver clk (requestsAt st) rateWindow) eqn:W; [right|by left].
  unfold windowOver in W. rewrite time_Sub_leb in W by done. bool_to_prop. auto.
Qed.

(** While the window [st] counts stays open, it admits what is left of it. *)
Lemma admitted_open e st cs :
  limits e !! t = Some lim -> tenants e !! t = Some st -> 0 <= requests st <= n ->
  b <= requestsAt st + rateWindow -> sorted_calls cs ->
  admitted t a b e cs <= n - requests st.
Proof.
  revert e st. induction cs as [|[clk c] cs IH]; intros e st L E Hq Hb S; simpl; [lia|].
  apply StronglySorted_inv in S as [S1 S2].
  destruct (decide (clk < b)) as [Hlt|Hge].
  - pose proof (exec_request_window e clk c t lim L rpm_pos) as X. cbv zeta in X.
    destruct (exec e clk c) as [e' o]. destruct X as [L' X]. simpl.
    pose proof (stateFor_requests e clk st E) as [[Eq Ea]|(_ & _ & Hr)]; [|lia].
    pose proof (admits_range t o).
    assert (Hcase : exists st', tenants e' !! t = Some st' /\
      requestsAt st' = requestsAt st /\ 0 <= requests st' <= n /\
      requests st' = requests st + admits t o).
    { destruct X as [[-> A]|(st' & Est & Eat & [[Er A]|(Er & A & Hn)])].
      - exists st. split_and!; done || lia.
      - exists st'. split_and!; try done; try congruence; lia.
      - exists st'. rewrite Eq in *. rewrite wrap64_id in Er
          by (unfold is_int64, min_int64; lia).
        split_and!; try done; try congruence; lia. }
    destruct Hcase as (st' & Est & Eat & Hr & Er).
    specialize (IH e' st' L' Est Hr ltac:(lia) S1).
    destruct (_ && _); lia.
  - rewrite admitted_late.
    + replace (clk <? b) with false by (symmetry; apply Z.ltb_ge; lia).
      rewrite andb_false_r. lia.
    + eapply Forall_impl; [exact S2|]. simpl; lia.
Qed.

(** Otherwise the window turns over at most once inside [[a, b)]. *)
Definition window_room (o : option (tenantState M)) : Z :=
  match o with Some st => 2 * n - requests st | None => 2 * n end.
Definition requests_bounded (o : option (tenantState M)) : Prop :=
  match o with Some st => 0 <= requests st <= n | None => True end.

Lemma exec_room e clk c :
  limits e !! t = Some lim -> requests_bounded (tenants e !! t) ->
  let e' := (exec e clk c).1 in
  let k := admits t (exec e clk c).2 in
  limits e' !! t = Some lim /\ requests_bounded (tenants e' !! t) /\
  (k + window_room (tenants e' !! t) = window_room (tenants e !! t) \/
   exists st, tenants e' !! t = Some st /\ requestsAt st = clk /\ requests st = k).
Proof.
  intros L Q. pose proof (exec_request_window e clk c t lim L rpm_pos) as X.
  cbv zeta in X |- *. destruct (exec e clk c) as [e' o]. destruct X as [L' X]. simpl.
  split; [done|].
  destruct X as [[-> ->]|(st' & -> & Eat & X)]; [by auto|]. simpl.
  assert (D : (exists st, tenants e !! t = Some st /\
                requests (stateFor e t clk).1 = requests st) \/
              (requests (stateFor e t clk).1 = 0 /\ requestsAt (stateFor e t clk).1 = clk)).
  { destruct (tenants e !! t) as [st|] eqn:E.
    - destruct (stateFor_requests e clk st E) as [[Eq Ea]|(Eq & Ea & _)]; eauto.
    - right. unfold stateFor. by rewrite E. }
  destruct D as [(st & E & Eq)|[Eq Ea]].
  - rewrite E in *. simpl in *. rewrite Eq in *.
    destruct X as [[Er A]|(Er & A & Hn)]; rewrite A; [lia|].
    rewrite wrap64_id in Er by (unfold is_int64, min_int64; lia). lia.
  - rewrite Ea in Eat. rewrite Eq in X. destruct X as [[Er A]|(Er & A & Hn)].
    + split; [lia|]. right. exists st'. split_and!; done || lia.
    + rewrite wrap64_id in Er by (unfold is_int64, min_int64, max_int64 in *; lia).
      split; [lia|]. right. exists st'. split_and!; done || lia.
Qed.

Lemma admitted_from e cs :
  limits e !! t = Some lim -> requests_bounded (tenants e !! t) ->
  Forall (fun c => a <= c) cs.*1 -> sorted_calls cs ->
  admitted t a b e cs <= window_room (tenants e !! t).
Proof.
  revert e. induction cs as [|[clk c] cs IH]; intros e L Q Ha S.
  { simpl. destruct (tenants e !! t); simpl in *; lia. }
  pose proof S as S0. apply StronglySorted_inv in S as [S1 S2].
  apply Forall_cons in Ha as [Ha1 Ha2].
  destruct (exec_room e clk c L Q) as (L' & Q' & X). simpl.
  pose proof (admits_range t (exec e clk c).2).
  assert (admitted t a b (exec e clk c).1 cs + admits t (exec e clk c).2
          <= window_room (tenants e !! t)); [|by destruct (_ && _); lia].
  destruct X as [X|(st & E & Eat & Er)].
  - specialize (IH _ L' Q' Ha2 S1). lia.
  - rewrite E in Q'. simpl in *.
    assert (admitted t a b (exec e clk c).1 cs <= n - requests st)
      by (apply admitted_open; try done; lia).
    destruct (tenants e !! t); simpl in *; lia.
Qed.

Lemma admitted_any e cs :
  limits e !! t = Some lim -> requests_bounded (tenants e !! t) -> sorted_calls cs ->
  admitted t a b e cs <= 2 * n.
Proof.
  revert e. induction cs as [|[clk c] cs IH]; intros e L Q S; [simpl; lia|].
  destruct (decide (a <= clk)) as [Hle|Hlt].
  - transitivity (window_room (tenants e !! t)).
    + apply admitted_from; try done. apply StronglySorted_inv in S as [S1 S2].
      constructor; [done|]. eapply Forall_impl; [exact S2|]. simpl; lia.
    + destruct (tenants e !! t); simpl in *; lia.
  - simpl. apply StronglySorted_inv in S as [S1 _].
    destruct (exec_room e clk c L Q) as (L' & Q' & _).
    replace (a <=? clk) with false by (symmetry; apply Z.leb_gt; lia). simpl. by apply IH.
Qed.
End Rate.
End Calls.

(** ** Properties *)

Section Decision.
Context {M : Type} `{USD M}.
Implicit Types (e : MemEnforcer M) (st : tenantState M) (lim : Limits M).

(** The conditions on which a request is admitted. *)
Definition rate_room st lim (est : Estimate M) : Prop :=
  (0 < RequestsPerMinute lim -> requests st < RequestsPerMinute lim) /\
  (0 < TokensPerMinute lim ->
     tokens st + (EstPrompt est + EstCompletion est) <= TokensPerMinute lim).

Definition budget_room st lim (est : Estimate M) : Prop :=
  overBudget (DailyUSD lim) (dailySpent st) (committed st) (EstUSD est) = false /\
  overBudget (MonthlyUSD lim) (monthlySpent st) (committed st) (EstUSD est) = false.

Lemma checkRates_none st lim est clk :
  is_int64 (EstPrompt est + EstCompletion est) ->
  is_int64 (tokens st + (EstPrompt est + EstCompletion est)) ->
  checkRates st lim est clk = None <-> rate_room st lim est.
Proof.
  intros H1 H2. unfold checkRates, rate_room. rewrite (wrap64_id (_ + EstCompletion est)) by done.
  rewrite wrap64_id by done.
  destruct (0 <? RequestsPerMinute lim) eqn:A, (RequestsPerMinute lim <=? requests st) eqn:B,
    (0 <? TokensPerMinute lim) eqn:C; simpl;
    try (destruct (TokensPerMinute lim <? _) eqn:D); bool_to_prop;
    split; intros X; try done; try lia; try (split; intros; lia);
    destruct X as [X1 X2]; lia.
Qed.

Lemma checkBudgets_none st lim est : checkBudgets st lim est = None <-> budget_room st lim est.
Proof.
  unfold checkBudgets, budget_room.
  destruct (overBudget (DailyUSD lim) _ _ _), (overBudget (MonthlyUSD lim) _ _ _); naive_solver.
Qed.

(** [Reserve] admits a configured tenant's request exactly when the
    store is healthy or the tenant fails open, the request and token rates of
    the current minute have room, and neither the daily nor the monthly
    budget would be passed by what is spent, claimed and estimated.  A
    refusal takes nothing: it leaves the counters as reading them does. *)
Theorem reserve_decision e clk t est lim :
  limits e !! t = Some lim ->
  is_int64 (EstPrompt est + EstCompletion est) ->
  is_int64 (tokens (stateFor e t clk).1 + (EstPrompt est + EstCompletion est)) ->
  ((exists r, (Reserve e clk t est).1 = inr r) <->
   (healthy e = true \/ FailClosed lim = false) /\
   rate_room (stateFor e t clk).1 lim est /\ budget_room (stateFor e t clk).1 lim est) /\
  ((exists d, (Reserve e clk t est).1 = inl d) ->
   (Reserve e clk t est).2 = e \/ (Reserve e clk t est).2 = (stateFor e t clk).2).
Proof.
  intros L R1 R2. pose proof (Reserve_cases e clk t est) as C. cbv zeta in C.
  rewrite <- (checkRates_none _ lim est clk), <- checkBudgets_none by done.
  destruct (Reserve e clk t est) as [[d|r] e']; cbn [fst snd].
  - split.
    + split; [intros [r Hr]; discriminate|]. intros (Hh & Hr & Hb). exfalso.
      destruct C as [(E & _)|(l & E & [(E1 & E2 & _)|(_ & _ & [E1|[_ E1]])])];
        rewrite E in L; simplify_eq; destruct Hh; congruence.
    + intros _. destruct C as [(_ & _ & ->)|(l & _ & [(_ & _ & _ & ->)|(_ & -> & _)])]; auto.
  - destruct C as (l & E & Hh & Hr & Hb & _). rewrite E in L. simplify_eq. split.
    + split; [intros _|by eauto]. split_and!; try done.
      destruct (healthy e); [by left|right; by apply Hh].
    + intros [d Hd]; discriminate.
Qed.

(** A reservation reaches one terminal call.  After a reservation has
    been settled or released, every later [Settle] or [Release] of it changes
    nothing and writes nothing, whatever the enforcer did in between. *)
Theorem finished_once e clk r f :
  (f = CRelease r \/ exists actual usd, f = CSettle r actual usd) ->
  let e1 := (exec e clk f).1 in
  forall cs clk' actual' usd',
    Settle (execs e1 cs) clk' r actual' usd' = (execs e1 cs, None) /\
    Release (execs e1 cs) clk' r = execs e1 cs.
Proof.
  intros Hf e1 cs clk' actual' usd'.
  assert (Hmono : forall e clk c, done_ e ⊆ done_ (exec e clk c).1).
  { clear. intros e clk c. destruct c as [t est|r actual usd|r|t|h wr]; simpl.
    - pose proof (Reserve_cases e clk t est) as C. cbv zeta in C.
      destruct (Reserve e clk t est) as [[d|r] e']; simpl.
      + by destruct C as [(_ & _ & ->)|(l & _ & [(_ & _ & _ & ->)|(_ & -> & _)])].
      + by destruct C as (l & _ & _ & _ & _ & _ & _ & _ & _ & _ & -> & _).
    - destruct (Settle_cases e clk r actual usd) as [[_ ->]|(_ & _ & _ & _ & _ & -> & _)];
        set_solver.
    - destruct (Release_cases e clk r) as [[_ ->]|(_ & _ & _ & _ & _ & -> & _)]; set_solver.
    - done.
    - done. }
  assert (H1 : ID r ∈ done_ e1).
  { unfold e1. destruct Hf as [->|(actual & usd & ->)]; simpl.
    - destruct (Release_cases e clk r) as [[? ->]|(_ & _ & _ & _ & _ & -> & _)]; set_solver.
    - destruct (Settle_cases e clk r actual usd) as [[? ->]|(_ & _ & _ & _ & _ & -> & _)];
        set_solver. }
  assert (H2 : ID r ∈ done_ (execs e1 cs)).
  { clearbody e1. clear -Hmono H1. revert e1 H1. induction cs as [|[c0 c] cs IH]; intros e1 H1;
      simpl; [done|]. apply IH. by apply Hmono. }
  unfold Settle, Release. by rewrite bool_decide_true.
Qed.

(** The tenant a call names. *)
Definition call_tenant (c : @call M) : option string :=
  match c with
  | CReserve t _ => Some t
  | CSettle r _ _ => Some (Tenant r)
  | CRelease r => Some (Tenant r)
  | CSpent t => Some t
  | CStore _ _ => None
  end.

(** Whether a reservation was granted, and the denial otherwise. *)
Definition verdict (x : (Denial + Reservation M) * MemEnforcer M) : option Denial :=
  match x.1 with inl d => Some d | inr _ => None end.

(** Tenants are isolated: no call made for one tenant changes
    another's counters or the verdict on another's next request, whatever the
    estimate and the time; only the store's health is shared. *)
Theorem tenant_isolation e clk c u :
  call_tenant c <> Some u ->
  tenants (exec e clk c).1 !! u = tenants e !! u /\
  (healthy (exec e clk c).1 = healthy e ->
   forall clk' est, verdict (Reserve (exec e clk c).1 clk' u est) = verdict (Reserve e clk' u est)).
Proof.
  intros Hne.
  assert (HT : tenants (exec e clk c).1 !! u = tenants e !! u /\
               limits (exec e clk c).1 = limits e).
  { destruct c as [t est|r actual usd|r|t|h wr]; simpl in *.
    - pose proof (Reserve_other e clk t est u ltac:(congruence)) as O.
      pose proof (Reserve_cases e clk t est) as C. cbv zeta in C.
      destruct (Reserve e clk t est) as [[d|r] e']; simpl in *; split; try done.
      + by destruct C as [(_ & _ & ->)|(l & _ & [(_ & _ & _ & ->)|(_ & -> & _)])].
      + by destruct C as (l & _ & _ & _ & _ & _ & -> & _).
    - destruct (Settle_cases e clk r actual usd) as [[_ ->]|(_ & -> & -> & _)]; [done|].
      by rewrite lookup_insert_ne by congruence.
    - destruct (Release_cases e clk r) as [[_ ->]|(_ & -> & -> & _)]; [done|].
      by rewrite lookup_insert_ne by congruence.
    - by rewrite lookup_insert_ne by congruence.
    - done. }
  destruct HT as [HT HL]. split; [done|]. intros Hh clk' est.
  unfold verdict, Reserve, stateFor. rewrite HT, HL, Hh.
  destruct (limits e !! u); [|done]. destruct (negb _ && _); [done|].
  destruct (checkRates _ _ _ _); [done|]. by destruct (checkBudgets _ _ _).
Qed.

(** A tenant limited to [n] requests per minute is never admitted more
    than [2 * n] times inside any interval of a minute, however its requests,
    settlements and releases and those of other tenants interleave; and never
    more than [n] times while one window stays open. *)
Theorem request_rate_bound l t lim a b cs :
  l !! t = Some lim -> 0 < RequestsPerMinute lim <= max_int64 -> b - a <= rateWindow ->
  sorted_calls cs ->
  admitted t a b (NewEnforcer l) cs <= 2 * RequestsPerMinute lim /\
  forall e st cs', limits e !! t = Some lim -> tenants e !! t = Some st ->
    0 <= requests st <= RequestsPerMinute lim -> b <= requestsAt st + rateWindow ->
    sorted_calls cs' -> admitted t a b e cs' <= RequestsPerMinute lim - requests st.
Proof.
  intros L Hn Hab S. split.
  - apply admitted_any; try done.
  - intros e st cs' Le E Q Hb S'. by apply admitted_open.
Qed.

(** A refusal that a rate limit caused says how long to wait, and the
    wait is enough: it is positive and at most a minute, and at any time from
    then on the request window that refused has turned over. *)
Theorem rate_denial_advice e clk t est d e' :
  Reserve e clk t est = (inl d, e') -> requestsAt (stateFor e t clk).1 <= clk ->
  Reason d = DenyRequestRate ->
  0 < RetryAfter d <= rateWindow /\
  forall clk', clk + RetryAfter d <= clk' ->
    requests (stateFor e' t clk').1 = 0 /\ requestsAt (stateFor e' t clk').1 = clk'.
Proof.
  intros E Hle Hr. pose proof (Reserve_cases e clk t est) as C. cbv zeta in C. rewrite E in C.
  set (st := (stateFor e t clk).1) in *.
  assert (Hwin : clk - requestsAt st < rateWindow).
  { unfold st, stateFor. simpl. destruct (tenants e !! t) as [s|]; simpl.
    - destruct (windowOver clk (requestsAt s) rateWindow) eqn:W;
        unfold windowOver in W; rewrite time_Sub_leb in W by done; bool_to_prop;
        unfold rateWindow, Minute, Second in *; lia.
    - unfold rateWindow, Minute, Second. lia. }
  assert (Hd : e' = (stateFor e t clk).2 /\
               RetryAfter d = rateWindow - (clk - requestsAt st)).
  { destruct C as [(_ & -> & _)|(l & _ & [(_ & _ & -> & _)|(_ & -> & [X|[_ X]])])]; try done.
    - split; [done|]. unfold checkRates in X.
      assert (Es : time_Sub clk (requestsAt st) = clk - requestsAt st)
        by (unfold time_Sub, min_int64, max_int64; unfold rateWindow, Minute, Second in *; lia).
      assert (Er : remainingIn (requestsAt st) clk = rateWindow - (clk - requestsAt st)).
      { unfold remainingIn. rewrite Es, wrap64_id
          by (unfold is_int64, min_int64, max_int64, rateWindow, Minute, Second in *; lia).
        replace (_ <=? 0) with false by (symmetry; apply Z.leb_gt; lia). done. }
      destruct (_ && _); [simplify_eq; by simpl|].
      repeat case_match; simplify_eq; done.
    - unfold checkBudgets in X. repeat case_match; simplify_eq; done. }
  destruct Hd as [-> Ed]. rewrite Ed. split; [unfold rateWindow, Minute, Second in *; lia|].
  intros clk' Hc. unfold stateFor at 1 3. rewrite stateFor_tenants, decide_True by done.
  fold st. simpl.
  assert (W : windowOver clk' (requestsAt st) rateWindow = true).
  { unfold windowOver. rewrite time_Sub_leb by done. apply Z.leb_le. lia. }
  by rewrite W.
Qed.
End Decision.

Section Conservation.
Context {M : Type} `{RoundedUSD M}.
Local Abbreviation val := usd_val.

(** (C11) Nothing is reserved twice or lost: in every state reachable by any
    interleaving of admissions, denials, settlements, releases and reads,
    repeated ones included, a tenant's committed amount is the sum of the
    estimates of its reservations that are neither settled nor released, up to
    three roundings for each call made for it: exactly that sum for exact money,
    and for binary64 within [3 * calls * (2 * peak / 2^53)] of it, [peak] being
    the largest total such a call computed with.  It is never negative.  Estimates
    and costs are numbers, and no counter overflows ([step]). *)
Theorem committed_is_outstanding (w : window) (l : gmap string (Limits M)) x t st :
  rtc (step w) (start_world l) x -> tenants (enf x) !! t = Some st ->
  0 <= val (committed st) /\
  Z.abs (val (committed st) - outstanding (done_ (enf x)) (issued x) t)
  <= 3 * rcalls (rounded x t) * usd_err M (2 * rpeak (rounded x t)).
Proof.
  intros R E. pose proof (ok_tenants _ _ (reach_ok w l x R) t) as T. rewrite E in T.
  split; [apply T|]. apply (ok_committed _ _ _ _ _ _ T).
Qed.

(** (C1) A budget bounds what a tenant can owe: for the daily and for the
    monthly window, what is spent in the window plus everything still
    reserved never passes the cap by more than the amount by which
    settlements inside the window exceeded their own estimates, and three
    roundings for each call made for the tenant: none for exact money, and for
    binary64 at most one part in 2^53 of twice the largest total a call computed
    with.  Estimates and costs are numbers, and no counter overflows ([step]): a
    NaN price does break it ([Guard.nan_price_disables_budget]). *)
Theorem budget_bounded (w : window) (l : gmap string (Limits M)) x t st lim :
  rtc (step w) (start_world l) x -> tenants (enf x) !! t = Some st ->
  l !! t = Some lim -> usd_num (win_limit w lim) -> 0 < win_cap w lim ->
  let slack := 3 * rcalls (rounded x t) * usd_err M (2 * rpeak (rounded x t)) in
  win_spent w st + outstanding (done_ (enf x)) (issued x) t <= win_cap w lim + excess x t + slack /\
  0 <= excess x t <= win_spent w st + slack.
Proof.
  intros R E L N Hp. pose proof (ok_tenants _ _ (reach_ok w l x R) t) as T.
  rewrite E, (reach_limits w l x R) in T.
  split; [apply (ok_cap _ _ _ _ _ _ T lim L N Hp)|apply (ok_excess _ _ _ _ _ _ T)].
Qed.
End Conservation.

(** *** Instances *)

Module BudgetExample.
Definition lim : Limits Z := mkLimits 2 1000 50 500 true.
Definition lims : gmap string (Limits Z) := {["acme" := lim]}.
Definition est : Estimate Z := mkEstimate 10 20 30.
Definition e0 : MemEnforcer Z := NewEnforcer lims.
Definition r1 : Reservation Z := mkReservation "acme" est 0 "1".
Definition e1 : MemEnforcer Z := (Reserve e0 0 "acme" est).2.
Definition usage : Usage := mkUsage 10 30 40.
Definition e2 : MemEnforcer Z := (Settle e1 Second r1 usage 45).1.
(** Two settlements, in time order, then a third admission attempt. *)
Definition calls : list (Time * @call Z) :=
  [(0, CReserve "acme" est); (1, CRelease r1); (2, CReserve "acme" est);
   (3, CReserve "acme" est)].

End BudgetExample.

Lemma reserve_decision_witness :
  exists r, (Reserve BudgetExample.e0 0 "acme" BudgetExample.est).1 = inr r.
Proof.
  pose proof (reserve_decision BudgetExample.e0 0 "acme" BudgetExample.est BudgetExample.lim
    eq_refl) as X.
  apply X.
  - by split; vm_compute.
  - by split; vm_compute.
  - split_and!; [by left| |]; split; vm_compute; done.
Defined.

Lemma finished_once_witness :
  Settle BudgetExample.e2 Minute BudgetExample.r1 BudgetExample.usage 45
  = (BudgetExample.e2, None).
Proof.
  apply (finished_once BudgetExample.e1 Second BudgetExample.r1
           (CSettle BudgetExample.r1 BudgetExample.usage 45)
           (or_intror (ex_intro _ BudgetExample.usage (ex_intro _ 45 eq_refl))) []
           Minute BudgetExample.usage 45).
Defined.

Lemma tenant_isolation_witness :
  tenants (exec BudgetExample.e1 5 (CSpent "other")).1 !! "acme"
  = tenants BudgetExample.e1 !! "acme".
Proof. apply (tenant_isolation BudgetExample.e1 5 (CSpent "other") "acme"). discriminate. Defined.

Lemma request_rate_bound_witness :
  admitted "acme" 0 Minute BudgetExample.e0 BudgetExample.calls <= 4.
Proof.
  refine (proj1 (request_rate_bound BudgetExample.lims "acme" BudgetExample.lim 0 Minute
           BudgetExample.calls eq_refl _ _ _)).
  - split; vm_compute; done.
  - vm_compute; done.
  - repeat constructor; vm_compute; discriminate.
Defined.

Lemma rate_denial_advice_witness :
  let e := execs BudgetExample.e0 (take 3 BudgetExample.calls) in
  exists d e', Reserve e 3 "acme" BudgetExample.est = (inl d, e') /\
    RetryAfter d = Minute - 3 /\ requests (stateFor e' "acme" Minute).1 = 0.
Proof.
  intros e. eexists _, _. split; [vm_compute; reflexivity|]. split; [vm_compute; reflexivity|].
  eapply (rate_denial_advice e 3 "acme" BudgetExample.est).
  - vm_compute. reflexivity.
  - vm_compute. discriminate.
  - vm_compute. reflexivity.
  - vm_compute. discriminate.
Defined.

(** The program's own arithmetic: a tenant with two dollars and a half a day has
    spent 18 cents, reserves 24, and then two dollars and eight cents more. *)
Module RoundedExample.
Definition cents (n : Z) : f64 := f64_ratio n 100.
Definition lim : Limits f64 := mkLimits 0 0 (cents 250) f64_zero true.
Definition lims : gmap string (Limits f64) := {["acme" := lim]}.
Definition est (n : Z) : Estimate f64 := mkEstimate 1 1 (cents n).
Definition used : Usage := mkUsage 1 1 2.
Definition e0 : MemEnforcer f64 := NewEnforcer lims.
Definition e1 : MemEnforcer f64 := (Reserve e0 0 "acme" (est 18)).2.
Definition r1 : Reservation f64 := mkReservation "acme" (est 18) 0 "1".
Definition e2 : MemEnforcer f64 := (Settle e1 1 r1 used (cents 18)).1.
Definition e3 : MemEnforcer f64 := (Reserve e2 2 "acme" (est 24)).2.
Definition r2 : Reservation f64 := mkReservation "acme" (est 24) 2 "2".
Definition e4 : MemEnforcer f64 := (Reserve e3 3 "acme" (est 208)).2.
Definition r3 : Reservation f64 := mkReservation "acme" (est 208) 3 "3".

Definition x0 : world f64 := start_world lims.
Definition x1 : world f64 := mkWorld e1 [r1] (carried Daily e0 e1 (excess x0))
  (call_for "acme" (total Daily e0 0 "acme" (usd_val (cents 18))) (rounded x0)).
Definition x2 : world f64 :=
  mkWorld e2 [r1] (fun t => carried Daily e1 e2 (excess x1) t + settle_excess e1 r1 (cents 18) t)
    (call_for "acme" (total Daily e1 1 "acme" (usd_val (cents 18) + usd_val (cents 18))) (rounded x1)).
Definition x3 : world f64 := mkWorld e3 [r2; r1] (carried Daily e2 e3 (excess x2))
  (call_for "acme" (total Daily e2 2 "acme" (usd_val (cents 24))) (rounded x2)).
Definition x4 : world f64 := mkWorld e4 [r3; r2; r1] (carried Daily e3 e4 (excess x3))
  (call_for "acme" (total Daily e3 3 "acme" (usd_val (cents 208))) (rounded x3)).
Definition st1 : tenantState f64 := mkTenant f64_zero 0 f64_zero 0 (cents 18) 1 0 2 0.
Definition st2 : tenantState f64 := mkTenant (cents 18) 0 (cents 18) 0 f64_zero 1 0 2 0.
Definition st3 : tenantState f64 := mkTenant (cents 18) 0 (cents 18) 0 (cents 24) 2 0 4 0.
Definition st4 : tenantState f64 := mkTenant (cents 18) 0 (cents 18) 0 (f64_add (cents 24) (cents 208)) 3 0 6 0.

Lemma in_range_one (e : MemEnforcer f64) t st : tenants e = {[t := st]} ->
  is_number (dailySpent st) -> is_number (monthlySpent st) -> is_number (committed st) -> in_range e.
Proof. intros E A B C u s'. rewrite E. intros [<- <-]%lookup_singleton_Some. by split_and!. Qed.

Lemma cents_amount n : cents n ∈ [cents 18; cents 24; cents 208] -> amount (cents n).
Proof. rewrite !elem_of_cons. intros [->|[->|[->|[]%not_elem_of_nil]]]; split; [split| |split| |split|]; vm_compute; done. Qed.

Lemma four_steps : rtc (step Daily) x0 x4.
Proof.
  eapply rtc_l; [|eapply rtc_l; [|eapply rtc_l; [|eapply rtc_l; [|apply rtc_refl]]]].
  - apply (step_admit Daily e0 [] _ _ 0 "acme" (est 18) r1); [vm_compute; reflexivity|apply cents_amount; left| |done].
    apply (in_range_one e1 "acme" st1); [vm_compute; reflexivity| | |]; by split.
  - apply (step_settle Daily e1 [r1] (excess x1) (rounded x1) 1 r1 used (cents 18) e2 None);
      [left|apply cents_amount; left| |vm_compute; reflexivity].
    apply (in_range_one e2 "acme" st2); [vm_compute; reflexivity| | |]; by split.
  - apply (step_admit Daily e2 [r1] _ _ 2 "acme" (est 24) r2); [vm_compute; reflexivity|apply cents_amount; right; left| |done].
    apply (in_range_one e3 "acme" st3); [vm_compute; reflexivity| | |]; by split.
  - apply (step_admit Daily e3 [r2; r1] _ _ 3 "acme" (est 208) r3);
      [vm_compute; reflexivity|apply cents_amount; right; right; left| |done].
    apply (in_range_one e4 "acme" st4); [vm_compute; reflexivity| | |]; by split.
Qed.

Lemma last_counters : tenants (enf x4) !! "acme" = Some st4.
Proof. vm_compute. reflexivity. Qed.

Lemma owed : outstanding (done_ (enf x4)) (issued x4) "acme" = usd_val (cents 208) + usd_val (cents 24).
Proof. vm_compute. reflexivity. Qed.
End RoundedExample.

Lemma committed_is_outstanding_witness :
  Z.abs (usd_val (committed RoundedExample.st4)
         - (usd_val (RoundedExample.cents 208) + usd_val (RoundedExample.cents 24)))
  <= 3 * rcalls (rounded RoundedExample.x4 "acme") * f64_rounding (2 * rpeak (rounded RoundedExample.x4 "acme")).
Proof.
  rewrite <- RoundedExample.owed.
  exact (proj2 (committed_is_outstanding Daily RoundedExample.lims RoundedExample.x4 "acme" RoundedExample.st4
    RoundedExample.four_steps RoundedExample.last_counters)).
Defined.

Lemma budget_bounded_witness :
  usd_val (RoundedExample.cents 18) + (usd_val (RoundedExample.cents 208) + usd_val (RoundedExample.cents 24))
  <= usd_val (RoundedExample.cents 250) + excess RoundedExample.x4 "acme"
     + 3 * rcalls (rounded RoundedExample.x4 "acme") * f64_rounding (2 * rpeak (rounded RoundedExample.x4 "acme")).
Proof.
  rewrite <- RoundedExample.owed.
  refine (proj1 (budget_bounded Daily RoundedExample.lims RoundedExample.x4 "acme" RoundedExample.st4
    RoundedExample.lim RoundedExample.four_steps RoundedExample.last_counters eq_refl _ _)).
  - by split.
  - vm_compute. reflexivity.
Defined.

(** The roundings are not idle: here nothing was settled above its estimate, and
    what the tenant owes is past the cap, by a part in 10^17 of a dollar; what is
    committed is not what is outstanding.  Four calls allow for less than a
    millionth of a millionth of a cent. *)
Theorem rounding_passes_the_cap :
  let slack := 3 * rcalls (rounded RoundedExample.x4 "acme") * f64_rounding (2 * rpeak (rounded RoundedExample.x4 "acme")) in
  let owed := outstanding (done_ (enf RoundedExample.x4)) (issued RoundedExample.x4) "acme" in
  excess RoundedExample.x4 "acme" = 0 /\
  win_cap Daily RoundedExample.lim < win_spent Daily RoundedExample.st4 + owed /\
  usd_val (committed RoundedExample.st4) <> owed /\
  slack * 10 ^ 14 < f64_units (f64_of_Z 1).
Proof. vm_compute. repeat split; discriminate. Qed.

(** ** Two behaviours worth knowing

    [EstCompletion] is the client's own [max_tokens] when the estimator has no
    ceiling, and the sum in [checkRates] is a 64-bit one: a request for
    [MaxInt64] tokens wraps negative, so it passes any token limit, and its
    claim leaves the tenant's token counter negative. *)
Theorem token_limit_wraps :
  let l := mkLimits 0 1000 (0 : Z) 0 true in
  let e := NewEnforcer {["acme" := l]} in
  let est := mkEstimate 10 max_int64 (0 : Z) in
  exists r e', Reserve e 0 "acme" est = (inr r, e') /\
    (tokens <$> tenants e' !! "acme") = Some (min_int64 + 9).
Proof. eexists _, _. split; vm_compute; reflexivity. Qed.

(** A settlement reconciles its token estimate against whichever minute is
    current when it settles: a request admitted in one minute and answered in
    the next gives its unused estimate back to a window it never drew from, and
    so cancels the tokens of another request there. *)
Theorem settle_refunds_other_window :
  let l := mkLimits 0 1000 (0 : Z) 0 true in
  let e0 := NewEnforcer {["acme" := l]} in
  let est := mkEstimate 10 900 (0 : Z) in
  let big := mkEstimate 10 980 (0 : Z) in
  match Reserve e0 0 "acme" est with
  | (inr r1, e1) =>
      match Reserve e1 Minute "acme" big with
      | (inr _, e2) =>
          let e3 := (Settle e2 (Minute + 1) r1 (mkUsage 5 5 10) 0).1 in
          verdict (Reserve e2 (Minute + 1) "acme" est)
            = Some (mkDenial DenyTokenRate (Minute - 1)) /\
          verdict (Reserve e3 (Minute + 1) "acme" (mkEstimate 10 890 0)) = None
      | _ => False
      end
  | _ => False
  end.
Proof. vm_compute. split; reflexivity. Qed.
