(* ===== verification/Estimator.v ===== *)
(** * The pre-flight estimate (internal/budget/estimator.go)

    What a request is charged before its answer is known: tokens from the
    text of its messages and its own completion cap, dollars from the price
    of the vendor model the routed name stands for. *)

From Stdlib Require Import ZArith Lia String Ascii.
From stdpp Require Import base gmap strings list numbers.
From S2P Require Import Prelude Float64 GoString Providers Json Pricing Money Budget.

Local Open Scope Z_scope.

Definition charsPerToken : Z := 4.
Definition messageOverheadTokens : Z := 4.
Definition unreadableBodyFloorTokens : Z := 1024.
Definition fallbackCompletionTokens : Z := 1024.

Record EstimatorOptions := mkEstimatorOptions {
  DefaultCompletionTokens : Z;
  OptMaxCompletionTokens : Z
}.

(** [resolve] maps a routed model to the vendor kind and upstream model. *)
Record estimator := mkEstimator {
  table : option Table;
  resolve : option (string -> string * string);
  opts : EstimatorOptions
}.

Definition NewEstimator (t : option Table) (r : option (string -> string * string))
    (o : EstimatorOptions) : estimator :=
  mkEstimator t r
    (if DefaultCompletionTokens o <=? 0
     then mkEstimatorOptions fallbackCompletionTokens (OptMaxCompletionTokens o) else o).

(** ** The slice of a body that bears on cost *)

Record chatMessage := mkChatMessage { Content : string }.
Definition zeroChatMessage : chatMessage := mkChatMessage "".

Record chatRequest := mkChatRequest {
  Messages : slice chatMessage;
  MaxTokens : option Z;
  MaxCompletionTokens : option Z
}.
Definition zeroChatRequest : chatRequest := mkChatRequest nil_slice None None.

Definition dec_chatMessage : decoder chatMessage := dec_struct
  [("content", at_field Content (fun v _ => mkChatMessage v) dec_raw)].

Definition dec_chatRequest : decoder chatRequest := dec_struct
  [("messages", at_field Messages (fun v r => mkChatRequest v (MaxTokens r) (MaxCompletionTokens r))
      (dec_slice zeroChatMessage dec_chatMessage));
   ("max_tokens", at_field MaxTokens (fun v r => mkChatRequest (Messages r) v (MaxCompletionTokens r))
      (dec_ptr 0 dec_int));
   ("max_completion_tokens", at_field MaxCompletionTokens
      (fun v r => mkChatRequest (Messages r) (MaxTokens r) v) (dec_ptr 0 dec_int))].

Definition requestedCompletionCap (r : chatRequest) : Z :=
  fold_left (fun limit c =>
    match c with
    | Some c => if c <=? 0 then limit else if (limit =? 0) || (c <? limit) then c else limit
    | None => limit
    end) [MaxTokens r; MaxCompletionTokens r] 0.

(** ** Tokens *)

Definition completionTokens (e : estimator) (requested : Z) : Z :=
  let n := if requested <=? 0 then DefaultCompletionTokens (opts e) else requested in
  if 0 <? OptMaxCompletionTokens (opts e) then Z.min n (OptMaxCompletionTokens (opts e)) else n.

Definition tokensForChars (chars : Z) : Z :=
  if chars <=? 0 then 0 else Z.quot (chars +i charsPerToken -i 1) charsPerToken.

Definition len (s : string) : Z := Z.of_nat (String.length s).

Definition textOf (content : string) : string :=
  match Unmarshal dec_string content "" with
  | Some s => s
  | None =>
      match Unmarshal (dec_slice zeroPart dec_part) content nil_slice with
      | Some parts => join_text (slice_list parts)
      | None => ""
      end
  end.

Definition message_tokens (m : chatMessage) : Z :=
  messageOverheadTokens +i tokensForChars (len (textOf (Content m))).

Definition promptTokens (msgs : list chatMessage) : Z :=
  fold_left (fun total m => total +i message_tokens m) msgs 0.

Definition unreadablePromptTokens (raw : string) : Z :=
  Z.max (messageOverheadTokens +i tokensForChars (len raw)) unreadableBodyFloorTokens.

(** ** Dollars and the whole estimate *)

Definition usd (e : estimator) (model : string) (prompt completion : Z) : f64 :=
  match table e, resolve e with
  | Some t, Some r =>
      let '(kind, upstream) := r model in
      let model := if bool_decide (upstream = "") then model else upstream in
      if bool_decide (kind = "") then f64_zero
      else match Table_Cost t kind model (mkUsage prompt completion 0) with
      | Some c => CostUSD c
      | None => f64_zero
      end
  | _, _ => f64_zero
  end.

Definition Estimate_ (e : estimator) (model raw : string) : Estimate f64 :=
  let '(p, c) :=
    match Unmarshal dec_chatRequest raw zeroChatRequest with
    | None => (unreadablePromptTokens raw, completionTokens e 0)
    | Some req => (promptTokens (slice_list (Messages req)),
                   completionTokens e (requestedCompletionCap req))
    end in
  mkEstimate p c (usd e model p c).

(** ** Facts *)

Lemma tokensForChars_ceil n :
  0 <= n <= max_int64 - 3 -> 4 * tokensForChars n - 3 <= n <= 4 * tokensForChars n.
Proof.
  intros H. unfold max_int64 in H. unfold tokensForChars, charsPerToken.
  destruct (n <=? 0) eqn:E; bool_to_prop; [lia|].
  rewrite wrap64_sub_l, wrap64_id by (unfold is_int64, min_int64, max_int64; lia).
  rewrite Z.quot_div_nonneg by lia.
  pose proof (Z.div_mod (n + 4 - 1) 4 ltac:(lia)). pose proof (Z.mod_pos_bound (n + 4 - 1) 4). lia.
Qed.

Definition text_len (m : chatMessage) : Z := len (textOf (Content m)).

(** What the loop adds up, without the wrap-around. *)
Definition exact_tokens (msgs : list chatMessage) : Z :=
  fold_right (fun m t => 4 + tokensForChars (text_len m) + t) 0 msgs.

Definition text_total (msgs : list chatMessage) : Z :=
  fold_right (fun m t => text_len m + t) 0 msgs.

Lemma len_nonneg s : 0 <= len s.
Proof. unfold len. lia. Qed.

Lemma text_total_nonneg msgs : 0 <= text_total msgs.
Proof. induction msgs as [|m msgs IH]; simpl; [lia|]. pose proof (len_nonneg (textOf (Content m))).
  unfold text_len. lia. Qed.

Lemma exact_tokens_bounds msgs :
  text_total msgs <= max_int64 - 3 ->
  4 * Z.of_nat (length msgs) + (text_total msgs + 3) / 4 <= exact_tokens msgs /\
  4 * exact_tokens msgs <= text_total msgs + 19 * Z.of_nat (length msgs).
Proof.
  induction msgs as [|m msgs IH]; simpl text_total; simpl exact_tokens;
    [split; vm_compute; discriminate|].
  intros H. pose proof (text_total_nonneg msgs). pose proof (len_nonneg (textOf (Content m))) as Hl.
  fold (text_len m) in Hl. pose proof (tokensForChars_ceil (text_len m) ltac:(lia)) as C.
  destruct (IH ltac:(lia)) as [I1 I2]. rewrite length_cons, Nat2Z.inj_succ. split; [|lia].
  assert ((text_len m + text_total msgs + 3) / 4 <= tokensForChars (text_len m) + (text_total msgs + 3) / 4).
  { replace (tokensForChars (text_len m) + (text_total msgs + 3) / 4)
      with ((text_total msgs + 3 + tokensForChars (text_len m) * 4) / 4)
      by (rewrite Z.div_add by lia; lia). apply Z.div_le_mono; lia. }
  lia.
Qed.

Lemma exact_tokens_nonneg msgs : text_total msgs <= max_int64 - 3 -> 0 <= exact_tokens msgs.
Proof.
  intros H. destruct (exact_tokens_bounds msgs H) as [B _]. pose proof (text_total_nonneg msgs).
  pose proof (Z.div_pos (text_total msgs + 3) 4). lia.
Qed.

Lemma promptTokens_exact msgs total :
  text_total msgs <= max_int64 - 3 -> 0 <= total -> total + exact_tokens msgs <= max_int64 ->
  fold_left (fun total m => total +i message_tokens m) msgs total = total + exact_tokens msgs.
Proof.
  revert total. induction msgs as [|m msgs IH]; intros total H Ht Hle; simpl in *; [lia|].
  pose proof (len_nonneg (textOf (Content m))) as Hl. fold (text_len m) in Hl.
  pose proof (text_total_nonneg msgs). pose proof (exact_tokens_nonneg msgs ltac:(lia)).
  pose proof (tokensForChars_ceil (text_len m) ltac:(lia)) as C.
  assert (M : message_tokens m = 4 + tokensForChars (text_len m)).
  { unfold message_tokens, messageOverheadTokens. fold (text_len m).
    apply wrap64_id. unfold is_int64, min_int64, max_int64 in *. lia. }
  rewrite M. rewrite wrap64_id by (unfold is_int64, min_int64, max_int64 in *; lia).
  rewrite IH by lia. lia.
Qed.

Lemma NewEstimator_default t r o : 0 < DefaultCompletionTokens (opts (NewEstimator t r o)).
Proof.
  unfold NewEstimator. simpl. destruct (_ <=? 0) eqn:E; bool_to_prop; [done|lia].
Qed.

(** The caps a client named that are caps. *)
Definition client_caps (r : chatRequest) : list Z :=
  base.filter (fun c => 0 < c) (omap id [MaxTokens r; MaxCompletionTokens r]).

Lemma requestedCompletionCap_spec r :
  match client_caps r with
  | [] => requestedCompletionCap r = 0
  | c :: cs => requestedCompletionCap r = fold_right Z.min c cs /\ 0 < requestedCompletionCap r
  end.
Proof.
  unfold client_caps, requestedCompletionCap.
  destruct (MaxTokens r) as [a|], (MaxCompletionTokens r) as [b|]; simpl;
    rewrite ?filter_cons, ?filter_nil; simpl;
    repeat match goal with
    | |- context [?x <=? 0] => destruct (x <=? 0) eqn:?; bool_to_prop
    | |- context [decide (0 < ?x)] => destruct (decide (0 < x)); try lia
    | |- context [?x =? 0] => destruct (x =? 0) eqn:?; bool_to_prop; try lia
    | |- context [?x <? ?y] => destruct (x <? y) eqn:?; bool_to_prop; try lia
    end; simpl; lia.
Qed.

Lemma completion_pos e n :
  0 < DefaultCompletionTokens (opts e) -> 0 < completionTokens e n.
Proof.
  unfold completionTokens. intros H.
  destruct (n <=? 0) eqn:?, (0 <? OptMaxCompletionTokens (opts e)) eqn:?; bool_to_prop; lia.
Qed.

(** ** Properties *)

(** The answer is never estimated at nothing, and never beyond the
    operator's ceiling: whatever the body, readable or not, the completion
    allowance is positive; with a ceiling configured it does not exceed it;
    and without one it is the smallest cap the client named, or the default
    when it named none that is a cap. *)
Theorem completion_allowance t r o model raw :
  let e := NewEstimator t r o in
  let c := EstCompletion (Estimate_ e model raw) in
  let ceiling := OptMaxCompletionTokens o in
  0 < c /\ (0 < ceiling -> c <= ceiling) /\
  (ceiling <= 0 ->
   c = match Unmarshal dec_chatRequest raw zeroChatRequest with
       | None => DefaultCompletionTokens (opts e)
       | Some req => match client_caps req with
                     | [] => DefaultCompletionTokens (opts e)
                     | c :: cs => fold_right Z.min c cs
                     end
       end).
Proof.
  cbv zeta. pose proof (NewEstimator_default t r o) as D. set (e := NewEstimator t r o) in *.
  assert (O : OptMaxCompletionTokens (opts e) = OptMaxCompletionTokens o)
    by (unfold e, NewEstimator; simpl; by destruct (_ <=? 0)).
  assert (C : exists n, EstCompletion (Estimate_ e model raw) = completionTokens e n /\
    (OptMaxCompletionTokens o <= 0 -> completionTokens e n =
      match Unmarshal dec_chatRequest raw zeroChatRequest with
      | None => DefaultCompletionTokens (opts e)
      | Some req => match client_caps req with
                    | [] => DefaultCompletionTokens (opts e)
                    | c :: cs => fold_right Z.min c cs
                    end
      end)).
  { unfold Estimate_. destruct (Unmarshal dec_chatRequest raw zeroChatRequest) as [req|]; eexists;
      (split; [reflexivity|]); intros Ho; unfold completionTokens; rewrite O;
      replace (0 <? OptMaxCompletionTokens o) with false by (symmetry; apply Z.ltb_ge; lia); [|done].
    pose proof (requestedCompletionCap_spec req) as S.
    destruct (client_caps req) as [|c cs]; [by rewrite S|]. destruct S as [S1 S2]. rewrite <- S1.
    replace (requestedCompletionCap req <=? 0) with false by (symmetry; apply Z.leb_gt; lia). done. }
  destruct C as (n & -> & C). split_and!; [by apply completion_pos| |exact C].
  intros Ho. unfold completionTokens. rewrite O.
  replace (0 <? OptMaxCompletionTokens o) with true by (symmetry; apply Z.ltb_lt; lia). lia.
Qed.

(** The prompt is never undercharged: a readable body costs, for every
    message, four tokens of framing and its text at four bytes per token
    rounded up, so at least a quarter of all its text and at most nineteen
    quarter-tokens per message more; an unreadable body costs its bytes the
    same way and never less than the floor. *)
Theorem prompt_is_counted e model raw :
  let p := EstPrompt (Estimate_ e model raw) in
  match Unmarshal dec_chatRequest raw zeroChatRequest with
  | None => len raw <= 2 ^ 62 -> unreadableBodyFloorTokens <= p /\ len raw + 16 <= 4 * p
  | Some req =>
      let msgs := slice_list (Messages req) in
      text_total msgs + 19 * Z.of_nat (length msgs) <= 2 ^ 62 ->
      p = exact_tokens msgs /\
      text_total msgs + 16 * Z.of_nat (length msgs) <= 4 * p
        <= text_total msgs + 19 * Z.of_nat (length msgs)
  end.
Proof.
  cbv zeta. unfold Estimate_.
  destruct (Unmarshal dec_chatRequest raw zeroChatRequest) as [req|]; cbn [EstPrompt].
  - set (msgs := slice_list (Messages req)). intros H.
    pose proof (text_total_nonneg msgs).
    assert (Hb : text_total msgs <= max_int64 - 3) by (unfold max_int64; lia).
    destruct (exact_tokens_bounds msgs Hb) as [B1 B2]. pose proof (exact_tokens_nonneg msgs Hb).
    unfold promptTokens. rewrite (promptTokens_exact msgs 0 Hb) by (unfold max_int64; lia).
    rewrite Z.add_0_l. split; [done|]. split; [|lia].
    clear -Hb. induction msgs as [|m msgs IH]; simpl in *; [done|].
    pose proof (len_nonneg (textOf (Content m))) as Hl. fold (text_len m) in Hl.
    pose proof (text_total_nonneg msgs).
    pose proof (tokensForChars_ceil (text_len m) ltac:(lia)). lia.
  - intros H. pose proof (len_nonneg raw).
    pose proof (tokensForChars_ceil (len raw) ltac:(unfold max_int64; lia)) as C.
    unfold unreadablePromptTokens, messageOverheadTokens.
    rewrite wrap64_id by (unfold is_int64, min_int64, max_int64; lia). lia.
Qed.

(** ** Instances *)

Module EstimatorExample.
Definition est : estimator := NewEstimator None None (mkEstimatorOptions 0 0).
Definition ask : string := quoted
  "{'max_tokens':500,'max_completion_tokens':200,'messages':[{'content':'hello'},
    {'content':[{'type':'text','text':'ab'},{'type':'image_url'}]}]}".

Example ask_estimate : Estimate_ est "m" ask = mkEstimate 11 200 f64_zero.
Proof. vm_compute. reflexivity. Qed.
Example broken_estimate : Estimate_ est "m" "{" = mkEstimate 1024 1024 f64_zero.
Proof. vm_compute. reflexivity. Qed.

(** A repeated [messages] field is decoded over the first one, so an element
    that names no content keeps, and is charged for, the earlier text. *)
Example repeated_messages :
  EstPrompt (Estimate_ est "m" (quoted "{'messages':[{'content':'12345678'}],'messages':[{}]}")) = 6.
Proof. vm_compute. reflexivity. Qed.
End EstimatorExample.
