(* ===== verification/Guard.v ===== *)
(** * The guard (internal/budget/guard.go)

    The one call the request path makes into budgeting: it joins the estimator,
    the enforcer, the price table and the ledger.  A Go [nil] guard, or a nil
    collaborator, is [None].  The durable write an enforcer with a store owes
    after a settlement is handed back (it is [Durable.persist]); callbacks that
    only report are not modelled. *)

From Stdlib Require Import ZArith Lia String.
From stdpp Require Import base gmap strings list numbers.
From S2P Require Import Prelude Float64 GoString Providers Pricing Money Budget.

Local Open Scope Z_scope.

Record Guard := mkGuard {
  g_estimator : option (string -> string -> Estimate f64);
  g_enforcer : option (MemEnforcer f64);
  g_prices : option Table;
  g_kindOf : option (string -> string);
  g_ledger : option Ledger
}.

Definition with_enforcer (g : Guard) (e : MemEnforcer f64) : Guard :=
  mkGuard (g_estimator g) (Some e) (g_prices g) (g_kindOf g) (g_ledger g).
Definition with_ledger (g : Guard) (l : Ledger) : Guard :=
  mkGuard (g_estimator g) (g_enforcer g) (g_prices g) (g_kindOf g) (Some l).

(** [Begin]: a denial, no reservation (budgeting not configured), or one. *)
Definition Begin (g : option Guard) (clk : Time) (tenant model raw : string)
    : (Denial + option (Reservation f64)) * option Guard :=
  match g with
  | None => (inr None, None)
  | Some g =>
      match g_enforcer g, g_estimator g with
      | Some e, Some estimate =>
          let est := estimate model raw in
          match Reserve e clk tenant est with
          | (inl d, e') => (inl d, Some (with_enforcer g e'))
          | (inr r, e') => (inr (Some r), Some (with_enforcer g e'))
          end
      | _, _ => (inr None, Some g)
      end
  end.

(** [Price] and [PriceVersion]. *)
Definition guard_Price (g : option Guard) (provider model : string) (usage : Usage) : f64 :=
  match g with
  | None => f64_zero
  | Some g =>
      match g_prices g, g_kindOf g with
      | Some t, Some kindOf =>
          match Table_Cost t (kindOf provider) model usage with
          | Some c => CostUSD c
          | None => f64_zero
          end
      | _, _ => f64_zero
      end
  end.

Definition guard_PriceVersion (g : option Guard) : Z :=
  match g with
  | Some g => match g_prices g with Some t => Version t | None => 0 end
  | None => 0
  end.

(** [record]: [ok] says whether the ledger write succeeds. *)
Definition record (g : Guard) (clk : Time) (ok : bool) (r : Reservation f64) (usage : Usage)
    (usd : f64) (model provider : string) : Guard :=
  match g_ledger g with
  | None => g
  | Some l =>
      let row := mkEntry clk (Tenant r) provider model (PromptTokens usage)
                   (CompletionTokens usage) usd (guard_PriceVersion (Some g)) false (ID r) in
      with_ledger g (ledger_Write l ok row).1
  end.

(** [Settle]: the cost billed, and the snapshot to make durable. *)
Definition guard_Settle (g : option Guard) (clk : Time) (ok : bool) (r : option (Reservation f64))
    (usage : Usage) (model provider : string)
    : f64 * option Guard * option (SpendRow f64 * Z) :=
  match g, r with
  | Some g', Some r =>
      match g_enforcer g' with
      | None => (f64_zero, g, None)
      | Some e =>
          let usd := guard_Price g provider model usage in
          let '(e', row) := Settle e clk r usage usd in
          (usd, Some (record (with_enforcer g' e') clk ok r usage usd model provider), row)
      end
  | _, _ => (f64_zero, g, None)
  end.

Definition Abort_ (g : option Guard) (clk : Time) (r : option (Reservation f64)) : option Guard :=
  match g, r with
  | Some g', Some r =>
      match g_enforcer g' with
      | None => g
      | Some e => Some (with_enforcer g' (Release e clk r))
      end
  | _, _ => g
  end.

(** ** Facts *)

Definition ledger_rows (g : option Guard) : list Entry :=
  match g with
  | Some g => match g_ledger g with Some (FileLedger rows) => rows | _ => [] end
  | None => []
  end.

Definition guard_spent (g : option Guard) (t : string) : option (f64 * f64) :=
  match g with
  | Some g => match g_enforcer g with
              | Some e => (fun st => (dailySpent st, monthlySpent st)) <$> tenants e !! t
              | None => None
              end
  | None => None
  end.

(** ** Properties *)

(** (C12) The audit row is the bill: settling a live reservation adds to the
    tenant's daily and monthly totals exactly the amount returned, which is the
    list price of the usage for the vendor kind of the provider that answered
    and zero when the pair has no price, and appends exactly one ledger row with
    that amount, that usage, the version of the price list and the
    reservation's id; when the row cannot be written the totals move all the
    same. *)
Theorem settle_bills_once g e clk ok r usage model provider rows :
  g_enforcer g = Some e -> g_ledger g = Some (FileLedger rows) -> ID r ∉ done_ e ->
  let '(usd, g', _) := guard_Settle (Some g) clk ok (Some r) usage model provider in
  usd = guard_Price (Some g) provider model usage /\
  guard_spent g' (Tenant r)
  = Some (f64_add (dailySpent (stateFor e (Tenant r) clk).1) usd,
          f64_add (monthlySpent (stateFor e (Tenant r) clk).1) usd) /\
  ledger_rows g'
  = rows ++ (if ok then [mkEntry clk (Tenant r) provider model (PromptTokens usage)
                           (CompletionTokens usage) usd (guard_PriceVersion (Some g)) false (ID r)]
             else []) /\
  (exists e', option_map g_enforcer g' = Some (Some e') /\ ID r ∈ done_ e').
Proof.
  intros He Hl Hd. unfold guard_Settle. rewrite He.
  set (usd := guard_Price (Some g) provider model usage).
  destruct (Settle_cases e clk r usage usd) as [[X _]|(_ & Et & _ & _ & _ & Ed & _)]; [done|].
  destruct (Settle e clk r usage usd) as [e' row]. cbn [fst] in *.
  split; [done|]. unfold record; simpl. rewrite Hl. split_and!.
  - simpl. by rewrite Et, lookup_insert_eq.
  - destruct ok; simpl; [done|by rewrite app_nil_r].
  - exists e'. split; [done|]. rewrite Ed. set_solver.
Qed.

(** A guard that is nil or lacks a collaborator never stands in the way:
    it refuses nothing, hands out no reservation, bills nothing and writes
    nothing. *)
Theorem nil_guard_transparent g clk ok r tenant model raw usage provider :
  (g = None \/ exists g', g = Some g' /\ (g_enforcer g' = None \/ g_estimator g' = None)) ->
  Begin g clk tenant model raw = (inr None, g) /\
  guard_Settle g clk ok None usage model provider = (f64_zero, g, None) /\
  Abort_ g clk None = g /\
  ((g = None \/ exists g', g = Some g' /\ g_enforcer g' = None) ->
   guard_Settle g clk ok r usage model provider = (f64_zero, g, None) /\ Abort_ g clk r = g).
Proof.
  intros Hg. split_and!.
  - destruct Hg as [->|(g' & -> & [E|E])]; simpl; [done| |]; rewrite E; [done|].
    by destruct (g_enforcer g').
  - by destruct g.
  - by destruct g.
  - intros [->|(g' & -> & E)]; simpl; [done|]. destruct r; rewrite ?E; done.
Qed.

(** *** Instances *)

Module GuardExample.
Definition lim : Limits f64 := mkLimits 0 0 (f64_of_Z 1) (f64_of_Z 10) true.
Definition e0 : MemEnforcer f64 := NewEnforcer {["acme"%string := lim]}.
Definition est : Estimate f64 := mkEstimate 10 100 (f64_ratio 1 100).
Definition guard : Guard :=
  mkGuard (Some (fun _ _ => est)) (Some e0) (Some PricingExample.table)
    (Some (fun _ => "openai"%string)) (Some (FileLedger [])).
Definition r1 : Reservation f64 := mkReservation "acme" est 0 "1".
End GuardExample.

Lemma settle_bills_once_witness :
  let '(usd, g', _) := guard_Settle (Some GuardExample.guard) 5 true (Some GuardExample.r1)
                         PricingExample.usage "gpt-4o-mini" "primary" in
  usd = f64_ratio 45 100000 /\ (length (ledger_rows g') = 1)%nat.
Proof.
  pose proof (settle_bills_once GuardExample.guard GuardExample.e0 5 true GuardExample.r1
    PricingExample.usage "gpt-4o-mini" "primary" [] eq_refl eq_refl) as X.
  destruct (guard_Settle _ _ _ _ _ _ _) as [[usd g'] row].
  destruct X as (E & _ & R & _); [apply not_elem_of_empty|]. split.
  - rewrite E. vm_compute. reflexivity.
  - by rewrite R.
Defined.

Lemma nil_guard_transparent_witness :
  Begin None 0 "acme" "gpt-4o-mini" "{}" = (inr None, None).
Proof. apply (nil_guard_transparent None 0 true None "acme" "gpt-4o-mini" "{}" zeroUsage "p"). by left. Defined.

(** A reservation settled twice through the guard is charged once, and leaves
    two rows in the ledger: the enforcer ignores the second call, the ledger
    does not. *)
Theorem resettle_writes_second_row :
  let '(_, g1, _) := guard_Settle (Some GuardExample.guard) 5 true (Some GuardExample.r1)
                       PricingExample.usage "gpt-4o-mini" "primary" in
  let '(_, g2, _) := guard_Settle g1 6 true (Some GuardExample.r1)
                       PricingExample.usage "gpt-4o-mini" "primary" in
  guard_spent g2 "acme" = guard_spent g1 "acme" /\ (length (ledger_rows g2) = 2)%nat.
Proof. vm_compute. split; reflexivity. Qed.

(** A price that is not a number disables the budget it is charged to: once a
    NaN is added to a total, no estimate exceeds the cap any more. *)
Theorem nan_price_disables_budget cap spent comm usd :
  overBudget cap (f64_add spent SpecFloat.S754_nan) comm usd = false.
Proof.
  unfold overBudget. simpl. destruct spent, comm, usd, cap; simpl; try done; by rewrite ?andb_false_r.
Qed.
