(* ===== verification/Durable.v ===== *)
(** * Durable totals (internal/budget/enforcer.go persist and restore,
      internal/budget/store.go, internal/budget/sqlitestore.go)

    A settlement hands over a snapshot of the tenant's totals, numbered under
    the enforcer's lock; the write happens after that lock is gone, so writes
    may arrive in any order and may fail.  The store is reached through the
    interface [SpendStore], with its contract [SpendStoreLaws]; [SQLiteStore]
    implements it.

    A durable world is the enforcer, the store, the snapshots not yet written
    and the reservations issued; ghost state remembers every snapshot ever taken
    and which writes failed.  Each step is one critical section: a call on the
    enforcer, or one durable write.  The clock never goes backwards. *)

From Stdlib Require Import ZArith Lia String.
From stdpp Require Import base gmap strings list numbers.
From S2P Require Import Prelude Float64 Providers Money Budget.

Local Open Scope Z_scope.

(** ** The store *)

(** What the enforcer promises of the instants it hands over and needs from the
    ones it gets back: they are within the range of [time.Time.UnixNano]. *)
Definition unixEpoch : Time := 62135596800 * Second.
Definition storable_time (t : Time) : Prop := is_int64 (t - unixEpoch).

Definition storable {M} (row : SpendRow M) : Prop :=
  storable_time (RowDailyStart row) /\ storable_time (RowMonthlyStart row).

Class SpendStore (M S : Type) := {
  store_load : S -> list (SpendRow M);
  store_save : S -> SpendRow M -> S
}.

(** [Save] replaces one tenant's row; [Load] returns every row. *)
Class SpendStoreLaws (M S : Type) `{SpendStore M S} := {
  load_nodup s : NoDup (RowTenant <$> store_load s);
  load_storable s row : row ∈ store_load s -> storable row;
  load_save s row row' : storable row ->
    row' ∈ store_load (store_save s row) <->
    row' = row \/ (row' ∈ store_load s /\ RowTenant row' <> RowTenant row)
}.

Section Store.
Context {M S : Type} `{USD M} `{!SpendStore M S}.

(** The row the store has for a tenant. *)
Definition row_for (s : S) (t : string) : option (SpendRow M) :=
  snd <$> list_find (fun row => RowTenant row = t) (store_load s).

Lemma row_for_tenant s t row : row_for s t = Some row -> RowTenant row = t /\ row ∈ store_load s.
Proof.
  unfold row_for. destruct (list_find _ _) as [[i r]|] eqn:E; [|done]. simpl. intros [= ->].
  apply list_find_Some in E as (E & Hp & _). split; [done|]. by eapply list_elem_of_lookup_2.
Qed.

Context `{!SpendStoreLaws M S}.

Lemma row_for_Some s t row : row_for s t = Some row <-> row ∈ store_load s /\ RowTenant row = t.
Proof.
  split; [intros E; apply row_for_tenant in E; tauto|]. intros [Hr Ht].
  unfold row_for. destruct (list_find (fun r => RowTenant r = t) (store_load s)) as [[i r]|] eqn:E.
  - simpl. apply list_find_Some in E as (E & Hp & _). f_equal.
    apply list_elem_of_lookup in Hr as [j Hj].
    assert (i = j) as <-; [|congruence].
    eapply (NoDup_lookup _ i j (RowTenant r) (load_nodup s)); rewrite list_lookup_fmap.
    + by rewrite E.
    + rewrite Hj. simpl. congruence.
  - apply list_find_None in E. rewrite Forall_lookup in E.
    apply list_elem_of_lookup in Hr as [j Hj]. by destruct (E j row Hj).
Qed.

Lemma row_for_None s t : row_for s t = None <-> forall row, row ∈ store_load s -> RowTenant row <> t.
Proof.
  split.
  - intros E row Hr Ht. assert (row_for s t = Some row) by (by apply row_for_Some). congruence.
  - intros Hn. destruct (row_for s t) as [row|] eqn:E; [|done].
    apply row_for_Some in E as [Hr Ht]. by destruct (Hn row Hr).
Qed.

Lemma row_for_save s row t :
  storable row -> row_for (store_save s row) t = if decide (RowTenant row = t) then Some row
                                                 else row_for s t.
Proof.
  intros Hs. case_decide as Ht.
  - apply row_for_Some. split; [|done]. apply load_save; auto.
  - destruct (row_for s t) as [r|] eqn:E.
    + apply row_for_Some in E as [E1 E2]. apply row_for_Some. split; [|done].
      apply load_save; [done|]. right. split; [done|]. congruence.
    + rewrite row_for_None in E |- *. intros r Hr.
      apply load_save in Hr as [->|[Hr _]]; auto.
Qed.
End Store.

(** ** Restore and persist *)

Section Durable.
Context {M S : Type} `{USD M} `{!SpendStore M S}.

(** The counters a stored row restores. *)
Definition restored (now : Time) (row : SpendRow M) : tenantState M :=
  mkTenant (RowDailyUSD row) (RowDailyStart row) (RowMonthlyUSD row) (RowMonthlyStart row)
    usd_zero 0 now 0 now.

(** The loop of [NewDurableEnforcer] over the loaded rows. *)
Fixpoint restoreRows (e : MemEnforcer M) (now : Time) (rows : list (SpendRow M)) : MemEnforcer M :=
  match rows with
  | [] => e
  | row :: rows =>
      let e := match limits e !! RowTenant row with
               | None => e
               | Some _ => set_tenant e (RowTenant row) (restored now row)
               end in
      restoreRows e now rows
  end.

(** [NewDurableEnforcer]; [loaded] is what [Store.Load] returned, [None] being
    an error, which is fatal. *)
Definition NewDurableEnforcer (l : gmap string (Limits M)) (clk : Time)
    (store : bool) (loaded : option (list (SpendRow M))) : option (MemEnforcer M) :=
  let e := NewEnforcer l in
  if negb store then Some e
  else
    let e := mkEnforcer (limits e) (tenants e) (healthy e) (nextID e) (done_ e) true (seq_ e)
               (written e) in
    match loaded with
    | None => None
    | Some rows => Some (restoreRows e clk rows)
    end.

(** [persist]: [ok] says whether this [Save] succeeds.  The result is the
    enforcer, the store and whether an error is returned. *)
Definition persist (e : MemEnforcer M) (s : S) (row : SpendRow M) (seq : Z) (ok : bool)
    : MemEnforcer M * S * bool :=
  if seq <=? default 0 (written e !! RowTenant row) then (e, s, false)
  else if negb ok then (setStoreHealthy e false, s, true)
  else
    let e := mkEnforcer (limits e) (tenants e) (healthy e) (nextID e) (done_ e) (hasStore e)
               (seq_ e) (<[RowTenant row := seq]> (written e)) in
    (setStoreHealthy e true, store_save s row, false).

(** ** Durable worlds *)

Record dworld := mkDWorld {
  d_enf : MemEnforcer M;
  d_store : S;
  d_now : Time;
  d_pending : list (SpendRow M * Z);
  d_issued : list (Reservation M);
  d_hist : gmap (string * Z) (SpendRow M);
  d_lost : list (string * Z)
}.

Definition seq_of (e : MemEnforcer M) (t : string) : Z := default 0 (seq_ e !! t).
Definition written_of (e : MemEnforcer M) (t : string) : Z := default 0 (written e !! t).

Inductive dstep : dworld -> dworld -> Prop :=
| d_reserve e s now p iss h lost clk t est r e' :
    now <= clk -> storable_time clk -> Reserve e clk t est = (inr r, e') ->
    dstep (mkDWorld e s now p iss h lost) (mkDWorld e' s clk p (r :: iss) h lost)
| d_deny e s now p iss h lost clk t est d e' :
    now <= clk -> storable_time clk -> Reserve e clk t est = (inl d, e') ->
    dstep (mkDWorld e s now p iss h lost) (mkDWorld e' s clk p iss h lost)
| d_settle e s now p iss h lost clk r actual usd e' row n :
    now <= clk -> storable_time clk -> r ∈ iss -> seq_of e (Tenant r) + 1 < 2 ^ 64 ->
    Settle e clk r actual usd = (e', Some (row, n)) ->
    dstep (mkDWorld e s now p iss h lost)
      (mkDWorld e' s clk ((row, n) :: p) iss (<[(Tenant r, n) := row]> h) lost)
| d_settled_again e s now p iss h lost clk r actual usd :
    now <= clk -> r ∈ iss -> Settle e clk r actual usd = (e, None) ->
    dstep (mkDWorld e s now p iss h lost) (mkDWorld e s clk p iss h lost)
| d_release e s now p iss h lost clk r :
    now <= clk -> storable_time clk -> r ∈ iss ->
    dstep (mkDWorld e s now p iss h lost) (mkDWorld (Release e clk r) s clk p iss h lost)
| d_read e s now p iss h lost clk t :
    now <= clk -> storable_time clk ->
    dstep (mkDWorld e s now p iss h lost) (mkDWorld (stateFor e t clk).2 s clk p iss h lost)
| d_persist e s now p p' iss h lost row n ok e' s' err :
    p ≡ₚ (row, n) :: p' -> persist e s row n ok = (e', s', err) ->
    dstep (mkDWorld e s now p iss h lost)
      (mkDWorld e' s' now p' iss h (if err then (RowTenant row, n) :: lost else lost)).

(** The gateway at boot: the rows of the store are the snapshots numbered 0. *)
Definition boot (l : gmap string (Limits M)) (s : S) (clk : Time) : dworld :=
  mkDWorld
    (restoreRows (mkEnforcer l ∅ true 0 ∅ true ∅ ∅) clk (store_load s)) s clk [] []
    (list_to_map ((fun row => ((RowTenant row, 0), row)) <$> store_load s)) [].

(** What a tenant has spent at [clk], of a state that may be absent. *)
Definition spent_at (o : option (tenantState M)) (clk : Time) : M * M :=
  let st := match o with None => freshTenant clk | Some st => rollover st clk end in
  (dailySpent st, monthlySpent st).

Record durable_ok (l : gmap string (Limits M)) (x : dworld) : Prop := {
  do_limits : limits (d_enf x) = l /\ hasStore (d_enf x) = true;
  do_issued : forall r, r ∈ d_issued x -> is_Some (l !! Tenant r);
  do_starts : forall t st, tenants (d_enf x) !! t = Some st ->
    storable_time (dailyStart st) /\ storable_time (monthlyStart st);
  do_range : forall t, 0 <= written_of (d_enf x) t <= seq_of (d_enf x) t /\
    seq_of (d_enf x) t < 2 ^ 64;
  do_pending : forall row n, (row, n) ∈ d_pending x ->
    0 < n <= seq_of (d_enf x) (RowTenant row) /\ storable row /\
    d_hist x !! (RowTenant row, n) = Some row;
  do_hist : forall t n row, d_hist x !! (t, n) = Some row ->
    RowTenant row = t /\ 0 <= n <= seq_of (d_enf x) t;
  do_taken : forall t n, 0 < n <= seq_of (d_enf x) t -> is_Some (d_hist x !! (t, n));
  do_store : forall t, row_for (d_store x) t = d_hist x !! (t, written_of (d_enf x) t);
  do_gap : forall t n, written_of (d_enf x) t < n <= seq_of (d_enf x) t ->
    (exists row, (row, n) ∈ d_pending x /\ RowTenant row = t) \/ (t, n) ∈ d_lost x;
  do_memory : forall t clk, is_Some (l !! t) -> d_now x <= clk ->
    spent_at (tenants (d_enf x) !! t) clk
    = spent_at (restored clk <$> d_hist x !! (t, seq_of (d_enf x) t)) clk
}.

(** *** Counters over time *)

(** [st] carries the totals and windows [stateFor] computed at [clk]. *)
Definition same_totals (st st0 : tenantState M) : Prop :=
  dailySpent st = dailySpent st0 /\ dailyStart st = dailyStart st0 /\
  monthlySpent st = monthlySpent st0 /\ monthlyStart st = monthlyStart st0.

Lemma windowOver_later c clk a d : c <= clk -> windowOver c a d = true -> windowOver clk a d = true.
Proof. unfold windowOver, time_Sub. intros Hc E. bool_to_prop. apply Z.leb_le. lia. Qed.

(** A total read later is the same whether or not it was rolled earlier. *)
Lemma spent_at_touched e t st c clk :
  c <= clk -> same_totals st (stateFor e t c).1 ->
  spent_at (Some st) clk = spent_at (tenants e !! t) clk.
Proof.
  intros Hc (E1 & E2 & E3 & E4). unfold spent_at, stateFor in *; simpl in *.
  rewrite E1, E2, E3, E4. destruct (tenants e !! t) as [s|]; simpl.
  - f_equal.
    + destruct (windowOver c (dailyStart s) dailyWindow) eqn:W; [|done].
      rewrite (windowOver_later c clk (dailyStart s)) by done. by destruct (windowOver clk c dailyWindow).
    + destruct (windowOver c (monthlyStart s) monthlyWindow) eqn:W; [|done].
      rewrite (windowOver_later c clk (monthlyStart s)) by done.
      by destruct (windowOver clk c monthlyWindow).
  - by destruct (windowOver _ _ dailyWindow), (windowOver _ _ monthlyWindow).
Qed.

Lemma stateFor_starts e t c :
  storable_time c ->
  (forall st, tenants e !! t = Some st ->
     storable_time (dailyStart st) /\ storable_time (monthlyStart st)) ->
  storable_time (dailyStart (stateFor e t c).1) /\
  storable_time (monthlyStart (stateFor e t c).1).
Proof.
  intros Hc Hs. unfold stateFor; simpl. destruct (tenants e !! t) as [s|]; simpl; [|done].
  destruct (Hs s eq_refl). by destruct (windowOver _ _ dailyWindow), (windowOver _ _ monthlyWindow).
Qed.

(** A call that touches at most one tenant, keeping what it read of the totals. *)
Definition touched (e e' : MemEnforcer M) (clk : Time) : Prop :=
  limits e' = limits e /\ hasStore e' = hasStore e /\ seq_ e' = seq_ e /\
  written e' = written e /\
  (tenants e' = tenants e \/
   exists t st, tenants e' = <[t := st]> (tenants e) /\ same_totals st (stateFor e t clk).1).

Lemma touched_Reserve e clk t est : touched e (Reserve e clk t est).2 clk.
Proof.
  pose proof (Reserve_cases e clk t est) as C. cbv zeta in C. unfold touched.
  destruct (Reserve e clk t est) as [[d|r] e']; cbn [snd].
  - destruct C as [(_ & _ & ->)|(l & _ & [(_ & _ & _ & ->)|(_ & -> & _)])]; split_and!; auto.
    right. exists t, (stateFor e t clk).1. done.
  - destruct C as (l & _ & _ & _ & _ & _ & El & _ & Et & _ & _ & Eh & Es & Ew).
    split_and!; try done. right. exists t, (claim (stateFor e t clk).1 est). done.
Qed.

Lemma touched_Release e clk r : touched e (Release e clk r) clk.
Proof.
  unfold touched. destruct (Release_cases e clk r) as [[_ ->]|(_ & Et & El & _ & _ & _ & Eh & Es & Ew)].
  - split_and!; auto.
  - split_and!; try done. right. eexists _, _. by split; [exact Et|].
Qed.

Lemma touched_read e clk t : touched e (stateFor e t clk).2 clk.
Proof. unfold touched. split_and!; try done. right. exists t, (stateFor e t clk).1. done. Qed.

Lemma touched_ok l x e' clk iss' :
  durable_ok l x -> touched (d_enf x) e' clk -> d_now x <= clk -> storable_time clk ->
  (forall r, r ∈ iss' -> is_Some (l !! Tenant r)) ->
  durable_ok l (mkDWorld e' (d_store x) clk (d_pending x) iss' (d_hist x) (d_lost x)).
Proof.
  intros [[A1 A2] B C D E F G I J K] (T1 & T2 & T3 & T4 & T) Hc Hst Hi.
  constructor; simpl; unfold seq_of, written_of in *; rewrite ?T1, ?T2, ?T3, ?T4; auto.
  - destruct T as [->|(t0 & st0 & -> & (_ & E2 & _ & E4))]; [done|]. intros t st.
    rewrite lookup_insert. case_decide; [intros [= <-]; subst|by apply C].
    rewrite E2, E4. apply stateFor_starts; [done|]. intros s. apply C.
  - intros t c Ht Hc'. rewrite <- K by (auto; lia).
    destruct T as [->|(t0 & st0 & -> & E0)]; [done|].
    rewrite lookup_insert. case_decide; [subst|done].
    apply spent_at_touched with clk; done.
Qed.

(** *** One step *)

Lemma settle_ok l e s now p iss h lost clk r actual usd e' row n :
  durable_ok l (mkDWorld e s now p iss h lost) ->
  now <= clk -> storable_time clk -> r ∈ iss -> seq_of e (Tenant r) + 1 < 2 ^ 64 ->
  Settle e clk r actual usd = (e', Some (row, n)) ->
  durable_ok l (mkDWorld e' s clk ((row, n) :: p) iss (<[(Tenant r, n) := row]> h) lost).
Proof.
  intros [[A1 A2] B C D E F G I J K] Hc Hst Hr Hq Hs; simpl in *.
  destruct (Settle_cases e clk r actual usd) as [[_ X]|(_ & X)]; [congruence|]. rewrite Hs in X.
  cbn [fst snd] in X. destruct X as (Et & El & _ & _ & _ & Eh & Ew & X). rewrite A2 in X.
  destruct X as [Es Er].
  set (st := settled (stateFor e (Tenant r) clk).1 (Est r) actual usd) in *.
  set (t0 := Tenant r) in *. specialize (D t0) as D0.
  fold (seq_of e t0) in Es, Er. rewrite (wrapu64_id (seq_of e t0 + 1)) in Es, Er by lia.
  apply (inj Some), pair_equal_spec in Er as [-> ->]. clear Hs.
  assert (Hseq : forall t, seq_of e' t = if decide (t0 = t) then seq_of e t0 + 1 else seq_of e t).
  { intros t. unfold seq_of at 1. rewrite Es, lookup_insert. by case_decide. }
  assert (Hwr : forall t, written_of e' t = written_of e t) by (intros; unfold written_of; by rewrite Ew).
  assert (Hstarts : storable_time (dailyStart st) /\ storable_time (monthlyStart st))
    by (apply stateFor_starts; [done|]; intros s0; apply C).
  constructor; simpl; auto.
  - by rewrite El, Eh.
  - intros t st'. rewrite Et, lookup_insert. case_decide; [by intros [= <-]|apply C].
  - intros t. rewrite Hseq, Hwr. specialize (D t). case_decide; subst; lia.
  - intros row k Hin. rewrite Hseq. apply elem_of_cons in Hin as [[= -> ->]|Hin].
    + simpl. rewrite decide_True by done. split_and!; try lia; try apply Hstarts.
      by rewrite lookup_insert_eq.
    + destruct (E row k Hin) as (E1 & E2 & E3). split_and!; try done; try lia.
      * case_decide as Ht; [rewrite <- Ht in E1|]; lia.
      * rewrite lookup_insert_ne; [done|]. intros [= Hx Hy]. rewrite <- Hx in E1. lia.
  - intros t k row. rewrite lookup_insert. case_decide as Heq.
    + intros [= <-]. simplify_eq. rewrite Hseq, decide_True by done. split; [done|lia].
    + intros Hk. apply F in Hk as [F1 F2]. rewrite Hseq. split; [done|].
      case_decide as Ht; [rewrite <- Ht in F2|]; lia.
  - intros t k Hk. rewrite lookup_insert. case_decide as Heq; [by eexists|].
    apply G. rewrite Hseq in Hk. case_decide; [|done]. subst t.
    assert (k <> seq_of e t0 + 1) by congruence. lia.
  - intros t. rewrite Hwr, I, lookup_insert_ne; [done|]. intros [= Hx Hy]. subst t. lia.
  - intros t k. rewrite Hseq, Hwr. intros Hk.
    destruct (decide (t0 = t /\ k = seq_of e t0 + 1)) as [[<- ->]|Hne].
    + left. eexists. split; [left|done].
    + destruct (J t k) as [(row & J1 & J2)|J1]; [|left|by right].
      * case_decide; [subst t|lia].
        assert (k <> seq_of e t0 + 1) by (intros ->; by apply Hne). lia.
      * exists row. split; [by right|done].
  - intros t c Ht Hc'. rewrite Hseq, Et, lookup_insert. case_decide as Heq.
    + subst t. by rewrite lookup_insert_eq.
    + rewrite lookup_insert_ne by congruence. apply K; [done|lia].
Qed.

Lemma persist_ok `{!SpendStoreLaws M S} l e s now p p' iss h lost row n ok e' s' err :
  durable_ok l (mkDWorld e s now p iss h lost) ->
  p ≡ₚ (row, n) :: p' -> persist e s row n ok = (e', s', err) ->
  durable_ok l (mkDWorld e' s' now p' iss h (if err then (RowTenant row, n) :: lost else lost)).
Proof.
  intros [[A1 A2] B C D E F G I J K] Hp Hs; simpl in *.
  destruct (E row n) as (Hn & Hstor & Hh); [rewrite Hp; left|].
  assert (Hsub : forall x, x ∈ p' -> x ∈ p) by (intros x Hx; rewrite Hp; by right).
  unfold persist in Hs. fold (written_of e (RowTenant row)) in Hs.
  destruct (n <=? _) eqn:W; [|destruct ok]; bool_to_prop; simplify_eq/=.
  - constructor; simpl; auto. intros t k Hk.
    destruct (J t k Hk) as [(r & J1 & J2)|J1]; [|by right]. rewrite Hp in J1.
    apply elem_of_cons in J1 as [[= -> ->]|J1]; [subst t; lia|]. left. by exists r.
  - match goal with |- durable_ok _ (mkDWorld ?e2 _ _ _ _ _ _) =>
      assert (Hf : limits e2 = limits e /\ hasStore e2 = hasStore e /\ tenants e2 = tenants e /\
                   seq_ e2 = seq_ e) by done;
      assert (Hwr : forall t, written_of e2 t
                    = if decide (RowTenant row = t) then n else written_of e t)
        by (intros t; unfold written_of; simpl; rewrite lookup_insert; by case_decide);
      revert Hf Hwr; generalize e2
    end. intros e2 (F1 & F2 & F3 & F4) Hwr.
    constructor; simpl; unfold seq_of in *; rewrite ?F1, ?F2, ?F3, ?F4; auto.
    + intros t. rewrite Hwr. specialize (D t). case_decide; subst; lia.
    + intros t. rewrite Hwr, row_for_save by done. case_decide; [by subst|done].
    + intros t k. rewrite Hwr. intros Hk. destruct (decide (RowTenant row = t)) as [<-|Hne].
      * destruct (J (RowTenant row) k) as [(r & J1 & J2)|J1]; [lia| |by right].
        rewrite Hp in J1. apply elem_of_cons in J1 as [[= -> ->]|J1]; [lia|]. left. by exists r.
      * destruct (J t k) as [(r & J1 & J2)|J1]; [done| |by right].
        rewrite Hp in J1. apply elem_of_cons in J1 as [[= -> ->]|J1]; [done|]. left. by exists r.
  - constructor; simpl; auto; [intros r k Hin; exact (E r k (Hsub _ Hin))|]. intros t k Hk.
    destruct (J t k Hk) as [(r & J1 & J2)|J1]; [|by right; right]. rewrite Hp in J1.
    apply elem_of_cons in J1 as [[= -> ->]|J1]; [right; subst t; left|]. left. by exists r.
Qed.

(** *** Boot *)

Lemma restoreRows_frame e now rows :
  limits (restoreRows e now rows) = limits e /\
  hasStore (restoreRows e now rows) = hasStore e /\
  seq_ (restoreRows e now rows) = seq_ e /\ written (restoreRows e now rows) = written e.
Proof.
  revert e. induction rows as [|row rows IH]; intros e; simpl; [done|].
  destruct (IH (match limits e !! RowTenant row with
                | None => e | Some _ => set_tenant e (RowTenant row) (restored now row) end))
    as (-> & -> & -> & ->).
  by destruct (limits e !! RowTenant row).
Qed.

Lemma restoreRows_skip e now rows t :
  limits e !! t = None \/ (forall row, row ∈ rows -> RowTenant row <> t) ->
  tenants (restoreRows e now rows) !! t = tenants e !! t.
Proof.
  revert e. induction rows as [|row rows IH]; intros e Ht; simpl; [done|].
  destruct (limits e !! RowTenant row) eqn:L.
  - rewrite IH; simpl.
    + rewrite lookup_insert_ne; [done|]. intros <-.
      destruct Ht as [Ht|Ht]; [congruence|]. by destruct (Ht row (list_elem_of_here _ _)).
    + destruct Ht as [Ht|Ht]; [by left|right]. intros; apply Ht. by right.
  - apply IH. destruct Ht as [Ht|Ht]; [by left|right]. intros; apply Ht. by right.
Qed.

Lemma restoreRows_take e now rows row :
  NoDup (RowTenant <$> rows) -> row ∈ rows -> is_Some (limits e !! RowTenant row) ->
  tenants (restoreRows e now rows) !! RowTenant row = Some (restored now row).
Proof.
  revert e. induction rows as [|r rows IH]; intros e Hn Hr Hl; simpl;
    [by apply not_elem_of_nil in Hr|].
  rewrite fmap_cons in Hn. apply list.NoDup_cons in Hn as [Hn1 Hn2].
  apply elem_of_cons in Hr as [->|Hr].
  - destruct Hl as [lim Hl]. rewrite Hl. rewrite restoreRows_skip.
    + simpl. by rewrite lookup_insert_eq.
    + right. intros r' Hr' E. apply Hn1. rewrite <- E. by apply list_elem_of_fmap_2.
  - apply IH; [done|done|]. by destruct (limits e !! RowTenant r).
Qed.

Lemma boot_hist `{!SpendStoreLaws M S} l s clk t n row :
  d_hist (boot l s clk) !! (t, n) = Some row <-> n = 0 /\ row_for s t = Some row.
Proof.
  unfold boot; simpl.
  assert (Hnd : NoDup ((fun row => ((RowTenant row, 0), row)) <$> store_load s).*1).
  { rewrite <- list_fmap_compose.
    replace (fst ∘ (fun row : SpendRow M => ((RowTenant row, 0), row)))
      with ((fun t : string => (t, 0)) ∘ RowTenant (M := M)) by done.
    rewrite list_fmap_compose. apply NoDup_fmap_2; [|apply load_nodup].
    intros a b [= ->]; done. }
  rewrite <- elem_of_list_to_map by done. rewrite list_elem_of_fmap, row_for_Some. split.
  - intros (r & [= -> -> ->] & Hr). done.
  - intros (-> & Hr & <-). by exists row.
Qed.

Lemma restored_spent now now' row clk :
  spent_at (Some (restored now row)) clk = spent_at (Some (restored now' row)) clk.
Proof. done. Qed.

Lemma boot_ok `{!SpendStoreLaws M S} l s clk :
  storable_time clk -> durable_ok l (boot l s clk).
Proof.
  intros Hst. pose proof (boot_hist l s clk) as Hh.
  assert (Hl : forall t row, row_for s t = Some row -> is_Some (l !! t) ->
    tenants (d_enf (boot l s clk)) !! t = Some (restored clk row)).
  { intros t row E Ht. apply row_for_Some in E as [E1 <-].
    apply restoreRows_take; [apply load_nodup|done|done]. }
  assert (Hn : forall t, row_for s t = None \/ l !! t = None ->
    tenants (d_enf (boot l s clk)) !! t = None).
  { intros t E. unfold boot; simpl. rewrite restoreRows_skip; [done|].
    destruct E as [E|E]; [right|by left]. by apply row_for_None. }
  destruct (restoreRows_frame (mkEnforcer l ∅ true 0 ∅ true ∅ ∅) clk (store_load s))
    as (Fl & Fs & Fq & Fw).
  assert (Hseq : forall t, seq_of (d_enf (boot l s clk)) t = 0)
    by (intros t; unfold seq_of, boot; cbn [d_enf]; by rewrite Fq).
  assert (Hwr : forall t, written_of (d_enf (boot l s clk)) t = 0)
    by (intros t; unfold written_of, boot; cbn [d_enf]; by rewrite Fw).
  constructor.
  - split; [exact Fl|exact Fs].
  - intros r Hr. by apply not_elem_of_nil in Hr.
  - intros t st E. destruct (row_for s t) as [row|] eqn:R; [|rewrite Hn in E by auto; done].
    destruct (l !! t) eqn:L; [|rewrite Hn in E by auto; done].
    rewrite (Hl t row R) in E by done. injection E as <-. simpl.
    apply row_for_Some in R as [R _]. by apply load_storable in R.
  - intros t. rewrite Hwr, Hseq. lia.
  - intros row n Hr. by apply not_elem_of_nil in Hr.
  - intros t n row E. apply Hh in E as [-> E]. rewrite Hseq.
    apply row_for_Some in E as [_ E]. split; [done|lia].
  - intros t n Hr. rewrite Hseq in Hr. lia.
  - intros t. rewrite Hwr. apply option_eq. intros row. rewrite Hh. by split; [|intros [_ ?]].
  - intros t n Hr. rewrite Hseq, Hwr in Hr. lia.
  - intros t c Ht Hc. rewrite Hseq.
    destruct (row_for s t) as [row|] eqn:R.
    + rewrite (Hl t row R Ht). by rewrite (proj2 (Hh t 0 row) (conj eq_refl R)).
    + rewrite Hn by auto. destruct (d_hist (boot l s clk) !! (t, 0)) as [row|] eqn:E; [|done].
      apply Hh in E as [_ E]. congruence.
Qed.

Lemma Reserve_known e clk t est r e' :
  Reserve e clk t est = (inr r, e') -> is_Some (limits e !! t) /\ Tenant r = t.
Proof.
  intros E. pose proof (Reserve_cases e clk t est) as C. cbv zeta in C. rewrite E in C.
  destruct C as (lim & -> & _ & _ & _ & -> & _). by split; [eexists|].
Qed.

Lemma dstep_ok `{!SpendStoreLaws M S} l x y : dstep x y -> durable_ok l x -> durable_ok l y.
Proof.
  destruct 1 as [e s now p iss h lost clk t est r e' Hc Hst E
    |e s now p iss h lost clk t est d e' Hc Hst E
    |e s now p iss h lost clk r actual usd e' row n Hc Hst Hr Hq E
    |e s now p iss h lost clk r actual usd Hc Hr E|e s now p iss h lost clk r Hc Hst Hr
    |e s now p iss h lost clk t Hc Hst|e s now p p' iss h lost row n ok e' s' err Hp E]; intros W.
  - pose proof (touched_Reserve e clk t est) as T. rewrite E in T.
    apply (touched_ok l _ e' clk (r :: iss) W T Hc Hst).
    apply Reserve_known in E as [E <-]. destruct W as [[<- _] B _ _ _ _ _ _ _ _].
    intros r0 [->|Hr]%elem_of_cons; auto.
  - pose proof (touched_Reserve e clk t est) as T. rewrite E in T.
    apply (touched_ok l _ e' clk iss W T Hc Hst). apply W.
  - by eapply settle_ok.
  - destruct W as [A B C D F G I J K L]. constructor; auto. simpl in *. intros; apply L; lia || done.
  - apply (touched_ok l _ _ clk iss W (touched_Release e clk r) Hc Hst). apply W.
  - apply (touched_ok l _ _ clk iss W (touched_read e clk t) Hc Hst). apply W.
  - by eapply persist_ok.
Qed.

Lemma dreach_ok `{!SpendStoreLaws M S} l s clk x :
  storable_time clk -> rtc dstep (boot l s clk) x -> durable_ok l x.
Proof.
  intros Hst R. pose proof (boot_ok l s clk Hst) as W. revert W.
  induction R as [|x y z Hs _ IH]; [done|]. intros W. apply IH. by eapply dstep_ok.
Qed.
End Durable.

Arguments dworld : clear implicits.

(** ** The SQLite store

    One table keyed by tenant; instants are 64-bit Unix nanoseconds, amounts are
    copied bit for bit.  The SQL engine is modelled by what the statements do to
    the table; which statement or transaction fails is an input. *)

Section SQLite.
Context {M : Type} `{USD M}.

Record dbrow := mkDbRow {
  daily_usd : M;
  daily_start : Z;
  monthly_usd : M;
  monthly_start : Z;
  updated_at : Z
}.

Record database := mkDatabase {
  user_version : Z;
  tenant_spend : option (gmap string dbrow)
}.

Definition schemaVersion : Z := 1.

(** [t.UnixNano()] and [time.Unix(0, n)]. *)
Definition UnixNano (t : Time) : Z := wrap64 (t - unixEpoch).
Definition time_Unix (n : Z) : Time := unixEpoch + wrap64 n.

(** [CREATE TABLE IF NOT EXISTS tenant_spend]. *)
Definition migrate0to1 (db : database) : database :=
  mkDatabase (user_version db) (Some (default ∅ (tenant_spend db))).

Definition migrations : list (database -> database) := [migrate0to1].

Inductive migrate_result :=
| Migrated (db : database)
| MigrateError (db : database)
| MigratePanic.

(** The loop of [migrate]; [commits v] says whether the transaction that takes
    the file from version [v] commits. *)
Fixpoint migrateFrom (fuel : nat) (commits : Z -> bool) (v : Z) (db : database) : migrate_result :=
  match fuel with
  | O => Migrated db
  | S fuel =>
      if v <? schemaVersion then
        match (if v <? 0 then None else migrations !! Z.to_nat v) with
        | None => MigratePanic
        | Some m =>
            if commits v
            then migrateFrom fuel commits (v + 1) (mkDatabase (v + 1) (tenant_spend (m db)))
            else MigrateError db
        end
      else Migrated db
  end.

Definition migrate (commits : Z -> bool) (db : database) : migrate_result :=
  if schemaVersion <? user_version db then MigrateError db
  else migrateFrom (S (Z.to_nat (schemaVersion - user_version db))) commits (user_version db) db.

(** [checkIntegrity] on the text the pragma returns, [None] when it fails. *)
Definition checkIntegrity (result : option string) : bool :=
  match result with Some r => bool_decide (r = "ok"%string) | None => false end.

(** [OpenSQLiteStore]: opens, pings, checks, migrates and prepares, or refuses. *)
Definition OpenSQLiteStore (opens pings : bool) (integrity : option string)
    (commits : Z -> bool) (prepares : bool) (db : database) : option database :=
  if negb opens then None
  else if negb pings then None
  else if negb (checkIntegrity integrity) then None
  else match migrate commits db with
       | Migrated db => if prepares then Some db else None
       | _ => None
       end.

(** The row [Save] upserts. *)
Definition toDbRow (row : SpendRow M) : dbrow :=
  mkDbRow (RowDailyUSD row) (UnixNano (RowDailyStart row)) (RowMonthlyUSD row)
    (UnixNano (RowMonthlyStart row)) (UnixNano (RowDailyStart row)).

Definition sqlite_Save (table : gmap string dbrow) (row : SpendRow M) : gmap string dbrow :=
  <[RowTenant row := toDbRow row]> table.

Definition ofDbRow (p : string * dbrow) : SpendRow M :=
  mkRow p.1 (daily_usd p.2) (monthly_usd p.2) (time_Unix (daily_start p.2))
    (time_Unix (monthly_start p.2)).

Definition sqlite_Load (table : gmap string dbrow) : list (SpendRow M) :=
  ofDbRow <$> map_to_list table.

#[export] Instance SQLiteStore : SpendStore M (gmap string dbrow) := {|
  store_load := sqlite_Load;
  store_save := sqlite_Save
|}.

Lemma time_Unix_storable n : storable_time (time_Unix n).
Proof.
  unfold storable_time, time_Unix. replace (_ - _) with (wrap64 n) by lia. apply wrap64_range.
Qed.

Lemma UnixNano_roundtrip t : storable_time t -> time_Unix (UnixNano t) = t.
Proof.
  unfold storable_time, time_Unix, UnixNano. intros Hs.
  rewrite wrap64_idemp, wrap64_id by done. lia.
Qed.

Lemma ofDbRow_toDbRow row : storable row -> ofDbRow (RowTenant row, toDbRow row) = row.
Proof.
  intros [H1 H2]. unfold ofDbRow, toDbRow; simpl. rewrite !UnixNano_roundtrip by done.
  by destruct row.
Qed.

#[export] Instance SQLiteStore_laws : SpendStoreLaws M (gmap string dbrow).
Proof.
  constructor.
  - intros s. unfold store_load, SQLiteStore, sqlite_Load. rewrite <- list_fmap_compose.
    apply (NoDup_fst_map_to_list s).
  - intros s row (p & -> & _)%list_elem_of_fmap. split; apply time_Unix_storable.
  - intros s row row' Hs. unfold store_load, store_save, SQLiteStore, sqlite_Load, sqlite_Save.
    rewrite !list_elem_of_fmap. split.
    + intros ([t d] & -> & Hp%elem_of_map_to_list). rewrite lookup_insert in Hp.
      case_decide as Ht; [left|right].
      * simplify_eq. by apply ofDbRow_toDbRow.
      * split; [|simpl; congruence]. exists (t, d). split; [done|]. by apply elem_of_map_to_list.
    + intros [->|[([t d] & -> & Hp%elem_of_map_to_list) Ht]].
      * exists (RowTenant row, toDbRow row). rewrite ofDbRow_toDbRow by done. split; [done|].
        apply elem_of_map_to_list. apply lookup_insert_eq.
      * exists (t, d). split; [done|]. apply elem_of_map_to_list.
        by rewrite lookup_insert_ne by (simpl in Ht; congruence).
Qed.
End SQLite.

Arguments dbrow : clear implicits.
Arguments database : clear implicits.

(** ** Properties *)

Section Properties.
Context {M S : Type} `{USD M} `{!SpendStore M S} `{!SpendStoreLaws M S}.

Lemma persist_written (e : MemEnforcer M) (s : S) row n ok e' s' err t :
  persist e s row n ok = (e', s', err) -> written_of e t <= written_of e' t.
Proof.
  unfold persist. fold (written_of e (RowTenant row)). intros E.
  destruct (n <=? _) eqn:W; [|destruct ok]; bool_to_prop; simplify_eq/=; try done.
  unfold written_of in *; simpl. rewrite lookup_insert. case_decide; subst; simpl; lia.
Qed.

Lemma touched_written (e e' : MemEnforcer M) clk t : touched e e' clk -> written_of e t = written_of e' t.
Proof. intros (_ & _ & _ & E & _). unfold written_of. by rewrite E. Qed.

(** (C7) The store never moves backwards: in every reachable state, whatever
    the order the writes land in and whichever of them fail, the store holds
    for each tenant exactly the snapshot with the newest number written; a step
    never lowers that number, and never rewrites a snapshot. *)
Theorem store_never_regresses l (s : S) clk x y :
  storable_time clk -> rtc dstep (boot l s clk) x -> dstep x y ->
  forall t,
    row_for (d_store y) t = d_hist y !! (t, written_of (d_enf y) t) /\
    written_of (d_enf x) t <= written_of (d_enf y) t /\
    (forall n row, d_hist x !! (t, n) = Some row -> d_hist y !! (t, n) = Some row).
Proof.
  intros Hst R Hs t. pose proof (dreach_ok l s clk x Hst R) as W.
  pose proof (dstep_ok l x y Hs W) as W'. split; [apply W'|].
  destruct Hs as [e s0 now p iss h lost c t0 est r e' Hc Hcs E
    |e s0 now p iss h lost c t0 est d e' Hc Hcs E
    |e s0 now p iss h lost c r actual usd e' row n Hc Hcs Hr Hq E
    |e s0 now p iss h lost c r actual usd Hc Hr E|e s0 now p iss h lost c r Hc Hcs Hr
    |e s0 now p iss h lost c t0 Hc Hcs|e s0 now p p' iss h lost row n ok e' s' err Hp E];
    cbn [d_enf d_hist]; try (split; [|done]).
  - pose proof (touched_Reserve e c t0 est) as T. rewrite E in T.
    by rewrite (touched_written _ _ _ _ T).
  - pose proof (touched_Reserve e c t0 est) as T. rewrite E in T.
    by rewrite (touched_written _ _ _ _ T).
  - destruct (Settle_cases e c r actual usd) as [[_ X]|(_ & X)]; [congruence|].
    rewrite E in X. cbn [fst snd] in X. destruct X as (_ & _ & _ & _ & _ & Eh & Ew & X).
    split; [unfold written_of; by rewrite Ew|]. intros k row' Hk.
    pose proof (do_hist _ _ W t k row' Hk) as [_ Hle]. simpl in Hle.
    destruct (do_limits _ _ W) as [_ Hh]. simpl in Hh. rewrite Hh in X. destruct X as [_ X].
    apply (inj Some), pair_equal_spec in X as [_ ->]. fold (seq_of e (Tenant r)).
    pose proof (do_range _ _ W (Tenant r)) as D. simpl in D. rewrite wrapu64_id by lia.
    rewrite lookup_insert_ne; [done|]. intros [= -> <-]. lia.
  - done.
  - by rewrite (touched_written _ _ _ _ (touched_Release e c r)).
  - done.
  - by eapply persist_written.
Qed.

(** (C6) Restarting forgives nothing: when a tenant's newest settlement is
    neither waiting to be written nor lost to a failed write, an enforcer
    restored from the store at any later time reports for it the same daily and
    monthly spend as the one that is replaced, however long the gap and however
    many windows turned over in it. *)
Theorem restart_restores_spend l (s : S) clk x t now :
  storable_time clk -> rtc dstep (boot l s clk) x -> is_Some (l !! t) -> d_now x <= now ->
  (forall row n, (row, n) ∈ d_pending x -> RowTenant row <> t) ->
  (t, seq_of (d_enf x) t) ∉ d_lost x ->
  exists e, NewDurableEnforcer l now true (Some (store_load (d_store x))) = Some e /\
    (Spent e now t).1 = (Spent (d_enf x) now t).1.
Proof.
  intros Hst R Ht Hnow Hp Hl. pose proof (dreach_ok l s clk x Hst R) as W.
  eexists. split; [reflexivity|].
  change (spent_at (tenants (d_enf (boot l (d_store x) now)) !! t) now
          = spent_at (tenants (d_enf x) !! t) now).
  pose proof (do_range _ _ W t) as D.
  assert (Hw : written_of (d_enf x) t = seq_of (d_enf x) t).
  { destruct (decide (written_of (d_enf x) t = seq_of (d_enf x) t)) as [|Hne]; [done|].
    destruct (do_gap _ _ W t (seq_of (d_enf x) t)) as [(row & Hr & Hrt)|Hr]; [lia| |done].
    by destruct (Hp row _ Hr). }
  rewrite (do_memory _ _ W t now Ht Hnow), <- Hw, <- (do_store _ _ W t).
  unfold boot; cbn [d_enf].
  destruct (row_for (d_store x) t) as [row|] eqn:E.
  - apply row_for_Some in E as [E <-]. rewrite restoreRows_take; [done|apply load_nodup|done|done].
  - rewrite restoreRows_skip; [done|]. right. by apply row_for_None.
Qed.
End Properties.

(** The SQLite store keeps the contract of a store: after a save, loading
    gives that row back exactly, amounts bit for bit and instants to the
    nanosecond, gives every other tenant's row unchanged, and no tenant has two
    rows. *)
Theorem sqlite_roundtrip {M} `{USD M} (table : gmap string (dbrow M)) row t :
  storable row ->
  row_for (sqlite_Save table row) t
  = (if decide (RowTenant row = t) then Some row else row_for table t) /\
  NoDup (RowTenant <$> sqlite_Load (sqlite_Save table row)).
Proof.
  intros Hs. split.
  - exact (row_for_save (S := gmap string (dbrow M)) table row t Hs).
  - exact (load_nodup (M := M) (sqlite_Save table row)).
Qed.

(** Opening a store is all or nothing: it succeeds exactly when every
    stage does and the file is not from a newer schema, leaves the schema at
    this version with every row it had, and opening it again changes nothing; a
    migration whose transaction does not commit leaves the file as it was. *)
Theorem open_store_spec {M} opens pings integrity commits prepares (db : database M) :
  0 <= user_version db ->
  (forall db', OpenSQLiteStore opens pings integrity commits prepares db = Some db' ->
    opens = true /\ pings = true /\ integrity = Some "ok"%string /\ prepares = true /\
    user_version db <= schemaVersion /\ user_version db' = schemaVersion /\
    (user_version db < schemaVersion ->
       commits 0 = true /\ tenant_spend db' = Some (default ∅ (tenant_spend db))) /\
    (user_version db = schemaVersion -> db' = db) /\
    migrate commits db' = Migrated db') /\
  (forall db', migrate commits db = MigrateError db' -> db' = db).
Proof.
  intros Hv. unfold OpenSQLiteStore, checkIntegrity, migrate, schemaVersion.
  destruct db as [v table]; simpl in *.
  assert (v = 0 \/ v = 1 \/ 1 < v) as [->|[->|Hgt]] by lia; simpl.
  - destruct opens, pings, integrity as [i|], (commits 0), prepares; simpl;
      try case_bool_decide; split; intros db' E; simplify_eq/=; auto;
      split_and!; auto; intros; subst; try lia; done.
  - destruct opens, pings, integrity as [i|], prepares; simpl;
      try case_bool_decide; split; intros db' E; simplify_eq/=; auto;
      split_and!; auto; intros; subst; try lia; done.
  - replace (1 <? v) with true by (symmetry; apply Z.ltb_lt; lia).
    destruct opens, pings, integrity as [i|]; simpl; try case_bool_decide; split;
      intros db' E; by simplify_eq.
Qed.

(** ** A degraded gateway whose tenants all fail closed

    Only a durable write that succeeds marks the store healthy again, and only
    a settlement writes.  Once the store is marked unhealthy with nothing in
    flight and nothing waiting to be written, a gateway whose tenants all fail
    closed refuses every request from then on, even when the store works. *)

Section Degraded.
Context {M S : Type} `{USD M} `{!SpendStore M S}.

Record stuck (x : dworld M S) : Prop := {
  stuck_health : healthy (d_enf x) = false;
  stuck_pending : d_pending x = [];
  stuck_issued : forall r, r ∈ d_issued x -> ID r ∈ done_ (d_enf x);
  stuck_closed : forall t lim, limits (d_enf x) !! t = Some lim -> FailClosed lim = true
}.

Lemma stuck_refuses (x : dworld M S) clk t est :
  stuck x -> exists d, Reserve (d_enf x) clk t est = (inl d, d_enf x) /\ RetryAfter d = 0.
Proof.
  intros [A B C D]. unfold Reserve. destruct (limits (d_enf x) !! t) as [lim|] eqn:L; [|by eexists].
  rewrite A, (D t lim L). simpl. by eexists.
Qed.

Lemma stuck_step (x y : dworld M S) : dstep x y -> stuck x -> stuck y.
Proof.
  intros Hs K. pose proof K as [A B C D].
  destruct Hs as [e s0 now p iss h lost c t0 est r e' Hc Hcs E
    |e s0 now p iss h lost c t0 est d e' Hc Hcs E
    |e s0 now p iss h lost c r actual usd e' row n Hc Hcs Hr Hq E
    |e s0 now p iss h lost c r actual usd Hc Hr E|e s0 now p iss h lost c r Hc Hcs Hr
    |e s0 now p iss h lost c t0 Hc Hcs|e s0 now p p' iss h lost row n ok e' s' err Hp E];
    cbn [d_enf d_pending d_issued] in *.
  - destruct (stuck_refuses _ c t0 est K) as (d & E' & _). cbn in E'. congruence.
  - destruct (stuck_refuses _ c t0 est K) as (d' & E' & _). cbn in E'. rewrite E in E'.
    simplify_eq. by constructor.
  - unfold Settle in E. by rewrite bool_decide_true in E by auto.
  - by constructor.
  - unfold Release. rewrite bool_decide_true by auto. by constructor.
  - by constructor.
  - subst p. by apply Permutation_nil_cons in Hp.
Qed.

Theorem degraded_never_heals (x y : dworld M S) clk t est :
  stuck x -> rtc dstep x y ->
  exists d, Reserve (d_enf y) clk t est = (inl d, d_enf y) /\ RetryAfter d = 0.
Proof.
  intros K R. apply stuck_refuses. induction R as [|x y z Hs _ IH]; [done|].
  apply IH. by eapply stuck_step.
Qed.
End Degraded.

(** *** Instances *)

Module DurableExample.
Definition t0 : Time := unixEpoch.
Definition lim : Limits Z := mkLimits 0 0 100 1000 true.
Definition lims : gmap string (Limits Z) := {["acme" := lim]}.
Definition table0 : gmap string (dbrow Z) := {["acme" := mkDbRow 5 0 40 0 0]}.
Definition est : Estimate Z := mkEstimate 10 20 30.
Definition w0 : dworld Z (gmap string (dbrow Z)) := boot lims table0 t0.
Definition e1 : MemEnforcer Z := (Reserve (d_enf w0) t0 "acme" est).2.
Definition r1 : Reservation Z := mkReservation "acme" est t0 "1".
Definition w1 := mkDWorld e1 table0 t0 [] [r1] (d_hist w0) [].
Definition t1 : Time := t0 + Second.
Definition e2 : MemEnforcer Z := (Settle e1 t1 r1 (mkUsage 10 10 20) 7).1.
Definition row2 : SpendRow Z := mkRow "acme" 12 47 t0 t0.
Definition w2 := mkDWorld e2 table0 t1 [(row2, 1)] [r1] (<[("acme", 1) := row2]> (d_hist w0)) [].
Definition p3 := persist e2 table0 row2 1 true.
Definition w3 := mkDWorld p3.1.1 p3.1.2 t1 [] [r1] (<[("acme", 1) := row2]> (d_hist w0)) [].

Lemma int64_offset d : 0 <= d <= max_int64 -> storable_time (t0 + d).
Proof. unfold storable_time, is_int64, t0, min_int64. lia. Qed.

Lemma step1 : dstep w0 w1.
Proof.
  apply (d_reserve _ _ _ _ _ _ _ t0 "acme" est r1); [reflexivity| |vm_compute; reflexivity].
  apply (int64_offset 0). by split; vm_compute.
Qed.

Lemma step2 : dstep w1 w2.
Proof.
  apply (d_settle _ _ _ _ _ _ _ t1 r1 (mkUsage 10 10 20) 7 e2 row2 1).
  - by vm_compute.
  - apply (int64_offset Second). by split; vm_compute.
  - left.
  - by vm_compute.
  - vm_compute. reflexivity.
Qed.

Lemma step3 : dstep w2 w3.
Proof. by apply (d_persist _ _ _ _ [] _ _ _ row2 1 true _ _ false). Qed.

Lemma reached : rtc dstep w0 w3.
Proof. eapply rtc_l, rtc_l, rtc_l, rtc_refl; [exact step1|exact step2|exact step3]. Qed.
End DurableExample.

Lemma store_never_regresses_witness :
  row_for (d_store DurableExample.w3) "acme"
  = d_hist DurableExample.w3 !! ("acme", written_of (d_enf DurableExample.w3) "acme").
Proof.
  apply (store_never_regresses DurableExample.lims DurableExample.table0 DurableExample.t0
           DurableExample.w2 DurableExample.w3).
  - apply (DurableExample.int64_offset 0). by split; vm_compute.
  - eapply rtc_l, rtc_l, rtc_refl; [exact DurableExample.step1|exact DurableExample.step2].
  - exact DurableExample.step3.
Defined.

Lemma restart_restores_spend_witness :
  exists e, NewDurableEnforcer DurableExample.lims (DurableExample.t1 + Hour) true
              (Some (store_load (d_store DurableExample.w3))) = Some e /\
    (Spent e (DurableExample.t1 + Hour) "acme").1
    = (Spent (d_enf DurableExample.w3) (DurableExample.t1 + Hour) "acme").1.
Proof.
  apply (restart_restores_spend DurableExample.lims DurableExample.table0 DurableExample.t0).
  - apply (DurableExample.int64_offset 0). by split; vm_compute.
  - exact DurableExample.reached.
  - by eexists.
  - by vm_compute.
  - intros row n Hr. by apply not_elem_of_nil in Hr.
  - vm_compute. apply not_elem_of_nil.
Defined.

Lemma sqlite_roundtrip_witness :
  row_for (sqlite_Save DurableExample.table0 DurableExample.row2) "acme"
  = Some DurableExample.row2.
Proof.
  apply (sqlite_roundtrip DurableExample.table0 DurableExample.row2 "acme").
  by split; apply (DurableExample.int64_offset 0); split; vm_compute.
Defined.

Lemma open_store_spec_witness :
  migrate (fun _ => false) (mkDatabase 0 (None : option (gmap string (dbrow Z))))
  = MigrateError (mkDatabase 0 None) /\
  exists db, OpenSQLiteStore true true (Some "ok"%string) (fun _ => true) true
    (mkDatabase 0 (None : option (gmap string (dbrow Z)))) = Some db /\
    user_version db = schemaVersion.
Proof.
  split; [reflexivity|]. eexists. split; [reflexivity|].
  eapply (open_store_spec true true (Some "ok"%string) (fun _ => true) true
            (mkDatabase 0 (None : option (gmap string (dbrow Z))))); [done|reflexivity].
Defined.
