(* ===== verification/Exact.v ===== *)
(** * The exact cache (internal/cache/exact.go, internal/cache/types.go)

    Whole answers under the exact request that produced them: a map per tenant
    from request to node, and an intrusive doubly linked list of the nodes in
    recency order.  The nodes live in an explicit heap, so the pointer updates
    of [unlink] and [pushFront] are the program's; every method runs under the
    cache's mutex and is one function.  The specification is the plain list of
    held answers, most recent first ([spec_lookup], [spec_insert]); the
    refinement theorem says the pointer structure implements it.

    [snapshot] copies an entry's payloads when it is stored and when it is
    returned, so an [Entry] is a value here. *)

From Stdlib Require Import ZArith Lia String.
From stdpp Require Import base gmap strings list numbers.
From S2P Require Import Prelude Float64 Providers.

Local Open Scope Z_scope.

(** ** Shared cache types *)

Record Entry := mkEntry {
  Body : string;
  Frames : list string;
  EntryUsage : Usage;
  EntryUSD : f64;
  EntryProvider : string;
  EntryModel : string;
  StoredAt : Time
}.

Definition Streamed (e : Entry) : bool := negb (bool_decide (Frames e = [])).

Record Key := mkKey { KTenant : string; KModel : string; KHash : string }.

Inductive Event :=
| EventExactHit | EventSemanticHit | EventMiss | EventIneligible | EventStored | EventEvicted
| EventEmbedFailed.

#[export] Instance Event_eq_dec : EqDecision Event.
Proof. solve_decision. Defined.

(** ** The pointer structure *)

Definition DefaultExactMaxEntries : Z := 4096.
Definition DefaultExactTTL : Duration := 5 * Minute.

Abbreviation loc := nat (only parsing).

Record exactKey := mkExactKey { xModel : string; xHash : string }.

#[export] Instance exactKey_eq_dec : EqDecision exactKey.
Proof. solve_decision. Defined.
#[export] Instance exactKey_countable : Countable exactKey.
Proof.
  by apply (inj_countable' (fun k => (xModel k, xHash k)) (fun p => mkExactKey p.1 p.2)); intros [].
Defined.

Record exactNode := mkNode {
  ntenant : string;
  nkey : exactKey;
  nentry : Entry;
  expiresAt : Time;
  prev : option loc;
  next : option loc
}.

Record Exact := mkExact {
  heap : gmap loc exactNode;
  fresh_loc : loc;
  byTenant : gmap string (gmap exactKey loc);
  head : option loc;
  tail : option loc;
  size : Z;
  maxEntries : Z;
  ttl : Duration
}.

Definition NewExact (max : Z) (life : Duration) : Exact :=
  mkExact ∅ 0 ∅ None None 0 (if max <=? 0 then DefaultExactMaxEntries else max)
    (if life <=? 0 then DefaultExactTTL else life).

(** Field updates. *)
Definition node_prev (p : option loc) (n : exactNode) : exactNode :=
  mkNode (ntenant n) (nkey n) (nentry n) (expiresAt n) p (next n).
Definition node_next (p : option loc) (n : exactNode) : exactNode :=
  mkNode (ntenant n) (nkey n) (nentry n) (expiresAt n) (prev n) p.
Definition node_refresh (e : Entry) (x : Time) (n : exactNode) : exactNode :=
  mkNode (ntenant n) (nkey n) e x (prev n) (next n).

Definition on_node (f : exactNode -> exactNode) (l : loc) (c : Exact) : Exact :=
  mkExact (alter f l (heap c)) (fresh_loc c) (byTenant c) (head c) (tail c) (size c)
    (maxEntries c) (ttl c).
Definition set_head (p : option loc) (c : Exact) : Exact :=
  mkExact (heap c) (fresh_loc c) (byTenant c) p (tail c) (size c) (maxEntries c) (ttl c).
Definition set_tail (p : option loc) (c : Exact) : Exact :=
  mkExact (heap c) (fresh_loc c) (byTenant c) (head c) p (size c) (maxEntries c) (ttl c).
Definition set_byTenant (m : gmap string (gmap exactKey loc)) (c : Exact) : Exact :=
  mkExact (heap c) (fresh_loc c) m (head c) (tail c) (size c) (maxEntries c) (ttl c).
Definition add_size (d : Z) (c : Exact) : Exact :=
  mkExact (heap c) (fresh_loc c) (byTenant c) (head c) (tail c) (size c +i d) (maxEntries c)
    (ttl c).

Definition node_field (f : exactNode -> option loc) (c : Exact) (l : loc) : option loc :=
  heap c !! l ≫= f.

(** [unlink]: take node [l] out of the recency order. *)
Definition unlink (l : loc) (c : Exact) : Exact :=
  let c :=
    match node_field prev c l with
    | Some p => on_node (node_next (node_field next c l)) p c
    | None => if decide (head c = Some l) then set_head (node_field next c l) c else c
    end in
  let c :=
    match node_field next c l with
    | Some n => on_node (node_prev (node_field prev c l)) n c
    | None => if decide (tail c = Some l) then set_tail (node_field prev c l) c else c
    end in
  on_node (node_next None) l (on_node (node_prev None) l c).

(** [pushFront]: make node [l] the most recently used. *)
Definition pushFront (l : loc) (c : Exact) : Exact :=
  let c := on_node (node_next (head c)) l (on_node (node_prev None) l c) in
  let c := match head c with Some h => on_node (node_prev (Some l)) h c | None => c end in
  let c := set_head (Some l) c in
  match tail c with None => set_tail (Some l) c | Some _ => c end.

(** [drop]: remove node [l] from the order and from its tenant's map. *)
Definition drop_node (l : loc) (c : Exact) : Exact :=
  let c := unlink l c in
  let c :=
    match heap c !! l with
    | None => c
    | Some n =>
        match byTenant c !! ntenant n with
        | None => c
        | Some byKey =>
            let byKey := delete (nkey n) byKey in
            set_byTenant (if decide (byKey = ∅) then delete (ntenant n) (byTenant c)
                          else <[ntenant n := byKey]> (byTenant c)) c
        end
    end in
  add_size (-1) c.

Definition exact_key (k : Key) : exactKey := mkExactKey (KModel k) (KHash k).

Definition find_node (c : Exact) (k : Key) : option loc :=
  byTenant c !! KTenant k ≫= fun byKey => byKey !! exact_key k.

Definition lookup_ (c : Exact) (now : Time) (k : Key) : option Entry * Exact :=
  match find_node c k with
  | None => (None, c)
  | Some l =>
      match heap c !! l with
      | None => (None, c)
      | Some node =>
          if negb (time_Before now (expiresAt node)) then (None, drop_node l c)
          else (Some (nentry node), pushFront l (unlink l c))
      end
  end.

(** The eviction loop of [insert]; [fuel] bounds its turns. *)
Fixpoint evict (fuel : nat) (c : Exact) : Exact * nat :=
  match fuel with
  | O => (c, O)
  | S fuel =>
      if maxEntries c <? size c then
        match tail c with
        | None => (c, O)
        | Some l => let '(c, n) := evict fuel (drop_node l c) in (c, S n)
        end
      else (c, O)
  end.

Definition stamped (e : Entry) (now : Time) : Entry :=
  if time_IsZero (StoredAt e)
  then mkEntry (Body e) (Frames e) (EntryUsage e) (EntryUSD e) (EntryProvider e) (EntryModel e) now
  else e.

Definition insert_ (c : Exact) (now : Time) (k : Key) (e : Entry) : Exact * nat :=
  let e := stamped e now in
  let exp := time_Add now (ttl c) in
  let byKey := default ∅ (byTenant c !! KTenant k) in
  let c := match byTenant c !! KTenant k with
           | None => set_byTenant (<[KTenant k := ∅]> (byTenant c)) c
           | Some _ => c
           end in
  match byKey !! exact_key k with
  | Some l => (pushFront l (unlink l (on_node (node_refresh e exp) l c)), O)
  | None =>
      let l := fresh_loc c in
      let node := mkNode (KTenant k) (exact_key k) e exp None None in
      let c := mkExact (<[l := node]> (heap c)) (S l)
                 (<[KTenant k := <[exact_key k := l]> byKey]> (byTenant c)) (head c) (tail c)
                 (size c) (maxEntries c) (ttl c) in
      let c := add_size 1 (pushFront l c) in
      evict (S (Z.to_nat (size c - maxEntries c))) c
  end.

(** [Get], [Put] and [Len], with the events they emit. *)
Definition exact_Get (c : Exact) (now : Time) (k : Key) : option Entry * Exact * list Event :=
  match lookup_ c now k with
  | (Some e, c) => (Some e, c, [EventExactHit])
  | (None, c) => (None, c, [EventMiss])
  end.

Definition exact_Put (c : Exact) (now : Time) (k : Key) (e : option Entry) : Exact * list Event :=
  match e with
  | None => (c, [])
  | Some e => let '(c, evicted) := insert_ c now k e in
              (c, repeat EventEvicted evicted ++ [EventStored])
  end.

Definition exact_Len (c : Exact) : Z := size c.

(** ** The specification: held answers, most recent first *)

Record held := mkHeld { hkey : Key; hentry : Entry; hexpires : Time }.

Definition key_of (k : Key) : string * exactKey := (KTenant k, exact_key k).

Definition spec_find (m : list held) (k : string * exactKey) : option held :=
  snd <$> list_find (fun x => key_of (hkey x) = k) m.

Definition spec_remove (k : Key) (m : list held) : list held :=
  base.filter (fun x => key_of (hkey x) <> key_of k) m.

Definition spec_lookup (m : list held) (now : Time) (k : Key) : option Entry * list held :=
  match spec_find m (key_of k) with
  | None => (None, m)
  | Some x =>
      if now <? hexpires x then (Some (hentry x), x :: spec_remove k m)
      else (None, spec_remove k m)
  end.

Definition spec_insert (max : Z) (life : Duration) (m : list held) (now : Time) (k : Key)
    (e : Entry) : list held * nat :=
  let x := mkHeld k (stamped e now) (now + life) in
  let m' := x :: spec_remove k m in
  (take (Z.to_nat max) m', (length m' - Z.to_nat max)%nat).

(** ** The doubly linked list *)

Definition before (order : list loc) (i : nat) : option loc :=
  match i with O => None | S j => order !! j end.

(** [order] is the recency order the links of [h] spell, from [hd] to [tl]. *)
Record dll (h : gmap loc exactNode) (order : list loc) (hd tl : option loc) : Prop := {
  dll_head : hd = order !! 0%nat;
  dll_tail : tl = list.last order;
  dll_nodup : NoDup order;
  dll_links : forall i l, order !! i = Some l ->
    exists n, h !! l = Some n /\ prev n = before order i /\ next n = order !! S i
}.

(** What a node holds, its links aside. *)
Definition node_held (n : exactNode) : held :=
  mkHeld (mkKey (ntenant n) (xModel (nkey n)) (xHash (nkey n))) (nentry n) (expiresAt n).

(** Two heaps that differ in links only. *)
Definition same_data (h h' : gmap loc exactNode) : Prop :=
  forall l, node_held <$> h !! l = node_held <$> h' !! l.

Lemma lookup_on_node f l c l' :
  heap (on_node f l c) !! l' = if decide (l = l') then f <$> heap c !! l' else heap c !! l'.
Proof. simpl. rewrite lookup_alter. case_decide; by subst. Qed.

Lemma same_data_alter f l h :
  (forall n, node_held (f n) = node_held n) -> same_data (alter f l h) h.
Proof.
  intros Hf l'. rewrite lookup_alter. case_decide; [|done]. subst.
  destruct (h !! l') as [n|]; simpl; [by rewrite Hf|done].
Qed.

Lemma same_data_trans h1 h2 h3 : same_data h1 h2 -> same_data h2 h3 -> same_data h1 h3.
Proof. intros A B l. by rewrite A, B. Qed.

Lemma lookup_before order i l : order !! i = Some l -> forall p, before order i = Some p ->
  exists j, i = S j /\ order !! j = Some p.
Proof. intros _ p. destruct i as [|j]; [done|]. simpl. eauto. Qed.

Lemma unlink_frame l c :
  byTenant (unlink l c) = byTenant c /\ fresh_loc (unlink l c) = fresh_loc c /\
  size (unlink l c) = size c /\ maxEntries (unlink l c) = maxEntries c /\
  ttl (unlink l c) = ttl c /\ same_data (heap (unlink l c)) (heap c).
Proof.
  unfold unlink.
  repeat match goal with
  | |- context [match ?x with Some _ => _ | None => _ end] => destruct x
  | |- context [if decide ?P then _ else _] => destruct (decide P)
  end; simpl; split_and!; try done;
    repeat (eapply same_data_trans; [apply same_data_alter; done|]); done.
Qed.

Lemma pushFront_frame l c :
  byTenant (pushFront l c) = byTenant c /\ fresh_loc (pushFront l c) = fresh_loc c /\
  size (pushFront l c) = size c /\ maxEntries (pushFront l c) = maxEntries c /\
  ttl (pushFront l c) = ttl c /\ same_data (heap (pushFront l c)) (heap c).
Proof.
  unfold pushFront. destruct (head _) as [h|] eqn:Hh; simpl in Hh; rewrite ?Hh; simpl;
    destruct (tail c); simpl; split_and!; try done;
    repeat (eapply same_data_trans; [apply same_data_alter; done|]); done.
Qed.

Lemma dll_same h order hd tl i j l :
  dll h order hd tl -> order !! i = Some l -> order !! j = Some l -> i = j.
Proof. intros D Hi Hj. eapply NoDup_lookup; [apply D|exact Hi|exact Hj]. Qed.

Lemma node_field_set_head f p c l : node_field f (set_head p c) l = node_field f c l.
Proof. done. Qed.

Lemma heap_set_head P `{Decision P} p c : heap (if decide P then set_head p c else c) = heap c.
Proof. by case_decide. Qed.
Lemma heap_set_tail P `{Decision P} p c : heap (if decide P then set_tail p c else c) = heap c.
Proof. by case_decide. Qed.

(** The links, head and tail [unlink] leaves. *)
Lemma unlink_links c order i l :
  dll (heap c) order (head c) (tail c) -> order !! i = Some l ->
  let p := before order i in
  let nx := order !! S i in
  head (unlink l c) = (if decide (i = 0%nat) then nx else head c) /\
  tail (unlink l c) = (match nx with None => p | Some _ => tail c end) /\
  forall l', l' <> l ->
    heap (unlink l c) !! l'
    = (fun n => mkNode (ntenant n) (nkey n) (nentry n) (expiresAt n)
                  (if decide (nx = Some l') then p else prev n)
                  (if decide (p = Some l') then nx else next n)) <$> heap c !! l'.
Proof.
  intros D Hi p nx. pose proof D as [Dh Dt _ Dl].
  destruct (Dl i l Hi) as (n & Hn & Hp & Hnx). fold p in Hp. fold nx in Hnx.
  assert (Np : p <> Some l).
  { unfold p. intros E. apply (lookup_before order i l Hi) in E as (j & -> & E).
    pose proof (dll_same _ _ _ _ _ _ _ D Hi E). lia. }
  assert (Nn : nx <> Some l).
  { unfold nx. intros E. pose proof (dll_same _ _ _ _ _ _ _ D Hi E). lia. }
  assert (Hhead : (i = 0%nat <-> p = None)).
  { unfold p. destruct i as [|j]; simpl; [done|]. split; [done|].
    intros E. apply lookup_ge_None in E. apply lookup_lt_Some in Hi. lia. }
  assert (Eid : forall n' : exactNode, mkNode (ntenant n') (nkey n') (nentry n') (expiresAt n')
                                         (prev n') (next n') = n') by (by intros []).
  assert (Fn : forall c', heap c' !! l = Some n -> node_field prev c' l = p /\
                                             node_field next c' l = nx)
    by (intros c' E; unfold node_field; rewrite E; simpl; auto).
  unfold unlink. destruct (Fn c Hn) as [-> ->].
  set (c1 := match p with Some p' => on_node (node_next nx) p' c | None => _ end).
  assert (H1 : heap c1 !! l = Some n).
  { unfold c1. destruct p as [p'|]; [|by case_decide].
    rewrite lookup_on_node, decide_False; [done|congruence]. }
  destruct (Fn c1 H1) as [-> ->].
  set (c2 := match nx with Some n' => on_node (node_prev p) n' c1 | None => _ end).
  assert (Hc1 : head c1 = (if decide (i = 0%nat) then nx else head c) /\ tail c1 = tail c).
  { unfold c1. destruct p as [p'|].
    - split; [|done]. simpl. rewrite decide_False; [done|]. intros E. by apply Hhead in E.
    - rewrite (decide_True (P := i = 0%nat)) by (by apply Hhead).
      rewrite decide_True; [done|]. rewrite Dh. by rewrite <- (proj2 Hhead eq_refl). }
  destruct Hc1 as [Hh1 Ht1].
  assert (Hc2 : head c2 = head c1 /\ tail c2 = match nx with None => p | Some _ => tail c end).
  { unfold c2. destruct nx as [n'|] eqn:En; [done|]. rewrite decide_True; [done|].
    rewrite Ht1, Dt, last_lookup. rewrite <- Hi. f_equal.
    apply lookup_ge_None in En. apply lookup_lt_Some in Hi. lia. }
  destruct Hc2 as [Hh2 Ht2]. simpl. split_and!; [congruence|done|].
  intros l' Hne. rewrite !lookup_alter_ne by done.
  unfold c2. destruct nx as [n'|] eqn:En.
  - rewrite lookup_on_node. unfold c1. destruct p as [p'|] eqn:Ep.
    + rewrite lookup_on_node. destruct (heap c !! l') as [m|]; simpl;
        repeat case_decide; simplify_eq/=; f_equal; by rewrite ?Eid.
    + rewrite heap_set_head. destruct (heap c !! l') as [m|]; simpl; repeat case_decide; simplify_eq/=; f_equal;
        by rewrite ?Eid.
  - rewrite heap_set_tail. unfold c1. destruct p as [p'|] eqn:Ep.
    + rewrite lookup_on_node. destruct (heap c !! l') as [m|]; simpl;
        repeat case_decide; simplify_eq/=; f_equal; by rewrite ?Eid.
    + rewrite heap_set_head. destruct (heap c !! l') as [m|]; simpl; repeat case_decide; simplify_eq/=; f_equal;
        by rewrite ?Eid.
Qed.

Lemma unlink_dll c order i l :
  dll (heap c) order (head c) (tail c) -> order !! i = Some l ->
  dll (heap (unlink l c)) (delete i order) (head (unlink l c)) (tail (unlink l c)).
Proof.
  intros D Hi. destruct (unlink_links c order i l D Hi) as (Eh & Et & El).
  pose proof D as [Dh Dt Dn Dl]. pose proof (lookup_lt_Some _ _ _ Hi) as Hlen.
  constructor.
  - rewrite Eh, list_lookup_delete. case_decide as E0.
    + subst i. rewrite decide_False by lia. done.
    + rewrite decide_True by lia. done.
  - rewrite Et, last_lookup, length_delete by done. destruct (order !! S i) as [n'|] eqn:En.
    + rewrite Dt, last_lookup, list_lookup_delete.
      apply lookup_lt_Some in En. rewrite decide_False by lia. f_equal. lia.
    + apply lookup_ge_None in En. rewrite list_lookup_delete. destruct i as [|j]; unfold before.
      * rewrite decide_False by lia. symmetry. apply lookup_ge_None. lia.
      * rewrite decide_True by lia. f_equal. lia.
  - eapply sublist_NoDup; [exact Dn|apply sublist_delete].
  - intros j l' Hj. rewrite list_lookup_delete in Hj.
    assert (exists j0, order !! j0 = Some l' /\ j0 <> i /\
              before (delete i order) j = (if decide (j0 = S i) then before order i
                                           else before order j0) /\
              delete i order !! S j = (if decide (i = S j0) then order !! S i
                                       else order !! S j0)) as (j0 & Hj0 & Hne & Hb & Ha).
    { case_decide as Hji.
      - exists j. split_and!; [done|lia| |].
        + rewrite decide_False by lia. destruct j as [|j']; [done|]. simpl.
          rewrite list_lookup_delete, decide_True by lia. done.
        + rewrite list_lookup_delete. destruct (decide (i = S j)) as [->|Hs].
          * by rewrite decide_False by lia.
          * by rewrite decide_True by lia.
      - exists (S j). split_and!; [done|lia| |].
        + destruct (decide (S j = S i)) as [Hs|Hs].
          * assert (j = i) as -> by lia. destruct i as [|i']; [done|]. simpl.
            rewrite list_lookup_delete, decide_True by lia. done.
          * destruct j as [|j']; [lia|]. simpl. rewrite list_lookup_delete, decide_False by lia.
            done.
        + rewrite list_lookup_delete, !decide_False by lia. done. }
    assert (Hl : l' <> l) by (intros ->; apply Hne; by eapply dll_same).
    destruct (Dl j0 l' Hj0) as (n & Hn & Hp & Hx). rewrite El, Hn by done. simpl.
    eexists. split; [done|]. simpl. rewrite Hb, Ha. split.
    + destruct (decide (order !! S i = Some l')) as [E|E], (decide (j0 = S i)) as [E'|E'];
        try done.
      * exfalso. apply E'. by eapply dll_same.
      * subst j0. by rewrite Hj0 in E.
    + destruct (decide (before order i = Some l')) as [E|E], (decide (i = S j0)) as [E'|E'];
        try done.
      * exfalso. apply (lookup_before order i l Hi) in E as (j1 & -> & E).
        apply E'. f_equal. by eapply dll_same.
      * subst i. simpl in E. congruence.
Qed.

Lemma pushFront_dll c order l n :
  dll (heap c) order (head c) (tail c) -> l ∉ order -> heap c !! l = Some n ->
  dll (heap (pushFront l c)) (l :: order) (head (pushFront l c)) (tail (pushFront l c)).
Proof.
  intros [Dh Dt Dn Dl] Hnot Hn.
  assert (Hhead : head (pushFront l c) = Some l).
  { unfold pushFront, set_head, set_tail, on_node; simpl.
    destruct (head c); simpl; by destruct (tail c). }
  assert (Htail : tail (pushFront l c) = match tail c with None => Some l | Some t => Some t end).
  { unfold pushFront, set_head, set_tail, on_node; simpl.
    destruct (head c); simpl; by destruct (tail c). }
  assert (Hheap : forall l', heap (pushFront l c) !! l'
    = if decide (l = l') then Some (node_next (head c) (node_prev None n))
      else if decide (head c = Some l') then node_prev (Some l) <$> heap c !! l'
      else heap c !! l').
  { intros l'. unfold pushFront. simpl.
    assert (Hl : head c <> Some l).
    { rewrite Dh. intros E. apply Hnot. by eapply list_elem_of_lookup_2. }
    transitivity (heap (match head c with
                        | Some h => on_node (node_prev (Some l)) h
                            (on_node (node_next (head c)) l (on_node (node_prev None) l c))
                        | None => on_node (node_next (head c)) l (on_node (node_prev None) l c)
                        end) !! l').
    { unfold set_head, set_tail, on_node; simpl.
      destruct (head c); simpl; by destruct (tail c). }
    destruct (head c) as [h|].
    - rewrite !lookup_on_node. destruct (decide (l = l')) as [<-|Hne].
      + rewrite Hn. simpl. rewrite decide_False by congruence. done.
      + repeat case_decide; simplify_eq; done.
    - rewrite !lookup_on_node. destruct (decide (l = l')) as [<-|Hne]; [by rewrite Hn|].
      by rewrite decide_False. }
  constructor.
  - by rewrite Hhead.
  - rewrite Htail, Dt, last_cons. by destruct (list.last order).
  - by constructor.
  - intros [|j] l' Hj; simpl in Hj.
    + simplify_eq. rewrite Hheap, decide_True by done. eexists. split; [done|]. simpl.
      by rewrite Dh.
    + assert (Hne : l <> l') by (intros ->; apply Hnot; by eapply list_elem_of_lookup_2).
      destruct (Dl j l' Hj) as (m & Hm & Hp & Hx). rewrite Hheap, decide_False, Hm by done.
      rewrite Dh. destruct (decide (order !! 0%nat = Some l')) as [E|E]; simpl.
      * eexists. split; [done|]. simpl.
        assert (j = 0%nat) as -> by (eapply NoDup_lookup; [apply Dn|exact Hj|exact E]). done.
      * eexists. split; [done|]. destruct j as [|j]; [done|]. done.
Qed.

Lemma dll_insert_fresh h order hd tl l n :
  dll h order hd tl -> l ∉ order -> dll (<[l := n]> h) order hd tl.
Proof.
  intros [A B C D] Hl. constructor; auto. intros i l' Hi. rewrite lookup_insert_ne; [by apply D|].
  intros <-. apply Hl. by eapply list_elem_of_lookup_2.
Qed.

Lemma dll_refresh h order hd tl l e x :
  dll h order hd tl -> dll (alter (node_refresh e x) l h) order hd tl.
Proof.
  intros [A B C D]. constructor; auto. intros i l' Hi. destruct (D i l' Hi) as (n & Hn & Hp & Hx).
  rewrite lookup_alter. case_decide; [subst; rewrite Hn|]; eexists; split; done.
Qed.

(** ** The representation invariant *)

Definition held_key (x : held) : string * exactKey := key_of (hkey x).

Definition index_of (c : Exact) (k : string * exactKey) : option loc :=
  byTenant c !! k.1 ≫= fun byKey => byKey !! k.2.

Record wf (c : Exact) (order : list loc) (m : list held) : Prop := {
  wf_dll : dll (heap c) order (head c) (tail c);
  wf_data : (fun l => node_held <$> heap c !! l) <$> order = Some <$> m;
  wf_keys : NoDup (held_key <$> m);
  wf_index : forall k l, index_of c k = Some l <->
    exists i x, order !! i = Some l /\ m !! i = Some x /\ held_key x = k;
  wf_tenants : forall t mp, byTenant c !! t = Some mp -> mp <> ∅;
  wf_size : size c = Z.of_nat (length order);
  wf_fresh : forall l, l ∈ order -> (l < fresh_loc c)%nat;
  wf_max : 0 < maxEntries c < max_int64;
  wf_cap : Z.of_nat (length order) <= maxEntries c + 1
}.

Lemma wf_length c order m : wf c order m -> length order = length m.
Proof.
  intros W. pose proof (f_equal length (wf_data _ _ _ W)) as E. by rewrite !length_fmap in E.
Qed.

Lemma wf_node c order m i l x :
  wf c order m -> order !! i = Some l -> m !! i = Some x ->
  exists n, heap c !! l = Some n /\ node_held n = x.
Proof.
  intros W Hl Hx. pose proof (f_equal (fun o => o !! i) (wf_data _ _ _ W)) as E. simpl in E.
  rewrite !list_lookup_fmap, Hl, Hx in E. simpl in E. injection E as E.
  destruct (heap c !! l) as [n|]; [|done]. exists n. by simplify_eq/=.
Qed.

Lemma find_node_index c k : find_node c k = index_of c (key_of k).
Proof. done. Qed.

Lemma key_of_inj k k' : key_of k = key_of k' -> k = k'.
Proof. destruct k, k'; unfold key_of, exact_key; simpl. by intros [= -> -> ->]. Qed.

Lemma spec_find_lookup m i x :
  NoDup (held_key <$> m) -> m !! i = Some x -> spec_find m (held_key x) = Some x.
Proof.
  intros N Hi. unfold spec_find.
  destruct (list_find (fun y => key_of (hkey y) = held_key x) m) as [[j y]|] eqn:E; simpl.
  - apply list_find_Some in E as (Hj & Hk & _). f_equal.
    assert (i = j) as <-; [|congruence].
    eapply (NoDup_lookup _ i j (held_key x) N); rewrite list_lookup_fmap.
    + by rewrite Hi.
    + rewrite Hj. simpl. by f_equal.
  - apply list_find_None in E. rewrite Forall_lookup in E. by destruct (E i x Hi).
Qed.

Lemma spec_find_None m k : spec_find m k = None <-> forall x, x ∈ m -> held_key x <> k.
Proof.
  unfold spec_find. split.
  - intros E x Hx Hk. destruct (list_find _ m) as [[j y]|] eqn:F; [done|].
    apply list_find_None in F. rewrite Forall_lookup in F.
    apply list_elem_of_lookup in Hx as [i Hi]. by destruct (F i x Hi).
  - intros Hn. destruct (list_find _ m) as [[j y]|] eqn:F; [|done].
    apply list_find_Some in F as (Hj & Hk & _).
    destruct (Hn y); [by eapply list_elem_of_lookup_2|done].
Qed.

Lemma spec_find_Some m k x : spec_find m k = Some x -> x ∈ m /\ held_key x = k.
Proof.
  unfold spec_find. destruct (list_find _ m) as [[j y]|] eqn:F; [|done]. intros [= ->].
  apply list_find_Some in F as (Hj & Hk & _). split; [by eapply list_elem_of_lookup_2|done].
Qed.

Lemma spec_remove_none k m : (forall x, x ∈ m -> held_key x <> key_of k) -> spec_remove k m = m.
Proof.
  intros Hn. unfold spec_remove. apply list_filter_all, Forall_lookup.
  intros i x Hx. apply Hn. by eapply list_elem_of_lookup_2.
Qed.

Lemma spec_remove_delete k m i x :
  NoDup (held_key <$> m) -> m !! i = Some x -> held_key x = key_of k ->
  spec_remove k m = delete i m.
Proof.
  revert i. induction m as [|y m IH]; intros i N Hi Hk; [done|].
  rewrite fmap_cons in N. apply list.NoDup_cons in N as [N1 N2].
  unfold spec_remove. rewrite filter_cons. destruct i as [|i]; simpl in Hi |- *.
  - simplify_eq. rewrite decide_False by (unfold held_key in Hk; tauto).
    apply spec_remove_none. intros z Hz E. apply N1. rewrite Hk, <- E.
    by apply list_elem_of_fmap_2.
  - rewrite decide_True.
    + f_equal. by apply IH.
    + intros E. apply N1. change (key_of (hkey y)) with (held_key y) in E. rewrite E, <- Hk.
      apply list_elem_of_fmap_2. by eapply list_elem_of_lookup_2.
Qed.

Lemma held_keys_delete i m :
  NoDup (held_key <$> m) -> NoDup (held_key <$> delete i m).
Proof.
  intros N. eapply sublist_NoDup; [exact N|]. rewrite list_fmap_delete. apply sublist_delete.
Qed.

(** ** The operations keep the invariant *)

Lemma wf_elem c order m i l : wf c order m -> order !! i = Some l -> exists x, m !! i = Some x.
Proof.
  intros W Hi. apply lookup_lt_is_Some_2. rewrite <- (wf_length _ _ _ W).
  by eapply lookup_lt_Some.
Qed.

Lemma index_positions c order m k :
  wf c order m ->
  (index_of c k = None <-> forall x, x ∈ m -> held_key x <> k).
Proof.
  intros W. split.
  - intros E x Hx Hk. apply list_elem_of_lookup in Hx as [i Hi].
    assert (is_Some (order !! i)) as [l Hl].
    { apply lookup_lt_is_Some_2. rewrite (wf_length _ _ _ W). by eapply lookup_lt_Some. }
    assert (index_of c k = Some l) by (apply W; eauto). congruence.
  - intros Hn. destruct (index_of c k) as [l|] eqn:E; [|done].
    apply (wf_index _ _ _ W) in E as (i & x & _ & Hx & Hk).
    destruct (Hn x); [by eapply list_elem_of_lookup_2|done].
Qed.

(** Moving a node to the front. *)
Lemma touch_wf c order m i l x :
  wf c order m -> order !! i = Some l -> m !! i = Some x ->
  wf (pushFront l (unlink l c)) (l :: delete i order) (x :: delete i m).
Proof.
  intros W Hl Hx. destruct (wf_node _ _ _ _ _ _ W Hl Hx) as (n & Hn & Hd).
  destruct (unlink_frame l c) as (U1 & U2 & U3 & U4 & U5 & U6).
  destruct (pushFront_frame l (unlink l c)) as (P1 & P2 & P3 & P4 & P5 & P6).
  assert (Hperm : order ≡ₚ l :: delete i order) by by apply delete_Permutation.
  assert (Hmperm : m ≡ₚ x :: delete i m) by by apply delete_Permutation.
  assert (Hnot : l ∉ delete i order).
  { pose proof (dll_nodup _ _ _ _ (wf_dll _ _ _ W)) as N. rewrite Hperm in N.
    by apply list.NoDup_cons in N as [? _]. }
  assert (Hnode : exists n', heap (unlink l c) !! l = Some n').
  { pose proof (U6 l) as E. rewrite Hn in E. destruct (heap (unlink l c) !! l); [by eexists|done]. }
  destruct Hnode as [n' Hn'].
  constructor.
  - eapply pushFront_dll; [|done|done]. apply unlink_dll; [apply W|done].
  - assert (E : forall order' : list loc,
        (fun l0 => node_held <$> heap (pushFront l (unlink l c)) !! l0) <$> order'
        = (fun l0 => node_held <$> heap c !! l0) <$> order').
    { intros order'. apply list_fmap_ext. intros _ l0 _. by rewrite P6, U6. }
    rewrite E, !fmap_cons, !list_fmap_delete, (wf_data _ _ _ W). by rewrite Hn, <- Hd.
  - rewrite <- Hmperm. apply W.
  - intros k l0. unfold index_of. rewrite P1, U1. fold (index_of c k).
    rewrite (wf_index _ _ _ W). split.
    + intros (j & y & Hj & Hy & Hk). destruct (decide (j = i)) as [->|Hne].
      * exists 0%nat, x. simpl. by simplify_eq.
      * destruct (decide (j < i)%nat).
        -- exists (S j), y. simpl. by rewrite !list_lookup_delete_lt by lia.
        -- destruct j as [|j]; [lia|]. exists (S j), y. simpl.
           by rewrite !list_lookup_delete_ge by lia.
    + intros ([|j] & y & Hj & Hy & Hk); simpl in Hj, Hy.
      * simplify_eq. eauto.
      * rewrite list_lookup_delete in Hj. rewrite list_lookup_delete in Hy. eauto.
  - rewrite P1, U1. apply W.
  - rewrite P3, U3, (wf_size _ _ _ W). simpl. rewrite length_delete by done.
    apply lookup_lt_Some in Hl. lia.
  - intros l0. rewrite <- Hperm, P2, U2. apply W.
  - rewrite P4, U4. apply W.
  - rewrite P4, U4, <- Hperm. apply W.
Qed.

(** Overwriting a node's entry. *)
Lemma refresh_wf c order m i l x e exp :
  wf c order m -> order !! i = Some l -> m !! i = Some x ->
  wf (on_node (node_refresh e exp) l c) order (<[i := mkHeld (hkey x) e exp]> m).
Proof.
  intros W Hl Hx. destruct (wf_node _ _ _ _ _ _ W Hl Hx) as (n & Hn & Hd).
  assert (Hlt : (i < length m)%nat) by by eapply lookup_lt_Some.
  constructor; try apply W.
  - apply dll_refresh, W.
  - apply list_eq. intros j. rewrite !list_lookup_fmap.
    destruct (decide (j = i)) as [->|Hne].
    + rewrite Hl, list_lookup_insert_eq by done. simpl.
      rewrite lookup_alter, decide_True, Hn by done. simpl. by rewrite <- Hd.
    + rewrite list_lookup_insert_ne by done.
      pose proof (f_equal (fun o => o !! j) (wf_data _ _ _ W)) as E. simpl in E.
      rewrite !list_lookup_fmap in E. rewrite <- E.
      destruct (order !! j) as [l'|] eqn:Hj; [|done]. simpl. f_equal.
      rewrite lookup_alter_ne; [done|]. intros <-. apply Hne.
      symmetry. eapply dll_same; [apply W|exact Hl|exact Hj].
  - rewrite list_fmap_insert. simpl. rewrite list_insert_id; [apply W|].
    rewrite list_lookup_fmap, Hx. done.
  - intros k l0. change (index_of (on_node (node_refresh e exp) l c) k) with (index_of c k).
    rewrite (wf_index _ _ _ W). split.
    + intros (j & y & Hj & Hy & Hk). destruct (decide (j = i)) as [->|Hne].
      * exists i, (mkHeld (hkey x) e exp). rewrite list_lookup_insert_eq by done.
        assert (y = x) as -> by congruence. done.
      * exists j, y. by rewrite list_lookup_insert_ne.
    + intros (j & y & Hj & Hy & Hk). destruct (decide (j = i)) as [->|Hne].
      * rewrite list_lookup_insert_eq in Hy by done. exists i, x. injection Hy as <-.
        split_and!; auto.
      * rewrite list_lookup_insert_ne in Hy by done. eauto.
Qed.

(** Dropping a node. *)
Lemma drop_wf c order m i l x :
  wf c order m -> order !! i = Some l -> m !! i = Some x ->
  wf (drop_node l c) (delete i order) (delete i m).
Proof.
  intros W Hl Hx. destruct (wf_node _ _ _ _ _ _ W Hl Hx) as (n & Hn & Hd).
  destruct (unlink_frame l c) as (U1 & U2 & U3 & U4 & U5 & U6).
  pose proof (lookup_lt_Some _ _ _ Hl) as Hlt.
  assert (Hnode : exists n', heap (unlink l c) !! l = Some n' /\ node_held n' = x).
  { pose proof (U6 l) as E. rewrite Hn in E.
    destruct (heap (unlink l c) !! l) as [n'|]; simpl in E; [|done].
    exists n'. split; [done|congruence]. }
  destruct Hnode as (n' & Hn' & Hd').
  assert (Hkx : held_key x = (ntenant n', nkey n')).
  { rewrite <- Hd'. unfold held_key, key_of, exact_key; simpl. by destruct (nkey n'). }
  assert (Hix : index_of c (held_key x) = Some l) by (apply W; eauto).
  unfold index_of in Hix. rewrite Hkx in Hix. simpl in Hix.
  destruct (byTenant c !! ntenant n') as [byKey|] eqn:Eb; [|done]. simpl in Hix.
  set (byKey' := delete (nkey n') byKey).
  assert (Ed : drop_node l c = add_size (-1) (set_byTenant
    (if decide (byKey' = ∅) then delete (ntenant n') (byTenant c)
     else <[ntenant n' := byKey']> (byTenant c)) (unlink l c))).
  { unfold drop_node. rewrite Hn', U1, Eb. done. }
  assert (Hidx : forall k, index_of (drop_node l c) k
                 = if decide (k = held_key x) then None else index_of c k).
  { intros [t k]. rewrite Ed, Hkx. unfold index_of; simpl.
    destruct (decide (ntenant n' = t)) as [<-|Ht].
    - transitivity (byKey' !! k).
      + case_decide as Ee.
        * rewrite lookup_delete_eq. by rewrite Ee, lookup_empty.
        * by rewrite lookup_insert_eq.
      + unfold byKey'. rewrite Eb. simpl. rewrite lookup_delete. repeat case_decide; congruence.
    - rewrite (decide_False (P := (t, k) = _)) by congruence.
      case_decide; [by rewrite lookup_delete_ne|by rewrite lookup_insert_ne]. }
  constructor.
  - rewrite Ed. simpl. apply unlink_dll; [apply W|done].
  - rewrite !list_fmap_delete. rewrite <- (wf_data _ _ _ W). f_equal.
    apply list_fmap_ext. intros _ l0 _. rewrite Ed. simpl. apply U6.
  - apply held_keys_delete, W.
  - intros k l0. rewrite Hidx. destruct (decide (k = held_key x)) as [Hk|Hk].
    + split; [done|]. intros (j & y & Hj & Hy & Hky). exfalso. subst k.
      rewrite list_lookup_delete in Hy.
      assert (i = if decide (j < i)%nat then j else S j) as E.
      { eapply (NoDup_lookup _ _ _ (held_key x) (wf_keys _ _ _ W)); rewrite list_lookup_fmap.
        - by rewrite Hx.
        - rewrite Hy. simpl. by f_equal. }
      case_decide; lia.
    + rewrite (wf_index _ _ _ W). split.
      * intros (j & y & Hj & Hy & Hky). destruct (decide (j = i)) as [->|Hne]; [congruence|].
        destruct (decide (j < i)%nat).
        -- exists j, y. by rewrite !list_lookup_delete_lt by lia.
        -- destruct j as [|j]; [lia|]. exists j, y. by rewrite !list_lookup_delete_ge by lia.
      * intros (j & y & Hj & Hy & Hky). rewrite list_lookup_delete in Hj.
        rewrite list_lookup_delete in Hy. eauto.
  - intros t mp. rewrite Ed. simpl. case_decide as Ee.
    + rewrite lookup_delete. case_decide; [done|]. apply W.
    + rewrite lookup_insert. case_decide; [intros [= <-]; done|]. apply W.
  - rewrite Ed. change (size (unlink l c) +i (-1) = Z.of_nat (length (delete i order))).
    rewrite U3, (wf_size _ _ _ W), length_delete by done.
    pose proof (wf_max _ _ _ W). pose proof (wf_cap _ _ _ W).
    rewrite wrap64_id by (unfold is_int64, min_int64; lia). lia.
  - intros l0 H0. rewrite Ed. change (l0 < fresh_loc (unlink l c))%nat. rewrite U2.
    apply W. eapply elem_of_sublist; [exact H0|apply sublist_delete].
  - rewrite Ed. change (0 < maxEntries (unlink l c) < max_int64). rewrite U4. apply W.
  - rewrite Ed. change (Z.of_nat (length (delete i order)) <= maxEntries (unlink l c) + 1).
    rewrite U4, length_delete by done. pose proof (wf_cap _ _ _ W). lia.
Qed.

(** A node under a new request. *)
Lemma fresh_wf c order m k e exp :
  wf c order m -> index_of c (key_of k) = None -> Z.of_nat (length order) <= maxEntries c ->
  let byKey := default ∅ (byTenant c !! KTenant k) in
  let l := fresh_loc c in
  let node := mkNode (KTenant k) (exact_key k) e exp None None in
  let c1 := mkExact (<[l := node]> (heap c)) (S l)
              (<[KTenant k := <[exact_key k := l]> byKey]> (byTenant c)) (head c) (tail c)
              (size c) (maxEntries c) (ttl c) in
  wf (add_size 1 (pushFront l c1)) (l :: order) (mkHeld k e exp :: m).
Proof.
  intros W Hk Hcap byKey l node c1.
  assert (Hl : l ∉ order) by (intros H; apply (wf_fresh _ _ _ W) in H; unfold l in H; lia).
  destruct (pushFront_frame l c1) as (P1 & P2 & P3 & P4 & P5 & P6).
  assert (Hidx : forall k', index_of c1 k' = if decide (k' = key_of k) then Some l
                                             else index_of c k').
  { intros [t k']. unfold index_of, c1, key_of; simpl. rewrite lookup_insert.
    destruct (decide (KTenant k = t)) as [<-|Ht].
    - simpl. rewrite lookup_insert. unfold byKey.
      destruct (byTenant c !! KTenant k) as [mp|]; simpl; rewrite ?lookup_empty;
        repeat case_decide; congruence.
    - rewrite decide_False by congruence. done. }
  assert (Hnode : node_held node = mkHeld k e exp) by (destruct k; done).
  constructor.
  - apply (pushFront_dll c1 order l node); [|done|].
    + apply dll_insert_fresh; [apply W|done].
    + unfold c1; simpl. by rewrite lookup_insert_eq.
  - rewrite !fmap_cons. f_equal.
    + change (node_held <$> heap (pushFront l c1) !! l = Some (mkHeld k e exp)).
      rewrite P6. unfold c1; simpl. by rewrite lookup_insert_eq; simpl; rewrite Hnode.
    + rewrite <- (wf_data _ _ _ W). apply list_fmap_ext. intros i l0 Hi.
      change (node_held <$> heap (pushFront l c1) !! l0 = node_held <$> heap c !! l0).
      rewrite P6. unfold c1; simpl. rewrite lookup_insert_ne; [done|]. intros <-. apply Hl.
      by eapply list_elem_of_lookup_2.
  - rewrite fmap_cons. constructor; [|apply W]. intros (y & Hy & Hm)%list_elem_of_fmap.
    by destruct (proj1 (index_positions _ _ _ _ W) Hk y Hm).
  - intros k' l0. change (index_of (add_size 1 (pushFront l c1)) k') with
      (index_of (pushFront l c1) k'). unfold index_of. rewrite P1. fold (index_of c1 k').
    rewrite Hidx. destruct (decide (k' = key_of k)) as [->|Hne].
    + split.
      * intros [= <-]. exists 0%nat, (mkHeld k e exp). done.
      * intros ([|j] & y & Hj & Hy & Hky); simpl in Hj, Hy; [congruence|].
        assert (index_of c (key_of k) = Some l0) by (apply W; eauto). congruence.
    + rewrite (wf_index _ _ _ W). split.
      * intros (j & y & Hj & Hy & Hky). by exists (S j), y.
      * intros ([|j] & y & Hj & Hy & Hky); simpl in Hj, Hy; [|by eauto].
        simplify_eq.
  - intros t mp. change (byTenant (add_size 1 (pushFront l c1))) with (byTenant (pushFront l c1)).
    rewrite P1. unfold c1; simpl. rewrite lookup_insert. case_decide.
    + intros [= <-]. apply insert_non_empty.
    + apply W.
  - change (size (pushFront l c1) +i 1 = Z.of_nat (length (l :: order))).
    rewrite P3. unfold c1; simpl. rewrite (wf_size _ _ _ W).
    pose proof (wf_max _ _ _ W). rewrite wrap64_id by (unfold is_int64, min_int64; lia). lia.
  - intros l0 H0. change (l0 < fresh_loc (pushFront l c1))%nat. rewrite P2. unfold c1; simpl.
    apply elem_of_cons in H0 as [->|H0]; [unfold l; lia|]. apply (wf_fresh _ _ _ W) in H0. lia.
  - change (0 < maxEntries (pushFront l c1) < max_int64). rewrite P4. apply W.
  - change (Z.of_nat (length (l :: order)) <= maxEntries (pushFront l c1) + 1).
    rewrite P4. unfold c1; simpl. lia.
Qed.

(** ** Refinement *)

Lemma evict_wf fuel c order m :
  wf c order m -> (1 < fuel)%nat \/ (fuel = 1%nat /\ Z.of_nat (length order) <= maxEntries c) ->
  exists order', wf (evict fuel c).1 order' (take (Z.to_nat (maxEntries c)) m) /\
    Z.of_nat (length order') <= maxEntries c /\
    (evict fuel c).2 = (length m - Z.to_nat (maxEntries c))%nat /\
    maxEntries (evict fuel c).1 = maxEntries c /\ ttl (evict fuel c).1 = ttl c.
Proof.
  intros W Hf. pose proof (wf_length _ _ _ W) as Hlen.
  pose proof (wf_size _ _ _ W) as Hsize. pose proof (wf_max _ _ _ W) as Hmax.
  pose proof (wf_cap _ _ _ W) as Hcap.
  assert (Hdone : forall f c' order' m', wf c' order' m' -> (0 < f)%nat ->
            Z.of_nat (length order') <= maxEntries c' -> evict f c' = (c', O) /\
            take (Z.to_nat (maxEntries c')) m' = m' /\
            (length m' - Z.to_nat (maxEntries c'))%nat = O).
  { intros f c' order' m' W' Hf' Hle. destruct f as [|f]; [lia|]. simpl.
    rewrite (wf_size _ _ _ W'). replace (maxEntries c' <? _) with false
      by (symmetry; apply Z.ltb_ge; lia).
    pose proof (wf_length _ _ _ W'). split; [done|]. split; [apply take_ge; lia|lia]. }
  destruct (decide (Z.of_nat (length order) <= maxEntries c)) as [Hle|Hgt].
  - destruct (Hdone fuel c order m W ltac:(lia) Hle) as (E & Et & En).
    exists order. by rewrite E, Et, En.
  - destruct Hf as [Hf|[_ Hf]]; [|lia]. destruct fuel as [|fuel]; [lia|]. cbn [evict].
    replace (maxEntries c <? size c) with true by (symmetry; apply Z.ltb_lt; lia).
    destruct (list.last order) as [l|] eqn:El.
    2:{ apply last_None in El. subst order. simpl in Hgt. lia. }
    pose proof (dll_tail _ _ _ _ (wf_dll _ _ _ W)) as Ht. rewrite El in Ht. rewrite Ht.
    rewrite last_lookup in El. set (i := Nat.pred (length order)) in *.
    destruct (wf_elem _ _ _ _ _ W El) as [x Hx].
    pose proof (drop_wf _ _ _ _ _ _ W El Hx) as W'.
    destruct (unlink_frame l c) as (_ & _ & _ & U4 & U5 & _).
    assert (Em : maxEntries (drop_node l c) = maxEntries c /\ ttl (drop_node l c) = ttl c).
    { unfold drop_node. destruct (heap (unlink l c) !! l) as [n|]; [|by split].
      destruct (byTenant (unlink l c) !! ntenant n); by split. }
    assert (Hlen' : length (delete i order) = i).
    { rewrite length_delete by done. unfold i. lia. }
    destruct (Hdone fuel (drop_node l c) _ _ W' ltac:(lia)) as (E & Et & En).
    { rewrite Hlen'. destruct Em as [-> _]. unfold i. lia. }
    destruct Em as [Em1 Em2]. rewrite Em1 in *. rewrite E. cbn [fst snd].
    assert (Hi : i = Z.to_nat (maxEntries c)) by (unfold i; lia).
    assert (Hdel : delete i m = take i m).
    { apply list_eq. intros j. rewrite list_lookup_delete. case_decide.
      - by rewrite lookup_take_lt by lia.
      - rewrite lookup_take_ge by lia. apply lookup_ge_None. unfold i in *. lia. }
    exists (delete i order). rewrite <- Hi, <- Hdel. split_and!; try done; lia.
Qed.

(** [c] implements the list [m]. *)
Definition exact_repr (c : Exact) (m : list held) : Prop :=
  (exists order, wf c order m) /\ Z.of_nat (length m) <= maxEntries c.

Lemma repr_lookup c m now k :
  exact_repr c m ->
  (lookup_ c now k).1 = (spec_lookup m now k).1 /\
  exact_repr (lookup_ c now k).2 (spec_lookup m now k).2 /\
  maxEntries (lookup_ c now k).2 = maxEntries c /\ ttl (lookup_ c now k).2 = ttl c.
Proof.
  intros [[order W] Hle]. unfold lookup_, spec_lookup. rewrite find_node_index.
  destruct (index_of c (key_of k)) as [l|] eqn:Hk.
  - apply (wf_index _ _ _ W) in Hk as (i & x & Hl & Hx & Hk).
    rewrite <- Hk, (spec_find_lookup m i x) by (done || apply W).
    destruct (wf_node _ _ _ _ _ _ W Hl Hx) as (n & Hn & Hd). rewrite Hn.
    rewrite (spec_remove_delete k m i x) by (done || apply W).
    assert (Hlen : length (delete i m) = (length m - 1)%nat) by (by apply length_delete).
    assert (Hpos : (i < length m)%nat) by by eapply lookup_lt_Some.
    destruct (unlink_frame l c) as (_ & _ & _ & U4 & U5 & _).
    destruct (pushFront_frame l (unlink l c)) as (_ & _ & _ & P4 & P5 & _).
    unfold time_Before. rewrite <- Hd. cbn [hexpires hentry node_held].
    destruct (now <? expiresAt n); cbn [negb fst snd].
    + split_and!; try done; try congruence. split.
      * eexists. rewrite Hd. by eapply touch_wf.
      * rewrite P4, U4. simpl. lia.
    + assert (Em : maxEntries (drop_node l c) = maxEntries c /\ ttl (drop_node l c) = ttl c).
      { unfold drop_node. destruct (heap (unlink l c) !! l) as [n'|]; [|by split].
        destruct (byTenant (unlink l c) !! ntenant n'); by split. }
      destruct Em as [Em1 Em2]. split_and!; try done. split.
      * eexists. by eapply drop_wf.
      * rewrite Em1, Hlen. lia.
  - rewrite (proj2 (spec_find_None m (key_of k))) by (by eapply index_positions).
    split_and!; try done. by split; [eexists|].
Qed.

Lemma repr_insert c m now k e :
  exact_repr c m ->
  let '(m', n) := spec_insert (maxEntries c) (ttl c) m now k e in
  exact_repr (insert_ c now k e).1 m' /\ (insert_ c now k e).2 = n /\
  maxEntries (insert_ c now k e).1 = maxEntries c /\ ttl (insert_ c now k e).1 = ttl c.
Proof.
  intros [[order W] Hle]. unfold insert_, spec_insert, time_Add.
  pose proof (wf_length _ _ _ W) as Hlen.
  assert (Hbk : default ∅ (byTenant c !! KTenant k) !! exact_key k = index_of c (key_of k)).
  { unfold index_of; simpl. by destruct (byTenant c !! KTenant k). }
  rewrite Hbk. destruct (index_of c (key_of k)) as [l|] eqn:Hk.
  - assert (Hc : match byTenant c !! KTenant k with
                 | Some _ => c
                 | None => set_byTenant (<[KTenant k:=∅]> (byTenant c)) c end = c).
    { unfold index_of in Hk; simpl in Hk. by destruct (byTenant c !! KTenant k). }
    rewrite Hc. apply (wf_index _ _ _ W) in Hk as (i & x & Hl & Hx & Hk).
    rewrite (spec_remove_delete k m i x) by (done || apply W).
    set (e' := stamped e now).
    pose proof (refresh_wf _ _ _ _ _ _ e' (now + ttl c) W Hl Hx) as W1.
    assert (Hpos : (i < length m)%nat) by by eapply lookup_lt_Some.
    assert (Hx1 : <[i := mkHeld (hkey x) e' (now + ttl c)]> m !! i
                  = Some (mkHeld (hkey x) e' (now + ttl c))) by by rewrite list_lookup_insert_eq.
    pose proof (touch_wf _ _ _ _ _ _ W1 Hl Hx1) as W2.
    apply key_of_inj in Hk. rewrite Hk in W2.
    assert (Hdel : delete i (<[i := mkHeld k e' (now + ttl c)]> m) = delete i m).
    { apply list_eq. intros j. rewrite !list_lookup_delete. rewrite list_lookup_insert_ne; [done|].
      case_decide; lia. }
    rewrite Hdel in W2.
    set (c2 := on_node (node_refresh e' (now + ttl c)) l c) in *.
    destruct (unlink_frame l c2) as (_ & _ & _ & U4 & U5 & _).
    destruct (pushFront_frame l (unlink l c2)) as (_ & _ & _ & P4 & P5 & _).
    assert (Hl' : length (mkHeld k e' (now + ttl c) :: delete i m) = length m).
    { simpl. rewrite length_delete by done. lia. }
    rewrite take_ge by lia. rewrite Hl'. cbn [fst snd].
    split_and!; [|lia|by rewrite P4, U4|by rewrite P5, U5].
    split; [by eexists|]. rewrite Hl', P4, U4. done.
  - rewrite (spec_remove_none k m) by (by eapply index_positions).
    pose proof (fresh_wf c order m k (stamped e now) (now + ttl c) W Hk ltac:(lia)) as W1.
    cbv zeta in W1.
    set (c0 := match byTenant c !! KTenant k with
               | Some _ => c
               | None => set_byTenant (<[KTenant k:=∅]> (byTenant c)) c end).
    assert (E0 : heap c0 = heap c /\ fresh_loc c0 = fresh_loc c /\ head c0 = head c /\
                 tail c0 = tail c /\ size c0 = size c /\ maxEntries c0 = maxEntries c /\
                 ttl c0 = ttl c /\ forall mp, <[KTenant k := mp]> (byTenant c0)
                                    = <[KTenant k := mp]> (byTenant c)).
    { unfold c0. destruct (byTenant c !! KTenant k); simpl; split_and!; try done.
      intros mp. by rewrite insert_insert_eq. }
    destruct E0 as (-> & -> & -> & -> & -> & -> & -> & Eb). rewrite Eb. clear c0 Eb.
    match type of W1 with wf ?c1 _ _ => set (c2 := c1) in * end.
    assert (Em : maxEntries c2 = maxEntries c /\ ttl c2 = ttl c).
    { unfold c2. match goal with |- context [pushFront ?l ?c1] =>
        destruct (pushFront_frame l c1) as (_ & _ & _ & P4 & P5 & _) end. by split. }
    destruct Em as [Em1 Em2].
    assert (Hs : size c2 = Z.of_nat (S (length order))) by apply (wf_size _ _ _ W1).
    pose proof (wf_max _ _ _ W) as Hm.
    destruct (evict_wf (S (Z.to_nat (size c2 - maxEntries c2))) c2 _ _ W1) as
      (order' & W2 & Hle2 & En & E4 & E5).
    { rewrite Hs, Em1. simpl. destruct (decide (length m = Z.to_nat (maxEntries c))); [left|right]; lia. }
    rewrite Em1, Em2 in *.
    destruct (evict _ c2) as [c3 n3]; cbn [fst snd] in *.
    split_and!; try done; try congruence.
    split; [by eexists|]. rewrite E4, <- (wf_length _ _ _ W2). done.
Qed.

Lemma NewExact_repr max life : max < max_int64 -> exact_repr (NewExact max life) [].
Proof.
  intros Hm. assert (Hmax : 0 < maxEntries (NewExact max life) < max_int64).
  { simpl. destruct (max <=? 0) eqn:E; bool_to_prop; [done|lia]. }
  split; [exists []; constructor|]; simpl in *; try done; try lia.
  - constructor; try done. constructor.
  - constructor.
  - intros k l. unfold index_of; simpl. rewrite lookup_empty. simpl. split; [done|].
    by intros (i & x & Hi & _).
  - intros l Hl. by apply not_elem_of_nil in Hl.
Qed.

(** ** Histories *)

Inductive cache_op :=
| OGet (now : Time) (k : Key)
| OPut (now : Time) (k : Key) (e : Entry).

Definition cache_step (c : Exact) (o : cache_op) : option Entry * Exact :=
  match o with
  | OGet now k => (exact_Get c now k).1
  | OPut now k e => (None, (exact_Put c now k (Some e)).1)
  end.

Definition cache_run (c : Exact) (ops : list cache_op) : Exact :=
  foldl (fun c o => (cache_step c o).2) c ops.

(** The newest [Put] for a request: when, and what was stored. *)
Fixpoint last_put (ops : list cache_op) (k : Key) : option (Time * Entry) :=
  match ops with
  | [] => None
  | o :: ops =>
      match last_put ops k with
      | Some p => Some p
      | None => match o with
                | OPut now k' e => if decide (key_of k' = key_of k) then Some (now, e) else None
                | OGet _ _ => None
                end
      end
  end.

Lemma last_put_snoc ops o k :
  last_put (ops ++ [o]) k
  = match o with
    | OPut now k' e => if decide (key_of k' = key_of k) then Some (now, e) else last_put ops k
    | OGet _ _ => last_put ops k
    end.
Proof.
  induction ops as [|o' ops IH]; simpl.
  - by destruct o as [|now k' e].
  - rewrite IH. destruct o as [now k'|now k' e]; [done|]. by case_decide.
Qed.

(** What is held came from the newest put of its request. *)
Definition traced (life : Duration) (ops : list cache_op) (m : list held) : Prop :=
  forall x, x ∈ m -> exists now e, last_put ops (hkey x) = Some (now, e) /\
    hentry x = stamped e now /\ hexpires x = now + life.

Lemma traced_incl life ops m m' :
  traced life ops m -> (forall x, x ∈ m' -> x ∈ m) -> traced life ops m'.
Proof. intros T Hi x Hx. by apply T, Hi. Qed.

Lemma spec_remove_in k m x : x ∈ spec_remove k m -> x ∈ m /\ key_of (hkey x) <> key_of k.
Proof. unfold spec_remove. rewrite list_elem_of_filter. tauto. Qed.

Lemma spec_lookup_in m now k x : x ∈ (spec_lookup m now k).2 -> x ∈ m.
Proof.
  unfold spec_lookup. destruct (spec_find m (key_of k)) as [y|] eqn:E; [|done].
  apply spec_find_Some in E as [E _]. destruct (now <? _); simpl.
  - intros [->|Hx]%elem_of_cons; [done|]. by apply spec_remove_in in Hx as [? _].
  - intros Hx. by apply spec_remove_in in Hx as [? _].
Qed.

Lemma cache_run_spec max life ops :
  max < max_int64 ->
  let c := cache_run (NewExact max life) ops in
  exists m, exact_repr c m /\ traced (ttl (NewExact max life)) ops m /\
    maxEntries c = maxEntries (NewExact max life) /\ ttl c = ttl (NewExact max life).
Proof.
  intros Hm. cbv zeta. set (c0 := NewExact max life).
  induction ops as [|o ops IH] using rev_ind.
  { exists []. split_and!; try done; [by apply NewExact_repr|]. intros x Hx.
    by apply not_elem_of_nil in Hx. }
  destruct IH as (m & R & T & E1 & E2).
  unfold cache_run in *. rewrite foldl_app. simpl. set (c := foldl _ _ ops) in *.
  destruct o as [now k|now k e]; cbn [cache_step fst snd].
  - destruct (repr_lookup c m now k R) as (_ & R' & E3 & E4).
    exists (spec_lookup m now k).2. unfold exact_Get.
    assert (T' : traced (ttl c0) (ops ++ [OGet now k]) (spec_lookup m now k).2).
    { intros x Hx. rewrite last_put_snoc. apply T. by apply spec_lookup_in in Hx. }
    destruct (lookup_ c now k) as [[r|] c']; cbn [fst snd] in *; split_and!;
      solve [done|change (maxEntries c' = maxEntries c0); congruence
            |change (ttl c' = ttl c0); congruence].
  - pose proof (repr_insert c m now k e R) as X. destruct (spec_insert _ _ m now k e) as [m' n] eqn:Es.
    destruct X as (R' & _ & E3 & E4). exists m'.
    assert (T' : traced (ttl c0) (ops ++ [OPut now k e]) m').
    { unfold spec_insert in Es. injection Es as <- _. intros x Hx.
      apply elem_of_take in Hx as (i & Hi & _). apply list_elem_of_lookup_2 in Hi.
      rewrite last_put_snoc. apply elem_of_cons in Hi as [->|Hi]; simpl.
      - rewrite decide_True by done. exists now, e. split_and!; try done. by rewrite E2.
      - apply spec_remove_in in Hi as [Hi Hne]. rewrite decide_False by congruence. by apply T. }
    unfold exact_Put. destruct (insert_ c now k e) as [c' n']; cbn [fst snd] in *. split_and!;
      solve [done|change (maxEntries c' = maxEntries c0); congruence
            |change (ttl c' = ttl c0); congruence].
Qed.

(** ** Properties *)

(** (C13) The pointer structure is a bounded list of answers, most recent first:
    on every state that represents a list, a lookup finds, refreshes, drops or
    misses exactly what the list does, a store replaces the answer of its
    request or adds it and evicts exactly the least recently used beyond the
    bound, the events tell which, the length is the list's, and the result
    represents the list's result, its length never above the bound. *)
Theorem exact_refines_list c m now k e :
  exact_repr c m ->
  (let '(r, c', evs) := exact_Get c now k in
   let '(r', m') := spec_lookup m now k in
   r = r' /\ exact_repr c' m' /\
   evs = [match r' with Some _ => EventExactHit | None => EventMiss end]) /\
  (let '(c', evs) := exact_Put c now k (Some e) in
   let '(m', n) := spec_insert (maxEntries c) (ttl c) m now k e in
   exact_repr c' m' /\ evs = repeat EventEvicted n ++ [EventStored]) /\
  exact_Len c = Z.of_nat (length m) /\ exact_Len c <= maxEntries c.
Proof.
  intros R. split_and!.
  - destruct (repr_lookup c m now k R) as (E & R' & _). unfold exact_Get.
    destruct (lookup_ c now k) as [[r|] c'], (spec_lookup m now k) as [r' m'];
      cbn [fst snd] in *; subst r'; done.
  - pose proof (repr_insert c m now k e R) as X.
    destruct (spec_insert (maxEntries c) (ttl c) m now k e) as [m' n].
    destruct X as (R' & En & _). unfold exact_Put.
    destruct (insert_ c now k e) as [c' n']; cbn [fst snd] in *. by subst.
  - destruct R as [[order W] _]. unfold exact_Len. rewrite (wf_size _ _ _ W).
    by rewrite (wf_length _ _ _ W).
  - destruct R as [[order W] Hle]. unfold exact_Len. rewrite (wf_size _ _ _ W).
    by rewrite (wf_length _ _ _ W).
Qed.

(** (C14) A hit is the tenant's own latest answer, in time: whatever gets and
    puts of whatever tenants came before, an answer a lookup returns is the one
    most recently stored for exactly this tenant, model and request, stored
    less than a lifetime ago; so no tenant is ever served another's answer, a
    superseded one, or a stale one. *)
Theorem hit_is_own_latest_answer max life ops now k e :
  max < max_int64 ->
  (cache_step (cache_run (NewExact max life) ops) (OGet now k)).1 = Some e ->
  exists stored e0, last_put ops k = Some (stored, e0) /\ e = stamped e0 stored /\
    now < stored + ttl (NewExact max life).
Proof.
  intros Hm Hget. destruct (cache_run_spec max life ops Hm) as (m & R & T & _ & _).
  destruct (repr_lookup _ m now k R) as (E & _).
  simpl in Hget. unfold exact_Get in Hget.
  assert (Hs : (spec_lookup m now k).1 = Some e).
  { rewrite <- E. destruct (lookup_ _ now k) as [[r|] c']; done. }
  unfold spec_lookup in Hs. destruct (spec_find m (key_of k)) as [x|] eqn:F; [|done].
  apply spec_find_Some in F as [Hx Hk]. apply key_of_inj in Hk.
  destruct (now <? hexpires x) eqn:L; [|done]. simpl in Hs. injection Hs as <-. bool_to_prop.
  destruct (T x Hx) as (stored & e0 & Hp & He & Hexp). rewrite Hk in Hp.
  exists stored, e0. split_and!; try done. by rewrite <- Hexp.
Qed.

(** *** Instances *)

Module ExactExample.
Definition answer (s : string) : Entry := mkEntry s [] zeroUsage f64_zero "openai" "gpt" 0.
Definition k1 : Key := mkKey "acme" "gpt" "h1".
Definition k2 : Key := mkKey "acme" "gpt" "h2".
Definition k3 : Key := mkKey "rival" "gpt" "h1".
(** A full cache of two; reading the older answer makes the other one the victim. *)
Definition ops : list cache_op :=
  [OPut 1 k1 (answer "one"); OPut 2 k2 (answer "two"); OGet 3 k1; OPut 4 k3 (answer "three")].
Definition cache : Exact := cache_run (NewExact 2 Minute) ops.

Example evicts_oldest :
  ((cache_step cache (OGet 5 k1)).1, (cache_step cache (OGet 5 k2)).1,
   (cache_step cache (OGet 5 k3)).1)
  = (Some (stamped (answer "one") 1), None, Some (stamped (answer "three") 4)).
Proof. vm_compute. reflexivity. Qed.

Example expires : (cache_step cache (OGet (1 + Minute) k1)).1 = None.
Proof. vm_compute. reflexivity. Qed.
End ExactExample.

Lemma exact_refines_list_witness :
  exact_Len (NewExact 2 Minute) = 0 /\ exact_Len (NewExact 2 Minute) <= 2.
Proof.
  destruct (exact_refines_list (NewExact 2 Minute) [] 0 ExactExample.k1 (ExactExample.answer "x"))
    as (_ & _ & H).
  - apply NewExact_repr. by vm_compute.
  - exact H.
Defined.

Lemma hit_is_own_latest_answer_witness :
  exists stored e0, last_put ExactExample.ops ExactExample.k1 = Some (stored, e0) /\
    stamped (ExactExample.answer "one") 1 = stamped e0 stored /\ 5 < stored + Minute.
Proof.
  apply (hit_is_own_latest_answer 2 Minute ExactExample.ops 5 ExactExample.k1).
  - by vm_compute.
  - vm_compute. reflexivity.
Defined.
