(* ===== verification/Semantic.v ===== *)
(** * The semantic cache (internal/cache/semantic.go)

    One bounded list of vectors per tenant, searched exhaustively.  A vector
    component is a [float32], promoted exactly to [float64] before any
    arithmetic, so it is a [f64] here.  A write under the lock and a read under
    the read lock are one function each. *)

From Stdlib Require Import ZArith Lia String SpecFloat.
From stdpp Require Import base gmap strings list numbers.
From S2P Require Import Prelude Float64 Exact.

Local Open Scope Z_scope.

Definition DefaultSimilarityThreshold : f64 := f64_ratio 95 100.
Definition DefaultMaxPerTenant : Z := 1024.

Record semanticRecord := mkRecord { vector : list f64; sentry : Entry; storedAt : Time }.

Record semanticStore := mkStore {
  threshold : f64;
  maxPerTenant : Z;
  sttl : Duration;
  dims : Z;
  stenants : gmap string (list semanticRecord)
}.

Definition NewSemantic (thr : f64) (max : Z) (life : Duration) : semanticStore :=
  mkStore (if f64_leb thr f64_zero then DefaultSimilarityThreshold else thr)
    (if max <=? 0 then DefaultMaxPerTenant else max) life 0 ∅.

(** ** Similarity *)

Definition f64_one : f64 := f64_of_Z 1.
Definition f64_minus_one : f64 := f64_of_Z (-1).

(** The loop over both vectors: dot product and squared magnitudes. *)
Fixpoint dot_mags (a b : list f64) (dot magA magB : f64) : f64 * f64 * f64 :=
  match a, b with
  | x :: a, y :: b =>
      dot_mags a b (f64_add dot (f64_mul x y)) (f64_add magA (f64_mul x x))
        (f64_add magB (f64_mul y y))
  | _, _ => (dot, magA, magB)
  end.

Definition cosineSimilarity (a b : list f64) : f64 :=
  if negb (length a =? length b)%nat || (length a =? 0)%nat then f64_zero
  else
    let '(dot, magA, magB) := dot_mags a b f64_zero f64_zero f64_zero in
    if f64_eqb magA f64_zero || f64_eqb magB f64_zero then f64_zero
    else
      let sim := f64_div dot (f64_sqrt (f64_mul magA magB)) in
      if f64_is_nan sim then f64_zero
      else if f64_ltb f64_one sim then f64_one
      else if f64_ltb sim f64_minus_one then f64_minus_one
      else sim.

(** ** Search *)

Definition expired (stored : Time) (life : Duration) (now : Time) : bool :=
  (0 <? life) && (life <=? time_Sub now stored).

(** The loop of [scanTenant]. *)
Fixpoint scan (records : list semanticRecord) (query : list f64) (thr : f64) (life : Duration)
    (now : Time) (best : option (Entry * f64)) : option (Entry * f64) :=
  match records with
  | [] => best
  | r :: records =>
      let best :=
        if expired (storedAt r) life now then best
        else
          let score := cosineSimilarity query (vector r) in
          if f64_ltb score thr then best
          else match best with
               | None => Some (sentry r, score)
               | Some (_, b) => if f64_ltb b score then Some (sentry r, score) else best
               end in
      scan records query thr life now best
  end.

Definition scanTenant (records : list semanticRecord) (query : list f64) (thr : f64)
    (life : Duration) (now : Time) : option (Entry * f64) :=
  scan records query thr life now None.

Definition Nearest (s : semanticStore) (now : Time) (tenant : string) (embedding : list f64)
    : option (Entry * f64) * list Event :=
  if (length embedding =? 0)%nat then (None, [])
  else if Z.of_nat (length embedding) =? dims s then
    match scanTenant (default [] (stenants s !! tenant)) embedding (threshold s) (sttl s) now with
    | None => (None, [])
    | Some hit => (Some hit, [EventSemanticHit])
    end
  else (None, []).

(** ** Storing *)

(** The expired prefix, and how many went. *)
Fixpoint dropExpired (records : list semanticRecord) (life : Duration) (now : Time)
    : list semanticRecord * nat :=
  match records with
  | r :: rest =>
      if expired (storedAt r) life now
      then let '(kept, n) := dropExpired rest life now in (kept, S n)
      else (records, O)
  | [] => ([], O)
  end.

Definition Add (s : semanticStore) (now : Time) (tenant : string) (embedding : list f64)
    (e : option Entry) : semanticStore * list Event :=
  match e with
  | None => (s, [])
  | Some e =>
      if (length embedding =? 0)%nat then (s, [])
      else
        let width := Z.of_nat (length embedding) in
        let s := mkStore (threshold s) (maxPerTenant s) (sttl s)
                   (if dims s =? 0 then width else dims s) (stenants s) in
        if negb (width =? dims s) then (s, [])
        else
          let '(records, removed) := dropExpired (default [] (stenants s !! tenant)) (sttl s) now in
          let records := records ++ [mkRecord embedding e now] in
          let excess := Z.of_nat (length records) - maxPerTenant s in
          let '(records, removed) :=
            if 0 <? excess then (drop (Z.to_nat excess) records, (removed + Z.to_nat excess)%nat)
            else (records, removed) in
          (mkStore (threshold s) (maxPerTenant s) (sttl s) (dims s)
             (<[tenant := records]> (stenants s)), repeat EventEvicted removed)
  end.

(** ** Order of scores *)

Lemma cosine_not_nan a b : f64_is_nan (cosineSimilarity a b) = false.
Proof.
  unfold cosineSimilarity. destruct (_ || _); [done|].
  destruct (dot_mags a b _ _ _) as [[d ma] mb]. destruct (_ || _); [done|].
  set (sim := f64_div _ _). destruct (f64_is_nan sim) eqn:N; [done|].
  by destruct (f64_ltb f64_one sim), (f64_ltb sim f64_minus_one).
Qed.

(** ** The scan *)

Definition candidate (query : list f64) (thr : f64) (life : Duration) (now : Time)
    (r : semanticRecord) : Prop :=
  expired (storedAt r) life now = false /\ f64_ltb (cosineSimilarity query (vector r)) thr = false.

(** [best] is the best of the candidates of [seen]. *)
Definition best_of (query : list f64) (thr : f64) (life : Duration) (now : Time)
    (seen : list semanticRecord) (best : option (Entry * f64)) : Prop :=
  match best with
  | None => forall r, r ∈ seen -> ~ candidate query thr life now r
  | Some (e, score) =>
      (exists r, r ∈ seen /\ candidate query thr life now r /\ sentry r = e /\
         score = cosineSimilarity query (vector r)) /\
      forall r, r ∈ seen -> candidate query thr life now r ->
        f64_ltb score (cosineSimilarity query (vector r)) = false
  end.

Lemma scan_best query thr life now records seen best :
  best_of query thr life now seen best ->
  best_of query thr life now (seen ++ records) (scan records query thr life now best).
Proof.
  revert seen best. induction records as [|r records IH]; intros seen best B; simpl.
  { by rewrite app_nil_r. }
  replace (seen ++ r :: records) with ((seen ++ [r]) ++ records) by by rewrite <- app_assoc.
  apply IH. clear IH. set (score := cosineSimilarity query (vector r)).
  assert (Hn : f64_is_nan score = false) by apply cosine_not_nan.
  destruct (expired (storedAt r) life now) eqn:X.
  - assert (Hr : ~ candidate query thr life now r) by (unfold candidate; rewrite X; naive_solver).
    destruct best as [[e b]|]; simpl in *; [destruct B as [(r0 & H0 & B0) B]; split|];
      try (intros r'; rewrite elem_of_app, list_elem_of_singleton; intros [?| ->]; naive_solver).
    exists r0. split; [set_solver|done].
  - destruct (f64_ltb score thr) eqn:L.
    + assert (Hr : ~ candidate query thr life now r)
        by (unfold candidate; fold score; rewrite L; naive_solver).
      destruct best as [[e b]|]; simpl in *; [destruct B as [(r0 & H0 & B0) B]; split|];
        try (intros r'; rewrite elem_of_app, list_elem_of_singleton; intros [?| ->]; naive_solver).
      exists r0. split; [set_solver|done].
    + assert (Hr : candidate query thr life now r) by (split; done).
      destruct best as [[e b]|]; simpl in B.
      * destruct B as [(r0 & H0 & B0 & B1 & B2) B].
        assert (Hb : f64_is_nan b = false) by (rewrite B2; apply cosine_not_nan).
        destruct (f64_ltb b score) eqn:G; simpl; split.
        -- exists r. split; [set_solver|done].
        -- intros r'. rewrite elem_of_app, list_elem_of_singleton. intros [Hin| ->] Hc.
           ++ apply (f64_not_less_trans _ b); auto using cosine_not_nan.
              by apply f64_less_asym.
           ++ fold score. unfold f64_ltb, SFltb.
              apply not_true_iff_false. fold (SFltb score score). fold (f64_ltb score score).
              by rewrite f64_ltb_irrefl.
        -- exists r0. split; [set_solver|done].
        -- intros r'. rewrite elem_of_app, list_elem_of_singleton. intros [Hin| ->] Hc; [by apply B|].
           done.
      * simpl. split.
        -- exists r. split; [set_solver|done].
        -- intros r'. rewrite elem_of_app, list_elem_of_singleton. intros [Hin| ->] Hc.
           ++ by destruct (B r' Hin).
           ++ fold score. by rewrite f64_ltb_irrefl.
Qed.

(** ** Storing *)

Lemma dropExpired_suffix records life now :
  exists gone, records = gone ++ (dropExpired records life now).1 /\
    length gone = (dropExpired records life now).2 /\
    Forall (fun r => expired (storedAt r) life now = true) gone.
Proof.
  induction records as [|r records IH]; simpl; [by exists []|].
  destruct (expired (storedAt r) life now) eqn:X; [|by exists []].
  destruct IH as (gone & E & L & F). destruct (dropExpired records life now) as [kept n].
  simpl in *. exists (r :: gone). simpl. split_and!; [congruence|congruence|by constructor].
Qed.

Record store_wf (s : semanticStore) : Prop := {
  sw_max : 0 < maxPerTenant s;
  sw_dims : 0 <= dims s;
  sw_tenant : forall t rs, stenants s !! t = Some rs ->
    Z.of_nat (length rs) <= maxPerTenant s /\
    Forall (fun r => Z.of_nat (length (vector r)) = dims s) rs /\ 0 < dims s
}.

(** What [Add] does, in one equation: nothing, or the newest
    [maxPerTenant] of the live records and the new one. *)
Lemma Add_spec s now t v e :
  store_wf s -> v <> [] -> dims s = 0 \/ dims s = Z.of_nat (length v) ->
  let old := default [] (stenants s !! t) in
  let kept := (dropExpired old (sttl s) now).1 in
  let all := kept ++ [mkRecord v e now] in
  exists gone,
    stenants (Add s now t v (Some e)).1 = <[t := drop gone all]> (stenants s) /\
    dims (Add s now t v (Some e)).1 = Z.of_nat (length v) /\
    maxPerTenant (Add s now t v (Some e)).1 = maxPerTenant s /\
    gone = (length all - Z.to_nat (maxPerTenant s))%nat /\
    (Add s now t v (Some e)).2 = repeat EventEvicted (length old + 1 - length (drop gone all)).
Proof.
  intros W Hv Hd old kept all. exists (length all - Z.to_nat (maxPerTenant s))%nat.
  assert (Hlen : (length v =? 0)%nat = false) by (apply Nat.eqb_neq; destruct v; simpl; [congruence|lia]).
  unfold Add. rewrite Hlen. cbn [dims stenants sttl maxPerTenant threshold].
  assert (Hw : (if dims s =? 0 then Z.of_nat (length v) else dims s) = Z.of_nat (length v)).
  { destruct Hd as [->| ->]; [done|]. by destruct (_ =? 0). }
  rewrite Hw, Z.eqb_refl. cbn [negb]. fold old.
  destruct (dropExpired_suffix old (sttl s) now) as (gone & Eo & Lo & _).
  unfold all, kept. destruct (dropExpired old (sttl s) now) as [k n]; cbn [fst snd] in *.
  pose proof (sw_max _ W) as Hm. pose proof (f_equal length Eo) as El. rewrite length_app in El.
  rewrite length_app. simpl length.
  destruct (0 <? _) eqn:X; bool_to_prop; cbn [fst snd].
  - replace (Z.to_nat (Z.of_nat (length k + 1) - maxPerTenant s))
      with (length k + 1 - Z.to_nat (maxPerTenant s))%nat by lia.
    split_and!; try done. f_equal. rewrite length_drop, length_app. simpl. lia.
  - replace (length k + 1 - Z.to_nat (maxPerTenant s))%nat with 0%nat by lia.
    split_and!; try done. f_equal. rewrite drop_0, length_app. simpl. lia.
Qed.

(** ** Properties *)

(** The nearest answer is the best one: a hit is an unexpired answer of
    this very tenant whose similarity is the score reported, is not below the
    threshold, and no other unexpired answer of the tenant above the threshold
    scores higher; a miss on a vector of the store's width means no unexpired
    answer of the tenant reaches the threshold. *)
Theorem nearest_is_best s now t q :
  q <> [] -> Z.of_nat (length q) = dims s ->
  best_of q (threshold s) (sttl s) now (default [] (stenants s !! t)) (Nearest s now t q).1 /\
  ((Nearest s now t q).2 = [EventSemanticHit] <-> (Nearest s now t q).1 <> None).
Proof.
  intros Hq Hd. unfold Nearest, scanTenant.
  replace (length q =? 0)%nat with false by (symmetry; apply Nat.eqb_neq; destruct q; simpl; [congruence|lia]).
  rewrite Hd, Z.eqb_refl.
  pose proof (scan_best q (threshold s) (sttl s) now (default [] (stenants s !! t)) [] None) as B.
  simpl in B. destruct (scan _ q _ _ _ None) as [[e b]|]; simpl.
  - split; [|done]. apply B. intros r Hr. by apply not_elem_of_nil in Hr.
  - split; [|done]. apply B. intros r Hr. by apply not_elem_of_nil in Hr.
Qed.

(** The store stays bounded, uniform and separate: an accepted answer is
    held and is the newest of its tenant, the tenant keeps at most its bound
    and only vectors of one width, what is lost is the oldest and is reported
    once per record, and every other tenant's records are untouched; a vector
    of another width changes nothing. *)
Theorem add_keeps_bound s now t v e :
  store_wf s -> v <> [] ->
  store_wf (Add s now t v (Some e)).1 /\
  (forall u, u <> t -> stenants (Add s now t v (Some e)).1 !! u = stenants s !! u) /\
  (dims s = 0 \/ dims s = Z.of_nat (length v) ->
   exists older, stenants (Add s now t v (Some e)).1 !! t
                 = Some (older ++ [mkRecord v e now]) /\
     (exists lost, default [] (stenants s !! t) = lost ++ older /\
        (Add s now t v (Some e)).2 = repeat EventEvicted (length lost))) /\
  (dims s <> 0 -> dims s <> Z.of_nat (length v) ->
   stenants (Add s now t v (Some e)).1 = stenants s).
Proof.
  intros W Hv. destruct (decide (dims s = 0 \/ dims s = Z.of_nat (length v))) as [Hd|Hd].
  - destruct (Add_spec s now t v e W Hv Hd) as (gone & Et & Edim & Em & Eg & Ev).
    set (old := default [] (stenants s !! t)) in *.
    destruct (dropExpired_suffix old (sttl s) now) as (pre & Eo & Lo & _).
    set (kept := (dropExpired old (sttl s) now).1) in *.
    pose proof (sw_max _ W) as Hmax.
    assert (Hg : (gone <= length kept)%nat) by (rewrite Eg, length_app; simpl; lia).
    assert (Hdrop : drop gone (kept ++ [mkRecord v e now]) = drop gone kept ++ [mkRecord v e now])
      by (rewrite drop_app_le by done; done).
    assert (Hold : forall rs, stenants s !! t = Some rs -> old = rs) by (intros rs E; unfold old; by rewrite E).
    assert (Hwid : Forall (fun r => Z.of_nat (length (vector r)) = Z.of_nat (length v)) old).
    { unfold old. destruct (stenants s !! t) as [rs|] eqn:E; [|constructor].
      destruct (sw_tenant _ W t rs E) as (_ & F & P). destruct Hd as [Hd|<-]; [lia|done]. }
    split_and!.
    + constructor.
      * by rewrite Em.
      * rewrite Edim. lia.
      * intros u rs. rewrite Et, Em, Edim, lookup_insert.
        assert (Hvl : (0 < length v)%nat) by (destruct v; [done|simpl; lia]).
        case_decide as Hu.
        -- intros [= <-]. split_and!; [|rewrite Hdrop|lia].
           ++ rewrite length_drop, Eg, length_app. simpl. lia.
           ++ apply Forall_app. split; [|by repeat constructor]. apply Forall_drop.
              rewrite Eo in Hwid. by apply Forall_app in Hwid as [_ ?].
        -- intros Eu. destruct (sw_tenant _ W u rs Eu) as (L & F & P). split; [done|].
           destruct Hd as [Hd|Hd]; [lia|]. rewrite <- Hd. done.
    + intros u Hu. by rewrite Et, lookup_insert_ne.
    + intros _. exists (drop gone kept). rewrite Et, lookup_insert_eq, Hdrop. split; [done|].
      exists (pre ++ take gone kept). split.
      * by rewrite <- app_assoc, take_drop.
      * rewrite Ev. f_equal. rewrite Hdrop, !length_app, length_drop, length_take.
        pose proof (f_equal length Eo) as El. rewrite length_app in El. simpl. lia.
    + intros H1 H2. exfalso. tauto.
  - assert (Hs : (Add s now t v (Some e)).1 = s /\ dims s <> 0).
    { split; [|tauto]. unfold Add. destruct (length v =? 0)%nat; [done|].
      cbn [dims]. replace (dims s =? 0) with false by (symmetry; apply Z.eqb_neq; tauto).
      replace (Z.of_nat (length v) =? dims s) with false
        by (symmetry; apply Z.eqb_neq; intros E; apply Hd; by right).
      by destruct s. }
    destruct Hs as [Hs Hd0]. rewrite Hs. split_and!; try done; tauto.
Qed.

(** A similarity is always a number between -1 and 1: it is never a NaN,
    whatever the components, and is zero for vectors of different widths, so a
    comparison with the threshold is always meaningful. *)
Theorem similarity_in_range a b :
  f64_is_nan (cosineSimilarity a b) = false /\
  f64_ltb f64_one (cosineSimilarity a b) = false /\
  f64_ltb (cosineSimilarity a b) f64_minus_one = false /\
  (length a <> length b -> cosineSimilarity a b = f64_zero).
Proof.
  split; [apply cosine_not_nan|].
  assert (H0 : f64_ltb f64_one f64_zero = false /\ f64_ltb f64_zero f64_minus_one = false)
    by by vm_compute.
  unfold cosineSimilarity.
  destruct (negb (length a =? length b)%nat || (length a =? 0)%nat) eqn:E.
  { destruct H0. by split_and!. }
  apply orb_false_iff in E as [E _]. apply negb_false_iff, Nat.eqb_eq in E.
  destruct (dot_mags a b _ _ _) as [[d ma] mb]. destruct (_ || _); [destruct H0; by split_and!|].
  set (sim := f64_div _ _). destruct (f64_is_nan sim); [destruct H0; by split_and!|].
  destruct (f64_ltb f64_one sim) eqn:G; [by split_and!; vm_compute|].
  destruct (f64_ltb sim f64_minus_one) eqn:L; [by split_and!; vm_compute|]. done.
Qed.

(** *** Instances *)

Module SemanticExample.
Definition e1 : Entry := ExactExample.answer "one".
Definition v1 : list f64 := [f64_of_Z 1; f64_of_Z 2].
Definition v2 : list f64 := [f64_of_Z 2; f64_of_Z (-1)].
Definition s0 : semanticStore := NewSemantic f64_zero 2 Minute.
Definition s1 : semanticStore := (Add s0 1 "acme" v1 (Some e1)).1.

Example finds_itself : (Nearest s1 2 "acme" v1).1 = Some (e1, f64_one).
Proof. vm_compute. reflexivity. Qed.
Example not_across_tenants : (Nearest s1 2 "rival" v1).1 = None.
Proof. vm_compute. reflexivity. Qed.
Example orthogonal : (Nearest s1 2 "acme" v2).1 = None.
Proof. vm_compute. reflexivity. Qed.
End SemanticExample.

Lemma nearest_is_best_witness :
  (Nearest SemanticExample.s1 2 "acme" SemanticExample.v1).2 = [EventSemanticHit].
Proof.
  apply (nearest_is_best SemanticExample.s1 2 "acme" SemanticExample.v1).
  - discriminate.
  - vm_compute. reflexivity.
  - vm_compute. discriminate.
Defined.

Lemma add_keeps_bound_witness : store_wf SemanticExample.s1.
Proof.
  apply (add_keeps_bound SemanticExample.s0 1 "acme" SemanticExample.v1 SemanticExample.e1).
  - by constructor.
  - discriminate.
Defined.
