(* ===== verification/Lookup.v ===== *)
(** * Caching policy, keys and the two tiers behind one call
      (internal/cache/policy.go, key.go, messages.go, lookup.go)

    [Eligible] judges a request body, [BuildKey] names its question,
    [PromptText] is what the semantic tier compares, and [Get] and [Put] are
    the whole of what the request path sees of caching.  The embedder is
    outside the model: each call is given the vectors it answered, [None]
    for an error. *)

From Stdlib Require Import ZArith Lia String Ascii.
From stdpp Require Import base gmap strings list numbers pretty.
From S2P Require Import Prelude Float64 GoString Providers Json Sha256 Exact Semantic.

Local Open Scope Z_scope.

(** ** Eligibility *)

Inductive IneligibleReason :=
| ReasonEligible | ReasonTemperature | ReasonToolUse | ReasonSeeded | ReasonStreamOptions
| ReasonUnparsable.

Record Eligibility := mkEligibility { Cacheable : bool; Reason : IneligibleReason }.

Definition DefaultMaxTemperature : f64 := f64_zero.

Record requestShape := mkShape {
  Temperature : option f64; TopP : option f64; N_ : option Z; Seed : option Z;
  Tools : string; ToolChoice : string; Functions : string; FunctionCall : string;
  Logprobs : option bool
}.
Definition zeroShape : requestShape := mkShape None None None None "" "" "" "" None.

Definition dec_shape : decoder requestShape := dec_struct
  [("temperature", at_field Temperature (fun v s => mkShape v (TopP s) (N_ s) (Seed s) (Tools s)
      (ToolChoice s) (Functions s) (FunctionCall s) (Logprobs s)) (dec_ptr f64_zero dec_float));
   ("top_p", at_field TopP (fun v s => mkShape (Temperature s) v (N_ s) (Seed s) (Tools s)
      (ToolChoice s) (Functions s) (FunctionCall s) (Logprobs s)) (dec_ptr f64_zero dec_float));
   ("n", at_field N_ (fun v s => mkShape (Temperature s) (TopP s) v (Seed s) (Tools s)
      (ToolChoice s) (Functions s) (FunctionCall s) (Logprobs s)) (dec_ptr 0 dec_int));
   ("seed", at_field Seed (fun v s => mkShape (Temperature s) (TopP s) (N_ s) v (Tools s)
      (ToolChoice s) (Functions s) (FunctionCall s) (Logprobs s)) (dec_ptr 0 dec_int));
   ("tools", at_field Tools (fun v s => mkShape (Temperature s) (TopP s) (N_ s) (Seed s) v
      (ToolChoice s) (Functions s) (FunctionCall s) (Logprobs s)) dec_raw);
   ("tool_choice", at_field ToolChoice (fun v s => mkShape (Temperature s) (TopP s) (N_ s) (Seed s)
      (Tools s) v (Functions s) (FunctionCall s) (Logprobs s)) dec_raw);
   ("functions", at_field Functions (fun v s => mkShape (Temperature s) (TopP s) (N_ s) (Seed s)
      (Tools s) (ToolChoice s) v (FunctionCall s) (Logprobs s)) dec_raw);
   ("function_call", at_field FunctionCall (fun v s => mkShape (Temperature s) (TopP s) (N_ s)
      (Seed s) (Tools s) (ToolChoice s) (Functions s) v (Logprobs s)) dec_raw);
   ("logprobs", at_field Logprobs (fun v s => mkShape (Temperature s) (TopP s) (N_ s) (Seed s)
      (Tools s) (ToolChoice s) (Functions s) (FunctionCall s) v) (dec_ptr false dec_bool))].

Definition hasContent (raw : string) : bool :=
  let trimmed := TrimSpace raw in
  negb (bool_decide (trimmed = "") || bool_decide (trimmed = "null")
        || bool_decide (trimmed = "[]") || bool_decide (trimmed = "{}")).

Definition Eligible (raw : string) (maxTemperature : f64) : Eligibility :=
  match Unmarshal dec_shape raw zeroShape with
  | None => mkEligibility false ReasonUnparsable
  | Some shape =>
      if hasContent (Tools shape) || hasContent (ToolChoice shape)
         || hasContent (Functions shape) || hasContent (FunctionCall shape)
      then mkEligibility false ReasonToolUse
      else match Seed shape with
      | Some _ => mkEligibility false ReasonSeeded
      | None =>
          if default false (Logprobs shape) then mkEligibility false ReasonStreamOptions
          else if (match N_ shape with Some n => 1 <? n | None => false end)
          then mkEligibility false ReasonStreamOptions
          else match Temperature shape with
          | None => mkEligibility false ReasonTemperature
          | Some t => if f64_ltb maxTemperature t then mkEligibility false ReasonTemperature
                      else mkEligibility true ReasonEligible
          end
      end
  end.

(** ** Keys *)

Definition hashScheme : string := "penstock/cache/exact/v1".
Definition unhashedFields : list string := ["stream"; "stream_options"; "user"; "metadata"].

Inductive key_error := ErrDecode | ErrTrailingData | ErrNotJSONObject.

(** The fields that are the question. *)
Definition pruned (fields : list (string * json)) : list (string * json) :=
  fold_right obj_delete fields unhashedFields.

Definition canonicalize (raw : string) : string + key_error :=
  match decode_first raw with
  | None => inr ErrDecode
  | Some (body, rest) =>
      if negb (bool_decide (skip_ws rest = "")) then inr ErrTrailingData
      else match go_any body with
      | JObj fields => inl (marshal (JObj (pruned fields)))
      | _ => inr ErrNotJSONObject
      end
  end.

Definition preimage (model canonical : string) : string :=
  hashScheme +:+ Itoa (Z.of_nat (String.length model))
  +:+ String (ascii_of_nat 0) (model +:+ canonical).

Definition BuildKey (tenant model raw : string) : Key + key_error :=
  match canonicalize raw with
  | inr e => inr e
  | inl canonical => inl (mkKey tenant model (EncodeToString (Sum256 (preimage model canonical))))
  end.

(** ** Prompt text *)

Record wire_message := mkWireMessage { MRole : string; MContent : string }.
Definition zeroMessage : wire_message := mkWireMessage "" "".

Definition dec_message : decoder wire_message := dec_struct
  [("role", at_field MRole (fun v m => mkWireMessage v (MContent m)) dec_string);
   ("content", at_field MContent (fun v m => mkWireMessage (MRole m) v) dec_raw)].

Definition dec_conversation : decoder (slice wire_message) := dec_struct
  [("messages", at_field id (fun v _ => v) (dec_slice zeroMessage dec_message))].

Record message := mkMessage { role : string; text : string }.

Definition contentText (raw : string) : string :=
  if bool_decide (raw = "") then ""
  else match Unmarshal dec_string raw "" with
  | Some s => s
  | None => match Unmarshal (dec_slice zeroPart dec_part) raw nil_slice with
            | Some parts => join_text (slice_list parts)
            | None => ""
            end
  end.

Definition decodeMessages (raw : string) : option (list message) :=
  match Unmarshal dec_conversation raw nil_slice with
  | None => None
  | Some body =>
      match slice_list body with
      | [] => None
      | ms => Some ((fun m => mkMessage (MRole m) (contentText (MContent m))) <$> ms)
      end
  end.

Definition message_line (m : message) : string := role m +:+ String ":" (text m).

(** The separator is written when the builder already holds something. *)
Fixpoint write_lines (acc : string) (ms : list message) : string :=
  match ms with
  | [] => acc
  | m :: ms =>
      write_lines (acc +:+ (if bool_decide (acc = "") then "" else String (ascii_of_nat 10) "")
                   +:+ message_line m) ms
  end.

Definition PromptText (raw : string) : string :=
  match decodeMessages raw with None => "" | Some ms => write_lines "" ms end.

(** ** The two tiers *)

(** The embedder answers one list of vectors per call, or fails. *)
Abbreviation embedding_reply := (option (list (list f64))) (only parsing).

Record Lookup := mkLookup {
  exact : option Exact;
  semantic : option semanticStore;
  has_embedder : bool;
  maxTemp : f64
}.

(** [Enabled]: a nil receiver is a cache that never hits and never stores. *)
Definition Enabled (l : option Lookup) : option (Lookup * Exact) :=
  match l with
  | Some l => match exact l with Some c => Some (l, c) | None => None end
  | None => None
  end.

Record Result := mkResult {
  REntry : option Entry;
  RSemantic : bool;
  RSimilarity : f64;
  RKey : Key;
  REligible : bool
}.
Definition zeroKey : Key := mkKey "" "" "".
Definition zeroResult : Result := mkResult None false f64_zero zeroKey false.

Definition with_exact (l : Lookup) (c : Exact) : Lookup :=
  mkLookup (Some c) (semantic l) (has_embedder l) (maxTemp l).
Definition with_semantic (l : Lookup) (s : semanticStore) : Lookup :=
  mkLookup (exact l) (Some s) (has_embedder l) (maxTemp l).

(** The semantic tier and the vector of the prompt, where there are both. *)
Definition embedded (l : Lookup) (reply : embedding_reply) (raw : string)
    : option (semanticStore * list f64) * list Event :=
  match semantic l with
  | Some s =>
      if negb (has_embedder l) then (None, [])
      else if bool_decide (PromptText raw = "") then (None, [])
      else match reply with
      | Some (v :: _) => (Some (s, v), [])
      | _ => (None, [EventEmbedFailed])
      end
  | None => (None, [])
  end.

Definition nearest (l : Lookup) (now : Time) (tenant raw : string) (reply : embedding_reply)
    : option (Entry * f64) * list Event :=
  match embedded l reply raw with
  | (None, evs) => (None, evs)
  | (Some (s, v), evs) => let '(hit, evs') := Nearest s now tenant v in (hit, evs ++ evs')
  end.

Definition Get (l : option Lookup) (now : Time) (tenant model raw : string)
    (reply : embedding_reply) : Result * option Lookup * list Event :=
  match Enabled l with
  | None => (zeroResult, l, [])
  | Some (l', c) =>
      if negb (Cacheable (Eligible raw (maxTemp l'))) then (zeroResult, l, [EventIneligible])
      else match BuildKey tenant model raw with
      | inr _ => (zeroResult, l, [EventIneligible])
      | inl key =>
          let '(hit, c, evs) := exact_Get c now key in
          let l' := with_exact l' c in
          match hit with
          | Some e => (mkResult (Some e) false f64_zero key true, Some l', evs)
          | None =>
              match nearest l' now tenant raw reply with
              | (Some (e, sim), evs') => (mkResult (Some e) true sim key true, Some l', evs ++ evs')
              | (None, evs') => (mkResult None false f64_zero key true, Some l', evs ++ evs')
              end
          end
      end
  end.

Definition Put (l : option Lookup) (now : Time) (res : Result) (entry : option Entry)
    (raw : string) (reply : embedding_reply) : option Lookup * list Event :=
  match Enabled l with
  | None => (l, [])
  | Some (l', c) =>
      match entry with
      | None => (l, [])
      | Some e =>
          if negb (REligible res) then (l, [])
          else
            let '(c, evs) := exact_Put c now (RKey res) (Some e) in
            let l' := with_exact l' c in
            match embedded l' reply raw with
            | (None, evs') => (Some l', evs ++ evs')
            | (Some (s, v), evs') =>
                let '(s, evs'') := Add s now (KTenant (RKey res)) v (Some e) in
                (Some (with_semantic l' s), evs ++ evs' ++ evs'')
            end
      end
  end.

(** ** Reading a body *)

(** The top-level fields of a body that is one JSON object. *)
Definition body_fields (raw : string) : option (list (string * json)) :=
  match parse raw with
  | Some j => match go_any j with JObj fields => Some fields | _ => None end
  | None => None
  end.

Lemma parse_decode_first raw :
  parse raw = match decode_first raw with
              | Some (j, rest) => if bool_decide (skip_ws rest = "") then Some j else None
              | None => None
              end.
Proof. done. Qed.

Lemma body_fields_wf raw f :
  body_fields raw = Some f -> wf_json maxNestingDepth (JObj f).
Proof.
  unfold body_fields. destruct (parse raw) as [j|] eqn:E; [|done]. apply parse_wf in E.
  destruct (go_any j); intros [= <-]. done.
Qed.

Lemma wf_obj_sorted d f : wf_json d (JObj f) -> sorted_keys f.
Proof. by inversion_clear 1. Qed.

Lemma pruned_sub f : forall p, p ∈ pruned f -> p ∈ f.
Proof. intros p Hp. unfold pruned in Hp. simpl in Hp. by repeat apply obj_delete_sub in Hp. Qed.

Lemma pruned_sorted f : sorted_keys f -> sorted_keys (pruned f).
Proof. intros H. unfold pruned. simpl. by repeat apply obj_delete_sorted. Qed.

Lemma pruned_wf d f : wf_json d (JObj f) -> wf_json d (JObj (pruned f)).
Proof.
  inversion_clear 1 as [| | | | |d' ? Hs Hf]. constructor; [by apply pruned_sorted|].
  rewrite list.Forall_forall in Hf |- *. intros p Hp. by apply Hf, pruned_sub.
Qed.

Lemma obj_get_pruned k f :
  sorted_keys f -> obj_get k (pruned f) = if decide (k ∈ unhashedFields) then None else obj_get k f.
Proof.
  intros Hs. unfold pruned. simpl fold_right.
  rewrite !obj_get_delete by (repeat apply obj_delete_sorted; done).
  unfold unhashedFields.
  repeat match goal with |- context [decide (k = ?x)] => destruct (decide (k = x)) as [->|] end;
    [by rewrite decide_True by set_solver..|]. rewrite decide_False; [done|]. set_solver.
Qed.

Lemma canonicalize_fields raw f :
  body_fields raw = Some f -> canonicalize raw = inl (marshal (JObj (pruned f))).
Proof.
  unfold body_fields, canonicalize. rewrite parse_decode_first.
  destruct (decode_first raw) as [[j rest]|]; [|done].
  case_bool_decide; [|done]. cbn [negb]. destruct (go_any j); intros [= <-]. done.
Qed.

Lemma canonicalize_inl raw c :
  canonicalize raw = inl c -> exists f, body_fields raw = Some f.
Proof.
  unfold body_fields, canonicalize. rewrite parse_decode_first.
  destruct (decode_first raw) as [[j rest]|]; [|done].
  case_bool_decide; [|done]. cbn [negb]. destruct (go_any j); try done. eauto.
Qed.

(** A decimal holds no NUL, so the length prefix ends where it should. *)
Lemma Itoa_no_nul n : contains_byte (Itoa n) (ascii_of_nat 0) = false.
Proof.
  assert (D : forall m s, contains_byte s (ascii_of_nat 0) = false ->
            contains_byte (pretty_N_go m s) (ascii_of_nat 0) = false).
  { intros m. induction (N.lt_wf_0 m) as [m _ IH]. intros s Hs.
    destruct (decide (0 < m)%N) as [Hm|Hm].
    - rewrite pretty_N_go_step by done. apply IH; [apply N.div_lt; lia|]. simpl. rewrite Hs.
      pose proof (N.mod_lt m 10 ltac:(lia)) as L. apply orb_false_iff. split; [|done].
      unfold pretty_N_char. destruct (m `mod` 10)%N as [|p]; [done|].
      do 4 (destruct p as [p|p|]; try done).
    - assert (m = 0%N) as -> by lia. by rewrite pretty_N_go_0. }
  assert (P : forall m : N, contains_byte (pretty m) (ascii_of_nat 0) = false).
  { intros m. unfold pretty, pretty_N. destruct (decide (m = 0%N)); [done|]. by apply D. }
  destruct n as [|p|p]; [done|apply (P (Npos p))|].
  change (contains_byte (String "-" (pretty (Npos p))) (ascii_of_nat 0) = false).
  simpl. by rewrite P.
Qed.

Lemma app_same_length a b x y :
  String.length a = String.length b -> a +:+ x = b +:+ y -> a = b /\ x = y.
Proof.
  revert b. induction a as [|c a IH]; intros [|d b] L; try done.
  rewrite !str_app_cons. intros [= -> E]. simpl in L. destruct (IH b ltac:(lia) E) as [-> ->]. done.
Qed.

Lemma Itoa_inj a b : Itoa a = Itoa b -> a = b.
Proof. apply (inj pretty). Qed.

Lemma preimage_inj m1 c1 m2 c2 :
  preimage m1 c1 = preimage m2 c2 -> m1 = m2 /\ c1 = c2.
Proof.
  unfold preimage. intros E%str_app_inv_head.
  apply app_inj_byte in E as [E1%Itoa_inj E2]; [|apply Itoa_no_nul..].
  apply app_same_length in E2; [done|lia].
Qed.

(** ** Eligible bodies *)

Lemma unmarshal_shape_object raw shape t :
  Unmarshal dec_shape raw zeroShape = Some shape -> Temperature shape = Some t ->
  exists f, body_fields raw = Some f.
Proof.
  unfold Unmarshal, dec_shape, dec_struct, tree_of, body_fields.
  destruct (parse raw) as [j|] eqn:E; [|done]. cbn [default from_option].
  destruct j; cbn [go_any]; try done; [|eauto].
  intros [= <-]. done.
Qed.

Lemma eligible_shape raw thr :
  Cacheable (Eligible raw thr) = true ->
  exists shape t, Unmarshal dec_shape raw zeroShape = Some shape /\
    Temperature shape = Some t /\ f64_ltb thr t = false /\ Seed shape = None /\
    hasContent (Tools shape) = false /\ hasContent (ToolChoice shape) = false /\
    hasContent (Functions shape) = false /\ hasContent (FunctionCall shape) = false /\
    default false (Logprobs shape) = false /\ (forall n, N_ shape = Some n -> n <= 1).
Proof.
  unfold Eligible. destruct (Unmarshal _ _ _) as [shape|]; [|done].
  destruct (_ || _ || _ || _) eqn:X1; [done|]. bool_to_prop.
  destruct (Seed shape) eqn:X2; [done|]. destruct (default false (Logprobs shape)) eqn:X3; [done|].
  destruct (N_ shape) as [n|] eqn:X4.
  - destruct (1 <? n) eqn:X5; [done|]. bool_to_prop.
    destruct (Temperature shape) as [t|] eqn:X6; [|done]. destruct (f64_ltb thr t) eqn:X7; [done|].
    intros _. exists shape, t. split_and!; try done; intros n0 Hn; by simplify_eq.
  - destruct (Temperature shape) as [t|] eqn:X6; [|done]. destruct (f64_ltb thr t) eqn:X7; [done|].
    intros _. exists shape, t. split_and!; try done; intros n0 Hn; by simplify_eq.
Qed.

(** A body the policy accepts always has a key: it is one JSON object,
    with a temperature in it, so the key builder's error paths are unreachable
    behind [Eligible]; and the key carries the tenant and the routed model
    unchanged. *)
Theorem eligible_has_key raw thr tenant model :
  Cacheable (Eligible raw thr) = true ->
  exists f k, body_fields raw = Some f /\ BuildKey tenant model raw = inl k /\
    KTenant k = tenant /\ KModel k = model.
Proof.
  intros H. destruct (eligible_shape _ _ H) as (shape & t & Hu & Ht & _).
  destruct (unmarshal_shape_object _ _ _ Hu Ht) as [f Hf].
  exists f. unfold BuildKey. rewrite (canonicalize_fields _ _ Hf). eexists. split_and!; done.
Qed.

(** (C15) What is hashed is the question and nothing else: the preimages of two
    bodies agree exactly when the routed models are the same and the two
    bodies agree on every field but the four that choose a transport or a
    caller, whatever the order of the keys, the white space, the escapes or a
    repeated field; and the preimage of any object body exists. *)
Theorem key_is_the_question m1 raw1 f1 m2 raw2 f2 :
  body_fields raw1 = Some f1 -> body_fields raw2 = Some f2 ->
  exists c1 c2, canonicalize raw1 = inl c1 /\ canonicalize raw2 = inl c2 /\
    (preimage m1 c1 = preimage m2 c2 <->
     m1 = m2 /\ forall k, k ∉ unhashedFields -> obj_get k f1 = obj_get k f2).
Proof.
  intros H1 H2. pose proof (body_fields_wf _ _ H1) as W1. pose proof (body_fields_wf _ _ H2) as W2.
  pose proof (wf_obj_sorted _ _ W1) as S1. pose proof (wf_obj_sorted _ _ W2) as S2.
  eexists _, _. split_and!; [by apply canonicalize_fields|by apply canonicalize_fields|]. split.
  - intros [-> E]%preimage_inj. split; [done|]. intros k Hk.
    apply marshal_inj in E; [|by apply pruned_wf..]. injection E as E.
    pose proof (obj_get_pruned k f1 S1) as G1. pose proof (obj_get_pruned k f2 S2) as G2.
    rewrite decide_False in G1, G2 by done. by rewrite <- G1, <- G2, E.
  - intros [-> E]. f_equal. f_equal. f_equal. apply sorted_keys_ext; [by apply pruned_sorted..|].
    intros k. rewrite !obj_get_pruned by done. destruct (decide (k ∈ unhashedFields)); [done|].
    by apply E.
Qed.

(** Canonical form is a fixed point: the key of a body in canonical form
    is its own canonical form, so a body re-sent as the gateway hashed it asks
    the same question. *)
Theorem canonicalize_idempotent raw c : canonicalize raw = inl c -> canonicalize c = inl c.
Proof.
  intros H. destruct (canonicalize_inl _ _ H) as [f Hf]. pose proof (body_fields_wf _ _ Hf) as W.
  rewrite (canonicalize_fields _ _ Hf) in H.
  assert (c = marshal (JObj (pruned f))) as -> by congruence.
  pose proof (pruned_wf _ _ W) as Wp.
  assert (body_fields (marshal (JObj (pruned f))) = Some (pruned f)) as B.
  { unfold body_fields. rewrite (parse_marshal _ Wp). by rewrite (go_any_wf _ _ Wp). }
  rewrite (canonicalize_fields _ _ B). f_equal. f_equal. f_equal.
  pose proof (wf_obj_sorted _ _ W) as S.
  apply sorted_keys_ext; [by do 2 apply pruned_sorted|by apply pruned_sorted|].
  intros k. rewrite !obj_get_pruned by (try apply pruned_sorted; done). by destruct (decide _).
Qed.

(** ** The two calls *)

Lemma Get_miss l now tenant model raw reply res l1 evs :
  Get l now tenant model raw reply = (res, l1, evs) -> REntry res = None -> REligible res = true ->
  exists l' c k, Enabled l = Some (l', c) /\ BuildKey tenant model raw = inl k /\ RKey res = k /\
    Cacheable (Eligible raw (maxTemp l')) = true /\
    l1 = Some (with_exact l' (lookup_ c now k).2).
Proof.
  unfold Get. destruct (Enabled l) as [[l' c]|]; [|by intros [= <- <- <-]].
  destruct (Cacheable _) eqn:Hc; [|by intros [= <- <- <-]]. cbn [negb].
  destruct (BuildKey tenant model raw) as [k|]; [|by intros [= <- <- <-]].
  unfold exact_Get. destruct (lookup_ c now k) as [[e|] c'] eqn:Hl; [by intros [= <- <- <-]|].
  destruct (nearest _ now tenant raw reply) as [[[e sim]|] evs'].
  - by intros [= <- <- <-].
  - intros [= <- <- <-] _ _. exists l', c, k. split_and!; try done. by rewrite Hl.
Qed.

Lemma spec_find_insert max life m now k e :
  0 < max -> spec_find (spec_insert max life m now k e).1 (key_of k)
             = Some (mkHeld k (stamped e now) (now + life)).
Proof.
  intros Hm. unfold spec_insert. destruct (Z.to_nat max) as [|n] eqn:E; [lia|].
  cbn [fst take]. unfold spec_find. simpl. by rewrite decide_True.
Qed.

Lemma Put_enabled l now res e raw reply l' c :
  Enabled l = Some (l', c) -> REligible res = true ->
  exists l2, (Put l now res (Some e) raw reply).1 = Some l2 /\
    exact l2 = Some (insert_ c now (RKey res) e).1 /\ maxTemp l2 = maxTemp l'.
Proof.
  intros HE HR. unfold Put. rewrite HE, HR. cbn [negb]. unfold exact_Put.
  destruct (insert_ c now (RKey res) e) as [c' n]. cbn [fst].
  destruct (embedded _ reply raw) as [[[s v]|] evs'].
  - destruct (Add s now _ v (Some e)) as [s' evs'']. by eexists.
  - by eexists.
Qed.

(** A stored answer is found again: after an eligible miss, [Put] makes
    the next [Get] of the same question, by the same tenant for the same
    routed model and inside the lifetime, an exact hit on exactly the stored
    entry, whether or not the body is spelled the same and whatever the
    embedder does. *)
Theorem put_then_get l m now tenant model raw reply res l1 evs e now2 reply2 raw' now3 reply3 :
  (forall l' c, Enabled l = Some (l', c) -> exact_repr c m /\ 0 < maxEntries c) ->
  Get l now tenant model raw reply = (res, l1, evs) ->
  REntry res = None -> REligible res = true ->
  canonicalize raw' = canonicalize raw ->
  (forall l' c, Enabled l = Some (l', c) -> Cacheable (Eligible raw' (maxTemp l')) = true /\
     now3 < now2 + ttl c) ->
  let '(hit, _, _) := Get (Put l1 now2 res (Some e) raw reply2).1 now3 tenant model raw' reply3 in
  REntry hit = Some (stamped e now2) /\ RSemantic hit = false /\ REligible hit = true.
Proof.
  intros HR HG HN HE Hc Hlive.
  destruct (Get_miss _ _ _ _ _ _ _ _ _ HG HN HE) as (l' & c & k & En & Hk & HRk & _ & ->).
  destruct (HR _ _ En) as [Rep Hmax]. destruct (Hlive _ _ En) as [Hel Ht].
  destruct (repr_lookup c m now k Rep) as (_ & Rep1 & M1 & T1).
  set (c1 := (lookup_ c now k).2) in *. set (m1 := (spec_lookup m now k).2) in *.
  destruct (Put_enabled (Some (with_exact l' c1)) now2 res e raw reply2 (with_exact l' c1) c1
              eq_refl HE) as (l2 & -> & X2 & T2). rewrite HRk in X2.
  pose proof (repr_insert c1 m1 now2 k e Rep1) as I.
  pose proof (spec_find_insert (maxEntries c1) (ttl c1) m1 now2 k e ltac:(lia)) as F.
  destruct (spec_insert _ _ m1 now2 k e) as [m2 n2]. destruct I as (Rep2 & _ & _ & _).
  destruct (repr_lookup _ m2 now3 k Rep2) as (L & _).
  unfold Get, Enabled. rewrite X2, T2. cbn [maxTemp with_exact]. rewrite Hel. cbn [negb].
  assert (BuildKey tenant model raw' = inl k) as -> by (unfold BuildKey in *; by rewrite Hc).
  unfold exact_Get. unfold spec_lookup in L. cbn [fst] in F. rewrite F in L. cbn [hexpires] in L.
  replace (now3 <? now2 + ttl c1) with true in L by (symmetry; apply Z.ltb_lt; lia).
  destruct (lookup_ _ now3 k) as [r c3]. cbn [fst hentry] in L. by subst r.
Qed.

(** An answer is never stored for a body the policy refused, and a refusal
    leaves both tiers as they were. *)
Theorem refused_is_untouched l now tenant model raw reply now2 e raw2 reply2 :
  (forall l' c, Enabled l = Some (l', c) -> Cacheable (Eligible raw (maxTemp l')) = false) ->
  let '(res, l1, _) := Get l now tenant model raw reply in
  REntry res = None /\ l1 = l /\ (Put l1 now2 res e raw2 reply2).1 = l.
Proof.
  intros H. unfold Get. destruct (Enabled l) as [[l' c]|] eqn:En.
  - rewrite (H _ _ eq_refl). cbn [negb]. split_and!; try done. unfold Put. rewrite En.
    by destruct e.
  - split_and!; try done. unfold Put. by rewrite En.
Qed.

(** ** Instances *)

Module LookupExample.
Definition ask : string := quoted
  "{'model':'m','temperature':0,'messages':[{'role':'user','content':'hi'}],'user':'u1'}".
Definition ask_again : string := quoted
  "{ 'user' : 'u2', 'messages':[{'content':'h\u0069','role':'user'}], 'temperature':0, 'stream':true,
     'model':'m' }".
Definition hot : string := quoted "{'model':'m','temperature':0.9,'messages':[]}".

Definition fields_of (raw : string) : list (string * json) := default [] (body_fields raw).
Definition answer : Entry := mkEntry "yes" [] zeroUsage f64_zero "openai" "m" 0.
Definition cold : option Lookup := Some (mkLookup (Some (NewExact 8 Minute)) None false f64_zero).
Definition miss := Get cold 10 "acme" "m" ask None.

Lemma eligible_has_key_witness :
  exists f k, body_fields ask = Some f /\ BuildKey "acme" "m" ask = inl k /\
    KTenant k = "acme"%string /\ KModel k = "m"%string.
Proof. apply (eligible_has_key ask f64_zero). vm_compute. reflexivity. Defined.

Lemma key_is_the_question_witness :
  exists c1 c2, canonicalize ask = inl c1 /\ canonicalize ask_again = inl c2 /\
    (preimage "m" c1 = preimage "m" c2 <->
     "m"%string = "m"%string /\
     forall k, k ∉ unhashedFields -> obj_get k (fields_of ask) = obj_get k (fields_of ask_again)).
Proof.
  apply (key_is_the_question "m" ask (fields_of ask) "m" ask_again (fields_of ask_again));
    vm_compute; reflexivity.
Defined.

Lemma canonicalize_idempotent_witness :
  exists c, canonicalize ask_again = inl c /\ canonicalize c = inl c /\ c <> ask_again.
Proof.
  eexists. assert (E : canonicalize ask_again = inl (marshal (JObj (pruned (fields_of ask_again)))))
    by (vm_compute; reflexivity).
  split_and!; [exact E|exact (canonicalize_idempotent _ _ E)|vm_compute; discriminate].
Defined.

Lemma put_then_get_witness :
  let '(hit, _, _) := Get (Put miss.1.2 20 miss.1.1 (Some answer) ask None).1 30 "acme" "m"
                        ask_again None in
  REntry hit = Some (stamped answer 20) /\ RSemantic hit = false /\ REligible hit = true.
Proof.
  apply (put_then_get cold [] 10 "acme" "m" ask None miss.1.1 miss.1.2 miss.2 answer 20 None
           ask_again 30 None).
  - intros l' c E. injection E as <- <-. split; [by apply NewExact_repr|reflexivity].
  - vm_compute; reflexivity.
  - vm_compute; reflexivity.
  - vm_compute; reflexivity.
  - vm_compute; reflexivity.
  - intros l' c E. injection E as <- <-. split; [vm_compute; reflexivity|reflexivity].
Defined.

Lemma refused_is_untouched_witness :
  let '(res, l1, _) := Get cold 10 "acme" "m" hot None in
  REntry res = None /\ l1 = cold /\ (Put l1 20 res (Some answer) hot None).1 = cold.
Proof.
  apply (refused_is_untouched cold 10 "acme" "m" hot None 20 (Some answer) hot None).
  intros l' c E. injection E as <- <-. vm_compute. reflexivity.
Defined.

(** The semantic tier is keyed by the tenant and the prompt alone, so a hit can
    be an answer another model gave: here the same conversation is stored for
    model [m] and served to a request routed to model [n]. *)
Definition both : option Lookup :=
  Some (mkLookup (Some (NewExact 8 Minute)) (Some (NewSemantic f64_zero 8 Minute)) true f64_zero).
Definition vec : option (list (list f64)) := Some [[f64_of_Z 1; f64_of_Z 2]].

Theorem semantic_hit_crosses_models :
  let '(res, l1, _) := Get both 10 "acme" "m" ask vec in
  let '(l2, _) := Put l1 20 res (Some answer) ask vec in
  let '(hit, _, _) := Get l2 30 "acme" "n" ask vec in
  RSemantic hit = true /\ (EntryModel <$> REntry hit) = Some "m"%string.
Proof. vm_compute. split; reflexivity. Qed.

(** Field names match up to case and the last one wins, so a body that names a
    high [temperature] and then a zero [Temperature] is accepted, although a
    provider that reads names exactly samples at the high one. *)
Definition disguised : string := quoted "{'model':'m','temperature':0.9,'Temperature':0}".

Theorem folded_field_is_accepted :
  Eligible disguised DefaultMaxTemperature = mkEligibility true ReasonEligible /\
  obj_get "temperature" (fields_of disguised) = Some (JNum "0.9").
Proof. vm_compute. split; reflexivity. Qed.
End LookupExample.
