(* ===== verification/Regex.v ===== *)
(** * Regular expressions (regexp)

    The package of the standard library as far as the gateway uses it: a pattern is
    searched for leftmost first, and its alternatives and repetitions are tried in
    the order they are written, as Perl does.  A text is a list of bytes; a place in
    it is the byte before and the text from there on.  [matches] says what a pattern
    may match, [all] lists the matches in the order of preference, and [exec], the
    backtracking matcher, finds the first of them. *)

From Stdlib Require Import Lia String Ascii.
From stdpp Require Import base list.
From S2P Require Import Prelude.

Local Open Scope nat_scope.

Definition place : Type := option ascii * list ascii.

Inductive regex :=
| Eps
| Cls (f : ascii -> bool)      (* one byte of a class *)
| Cat (r s : regex)
| Alt (r s : regex)            (* the left one is preferred *)
| Star (r : regex)             (* greedy *)
| Bound.                       (* a word boundary, of ASCII words *)

(** ** Places *)

Definition between (lo hi : nat) (c : ascii) : bool := (lo <=? nat_of_ascii c) && (nat_of_ascii c <=? hi).
Definition digit : ascii -> bool := between 48 57.
Definition letter (c : ascii) : bool := between 65 90 c || between 97 122 c.
Definition word (c : ascii) : bool := digit c || letter c || (c =? "_")%char.

Definition word_at (o : option ascii) : bool := match o with Some c => word c | None => false end.
Definition at_boundary (p : place) : bool := xorb (word_at p.1) (word_at (hd_error p.2)).

(** The byte before what follows [u]. *)
Definition before (o : option ascii) (u : list ascii) : option ascii := match last u with Some c => Some c | None => o end.

Lemma before_app o u v : before o (u ++ v) = before (before o u) v.
Proof. unfold before. rewrite last_app. by destruct (last v). Qed.

(** ** What a pattern matches *)

Inductive matches : regex -> place -> place -> Prop :=
| M_eps p : matches Eps p p
| M_cls f o c t : f c = true -> matches (Cls f) (o, c :: t) (Some c, t)
| M_cat r s p q e : matches r p q -> matches s q e -> matches (Cat r s) p e
| M_left r s p q : matches r p q -> matches (Alt r s) p q
| M_right r s p q : matches s p q -> matches (Alt r s) p q
| M_done r p : matches (Star r) p p
| M_more r p q e : matches r p q -> length q.2 < length p.2 -> matches (Star r) q e -> matches (Star r) p e
| M_bound p : at_boundary p = true -> matches Bound p p.

Create HintDb regex.
#[export] Hint Constructors matches : regex.

(** ** The matches in the order of preference *)

Fixpoint star_all (step : place -> list place) (fuel : nat) (p : place) : list place :=
  match fuel with
  | O => [p]
  | S fuel => (step p ≫= fun q => if length q.2 <? length p.2 then star_all step fuel q else []) ++ [p]
  end.

Fixpoint all (r : regex) (p : place) : list place :=
  match r with
  | Eps => [p]
  | Cls f => match p.2 with c :: t => if f c then [(Some c, t)] else [] | [] => [] end
  | Cat r s => all r p ≫= all s
  | Alt r s => all r p ++ all s p
  | Star r => star_all (all r) (length p.2) p
  | Bound => if at_boundary p then [p] else []
  end.

Lemma star_all_spec r (IH : forall p q, q ∈ all r p <-> matches r p q) fuel p q :
  length p.2 <= fuel -> q ∈ star_all (all r) fuel p <-> matches (Star r) p q.
Proof.
  revert p. induction fuel as [|fuel IHf]; intros p Hf; cbn [star_all].
  - rewrite list_elem_of_singleton. split; [intros ->; constructor|].
    intros M. inversion M; subst; [done|lia].
  - rewrite elem_of_app, list_elem_of_singleton, list_elem_of_bind. split.
    + intros [(x & Hx & M%IH)| ->]; [|constructor]. destruct (Nat.ltb_spec (length x.2) (length p.2)); [|by apply not_elem_of_nil in Hx].
      apply IHf in Hx; [|lia]. by eapply M_more.
    + intros M. inversion M as [| | | | |r' p' Er Ep| r' p' x e M1 L M2 |]; subst; [by right|].
      left. exists x. split; [|by apply IH]. destruct (Nat.ltb_spec (length x.2) (length p.2)); [|lia]. by apply IHf; [lia|].
Qed.

Lemma all_spec r p q : q ∈ all r p <-> matches r p q.
Proof.
  revert p q. induction r as [|f|r IHr s IHs|r IHr s IHs|r IHr|]; intros [o t] q; cbn [all].
  - rewrite list_elem_of_singleton. split; [intros ->; constructor|by inversion 1].
  - destruct t as [|c t]; cbn [snd]; [split; [by intros ?%not_elem_of_nil|by inversion 1]|].
    destruct (f c) eqn:F; [|split; [by intros ?%not_elem_of_nil|inversion 1; congruence]].
    rewrite list_elem_of_singleton. split; [intros ->; by constructor|by inversion 1].
  - rewrite list_elem_of_bind. split.
    + intros (x & S%IHs & R%IHr). by eapply M_cat.
    + inversion 1 as [| |r' s' p' x e R S| | | | |]; subst. exists x. by rewrite IHs, IHr.
  - rewrite elem_of_app, IHr, IHs. split; [intros [|]; auto with regex|inversion 1; auto].
  - by apply star_all_spec.
  - destruct (at_boundary (o, t)) eqn:B.
    + rewrite list_elem_of_singleton. split; [intros ->; by constructor|by inversion 1].
    + split; [by intros ?%not_elem_of_nil|inversion 1; congruence].
Qed.

(** ** The matcher *)

Fixpoint star (step : place -> (place -> option place) -> option place) (fuel : nat) (p : place)
    (k : place -> option place) : option place :=
  match fuel with
  | O => k p
  | S fuel =>
      match step p (fun q => if length q.2 <? length p.2 then star step fuel q k else None) with
      | Some e => Some e
      | None => k p
      end
  end.

(** The first way to match [r] from [p] that [k] accepts the rest of. *)
Fixpoint exec (r : regex) (p : place) (k : place -> option place) : option place :=
  match r with
  | Eps => k p
  | Cls f => match p.2 with c :: t => if f c then k (Some c, t) else None | [] => None end
  | Cat r s => exec r p (fun q => exec s q k)
  | Alt r s => match exec r p k with Some e => Some e | None => exec s p k end
  | Star r => star (exec r) (length p.2) p k
  | Bound => if at_boundary p then k p else None
  end.

Fixpoint first {A B} (k : A -> option B) (l : list A) : option B :=
  match l with
  | [] => None
  | x :: l => match k x with Some e => Some e | None => first k l end
  end.

Lemma first_app {A B} (k : A -> option B) l m :
  first k (l ++ m) = match first k l with Some e => Some e | None => first k m end.
Proof. induction l as [|x l IH]; [done|]. cbn [first app]. by destruct (k x). Qed.
Lemma first_bind {A B C} (k : B -> option C) (f : A -> list B) l : first k (l ≫= f) = first (fun x => first k (f x)) l.
Proof. induction l as [|x l IH]; [done|]. cbn [first mbind list_bind]. rewrite first_app. by rewrite <- IH. Qed.
Lemma first_ext {A B} (k k' : A -> option B) l : (forall x, k x = k' x) -> first k l = first k' l.
Proof. intros E. induction l as [|x l IH]; [done|]. cbn [first]. by rewrite E, IH. Qed.
Lemma first_in {A B} (k : A -> option B) l e : first k l = Some e -> exists x, x ∈ l /\ k x = Some e.
Proof.
  induction l as [|x l IH]; [done|]. cbn [first]. destruct (k x) eqn:K.
  - intros [= ->]. exists x. split; [left|done].
  - intros (y & ? & ?)%IH. exists y. split; [by right|done].
Qed.
Lemma first_none {A B} (k : A -> option B) l x : first k l = None -> x ∈ l -> k x = None.
Proof.
  induction l as [|y l IH]; [by intros _ ?%not_elem_of_nil|]. cbn [first]. destruct (k y) eqn:K; [done|].
  intros N [->|?]%elem_of_cons; auto.
Qed.

Lemma exec_all r p k : exec r p k = first k (all r p).
Proof.
  revert p k. induction r as [|f|r IHr s IHs|r IHr s IHs|r IHr|]; intros p k; cbn [exec all].
  - cbn. by destruct (k p).
  - destruct p.2 as [|c t]; [done|]. destruct (f c); [|done]. cbn. by destruct (k _).
  - rewrite IHr, first_bind. apply first_ext. intros q. apply IHs.
  - by rewrite first_app, IHr, IHs.
  - generalize (length p.2). intros fuel. revert p k. induction fuel as [|fuel IHf]; intros p k; cbn [star star_all first].
    { by destruct (k p). }
    rewrite IHr, first_app, first_bind. cbn [first].
    rewrite (first_ext (fun q => if length q.2 <? length p.2 then star (exec r) fuel q k else None) (fun q => first k (if length q.2 <? length p.2 then star_all (all r) fuel q else []))).
    { match goal with |- match ?x with _ => _ end = _ => destruct x end; [done|]. by destruct (k p). }
    intros q. destruct (length q.2 <? length p.2); [apply IHf|done].
  - destruct (at_boundary p); [|done]. cbn. by destruct (k p).
Qed.

(** The preferred match at a place. *)
Definition match_at (r : regex) (p : place) : option place := exec r p Some.

(** The matcher finds a match exactly when there is one: the preferred one. *)
Lemma match_at_hd r p : match_at r p = hd_error (all r p).
Proof. unfold match_at. rewrite exec_all. by destruct (all r p). Qed.
Lemma match_at_matches r p q : match_at r p = Some q -> matches r p q.
Proof. rewrite match_at_hd, <- all_spec. destruct (all r p); [done|]. intros [= ->]. left. Qed.
Lemma no_match_at r p : match_at r p = None <-> forall q, ~ matches r p q.
Proof.
  rewrite match_at_hd. destruct (all r p) as [|q l] eqn:E.
  - split; [|done]. intros _ q M%all_spec. rewrite E in M. by apply not_elem_of_nil in M.
  - split; [done|]. intros N. destruct (N q). apply all_spec. rewrite E. left.
Qed.

(** ** Matches and the text *)

Lemma matches_suffix r p q : matches r p q -> exists u, p.2 = u ++ q.2 /\ q.1 = before p.1 u.
Proof.
  induction 1 as [p|f o c t F|r s p q e _ (u & E & B) _ (v & E' & B')|r s p q _ IH|r s p q _ IH|r p|r p q e _ (u & E & B) _ _ (v & E' & B')|p].
  - by exists [].
  - by exists [c].
  - exists (u ++ v). rewrite E, E', app_assoc, before_app, B', B. done.
  - exact IH.
  - exact IH.
  - by exists [].
  - exists (u ++ v). rewrite E, E', app_assoc, before_app, B', B. done.
  - by exists [].
Qed.

(** Can the pattern match the empty text? *)
Fixpoint nullable (r : regex) : bool :=
  match r with
  | Eps | Star _ | Bound => true
  | Cls _ => false
  | Cat r s => nullable r && nullable s
  | Alt r s => nullable r || nullable s
  end.

Lemma matches_shorter r p q : matches r p q -> length q.2 <= length p.2.
Proof. intros (u & -> & _)%matches_suffix. rewrite length_app. lia. Qed.

Lemma matches_consumes r p q : matches r p q -> nullable r = false -> length q.2 < length p.2.
Proof.
  induction 1 as [| |r s p q e M1 IH1 M2 IH2|r s p q M IH|r s p q M IH| | |]; cbn; intros N; try done.
  - lia.
  - apply matches_shorter in M1, M2. destruct (nullable r); [specialize (IH2 N)|specialize (IH1 eq_refl)]; lia.
  - apply IH. by apply orb_false_iff in N as [-> _].
  - apply IH. by apply orb_false_iff in N as [_ ->].
Qed.

(** The bytes of a match are of the classes of the pattern. *)
Fixpoint bytes_of (r : regex) (c : ascii) : bool :=
  match r with
  | Eps | Bound => false
  | Cls f => f c
  | Cat r s | Alt r s => bytes_of r c || bytes_of s c
  | Star r => bytes_of r c
  end.

Lemma matches_bytes r p q : matches r p q -> exists u, p.2 = u ++ q.2 /\ Forall (fun c => bytes_of r c = true) u.
Proof.
  induction 1 as [p|f o c t F|r s p q e _ (u & E & B) _ (v & E' & B')|r s p q _ (u & E & B)|r s p q _ (u & E & B)|r p|r p q e _ (u & E & B) _ _ (v & E' & B')|p];
    cbn [bytes_of].
  - by exists [].
  - exists [c]. by repeat constructor.
  - exists (u ++ v). rewrite E, E', app_assoc. split; [done|]. apply Forall_app.
    split; eapply Forall_impl; try done; cbn; intros c ->; by rewrite ?orb_true_r.
  - exists u. split; [done|]. eapply Forall_impl; [done|]. cbn. by intros c ->.
  - exists u. split; [done|]. eapply Forall_impl; [done|]. cbn. intros c ->. by rewrite orb_true_r.
  - by exists [].
  - exists (u ++ v). rewrite E, E', app_assoc. split; [done|]. by apply Forall_app.
  - by exists [].
Qed.

(** A greedy repetition at the end goes on as long as it can. *)
Lemma star_greedy r p q : nullable r = false -> match_at (Star r) p = Some q -> all r q = [].
Proof.
  intros N. unfold match_at. rewrite exec_all. cbn [all]. generalize (Nat.le_refl (length p.2)).
  generalize (length p.2) at 2 3. intros fuel. revert p. induction fuel as [|fuel IH]; intros p Hf; cbn [star_all first].
  - intros [= <-]. destruct (all r p) as [|x l] eqn:E; [done|]. exfalso.
    pose proof (matches_consumes r p x ltac:(apply all_spec; rewrite E; left) N). lia.
  - rewrite first_app, first_bind. match goal with |- match ?x with _ => _ end = _ -> _ => destruct x as [e|] eqn:F end.
    + intros [= ->]. apply first_in in F as (x & Hx & F). destruct (Nat.ltb_spec (length x.2) (length p.2)); [|done].
      apply (IH x); [lia|exact F].
    + intros [= <-]. destruct (all r p) as [|x l] eqn:E; [done|]. exfalso.
      pose proof (first_none _ _ x F ltac:(left)) as K. cbn beta in K.
      pose proof (matches_consumes r p x ltac:(apply all_spec; rewrite E; left) N) as L.
      rewrite (proj2 (Nat.ltb_lt _ _) L) in K. destruct fuel; cbn [star_all] in K; [done|].
      rewrite first_app in K. cbn [first] in K. by destruct (first Some (_ ≫= _)).
Qed.

Lemma cat_match r s p q : match_at (Cat r s) p = Some q -> exists x, matches r p x /\ match_at s x = Some q.
Proof. unfold match_at. cbn [exec]. rewrite exec_all. intros (x & H%all_spec & E)%first_in. by exists x. Qed.
Lemma alt_match r s p q : match_at (Alt r s) p = Some q -> match_at r p = Some q \/ match_at s p = Some q.
Proof. unfold match_at. cbn [exec]. destruct (exec r p Some); auto. Qed.

(** ** Patterns as they are written *)

Fixpoint power (n : nat) (r : regex) : regex := match n with O => Eps | S n => Cat r (power n r) end.
(** [r*], [r+], [r{n,}]. *)
Definition at_least (n : nat) (r : regex) : regex := Cat (power n r) (Star r).
Definition option_ (r : regex) : regex := Alt r Eps.
(** [r{0,n}]: r(r(...)?)?. *)
Fixpoint at_most (n : nat) (r : regex) : regex := match n with O => Eps | S n => option_ (Cat r (at_most n r)) end.
(** [r{n,m}]. *)
Definition times (n m : nat) (r : regex) : regex := Cat (power n r) (at_most (m - n) r).

Fixpoint lit (s : string) : regex :=
  match s with EmptyString => Eps | String c s => Cat (Cls (Ascii.eqb c)) (lit s) end.

(** ** ReplaceAllString

    Of a pattern that never matches the empty text. *)

Inductive piece := Kept (c : ascii) | Gone (u : list ascii).

Definition source (l : list piece) : list ascii := l ≫= fun x => match x with Kept c => [c] | Gone u => u end.
Definition told (new : string) (l : list piece) : list ascii :=
  l ≫= fun x => match x with Kept c => [c] | Gone _ => list_ascii_of_string new end.

Section Replace.
Context (r : regex) (consuming : nullable r = false).

Fixpoint scan (fuel : nat) (p : place) : list piece :=
  match fuel, p.2 with
  | S fuel, c :: t =>
      match match_at r p with
      | Some q => Gone (take (length p.2 - length q.2) p.2) :: scan fuel q
      | None => Kept c :: scan fuel (Some c, t)
      end
  | _, _ => []
  end.

Definition pieces (s : string) : list piece :=
  let t := list_ascii_of_string s in scan (length t) (None, t).

Definition ReplaceAllString (s new : string) : string := string_of_list_ascii (told new (pieces s)).

(** What is kept begins no match, and what is gone is the preferred match. *)
Inductive scanned : option ascii -> list piece -> Prop :=
| Sc_nil o : scanned o []
| Sc_kept o c l : (forall q, ~ matches r (o, c :: source l) q) -> scanned (Some c) l -> scanned o (Kept c :: l)
| Sc_gone o u l : u <> [] -> match_at r (o, u ++ source l) = Some (before o u, source l) -> scanned (before o u) l ->
    scanned o (Gone u :: l).

Lemma scan_spec fuel p : length p.2 <= fuel -> source (scan fuel p) = p.2 /\ scanned p.1 (scan fuel p).
Proof.
  revert p. induction fuel as [|fuel IH]; intros [o t] Hf; cbn [fst snd] in *.
  { destruct t; [split; [done|constructor]|cbn in Hf; lia]. }
  destruct t as [|c t]; [split; [done|constructor]|]. cbn [scan snd]. destruct (match_at r _) as [[b s]|] eqn:M.
  - pose proof (match_at_matches _ _ _ M) as H. pose proof (matches_consumes _ _ _ H consuming) as L.
    destruct (matches_suffix _ _ _ H) as (u & E & B). cbn [fst snd] in *.
    assert (Eu : take (length (c :: t) - length s) (c :: t) = u).
    { rewrite E, length_app. replace (length u + length s - length s) with (length u) by lia. by rewrite take_app_length. }
    rewrite Eu. destruct (IH (b, s)) as [Es Sc]; [cbn [snd]; cbn in L, Hf; lia|]. cbn [fst snd] in *. subst b. split.
    + unfold source in *. cbn [mbind list_bind]. by rewrite Es.
    + constructor; [intros ->; cbn in E; subst s; lia| |exact Sc]. rewrite Es, <- E. exact M.
  - destruct (IH (Some c, t)) as [Es Sc]; [cbn in *; lia|]. cbn [fst snd] in *. split.
    + unfold source in *. cbn [mbind list_bind]. by rewrite Es.
    + constructor; [|exact Sc]. rewrite Es. by apply no_match_at.
Qed.

Lemma pieces_spec s : source (pieces s) = list_ascii_of_string s /\ scanned None (pieces s).
Proof. unfold pieces. apply scan_spec. done. Qed.

Lemma source_app l m : source (l ++ m) = source l ++ source m.
Proof. apply bind_app. Qed.
Lemma told_app new l m : told new (l ++ m) = told new l ++ told new m.
Proof. apply bind_app. Qed.

Lemma scanned_drop o l m : scanned o (l ++ m) -> scanned (before o (source l)) m.
Proof.
  revert o. induction l as [|x l IH]; intros o H; [exact H|]. inversion H as [|o' c l' N S|o' u l' N M S]; subst; cbn [source mbind list_bind].
  - change (before o ([c] ++ source l)) with (before o ([c] ++ source l)). rewrite before_app. by apply IH.
  - rewrite before_app. by apply IH.
Qed.

(** Where a byte of the text went. *)
Lemma source_split l v c t : source l = v ++ c :: t ->
  (exists l1 l2, l = l1 ++ Kept c :: l2 /\ source l1 = v /\ source l2 = t) \/
  (exists l1 u w l2, l = l1 ++ Gone (u ++ c :: w) :: l2 /\ v = source l1 ++ u /\ t = w ++ source l2).
Proof.
  revert v. induction l as [|x l IH]; intros v E; [by destruct v|].
  destruct x as [d|g]; cbn [source mbind list_bind] in E.
  - destruct v as [|a v]; cbn in E; injection E as -> E.
    + left. by exists [], l.
    + destruct (IH v E) as [(l1 & l2 & -> & E1 & E2)|(l1 & u & w & l2 & -> & -> & E2)].
      * left. exists (Kept a :: l1), l2. split; [done|]. split; [|done]. cbn [source mbind list_bind]. cbn. by f_equal.
      * right. by exists (Kept a :: l1), u, w, l2.
  - destruct (app_eq_inv _ _ _ _ E) as [(k & -> & E')|(k & -> & E')].
    + destruct k as [|a k]; cbn in E'.
      * destruct (IH [] (eq_sym E')) as [(l1 & l2 & -> & E1 & E2)|(l1 & u & w & l2 & -> & E1 & E2)].
        -- left. exists (Gone (v ++ []) :: l1), l2. split; [done|]. split; [|done]. cbn [source mbind list_bind].
           unfold source in E1. rewrite E1. by rewrite !app_nil_r.
        -- right. exists (Gone (v ++ []) :: l1), u, w, l2. split; [done|]. split; [|done].
           cbn [source mbind list_bind]. unfold source in E1. rewrite <- app_assoc, <- E1. by rewrite !app_nil_r.
      * injection E' as <- ->. right. by exists [], v, k, l.
    + destruct (IH k E') as [(l1 & l2 & -> & E1 & E2)|(l1 & u & w & l2 & -> & -> & E2)].
      * left. exists (Gone g :: l1), l2. split; [done|]. split; [|done]. cbn [source mbind list_bind]. unfold source in E1. by rewrite E1.
      * right. exists (Gone g :: l1), u, w, l2. split; [done|]. split; [|done]. cbn [source mbind list_bind]. by rewrite app_assoc.
Qed.
End Replace.
