(* ===== verification/Wire.v ===== *)
(** * The client's side of the wire (internal/httperr/httperr.go,
      internal/ingress/errors.go, accounting.go, metrics.go, server.go)

    What the gateway answers with: the error envelope, the mapping of provider
    failures and of budget denials to statuses, the status the access log
    sees, and the labels of the metrics.  A response is the list of its body
    writes; [wire_bytes] is what they put on the connection.  What is told of an
    upstream's own text is [Redact]'s. *)

From Stdlib Require Import ZArith Lia String Ascii.
From stdpp Require Import base gmap strings list numbers.
From S2P Require Import Prelude Float64 GoString Providers Json Sse Money Budget Exact Regex Redact.

Local Open Scope Z_scope.

(** ** The envelope *)

Inductive errType := TypeInvalidRequest | TypeRateLimit | TypeAPI.

Definition errType_text (t : errType) : string :=
  match t with
  | TypeInvalidRequest => "invalid_request_error"
  | TypeRateLimit => "rate_limit_error"
  | TypeAPI => "api_error"
  end.

(** Gateway-authored wording, the sanitized text of the upstream, the denial's own sentence,
    or the one that names a model the gateway does not serve. *)
Inductive message_ :=
| Authored (s : string)
| Relayed (sanitized : string)
| OfDenial (d : Denial)
| UnknownModel (model : string).

Record envelope := mkEnvelope { Message : message_; Type_ : errType; Code : string }.

Inductive write :=
| WError (e : envelope)        (* the JSON envelope, alone *)
| WJSON (text : string)        (* a JSON body *)
| WFrame (data : string)       (* one SSE frame *)
| WErrorFrame (e : envelope)   (* the envelope inside an SSE frame *)
| WKeepalive
| WDone.

Record response := mkResponse {
  rstatus : option Z;
  rheaders : list (string * string);
  rwrites : list write
}.
Definition no_response : response := mkResponse None [] [].

(** [WriteHeader]: the first one counts, for the wire and for the log. *)
Definition WriteHeader (code : Z) (w : response) : response :=
  mkResponse (match rstatus w with None => Some code | s => s end) (rheaders w) (rwrites w).
Definition set_header (k v : string) (w : response) : response :=
  mkResponse (rstatus w) (rheaders w ++ [(k, v)]) (rwrites w).
(** [Write]: without an explicit status, the first write makes it 200. *)
Definition Write (x : write) (w : response) : response :=
  mkResponse (match rstatus w with None => Some 200 | s => s end) (rheaders w) (rwrites w ++ [x]).

(** [statusWriter.Status]. *)
Definition Status (w : response) : Z := default 200 (rstatus w).

Definition ContentTypeJSON : string := "application/json".

Definition WriteError (status : Z) (msg : message_) (t : errType) (code : string) (w : response)
    : response :=
  Write (WError (mkEnvelope msg t code))
    (WriteHeader status (set_header "Content-Type" ContentTypeJSON w)).

(** ** Provider failures *)

Definition StatusClientClosedRequest : Z := 499.

Definition classToWire (c : ErrorClass) : Z * errType * string :=
  match c with
  | ErrClassAuth => (502, TypeAPI, "upstream_auth_failed"%string)
  | ErrClassPaymentRequired => (402, TypeAPI, "upstream_payment_required"%string)
  | ErrClassRateLimited => (429, TypeRateLimit, "rate_limited"%string)
  | ErrClassInvalidRequest => (400, TypeInvalidRequest, "invalid_request"%string)
  | ErrClassModelNotFound => (404, TypeInvalidRequest, "model_not_found"%string)
  | ErrClassUpstream => (502, TypeAPI, "upstream_unavailable"%string)
  | ErrClassTimeout => (504, TypeAPI, "timeout"%string)
  | ErrClassCanceled => (StatusClientClosedRequest, TypeAPI, "canceled"%string)
  | _ => (500, TypeAPI, "internal"%string)
  end.

Definition classMessage (c : ErrorClass) : string :=
  match c with
  | ErrClassAuth => "upstream auth failed"
  | ErrClassPaymentRequired => "the upstream account requires payment or an activated quota"
  | ErrClassRateLimited => "upstream rate limit reached"
  | ErrClassInvalidRequest => "upstream rejected the request"
  | ErrClassModelNotFound => "the requested model is not available upstream"
  | ErrClassUpstream => "upstream is unavailable"
  | ErrClassTimeout => "upstream timed out"
  | ErrClassCanceled => "request canceled"
  | _ => "internal error"
  end.

(** [errors.As(err, &pe)]: class and message of the first provider error. *)
Fixpoint errors_As (e : goerror) : option (ErrorClass * string) :=
  match e with
  | ErrProvider _ c _ m _ => Some (c, m)
  | ErrWrap _ c => errors_As c
  | _ => None
  end.

Definition writeUpstreamError (err : goerror) (w : response) : response :=
  match errors_As err with
  | None =>
      if errors_Is err CtxDeadlineExceeded
      then WriteError 504 (Authored "upstream timed out") TypeAPI "timeout" w
      else if errors_Is err CtxCanceled
      then WriteError StatusClientClosedRequest (Authored "request canceled") TypeAPI "canceled" w
      else WriteError 500 (Authored "internal error") TypeAPI "internal" w
  | Some (c, m) =>
      let '(status, t, code) := classToWire c in
      let msg := if bool_decide (c = ErrClassInvalidRequest) && negb (bool_decide (m = ""%string))
                 then Relayed (sanitizeUpstreamMessage m) else Authored (classMessage c) in
      WriteError status msg t code w
  end.

(** ** Denials *)

Definition denialToWire (r : DenyReason) : Z * errType * string :=
  match r with
  | DenyRequestRate => (429, TypeRateLimit, "tenant_request_rate_limited"%string)
  | DenyTokenRate => (429, TypeRateLimit, "tenant_token_rate_limited"%string)
  | DenyDailyBudget => (402, TypeAPI, "daily_budget_exhausted"%string)
  | DenyMonthlyBudget => (402, TypeAPI, "monthly_budget_exhausted"%string)
  | DenyStoreDegraded => (503, TypeAPI, "accounting_unavailable"%string)
  | DenyUnknownTenant => (500, TypeAPI, "tenant_not_configured"%string)
  end.

(** [d.Seconds()]: whole seconds plus the rest over a billion, in float64. *)
Definition duration_Seconds (d : Duration) : f64 :=
  f64_add (f64_of_Z (Z.quot d Second)) (f64_div (f64_of_Z (Z.rem d Second)) (f64_of_Z Second)).

(** [int(d.Seconds()+1)]. *)
Definition retryAfterSeconds (d : Duration) : Z :=
  f64_to_int64 (f64_add (duration_Seconds d) (f64_of_Z 1)).

(** ** Metrics *)

Inductive metric :=
| MTTFT (provider : string)
| MTokens (provider : string) (prompt completion : Z)
| MCost (tenant provider model : string) (usd : f64)
| MDenial (tenant : string) (r : DenyReason)
| MRequest (path provider code : string) (stream : bool)
| MCache (evs : list Event).

Definition writeDenial (d : Denial) (w : response) : response :=
  let w := if 0 <? RetryAfter d
           then set_header "Retry-After" (Itoa (retryAfterSeconds (RetryAfter d))) w else w in
  let '(status, t, code) := denialToWire (Reason d) in
  WriteError status (OfDenial d) t code w.

Definition NormalizePath (path : string) : string :=
  if bool_decide (path ∈ ["/v1/chat/completions"; "/v1/models"; "/healthz"]%string)
  then path else "other".

(** ** Attribution *)

Definition answeringProvider (routeLabel answered : string) : string :=
  if bool_decide (answered = ""%string) then routeLabel else answered.
Definition billedModel (routeModel upstreamModel : string) : string :=
  if bool_decide (upstreamModel = ""%string) then routeModel else upstreamModel.

(** ** Bytes *)

Definition envelope_json (text : message_ -> string) (e : envelope) : string :=
  let field k v := quote k +:+ String ":" (quote v) in
  let msg := match Message e with Authored s | Relayed s => s | m => text m end in
  "{" +:+ quote "error" +:+ ":{" +:+ field "message"%string msg +:+ ","
  +:+ field "type"%string (errType_text (Type_ e)) +:+ "," +:+ field "code"%string (Code e) +:+ "}}".

(** [text] renders the messages whose sentence is not modelled. *)
Definition wire_bytes (text : message_ -> string) (x : write) : list ascii :=
  match x with
  | WError e => list_ascii_of_string (envelope_json text e) ++ [LF]
  | WJSON s => list_ascii_of_string s
  | WFrame d => sseFrame (list_ascii_of_string d)
  | WErrorFrame e => sseFrame (list_ascii_of_string (envelope_json text e))
  | WKeepalive => sseKeepaliveFrame
  | WDone => sseDoneFrame
  end.
