(* ===== verification/Auth.v ===== *)
(** * Admission to the gateway (internal/ingress/auth.go, limits.go)

    Who a request is from and whether there is room for it.  A key set holds
    the digests of the configured keys with the tenant that owns each; the
    limiter is a buffered channel, here the number of slots taken. *)

From Stdlib Require Import ZArith Lia String Ascii.
From stdpp Require Import base gmap strings list numbers relations.
From S2P Require Import Prelude Float64 GoString Sha256 Providers Wire.

Local Open Scope Z_scope.

(** ** Keys *)

Definition bearerPrefix : string := "Bearer ".
Definition AnonymousTenant : string := "".

(** Digest and owner, in the order the keys were added. *)
Record keySet := mkKeySet { digests : list (list Z); owners : list string }.

Definition emptyKeys : keySet := mkKeySet [] [].

Definition add_key (k : keySet) (key tenant : string) : keySet :=
  if bool_decide (key = ""%string) then k
  else mkKeySet (digests k ++ [Sum256 key]) (owners k ++ [tenant]).

Definition newKeySet (keys : list string) : keySet :=
  fold_left (fun k key => add_key k key AnonymousTenant) keys emptyKeys.

(** [WithTenantKeys]: the map in the order Go happened to walk it. *)
Definition WithTenantKeys (k : keySet) (byTenant : list (string * list string)) : keySet :=
  fold_left (fun k p => fold_left (fun k key => add_key k key p.1) p.2 k) byTenant k.

Definition keys_empty (k : keySet) : bool := (length (digests k) =? 0)%nat.

(** Every candidate is compared; the last match stands. *)
Fixpoint match_at (got : list Z) (ds : list (list Z)) (i : nat) (matchedAt : option nat)
    : option nat :=
  match ds with
  | [] => matchedAt
  | d :: ds => match_at got ds (S i) (if bool_decide (got = d) then Some i else matchedAt)
  end.

Definition key_lookup (k : keySet) (presented : string) : string * bool :=
  match match_at (Sum256 presented) (digests k) 0 None with
  | Some i => (default ""%string (owners k !! i), true)
  | None => (AnonymousTenant, false)
  end.

(** [strings.EqualFold] on the seven bytes of the prefix, all ASCII letters
    without other case foldings. *)
Fixpoint lower_string (s : string) : string :=
  match s with "" => "" | String c t => String (lower_ascii c) (lower_string t) end.

Definition bearerToken (header : string) : option string :=
  if (String.length header <=? String.length bearerPrefix)%nat
     || negb (String.eqb (lower_string (Json.take_bytes 7 header)) (lower_string bearerPrefix))
  then None
  else Some (TrimSpace (Json.drop_bytes 7 header)).

Definition healthPath : string := "/healthz".

(** What [withAuth] does with a request: hand it on under an identity, or
    refuse it. *)
Inductive auth_result := Admit (tenant : string) | Reject (w : response).

Definition rejectUnauthorized (w : response) : response :=
  WriteError 401 (Authored "a valid client API key is required") TypeInvalidRequest
    "invalid_api_key" (set_header "WWW-Authenticate" "Bearer" w).

Definition withAuth (k : keySet) (path header : string) (w : response) : auth_result :=
  if keys_empty k || bool_decide (path = healthPath) then Admit AnonymousTenant
  else match bearerToken header with
  | None => Reject (rejectUnauthorized w)
  | Some key =>
      match key_lookup k key with
      | (tenant, true) => Admit tenant
      | (_, false) => Reject (rejectUnauthorized w)
      end
  end.

(** ** The limiter *)

(** No slots at all means no limit. *)
Record inflight := mkInflight { slots : option nat; taken : nat }.

Definition newInflight (limit : Z) : inflight :=
  mkInflight (if limit <=? 0 then None else Some (Z.to_nat limit)) 0.

Definition retryAfterSaturated : Z := 1.

(** Entering [withLimit]: the request runs, or is shed at once. *)
Definition limit_enter (l : inflight) (w : response) : inflight + response :=
  match slots l with
  | None => inl l
  | Some n =>
      if (taken l <? n)%nat then inl (mkInflight (slots l) (S (taken l)))
      else inr (WriteError 503 (Authored "gateway is at capacity, retry shortly") TypeAPI
                  "gateway_saturated"
                  (set_header "Retry-After" (Itoa retryAfterSaturated) w))
  end.

(** The deferred release. *)
Definition limit_leave (l : inflight) : inflight :=
  match slots l with None => l | Some _ => mkInflight (slots l) (pred (taken l)) end.

(** Requests in flight: each entered and has not left. *)
Record gate := mkGate { limiter : inflight; running : nat }.

Inductive gate_step : gate -> gate -> Prop :=
| gate_in g l : limit_enter (limiter g) no_response = inl l ->
    gate_step g (mkGate l (S (running g)))
| gate_shed g w : limit_enter (limiter g) no_response = inr w -> gate_step g g
| gate_out g : (0 < running g)%nat ->
    gate_step g (mkGate (limit_leave (limiter g)) (pred (running g))).

#[local] Opaque Sum256.

(** ** Facts *)

Lemma match_at_spec got ds i acc j :
  match_at got ds i acc = Some j ->
  (exists k, j = (i + k)%nat /\ ds !! k = Some got /\
     forall k', (k < k')%nat -> ds !! k' <> Some got) \/
  (acc = Some j /\ forall k', ds !! k' <> Some got).
Proof.
  revert i acc. induction ds as [|d ds IH]; intros i acc E; simpl in E; [right; split; done|].
  destruct (IH _ _ E) as [(k & -> & Hk & Hl)|[Ha Hn]].
  - left. exists (S k). split_and!; [lia|done|]. intros [|k'] Hk'; [lia|]. simpl. apply Hl. lia.
  - case_bool_decide as B.
    + injection Ha as <-. left. exists O. split_and!; [lia|by rewrite B|].
      intros [|k'] Hk'; [lia|]. simpl. apply Hn.
    + right. split; [done|]. intros [|k']; simpl; [congruence|apply Hn].
Qed.

Lemma match_at_none got ds i : match_at got ds i None = None -> forall k, ds !! k <> Some got.
Proof.
  assert (G : forall acc, match_at got ds i acc = None -> acc = None /\ forall k, ds !! k <> Some got).
  { revert i. induction ds as [|d ds IH]; intros i acc E; simpl in E; [done|].
    destruct (IH _ _ E) as [Ha Hn]. case_bool_decide as B; [done|]. split; [done|].
    intros [|k]; simpl; [congruence|apply Hn]. }
  intros E. by apply G in E as [_ ?].
Qed.

Definition keys_wf (k : keySet) : Prop := length (digests k) = length (owners k).

Lemma add_key_wf k key t : keys_wf k -> keys_wf (add_key k key t).
Proof. unfold keys_wf, add_key. case_bool_decide; [done|]. simpl. rewrite !length_app. simpl. lia. Qed.

(** The keys a set was built from, empty ones dropped. *)
Definition configured (l : list (string * string)) : keySet :=
  fold_left (fun k p => add_key k p.1 p.2) l emptyKeys.

Lemma configured_digests l :
  digests (configured l) = Sum256 <$> (fst <$> base.filter (fun p => p.1 <> ""%string) l) /\
  owners (configured l) = snd <$> base.filter (fun p => p.1 <> ""%string) l.
Proof.
  induction l as [|p l IH] using rev_ind; [done|]. unfold configured in *.
  rewrite fold_left_app, filter_app. simpl. unfold add_key. case_bool_decide as B.
  - rewrite filter_cons, decide_False by tauto. rewrite filter_nil, app_nil_r. exact IH.
  - rewrite filter_cons, decide_True by done. rewrite filter_nil, !fmap_app. simpl.
    destruct IH as [E1 E2]. split; f_equal; [exact E1|exact E2].
Qed.

(** A key set answers for an owner when every entry with the digest is its own, *)
Lemma key_lookup_owned l presented t :
  (presented, t) ∈ l -> presented <> ""%string ->
  (forall p, p ∈ l -> p.1 <> ""%string -> Sum256 p.1 = Sum256 presented -> p.2 = t) ->
  key_lookup (configured l) presented = (t, true).
Proof.
  intros Hin Hne U. destruct (configured_digests l) as [ED EO]. unfold key_lookup. rewrite ED, EO.
  destruct (match_at _ _ 0 None) as [j|] eqn:M.
  - apply match_at_spec in M as [(i & -> & Hi & _)|[? _]]; [|done]. simpl in *.
    rewrite !list_lookup_fmap in Hi. rewrite list_lookup_fmap.
    destruct (base.filter _ l !! i) as [[key t']|] eqn:F; [|done]. simpl in *.
    apply list_elem_of_lookup_2, list_elem_of_filter in F as [F1 F2].
    f_equal. apply (U (key, t') F2 F1). cbn. congruence.
  - pose proof (match_at_none _ _ _ M) as Mn.
    assert ((presented, t) ∈ base.filter (fun p : string * string => p.1 <> ""%string) l) as H
      by (by apply list_elem_of_filter).
    apply list_elem_of_lookup in H as [i Hi]. destruct (Mn i). by rewrite !list_lookup_fmap, Hi.
Qed.

(** and for nobody when no entry has it. *)
Lemma key_lookup_unknown l presented :
  (forall p, p ∈ l -> p.1 <> ""%string -> Sum256 p.1 <> Sum256 presented) ->
  key_lookup (configured l) presented = (AnonymousTenant, false).
Proof.
  intros U. destruct (configured_digests l) as [ED EO]. unfold key_lookup. rewrite ED.
  destruct (match_at _ _ 0 None) as [j|] eqn:M; [|done].
  apply match_at_spec in M as [(i & -> & Hi & _)|[? _]]; [|done]. exfalso.
  rewrite !list_lookup_fmap in Hi. destruct (base.filter _ l !! i) as [[key t']|] eqn:F; [|done].
  simpl in Hi. apply list_elem_of_lookup_2, list_elem_of_filter in F as [F1 F2].
  apply (U _ F2 F1). cbn in *. congruence.
Qed.

Lemma key_lookup_owner l presented t :
  key_lookup (configured l) presented = (t, true) -> exists key, (key, t) ∈ l.
Proof.
  destruct (configured_digests l) as [ED EO]. unfold key_lookup. rewrite ED, EO.
  destruct (match_at _ _ 0 None) as [j|] eqn:M; [|done].
  apply match_at_spec in M as [(i & -> & Hi & _)|[? _]]; [|done]. simpl in *.
  rewrite !list_lookup_fmap in Hi. rewrite list_lookup_fmap.
  destruct (base.filter _ l !! i) as [[key t']|] eqn:F; [|done]. simpl. intros [= <-].
  apply list_elem_of_lookup_2, list_elem_of_filter in F as [_ F]. eauto.
Qed.

Lemma configured_nonempty l p : p ∈ l -> p.1 <> ""%string -> keys_empty (configured l) = false.
Proof.
  intros Hp Hne. destruct (configured_digests l) as [ED _]. unfold keys_empty. rewrite ED, !length_fmap.
  assert (p ∈ base.filter (fun p : string * string => p.1 <> ""%string) l) as H
    by (by apply list_elem_of_filter).
  destruct (base.filter _ l); [by apply not_elem_of_nil in H|done].
Qed.

(** ** Properties *)

(** A caller gets in exactly with a configured key, and under the tenant
    that owns it: a presented key is accepted if and only if its digest is the
    digest of a non-empty configured key, and the identity is the owner of the
    last such key; so every configured key opens the gateway, and any other
    string only by a SHA-256 collision. *)
Theorem key_lookup_spec l presented :
  let usable := base.filter (fun p => p.1 <> ""%string) l in
  match key_lookup (configured l) presented with
  | (t, true) => exists i key, usable !! i = Some (key, t) /\ Sum256 key = Sum256 presented /\
      forall j p, (i < j)%nat -> usable !! j = Some p -> Sum256 p.1 <> Sum256 presented
  | (t, false) => t = AnonymousTenant /\
      forall p, p ∈ usable -> Sum256 p.1 <> Sum256 presented
  end.
Proof.
  cbv zeta. set (usable := base.filter _ l). destruct (configured_digests l) as [ED EO].
  fold usable in ED, EO. unfold key_lookup. rewrite ED, EO.
  destruct (match_at (Sum256 presented) _ 0 None) as [j|] eqn:M.
  - apply match_at_spec in M as [(i & -> & Hi & Hl)|[? _]]; [|done]. simpl in *.
    rewrite !list_lookup_fmap in Hi. destruct (usable !! i) as [[key t]|] eqn:U; [|done].
    cbn in Hi. assert (Sum256 key = Sum256 presented) as Hk by congruence.
    rewrite list_lookup_fmap, U. simpl.
    exists i, key. split_and!; [done|done|]. intros j p Hj Hp. specialize (Hl j Hj).
    rewrite !list_lookup_fmap, Hp in Hl. cbn in Hl. congruence.
  - split; [done|]. intros p Hp E. apply list_elem_of_lookup in Hp as [i Hi].
    apply (match_at_none _ _ _ M i). rewrite !list_lookup_fmap, Hi. simpl. by rewrite E.
Qed.

Definition gate_ok (limit : Z) (g : gate) : Prop :=
  slots (limiter g) = slots (newInflight limit) /\
  (0 < limit -> taken (limiter g) = running g /\ Z.of_nat (running g) <= limit).

Lemma gate_step_ok limit g g' : gate_ok limit g -> gate_step g g' -> gate_ok limit g'.
Proof.
  unfold gate_ok, newInflight. cbn [slots].
  intros [Hs Hb]. induction 1 as [g l E|g w E|g Hr]; simpl in *; [|done|].
  - unfold limit_enter in E. rewrite Hs in E. destruct (limit <=? 0) eqn:L; bool_to_prop.
    + injection E as <-. split; [done|lia].
    + destruct (taken (limiter g) <? Z.to_nat limit)%nat eqn:T; [|done]. injection E as <-.
      apply Nat.ltb_lt in T. simpl. rewrite ?Hs. split; [done|]. intros Hl. specialize (Hb Hl). lia.
  - unfold limit_leave. rewrite Hs. destruct (limit <=? 0) eqn:L; bool_to_prop.
    + rewrite ?Hs. split; [done|lia].
    + simpl. rewrite ?Hs. split; [done|]. intros Hl. specialize (Hb Hl). lia.
Qed.

(** At most [limit] requests are ever in flight, whatever the order in
    which they come and go, and load is shed only when all the slots are
    really taken: in every reachable state a newcomer is admitted if fewer than
    [limit] are running, and every departure frees a slot. *)
Theorem inflight_bounded limit g :
  0 < limit -> rtc gate_step (mkGate (newInflight limit) 0) g ->
  Z.of_nat (running g) <= limit /\
  ((exists l, limit_enter (limiter g) no_response = inl l) <-> Z.of_nat (running g) < limit).
Proof.
  intros Hl R. assert (gate_ok limit g) as [Hs Hb].
  { remember (mkGate (newInflight limit) 0) as g0 eqn:E0.
    assert (gate_ok limit g0) as H0 by (subst; split; [done|simpl; lia]). clear E0.
    induction R as [|g0 g1 g2 S R IH]; [done|]. apply IH. by eapply gate_step_ok. }
  destruct (Hb Hl) as [Ht Hle]. split; [done|]. unfold limit_enter. rewrite Hs.
  unfold newInflight; simpl. destruct (limit <=? 0) eqn:L; bool_to_prop; [lia|].
  rewrite Ht. destruct (running g <? Z.to_nat limit)%nat eqn:T.
  - apply Nat.ltb_lt in T. split; [lia|eauto].
  - apply Nat.ltb_ge in T. split; [by intros [? ?]|lia].
Qed.

(** *** Instances *)

Module AuthExample.
Definition full : gate := mkGate (mkInflight (Some 1%nat) 1) 1.
Lemma inflight_bounded_witness :
  Z.of_nat (running full) <= 1 /\
  ((exists l, limit_enter (limiter full) no_response = inl l) <-> Z.of_nat (running full) < 1).
Proof.
  apply (inflight_bounded 1 full); [lia|]. eapply rtc_l; [|apply rtc_refl].
  change full with (mkGate (mkInflight (Some 1%nat) 1) (S 0)). by apply gate_in.
Defined.

Definition keys : keySet := configured [("k1", "acme"); ("", "ghost"); ("k2", "rival")]%string.
Example auth_ok : withAuth keys "/v1/models" "bearer k2 " no_response = Admit "rival".
Proof. vm_compute. reflexivity. Qed.
Example auth_empty : key_lookup keys "" = (""%string, false).
Proof. vm_compute. reflexivity. Qed.
End AuthExample.
