(* ===== verification/Handlers.v ===== *)
(** * The request path (internal/ingress/handlers.go, cached.go, metrics.go)

    [handleChatCompletions] from the body to the last byte of the answer: the
    cache, the reservation, the upstream call, the stream loop and the
    accounting that closes it.  What is outside the gateway is in an [env]:
    the instants each step reads, what the embedder and the upstream answer,
    whether the client takes a write.  The stream loop is a step function over
    the cases of its [select]; a list of them is one scheduling. *)

From Stdlib Require Import ZArith Lia String Ascii.
From stdpp Require Import base gmap strings list numbers.
From S2P Require Import Prelude Float64 GoString Providers Json Sse Pricing Money.
From S2P Require Import Budget Guard Exact Semantic Lookup Wire Auth.

Local Open Scope Z_scope.

(** ** State *)

Record logInfo := mkInfo {
  i_start : Time; i_model : string; i_provider : string; i_tenant : string;
  i_stream : bool; i_cached : bool
}.

Definition set_envelope (model : string) (stream : bool) (i : logInfo) : logInfo :=
  mkInfo (i_start i) model (i_provider i) (i_tenant i) stream (i_cached i).
Definition set_provider (p : string) (i : logInfo) : logInfo :=
  mkInfo (i_start i) (i_model i) p (i_tenant i) (i_stream i) (i_cached i).
Definition set_cached (i : logInfo) : logInfo :=
  mkInfo (i_start i) (i_model i) (i_provider i) (i_tenant i) (i_stream i) true.

(** [routes] gives the name of the provider that serves a model; [owed] are the
    snapshots settlements hand over to be made durable. *)
Record Server := mkServer {
  routes : gmap string string;
  streamIdleTimeoutMS : Z;
  accounting : option Guard;
  cache : option Lookup;
  metrics : list metric;
  owed : list (SpendRow f64 * Z)
}.

Definition with_accounting (s : Server) (g : option Guard) : Server :=
  mkServer (routes s) (streamIdleTimeoutMS s) g (cache s) (metrics s) (owed s).
Definition with_cache (s : Server) (l : option Lookup) : Server :=
  mkServer (routes s) (streamIdleTimeoutMS s) (accounting s) l (metrics s) (owed s).
Definition observe (m : metric) (s : Server) : Server :=
  mkServer (routes s) (streamIdleTimeoutMS s) (accounting s) (cache s) (metrics s ++ [m]) (owed s).
Definition owe (r : option (SpendRow f64 * Z)) (s : Server) : Server :=
  mkServer (routes s) (streamIdleTimeoutMS s) (accounting s) (cache s) (metrics s)
    (owed s ++ option_list r).

(** ** The outside *)

(** One case of the loop's [select]. *)
Inductive loop_event :=
| EvChunk (c : StreamChunk) (client_takes : bool)
| EvErr (e : goerror)
| EvIdle
| EvCtxDone.

Record env := mkEnv {
  e_get : Time; e_get_reply : option (list (list f64));
  e_begin : Time;
  e_put : Time; e_put_reply : option (list (list f64));
  e_close : Time; e_ledger : bool;
  e_flusher : bool;
  e_client : nat;   (* frames the client takes of a replay *)
  e_chat : ChatRequest -> ChatResponse + goerror;
  e_open : ChatRequest -> streamInfo + goerror;
  e_header_timed_out : bool;
  e_events : list loop_event
}.

(** ** Accounting *)

(** [settleOrAbort]. *)
Definition settleOrAbort (s : Server) (v : env) (r : option (Reservation f64)) (u : option Usage)
    (model provider : string) : Server :=
  match accounting s, r with
  | Some _, Some res =>
      match u with
      | None => with_accounting s (Abort_ (accounting s) (e_close v) r)
      | Some u =>
          let '(usd, g, row) := guard_Settle (accounting s) (e_close v) (e_ledger v) r u model provider in
          observe (MCost (Tenant res) provider model usd) (owe row (with_accounting s g))
      end
  | _, _ => s
  end.

(** ** Cached answers *)

Definition headerCacheStatus : string := "X-Penstock-Cache".
Definition cacheStatusOf (res : Result) : string :=
  if RSemantic res then "hit-semantic" else "hit-exact".

Definition json_headers (w : response) : response :=
  set_header "X-Content-Type-Options" "nosniff" (set_header "Content-Type" ContentTypeJSON w).
Definition sse_headers (w : response) : response :=
  set_header "X-Content-Type-Options" "nosniff" (set_header "Connection" "keep-alive"
    (set_header "Cache-Control" "no-cache" (set_header "Content-Type" "text/event-stream" w))).

(** The frames, for as long as the client takes them. *)
Fixpoint replay (takes : nat) (frames : list string) (w : response) : response :=
  match frames with
  | [] => Write WDone w
  | f :: frames =>
      match takes with
      | O => w
      | S takes => replay takes frames (Write (WFrame f) w)
      end
  end.

Definition replayStream (v : env) (res : Result) (w : response) : response * bool :=
  match REntry res with
  | None => (w, false)
  | Some e =>
      if negb (e_flusher v) then (w, false)
      else if negb (Streamed e) then (w, false)
      else (replay (e_client v) (Frames e)
              (WriteHeader 200 (set_header headerCacheStatus (cacheStatusOf res) (sse_headers w))), true)
  end.

Definition serveCached (s : Server) (v : env) (info : logInfo) (res : Result) (w : response)
    : response * Server * logInfo * bool :=
  match REntry res with
  | None => (w, s, info, false)
  | Some e =>
      let info := set_cached (set_provider (EntryProvider e) info) in
      let s := observe (MTokens (EntryProvider e) (PromptTokens (EntryUsage e))
                          (CompletionTokens (EntryUsage e))) s in
      if i_stream info then
        let '(w, served) := replayStream v res w in (w, s, info, served)
      else
        (Write (WJSON (Body e)) (WriteHeader 200
           (set_header headerCacheStatus (cacheStatusOf res) (json_headers w))), s, info, true)
  end.

(** ** Recording a stream *)

Definition maxCachedStreamBytes : Z := 2 ^ 20.

Record streamRecorder := mkRecorder { frames : list string; rbytes : Z; dropped : bool }.
Definition newRecorder : streamRecorder := mkRecorder [] 0 false.

Definition str_len (s : string) : Z := Z.of_nat (String.length s).

Definition rec_add (r : streamRecorder) (frame : string) : streamRecorder :=
  if dropped r then r
  else if maxCachedStreamBytes <? rbytes r + str_len frame then mkRecorder [] (rbytes r) true
  else mkRecorder (frames r ++ [frame]) (rbytes r + str_len frame) false.

Definition rec_entry (r : streamRecorder) (provider model : string) (u : Usage) (now : Time)
    : option Entry :=
  if dropped r || bool_decide (frames r = []) then None
  else Some (mkEntry "" (frames r) u f64_zero provider model now).

(** ** The stream loop *)

Record streamTally := mkTally {
  answered : string; billed : string; lastUsage : option Usage;
  recorder : streamRecorder; completed : bool
}.

Record loop_state := mkLoop {
  tally : streamTally; firstData : bool; out : response; l_metrics : list metric
}.

Definition set_usage (u : option Usage) (t : streamTally) : streamTally :=
  match u with
  | None => t
  | u => mkTally (answered t) (billed t) u (recorder t) (completed t)
  end.
Definition record_frame (f : string) (t : streamTally) : streamTally :=
  mkTally (answered t) (billed t) (lastUsage t) (rec_add (recorder t) f) (completed t).
Definition set_completed (b : bool) (t : streamTally) : streamTally :=
  mkTally (answered t) (billed t) (lastUsage t) (recorder t) b.

Definition truncated_envelope : envelope :=
  mkEnvelope (Authored "upstream stream ended before completion") TypeAPI "stream_truncated".

(** [finishStream]. *)
Definition finishStream (cause : goerror) (w : response) : response :=
  if errors_Is cause IoEOF then Write WDone w else Write (WErrorFrame truncated_envelope) w.

(** One turn of the loop; the flag says that it returned. *)
Definition loop_step (s : Server) (info : logInfo) (ev : loop_event) (l : loop_state)
    : loop_state * bool :=
  match ev with
  | EvErr e =>
      (mkLoop (set_completed (errors_Is e IoEOF) (tally l)) (firstData l)
         (finishStream e (out l)) (l_metrics l), true)
  | EvChunk c takes =>
      let t := set_usage (ChunkUsage c) (tally l) in
      if Keepalive c then
        if takes then (mkLoop t (firstData l) (Write WKeepalive (out l)) (l_metrics l), false)
        else (mkLoop t (firstData l) (out l) (l_metrics l), true)
      else
        let ms := if firstData l && negb (time_IsZero (i_start info))
                  then l_metrics l ++ [MTTFT (answered t)] else l_metrics l in
        if takes
        then (mkLoop (record_frame (Data c) t) false (Write (WFrame (Data c)) (out l)) ms, false)
        else (mkLoop t false (out l) ms, true)
  | EvIdle =>
      if 0 <? streamIdleTimeoutMS s
      then (mkLoop (tally l) (firstData l)
              (finishStream (ErrSentinel StreamTruncated) (out l)) (l_metrics l), true)
      else (l, false)
  | EvCtxDone => (l, true)
  end.

(** The loop under one scheduling, [None] while it has not returned. *)
Fixpoint run_loop (s : Server) (info : logInfo) (evs : list loop_event) (l : loop_state)
    : option loop_state :=
  match evs with
  | [] => None
  | ev :: evs =>
      let '(l, returned) := loop_step s info ev l in
      if returned then Some l else run_loop s info evs l
  end.

(** The deferred [settleStream]. *)
Definition settleStream (s : Server) (v : env) (r : option (Reservation f64)) (res : Result)
    (req : ChatRequest) (t : streamTally) : Server :=
  let s := match lastUsage t with
           | Some u => observe (MTokens (answered t) (PromptTokens u) (CompletionTokens u)) s
           | None => s
           end in
  let s := if completed t then
             match rec_entry (recorder t) (answered t) (ReqModel req)
                     (default zeroUsage (lastUsage t)) (e_put v) with
             | Some entry =>
                 let '(l, evs) := Put (cache s) (e_put v) res (Some entry) (ReqRaw req)
                                    (e_put_reply v) in
                 observe (MCache evs) (with_cache s l)
             | None => s
             end
           else s in
  settleOrAbort s v r (lastUsage t) (billed t) (answered t).

(** ** The upstream calls *)

Definition serveChat (s : Server) (v : env) (info : logInfo) (prov : string) (req : ChatRequest)
    (r : option (Reservation f64)) (res : Result) (w : response) : response * Server * logInfo :=
  match e_chat v req with
  | inr err =>
      let s := settleOrAbort s v r None (ReqModel req) prov in
      (writeUpstreamError err w, s, info)
  | inl resp =>
      let by_ := answeringProvider prov (RespProvider resp) in
      let info := set_provider by_ info in
      let u := RespUsage resp in
      let s := observe (MTokens by_ (PromptTokens u) (CompletionTokens u)) s in
      let s := settleOrAbort s v r (Some u) (billedModel (ReqModel req) (RespModel resp)) by_ in
      let '(l, evs) := Put (cache s) (e_put v) res
        (Some (mkEntry (RespBody resp) [] u f64_zero by_ (ReqModel req) (e_put v)))
        (ReqRaw req) (e_put_reply v) in
      let s := observe (MCache evs) (with_cache s l) in
      (Write (WJSON (RespBody resp)) (WriteHeader 200 (json_headers w)), s, info)
  end.

(** [openStream]: a failure behind an expired header timer is a timeout. *)
Definition openStream (v : env) (prov : string) (req : ChatRequest) : streamInfo + goerror :=
  match e_open v req with
  | inl si => inl si
  | inr err =>
      if e_header_timed_out v
      then inr (ErrProvider prov ErrClassTimeout 0 "upstream did not send response headers in time"
                  (Some err))
      else inr err
  end.

Definition serveStream (s : Server) (v : env) (info : logInfo) (prov : string) (req : ChatRequest)
    (r : option (Reservation f64)) (res : Result) (w : response)
    : option (response * Server * logInfo) :=
  if negb (e_flusher v) then
    Some (WriteError 500 (Authored "streaming is not supported by this server") TypeAPI
            "streaming_unsupported" w,
          settleOrAbort s v r None (ReqModel req) prov, info)
  else match openStream v prov req with
  | inr err =>
      Some (writeUpstreamError err w, settleOrAbort s v r None (ReqModel req) prov, info)
  | inl si =>
      let w := WriteHeader 200 (sse_headers w) in
      let t := mkTally (answeringProvider prov (AnsweringProvider si))
                 (billedModel (ReqModel req) (AnsweringModel si)) None newRecorder false in
      let info := set_provider (answered t) info in
      match run_loop s info (e_events v) (mkLoop t true w []) with
      | None => None
      | Some l =>
          let s := fold_left (fun s m => observe m s) (l_metrics l) s in
          Some (out l, settleStream s v r res req (tally l), info)
      end
  end.

(** ** The handler *)

Inductive body_read := BodyOk (body : string) | BodyTooLarge | BodyFailed.

Record chat_envelope := mkChatEnvelope { EnvModel : string; EnvStream : bool }.
Definition dec_envelope : decoder chat_envelope := dec_struct
  [("model", at_field EnvModel (fun x e => mkChatEnvelope x (EnvStream e)) dec_string);
   ("stream", at_field EnvStream (fun x e => mkChatEnvelope (EnvModel e) x) dec_bool)].

(** What the handler does once the budget has let the request through. *)
Definition dispatch (s : Server) (v : env) (info : logInfo) (prov : string) (req : ChatRequest)
    (r : option (Reservation f64)) (res : Result) (w : response)
    : option (response * Server * logInfo) :=
  if ReqStream req then serveStream s v info prov req r res w
  else Some (serveChat s v info prov req r res w).

Definition handleChatCompletions (s : Server) (v : env) (info : logInfo) (read : body_read)
    (w : response) : option (response * Server * logInfo) :=
  match read with
  | BodyTooLarge =>
      Some (WriteError 413 (Authored "request body exceeds the 1 MiB limit") TypeInvalidRequest
              "request_too_large" w, s, info)
  | BodyFailed =>
      Some (WriteError 400 (Authored "failed to read request body") TypeInvalidRequest
              "invalid_body" w, s, info)
  | BodyOk body =>
      match Unmarshal dec_envelope body (mkChatEnvelope "" false) with
      | None =>
          Some (WriteError 400 (Authored "request body is not valid JSON") TypeInvalidRequest
                  "invalid_json" w, s, info)
      | Some e =>
          let info := set_envelope (EnvModel e) (EnvStream e) info in
          if bool_decide (EnvModel e = ""%string) then
            Some (WriteError 400 (Authored "model is required") TypeInvalidRequest
                    "missing_model" w, s, info)
          else match routes s !! EnvModel e with
          | None =>
              Some (WriteError 404
                      (UnknownModel (EnvModel e))
                      TypeInvalidRequest "model_not_found" w, s, info)
          | Some prov =>
              let info := set_provider prov info in
              let '(res, l, evs) := Get (cache s) (e_get v) (i_tenant info) (EnvModel e) body
                                      (e_get_reply v) in
              let s := observe (MCache evs) (with_cache s l) in
              let '(w, s, info, served) := serveCached s v info res w in
              if served then Some (w, s, info)
              else
                match Begin (accounting s) (e_begin v) (i_tenant info) (EnvModel e) body with
                | (inl d, g) =>
                    Some (writeDenial d w,
                          observe (MDenial (i_tenant info) (Budget.Reason d)) (with_accounting s g), info)
                | (inr r, g) =>
                    dispatch (with_accounting s g) v info prov
                      (mkRequest (EnvModel e) (EnvStream e) body) r res w
                end
          end
      end
  end.

(** ** The accounting side of a request *)

Definition enforcer_of (s : Server) : option (MemEnforcer f64) :=
  match accounting s with Some g => g_enforcer g | None => None end.

(** What closing a reservation does to the guard. *)
Definition closed_account (g : option Guard) (v : env) (r : option (Reservation f64))
    (u : option Usage) (model provider : string) : option Guard :=
  match g, r with
  | Some _, Some _ =>
      match u with
      | None => Abort_ g (e_close v) r
      | Some u => (guard_Settle g (e_close v) (e_ledger v) r u model provider).1.2
      end
  | _, _ => g
  end.

Lemma settleOrAbort_accounting s v r u model provider :
  accounting (settleOrAbort s v r u model provider)
  = closed_account (accounting s) v r u model provider.
Proof.
  unfold settleOrAbort, closed_account. destruct (accounting s) as [g|] eqn:G; [|done].
  destruct r as [r|]; [|done]. destruct u as [u|]; [|done].
  by destruct (guard_Settle _ _ _ _ _ _ _) as [[usd g'] row].
Qed.

Lemma settleOrAbort_cache s v r u model provider :
  cache (settleOrAbort s v r u model provider) = cache s.
Proof.
  unfold settleOrAbort. destruct (accounting s), r as [r|]; try done. destruct u as [u|]; [|done].
  by destruct (guard_Settle _ _ _ _ _ _ _) as [[usd g'] row].
Qed.

Lemma settleOrAbort_none s v u model provider : settleOrAbort s v None u model provider = s.
Proof. unfold settleOrAbort. by destruct (accounting s). Qed.

Lemma observe_all_accounting ms s :
  accounting (fold_left (fun s m => observe m s) ms s) = accounting s /\
  cache (fold_left (fun s m => observe m s) ms s) = cache s.
Proof. revert s. induction ms as [|m ms IH]; intros s; [done|]. apply (IH (observe m s)). Qed.

Lemma settleStream_accounting s v r res req t :
  accounting (settleStream s v r res req t)
  = closed_account (accounting s) v r (lastUsage t) (billed t) (answered t).
Proof.
  unfold settleStream. rewrite settleOrAbort_accounting. f_equal.
  destruct (lastUsage t), (completed t); try done; destruct (rec_entry _ _ _ _ _); try done;
    by destruct (Put _ _ _ _ _ _).
Qed.

(** However the upstream call ends, the reservation is closed, once. *)
Lemma dispatch_closes s v info prov req r res w w' s' info' :
  dispatch s v info prov req r res w = Some (w', s', info') ->
  exists u model p, accounting s' = closed_account (accounting s) v r u model p.
Proof.
  unfold dispatch, serveStream, serveChat. intros H. destruct (ReqStream req).
  - destruct (e_flusher v); cbn [negb] in H.
    2: { injection H as <- <- <-. rewrite settleOrAbort_accounting. eauto. }
    destruct (openStream v prov req) as [si|err].
    2: { injection H as <- <- <-. rewrite settleOrAbort_accounting. eauto. }
    destruct (run_loop _ _ _ _) as [l|]; [|done]. injection H as <- <- <-.
    rewrite settleStream_accounting. destruct (observe_all_accounting (l_metrics l) s) as [-> _]. eauto.
  - destruct (e_chat v req) as [resp|err].
    + destruct (Put _ _ _ _ _ _) as [l evs]. injection H as <- <- <-.
      cbn [accounting observe with_cache]. rewrite settleOrAbort_accounting. simpl. eauto.
    + injection H as <- <- <-. rewrite settleOrAbort_accounting. eauto.
Qed.

Definition ids_closed (e e' : MemEnforcer f64) : Prop :=
  (nextID e' = nextID e /\ done_ e' = done_ e) \/
  (nextID e' = wrapu64 (nextID e + 1) /\ done_ e' = {[formatID (nextID e')]} ∪ done_ e).

Definition account_closed (g g' : option Guard) (e : MemEnforcer f64) (tenant : string) : Prop :=
  (exists e', g' ≫= g_enforcer = Some e' /\ ids_closed e e') /\
  exists new, ledger_rows g' = ledger_rows g ++ new /\ (length new <= 1)%nat /\
    forall row, row ∈ new -> ETenant row = tenant /\
      exists e', g' ≫= g_enforcer = Some e' /\ RequestID row = formatID (nextID e').

Lemma record_rows g clk ok r u usd model p :
  exists new, ledger_rows (Some (record g clk ok r u usd model p)) = ledger_rows (Some g) ++ new /\
    (length new <= 1)%nat /\
    forall row, row ∈ new -> ETenant row = Tenant r /\ RequestID row = ID r.
Proof.
  unfold record, ledger_rows. destruct (g_ledger g) as [[|rows]|] eqn:L; simpl; rewrite ?L.
  - exists []. split_and!; [done|simpl; lia|]. by intros row Hr%not_elem_of_nil.
  - destruct ok; simpl.
    + eexists [_]. split_and!; [done|simpl; lia|]. by intros row ->%list_elem_of_singleton.
    + exists []. rewrite app_nil_r. split_and!; [done|simpl; lia|]. by intros row Hr%not_elem_of_nil.
  - exists []. split_and!; [done|simpl; lia|]. by intros row Hr%not_elem_of_nil.
Qed.

(** A claim that was just issued is closed by either way of closing it. *)
Lemma closed_account_ok g g0 e e1 r u v model p :
  g_enforcer g = Some e1 -> g_ledger g = g_ledger g0 ->
  nextID e1 = wrapu64 (nextID e + 1) -> done_ e1 = done_ e -> ID r = formatID (nextID e1) ->
  account_closed (Some g0) (closed_account (Some g) v (Some r) u model p) e (Tenant r).
Proof.
  intros He Hl Hn Hd Hr.
  assert (L0 : ledger_rows (Some g0) = ledger_rows (Some g)) by (unfold ledger_rows; by rewrite Hl).
  destruct u as [u|].
  - unfold closed_account, guard_Settle. rewrite He.
    set (usd := guard_Price (Some g) p model u).
    assert (C : done_ (Settle e1 (e_close v) r u usd).1 = {[ID r]} ∪ done_ e1 /\
                nextID (Settle e1 (e_close v) r u usd).1 = nextID e1).
    { destruct (Settle_cases e1 (e_close v) r u usd) as [[Hin ->]|(_ & _ & _ & _ & N & D & _)];
        [simpl; split; [set_solver|done]|done]. }
    destruct (Settle e1 (e_close v) r u usd) as [e2 row]. cbn [fst snd] in *. destruct C as [C1 C2].
    set (g2 := with_enforcer g e2).
    destruct (record_rows g2 (e_close v) (e_ledger v) r u usd model p) as (new & E1 & E2 & E3).
    assert (G : (Some (record g2 (e_close v) (e_ledger v) r u usd model p)) ≫= g_enforcer = Some e2).
    { unfold record. by destruct (g_ledger g2). }
    split.
    + exists e2. split; [done|]. right. rewrite C1, C2, Hd, <- Hr. done.
    + exists new. rewrite E1, L0. split_and!; [done|done|]. intros row' Hrow.
      destruct (E3 _ Hrow) as [-> ->]. split; [done|]. exists e2. split; [done|]. by rewrite C2.
  - unfold closed_account, Abort_. rewrite He. split.
    + exists (Release e1 (e_close v) r). split; [done|]. right.
      destruct (Release_cases e1 (e_close v) r) as [[Hin ->]|(_ & _ & _ & _ & N & D & _)].
      * split; [done|]. rewrite <- Hr, Hd. rewrite Hd in Hin. set_solver.
      * rewrite D, N, Hd, <- Hr. done.
    + exists []. rewrite app_nil_r. split_and!; [exact (eq_sym L0)|simpl; lia|].
      by intros row Hrow%not_elem_of_nil.
Qed.

Lemma account_closed_same g e t :
  g ≫= g_enforcer = Some e -> account_closed g g e t.
Proof.
  intros He. split; [exists e; split; [done|by left]|]. exists []. rewrite app_nil_r.
  split_and!; [done|simpl; lia|]. by intros row Hr%not_elem_of_nil.
Qed.

Lemma serveCached_accounting s v info res w :
  accounting (serveCached s v info res w).1.1.2 = accounting s /\
  i_tenant (serveCached s v info res w).1.2 = i_tenant info.
Proof.
  unfold serveCached. destruct (REntry res) as [en|]; [|done].
  destruct (i_stream _); [|done]. by destruct (replayStream v res w).
Qed.

(** ** Properties *)

(** (C2) Every reservation is closed when its request is over: on every path
    through the handler that returns, refused, cached, answered, failed,
    streamed, cut short or abandoned by its client, the identifiers the
    enforcer issued and the ones it has closed grow together, by the request's
    own and no other; and at most one ledger row is written, for that
    identifier and the caller's tenant. *)
Theorem reservation_closed_once s v info read w w' s' info' e :
  accounting s ≫= g_enforcer = Some e ->
  handleChatCompletions s v info read w = Some (w', s', info') ->
  account_closed (accounting s) (accounting s') e (i_tenant info).
Proof.
  intros He H. destruct read as [body| |]; cbn [handleChatCompletions] in H.
  2, 3: injection H as <- <- <-; by apply account_closed_same.
  destruct (Unmarshal dec_envelope body _) as [env_|].
  2: injection H as <- <- <-; by apply account_closed_same.
  case_bool_decide. { injection H as <- <- <-. by apply account_closed_same. }
  destruct (routes s !! EnvModel env_) as [prov|].
  2: injection H as <- <- <-; by apply account_closed_same.
  destruct (Get _ _ _ _ _ _) as [[res l] evs].
  set (s1 := observe (MCache evs) (with_cache s l)) in *.
  set (info1 := set_provider prov (set_envelope (EnvModel env_) (EnvStream env_) info)) in *.
  destruct (serveCached_accounting s1 v info1 res w) as [A T].
  destruct (serveCached s1 v info1 res w) as [[[w2 s2] info2] served]. cbn [fst snd] in A, T.
  change (accounting s1) with (accounting s) in A. change (i_tenant info1) with (i_tenant info) in T.
  destruct served. { injection H as <- <- <-. rewrite A. by apply account_closed_same. }
  rewrite A, T in H. destruct (accounting s) as [g|] eqn:G; [|done]. simpl in He.
  unfold Begin in H. rewrite He in H. destruct (g_estimator g) as [estimate|] eqn:Est.
  - pose proof (Reserve_cases e (e_begin v) (i_tenant info) (estimate (EnvModel env_) body)) as C.
    cbv zeta in C. destruct (Reserve e _ _ _) as [[d|r] e1].
    + injection H as <- <- <-. simpl. split.
      * exists e1. split; [done|]. left.
        destruct C as [(_ & _ & ->)|(lm & _ & [(_ & _ & _ & ->)|(_ & -> & _)])]; try done.
      * exists []. rewrite app_nil_r. split_and!; [done|simpl; lia|]. by intros row Hr%not_elem_of_nil.
    + destruct C as (lm & _ & _ & _ & _ & Hr & _ & _ & _ & N & D & _).
      apply dispatch_closes in H as (u & model & p & ->).
      replace (i_tenant info) with (Tenant r) by by rewrite Hr.
      apply closed_account_ok with (e1 := e1); try done. by rewrite Hr, N.
  - apply dispatch_closes in H as (u & model & p & ->). simpl. by apply account_closed_same.
Qed.

(** ** What a stream relays *)

(** Cases of the [select] that leave the loop running. *)
Definition keeps_running (s : Server) (ev : loop_event) : bool :=
  match ev with
  | EvChunk _ takes => takes
  | EvIdle => negb (0 <? streamIdleTimeoutMS s)
  | _ => false
  end.

Definition chunk_of (ev : loop_event) : option StreamChunk :=
  match ev with EvChunk c _ => Some c | _ => None end.
Definition chunk_write (c : StreamChunk) : write :=
  if Keepalive c then WKeepalive else WFrame (Data c).
Definition data_of (c : StreamChunk) : option string :=
  if Keepalive c then None else Some (Data c).

Definition is_eof (ev : loop_event) : bool :=
  match ev with EvErr e => errors_Is e IoEOF | _ => false end.

(** The terminal frame, where the end of the stream has one. *)
Definition terminal (ev : loop_event) : list write :=
  match ev with
  | EvErr e => if errors_Is e IoEOF then [WDone] else [WErrorFrame truncated_envelope]
  | EvIdle => [WErrorFrame truncated_envelope]
  | _ => []
  end.

Definition later_usage (u : option Usage) (cs : list StreamChunk) : option Usage :=
  fold_left (fun u c => match ChunkUsage c with Some x => Some x | None => u end) cs u.

Definition recorded (r : streamRecorder) (cs : list StreamChunk) : streamRecorder :=
  fold_left rec_add (omap data_of cs) r.

Lemma step_running s info ev l :
  keeps_running s ev = true ->
  exists l', loop_step s info ev l = (l', false) /\
    rwrites (out l') = rwrites (out l) ++ (chunk_write <$> option_list (chunk_of ev)) /\
    lastUsage (tally l') = later_usage (lastUsage (tally l)) (option_list (chunk_of ev)) /\
    recorder (tally l') = recorded (recorder (tally l)) (option_list (chunk_of ev)) /\
    completed (tally l') = completed (tally l) /\
    answered (tally l') = answered (tally l) /\ billed (tally l') = billed (tally l).
Proof.
  destruct ev as [c takes| | |]; simpl; try done.
  - intros ->. unfold later_usage, recorded, chunk_write, data_of; simpl.
    destruct (Keepalive c) eqn:K; eexists; (split; [done|]); simpl; rewrite ?K;
      destruct (ChunkUsage c); done.
  - intros ->%negb_true_iff. exists l. by rewrite app_nil_r.
Qed.

Lemma step_returns s info ev l :
  keeps_running s ev = false ->
  exists l', loop_step s info ev l = (l', true) /\
    rwrites (out l') = rwrites (out l) ++ terminal ev /\
    lastUsage (tally l') = later_usage (lastUsage (tally l)) (option_list (chunk_of ev)) /\
    recorder (tally l') = recorder (tally l) /\
    completed (tally l') = (match ev with EvErr _ => is_eof ev | _ => completed (tally l) end) /\
    answered (tally l') = answered (tally l) /\ billed (tally l') = billed (tally l).
Proof.
  destruct ev as [c takes|e| |]; simpl.
  - intros ->. unfold later_usage; simpl.
    destruct (Keepalive c); eexists; (split; [done|]); simpl; rewrite app_nil_r;
      destruct (ChunkUsage c); done.
  - intros _. eexists. split; [done|]. simpl. unfold finishStream.
    by destruct (errors_Is e IoEOF).
  - intros ->%negb_false_iff. eexists. split; [done|]. done.
  - intros _. exists l. by rewrite app_nil_r.
Qed.

Definition chunks_of (evs : list loop_event) : list StreamChunk := omap chunk_of evs.

Lemma chunks_of_cons ev evs : chunks_of (ev :: evs) = option_list (chunk_of ev) ++ chunks_of evs.
Proof. unfold chunks_of. simpl. by destruct (chunk_of ev). Qed.

Lemma run_loop_spec s info evs l l' :
  run_loop s info evs l = Some l' ->
  exists pre last rest, evs = pre ++ last :: rest /\
    Forall (fun ev => keeps_running s ev = true) pre /\ keeps_running s last = false /\
    rwrites (out l') = rwrites (out l) ++ (chunk_write <$> chunks_of pre) ++ terminal last /\
    lastUsage (tally l') = later_usage (lastUsage (tally l)) (chunks_of (pre ++ [last])) /\
    recorder (tally l') = recorded (recorder (tally l)) (chunks_of pre) /\
    completed (tally l') = (match last with EvErr _ => is_eof last | _ => completed (tally l) end) /\
    answered (tally l') = answered (tally l) /\ billed (tally l') = billed (tally l).
Proof.
  revert l. induction evs as [|ev evs IH]; intros l; [done|]. simpl. intros E.
  destruct (keeps_running s ev) eqn:K.
  - destruct (step_running s info ev l K) as (l1 & S & W & U & R & C & A & B). rewrite S in E.
    destruct (IH _ E) as (pre & last & rest & -> & Hp & Hl & W' & U' & R' & C' & A' & B').
    exists (ev :: pre), last, rest. split_and!; [done|by constructor|done|..].
    + rewrite W', W, chunks_of_cons, fmap_app, <- !app_assoc. done.
    + rewrite U', U, <- app_comm_cons, chunks_of_cons. unfold later_usage. by rewrite fold_left_app.
    + rewrite R', R, chunks_of_cons. unfold recorded. by rewrite omap_app, fold_left_app.
    + rewrite C'. by rewrite C.
    + by rewrite A'.
    + by rewrite B'.
  - destruct (step_returns s info ev l K) as (l1 & S & W & U & R & C & A & B). rewrite S in E.
    injection E as <-. exists [], ev, evs. split_and!; done.
Qed.

(** Frames are kept while they fit, and all dropped together when they do not. *)
Definition total_len (fs : list string) : Z := foldr (fun f t => str_len f + t) 0 fs.

Lemma total_len_app a b : total_len (a ++ b) = total_len a + total_len b.
Proof. induction a as [|f a IH]; simpl; [done|]. rewrite IH. lia. Qed.
Lemma total_len_nonneg a : 0 <= total_len a.
Proof. induction a as [|f a IH]; simpl; [done|]. unfold str_len. lia. Qed.

Lemma recorded_dropped fs r : dropped r = true -> fold_left rec_add fs r = r.
Proof.
  revert r. induction fs as [|f fs IH]; intros r D; [done|]. simpl.
  assert (rec_add r f = r) as -> by (unfold rec_add; by rewrite D). by apply IH.
Qed.

Lemma recorded_spec cs r :
  dropped r = false -> rbytes r = total_len (frames r) -> rbytes r <= maxCachedStreamBytes ->
  let all := frames r ++ omap data_of cs in
  let r' := recorded r cs in
  if dropped r' then frames r' = [] /\ maxCachedStreamBytes < total_len all
  else frames r' = all /\ total_len all <= maxCachedStreamBytes.
Proof.
  cbv zeta. unfold recorded. generalize (omap data_of cs). intros fs. revert r.
  induction fs as [|f fs IH]; intros r D B L; simpl.
  { rewrite D, app_nil_r. split; [done|lia]. }
  remember (rec_add r f) as r1 eqn:E. unfold rec_add in E. rewrite D in E.
  destruct (maxCachedStreamBytes <? rbytes r + str_len f) eqn:M; bool_to_prop; subst r1.
  - rewrite recorded_dropped by done. simpl. split; [done|]. rewrite total_len_app. simpl.
    pose proof (total_len_nonneg fs). lia.
  - assert (IH' := IH (mkRecorder (frames r ++ [f]) (rbytes r + str_len f) false) eq_refl).
    simpl in IH'. rewrite <- app_assoc in IH'. apply IH'; [|done]. rewrite total_len_app. simpl. lia.
Qed.

Definition fresh_tally (t : streamTally) : Prop :=
  lastUsage t = None /\ recorder t = newRecorder /\ completed t = false.

(** A stream is relayed in order and ended honestly: whatever the
    scheduling, what the client was written is one write per chunk received,
    in the order received and up to the case that ended the loop, followed by
    [[DONE]] if and only if the upstream said it was finished; a stream cut by
    an error or by the idle timer ends with the error frame instead, and a
    client that went away or stopped taking writes is sent nothing more.  The
    usage billed is the last one any received chunk reported. *)
Theorem stream_relayed_in_order s info evs t w l :
  fresh_tally t -> run_loop s info evs (mkLoop t true w []) = Some l ->
  exists pre last rest, evs = pre ++ last :: rest /\
    Forall (fun ev => keeps_running s ev = true) pre /\ keeps_running s last = false /\
    rwrites (out l) = rwrites w ++ (chunk_write <$> chunks_of pre) ++ terminal last /\
    (terminal last = [WDone] <-> is_eof last = true) /\
    completed (tally l) = is_eof last /\
    lastUsage (tally l) = later_usage None (chunks_of (pre ++ [last])) /\
    answered (tally l) = answered t /\ billed (tally l) = billed t.
Proof.
  intros (F1 & F2 & F3) E.
  destruct (run_loop_spec _ _ _ _ _ E) as (pre & last & rest & H1 & H2 & H3 & W & U & _ & C & A & B).
  exists pre, last, rest. cbn [tally out] in *. rewrite F1 in U.
  split_and!; try done.
  - destruct last as [c b|e| |]; simpl; [split; done| |split; done|split; done].
    by destruct (errors_Is e IoEOF).
  - rewrite C. by destruct last.
Qed.

Lemma replay_all n fs w :
  (length fs <= n)%nat -> rwrites (replay n fs w) = rwrites w ++ (WFrame <$> fs) ++ [WDone].
Proof.
  revert n w. induction fs as [|f fs IH]; intros n w Hn; simpl in *; [by destruct n|].
  destruct n as [|n]; [lia|]. simpl. rewrite IH by lia. simpl. by rewrite <- app_assoc.
Qed.

(** Live writes without the keep-alives. *)
Definition not_keepalive (x : write) : Prop := match x with WKeepalive => False | _ => True end.
#[export] Instance not_keepalive_dec x : Decision (not_keepalive x).
Proof. destruct x; simpl; apply _. Defined.

Lemma data_writes (cs : list StreamChunk) :
  base.filter not_keepalive (chunk_write <$> cs) = WFrame <$> omap data_of cs.
Proof.
  induction cs as [|c cs IH]; [done|]. rewrite fmap_cons, filter_cons.
  assert (omap data_of (c :: cs) = option_list (data_of c) ++ omap data_of cs) as ->
    by (simpl; by destruct (data_of c)).
  assert (K : chunk_write c = if Keepalive c then WKeepalive else WFrame (Data c)) by done.
  unfold data_of at 1. destruct (Keepalive c); rewrite K.
  - rewrite decide_False by tauto. exact IH.
  - rewrite decide_True by done. simpl. by f_equal.
Qed.

(** (C17) A replay is the stream again: when a stream leaves something to store,
    it ended with the upstream's own end and kept every frame, at most a
    mebibyte of them; and replaying the stored entry to a client that takes it
    all writes exactly the frames the live client got, in order, ended the same
    way, keep-alives left out.  A stream that was cut short, timed out or
    abandoned leaves nothing to store. *)
Theorem replay_is_the_stream s info evs t l provider model u now :
  fresh_tally t -> run_loop s info evs (mkLoop t true no_response []) = Some l ->
  match (if completed (tally l) then rec_entry (recorder (tally l)) provider model u now else None) with
  | Some e =>
      total_len (Frames e) <= maxCachedStreamBytes /\
      forall n, (length (Frames e) <= n)%nat ->
        rwrites (replay n (Frames e) no_response) = base.filter not_keepalive (rwrites (out l))
  | None =>
      completed (tally l) = false \/ maxCachedStreamBytes < total_len (omap data_of (chunks_of evs)) \/
      exists pre last rest, evs = pre ++ last :: rest /\ is_eof last = true /\
        omap data_of (chunks_of pre) = []
  end.
Proof.
  intros (F1 & F2 & F3) E.
  destruct (run_loop_spec _ _ _ _ _ E) as (pre & last & rest & -> & _ & _ & W & _ & R & C & _ & _).
  cbn [tally out rwrites no_response] in *. rewrite F2 in R. rewrite F3 in C. rewrite app_nil_l in W.
  pose proof (recorded_spec (chunks_of pre) newRecorder eq_refl eq_refl ltac:(done)) as S. cbv zeta in S.
  rewrite <- R in S. change (frames newRecorder) with (@nil string) in S. rewrite app_nil_l in S.
  destruct (completed (tally l)) eqn:Cl; [|by left].
  assert (Hl : is_eof last = true) by (destruct last; congruence).
  unfold rec_entry. destruct (dropped (recorder (tally l))) eqn:D; cbn [orb].
  - destruct S as [_ S]. right. left. unfold chunks_of in *. rewrite !omap_app. simpl.
    rewrite total_len_app.
    match goal with |- context [total_len ?x + total_len ?y] => pose proof (total_len_nonneg y) end. lia.
  - destruct S as [S1 S2]. case_bool_decide as B.
    + right. right. exists pre, last, rest. rewrite <- S1, B. done.
    + cbn [Frames]. rewrite S1. split; [exact S2|].
      intros n Hn. rewrite replay_all by done. simpl. rewrite W, list.filter_app, data_writes.
      destruct last as [c b|e| |]; try done. simpl in Hl |- *. rewrite Hl. done.
Qed.

(** ** Hits and refusals *)

(** Two outsides that agree on what a cached answer needs. *)
Definition same_for_a_hit (v v2 : env) : Prop :=
  e_get v = e_get v2 /\ e_get_reply v = e_get_reply v2 /\ e_flusher v = e_flusher v2 /\
  e_client v = e_client v2.

(** A hit is free and needs nobody: when the cache has a servable answer,
    the request is answered without a reservation, a settlement or a row (the
    accounting state is untouched and nothing is owed to the store), and the
    whole outcome is the same under any upstream, any budget clock and any
    accounting state, so no provider is called and no budget can refuse it. *)
Theorem hit_is_free s v info body w env_ prov res l evs en :
  Unmarshal dec_envelope body (mkChatEnvelope "" false) = Some env_ ->
  EnvModel env_ <> ""%string -> routes s !! EnvModel env_ = Some prov ->
  Get (cache s) (e_get v) (i_tenant info) (EnvModel env_) body (e_get_reply v) = (res, l, evs) ->
  REntry res = Some en -> (EnvStream env_ = true -> e_flusher v = true /\ Streamed en = true) ->
  exists w' s' info', handleChatCompletions s v info (BodyOk body) w = Some (w', s', info') /\
    accounting s' = accounting s /\ owed s' = owed s /\ i_cached info' = true /\
    forall v2 g, same_for_a_hit v v2 ->
      handleChatCompletions (with_accounting s g) v2 info (BodyOk body) w
      = Some (w', with_accounting s' g, info').
Proof.
  intros Hu Hm Hr HG He Hs.
  assert (K : forall v2 g, same_for_a_hit v v2 ->
    handleChatCompletions (with_accounting s g) v2 info (BodyOk body) w
    = let s1 := observe (MCache evs) (with_cache (with_accounting s g) l) in
      let i1 := set_provider prov (set_envelope (EnvModel env_) (EnvStream env_) info) in
      let '(w', s', info', _) := serveCached s1 v i1 res w in Some (w', s', info')).
  { intros v2 g (E1 & E2 & E3 & E4). cbn [handleChatCompletions]. rewrite Hu.
    rewrite bool_decide_false by done. cbn [routes with_accounting]. rewrite Hr.
    cbn [cache with_accounting i_tenant set_provider set_envelope]. rewrite <- E1, <- E2, HG.
    assert (R : replayStream v2 res w = replayStream v res w)
      by (unfold replayStream; by rewrite E3, E4).
    unfold serveCached. rewrite He. cbn [i_stream set_cached set_provider set_envelope].
    destruct (EnvStream env_); [|done]. destruct (Hs eq_refl) as [Hf Hst].
    rewrite R. unfold replayStream. rewrite He, Hf, Hst. done. }
  pose proof (K v (accounting s) ltac:(done)) as K0.
  replace (with_accounting s (accounting s)) with s in K0 by by destruct s.
  rewrite K0. clear K0. cbv zeta in K |- *. unfold serveCached in *. rewrite He in *.
  cbn [i_stream set_cached set_provider set_envelope] in *.
  destruct (EnvStream env_).
  - destruct (replayStream v res w) as [w2 served]. eexists _, _, _. split; [reflexivity|].
    split_and!; try done; intros v2 g Hv; by rewrite K.
  - eexists _, _, _. split; [reflexivity|]. split_and!; try done; intros v2 g Hv; by rewrite K.
Qed.

(** A refusal says the right thing: a denial of the enforcer becomes 429
    with a [Retry-After] exactly when a rate refused, whose window turns over;
    an exhausted budget is 402, an unavailable store 503 and an unconfigured
    tenant 500, all without advice to retry. *)
Theorem denial_on_the_wire (e : MemEnforcer f64) clk t est d e' :
  Reserve e clk t est = (inl d, e') ->
  let w := writeDenial d no_response in
  let rate := Budget.Reason d = DenyRequestRate \/ Budget.Reason d = DenyTokenRate in
  (rate <-> Status w = 429) /\
  (rate <-> exists v, ("Retry-After"%string, v) ∈ rheaders w) /\
  (Status w = 402 <-> Budget.Reason d = DenyDailyBudget \/ Budget.Reason d = DenyMonthlyBudget).
Proof.
  intros E. pose proof (Reserve_cases e clk t est) as C. cbv zeta in C. rewrite E in C.
  assert (Hp : forall start, 0 < remainingIn start clk).
  { intros start. unfold remainingIn. destruct (_ <=? 0) eqn:L; bool_to_prop; [done|lia]. }
  assert (H : (Budget.Reason d = DenyRequestRate \/ Budget.Reason d = DenyTokenRate) /\
                0 < RetryAfter d \/
              Budget.Reason d <> DenyRequestRate /\ Budget.Reason d <> DenyTokenRate /\
                RetryAfter d = 0).
  { destruct C as [(_ & -> & _)|(lm & _ & [(_ & _ & -> & _)|(_ & _ & [X|[_ X]])])]; [by right..| |].
    - unfold checkRates in X. left.
      destruct (_ && _); [injection X as <-; simpl; auto|].
      destruct (0 <? _); [|done]. destruct (_ <? _); [|done]. injection X as <-. simpl. auto.
    - unfold checkBudgets in X. right.
      destruct (overBudget _ _ _ _); [by injection X as <-|].
      destruct (overBudget _ _ _ _); [by injection X as <-|done]. }
  clear C E. unfold writeDenial. destruct H as [[Hr Hpos]|(H1 & H2 & Hz)].
  - replace (0 <? RetryAfter d) with true by (symmetry; by apply Z.ltb_lt).
    destruct Hr as [-> | ->]; simpl; (split_and!; [tauto| |by split; [|intros []]]);
      (split; [intros _; eexists; left|tauto]).
  - rewrite Hz. simpl. destruct (Budget.Reason d); try done; simpl;
      (split_and!; [split; [by intros []|done]| |split; [auto|done] || (split; [done|by intros []])]);
      (split; [by intros []|]); intros [v Hv]; apply elem_of_cons in Hv as [Hv|Hv];
      try done; by apply elem_of_nil in Hv.
Qed.

(** *** Instances *)

Module HandlersExample.
Definition lim : Limits f64 := mkLimits 1 0 (f64_of_Z 1) (f64_of_Z 10) true.
Definition e0 : MemEnforcer f64 := NewEnforcer {["acme"%string := lim]}.
Definition guard : Guard :=
  mkGuard (Some (fun _ _ => mkEstimate 10 100 (f64_ratio 1 100))) (Some e0) None None
    (Some (FileLedger [])).
Definition served : Server :=
  mkServer {["m"%string := "chain"%string]} 1000 (Some guard) LookupExample.cold [] [].
Definition info : logInfo := mkInfo 5 "" "" "acme" false false.
Definition usage : Usage := mkUsage 3 4 7.

Definition out_chunks : list StreamChunk :=
  [mkChunk "" None true; mkChunk "one" None false; mkChunk "two" (Some usage) false].
Definition scheduled : list loop_event :=
  ((fun c => EvChunk c true) <$> out_chunks) ++ [EvErr (ErrSentinel IoEOF)].
Definition outside : env :=
  mkEnv 10 None 11 12 None 13 true true 9
    (fun _ => inl (mkChatResponse "" "openai" "{}" usage))
    (fun _ => inl (mkStreamInfo "openai" "")) false scheduled.

Definition ask : string := quoted "{'model':'m','temperature':0,'stream':true}".
Definition ask_whole : string := quoted "{'model':'m','temperature':0}".
Definition first := handleChatCompletions served outside info (BodyOk ask) no_response.
Definition after : response * Server * logInfo := default (no_response, served, info) first.

Example first_writes :
  rwrites after.1.1 = [WKeepalive; WFrame "one"; WFrame "two"; WDone].
Proof. vm_compute. reflexivity. Qed.

Lemma reservation_closed_once_witness :
  account_closed (accounting served) (accounting after.1.2) e0 "acme".
Proof.
  apply (reservation_closed_once served outside info (BodyOk ask) no_response
           after.1.1 after.1.2 after.2 e0); vm_compute; reflexivity.
Defined.

Definition start : streamTally := mkTally "openai" "m" None newRecorder false.
Definition done_loop : loop_state :=
  default (mkLoop start true no_response []) (run_loop served info scheduled
    (mkLoop start true no_response [])).

Lemma stream_relayed_in_order_witness :
  exists pre last rest, scheduled = pre ++ last :: rest /\
    Forall (fun ev => keeps_running served ev = true) pre /\ keeps_running served last = false /\
    rwrites (out done_loop) = [] ++ (chunk_write <$> chunks_of pre) ++ terminal last /\
    (terminal last = [WDone] <-> is_eof last = true) /\
    completed (tally done_loop) = is_eof last /\
    lastUsage (tally done_loop) = later_usage None (chunks_of (pre ++ [last])) /\
    answered (tally done_loop) = "openai"%string /\ billed (tally done_loop) = "m"%string.
Proof.
  apply (stream_relayed_in_order served info scheduled start no_response done_loop);
    [by split_and!|reflexivity].
Defined.

Lemma replay_is_the_stream_witness :
  match (if completed (tally done_loop)
         then rec_entry (recorder (tally done_loop)) "openai" "m" usage 12 else None) with
  | Some e =>
      total_len (Frames e) <= maxCachedStreamBytes /\
      forall n, (length (Frames e) <= n)%nat ->
        rwrites (replay n (Frames e) no_response) = base.filter not_keepalive (rwrites (out done_loop))
  | None =>
      completed (tally done_loop) = false \/
      maxCachedStreamBytes < total_len (omap data_of (chunks_of scheduled)) \/
      exists pre last rest, scheduled = pre ++ last :: rest /\ is_eof last = true /\
        omap data_of (chunks_of pre) = []
  end.
Proof.
  apply (replay_is_the_stream served info scheduled start done_loop "openai" "m" usage 12);
    [by split_and!|reflexivity].
Defined.

(** The same question again, now held by the cache. *)
Definition hit := Get (cache after.1.2) 10 "acme" "m" ask None.

Lemma hit_is_free_witness :
  exists w' s' info', handleChatCompletions after.1.2 outside info (BodyOk ask) no_response
    = Some (w', s', info') /\
    accounting s' = accounting after.1.2 /\ owed s' = owed after.1.2 /\ i_cached info' = true /\
    forall v2 g, same_for_a_hit outside v2 ->
      handleChatCompletions (with_accounting after.1.2 g) v2 info (BodyOk ask) no_response
      = Some (w', with_accounting s' g, info').
Proof.
  apply (hit_is_free after.1.2 outside info ask no_response (mkChatEnvelope "m" true) "chain"
           hit.1.1 hit.1.2 hit.2 (default LookupExample.answer (REntry hit.1.1)));
    [vm_compute; reflexivity|discriminate|vm_compute; reflexivity|vm_compute; reflexivity
    |vm_compute; reflexivity|intros _; split; vm_compute; reflexivity].
Defined.

(** The tenant's one request a minute is spent. *)
Definition e1 : MemEnforcer f64 := (Reserve e0 20 "acme" (mkEstimate 1 1 f64_zero)).2.
Definition refusal : Denial :=
  match (Reserve e1 21 "acme" (mkEstimate 1 1 f64_zero)).1 with
  | inl d => d | inr _ => mkDenial DenyUnknownTenant 0 end.

Lemma denial_on_the_wire_witness :
  let w := writeDenial refusal no_response in
  let rate := Budget.Reason refusal = DenyRequestRate \/ Budget.Reason refusal = DenyTokenRate in
  (rate <-> Status w = 429) /\
  (rate <-> exists v, ("Retry-After"%string, v) ∈ rheaders w) /\
  (Status w = 402 <->
   Budget.Reason refusal = DenyDailyBudget \/ Budget.Reason refusal = DenyMonthlyBudget).
Proof.
  apply (denial_on_the_wire e1 21 "acme" (mkEstimate 1 1 f64_zero) refusal
           (Reserve e1 21 "acme" (mkEstimate 1 1 f64_zero)).2).
  vm_compute. reflexivity.
Defined.

(** An answer remembered from a stream has no body, and the key of a request
    does not say whether it streams, so the same question asked without
    [stream] is answered 200 with nothing in it. *)
Theorem whole_answer_from_a_stream_is_empty :
  option_map (fun r => (Status r.1.1, rwrites r.1.1))
    (handleChatCompletions after.1.2 outside info (BodyOk ask_whole) no_response)
  = Some (200, [WJSON ""]).
Proof. vm_compute. reflexivity. Qed.

(** The routing envelope takes the last field whose name matches up to case,
    while the body goes upstream as it came: a body can be routed, reserved
    and billed as one model and name another to a provider that reads field
    names exactly. *)
Definition two_models : string := quoted "{'model':'dear','MODEL':'cheap'}".
Theorem envelope_model_is_not_the_forwarded_one :
  Unmarshal dec_envelope two_models (mkChatEnvelope "" false) = Some (mkChatEnvelope "cheap" false) /\
  obj_get "model" (LookupExample.fields_of two_models) = Some (JStr "dear").
Proof. vm_compute. split; reflexivity. Qed.
End HandlersExample.
