(* ===== verification/Config.v ===== *)
(** * Configuration (internal/config/types.go, config.go)

    The decoded file, the expansion of its secrets, its defaults and its
    validation, problem by problem and in the order they are reported.  What
    the operating system and the net and net/url packages answer is given:
    the environment, which hosts are loopback addresses, which base URLs parse
    with a host and an http scheme. *)

From Stdlib Require Import ZArith Lia String Ascii.
From stdpp Require Import base gmap strings list numbers.
From S2P Require Import Prelude Float64 GoString Json.

Local Open Scope Z_scope.

(** ** Data *)

Inductive ProviderKind :=
| KindGroq | KindOpenAICompat | KindOpenAI | KindCerebras | KindMistral | KindOpenRouter
| KindGemini | KindAnthropic | KindOther (s : string).

#[export] Instance ProviderKind_eq_dec : EqDecision ProviderKind.
Proof. solve_decision. Defined.

Definition AllKinds : list ProviderKind :=
  [KindGroq; KindOpenAICompat; KindOpenAI; KindCerebras; KindMistral; KindOpenRouter;
   KindGemini; KindAnthropic].

Record ServerConfig := mkServerConfig {
  Listen : string; ReadTimeoutMS : Z; UpstreamTimeoutMS : Z; StreamIdleTimeoutMS : Z;
  AdminListen : string; MaxInflight : Z
}.

Record TenantLimits := mkTenantLimits {
  RequestsPerMinute : Z; TokensPerMinute : Z; DailyUSD : f64; MonthlyUSD : f64; FailClosed : bool
}.
Record TenantConfig := mkTenantConfig { TName : string; TKeys : list string; TLimits : TenantLimits }.
Record AuthConfig := mkAuthConfig { ClientKeys : list string; Tenants : list TenantConfig }.

Record AccountingConfig := mkAccountingConfig { LedgerPath : string; StorePath : string }.

Record SemanticCacheConfig := mkSemanticConfig {
  SemEnabled : bool; SemThreshold : f64; EmbedModel : string; EmbedAPIKey : string;
  EmbedURL : string; MaxPerTenant : Z
}.
Record CacheConfig := mkCacheConfig {
  CacheEnabled : bool; MaxEntries : Z; TTLSeconds : Z; MaxTemperature : f64;
  SemanticC : SemanticCacheConfig
}.

Record ProviderConfig := mkProviderConfig {
  PName : string; PKind : ProviderKind; BaseURL : string; APIKey : string;
  PModels : list string; StreamUsage : option bool
}.
Record RouteConfig := mkRouteConfig {
  RModel : string; RProvider : string; RProviders : list string; RStrategy : string;
  ProviderModels : gmap string string
}.
Record RouterConfig := mkRouterConfig {
  MaxAttempts : Z; RetryBaseDelayMS : Z; MaxRetryDelayMS : Z; BreakerThreshold : Z;
  BreakerCooldownSeconds : Z
}.
Record TelemetryConfig := mkTelemetryConfig {
  ServiceName : string; OTLPEndpoint : string; LogLevel : string
}.

Record Config := mkConfig {
  CServer : ServerConfig; CAuth : AuthConfig; CAccounting : AccountingConfig;
  CCache : CacheConfig; CProviders : list ProviderConfig; CRoutes : list RouteConfig;
  CRouter : RouterConfig; CTelemetry : TelemetryConfig
}.

Definition DefaultListen : string := "127.0.0.1:8080".
Definition DefaultReadTimeoutMS : Z := 30000.
Definition DefaultUpstreamTimeoutMS : Z := 120000.
Definition DefaultStreamIdleTimeoutMS : Z := 60000.
Definition DefaultServiceName : string := "penstock".
Definition DefaultLogLevel : string := "info".
Definition DefaultAdminListen : string := "127.0.0.1:9090".
Definition DefaultMaxInflight : Z := 256.
Definition MaxTimeoutMS : Z := 3600000.
Definition MinClientKeyLength : Z := 16.
Definition MaxRouterAttempts : Z := 10.
Definition MaxBreakerCooldownSeconds : Z := 3600.
Definition MinSemanticThreshold : f64 := f64_ratio 95 100.
Definition AllStrategies : list string := ["priority"; "least_latency"; "round_robin"].

(** ** Reading it *)

(** The first tenant, in file order, that lists the key. *)
Fixpoint tenant_for_key (ts : list TenantConfig) (key : string) : option (string * TenantLimits) :=
  match ts with
  | [] => None
  | t :: ts => if bool_decide (key ∈ TKeys t) then Some (TName t, TLimits t)
               else tenant_for_key ts key
  end.
Definition TenantForKey (c : Config) (key : string) : option (string * TenantLimits) :=
  if bool_decide (key = ""%string) then None else tenant_for_key (Tenants (CAuth c)) key.

Definition UpstreamModel (r : RouteConfig) (provider : string) : string :=
  match ProviderModels r !! provider with
  | Some m => if bool_decide (m = ""%string) then RModel r else m
  | None => RModel r
  end.

Definition Chain (r : RouteConfig) : list string :=
  match RProviders r with
  | [] => if bool_decide (RProvider r = ""%string) then [] else [RProvider r]
  | l => l
  end.

(** ** Secrets *)

Definition ident_start (c : ascii) : bool :=
  Json.within 65 90 c || Json.within 97 122 c || Ascii.eqb c "_"%char.
Definition ident_char (c : ascii) : bool := ident_start c || Json.within 48 57 c.

Fixpoint take_ident (s : string) : string * string :=
  match s with
  | String c t => if ident_char c then let '(i, r) := take_ident t in (String c i, r) else ("", s)
  | "" => ("", "")
  end%string.

(** A reference at the start of [s]: the variable and what follows it. *)
Definition env_ref (s : string) : option (string * string) :=
  match s with
  | String d (String b (String c t)) =>
      if Ascii.eqb d "$"%char && Ascii.eqb b "{"%char && ident_start c then
        let '(i, r) := take_ident t in
        match r with
        | String e r => if Ascii.eqb e "}"%char then Some (String c i, r) else None
        | "" => None
        end
      else None
  | _ => None
  end%string.

Section Secrets.
Context (LookupEnv : string -> option string).

(** The text with its references replaced, and the variables that are missing
    or empty, whose references stay as they are. *)
Fixpoint expand_refs (fuel : nat) (s : string) : string * list string :=
  match fuel with
  | O => (s, [])
  | S fuel =>
      match s with
      | "" => ("", [])
      | String c t =>
          match env_ref s with
          | Some (name, r) =>
              let '(out, errs) := expand_refs fuel r in
              match LookupEnv name with
              | Some v =>
                  if bool_decide (v = ""%string)
                  then ("${" +:+ name +:+ "}" +:+ out, name :: errs)
                  else (v +:+ out, errs)
              | None => ("${" +:+ name +:+ "}" +:+ out, name :: errs)
              end
          | None => let '(out, errs) := expand_refs fuel t in (String c out, errs)
          end
      end
  end%string.

Definition expandEnvRefs (s : string) : string * list string := expand_refs (String.length s) s.

(** Every key of a list, with what each is missing. *)
Fixpoint expand_all (keys : list string) : list string * list string :=
  match keys with
  | [] => ([], [])
  | k :: keys =>
      let '(k, e) := expandEnvRefs k in
      let '(ks, es) := expand_all keys in
      (k :: ks, e ++ es)
  end.

Fixpoint expand_tenants (ts : list TenantConfig) : list TenantConfig * list string :=
  match ts with
  | [] => ([], [])
  | t :: ts =>
      let '(ks, e) := expand_all (TKeys t) in
      let '(ts, es) := expand_tenants ts in
      (mkTenantConfig (TName t) ks (TLimits t) :: ts, e ++ es)
  end.

Fixpoint expand_providers (ps : list ProviderConfig) : list ProviderConfig * list string :=
  match ps with
  | [] => ([], [])
  | p :: ps =>
      let '(k, e) := expandEnvRefs (APIKey p) in
      let '(ps, es) := expand_providers ps in
      (mkProviderConfig (PName p) (PKind p) (BaseURL p) k (PModels p) (StreamUsage p) :: ps, e ++ es)
  end.

(** [expandSecrets]: the four groups, in the order their errors are joined. *)
Definition expandSecrets (c : Config) : Config * list string :=
  let '(ps, e1) := expand_providers (CProviders c) in
  let '(cks, e2) := expand_all (ClientKeys (CAuth c)) in
  let '(ts, e3) := expand_tenants (Tenants (CAuth c)) in
  let sem := SemanticC (CCache c) in
  let '(ek, e4) := expandEnvRefs (EmbedAPIKey sem) in
  (mkConfig (CServer c) (mkAuthConfig cks ts) (CAccounting c)
     (mkCacheConfig (CacheEnabled (CCache c)) (MaxEntries (CCache c)) (TTLSeconds (CCache c))
        (MaxTemperature (CCache c))
        (mkSemanticConfig (SemEnabled sem) (SemThreshold sem) (EmbedModel sem) ek (EmbedURL sem)
           (MaxPerTenant sem)))
     ps (CRoutes c) (CRouter c) (CTelemetry c),
   e1 ++ e2 ++ e3 ++ e4).
End Secrets.

(** ** Defaults *)

Definition or_default (s d : string) : string := if bool_decide (s = ""%string) then d else s.
Definition or_default_Z (n d : Z) : Z := if n =? 0 then d else n.

Definition applyDefaults (c : Config) : Config :=
  let s := CServer c in
  let t := CTelemetry c in
  mkConfig
    (mkServerConfig (or_default (Listen s) DefaultListen)
       (or_default_Z (ReadTimeoutMS s) DefaultReadTimeoutMS)
       (or_default_Z (UpstreamTimeoutMS s) DefaultUpstreamTimeoutMS)
       (or_default_Z (StreamIdleTimeoutMS s) DefaultStreamIdleTimeoutMS)
       (or_default (AdminListen s) DefaultAdminListen)
       (or_default_Z (MaxInflight s) DefaultMaxInflight))
    (CAuth c) (CAccounting c) (CCache c) (CProviders c) (CRoutes c) (CRouter c)
    (mkTelemetryConfig (or_default (ServiceName t) DefaultServiceName) (OTLPEndpoint t)
       (or_default (LogLevel t) DefaultLogLevel)).

(** ** Validation *)

(** One constructor per message; the labels it would print are its arguments. *)
Inductive config_error :=
| ENegativeTimeout (field : string) | ETimeoutTooLarge (field : string) | ENegativeInflight
| ENegativeRouter (field : string) | ETooManyAttempts | ECooldownTooLong | EBaseAboveCap
| ESharedPath
| ENegativeCache (field : string) | ENoEmbedKey | EBadThreshold
| EOpenGateway | EWeakClientKey (i : nat)
| ENoTenantName (i : nat) | EDuplicateTenant (name : string) | EBadTenantName (name : string)
| ENoTenantKeys (i : nat) | EWeakTenantKey (i j : nat) | EKeyIsClientKey (i j : nat)
| EKeyTaken (i j : nat) (owner : string) | ENegativeLimit (i : nat) (field : string)
| EClientKeysAndTenants
| ENoProviders | ENoProviderName (i : nat) | EDuplicateProvider (name : string)
| EUnknownKind (i : nat) | ENoBaseURL (i : nat) | EBadBaseURL (i : nat) | ENoAPIKey (i : nat)
| ENoRoutes | ENoRouteModel (i : nat) | EDuplicateRoute (model : string) | EBothSpellings (i : nat)
| ENoChain (i : nat) | ETwiceInChain (i : nat) (name : string) | EUndeclared (i : nat) (name : string)
| EModelNotListed (i : nat) (name : string) | EBadStrategy (i : nat)
| EStrayRename (i : nat) (name : string)
| EBadLogLevel.

Abbreviation errs := (list config_error) (only parsing).

Definition report (b : bool) (e : config_error) : errs := if b then [e] else [].

Section Validation.
Context (ip_is_loopback : string -> bool) (url_ok : string -> bool).

(** [net.SplitHostPort] on the forms a listen address takes: [host:port] with
    no other colon, or [[host]:port]. *)
Definition SplitHost (addr : string) : option string :=
  match addr with
  | String c t =>
      if Ascii.eqb c "["%char then
        let '(host, rest, found) := Cut t "]"%char in
        match rest with
        | String d port =>
            if found && Ascii.eqb d ":"%char
               && negb (contains_byte port ":"%char || contains_byte t "["%char
                        || contains_byte port "]"%char)
            then Some host else None
        | "" => None
        end
      else
        let '(host, port, found) := Cut addr ":"%char in
        if found && negb (contains_byte port ":"%char || contains_byte addr "["%char
                          || contains_byte addr "]"%char)
        then Some host else None
  | "" => None
  end%string.

Definition isLoopbackListen (addr : string) : bool :=
  match SplitHost addr with
  | None => false
  | Some host => bool_decide (host = "localhost"%string) || ip_is_loopback host
  end.

Definition validateServer (s : ServerConfig) : errs :=
  let timeout (name : string) (v : Z) :=
    if v <? 0 then [ENegativeTimeout name] else report (MaxTimeoutMS <? v) (ETimeoutTooLarge name) in
  timeout "read_timeout_ms"%string (ReadTimeoutMS s)
  ++ timeout "upstream_timeout_ms"%string (UpstreamTimeoutMS s)
  ++ timeout "stream_idle_timeout_ms"%string (StreamIdleTimeoutMS s)
  ++ report (MaxInflight s <? 0) ENegativeInflight.

Definition validateRouter (r : RouterConfig) : errs :=
  let field (name : string) (v : Z) := report (v <? 0) (ENegativeRouter name) in
  field "max_attempts"%string (MaxAttempts r)
  ++ field "retry_base_delay_ms"%string (RetryBaseDelayMS r)
  ++ field "max_retry_delay_ms"%string (MaxRetryDelayMS r)
  ++ field "breaker_threshold"%string (BreakerThreshold r)
  ++ field "breaker_cooldown_seconds"%string (BreakerCooldownSeconds r)
  ++ report (MaxRouterAttempts <? MaxAttempts r) ETooManyAttempts
  ++ report (MaxBreakerCooldownSeconds <? BreakerCooldownSeconds r) ECooldownTooLong
  ++ report ((0 <? RetryBaseDelayMS r) && (0 <? MaxRetryDelayMS r)
             && (MaxRetryDelayMS r <? RetryBaseDelayMS r)) EBaseAboveCap.

Definition validateAccounting (a : AccountingConfig) : errs :=
  report (negb (bool_decide (StorePath a = ""%string)) && bool_decide (StorePath a = LedgerPath a))
    ESharedPath.

Definition validateCache (c : CacheConfig) : errs :=
  if negb (CacheEnabled c) then []
  else
    report (MaxEntries c <? 0) (ENegativeCache "max_entries")
    ++ report (TTLSeconds c <? 0) (ENegativeCache "ttl_seconds")
    ++ report (f64_ltb (MaxTemperature c) f64_zero) (ENegativeCache "max_temperature")
    ++ (let sem := SemanticC c in
        if negb (SemEnabled sem) then []
        else
          report (bool_decide (EmbedAPIKey sem = ""%string)) ENoEmbedKey
          ++ report (negb (f64_eqb (SemThreshold sem) f64_zero)
                     && (f64_ltb (SemThreshold sem) MinSemanticThreshold
                         || f64_ltb (f64_of_Z 1) (SemThreshold sem))) EBadThreshold
          ++ report (MaxPerTenant sem <? 0) (ENegativeCache "max_per_tenant")).

Definition hasKeys (a : AuthConfig) : bool :=
  negb (length (ClientKeys a) =? 0)%nat
  || existsb (fun t => negb (length (TKeys t) =? 0)%nat) (Tenants a).

(** [tenantNamePattern]. *)
Fixpoint name_chars (s : string) : bool :=
  match s with
  | "" => true
  | String c t => (ident_char c || Ascii.eqb c "-"%char) && name_chars t
  end%string.
Definition label_safe (s : string) : bool := negb (bool_decide (s = ""%string)) && name_chars s.

Definition str_Z (s : string) : Z := Z.of_nat (String.length s).

Fixpoint client_key_errs (i : nat) (keys : list string) : errs :=
  match keys with
  | [] => []
  | k :: keys => report (str_Z k <? MinClientKeyLength) (EWeakClientKey i) ++ client_key_errs (S i) keys
  end.

(** The keys of tenant [i], against the client keys and the owners so far. *)
Fixpoint tenant_key_errs (i j : nat) (name : string) (client : list string) (keys : list string)
    (owner : gmap string string) : errs * gmap string string :=
  match keys with
  | [] => ([], owner)
  | k :: keys =>
      let weak := report (str_Z k <? MinClientKeyLength) (EWeakTenantKey i j) in
      let '(clash, owner) :=
        if bool_decide (k ∈ client) then ([EKeyIsClientKey i j], owner)
        else match owner !! k with
             | Some o => ([EKeyTaken i j o], owner)
             | None => ([], <[k := name]> owner)
             end in
      let '(rest, owner) := tenant_key_errs i (S j) name client keys owner in
      (weak ++ clash ++ rest, owner)
  end.

Definition name_errs (i : nat) (name : string) (names : list string) : errs :=
  if bool_decide (name = ""%string) then [ENoTenantName i]
  else if bool_decide (name ∈ names) then [EDuplicateTenant name]
  else report (negb (label_safe name)) (EBadTenantName name).

Definition limit_errs (i : nat) (l : TenantLimits) : errs :=
  report (f64_ltb (f64_of_Z (RequestsPerMinute l)) f64_zero) (ENegativeLimit i "requests_per_minute")
  ++ report (f64_ltb (f64_of_Z (TokensPerMinute l)) f64_zero) (ENegativeLimit i "tokens_per_minute")
  ++ report (f64_ltb (DailyUSD l) f64_zero) (ENegativeLimit i "daily_usd")
  ++ report (f64_ltb (MonthlyUSD l) f64_zero) (ENegativeLimit i "monthly_usd").

Fixpoint tenant_errs (i : nat) (client : list string) (ts : list TenantConfig)
    (names : list string) (owner : gmap string string) : errs :=
  match ts with
  | [] => []
  | t :: ts =>
      let '(kerrs, owner') := tenant_key_errs i 0 (TName t) client (TKeys t) owner in
      name_errs i (TName t) names
      ++ report (length (TKeys t) =? 0)%nat (ENoTenantKeys i)
      ++ kerrs ++ limit_errs i (TLimits t)
      ++ tenant_errs (S i) client ts (TName t :: names) owner'
  end.

Definition validateAuth (a : AuthConfig) (s : ServerConfig) : errs :=
  report (negb (hasKeys a) && negb (isLoopbackListen (Listen s))) EOpenGateway
  ++ client_key_errs 0 (ClientKeys a)
  ++ tenant_errs 0 (ClientKeys a) (Tenants a) [] ∅
  ++ report (negb (length (ClientKeys a) =? 0)%nat && negb (length (Tenants a) =? 0)%nat)
       EClientKeysAndTenants.

(** The declared names, and the allowlists of those that have one. *)
Definition provider_errs (i : nat) (p : ProviderConfig) (names : list string) : errs :=
  (if bool_decide (PName p = ""%string) then [ENoProviderName i]
   else report (bool_decide (PName p ∈ names)) (EDuplicateProvider (PName p)))
  ++ report (negb (bool_decide (PKind p ∈ AllKinds))) (EUnknownKind i)
  ++ (if bool_decide (BaseURL p = ""%string) then [ENoBaseURL i]
      else report (negb (url_ok (BaseURL p))) (EBadBaseURL i))
  ++ report (bool_decide (APIKey p = ""%string)) (ENoAPIKey i).

Fixpoint validateProviders (i : nat) (ps : list ProviderConfig) (names : list string)
    (models : gmap string (list string)) : errs * (list string * gmap string (list string)) :=
  match ps with
  | [] => ([], (names, models))
  | p :: ps =>
      let models' := match PModels p with [] => models | ms => <[PName p := ms]> models end in
      let '(rest, r) := validateProviders (S i) ps (PName p :: names) models' in
      (provider_errs i p names ++ rest, r)
  end.

Fixpoint chain_errs (i : nat) (r : RouteConfig) (chain seen declared : list string)
    (models : gmap string (list string)) : errs :=
  match chain with
  | [] => []
  | name :: chain =>
      (if bool_decide (name ∈ seen) then [ETwiceInChain i name]
       else if negb (bool_decide (name ∈ declared)) then [EUndeclared i name]
       else match models !! name with
            | Some ms => report (negb (bool_decide (UpstreamModel r name ∈ ms))) (EModelNotListed i name)
            | None => []
            end)
      ++ chain_errs i r chain (name :: seen) declared models
  end.

Definition route_errs (i : nat) (r : RouteConfig) (seen_models declared : list string)
    (models : gmap string (list string)) : errs :=
  (if bool_decide (RModel r = ""%string) then [ENoRouteModel i]
   else report (bool_decide (RModel r ∈ seen_models)) (EDuplicateRoute (RModel r)))
  ++ report (negb (bool_decide (RProvider r = ""%string)) && negb (length (RProviders r) =? 0)%nat)
       (EBothSpellings i)
  ++ report (length (Chain r) =? 0)%nat (ENoChain i)
  ++ chain_errs i r (Chain r) [] declared models
  ++ report (negb (bool_decide (RStrategy r = ""%string)) && negb (bool_decide (RStrategy r ∈ AllStrategies)))
       (EBadStrategy i)
  ++ (EStrayRename i <$>
        base.filter (fun name => name ∉ Chain r) (fst <$> map_to_list (ProviderModels r))).

Fixpoint validateRoutes (i : nat) (rs : list RouteConfig) (seen_models declared : list string)
    (models : gmap string (list string)) : errs :=
  match rs with
  | [] => []
  | r :: rs => route_errs i r seen_models declared models
               ++ validateRoutes (S i) rs (RModel r :: seen_models) declared models
  end.

Definition validateTelemetry (t : TelemetryConfig) : errs :=
  report (negb (bool_decide (LogLevel t ∈ ["debug"; "info"; "warn"; "error"]%string))) EBadLogLevel.

(** [Validate]: every problem, in the order of the checks. *)
Definition Validate (c : Config) : errs :=
  let '(perrs, (declared, models)) := validateProviders 0 (CProviders c) [] ∅ in
  validateServer (CServer c)
  ++ validateRouter (CRouter c)
  ++ validateAccounting (CAccounting c)
  ++ validateCache (CCache c)
  ++ validateAuth (CAuth c) (CServer c)
  ++ (report (length (CProviders c) =? 0)%nat ENoProviders ++ perrs)
  ++ (report (length (CRoutes c) =? 0)%nat ENoRoutes
      ++ validateRoutes 0 (CRoutes c) [] declared models)
  ++ validateTelemetry (CTelemetry c).
End Validation.

(** [Load], once the file is decoded: secrets, defaults, validation. *)
Inductive load_result := Loaded (c : Config) | MissingEnv (vars : list string) | Invalid (es : list config_error).

Definition Load (LookupEnv : string -> option string) (ip_is_loopback url_ok : string -> bool)
    (c : Config) : load_result :=
  match expandSecrets LookupEnv c with
  | (c, []) =>
      let c := applyDefaults c in
      match Validate ip_is_loopback url_ok c with
      | [] => Loaded c
      | es => Invalid es
      end
  | (_, vars) => MissingEnv vars
  end.

(** ** Facts *)

Lemma report_nil b e : report b e = [] -> b = false.
Proof. by destruct b. Qed.

(** Split a list of checks that found nothing. *)
Ltac no_errs :=
  repeat match goal with
  | H : _ ++ _ = [] |- _ => apply app_eq_nil in H; destruct H
  | H : report _ _ = [] |- _ => apply report_nil in H
  | H : _ <$> _ = [] |- _ => apply fmap_nil_inv in H
  end; bool_to_prop.

Lemma validateProviders_spec url_ok i ps names models es declared models' :
  validateProviders url_ok i ps names models = (es, (declared, models')) -> es = [] ->
  NoDup names ->
  declared = rev (PName <$> ps) ++ names /\ NoDup declared /\
  (forall p, p ∈ ps -> PName p <> ""%string /\ PKind p ∈ AllKinds /\ APIKey p <> ""%string /\
     url_ok (BaseURL p) = true /\ (PModels p <> [] -> models' !! PName p = Some (PModels p)) /\
     (PModels p = [] -> models' !! PName p = models !! PName p)) /\
  (forall n, n ∉ PName <$> ps -> models' !! n = models !! n).
Proof.
  revert i names models es. induction ps as [|p ps IH]; intros i names models es E Hes N; simpl in E.
  { injection E as <- <- <-. split_and!; try done. by intros p Hp%not_elem_of_nil. }
  set (m1 := match PModels p with [] => models | _ :: _ => <[PName p := PModels p]> models end) in E.
  assert (Em : match PModels p with [] => models | s :: l => <[PName p := s :: l]> models end = m1)
    by (unfold m1; by destruct (PModels p)).
  rewrite Em in E. clear Em.
  destruct (validateProviders url_ok (S i) ps (PName p :: names) m1) as [rest [d m']] eqn:R.
  injection E as <- <- <-. apply app_eq_nil in Hes as [Hp ->].
  unfold provider_errs in Hp. no_errs.
  assert (Hn : PName p <> ""%string /\ PName p ∉ names).
  { destruct (bool_decide (PName p = ""%string)) eqn:B; [done|]. no_errs. done. }
  destruct Hn as [Hn Hnn].
  assert (Hu : url_ok (BaseURL p) = true) 
    by (destruct (bool_decide (BaseURL p = ""%string)); [done|]; no_errs; done).
  destruct (IH _ _ _ _ R eq_refl) as (I1 & I2 & I3 & I4); [by apply list.NoDup_cons|].
  assert (Hnp : PName p ∉ PName <$> ps).
  { rewrite I1 in I2. apply list.NoDup_app in I2 as (_ & I2 & _). intros Hin.
    apply (I2 (PName p)); [by apply list_elem_of_In, in_rev; rewrite rev_involutive;
      apply list_elem_of_In|left]. }
  split_and!.
  - rewrite I1. simpl. by rewrite <- app_assoc.
  - done.
  - intros q [->|Hq]%elem_of_cons.
    + split_and!; try done.
      * intros Hm. rewrite (I4 _ Hnp). unfold m1. destruct (PModels p); [done|]. apply lookup_insert_eq.
      * intros Hm. rewrite (I4 _ Hnp). unfold m1. by rewrite Hm.
    + destruct (I3 q Hq) as (Q1 & Q2 & Q3 & Q4 & Q5 & Q6). split_and!; try done.
      intros Hm. rewrite (Q6 Hm). unfold m1. destruct (PModels p) eqn:Ep; [done|].
      apply lookup_insert_ne. intros E. apply Hnp. rewrite E. by apply list_elem_of_fmap_2.
  - intros n Hn'. rewrite fmap_cons in Hn'. apply not_elem_of_cons in Hn' as [Hn1 Hn2].
    rewrite (I4 _ Hn2). unfold m1. destruct (PModels p); [done|]. by apply lookup_insert_ne.
Qed.

(** A base URL that is not reported is there. *)
Lemma validateProviders_urls url_ok i ps names models declared models' :
  validateProviders url_ok i ps names models = ([], (declared, models')) ->
  forall p, p ∈ ps -> BaseURL p <> ""%string.
Proof.
  revert i names models. induction ps as [|q ps IH]; intros i names models E p Hp;
    [by apply not_elem_of_nil in Hp|].
  cbn [validateProviders] in E.
  destruct (validateProviders url_ok (S i) ps _ _) as [rest r] eqn:R. injection E as E1 E2.
  apply app_eq_nil in E1 as [Hq ->]. subst r. apply elem_of_cons in Hp as [->|Hp]; [|by eapply IH].
  unfold provider_errs in Hq. no_errs.
  by destruct (bool_decide (BaseURL q = ""%string)) eqn:B; bool_to_prop.
Qed.

Lemma chain_errs_spec i r chain seen declared models :
  chain_errs i r chain seen declared models = [] -> NoDup seen ->
  NoDup (rev chain ++ seen) /\
  forall name, name ∈ chain -> name ∈ declared /\
    forall ms, models !! name = Some ms -> UpstreamModel r name ∈ ms.
Proof.
  revert seen. induction chain as [|n chain IH]; intros seen E N; simpl in E.
  { split; [done|]. by intros n Hn%not_elem_of_nil. }
  apply app_eq_nil in E as [E1 E2].
  destruct (bool_decide (n ∈ seen)) eqn:B1; [done|].
  destruct (bool_decide (n ∈ declared)) eqn:B2; [cbn [negb] in E1|done]. bool_to_prop.
  destruct (IH (n :: seen) E2) as [I1 I2]; [by apply list.NoDup_cons|]. split.
  - simpl. by rewrite <- app_assoc.
  - intros name [->|Hn]%elem_of_cons; [|by apply I2]. split; [done|].
    intros ms Hms. rewrite Hms in E1. no_errs. done.
Qed.

Lemma validateRoutes_spec i rs seen declared models :
  validateRoutes i rs seen declared models = [] -> NoDup seen ->
  NoDup (rev (RModel <$> rs) ++ seen) /\
  forall r, r ∈ rs -> RModel r <> ""%string /\ Chain r <> [] /\ NoDup (Chain r) /\
    (RStrategy r = ""%string \/ RStrategy r ∈ AllStrategies) /\
    (forall name, name ∈ Chain r -> name ∈ declared /\
       forall ms, models !! name = Some ms -> UpstreamModel r name ∈ ms).
Proof.
  revert i seen. induction rs as [|r rs IH]; intros i seen E N; simpl in E.
  { split; [done|]. by intros n Hn%not_elem_of_nil. }
  apply app_eq_nil in E as [E1 E2]. unfold route_errs in E1.
  apply app_eq_nil in E1 as [Em E1]. apply app_eq_nil in E1 as [_ E1].
  apply app_eq_nil in E1 as [Ec E1]. apply app_eq_nil in E1 as [Ech E1].
  apply app_eq_nil in E1 as [Es _].
  destruct (bool_decide (RModel r = ""%string)) eqn:B1; [done|]. no_errs.
  destruct (chain_errs_spec _ _ _ _ _ _ Ech) as [C1 C2]; [constructor|].
  rewrite app_nil_r in C1.
  destruct (IH (S i) (RModel r :: seen) E2) as [I1 I2]; [by apply list.NoDup_cons|]. split.
  - simpl. by rewrite <- app_assoc.
  - intros r' [->|Hr]%elem_of_cons; [|by apply I2]. split_and!; try done.
    + intros E. by rewrite E in Ec.
    + apply NoDup_ListNoDup. rewrite <- (rev_involutive (Chain r)). apply NoDup_rev.
      by apply NoDup_ListNoDup.
    + apply andb_false_iff in Es as [Es|Es]; bool_to_prop; auto.
Qed.

(** Who owns a key, over the tenants read so far. *)
Lemma tenant_key_errs_spec i j name client keys owner es owner' :
  tenant_key_errs i j name client keys owner = (es, owner') -> es = [] ->
  (forall k, k ∈ keys -> k ∉ client /\ owner !! k = None /\ MinClientKeyLength <= str_Z k) /\
  (forall k, owner' !! k = if decide (k ∈ keys) then Some name else owner !! k).
Proof.
  revert j owner es. induction keys as [|k keys IH]; intros j owner es E Hes; simpl in E.
  { injection E as <- <-. split; [by intros k Hk%not_elem_of_nil|]. intros k.
    by rewrite decide_False by apply not_elem_of_nil. }
  destruct (bool_decide (k ∈ client)) eqn:B.
  { destruct (tenant_key_errs i (S j) name client keys owner). injection E as <- <-.
    by destruct (report _ _). }
  destruct (owner !! k) as [o|] eqn:O.
  { destruct (tenant_key_errs i (S j) name client keys owner). injection E as <- <-.
    by destruct (report _ _). }
  destruct (tenant_key_errs i (S j) name client keys (<[k:=name]> owner)) as [rest o'] eqn:R.
  injection E as <- <-. apply app_eq_nil in Hes as [Hw Hr]. simpl in Hr. no_errs.
  destruct (IH _ _ _ R Hr) as [I1 I2]. split.
  - intros x [->|Hx]%elem_of_cons; [done|]. destruct (I1 x Hx) as (X1 & X2 & X3).
    split_and!; try done. by apply lookup_insert_None in X2 as [X2 _].
  - intros x. rewrite I2. destruct (decide (x ∈ keys)).
    + by rewrite decide_True by by right.
    + destruct (decide (x = k)) as [->|Hne].
      * rewrite lookup_insert_eq. by rewrite decide_True by left.
      * rewrite lookup_insert_ne by done. rewrite decide_False; [done|].
        by intros [?|?]%elem_of_cons.
Qed.

Lemma tenant_errs_spec i client ts names owner :
  tenant_errs i client ts names owner = [] -> NoDup names ->
  NoDup (rev (TName <$> ts) ++ names) /\
  (forall t, t ∈ ts -> label_safe (TName t) = true /\ TKeys t <> [] /\
     (forall k, k ∈ TKeys t -> k ∉ client /\ owner !! k = None /\ MinClientKeyLength <= str_Z k) /\
     f64_ltb (DailyUSD (TLimits t)) f64_zero = false /\
     f64_ltb (MonthlyUSD (TLimits t)) f64_zero = false) /\
  (forall a b ta tb k, ts !! a = Some ta -> ts !! b = Some tb -> k ∈ TKeys ta -> k ∈ TKeys tb -> a = b).
Proof.
  revert i names owner. induction ts as [|t ts IH]; intros i names owner E N; simpl in E.
  { split_and!; [done|by intros t Ht%not_elem_of_nil|done]. }
  destruct (tenant_key_errs i 0 (TName t) client (TKeys t) owner) as [kerrs owner'] eqn:K.
  apply app_eq_nil in E as [En E]. apply app_eq_nil in E as [Ek E].
  apply app_eq_nil in E as [Ekk E]. apply app_eq_nil in E as [El E].
  destruct (tenant_key_errs_spec _ _ _ _ _ _ _ _ K Ekk) as [K1 K2].
  unfold name_errs in En. destruct (bool_decide (TName t = ""%string)); [done|].
  destruct (bool_decide (TName t ∈ names)) eqn:B; [done|]. unfold limit_errs in El. no_errs.
  destruct (IH (S i) (TName t :: names) owner' E) as (I1 & I2 & I3); [by apply list.NoDup_cons|].
  assert (Hnew : forall u k, u ∈ ts -> k ∈ TKeys u -> owner !! k = None /\ k ∉ TKeys t).
  { intros u k Hu Hk. destruct (I2 u Hu) as (_ & _ & U & _). destruct (U k Hk) as (_ & U2 & _).
    rewrite K2 in U2. by destruct (decide (k ∈ TKeys t)). }
  split_and!.
  - simpl. by rewrite <- app_assoc.
  - intros u [->|Hu]%elem_of_cons.
    + split_and!; try done. intros Hk. by rewrite Hk in Ek.
    + destruct (I2 u Hu) as (U1 & U2 & U3 & U4). split_and!; try done; [|apply U4..].
      intros k Hk. destruct (U3 k Hk) as (V1 & _ & V3). split_and!; [done| |done].
      by destruct (Hnew u k Hu Hk).
  - intros [|a] [|b] ta tb k Ha Hb Hka Hkb; simpl in Ha, Hb; [done| | |].
    + simplify_eq. apply list_elem_of_lookup_2 in Hb. by destruct (Hnew tb k Hb Hkb).
    + simplify_eq. apply list_elem_of_lookup_2 in Ha. by destruct (Hnew ta k Ha Hka).
    + f_equal. by eapply I3.
Qed.

(** The checks of a configuration that passes. *)
Lemma Validate_nil lo ur c :
  Validate lo ur c = [] ->
  exists declared models,
    validateProviders ur 0 (CProviders c) [] ∅ = ([], (declared, models)) /\
    validateServer (CServer c) = [] /\ validateRouter (CRouter c) = [] /\
    validateAuth lo (CAuth c) (CServer c) = [] /\
    CProviders c <> [] /\ CRoutes c <> [] /\
    validateRoutes 0 (CRoutes c) [] declared models = [].
Proof.
  unfold Validate. destruct (validateProviders ur 0 (CProviders c) [] ∅) as [es [declared models]].
  intros E. no_errs. subst es. exists declared, models. split_and!; try done.
  - by destruct (CProviders c).
  - by destruct (CRoutes c).
Qed.

(** ** Properties *)

(** A configuration that passes validation can be wired: models name
    routes and providers one to one, and every provider of every route's chain
    is declared exactly once, of a kind the gateway can build, with a
    credential and a base URL, appears once in the chain, and is allowed the
    very model that this route will ask it for. *)
Theorem valid_routes_resolve lo ur c r name :
  Validate lo ur c = [] -> r ∈ CRoutes c -> name ∈ Chain r ->
  NoDup (RModel <$> CRoutes c) /\ NoDup (PName <$> CProviders c) /\ NoDup (Chain r) /\
  exists p, p ∈ CProviders c /\ PName p = name /\
    (forall q, q ∈ CProviders c -> PName q = name -> q = p) /\
    PKind p ∈ AllKinds /\ APIKey p <> ""%string /\ ur (BaseURL p) = true /\
    (PModels p = [] \/ UpstreamModel r name ∈ PModels p).
Proof.
  intros V Hr Hn. destruct (Validate_nil _ _ _ V) as (decl & models & Hp & _ & _ & _ & _ & _ & Hrt).
  destruct (validateProviders_spec _ _ _ _ _ _ _ _ Hp eq_refl) as (P1 & P2 & P3 & _); [constructor|].
  destruct (validateRoutes_spec _ _ _ _ _ Hrt) as [R1 R2]; [constructor|].
  rewrite app_nil_r in P1, R1. subst decl.
  assert (Nrev : forall l : list string, NoDup (rev l) -> NoDup l).
  { intros l H. apply NoDup_ListNoDup. rewrite <- (rev_involutive l). apply NoDup_rev.
    by apply NoDup_ListNoDup. }
  apply Nrev in P2, R1. destruct (R2 r Hr) as (_ & _ & C1 & _ & C2). split_and!; try done.
  destruct (C2 name Hn) as [D1 D2].
  apply list_elem_of_In, in_rev, list_elem_of_In, list_elem_of_fmap in D1 as (p & -> & Hin).
  destruct (P3 p Hin) as (_ & K & A & U & M & _). exists p. split_and!; try done.
  - intros q Hq E. apply list_elem_of_lookup in Hq as [i Hi], Hin as [j Hj].
    assert (i = j) as <-; [|congruence].
    eapply (NoDup_lookup _ i j (PName p) P2); rewrite list_lookup_fmap; [by rewrite Hi; simpl; rewrite E|].
    by rewrite Hj.
  - destruct (PModels p) as [|m ms] eqn:Ep; [by left|]. right. apply D2. by apply M.
Qed.

(** A key speaks for one tenant: in a configuration that passes
    validation, every key of every tenant resolves to that tenant and its
    limits, whatever else the file lists, is long enough to be a secret, is no
    anonymous key, and, where there are tenants, there are no anonymous keys at
    all; tenant names are unique, label-safe and carry no negative cap. *)
Theorem valid_keys_identify lo ur c t key :
  Validate lo ur c = [] -> t ∈ Tenants (CAuth c) -> key ∈ TKeys t ->
  TenantForKey c key = Some (TName t, TLimits t) /\ MinClientKeyLength <= str_Z key /\
  ClientKeys (CAuth c) = [] /\ NoDup (TName <$> Tenants (CAuth c)) /\
  label_safe (TName t) = true /\ f64_ltb (DailyUSD (TLimits t)) f64_zero = false.
Proof.
  intros V Ht Hk. destruct (Validate_nil _ _ _ V) as (decl & models & _ & _ & _ & Ha & _).
  unfold validateAuth in Ha. apply app_eq_nil in Ha as [_ Ha]. apply app_eq_nil in Ha as [_ Ha].
  apply app_eq_nil in Ha as [Ha Hb]. apply report_nil in Hb.
  destruct (tenant_errs_spec _ _ _ _ _ Ha) as (N & T & O); [constructor|]. rewrite app_nil_r in N.
  destruct (T t Ht) as (L & _ & K & D & _). destruct (K key Hk) as (_ & _ & Kl).
  split_and!; try done.
  - unfold TenantForKey. rewrite bool_decide_false.
    2: { intros ->. unfold str_Z, MinClientKeyLength in Kl. simpl in Kl. lia. }
    clear -Ht Hk O. apply list_elem_of_lookup in Ht as [i Hi].
    revert i Hi O. generalize (Tenants (CAuth c)). intros ts.
    induction ts as [|u ts IH]; intros i Hi O; [done|]. simpl. case_bool_decide as B.
    + assert (i = 0)%nat as -> by by apply (O i 0%nat t u key). simpl in Hi. by simplify_eq.
    + destruct i as [|i]; [simpl in Hi; by simplify_eq|]. apply (IH i Hi).
      intros a b ta tb k Ha Hb Hka Hkb. pose proof (O (S a) (S b) ta tb k Ha Hb Hka Hkb). lia.
  - destruct (ClientKeys (CAuth c)); [done|]. destruct (Tenants (CAuth c)); [|done].
    by apply not_elem_of_nil in Ht.
  - apply NoDup_ListNoDup. rewrite <- (rev_involutive (TName <$> Tenants (CAuth c))). apply NoDup_rev.
    by apply NoDup_ListNoDup.
Qed.

(** (C22) What [Load] returns is usable as it stands: every deadline is positive
    and at most an hour, the limiter has a positive number of slots, filling in
    the defaults again changes nothing, and a gateway that asks nobody for a
    key listens on loopback only. *)
Theorem loaded_is_bounded LookupEnv lo ur c0 c :
  Load LookupEnv lo ur c0 = Loaded c ->
  let s := CServer c in
  (0 < ReadTimeoutMS s <= MaxTimeoutMS) /\ (0 < UpstreamTimeoutMS s <= MaxTimeoutMS) /\
  (0 < StreamIdleTimeoutMS s <= MaxTimeoutMS) /\ 0 < MaxInflight s /\
  MaxAttempts (CRouter c) <= MaxRouterAttempts /\
  applyDefaults c = c /\
  (hasKeys (CAuth c) = false -> isLoopbackListen lo (Listen s) = true).
Proof.
  unfold Load. destruct (expandSecrets LookupEnv c0) as [c1 [|v vars]]; [|done].
  destruct (Validate lo ur (applyDefaults c1)) eqn:V; [|done]. intros [= <-].
  destruct (Validate_nil _ _ _ V) as (decl & models & _ & Hs & Hr & Ha & _).
  assert (OZ : forall n d, 0 < d -> or_default_Z n d <> 0 /\ or_default_Z (or_default_Z n d) d = or_default_Z n d).
  { intros n d Hd. unfold or_default_Z. destruct (n =? 0) eqn:E; bool_to_prop.
    - split; [lia|]. by destruct (d =? 0).
    - split; [done|]. by destruct (n =? 0) eqn:E2; bool_to_prop. }
  assert (OS : forall s d, or_default (or_default s d) d = or_default s d).
  { intros s d. unfold or_default. do 2 case_bool_decide; congruence. }
  assert (T : forall (name : string) v d, 0 < d ->
    (if or_default_Z v d <? 0 then [ENegativeTimeout name]
     else report (MaxTimeoutMS <? or_default_Z v d) (ETimeoutTooLarge name)) = [] ->
    0 < or_default_Z v d <= MaxTimeoutMS).
  { intros name v d Hd E. destruct (OZ v d Hd) as [Hz _].
    destruct (or_default_Z v d <? 0) eqn:N; [done|]. no_errs. lia. }
  cbv zeta. unfold validateServer in Hs. no_errs. cbn in *.
  repeat match goal with H : (if or_default_Z ?v ?d <? 0 then _ else _) = [] |- _ =>
    apply T in H; [|done] end.
  unfold validateRouter in Hr. no_errs. unfold validateAuth in Ha. no_errs. cbn in *.
  match goal with |- context [or_default_Z (MaxInflight _) ?d] =>
    destruct (OZ (MaxInflight (CServer c1)) d ltac:(done)) as [Hz _] end.
  split_and!; try done; try lia.
  - unfold applyDefaults; cbn. by rewrite !OS, !(fun n d H => proj2 (OZ n d H)) by done.
  - intros Hk. match goal with H : _ && _ = false |- _ => rewrite Hk in H; simpl in H end. no_errs. done.
Qed.

(** *** Instances *)

Module ConfigExample.
Definition lookup_env (n : string) : option string :=
  if String.eqb n "GROQ_KEY" then Some "gsk-1"%string else None.
Definition loopback (h : string) : bool := String.eqb h "127.0.0.1".
Definition any_url (u : string) : bool := negb (String.eqb u "").

Definition limits (daily : f64) : TenantLimits := mkTenantLimits 60 0 daily (f64_of_Z 100) true.
Definition acme (daily : f64) : TenantConfig :=
  mkTenantConfig "acme" ["acme-key-0123456789"]%string (limits daily).
Definition route : RouteConfig :=
  mkRouteConfig "fast" "" ["groq"; "oai"]%string "round_robin" {["oai" := "gpt-4o-mini"]}%string.
Definition file (daily : f64) : Config :=
  mkConfig (mkServerConfig "" 0 0 0 "" 0) (mkAuthConfig [] [acme daily])
    (mkAccountingConfig "" "") (mkCacheConfig false 0 0 f64_zero (mkSemanticConfig false f64_zero "" "" "" 0))
    [mkProviderConfig "groq" KindGroq "https://g" "${GROQ_KEY}" [] None;
     mkProviderConfig "oai" KindOpenAI "https://o" "sk-${GROQ_KEY}" ["gpt-4o-mini"]%string None]
    [route] (mkRouterConfig 0 0 0 0 0) (mkTelemetryConfig "" "" "").

Definition loaded : Config := applyDefaults (expandSecrets lookup_env (file (f64_of_Z 5))).1.

Lemma valid_routes_resolve_witness :
  NoDup (RModel <$> CRoutes loaded) /\ NoDup (PName <$> CProviders loaded) /\ NoDup (Chain route) /\
  exists p, p ∈ CProviders loaded /\ PName p = "oai"%string /\
    (forall q, q ∈ CProviders loaded -> PName q = "oai"%string -> q = p) /\
    PKind p ∈ AllKinds /\ APIKey p <> ""%string /\ any_url (BaseURL p) = true /\
    (PModels p = [] \/ UpstreamModel route "oai" ∈ PModels p).
Proof.
  apply (valid_routes_resolve loopback any_url loaded route "oai").
  - vm_compute. reflexivity.
  - left.
  - right. left.
Defined.

Lemma valid_keys_identify_witness :
  TenantForKey loaded "acme-key-0123456789" = Some ("acme"%string, limits (f64_of_Z 5)) /\
  MinClientKeyLength <= str_Z "acme-key-0123456789" /\
  ClientKeys (CAuth loaded) = [] /\ NoDup (TName <$> Tenants (CAuth loaded)) /\
  label_safe "acme" = true /\ f64_ltb (f64_of_Z 5) f64_zero = false.
Proof.
  apply (valid_keys_identify loopback any_url loaded (acme (f64_of_Z 5)) "acme-key-0123456789").
  - vm_compute. reflexivity.
  - left.
  - left.
Defined.

Lemma loaded_is_bounded_witness :
  let s := CServer loaded in
  (0 < ReadTimeoutMS s <= MaxTimeoutMS) /\ (0 < UpstreamTimeoutMS s <= MaxTimeoutMS) /\
  (0 < StreamIdleTimeoutMS s <= MaxTimeoutMS) /\ 0 < MaxInflight s /\
  MaxAttempts (CRouter loaded) <= MaxRouterAttempts /\
  applyDefaults loaded = loaded /\
  (hasKeys (CAuth loaded) = false -> isLoopbackListen loopback (Listen s) = true).
Proof.
  apply (loaded_is_bounded lookup_env loopback any_url (file (f64_of_Z 5))).
  vm_compute. reflexivity.
Defined.

Example missing_variable :
  expandEnvRefs (fun _ => None) "a${X}b${9}${Y_1}" = ("a${X}b${9}${Y_1}", ["X"; "Y_1"])%string.
Proof. vm_compute. reflexivity. Qed.

(** A cap that is not a number passes the negativity check. *)
Theorem nan_cap_is_accepted :
  Validate loopback any_url
    (applyDefaults (expandSecrets lookup_env (file SpecFloat.S754_nan)).1) = [].
Proof. vm_compute. reflexivity. Qed.
End ConfigExample.
