(* ===== verification/Stream.v ===== *)
(** * The stream readers' common machine (internal/providers/*/stream.go)

    The three adapters read a stream the same way: scan an event, hand it to
    the adapter's translation, and stop at the first error, which every later
    read repeats.  The machine is written once over the adapter's own state and
    translation; [Recv], [Close], [finish] and [recvError] are the methods of
    that name of each adapter's [streamReader].  The lemmas show it to be a
    function of the SSE events of the body. *)

From Stdlib Require Import ZArith Lia String Ascii.
From stdpp Require Import base strings list numbers.
From S2P Require Import Prelude GoString Providers Sse.

Local Open Scope Z_scope.

(** [errors.Is(err, s) || ctx.Err() == s]. *)
Definition ctx_ended (err : goerror) (ctx : option ctxError) (c : ctxError) : bool :=
  errors_Is err (ctx_sentinel c) || bool_decide (ctx = Some c).

(** [transportClass], and the class part of [transportError] and [recvError]. *)
Definition transportClass (ctx : option ctxError) (err : goerror) : ErrorClass :=
  if ctx_ended err ctx DeadlineExceeded then ErrClassTimeout
  else if ctx_ended err ctx Canceled then ErrClassCanceled
  else ErrClassUpstream.

(** What the translation makes of an event. *)
Inductive step (S : Type) :=
| Ignore (s : S)                     (* nothing to hand on, read further *)
| Emits (c : StreamChunk) (s : S)    (* one chunk *)
| Fails (e : goerror)                (* the event is an error *)
| Complete (s : S).                  (* the mark of a whole answer *)
Arguments Ignore {S}. Arguments Emits {S}. Arguments Fails {S}. Arguments Complete {S}.

(** An adapter's wire: its translation, and whether its state has seen the mark. *)
Record wire (S : Type) := mkWire { translate : S -> SSEEvent -> step S; saw : S -> bool }.
Arguments mkWire {S}. Arguments translate {S}. Arguments saw {S}.

(** Around one [Recv]: [ctx.Err()], and whether [Close] was called while it was
    blocked. *)
Record moment := mkMoment { at_ctx : option ctxError; closed_meanwhile : bool }.

Section Reader.
Context {S : Type} (w : wire S).

(** [source] is what the scanner has not read yet. *)
Record streamReader := mkReader {
  rd_provider : string; source : body; closed : bool;
  done : bool; termErr : goerror; local : S
}.

Definition newReader (p : string) (b : body) (s : S) : streamReader :=
  mkReader p b false false (ErrOpaque "") s.

Definition finish (err : goerror) (r : streamReader) : streamReader :=
  mkReader (rd_provider r) (source r) (closed r) true err (local r).
Definition Close (r : streamReader) : streamReader :=
  mkReader (rd_provider r) (source r) true (done r) (termErr r) (local r).
Definition advance (b : body) (r : streamReader) : streamReader :=
  mkReader (rd_provider r) b (closed r) (done r) (termErr r) (local r).
Definition with_local (s : S) (r : streamReader) : streamReader :=
  mkReader (rd_provider r) (source r) (closed r) (done r) (termErr r) s.

Definition recvError (r : streamReader) (m : moment) (err : goerror) : goerror :=
  let failed c text := ErrProvider (rd_provider r) c 0 text (Some err) in
  if errors_Is err IoEOF then
    if saw w (local r) then ErrSentinel IoEOF else ErrSentinel StreamTruncated
  else if errors_Is err SSEEventTooLarge then
    failed ErrClassUpstream ("upstream SSE event exceeds " +:+ Itoa MaxSSEEventBytes +:+ " byte limit")
  else if ctx_ended err (at_ctx m) DeadlineExceeded then failed ErrClassTimeout "stream read timed out"%string
  else if ctx_ended err (at_ctx m) Canceled then failed ErrClassCanceled "stream canceled"%string
  else if closed r || closed_meanwhile m then ErrSentinel StreamTruncated
  else failed ErrClassUpstream "stream read failed"%string.

(** The loop of [Recv]; every event consumes a byte, so the length of the body
    bounds its turns. *)
Fixpoint recv_loop (fuel : nat) (m : moment) (r : streamReader) : (StreamChunk + goerror) * streamReader :=
  match fuel with
  | O => (inr (ErrSentinel StreamTruncated), r)
  | Datatypes.S fuel =>
      match Next (source r) with
      | (inr err, b) =>
          let r := advance b r in
          let e := recvError r m err in
          (inr e, finish e (Close r))
      | (inl ev, b) =>
          let r := advance b r in
          let open := fun r => if closed_meanwhile m then Close r else r in
          if EvKeepalive ev then (inl (mkChunk "" None true), open r)
          else match translate w (local r) ev with
          | Ignore s => recv_loop fuel m (with_local s r)
          | Emits c s => (inl c, open (with_local s r))
          | Fails e => (inr e, finish e (Close r))
          | Complete s => (inr (ErrSentinel IoEOF), finish (ErrSentinel IoEOF) (Close (with_local s r)))
          end
      end
  end.

Definition Recv (m : moment) (r : streamReader) : (StreamChunk + goerror) * streamReader :=
  if done r then (inr (termErr r), r)
  else if closed r
  then (inr (ErrSentinel StreamTruncated), finish (ErrSentinel StreamTruncated) r)
  else recv_loop (Datatypes.S (length (unread (source r)))) m r.

(** The answers to successive reads. *)
Fixpoint recvs (ms : list moment) (r : streamReader) : list (StreamChunk + goerror) :=
  match ms with
  | [] => []
  | m :: ms => let '(a, r) := Recv m r in a :: recvs ms r
  end.

(** ** A stream as a list of events *)

(** What a read answers where the events stop. *)
Definition ending (p : string) (s : S) (m : moment) (e : goerror) : goerror :=
  recvError (newReader p (mkBody [] e) s) m e.

Fixpoint next_answer (p : string) (m : moment) (s : S) (evs : list SSEEvent) (e : goerror)
    : (StreamChunk + goerror) * S * list SSEEvent :=
  match evs with
  | [] => (inr (ending p s m e), s, [])
  | ev :: evs =>
      if EvKeepalive ev then (inl (mkChunk "" None true), s, evs)
      else match translate w s ev with
      | Ignore s => next_answer p m s evs e
      | Emits c s => (inl c, s, evs)
      | Fails err => (inr err, s, [])
      | Complete s => (inr (ErrSentinel IoEOF), s, [])
      end
  end.

(** The first error is every later answer. *)
Fixpoint answers (p : string) (ms : list moment) (s : S) (evs : list SSEEvent) (e : goerror)
    : list (StreamChunk + goerror) :=
  match ms with
  | [] => []
  | m :: ms =>
      match next_answer p m s evs e with
      | (inl c, s, evs) =>
          inl c :: (if closed_meanwhile m then replicate (length ms) (inr (ErrSentinel StreamTruncated))
                    else answers p ms s evs e)
      | (inr err, _, _) => replicate (Datatypes.S (length ms)) (inr err)
      end
  end.

Lemma recvs_done ms r : done r = true -> recvs ms r = replicate (length ms) (inr (termErr r)).
Proof. intros D. induction ms as [|m ms IH]; [reflexivity|]. cbn. unfold Recv. by rewrite D, IH. Qed.

Lemma recvs_closed ms r :
  done r = false -> closed r = true ->
  recvs ms r = replicate (length ms) (inr (ErrSentinel StreamTruncated)).
Proof.
  intros D C. destruct ms as [|m ms]; [reflexivity|]. cbn. unfold Recv. rewrite D, C.
  by rewrite recvs_done.
Qed.

Lemma events_S k b : events (Datatypes.S k) b =
  match Next b with
  | (inl ev, b) => let '(evs, e) := events k b in (ev :: evs, e)
  | (inr e, _) => ([], e)
  end.
Proof. reflexivity. Qed.

Abbreviation all_events b := (events (Datatypes.S (length (unread b))) b).

(** One read of an open stream against the events of what is left. *)
Lemma recv_loop_spec fuel m p b s :
  (length (unread b) < fuel)%nat ->
  let '(evs, e) := all_events b in
  match recv_loop fuel m (newReader p b s) with
  | (inl c, r) => exists b' s', next_answer p m s evs e = (inl c, s', (all_events b').1) /\
      (all_events b').2 = e /\
      r = if closed_meanwhile m then Close (newReader p b' s') else newReader p b' s'
  | (inr err, r) => (next_answer p m s evs e).1.1 = inr err /\ done r = true /\ termErr r = err
  end.
Proof.
  revert b s. induction fuel as [|fuel IH]; intros b s Hf; [lia|].
  cbn [recv_loop]. cbn [newReader source]. rewrite (events_S _ b).
  destruct (Next b) as [[ev|e] b'] eqn:N; [|cbn; by split_and!].
  pose proof (Next_shorter _ _ _ N) as L. rewrite events_enough by lia.
  destruct (all_events b') as [evs e] eqn:E. cbn [next_answer local advance newReader].
  destruct (EvKeepalive ev); [exists b', s; rewrite E; by split_and!|].
  destruct (translate w s ev) as [s'|c s'|err|s'].
  - specialize (IH b' s' ltac:(lia)). rewrite E in IH.
    change (with_local s' (advance b' (newReader p b s))) with (newReader p b' s').
    destruct (recv_loop fuel m (newReader p b' s')) as [[c|err] r]; exact IH.
  - exists b', s'. rewrite E. by split_and!.
  - by split_and!.
  - by split_and!.
Qed.

Lemma recvs_live ms p b s :
  recvs ms (newReader p b s) = let '(evs, e) := all_events b in answers p ms s evs e.
Proof.
  revert b s. induction ms as [|m ms IH]; intros b s; [by destruct (all_events b)|].
  pose proof (recv_loop_spec (Datatypes.S (length (unread b))) m p b s ltac:(lia)) as Hl.
  cbn [recvs]. unfold Recv. cbn [newReader done closed source].
  change (mkReader p b false false (ErrOpaque "") s) with (newReader p b s).
  destruct (all_events b) as [evs e]. cbn [answers].
  destruct (recv_loop (Datatypes.S (length (unread b))) m (newReader p b s)) as [[c|err] r].
  - destruct Hl as (b' & s' & -> & E & ->). f_equal. specialize (IH b' s').
    destruct (all_events b') as [evs' e']. simpl in E. subst e'.
    destruct (closed_meanwhile m); [by apply recvs_closed|done].
  - destruct Hl as (E & D & <-). destruct (next_answer p m s evs e) as [[a s'] evs']. simpl in E. subst a.
    cbn [replicate]. f_equal. by apply recvs_done.
Qed.

(** ** The mark of a whole answer *)

Lemma ending_not_eof p s m e : saw w s = false -> errors_Is (ending p s m e) IoEOF = false.
Proof.
  intros Hs. unfold ending, recvError, newReader. cbn [local closed]. rewrite Hs.
  destruct (errors_Is e IoEOF) eqn:E; [done|].
  destruct (errors_Is e SSEEventTooLarge); [by cbn|]. destruct (ctx_ended e _ _); [by cbn|].
  destruct (ctx_ended e _ _); [by cbn|]. by destruct (closed_meanwhile m).
Qed.

(** [mark ev]: the event can be what makes an answer whole.  An adapter shows
    that only such events set its flag or complete the stream, and that its own
    errors are never the end of the stream. *)
Class Marked (mark : SSEEvent -> Prop) : Prop := {
  marked_flag : forall s ev s', (translate w s ev = Ignore s' \/ exists c, translate w s ev = Emits c s') ->
    saw w s = false -> saw w s' = true -> mark ev;
  marked_complete : forall s ev s', translate w s ev = Complete s' -> mark ev \/ saw w s = true;
  marked_errors : forall s ev e, translate w s ev = Fails e -> errors_Is e IoEOF = false
}.

Lemma next_answer_mark mark `{!Marked mark} p m s evs e a s' evs' :
  next_answer p m s evs e = (a, s', evs') ->
  (forall ev, ev ∈ evs' -> ev ∈ evs) /\
  (saw w s = false -> saw w s' = true \/ (exists err, a = inr err /\ errors_Is err IoEOF = true) ->
   exists ev, ev ∈ evs /\ EvKeepalive ev = false /\ mark ev).
Proof.
  revert s. induction evs as [|ev evs IH]; cbn; intros s.
  - intros [= <- <- <-]. split; [done|]. intros Hs [?|(err & [= <-] & ?)]; [congruence|].
    rewrite ending_not_eof in * by done. done.
  - destruct (EvKeepalive ev) eqn:K.
    { intros [= <- <- <-]. split; [by right|]. intros Hs [?|(err & [=] & _)]. congruence. }
    destruct (translate w s ev) as [s1|c s1|err|s1] eqn:T.
    + intros E. destruct (IH s1 E) as [I1 I2]. split; [intros x Hx; right; by apply I1|].
      intros Hs Hor. destruct (saw w s1) eqn:Hs1.
      * exists ev. split_and!; [left|done|]. eapply marked_flag; eauto.
      * destruct (I2 eq_refl Hor) as (x & Hx & ?). exists x. by split; [right|].
    + intros [= <- <- <-]. split; [by right|]. intros Hs [Hs1|(err & [=] & _)].
      exists ev. split_and!; [left|done|]. eapply marked_flag; eauto.
    + intros [= <- <- <-]. split; [by intros x ?%not_elem_of_nil|]. intros Hs [?|(err' & [= <-] & He)]; [congruence|].
      by rewrite (marked_errors _ _ _ T) in He.
    + intros [= <- <- <-]. split; [by intros x ?%not_elem_of_nil|]. intros Hs _.
      exists ev. split_and!; [left|done|]. destruct (marked_complete _ _ _ T); [done|congruence].
Qed.

Lemma whole_only_after_mark mark `{!Marked mark} p b s ms e :
  saw w s = false ->
  inr e ∈ recvs ms (newReader p b s) -> errors_Is e IoEOF = true ->
  exists ev, ev ∈ (all_events b).1 /\ EvKeepalive ev = false /\ mark ev.
Proof.
  intros Hs. rewrite recvs_live. destruct (all_events b) as [evs err]. cbn [fst].
  intros Hin He. revert s evs Hs Hin. induction ms as [|m ms IH]; intros s evs Hs Hin;
    [by apply not_elem_of_nil in Hin|].
  cbn [answers] in Hin. destruct (next_answer p m s evs err) as [[[c|e'] s'] evs'] eqn:N;
    destruct (next_answer_mark mark _ _ _ _ _ _ _ _ N) as [N1 N2].
  - apply elem_of_cons in Hin as [Hin|Hin]; [done|]. destruct (closed_meanwhile m).
    + apply elem_of_replicate in Hin as [[= ->] _]. done.
    + destruct (saw w s') eqn:Hs'; [by apply N2; [|left]|].
      destruct (IH _ _ Hs' Hin) as (ev & Hev & ?). exists ev. by split; [apply N1|].
  - apply elem_of_replicate in Hin as [[= ->] _]. apply N2; [done|]. right. eauto.
Qed.

(** ** What chunks say *)

(** An adapter's promise of its chunks: an invariant of its state under which
    every chunk of the translation satisfies [P]. *)
Class Emitting (I : S -> Prop) (P : StreamChunk -> Prop) : Prop := {
  emitting_alive : P (mkChunk "" None true);
  emitting_step : forall s ev, I s ->
    match translate w s ev with
    | Ignore s' => I s'
    | Emits c s' => I s' /\ P c
    | Fails _ | Complete _ => True
    end
}.

Lemma emitting_weaken I (P Q : StreamChunk -> Prop) : Emitting I P -> (forall c, P c -> Q c) -> Emitting I Q.
Proof.
  intros E H. split; [by apply H, (emitting_alive (I := I))|]. intros s ev Hs.
  pose proof (emitting_step (I := I) (P := P) s ev Hs) as X.
  destruct (translate w s ev); [done|destruct X; auto|done|done].
Qed.

Lemma next_answer_emits I P `{!Emitting I P} p m s evs e a s' evs' :
  I s -> next_answer p m s evs e = (inl a, s', evs') -> I s' /\ P a.
Proof.
  revert s. induction evs as [|ev evs IH]; cbn; intros s Hs E; [done|].
  destruct (EvKeepalive ev); [injection E as <- <- <-; split; [done|by apply (emitting_alive (I := I))]|].
  pose proof (emitting_step (I := I) (P := P) s ev Hs) as X.
  destruct (translate w s ev); [by eapply IH|by injection E as <- <- <-|done|done].
Qed.

Lemma every_chunk_emitted I P `{!Emitting I P} p b s ms c :
  I s -> inl c ∈ recvs ms (newReader p b s) -> P c.
Proof.
  rewrite recvs_live. destruct (all_events b) as [evs e]. revert s evs.
  induction ms as [|m ms IH]; intros s evs Hs Hin; [by apply not_elem_of_nil in Hin|].
  cbn [answers] in Hin. destruct (next_answer p m s evs e) as [[[a|err] s'] evs'] eqn:N.
  - destruct (next_answer_emits I P _ _ _ _ _ _ _ _ Hs N) as [Hs' Ha].
    apply elem_of_cons in Hin as [[= ->]|Hin]; [done|]. destruct (closed_meanwhile m).
    + by apply elem_of_replicate in Hin as [? _].
    + by eapply IH.
  - by apply elem_of_replicate in Hin as [? _].
Qed.
End Reader.

Arguments streamReader : clear implicits.
