(* ===== verification/Upstream.v ===== *)
(** * Talking to an upstream (internal/providers/errors.go and the adapters' HTTP code)

    What the three adapters do alike: the request they hand to the HTTP client
    and what it answers, the classes and messages of failures, the bounded
    reading of a body.  A request of the HTTP client and the context's state at
    the moments the code looks at it are given to each operation. *)

From Stdlib Require Import ZArith Lia String Ascii.
From stdpp Require Import base gmap strings list numbers.
From S2P Require Import Prelude GoString Providers Json Sse Stream.

Local Open Scope Z_scope.

(** ** Requests and replies *)

(** [strings.TrimRight(s, "/")]. *)
Fixpoint trim_slashes (s : string) : string :=
  match s with
  | "" => ""
  | String c t =>
      match trim_slashes t with
      | "" => if Ascii.eqb c "/"%char then "" else String c ""
      | t => String c t
      end
  end%string.

Definition maxErrorBody : Z := 2 ^ 13.
Definition maxResponseBytes : Z := 2 ^ 25.

(** [http.CanonicalHeaderKey] on a valid header name. *)
Fixpoint canonical_from (upper : bool) (s : string) : string :=
  match s with
  | "" => ""
  | String c t =>
      String (if upper then upper_ascii c else lower_ascii c) (canonical_from (Ascii.eqb c "-"%char) t)
  end%string.
Definition CanonicalHeaderKey : string -> string := canonical_from true.

Definition Header_Set (k v : string) (h : gmap string string) : gmap string string :=
  <[CanonicalHeaderKey k := v]> h.

Record http_request := mkHttpRequest { url : string; header : gmap string string; sent : string }.

(** What the HTTP client answers: the URL does not make a request, the call
    fails, or a response comes back; with [ctx.Err()] where it is consulted. *)
Inductive http_outcome :=
| Unbuildable (e : goerror)
| Undelivered (e : goerror) (ctx : option ctxError)
| Response (status : Z) (b : body) (ctx : option ctxError).

(** ** Failures *)

Definition transportError (name : string) (ctx : option ctxError) (op : string) (err : goerror) : goerror :=
  ErrProvider name (transportClass ctx err) 0 (op +:+ " failed") (Some (ErrWrap op err)).

(** The error envelope of a failure body, decoded in two ways. *)
Definition dec_message_only : decoder string := dec_struct [("message", at_field id (fun v _ => v) dec_string)]%string.
Definition dec_error_text : decoder string := dec_struct [("error", at_field id (fun v _ => v) dec_message_only)]%string.
Definition dec_error_ptr : decoder (option string) :=
  dec_struct [("error", at_field id (fun v _ => v) (dec_ptr ""%string dec_message_only))]%string.

Definition looksLikeErrorEnvelope (b : string) : bool :=
  match Unmarshal dec_error_ptr b None with Some (Some _) => true | _ => false end.

Definition ClassFromStatusAndBody (code : Z) (b : string) : ErrorClass :=
  if (code =? 404) && negb (looksLikeErrorEnvelope b) then ErrClassUpstream else ClassFromStatus code.

Definition upstreamErrorMessage (b : string) (status : Z) : string :=
  let raw := if bool_decide (TrimSpace b = ""%string)
             then "upstream returned status " +:+ Itoa status else TrimSpace b in
  match Unmarshal dec_error_text b ""%string with
  | Some m => if bool_decide (m = ""%string) then raw else m
  | None => raw
  end.

(** [io.ReadAll(io.LimitReader(b, n))]: the end of the body is no error. *)
Definition body_error (e : goerror) : option goerror :=
  match e with ErrSentinel IoEOF => None | e => Some e end.

Definition read_limited (n : Z) (b : body) : string * option goerror :=
  if n <=? Z.of_nat (length (unread b)) then (str (take (Z.to_nat n) (unread b)), None)
  else (str (unread b), body_error (ends_with b)).

(** A reply that is a success: its text, or why there is none. *)
Definition read_answer (name : string) (ctx : option ctxError) (b : body) : string + goerror :=
  let '(text, err) := read_limited (maxResponseBytes + 1) b in
  match err with
  | Some e => inr (transportError name ctx "read upstream response" e)
  | None =>
      if maxResponseBytes <? Z.of_nat (String.length text)
      then inr (ErrProvider name ErrClassUpstream 0
                  ("upstream response exceeds " +:+ Itoa maxResponseBytes +:+ " byte limit") None)
      else inl text
  end.

(** [client.Do], with its request: the reply, or why there is none. *)
Definition exchange (name : string) (o : http_outcome) : Z * body * option ctxError + goerror :=
  match o with
  | Response status b ctx => inl (status, b, ctx)
  | Unbuildable e => inr (ErrProvider name ErrClassInternal 0 "build upstream request"
                            (Some (ErrWrap "build upstream request" e)))
  | Undelivered e ctx => inr (transportError name ctx "call upstream" e)
  end.

(** ** Facts *)

Lemma ends_cases (e : goerror) :
  e = ErrSentinel IoEOF \/ (e <> ErrSentinel IoEOF /\ body_error e = Some e).
Proof. destruct e as [[]| | |]; auto. Qed.

(** One byte more than [limit] is what tells a body that is too long. *)
Lemma read_limited_spec limit b : 0 <= limit ->
  if limit <? Z.of_nat (length (unread b))
  then exists text, read_limited (limit + 1) b = (text, None) /\ Z.of_nat (String.length text) = limit + 1
  else read_limited (limit + 1) b = (str (unread b), body_error (ends_with b)).
Proof.
  intros L. unfold read_limited. destruct (Z.ltb_spec limit (Z.of_nat (length (unread b)))) as [O|O].
  - rewrite (proj2 (Z.leb_le _ _)) by lia. eexists. split; [reflexivity|].
    rewrite str_length, length_take. lia.
  - by rewrite (proj2 (Z.leb_gt _ _)) by lia.
Qed.

(** The whole body within the limit, or an error of this provider. *)
Lemma read_answer_spec name ctx b :
  match read_answer name ctx b with
  | inl text => text = str (unread b) /\ Z.of_nat (length (unread b)) <= maxResponseBytes /\
      ends_with b = ErrSentinel IoEOF
  | inr e => (exists m cause, e = ErrProvider name
        (if maxResponseBytes <? Z.of_nat (length (unread b)) then ErrClassUpstream
         else transportClass ctx (ends_with b)) 0 m cause) /\
      (maxResponseBytes < Z.of_nat (length (unread b)) \/ ends_with b <> ErrSentinel IoEOF)
  end.
Proof.
  unfold read_answer. assert (H0 : 0 <= maxResponseBytes) by (by unfold maxResponseBytes).
  revert H0. generalize maxResponseBytes. intros limit H0.
  pose proof (read_limited_spec limit b H0) as R. destruct (Z.ltb_spec limit (Z.of_nat (length (unread b)))) as [L|L].
  - destruct R as (text & -> & N). rewrite N, (proj2 (Z.ltb_lt _ _)) by lia.
    split; [by eexists _, _|]. by left.
  - rewrite R. rewrite str_length. destruct (ends_cases (ends_with b)) as [E|[E ->]].
    + rewrite E. rewrite (proj2 (Z.ltb_ge _ _)) by lia. by split_and!.
    + split; [by eexists _, _|]. by right.
Qed.

(** A text that is not blank stays so when trimmed. *)
Lemma trim_any_keeps fuel s runes c :
  Forall (fun r => contains_byte r c = false) runes ->
  contains_byte (trim_any fuel s runes) c = contains_byte s c.
Proof.
  assert (A : forall a b, contains_byte (a +:+ b) c = contains_byte a c || contains_byte b c).
  { induction a as [|x a IH]; intros b; [done|]. rewrite str_app_cons. simpl. rewrite IH.
    by destruct (Ascii.eqb x c). }
  assert (C : forall s t, cut_any s runes = Some t -> Forall (fun r => contains_byte r c = false) runes ->
            contains_byte t c = contains_byte s c).
  { clear s. intros s t E F. induction F as [|r runes Hr F IH]; [done|]. simpl in E.
    destruct (CutPrefix s r) eqn:P; [|by apply IH].
    apply CutPrefix_Some in P as ->. injection E as ->. by rewrite A, Hr. }
  intros F. revert s. induction fuel as [|fuel IH]; intros s; [done|]. simpl.
  destruct (cut_any s runes) as [t|] eqn:E; [|done]. rewrite IH. by apply C.
Qed.

Lemma contains_rev s c : contains_byte (str_rev s) c = contains_byte s c.
Proof.
  assert (M : forall l, contains_byte (string_of_list_ascii l) c = existsb (fun a => Ascii.eqb a c) l).
  { induction l as [|a l IH]; [done|]. simpl. by rewrite IH. }
  unfold str_rev. rewrite M, <- (string_of_list_ascii_of_string s) at 1.
  rewrite <- (string_of_list_ascii_of_string s) at 2. rewrite M.
  rewrite list_ascii_of_string_of_list_ascii. generalize (list_ascii_of_string s). intros l.
  apply Bool.eq_true_iff_eq. rewrite !existsb_exists. by setoid_rewrite <- in_rev.
Qed.

Lemma TrimSpace_keeps s c :
  Forall (fun r => contains_byte r c = false) space_runes ->
  Forall (fun r => contains_byte r c = false) (str_rev <$> space_runes) ->
  contains_byte (TrimSpace s) c = contains_byte s c.
Proof.
  intros F F'. unfold TrimSpace, TrimRightSpace, TrimLeftSpace.
  by rewrite contains_rev, trim_any_keeps, contains_rev, trim_any_keeps.
Qed.

