(* ===== verification/OpenaiWire.v ===== *)
(** * The OpenAI wire (internal/providers/openaiwire, internal/providers/rewrite.go)

    The adapter every OpenAI-compatible backend shares: what is sent, how an
    HTTP reply becomes an answer or a classed failure, the stream reader over
    the SSE scanner, the request for stream usage, and the wrapper that renames
    the model.  A request of the HTTP client and the context's state at the
    moments the code looks at it are given to each operation. *)

From Stdlib Require Import ZArith Lia String Ascii.
From stdpp Require Import base gmap strings list numbers.
From S2P Require Import Prelude GoString Providers Json Sse Stream Upstream Config.

Local Open Scope Z_scope.

(** ** Profiles (profile.go) *)

Record profile := mkProfile {
  defaultBaseURL : string; headers : list (string * string); streamUsage : bool
}.

Definition openAIBaseURL : string := "https://api.openai.com/v1".
Definition groqBaseURL : string := "https://api.groq.com/openai/v1".
Definition cerebrasBaseURL : string := "https://api.cerebras.ai/v1".
Definition mistralBaseURL : string := "https://api.mistral.ai/v1".
Definition openRouterBaseURL : string := "https://openrouter.ai/api/v1".

Definition attribution : list (string * string) :=
  [("HTTP-Referer", "https://github.com/rajeev-chaurasia/pen-stock"); ("X-Title", "Penstock")]%string.

(** A kind this adapter does not serve has the zero profile. *)
Definition profiles (k : ProviderKind) : option profile :=
  match k with
  | KindOpenAI => Some (mkProfile openAIBaseURL [] true)
  | KindGroq => Some (mkProfile groqBaseURL [] true)
  | KindCerebras => Some (mkProfile cerebrasBaseURL [] true)
  | KindMistral => Some (mkProfile mistralBaseURL [] false)
  | KindOpenRouter => Some (mkProfile openRouterBaseURL attribution true)
  | KindOpenAICompat => Some (mkProfile "" [] false)
  | _ => None
  end.

Record provider := mkProvider {
  name : string; baseURL : string; apiKey : string; prof : profile
}.

Definition newWithProfile (n url key : string) (p : profile) : provider :=
  mkProvider n (trim_slashes url) key p.

(** [None]: the kind has no endpoint to guess and was given none. *)
Definition builderFor (kind : ProviderKind) (cfg : ProviderConfig) : option provider :=
  let p := default (mkProfile "" [] false) (profiles kind) in
  let url := if bool_decide (BaseURL cfg = ""%string) then defaultBaseURL p else BaseURL cfg in
  if bool_decide (url = ""%string) then None
  else
    let effective := match StreamUsage cfg with
                     | Some b => mkProfile (defaultBaseURL p) (headers p) b
                     | None => p
                     end in
    Some (newWithProfile (PName cfg) url (APIKey cfg) effective).

(** ** Requests *)

Definition chatCompletionsPath : string := "/chat/completions".
Definition request_of (p : provider) (raw : string) : http_request :=
  let vendor := foldl (fun h kv => Header_Set kv.1 kv.2 h) ∅ (headers (prof p)) in
  mkHttpRequest (baseURL p +:+ chatCompletionsPath)
    (Header_Set "Authorization" ("Bearer " +:+ apiKey p) (Header_Set "Content-Type" "application/json" vendor))
    raw.

Definition statusError (p : provider) (status : Z) (b : body) : goerror :=
  let text := (read_limited maxErrorBody b).1 in
  ErrProvider (name p) (ClassFromStatusAndBody status text) status (upstreamErrorMessage text status) None.

(** ** Usage *)

Definition dec_usage : decoder Usage := dec_struct
  [("prompt_tokens", at_field PromptTokens (fun v u => mkUsage v (CompletionTokens u) (TotalTokens u)) dec_int);
   ("completion_tokens", at_field CompletionTokens (fun v u => mkUsage (PromptTokens u) v (TotalTokens u)) dec_int);
   ("total_tokens", at_field TotalTokens (fun v u => mkUsage (PromptTokens u) (CompletionTokens u) v) dec_int)]%string.

(** Best effort: what could be decoded stays, whatever the error. *)
Definition answer_usage (text : string) : Usage :=
  match parse text with
  | None => zeroUsage
  | Some _ => (dec_struct [("usage", at_field id (fun v _ => v) dec_usage)]%string text zeroUsage).1
  end.

Definition chunk_usage (text : string) : option Usage :=
  default None (Unmarshal (dec_struct
    [("usage", at_field id (fun v _ => v) (dec_ptr zeroUsage dec_usage))]%string) text None).

(** ** Chat *)

Definition post (p : provider) (do : http_request -> http_outcome) (raw : string)
    : Z * body * option ctxError + goerror := exchange (name p) (do (request_of p raw)).

Definition Chat (p : provider) (do : http_request -> http_outcome) (req : ChatRequest)
    : ChatResponse + goerror :=
  match post p do (ReqRaw req) with
  | inr e => inr e
  | inl (status, b, ctx) =>
      if negb (Is2xx status) then inr (statusError p status b)
      else match read_answer (name p) ctx b with
      | inr e => inr e
      | inl text => inl (mkChatResponse (ReqModel req) (name p) text (answer_usage text))
      end
  end.

(** ** Asking for stream usage (streamusage.go) *)

(** What [Decode(&body)] makes of a text, [body] a [map[string]any] and numbers
    kept as written: the error, the nil map of a [null], or the fields; and the
    text it did not read. *)
Inductive decoded := DecodeError | NilMap (rest : string) | Fields (m : list (string * json)) (rest : string).

Definition decode_map (raw : string) : decoded :=
  match decode_first raw with
  | None => DecodeError
  | Some (j, rest) =>
      match go_any j with JObj m => Fields m rest | JNull => NilMap rest | _ => DecodeError end
  end.

(** [dec.More()]: a closing bracket does not count as more. *)
Definition More (rest : string) : bool :=
  match skip_ws rest with
  | "" => false
  | String c _ => negb (Ascii.eqb c "]"%char || Ascii.eqb c "}"%char)
  end%string.

Definition decodeObject (raw : string) : option (list (string * json)) :=
  match decode_map raw with
  | Fields m rest => if More rest then None else Some m
  | _ => None
  end.

Definition withStreamUsage (raw : string) (p : profile) : string :=
  if negb (streamUsage p) then raw
  else match decodeObject raw with
  | None => raw
  | Some b =>
      match obj_get "stream" b with
      | Some (JBool true) =>
          let patch opts :=
            match obj_get "include_usage" opts with
            | Some _ => raw
            | None => marshal (JObj (obj_put "stream_options"
                                       (JObj (obj_put "include_usage" (JBool true) opts)) b))
            end in
          match obj_get "stream_options" b with
          | Some (JObj opts) => patch opts
          | Some _ => raw
          | None => patch []
          end
      | _ => raw
      end
  end.

(** ** The stream reader (stream.go) *)

Definition sseDoneSentinel : string := "[DONE]".

(** The reader's own state is [sawDone]. *)
Definition openai_event (sawDone : bool) (ev : SSEEvent) : step bool :=
  if negb (HasData ev) then Ignore sawDone
  else if bool_decide (EvData ev = sseDoneSentinel) then Complete true
  else Emits (mkChunk (EvData ev) (chunk_usage (EvData ev)) false) sawDone.

Definition openai_wire : wire bool := mkWire openai_event id.

Definition newStreamReader (p : string) (b : body) : streamReader bool := newReader p b false.

Definition ChatStream (p : provider) (do : http_request -> http_outcome) (req : ChatRequest)
    : streamReader bool + goerror :=
  match post p do (withStreamUsage (ReqRaw req) (prof p)) with
  | inr e => inr e
  | inl (status, b, _) =>
      if negb (Is2xx status) then inr (statusError p status b) else inl (newStreamReader (name p) b)
  end.

(** ** Renaming the model (rewrite.go) *)

Definition modelField : string := "model".

(** Assigning into the nil map of a body that is [null] panics. *)
Inductive set_model := Retargeted (raw : string) | NotRetargeted | NilMapPanic.

Definition setModel (raw model : string) : set_model :=
  if bool_decide (TrimSpace raw = ""%string) then Retargeted raw
  else match decode_map raw with
  | DecodeError => NotRetargeted
  | NilMap _ => NilMapPanic
  | Fields m _ => Retargeted (marshal (JObj (obj_put modelField (JStr model) m)))
  end.

(** The adapter as a [Provider]; its streams name neither provider nor model. *)
Definition adapter (p : provider) (do : http_request -> http_outcome) : Provider (streamReader bool) :=
  mkProviderImpl (name p) (fun req => Some (Chat p do req))
    (fun req => Some match ChatStream p do req with
                     | inl r => inl (r, mkStreamInfo "" "")
                     | inr e => inr e
                     end).

Section Rewriter.
Context {R : Type} (inner : Provider R) (model : string).

(** [rewrite]: the envelope and the raw body; [None] when [setModel] panics. *)
Definition rewrite_request (req : ChatRequest) : option (ChatRequest + goerror) :=
  match setModel (ReqRaw req) model with
  | Retargeted raw => Some (inl (mkRequest model (ReqStream req) raw))
  | NotRetargeted => Some (inr (ErrProvider (provName inner) ErrClassInvalidRequest 0
                                  "request body could not be retargeted at this provider"
                                  (Some (ErrOpaque "decode request body"))))
  | NilMapPanic => None
  end.

Definition rewritten {A} (call : ChatRequest -> option (A + goerror)) (req : ChatRequest)
    : option (A + goerror) :=
  match rewrite_request req with
  | None => None
  | Some (inr e) => Some (inr e)
  | Some (inl req) => call req
  end.

(** A renamed stream names the model and forwards the provider. *)
Definition modelRewriter : Provider R :=
  mkProviderImpl (provName inner) (rewritten (provChat inner))
    (rewritten (fun req =>
       match provStream inner req with
       | Some (inl (r, info)) => Some (inl (r, mkStreamInfo (AnsweringProvider info) model))
       | o => o
       end)).

Definition WithModel : Provider R :=
  if bool_decide (model = ""%string) then inner else modelRewriter.
End Rewriter.

(** ** JSON bodies *)

Lemma decode_map_wf raw m rest : decode_map raw = Fields m rest -> wf_json maxNestingDepth (JObj m).
Proof.
  unfold decode_map, decode_first.
  destruct (value maxNestingDepth (skip_ws raw)) as [[j r]|] eqn:E; [|done].
  apply value_wf in E. unfold well_read in E. destruct (go_any j); try done. by intros [= -> ->].
Qed.

Lemma decode_map_marshal m :
  wf_json maxNestingDepth (JObj m) -> decode_map (marshal (JObj m)) = Fields m "".
Proof.
  intros W. unfold decode_map. rewrite (reads_first _ _ (value_marshal _ _ W)).
  by rewrite (go_any_wf _ _ W).
Qed.

Lemma wf_obj_put d k v m :
  wf_json (S d) (JObj m) -> valid_utf8 k -> wf_json d v -> wf_json (S d) (JObj (obj_put k v m)).
Proof.
  inversion_clear 1 as [| | | | |d' ? Hs Hf]. intros Hk Hv. constructor; [by apply obj_put_sorted|].
  rewrite list.Forall_forall in Hf |- *. intros q [->|Hq]%obj_put_keys; [done|by apply Hf].
Qed.

Lemma wf_obj_get d k v m : wf_json (S d) (JObj m) -> obj_get k m = Some v -> wf_json d v.
Proof.
  inversion_clear 1 as [| | | | |d' ? Hs Hf]. clear Hs.
  induction Hf as [|[k' v'] m [_ Hv] Hf IH]; simpl; [done|].
  destruct (String.eqb k k'); [by intros [= <-]|done].
Qed.

Lemma skip_ws_contains s c : contains_byte (skip_ws s) c = true -> contains_byte s c = true.
Proof.
  induction s as [|a s IH]; [done|]. simpl. destruct (is_ws a); [|done].
  intros H. rewrite IH by done. apply orb_true_r.
Qed.

Lemma value_obj_brace d s ms r : value d s = Some (JObj ms, r) -> exists t, s = String "{" t.
Proof.
  destruct d, s as [|c s]; try done; cbn [value];
    (destruct (Ascii.eqb c dquote); [by destruct (lex_str s) as [[]|]|]);
    (destruct (Ascii.eqb_spec c "{"%char) as [->|_]; [by eexists|]);
    (destruct (Ascii.eqb c "["%char); [try done; by destruct (array_body (value d) s) as [[]|]|]);
    (destruct (Ascii.eqb c "t"%char); [by destruct (CutPrefix _ _)|]);
    (destruct (Ascii.eqb c "f"%char); [by destruct (CutPrefix _ _)|]);
    (destruct (Ascii.eqb c "n"%char); [by destruct (CutPrefix _ _)|]);
    by destruct (lex_number _) as [[]|].
Qed.

(** A body that holds an object is not blank. *)
Lemma fields_not_blank raw m rest : decode_map raw = Fields m rest -> TrimSpace raw <> ""%string.
Proof.
  unfold decode_map, decode_first.
  destruct (value maxNestingDepth (skip_ws raw)) as [[j r]|] eqn:E; [|done].
  destruct j; try done. intros _. apply value_obj_brace in E as [t Et]. intros T.
  assert (C : contains_byte raw "{"%char = true) by (apply skip_ws_contains; by rewrite Et).
  rewrite <- (TrimSpace_keeps raw) in C; [by rewrite T in C| |]; repeat constructor.
Qed.

(** ** Properties *)

(** A stream is its events: what successive reads of an open stream
    return is a function of the SSE events of the body alone, in order: one
    chunk per data event with its payload untouched and the usage it reports,
    one keep-alive per comment, nothing for an event without data, the end of
    the answer at the [DONE] event, the classified failure where the events
    stop without it, and that first error again on every later read.  The loop
    inside a read always finds its answer. *)
Theorem stream_is_its_events p b ms :
  recvs openai_wire ms (newStreamReader p b)
  = let '(evs, e) := events (S (length (unread b))) b in answers openai_wire p ms false evs e.
Proof. apply recvs_live. Qed.

Definition is_done (ev : SSEEvent) : Prop := HasData ev = true /\ EvData ev = sseDoneSentinel.

#[export] Instance openai_marked : Marked openai_wire is_done.
Proof.
  split; intros s ev; cbn; unfold openai_event; destruct (HasData ev) eqn:D; simpl;
    try case_bool_decide; try by (intros; naive_solver).
  intros s' _. by left.
Qed.

(** (C5) A partial answer is never passed off as whole: if any read of a
    stream reports the end of the answer, the upstream really sent its [DONE]
    event; whatever cut the body short, whatever the context and whoever closed
    the stream, a body without it ends in an error that is not [io.EOF]. *)
Theorem whole_only_after_done p b ms e :
  inr e ∈ recvs openai_wire ms (newStreamReader p b) -> errors_Is e IoEOF = true ->
  exists ev, ev ∈ (events (S (length (unread b))) b).1 /\
    HasData ev = true /\ EvData ev = sseDoneSentinel.
Proof.
  intros Hin He. destruct (whole_only_after_mark openai_wire is_done p b false ms e) as (ev & Hev & _ & Hm);
    [done..|]. by exists ev.
Qed.


(** Retargeting changes the model and nothing else: a request body that
    is an object is sent with the provider's model name, and every other field
    as the client wrote it, whatever it is; retargeting a second time is
    retargeting once. *)
Theorem retargeting_changes_the_model raw m rest model :
  decode_map raw = Fields m rest -> valid_utf8 model ->
  exists raw' m', setModel raw model = Retargeted raw' /\ decode_map raw' = Fields m' "" /\
    obj_get modelField m' = Some (JStr model) /\
    (forall k, k <> modelField -> obj_get k m' = obj_get k m) /\
    setModel raw' model = Retargeted raw'.
Proof.
  intros D V. pose proof (decode_map_wf _ _ _ D) as W. destruct nesting as [d N].
  set (m' := obj_put modelField (JStr model) m).
  assert (W' : wf_json maxNestingDepth (JObj m')).
  { rewrite N in W |- *. apply wf_obj_put; [done|reflexivity|by constructor]. }
  assert (S1 : forall raw m rest, decode_map raw = Fields m rest ->
            setModel raw model = Retargeted (marshal (JObj (obj_put modelField (JStr model) m)))).
  { intros r x y Dx. unfold setModel. rewrite bool_decide_false by by eapply fields_not_blank.
    by rewrite Dx. }
  pose proof (decode_map_marshal _ W') as D'.
  exists (marshal (JObj m')), m'. split_and!; [by eapply S1|done| | |].
  - unfold m'. rewrite obj_get_put. by rewrite decide_True.
  - intros k Hk. unfold m'. rewrite obj_get_put. by rewrite decide_False.
  - rewrite (S1 _ _ _ D'). do 3 f_equal. apply sorted_keys_ext.
    + apply obj_put_sorted. by inversion_clear W'.
    + by inversion_clear W'.
    + intros k. rewrite obj_get_put. unfold m'. rewrite obj_get_put. by destruct (decide _).
Qed.

(** The requests that leave the question of usage open: streaming calls to a
    backend that honours it, whose options, if any, are an object that does not
    mention it. *)
Definition silent_on_usage (raw : string) (p : profile) : option (list (string * json) * list (string * json)) :=
  if negb (streamUsage p) then None
  else
    m ← decodeObject raw;
    opts ← match obj_get "stream_options" m with
           | Some (JObj o) => Some o
           | Some _ => None
           | None => Some []
           end;
    match obj_get "stream" m, obj_get "include_usage" opts with
    | Some (JBool true), None => Some (m, opts)
    | _, _ => None
    end.

Lemma withStreamUsage_asks raw p :
  withStreamUsage raw p
  = match silent_on_usage raw p with
    | Some (m, opts) =>
        marshal (JObj (obj_put "stream_options" (JObj (obj_put "include_usage" (JBool true) opts)) m))
    | None => raw
    end.
Proof.
  unfold withStreamUsage, silent_on_usage. destruct (negb (streamUsage p)); [done|].
  destruct (decodeObject raw) as [m|]; [|done]. cbn.
  destruct (obj_get "stream_options" m) as [[]|]; cbn;
    destruct (obj_get "stream" m) as [[|[]| | | |]|]; try done;
    by destruct (obj_get "include_usage" _).
Qed.

Lemma decodeObject_wf raw m : decodeObject raw = Some m -> wf_json maxNestingDepth (JObj m).
Proof.
  unfold decodeObject. destruct (decode_map raw) as [| |x r] eqn:D; try done.
  destruct (More r); [done|]. intros [= <-]. by eapply decode_map_wf.
Qed.

Lemma decodeObject_marshal m :
  wf_json maxNestingDepth (JObj m) -> decodeObject (marshal (JObj m)) = Some m.
Proof. intros W. unfold decodeObject. by rewrite decode_map_marshal. Qed.

(** Streamed usage is asked for, and only where the client left it open:
    a request that is silent on it is sent with [include_usage] set, its other
    options and its other fields as they were; every other request, and every
    request to a backend that does not honour the option, is sent byte for byte
    as it came; and asking twice is asking once. *)
Theorem usage_is_asked_for raw p :
  match silent_on_usage raw p with
  | None => withStreamUsage raw p = raw
  | Some (m, opts) =>
      exists m' opts', decodeObject (withStreamUsage raw p) = Some m' /\
        obj_get "stream_options" m' = Some (JObj opts') /\
        obj_get "include_usage" opts' = Some (JBool true) /\
        (forall k, k <> "include_usage"%string -> obj_get k opts' = obj_get k opts) /\
        (forall k, k <> "stream_options"%string -> obj_get k m' = obj_get k m)
  end /\
  withStreamUsage (withStreamUsage raw p) p = withStreamUsage raw p.
Proof.
  rewrite !withStreamUsage_asks. destruct (silent_on_usage raw p) as [[m opts]|] eqn:S.
  2:{ split; [done|]. by rewrite S. }
  set (o := obj_put "include_usage" (JBool true) opts).
  set (m' := obj_put "stream_options" (JObj o) m).
  assert (W : wf_json maxNestingDepth (JObj m) /\
              (obj_get "stream_options" m = Some (JObj opts) \/ opts = []) /\ streamUsage p = true).
  { unfold silent_on_usage in S. destruct (streamUsage p); [|done]. simpl in S.
    destruct (decodeObject raw) as [m0|] eqn:D; [|done]. apply decodeObject_wf in D. cbn -[obj_get] in S.
    destruct (obj_get "stream_options" m0) as [[]|] eqn:O; try done; cbn -[obj_get] in S;
      destruct (obj_get "stream" m0) as [[|[]| | | |]|]; try done;
      destruct (obj_get "include_usage" _) eqn:I; simplify_eq; split_and!; auto. }
  destruct W as (W & O & U). destruct nesting as [d N]. rewrite N in W.
  assert (Wo : wf_json (Datatypes.S (Datatypes.S d)) (JObj o)).
  { apply wf_obj_put; [|reflexivity|by constructor].
    destruct O as [O| ->]; [by eapply wf_obj_get|]. by repeat constructor. }
  assert (W' : wf_json maxNestingDepth (JObj m')) by (rewrite N; by apply wf_obj_put).
  pose proof (decodeObject_marshal _ W') as D.
  assert (G : obj_get "stream_options" m' = Some (JObj o)).
  { unfold m'. rewrite obj_get_put. by rewrite decide_True. }
  assert (Gi : obj_get "include_usage" o = Some (JBool true)).
  { unfold o. rewrite obj_get_put. by rewrite decide_True. }
  split.
  - exists m', o. split_and!; try done.
    + intros k Hk. unfold o. rewrite obj_get_put. by rewrite decide_False.
    + intros k Hk. unfold m'. rewrite obj_get_put. by rewrite decide_False.
  - replace (silent_on_usage (marshal (JObj m')) p) with (@None (list (string * json) * list (string * json)));
      [done|]. unfold silent_on_usage. rewrite U, D. cbn -[obj_get]. rewrite G. cbn -[obj_get].
    rewrite Gi. by destruct (obj_get "stream" m') as [[|[]| | | |]|].
Qed.

(** The class of a call that did not end in an answer. *)
Definition failure_class (o : http_outcome) : ErrorClass :=
  match o with
  | Unbuildable _ => ErrClassInternal
  | Undelivered e ctx => transportClass ctx e
  | Response status b ctx =>
      if Is2xx status then
        if maxResponseBytes <? Z.of_nat (length (unread b)) then ErrClassUpstream
        else transportClass ctx (ends_with b)
      else ClassFromStatusAndBody status (read_limited maxErrorBody b).1
  end.

(** (C29) An answer is verbatim and a failure is classed: a call answers exactly
    when the reply is a success whose whole body, within the size limit,
    arrived, and then the answer is those bytes, under the model that was asked
    for and this provider's name; every other outcome is an error of this
    provider whose class is that of the status (an unexplained 404 being the
    gateway's own misdirection), of the context that ended, or an upstream
    failure. *)
Theorem chat_is_verbatim_or_classed p do req :
  let o := do (request_of p (ReqRaw req)) in
  match Chat p do req with
  | inl resp => exists status b ctx, o = Response status b ctx /\ Is2xx status = true /\
      Z.of_nat (length (unread b)) <= maxResponseBytes /\ ends_with b = ErrSentinel IoEOF /\
      resp = mkChatResponse (ReqModel req) (name p) (str (unread b)) (answer_usage (str (unread b)))
  | inr e => (exists status m cause, e = ErrProvider (name p) (failure_class o) status m cause) /\
      (forall status b ctx, o = Response status b ctx -> Is2xx status = true ->
       maxResponseBytes < Z.of_nat (length (unread b)) \/ ends_with b <> ErrSentinel IoEOF)
  end.
Proof.
  intros o. unfold Chat, post. fold o. destruct o as [e|e ctx|status b ctx]; cbn [failure_class exchange].
  - split; [by eexists _, _, _|done].
  - split; [by eexists _, _, _|done].
  - destruct (Is2xx status) eqn:Ok; cbn [negb].
    2:{ split; [by eexists _, _, _|]. intros ? ? ? [= <- <- <-]. by rewrite Ok. }
    pose proof (read_answer_spec (name p) ctx b) as R. destruct (read_answer (name p) ctx b) as [text|e].
    + destruct R as (-> & ? & ?). exists status, b, ctx. by split_and!.
    + destruct R as [(m & cause & ->) R]. split; [by eexists _, _, _|].
      intros ? ? ? [= <- <- <-] _. exact R.
Qed.

(** *** Instances *)

Module WireExample.
Definition done_stream : body :=
  mkBody (sseFrame (payload (quoted "{'x':1,'usage':{'prompt_tokens':3,'total_tokens':5}}")) ++ sseDoneFrame)
    (ErrSentinel IoEOF).
Definition cut_stream : body :=
  mkBody (sseFrame (payload "hi") ++ payload "data: [DO") (ErrSentinel IoEOF).
Definition quiet : moment := mkMoment None false.

Example a_whole_stream :
  recvs openai_wire [quiet; quiet; quiet] (newStreamReader "p" done_stream)
  = [inl (mkChunk (quoted "{'x':1,'usage':{'prompt_tokens':3,'total_tokens':5}}") (Some (mkUsage 3 0 5)) false);
     inr (ErrSentinel IoEOF); inr (ErrSentinel IoEOF)].
Proof. vm_compute. reflexivity. Qed.

Example a_cut_stream :
  recvs openai_wire [quiet; quiet; quiet] (newStreamReader "p" cut_stream)
  = [inl (mkChunk "hi" None false); inr (ErrSentinel StreamTruncated); inr (ErrSentinel StreamTruncated)].
Proof. vm_compute. reflexivity. Qed.

Lemma whole_only_after_done_witness :
  exists ev, ev ∈ (events (S (length (unread done_stream))) done_stream).1 /\
    HasData ev = true /\ EvData ev = sseDoneSentinel.
Proof.
  apply (whole_only_after_done "p" done_stream [quiet; quiet] (ErrSentinel IoEOF)).
  - assert (E : recvs openai_wire [quiet; quiet] (newStreamReader "p" done_stream)
      = [inl (mkChunk (quoted "{'x':1,'usage':{'prompt_tokens':3,'total_tokens':5}}") (Some (mkUsage 3 0 5)) false);
         inr (ErrSentinel IoEOF)]) by (vm_compute; reflexivity).
    rewrite E. right. left.
  - reflexivity.
Defined.

Definition body_text : string := quoted "{'seed':12345678901234567890, 'model':'fast'}".
Definition body_map : list (string * json) :=
  [("model", JStr "fast"); ("seed", JNum "12345678901234567890")]%string.

Lemma retargeting_changes_the_model_witness :
  exists raw' m', setModel body_text "gpt-4o" = Retargeted raw' /\ decode_map raw' = Fields m' "" /\
    obj_get modelField m' = Some (JStr "gpt-4o") /\
    (forall k, k <> modelField -> obj_get k m' = obj_get k body_map) /\
    setModel raw' "gpt-4o" = Retargeted raw'.
Proof.
  apply (retargeting_changes_the_model body_text body_map ""); vm_compute; reflexivity.
Defined.

Example retargeted :
  setModel body_text "gpt-4o" = Retargeted (quoted "{'model':'gpt-4o','seed':12345678901234567890}").
Proof. vm_compute. reflexivity. Qed.

Example asked :
  withStreamUsage (quoted "{'stream':true}") (mkProfile "" [] true)
  = quoted "{'stream':true,'stream_options':{'include_usage':true}}".
Proof. vm_compute. reflexivity. Qed.

(** Trailing bytes do not make the body opaque when they are a closing bracket:
    they are dropped from what is sent, where any other trailing text is
    forwarded as it came. *)
Theorem trailing_bracket_is_dropped :
  withStreamUsage (quoted "{'stream':true}}") (mkProfile "" [] true)
  = quoted "{'stream':true,'stream_options':{'include_usage':true}}" /\
  withStreamUsage (quoted "{'stream':true}x") (mkProfile "" [] true) = quoted "{'stream':true}x".
Proof. split; vm_compute; reflexivity. Qed.

(** A page that is no error document makes a 404 the gateway's own fault. *)
Example not_found :
  ClassFromStatusAndBody 404 "<html>" = ErrClassUpstream /\
  ClassFromStatusAndBody 404 (quoted "{'error':{'message':'no such model'}}") = ErrClassModelNotFound.
Proof. split; vm_compute; reflexivity. Qed.
End WireExample.
