(* ===== verification/Ingress.v ===== *)
(** * The middleware (internal/ingress/server.go, metrics.go, handlers.go)

    What stands between the listener and the handlers, in the order the code
    nests it: recovery, the access log, authentication, the limiter, the mux.
    A handler is a function of the gateway, the request's log record and the
    response so far; it may panic, which keeps what it had done.  The chat
    handler is that of [Handlers]; the theorems are proved for any handler. *)

From Stdlib Require Import ZArith Lia String Ascii.
From stdpp Require Import base gmap strings list numbers sorting.
From S2P Require Import Prelude Float64 GoString Providers Json Sse Wire Auth Lookup Guard Handlers.

Local Open Scope Z_scope.

(** ** State *)

(** [clientKeys], [inflight] and the rest of [Server]. *)
Record gateway := mkGateway { server : Server; keys : keySet; limiter : inflight }.

Definition with_server (s : Server) (g : gateway) : gateway := mkGateway s (keys g) (limiter g).
Definition with_limiter (l : inflight) (g : gateway) : gateway := mkGateway (server g) (keys g) l.

Record http_in := mkIn { method : string; path : string; authorization : string; payload_read : body_read }.

(** How a handler left: the gateway, the log record and the response as they
    were, and whether it was a panic that unwound it. *)
Record outcome := mkOutcome {
  o_gateway : gateway; o_info : logInfo; o_resp : response; panicked : bool
}.

(** [None]: the handler has not returned (a stream still open). *)
Definition handler : Type := gateway -> logInfo -> response -> option outcome.

(** ** Middleware *)

Definition internalError (w : response) : response :=
  WriteError 500 (Authored "internal error") TypeAPI "internal" w.

Definition withRecovery (next : handler) : handler := fun g i w =>
  match next g i w with
  | None => None
  | Some o =>
      Some (if panicked o then mkOutcome (o_gateway o) (o_info o) (internalError (o_resp o)) false else o)
  end.

(** The deferred measurement runs for a panic too, before it is recovered. *)
Definition withAccessLog (start : Time) (p : string) (next : handler) : handler := fun g _ w =>
  match next g (mkInfo start "" "" "" false false) w with
  | None => None
  | Some o =>
      let m := MRequest (NormalizePath p) (i_provider (o_info o)) (Itoa (Status (o_resp o)))
                 (i_stream (o_info o)) in
      Some (mkOutcome (with_server (observe m (server (o_gateway o))) (o_gateway o))
              (o_info o) (o_resp o) (panicked o))
  end.

Definition set_tenant (t : string) (i : logInfo) : logInfo :=
  mkInfo (i_start i) (i_model i) (i_provider i) t (i_stream i) (i_cached i).

Definition authenticated (r : http_in) (next : handler) : handler := fun g i w =>
  match withAuth (keys g) (path r) (authorization r) w with
  | Reject w => Some (mkOutcome g i w false)
  | Admit t => next g (if bool_decide (t = AnonymousTenant) then i else set_tenant t i) w
  end.

(** The deferred release runs for a panic too. *)
Definition withLimit (next : handler) : handler := fun g i w =>
  match limit_enter (limiter g) w with
  | inr w => Some (mkOutcome g i w false)
  | inl l =>
      match next (with_limiter l g) i w with
      | None => None
      | Some o =>
          Some (mkOutcome (with_limiter (limit_leave (limiter (o_gateway o))) (o_gateway o))
                  (o_info o) (o_resp o) (panicked o))
      end
  end.

(** ** Endpoints *)

Definition chatPath : string := "/v1/chat/completions".
Definition modelsPath : string := "/v1/models".

(** The encoder ends the value with a newline. *)
Definition writeJSON (body : string) (w : response) : response :=
  Write (WJSON (body +:+ String LF "")) (WriteHeader 200 (set_header "Content-Type" ContentTypeJSON w)).

(** [handleModels]: the routes, sorted by model. *)
Definition model_entry (p : string * string) : json :=
  JObj [("id", JStr p.1); ("object", JStr "model"); ("owned_by", JStr p.2)]%string.
Definition id_le (p q : string * string) : Prop := String.le p.1 q.1.
#[export] Instance id_le_dec p q : Decision (id_le p q).
Proof. unfold id_le. apply _. Defined.

Definition models_json (routes : gmap string string) : json :=
  JObj [("object", JStr "list"); ("data", JArr (model_entry <$> merge_sort id_le (map_to_list routes)))]%string.

Definition handleModels : handler := fun g i w =>
  Some (mkOutcome g i (writeJSON (marshal (models_json (routes (server g)))) w) false).
Definition handleHealthz : handler := fun g i w =>
  Some (mkOutcome g i (writeJSON (marshal (JObj [("status", JStr "ok")]%string)) w) false).

Definition handleChat (v : env) (r : http_in) : handler := fun g i w =>
  match handleChatCompletions (server g) v i (payload_read r) w with
  | None => None
  | Some (w, s, i) => Some (mkOutcome (with_server s g) i w false)
  end.

(** What the mux answers itself: no such path, or not with that method. *)
Definition mux_refusal (status : Z) : handler := fun g i w =>
  Some (mkOutcome g i (WriteHeader status w) false).

(** The patterns of [NewServer]; one for GET also serves HEAD. *)
Definition mux (chat : handler) (r : http_in) : handler :=
  let get h := if bool_decide (method r ∈ ["GET"; "HEAD"]%string) then h else mux_refusal 405 in
  if bool_decide (path r = chatPath)
  then if bool_decide (method r = "POST"%string) then chat else mux_refusal 405
  else if bool_decide (path r = modelsPath) then get handleModels
  else if bool_decide (path r = healthPath) then get handleHealthz
  else mux_refusal 404.

(** The chain [NewServer] builds. *)
Definition served (start : Time) (r : http_in) (chat : handler) : handler :=
  withRecovery (withAccessLog start (path r) (authenticated r (withLimit (mux chat r)))).

Definition no_info : logInfo := mkInfo zeroTime "" "" "" false false.

Definition serve (g : gateway) (v : env) (start : Time) (r : http_in) : option outcome :=
  served start r (handleChat v r) g no_info no_response.

(** ** Facts *)

Definition is_request (m : metric) : bool := match m with MRequest _ _ _ _ => true | _ => false end.
Definition requests (s : Server) : list metric := List.filter is_request (metrics s).

(** A handler that leaves the doors alone: it measures no request of its own
    and touches neither the keys nor the limiter. *)
Class Quiet (h : handler) : Prop := quiet : forall g i w o, h g i w = Some o ->
  requests (server (o_gateway o)) = requests (server g) /\
  keys (o_gateway o) = keys g /\ limiter (o_gateway o) = limiter g.

Lemma requests_observe m s : is_request m = false -> requests (observe m s) = requests s.
Proof. intros H. unfold requests. simpl. rewrite List.filter_app. simpl. rewrite H. apply app_nil_r. Qed.

Lemma requests_observe_all ms s :
  Forall (fun m => is_request m = false) ms ->
  requests (fold_left (fun s m => observe m s) ms s) = requests s.
Proof.
  intros F. revert s. induction F as [|m ms Hm F IH]; intros s; [done|].
  simpl. by rewrite IH, requests_observe.
Qed.

Lemma requests_settleOrAbort s v r u model provider :
  requests (settleOrAbort s v r u model provider) = requests s.
Proof.
  unfold settleOrAbort. destruct (accounting s), r as [r|]; try done. destruct u as [u|]; [|done].
  destruct (guard_Settle _ _ _ _ _ _ _) as [[usd g'] row]. by rewrite requests_observe.
Qed.

Lemma run_loop_metrics s info evs l l' :
  run_loop s info evs l = Some l' -> Forall (fun m => is_request m = false) (l_metrics l) ->
  Forall (fun m => is_request m = false) (l_metrics l').
Proof.
  revert l. induction evs as [|ev evs IH]; intros l; [done|]. simpl.
  assert (S : Forall (fun m => is_request m = false) (l_metrics l) ->
              Forall (fun m => is_request m = false) (l_metrics (loop_step s info ev l).1)).
  { intros F. destruct ev as [c takes|e| |]; simpl; try done.
    - destruct (Keepalive c), takes; simpl; try done;
        destruct (firstData l && _); try done; apply list.Forall_app; by split; [|constructor].
    - by destruct (0 <? _). }
  destruct (loop_step s info ev l) as [l1 returned]. simpl in S.
  destruct returned; [intros [= <-]; apply S|]. intros H F. apply (IH l1 H). by apply S.
Qed.

Lemma requests_cache s l : requests (with_cache s l) = requests s.
Proof. done. Qed.

Lemma requests_settleStream s v r res req t :
  requests (settleStream s v r res req t) = requests s.
Proof.
  unfold settleStream. rewrite requests_settleOrAbort.
  destruct (lastUsage t), (completed t); try destruct (rec_entry _ _ _ _ _);
    try destruct (Put _ _ _ _ _ _);
    rewrite ?requests_observe by done; rewrite ?requests_cache; rewrite ?requests_observe by done; done.
Qed.

Lemma requests_dispatch s v info prov req r res w w' s' info' :
  dispatch s v info prov req r res w = Some (w', s', info') -> requests s' = requests s.
Proof.
  unfold dispatch, serveStream, serveChat. intros H. destruct (ReqStream req).
  - destruct (e_flusher v); cbn [negb] in H.
    2: { injection H as <- <- <-. apply requests_settleOrAbort. }
    destruct (openStream v prov req) as [si|err].
    2: { injection H as <- <- <-. apply requests_settleOrAbort. }
    destruct (run_loop _ _ _ _) as [l|] eqn:L; [|done]. injection H as <- <- <-.
    rewrite requests_settleStream. apply requests_observe_all. by apply (run_loop_metrics _ _ _ _ _ L).
  - destruct (e_chat v req) as [resp|err].
    + destruct (Put _ _ _ _ _ _) as [l evs]. injection H as <- <- <-.
      rewrite requests_observe by done. change (requests (with_cache ?s l)) with (requests s).
      by rewrite requests_settleOrAbort, requests_observe.
    + injection H as <- <- <-. apply requests_settleOrAbort.
Qed.

#[export] Instance handleChat_quiet v r : Quiet (handleChat v r).
Proof.
  intros g i w o. unfold handleChat.
  destruct (handleChatCompletions (server g) v i (payload_read r) w) as [[[w' s'] i']|] eqn:H; [|done].
  intros [= <-]. simpl. split; [|done]. revert H. unfold handleChatCompletions.
  destruct (payload_read r) as [body| |]; [|by intros [= <- <- <-]..].
  destruct (Unmarshal _ _ _) as [e|]; [|by intros [= <- <- <-]].
  destruct (bool_decide _); [by intros [= <- <- <-]|].
  destruct (routes (server g) !! _) as [prov|]; [|by intros [= <- <- <-]].
  destruct (Get _ _ _ _ _ _) as [[res l] evs].
  set (s1 := observe (MCache evs) (with_cache (server g) l)).
  assert (E1 : requests s1 = requests (server g)) by (unfold s1; by rewrite requests_observe).
  assert (E2 : forall x w0, requests (serveCached s1 v x res w0).1.1.2 = requests (server g)).
  { intros x w0. unfold serveCached. destruct (REntry res); [|done].
    destruct (i_stream _); [destruct (replayStream _ _ _)|]; simpl;
      repeat case_bool_decide; simpl; by rewrite ?requests_observe. }
  destruct (serveCached s1 v _ res w) as [[[w2 s2] info2] hit] eqn:C.
  match type of C with serveCached _ _ ?x _ ?y = _ => specialize (E2 x y) end.
  rewrite C in E2. simpl in E2. destruct hit; [by intros [= <- <- <-]|].
  destruct (Begin _ _ _ _ _) as [[d|r0] gd].
  - intros [= <- <- <-]. rewrite requests_observe by done. exact E2.
  - intros H. apply requests_dispatch in H. rewrite H. exact E2.
Qed.

Lemma limit_leave_enter l w l' : limit_enter l w = inl l' -> limit_leave l' = l.
Proof.
  destruct l as [[n|] k]; unfold limit_enter, limit_leave; simpl; [|by intros [= <-]].
  destruct (k <? n)%nat; [|done]. by intros [= <-].
Qed.

Lemma mux_quiet chat r `{!Quiet chat} : Quiet (mux chat r).
Proof.
  intros g i w o. unfold mux. repeat case_bool_decide; try apply quiet;
    unfold handleModels, handleHealthz, mux_refusal; by intros [= <-].
Qed.

(** The doors give back what they took. *)
Lemma limit_quiet next `{!Quiet next} : Quiet (withLimit next).
Proof.
  intros g i w o. unfold withLimit. destruct (limit_enter (limiter g) w) as [l|w'] eqn:L;
    [|by intros [= <-]].
  destruct (next (with_limiter l g) i w) as [o'|] eqn:N; [|done]. apply quiet in N as (N1 & N2 & N3).
  intros [= <-]. simpl in *. split_and!; [done..|]. rewrite N3. by eapply limit_leave_enter.
Qed.

Lemma auth_quiet r next `{!Quiet next} : Quiet (authenticated r next).
Proof.
  intros g i w o. unfold authenticated. destruct (withAuth _ _ _ _); [apply quiet|by intros [= <-]].
Qed.

(** ** Properties *)

(** (C19) Every request is measured once and leaves the doors as it found them:
    when the chain returns, whatever the handler did and even if it panicked,
    exactly one request measurement has been added, under the normalized path
    and the provider and transport of the log record, the slot it took in the
    limiter is free again, and no panic goes further. *)
Theorem every_request_is_measured_once start r chat g o :
  Quiet chat -> served start r chat g no_info no_response = Some o ->
  panicked o = false /\ limiter (o_gateway o) = limiter g /\ keys (o_gateway o) = keys g /\
  exists code, requests (server (o_gateway o))
    = requests (server g) ++ [MRequest (NormalizePath (path r)) (i_provider (o_info o)) code
                                (i_stream (o_info o))].
Proof.
  intros Q. unfold served, withRecovery, withAccessLog.
  pose proof (auth_quiet r _ (Quiet0 := limit_quiet _ (Quiet0 := mux_quiet chat r))) as QA.
  destruct (authenticated r (withLimit (mux chat r)) g _ no_response) as [o'|] eqn:A; [|done].
  apply QA in A as (A1 & A2 & A3). intros [= <-].
  set (m := MRequest _ _ _ _).
  assert (E : requests (observe m (server (o_gateway o'))) = requests (server g) ++ [m]).
  { unfold requests in *. simpl. rewrite List.filter_app, A1. done. }
  destruct (panicked o') eqn:P; simpl; split_and!; try done; eexists; exact E.
Qed.

(** The gateway after a request that only got measured. *)
Definition only_measured (g : gateway) (p code : string) : gateway :=
  with_server (observe (MRequest (NormalizePath p) "" code false) (server g)) g.

(** (C18) A caller refused at the door costs nothing: one without a configured
    key gets the 401 envelope, and one the limiter has no slot for gets the 503
    envelope with its retry advice; in both cases the handlers, the cache, the
    budgets and the limiter are never touched, and the only trace is the
    request's measurement. *)
Theorem refused_at_the_door g v start r :
  match withAuth (keys g) (path r) (authorization r) no_response with
  | Reject w => serve g v start r
      = Some (mkOutcome (only_measured g (path r) "401") (mkInfo start "" "" "" false false) w false) /\
      w = rejectUnauthorized no_response
  | Admit t =>
      match limit_enter (limiter g) no_response with
      | inl _ => True
      | inr w => serve g v start r
          = Some (mkOutcome (only_measured g (path r) "503") (mkInfo start "" "" t false false) w false) /\
          ("Retry-After", "1")%string ∈ rheaders w
      end
  end.
Proof.
  unfold serve, served, withRecovery, withAccessLog, authenticated.
  destruct (withAuth _ _ _ _) as [t|w] eqn:A.
  - unfold withLimit. destruct (limit_enter (limiter g) no_response) as [l|w] eqn:L; [done|].
    unfold limit_enter in L. destruct (slots (limiter g)); [|done]. destruct (_ <? _)%nat; [done|].
    injection L as <-. split; [|by apply list_elem_of_In; vm_compute; auto].
    case_bool_decide as T; [by rewrite T|done].
  - assert (w = rejectUnauthorized no_response) as ->; [|done].
    unfold withAuth in A. destruct (_ || _); [done|]. destruct (bearerToken _) as [key|]; [|congruence].
    destruct (key_lookup (keys g) key) as [t []]; congruence.
Qed.

Lemma merge_sort_ids routes :
  Sorted.StronglySorted id_le (merge_sort id_le (map_to_list routes)).
Proof.
  apply StronglySorted_merge_sort.
  - intros x y z. unfold id_le. apply (transitivity (R := String.le)).
  - intros x y. unfold id_le. apply (total String.le).
Qed.

(** The model list is the routing table: it names every routed model
    exactly once, with its owner, in alphabetical order, and no other. *)
Theorem models_are_the_routes g i w :
  exists l, Sorted.StronglySorted id_le l /\ NoDup (fst <$> l) /\
    (forall m p, (m, p) ∈ l <-> routes (server g) !! m = Some p) /\
    handleModels g i w = Some (mkOutcome g i (writeJSON (marshal
      (JObj [("object", JStr "list"); ("data", JArr (model_entry <$> l))]%string)) w) false).
Proof.
  exists (merge_sort id_le (map_to_list (routes (server g)))). split_and!.
  - apply merge_sort_ids.
  - rewrite merge_sort_Permutation. apply NoDup_fst_map_to_list.
  - intros m p. rewrite merge_sort_Permutation. apply elem_of_map_to_list.
  - done.
Qed.

(** *** Instances *)

Module IngressExample.
Definition server0 : Server := mkServer ∅ 0 None None [] [].
Definition gate (n : Z) : gateway := mkGateway server0 emptyKeys (newInflight n).
Definition post_chat : http_in := mkIn "POST" chatPath "" (BodyOk "").
Definition boom : handler := fun g i w => Some (mkOutcome g i w true).

#[export] Instance boom_quiet : Quiet boom.
Proof. by intros g i w o [= <-]. Qed.

Lemma every_request_is_measured_once_witness :
  exists o, served 5 post_chat boom (gate 2) no_info no_response = Some o /\
    panicked o = false /\ limiter (o_gateway o) = limiter (gate 2) /\ keys (o_gateway o) = keys (gate 2) /\
    exists code, requests (server (o_gateway o))
      = requests (server (gate 2)) ++ [MRequest (NormalizePath (path post_chat)) (i_provider (o_info o)) code
                                         (i_stream (o_info o))].
Proof.
  destruct (served 5 post_chat boom (gate 2) no_info no_response) as [o|] eqn:E.
  - exists o. split; [reflexivity|]. exact (every_request_is_measured_once 5 post_chat boom (gate 2) o _ E).
  - exfalso. vm_compute in E. discriminate E.
Defined.

(** The access log runs inside the recovery, so a request that panics before it
    wrote anything is measured as the 200 the untouched response would be,
    while its client gets a 500. *)
Theorem panic_is_measured_as_success :
  exists o, served 5 post_chat boom (gate 2) no_info no_response = Some o /\
    Status (o_resp o) = 500 /\
    requests (server (o_gateway o)) = [MRequest "/v1/chat/completions" "" "200" false].
Proof. eexists. split; [vm_compute; reflexivity|]. by split. Qed.

Example health_needs_no_key v :
  serve (mkGateway server0 (newKeySet ["k"]%string) (newInflight 1)) v 5
    (mkIn "GET" "/healthz" "" BodyFailed)
  = Some (mkOutcome (mkGateway (observe (MRequest "/healthz" "" "200" false) server0)
                       (newKeySet ["k"]%string) (newInflight 1))
            (mkInfo 5 "" "" "" false false)
            (writeJSON (quoted "{'status':'ok'}") no_response) false).
Proof. reflexivity. Qed.
End IngressExample.
