(* ===== verification/JsonText.v ===== *)
(** * Writing JSON text (encoding/json)

    What [Marshal] does with the raw messages a struct carries: it compacts
    them, escaping HTML characters and line separators inside strings.  The
    compacted text stands for the same value, at the same depth of nesting. *)

From Stdlib Require Import ZArith Lia String Ascii.
From stdpp Require Import base strings list numbers sets pretty.
From S2P Require Import Prelude Float64 GoString Json.

Local Open Scope Z_scope.

(** ** Compacting *)

(** Outside of strings; inside; after a backslash; inside, with bytes of a
    separator still to drop. *)
Inductive place := Outside | Inside | Escaped | Dropping (k : nat).

Definition is_html (c : ascii) : bool :=
  Ascii.eqb c "<"%char || Ascii.eqb c ">"%char || Ascii.eqb c "&"%char.

(** [appendCompact] with [escape], over a valid text. *)
Fixpoint compact_from (m : place) (s : string) : string :=
  match s with
  | "" => ""
  | String c t =>
      match m with
      | Outside =>
          if is_ws c then compact_from Outside t
          else String c (compact_from (if Ascii.eqb c dquote then Inside else Outside) t)
      | Escaped => String c (compact_from Inside t)
      | Dropping (S (S k)) => compact_from (Dropping (S k)) t
      | Dropping _ => compact_from Inside t
      | Inside =>
          if Ascii.eqb c dquote then String c (compact_from Outside t)
          else if Ascii.eqb c backslash then String c (compact_from Escaped t)
          else if is_html c then u_escape (code c) +:+ compact_from Inside t
          else if HasPrefix s line_separator
          then String backslash "u2028" +:+ compact_from (Dropping 2) t
          else if HasPrefix s paragraph_separator
          then String backslash "u2029" +:+ compact_from (Dropping 2) t
          else String c (compact_from Inside t)
      end
  end.
Definition compact : string -> string := compact_from Outside.

(** [RawMessage.MarshalJSON], compacted: a nil message is [null]. *)
Definition raw_text (raw : string) : string :=
  if bool_decide (raw = "") then "null" else compact raw.

(** A struct as it is written: its fields in order, each with its text. *)
Definition struct_text (fs : list (string * string)) : string :=
  String "{" (comma_join (map (fun f => quote f.1 +:+ String ":" f.2) fs) +:+ "}").

(** [strings.Join]. *)
Fixpoint Join (l : list string) (sep : string) : string :=
  match l with
  | [] => ""
  | [s] => s
  | s :: l => s +:+ sep +:+ Join l sep
  end.

(** ** Strings keep their value *)

(** Whether a body starts with the second half of a surrogate pair. *)
Definition starts_low (s : string) : bool :=
  match s with
  | String b (String u (String g1 (String g2 (String g3 (String g4 _))))) =>
      Ascii.eqb b backslash && Ascii.eqb u "u"%char &&
      match hex4 g1 g2 g3 g4 with Some r => (56320 <=? r) && (r <? 57344) | None => false end
  | _ => false
  end.

Lemma unescape_u h1 h2 h3 h4 t :
  unescape (String backslash (String "u" (String h1 (String h2 (String h3 (String h4 t)))))) =
  let r := default 65533 (hex4 h1 h2 h3 h4) in
  if is_surrogate r then
    match t with
    | String b' (String u' (String g1 (String g2 (String g3 (String g4 t'))))) =>
        if Ascii.eqb b' backslash && Ascii.eqb u' "u"%char then
          match (r2 ← hex4 g1 g2 g3 g4; surrogate_pair r r2) with
          | Some rr => encode_rune rr +:+ unescape t'
          | None => replacement +:+ unescape t
          end
        else replacement +:+ unescape t
    | _ => replacement +:+ unescape t
    end
  else encode_rune r +:+ unescape t.
Proof. done. Qed.

(** An escape that finds no second half stands for itself alone. *)
Lemma unescape_alone h1 h2 h3 h4 t :
  let r := default 65533 (hex4 h1 h2 h3 h4) in
  starts_low t = false \/ (55296 <=? r) && (r <? 56320) = false ->
  unescape (String backslash (String "u" (String h1 (String h2 (String h3 (String h4 t)))))) =
  (if is_surrogate r then replacement else encode_rune r) +:+ unescape t.
Proof.
  intros r H. rewrite unescape_u. fold r. cbv zeta. destruct (is_surrogate r); [|done].
  destruct t as [|b [|u [|g1 [|g2 [|g3 [|g4 t]]]]]]; try done.
  destruct (Ascii.eqb b backslash && Ascii.eqb u "u") eqn:B; [|done].
  destruct (hex4 g1 g2 g3 g4) as [r2|] eqn:G; [|done]. cbn [mbind option_bind].
  unfold surrogate_pair. destruct H as [H|H].
  - unfold starts_low in H. rewrite B, G in H. cbn [andb] in H.
    by rewrite <- (andb_assoc (_ && _)), H, andb_false_r.
  - by rewrite H.
Qed.

(** A byte that compacting and lexing pass on. *)
Definition plain (c : ascii) : Prop := forall t,
  compact_from Inside (String c t) = String c (compact_from Inside t) /\
  lex_str (String c t) = cons_lex c (lex_str t).

Lemma hex_plain c v : hex_val c = Some v -> plain c.
Proof. intros H t. by destruct c as [[] [] [] [] [] [] [] []]. Qed.

Lemma hex4_plain a b c d r : hex4 a b c d = Some r -> plain a /\ plain b /\ plain c /\ plain d.
Proof.
  unfold hex4. intros H.
  destruct (hex_val a) eqn:A; [|done]. destruct (hex_val b) eqn:B; [|done].
  destruct (hex_val c) eqn:C; [|done]. destruct (hex_val d) eqn:D; [|done].
  split_and!; by eapply hex_plain.
Qed.

(** A [\u] escape is copied, whatever follows. *)
Lemma u_escape_copied h1 h2 h3 h4 r t :
  hex4 h1 h2 h3 h4 = Some r ->
  compact_from Inside (String backslash (String "u" (String h1 (String h2 (String h3 (String h4 t))))))
  = String backslash (String "u" (String h1 (String h2 (String h3 (String h4 (compact_from Inside t)))))) /\
  lex_str (String backslash (String "u" (String h1 (String h2 (String h3 (String h4 t))))))
  = prepend (String backslash (String "u" (String h1 (String h2 (String h3 (String h4 "")))))) (lex_str t).
Proof.
  intros H. destruct (hex4_plain _ _ _ _ _ H) as (P1 & P2 & P3 & P4). split.
  - change (compact_from Inside (String backslash (String "u" (String h1 (String h2 (String h3 (String h4 t)))))))
      with (String backslash (String "u" (compact_from Inside (String h1 (String h2 (String h3 (String h4 t))))))).
    by rewrite (proj1 (P1 _)), (proj1 (P2 _)), (proj1 (P3 _)), (proj1 (P4 _)).
  - cbn -[hex4]. rewrite H. by destruct (lex_str t) as [[]|].
Qed.

(** What compacting makes of the inside of a literal. *)
Record body_compacts (body cb : string) : Prop := {
  bc_compact x : compact_from Inside (body +:+ String dquote x) = cb +:+ String dquote (compact x);
  bc_lex x : lex_str (cb +:+ String dquote x) = Some (cb, x);
  bc_body x : lex_str (body +:+ String dquote x) = Some (body, x);
  bc_value : unescape cb = unescape body;
  bc_low : starts_low cb = starts_low body
}.

Lemma body_nil : body_compacts "" "".
Proof. split; done. Qed.

Ltac piece := intros x; rewrite ?str_app_cons.

Lemma body_u h1 h2 h3 h4 r body cb :
  hex4 h1 h2 h3 h4 = Some r -> body_compacts body cb ->
  starts_low body = false \/ (55296 <=? r) && (r <? 56320) = false ->
  let esc t := String backslash (String "u" (String h1 (String h2 (String h3 (String h4 t))))) in
  body_compacts (esc body) (esc cb).
Proof.
  intros H [C L B V S] A esc. split; unfold esc.
  - piece. by rewrite (proj1 (u_escape_copied _ _ _ _ _ _ H)), C.
  - piece. by rewrite (proj2 (u_escape_copied _ _ _ _ _ _ H)), L.
  - piece. by rewrite (proj2 (u_escape_copied _ _ _ _ _ _ H)), B.
  - rewrite !unescape_alone; rewrite ?H; cbn [default]; [by rewrite V|done|by rewrite S].
  - done.
Qed.

Lemma unescape_pair h1 h2 h3 h4 g1 g2 g3 g4 r r2 rr t :
  hex4 h1 h2 h3 h4 = Some r -> hex4 g1 g2 g3 g4 = Some r2 ->
  is_surrogate r = true -> surrogate_pair r r2 = Some rr ->
  unescape (String backslash (String "u" (String h1 (String h2 (String h3 (String h4
    (String backslash (String "u" (String g1 (String g2 (String g3 (String g4 t))))))))))))
  = encode_rune rr +:+ unescape t.
Proof.
  intros H G Hs Hr. rewrite unescape_u, H. cbv zeta. change (default 65533 (Some r)) with r. rewrite Hs, G.
  cbn [mbind option_bind]. by rewrite Hr.
Qed.

Lemma body_pair h1 h2 h3 h4 g1 g2 g3 g4 r r2 body cb :
  hex4 h1 h2 h3 h4 = Some r -> hex4 g1 g2 g3 g4 = Some r2 -> body_compacts body cb ->
  let esc t := String backslash (String "u" (String h1 (String h2 (String h3 (String h4
    (String backslash (String "u" (String g1 (String g2 (String g3 (String g4 t))))))))))) in
  is_surrogate r = true -> is_Some (surrogate_pair r r2) ->
  body_compacts (esc body) (esc cb).
Proof.
  intros H G [C L B V S] esc Hs [rr Hr]. split; unfold esc.
  - piece. by rewrite (proj1 (u_escape_copied _ _ _ _ _ _ H)), (proj1 (u_escape_copied _ _ _ _ _ _ G)), C.
  - piece. by rewrite (proj2 (u_escape_copied _ _ _ _ _ _ H)), (proj2 (u_escape_copied _ _ _ _ _ _ G)), L.
  - piece. by rewrite (proj2 (u_escape_copied _ _ _ _ _ _ H)), (proj2 (u_escape_copied _ _ _ _ _ _ G)), B.
  - rewrite !(unescape_pair _ _ _ _ _ _ _ _ r r2 rr) by done. by rewrite V.
  - done.
Qed.

Lemma body_escape e v body cb :
  Ascii.eqb e "u"%char = false -> escape_of e = Some v -> body_compacts body cb ->
  body_compacts (String backslash (String e body)) (String backslash (String e cb)).
Proof.
  intros U E [C L B V S]. split.
  - piece. change (compact_from Inside (String backslash (String e (body +:+ String dquote x))))
      with (String backslash (String e (compact_from Inside (body +:+ String dquote x)))). by rewrite C.
  - piece. cbn -[escape_of]. by rewrite U, E, L.
  - piece. cbn -[escape_of]. by rewrite U, E, B.
  - cbn -[escape_of]. by rewrite U, V.
  - unfold starts_low. cbn [Ascii.eqb]. rewrite U, !andb_false_r. 
    by destruct body as [|? [|? [|? [|]]]], cb as [|? [|? [|? [|]]]].
Qed.

Definition ordinary (c : ascii) : Prop :=
  Ascii.eqb c dquote = false /\ Ascii.eqb c backslash = false /\ (code c <? 32)%nat = false.

Lemma lex_ordinary c t : ordinary c -> lex_str (String c t) = cons_lex c (lex_str t).
Proof. intros (D & B & L). simpl. by rewrite D, B, L. Qed.

Lemma starts_low_ordinary c t : ordinary c -> starts_low (String c t) = false.
Proof.
  intros (_ & B & _). unfold starts_low. destruct t as [|? [|? [|? [|? [|? t]]]]]; try done.
  by rewrite B.
Qed.

(** The separators begin with a byte of no other use. *)
Definition separator (s : string) : option string :=
  if HasPrefix s line_separator then Some "u2028"
  else if HasPrefix s paragraph_separator then Some "u2029" else None.

(** Whether one starts here does not depend on what follows the literal. *)
Lemma separator_local c body x y :
  separator (String c (body +:+ String dquote x)) = separator (String c (body +:+ String dquote y)).
Proof.
  unfold separator. destruct body as [|a [|b body]]; rewrite ?str_app_cons, ?str_app_nil.
  3: { assert (N : forall s, HasPrefix s "" = true) by by intros []. simpl. by rewrite !N. }
  - by destruct c as [[] [] [] [] [] [] [] []].
  - by destruct c as [[] [] [] [] [] [] [] []].
Qed.

Lemma compact_ordinary c t :
  ordinary c ->
  compact_from Inside (String c t) =
    if is_html c then u_escape (code c) +:+ compact_from Inside t
    else match separator (String c t) with
         | Some e => String backslash e +:+ compact_from (Dropping 2) t
         | None => String c (compact_from Inside t)
         end.
Proof.
  intros (D & B & _). unfold separator.
  change (compact_from Inside (String c t)) with
    (if Ascii.eqb c dquote then String c (compact_from Outside t)
     else if Ascii.eqb c backslash then String c (compact_from Escaped t)
     else if is_html c then u_escape (code c) +:+ compact_from Inside t
     else if HasPrefix (String c t) line_separator
     then String backslash "u2028" +:+ compact_from (Dropping 2) t
     else if HasPrefix (String c t) paragraph_separator
     then String backslash "u2029" +:+ compact_from (Dropping 2) t
     else String c (compact_from Inside t)).
  rewrite D, B. by repeat case_match.
Qed.

Lemma body_char c body cb :
  ordinary c -> is_html c = false -> separator (String c (body +:+ String dquote "")) = None ->
  body_compacts body cb -> body_compacts (String c body) (String c cb).
Proof.
  intros O Hh Hs [C L B V S]. split.
  - piece. rewrite compact_ordinary, Hh, (separator_local _ _ x ""), Hs by done. by rewrite C.
  - piece. by rewrite lex_ordinary, L.
  - piece. by rewrite lex_ordinary, B.
  - destruct O as (_ & E & _). cbn. by rewrite E, V.
  - by rewrite !starts_low_ordinary.
Qed.

Lemma u_escape_html c : is_html c = true ->
  exists h3 h4, u_escape (code c) = String backslash (String "u" (String "0" (String "0" (String h3 (String h4 ""))))) /\
    hex4 "0" "0" h3 h4 = Some (Z.of_nat (code c)) /\
    encode_rune (Z.of_nat (code c)) = String c "" /\ is_surrogate (Z.of_nat (code c)) = false.
Proof.
  intros H. destruct c as [[] [] [] [] [] [] [] []]; try discriminate H.
  - exists "3"%char, "e"%char. done.
  - exists "2"%char, "6"%char. done.
  - exists "3"%char, "c"%char. done.
Qed.

Lemma body_html c body cb :
  is_html c = true -> body_compacts body cb ->
  body_compacts (String c body) (u_escape (code c) +:+ cb).
Proof.
  intros Hh [C L B V S].
  assert (O : ordinary c) by by destruct c as [[] [] [] [] [] [] [] []].
  destruct (u_escape_html c Hh) as (h3 & h4 & E & H4 & R & Su).
  assert (Lo : (55296 <=? Z.of_nat (code c)) && (Z.of_nat (code c) <? 56320) = false)
    by by destruct c as [[] [] [] [] [] [] [] []].
  split; rewrite ?E.
  - piece. rewrite compact_ordinary, Hh, C, E by done. by rewrite !str_app_cons, !str_app_nil.
  - piece. rewrite ?str_app_nil. by rewrite (proj2 (u_escape_copied _ _ _ _ _ _ H4)), L.
  - piece. by rewrite lex_ordinary, B.
  - rewrite !str_app_cons, str_app_nil, unescape_alone; rewrite H4; [|by right].
    change (default 65533 (Some (Z.of_nat (code c)))) with (Z.of_nat (code c)).
    rewrite Su, R, V. destruct O as (_ & Eb & _). simpl. by rewrite Eb.
  - rewrite (starts_low_ordinary c) by done. rewrite !str_app_cons, str_app_nil. cbn -[hex4].
    rewrite H4. destruct (Z.leb_spec 56320 (Z.of_nat (code c))); [|done].
    pose proof (nat_ascii_bounded c). unfold code in *. lia.
Qed.

Definition is_separator (p e : string) : Prop :=
  p = line_separator /\ e = "u2028" \/ p = paragraph_separator /\ e = "u2029".

Lemma separator_steps p e y : is_separator p e ->
  compact_from Inside (p +:+ y) = String backslash e +:+ compact_from Inside y /\
  lex_str (p +:+ y) = prepend p (lex_str y) /\
  lex_str (String backslash e +:+ y) = prepend (String backslash e) (lex_str y) /\
  unescape (p +:+ y) = p +:+ unescape y /\
  unescape (String backslash e +:+ y) = p +:+ unescape y.
Proof.
  intros [[-> ->]|[-> ->]]; split_and!; try (by destruct y); try (lex_piece); by destruct y.
Qed.

Lemma body_separator p e body cb :
  is_separator p e -> body_compacts body cb -> body_compacts (p +:+ body) (String backslash e +:+ cb).
Proof.
  intros P [C L B V S]. split.
  - intros x. rewrite str_app_assoc. destruct (separator_steps p e (body +:+ String dquote x) P) as (-> & _).
    by rewrite C, str_app_assoc.
  - intros x. rewrite str_app_assoc.
    destruct (separator_steps p e (cb +:+ String dquote x) P) as (_ & _ & -> & _). by rewrite L.
  - intros x. rewrite str_app_assoc.
    destruct (separator_steps p e (body +:+ String dquote x) P) as (_ & -> & _). by rewrite B.
  - destruct (separator_steps p e cb P) as (_ & _ & _ & _ & ->).
    destruct (separator_steps p e body P) as (_ & _ & _ & -> & _). by rewrite V.
  - destruct P as [[-> ->]|[-> ->]]; by destruct body as [|? [|? [|? [|]]]].
Qed.

Lemma separator_Some s e :
  separator s = Some e ->
  exists p t, s = p +:+ t /\ is_separator p e.
Proof.
  unfold separator, is_separator. destruct (HasPrefix s line_separator) eqn:E.
  - intros [= <-]. apply HasPrefix_CutPrefix in E as [t E]. apply CutPrefix_Some in E. eauto 6.
  - destruct (HasPrefix s paragraph_separator) eqn:E'; [|done].
    intros [= <-]. apply HasPrefix_CutPrefix in E' as [t E']. apply CutPrefix_Some in E'. eauto 6.
Qed.

Lemma cons_lex_Some c r body rest :
  cons_lex c r = Some (body, rest) -> exists b, body = String c b /\ r = Some (b, rest).
Proof. destruct r as [[b x]|]; [|done]. intros [= <- <-]. eauto. Qed.

(** The first piece of a literal and the literal that is left. *)
Lemma lex_str_cases s body r :
  lex_str s = Some (body, r) ->
  (s = String dquote r /\ body = "") \/
  (exists h1 h2 h3 h4 v t b, hex4 h1 h2 h3 h4 = Some v /\ lex_str t = Some (b, r) /\
     s = String backslash (String "u" (String h1 (String h2 (String h3 (String h4 t))))) /\
     body = String backslash (String "u" (String h1 (String h2 (String h3 (String h4 b)))))) \/
  (exists e v t b, Ascii.eqb e "u"%char = false /\ escape_of e = Some v /\ lex_str t = Some (b, r) /\
     s = String backslash (String e t) /\ body = String backslash (String e b)) \/
  (exists c t b, ordinary c /\ lex_str t = Some (b, r) /\ s = String c t /\ body = String c b).
Proof.
  destruct s as [|c t]; [done|]. simpl.
  destruct (Ascii.eqb c dquote) eqn:D; [apply Ascii.eqb_eq in D as ->; intros [= <- <-]; by left|].
  destruct (Ascii.eqb c backslash) eqn:B.
  - apply Ascii.eqb_eq in B as ->. destruct t as [|e t]; [done|].
    destruct (Ascii.eqb e "u") eqn:U.
    + apply Ascii.eqb_eq in U as ->. destruct t as [|h1 [|h2 [|h3 [|h4 t]]]]; try done.
      destruct (hex4 h1 h2 h3 h4) as [v|] eqn:H; [|done]. intros E.
      repeat (apply cons_lex_Some in E as (? & -> & E)). right; left. eauto 12.
    + destruct (escape_of e) as [v|] eqn:V; [|done]. intros E.
      repeat (apply cons_lex_Some in E as (? & -> & E)). right; right; left. eauto 12.
  - destruct (code c <? 32)%nat eqn:L; [done|]. intros E. apply cons_lex_Some in E as (b & -> & E).
    right; right; right. exists c, t, b. done.
Qed.

Lemma lex_str_split s body r : lex_str s = Some (body, r) -> s = body +:+ String dquote r.
Proof.
  remember (String.length s) as n eqn:En. revert s En body.
  induction n as [n IH] using lt_wf_ind. intros s -> body E.
  destruct (lex_str_cases _ _ _ E) as [(-> & ->)|[(h1 & h2 & h3 & h4 & v & t & b & H & L & -> & ->)|
    [(e & v & t & b & U & V & L & -> & ->)|(c & t & b & O & L & -> & ->)]]]; [done|..];
    rewrite !str_app_cons; repeat f_equal; (eapply IH; [|done|done]); simpl; lia.
Qed.

Lemma string_compacts s body r : lex_str s = Some (body, r) -> exists cb, body_compacts body cb.
Proof.
  remember (String.length s) as n eqn:En. revert s En body.
  induction n as [n IH] using lt_wf_ind. intros s -> body E.
  destruct (lex_str_cases _ _ _ E) as [(-> & ->)|[(h1 & h2 & h3 & h4 & v & t & b & H & L & -> & ->)|
    [(e & v & t & b & U & V & L & -> & ->)|(c & t & b & O & L & -> & ->)]]].
  - exists "". apply body_nil.
  - destruct (starts_low b && ((55296 <=? v) && (v <? 56320))) eqn:P.
    + apply andb_true_iff in P as [P1 P2].
      destruct (lex_str_cases _ _ _ L) as [(-> & ->)|[(g1 & g2 & g3 & g4 & v2 & t2 & b2 & G & L2 & -> & ->)|
        [(e & w & t2 & b2 & U & V & L2 & -> & ->)|(c & t2 & b2 & O & L2 & -> & ->)]]]; [done|..].
      * destruct (IH (String.length t2)) with (s := t2) (body := b2) as [cb C]; [simpl; lia|done|done|].
        eexists. eapply body_pair; [done|done|exact C| |].
        -- unfold is_surrogate. bool_to_prop. apply andb_true_iff. split; [by apply Z.leb_le|].
           apply Z.ltb_lt. lia.
        -- cbn -[hex4] in P1. rewrite G in P1. unfold surrogate_pair.
           rewrite P2. cbn [andb]. rewrite P1. eauto.
      * unfold starts_low in P1. rewrite U in P1. rewrite andb_false_r in P1.
        by destruct b2 as [|? [|? [|? [|]]]].
      * by rewrite starts_low_ordinary in P1.
    + destruct (IH (String.length t)) with (s := t) (body := b) as [cb C]; [simpl; lia|done|done|].
      eexists. eapply body_u; [done|exact C|]. by apply andb_false_iff.
  - destruct (IH (String.length t)) with (s := t) (body := b) as [cb C]; [simpl; lia|done|done|].
    eexists. by eapply body_escape.
  - destruct (is_html c) eqn:Hh.
    { destruct (IH (String.length t)) with (s := t) (body := b) as [cb C]; [simpl; lia|done|done|].
      eexists. by apply body_html. }
    destruct (separator (String c (b +:+ String dquote ""))) as [e|] eqn:Se.
    + rewrite (separator_local _ _ _ r), <- (lex_str_split _ _ _ L) in Se.
      apply separator_Some in Se as (p & u & Eu & P).
      destruct (separator_steps p e u P) as (_ & Lu & _). rewrite Eu, Lu in E.
      destruct (lex_str u) as [[b2 r2]|] eqn:L2; [|done]. injection E as Eb ->. rewrite <- Eb.
      destruct (IH (String.length u)) with (s := u) (body := b2) as [cb C]; [|done|done|].
      * rewrite Eu, str_app_length. destruct P as [[-> _]|[-> _]]; simpl; lia.
      * eexists. by apply body_separator.
    + destruct (IH (String.length t)) with (s := t) (body := b) as [cb C]; [simpl; lia|done|done|].
      eexists. by apply body_char.
Qed.

(** ** Values keep their value *)

(** White space in front is dropped. *)
Lemma skip_ws_split s : exists w, s = w +:+ skip_ws s /\
  forall x, compact (w +:+ x) = compact x /\ skip_ws (w +:+ x) = skip_ws x /\
            (stops x -> stops (w +:+ x)).
Proof.
  induction s as [|c s (w & E & H)]; [by exists ""|]. simpl. destruct (is_ws c) eqn:W.
  - exists (String c w). rewrite str_app_cons. split; [by f_equal|]. intros x.
    rewrite str_app_cons. destruct (H x) as (H1 & H2 & H3). unfold compact. simpl. rewrite W.
    split_and!; [done|done|]. intros _.
    destruct c as [[] [] [] [] [] [] [] []]; try discriminate W; repeat split.
  - by exists "".
Qed.

(** A text stands for a value as it is and compacted. *)
Record value_compacts (d : nat) (t : string) (j : json) : Prop := {
  vc_app x : compact (t +:+ x) = compact t +:+ compact x;
  vc_text : reads_as d t j;
  vc_compacted : reads_as d (compact t) j
}.

Lemma compact_ordinary_outside c x :
  is_ws c = false -> Ascii.eqb c dquote = false -> compact (String c x) = String c (compact x).
Proof. intros W D. unfold compact. simpl. by rewrite W, D. Qed.

(** A text without white space or quotes is compact. *)
Fixpoint bare (s : string) : bool :=
  match s with "" => true | String c t => negb (is_ws c) && negb (Ascii.eqb c dquote) && bare t end.

Lemma bare_app s t : bare (s +:+ t) = bare s && bare t.
Proof. induction s as [|c s IH]; [done|]. rewrite str_app_cons. simpl. by rewrite IH, andb_assoc. Qed.

Lemma bare_compact s x : bare s = true -> compact (s +:+ x) = s +:+ compact x.
Proof.
  induction s as [|c s IH]; [done|]. simpl. intros H. bool_to_prop.
  rewrite !str_app_cons, compact_ordinary_outside by done. by rewrite IH.
Qed.

Lemma bare_compacts d s j : bare s = true -> reads_as d s j -> value_compacts d s j.
Proof.
  intros B R. assert (E : compact s = s).
  { pose proof (bare_compact s "" B) as E. change (compact "") with "" in E. by rewrite !str_app_empty in E. }
  split; [|done|by rewrite E]. intros x. rewrite E. by apply bare_compact.
Qed.

Lemma digits_bare s : all_digits s = true -> bare s = true.
Proof.
  induction s as [|c s IH]; [done|]. simpl. intros H. bool_to_prop. rewrite IH by done.
  by destruct c as [[] [] [] [] [] [] [] []].
Qed.

Lemma number_bare lit : number lit -> bare lit = true.
Proof.
  intros (sg & i & f & e & -> & Hsg & Hi & Hf & He). rewrite !bare_app, !andb_true_iff. split_and!.
  - by destruct Hsg as [->| ->].
  - destruct Hi as [->|(c & t & -> & _ & D)]; [done|]. by apply digits_bare.
  - destruct Hf as [->|(x & -> & D & _)]; [done|]. simpl. by apply digits_bare.
  - destruct He as [->|(c & sg' & x & -> & Hc & Hs & D & _)]; [done|]. simpl.
    rewrite bare_app, (digits_bare x), andb_true_r by done. apply andb_true_iff. split.
    + by destruct c as [[] [] [] [] [] [] [] []].
    + destruct Hs as [->|(y & -> & Hy)]; [done|]. by destruct y as [[] [] [] [] [] [] [] []].
Qed.

Lemma starts_app t x : starts t -> skip_ws (t +:+ x) = t +:+ x /\ (0 < String.length t)%nat.
Proof. intros H. split; [by apply starts_skip|]. destruct H as (c & u & -> & _). simpl. lia. Qed.

(** What an inside [b] of a container is: it compacts apart from what follows,
    it is read the same whatever follows, in at most its length of turns. *)
Record inside_compacts {A} (read : nat -> string -> option (A * string)) (b : string) (l : A) : Prop := {
  ic_app x : compact (b +:+ x) = compact b +:+ compact x;
  ic_read n x : (String.length b <= n)%nat -> read n (b +:+ x) = Some (l, x)
}.

Section Inside.
Context (d : nat).
Context (IHv : forall s j r, value d s = Some (j, r) -> exists t, s = t +:+ r /\ value_compacts d t j).

Lemma loop_elements_compacts n s l r :
  loop_elements (value d) n s = Some (l, r) ->
  exists b, s = b +:+ r /\ inside_compacts (loop_elements (value d)) b l /\ starts b /\
    Forall (fun p => value_compacts d p.1 p.2) l /\
    compact b = comma_join (map fst (map (fun p => (compact p.1, p.2)) l)) +:+ "]".
Proof.
  revert s l r. induction n as [|n IH]; intros s l r E; [done|]. cbn [loop_elements] in E.
  destruct (value d s) as [[v s1]|] eqn:V; [|done].
  destruct (IHv _ _ _ V) as (t & -> & VC). rewrite consumed_app in E. pose proof VC as [VA [TS TR] TC].
  destruct (skip_ws_split s1) as (w & W & WH). destruct (skip_ws s1) as [|c s2]; [done|].
  assert (Hstop : forall x, c = ","%char \/ c = "]"%char -> stops (w +:+ String c x)).
  { intros x Hc. apply (WH (String c x)). by destruct Hc as [->| ->]. }
  destruct (Ascii.eqb_spec c ",") as [Ec|_]; [|destruct (Ascii.eqb_spec c "]") as [Ec|_]; [|done]].
  - subst c. destruct (loop_elements (value d) n (skip_ws s2)) as [[l' r']|] eqn:L; [|done].
    injection E as <- <-. destruct (IH _ _ _ L) as (b & Eb & [BA BR] & BS & BF & BC).
    destruct (skip_ws_split s2) as (w2 & W2 & WH2).
    exists (t +:+ w +:+ String "," (w2 +:+ b)). split_and!.
    + by rewrite W, W2, Eb, !str_app_assoc, str_app_cons, !str_app_assoc.
    + split.
      * intros x. rewrite !str_app_assoc, str_app_cons, str_app_assoc.
        rewrite !VA, !(proj1 (WH _)), !compact_ordinary_outside, !(proj1 (WH2 _)), BA by done.
        by rewrite !str_app_assoc, str_app_cons.
      * intros [|n'] x Hn; rewrite !str_app_length in Hn; cbn [String.length] in Hn; [lia|].
        rewrite !str_app_assoc, str_app_cons, str_app_assoc. cbn [loop_elements].
        rewrite TR by auto. rewrite consumed_app, (proj1 (proj2 (WH _))).
        cbn [skip_ws is_ws Ascii.eqb Bool.eqb orb].
        rewrite (proj1 (proj2 (WH2 _))), (proj1 (starts_app b x BS)), BR; [done|].
        rewrite str_app_length in Hn. lia.
    + destruct TS as (c & u & -> & H). rewrite str_app_cons. by eexists _, _.
    + by constructor.
    + rewrite !VA, !(proj1 (WH _)), !compact_ordinary_outside, !(proj1 (WH2 _)), BC by done.
      destruct l' as [|p l']; [|cbn [map fst snd]; by rewrite comma_join_cons2, str_app_assoc, str_app_cons].
      exfalso. assert (N : loop_elements (value d) (String.length b) b = Some ([], "")).
      { rewrite <- (str_app_empty b) at 2. by apply BR. }
      destruct (String.length b) as [|m]; [done|]. cbn [loop_elements] in N. by repeat case_match.
  - subst c. injection E as <- <-. exists (t +:+ w +:+ "]"). split_and!.
    + by rewrite W, !str_app_assoc.
    + split.
      * intros x. rewrite !str_app_assoc. by rewrite !VA, !(proj1 (WH _)), str_app_assoc.
      * intros [|n'] x Hn; rewrite !str_app_length in Hn; cbn [String.length] in Hn; [lia|].
        rewrite !str_app_assoc. change ("]" +:+ x) with (String "]" x). cbn [loop_elements].
        rewrite TR by auto. rewrite consumed_app, (proj1 (proj2 (WH _))). done.
    + destruct TS as (c & u & -> & H). rewrite str_app_cons. by eexists _, _.
    + by constructor.
    + by rewrite VA, (proj1 (WH _)).
Qed.

Definition compact_member (m : string * (string * json)) : string * (string * json) :=
  (m.1, (compact m.2.1, m.2.2)).

(** What is done behind a member. *)
Definition after_member (n : nat) (m : string * (string * json)) (c : ascii) (y : string) :=
  if Ascii.eqb c ","%char then
    match loop_members (value d) n (skip_ws y) with
    | Some (l, r) => Some (m :: l, r)
    | None => None
    end
  else if Ascii.eqb c "}"%char then Some ([m], y) else None.

Definition ends_member (c : ascii) : Prop := c = ","%char \/ c = "}"%char.

Lemma ends_member_stops c x : ends_member c -> stops (String c x).
Proof. by intros [->| ->]. Qed.

(** One turn of the loop, on a member with white space as it may be. *)
Lemma loop_members_turn n body t v w1 w2 w3 c y :
  (forall x, lex_str (body +:+ String dquote x) = Some (body, x)) -> reads_as d t v ->
  (forall w x, w ∈ [w1; w2; w3] -> skip_ws (w +:+ x) = skip_ws x /\ (stops x -> stops (w +:+ x))) ->
  ends_member c ->
  loop_members (value d) (S n) (String dquote (body +:+ String dquote (w1 +:+ String ":" (w2 +:+ t +:+ w3 +:+ String c y))))
  = after_member n (unquote body, (t, v)) c y.
Proof.
  intros L [TS TR] W Hc. cbn [loop_members]. rewrite Ascii.eqb_refl. cbn [negb]. rewrite L.
  rewrite (proj1 (W w1 _ ltac:(set_solver))). cbn [skip_ws is_ws Ascii.eqb Bool.eqb orb negb].
  rewrite (proj1 (W w2 _ ltac:(set_solver))), starts_skip by done.
  rewrite TR by (apply W; [set_solver|by apply ends_member_stops]). rewrite consumed_app.
  rewrite (proj1 (W w3 _ ltac:(set_solver))). unfold after_member. by destruct Hc as [->| ->].
Qed.

(** A member of a text: it compacts apart from what follows, and is read alike
    with and without its white space. *)
Record member_piece (p : string) (m : string * (string * json)) : Prop := {
  mp_valid : valid_utf8 m.1;
  mp_value : value_compacts d m.2.1 m.2.2;
  mp_app x : compact (p +:+ x) = compact p +:+ compact x;
  mp_starts : starts p;
  mp_cstarts : starts (compact p);
  mp_read n c y : ends_member c -> loop_members (value d) (S n) (p +:+ String c y) = after_member n m c y;
  mp_cread n c y : ends_member c ->
    loop_members (value d) (S n) (compact p +:+ String c y) = after_member n (compact_member m) c y
}.

Lemma member_piece_intro body s2 w1 w2 w3 t v :
  lex_str (body +:+ String dquote s2) = Some (body, s2) -> value_compacts d t v ->
  (forall w x, w ∈ [w1; w2; w3] -> compact (w +:+ x) = compact x /\ skip_ws (w +:+ x) = skip_ws x /\
     (stops x -> stops (w +:+ x))) ->
  member_piece (String dquote (body +:+ String dquote (w1 +:+ String ":" (w2 +:+ t +:+ w3))))
    (unquote body, (t, v)).
Proof.
  intros LX VC W. destruct (string_compacts _ _ _ LX) as [cb [KC KL KB KV _]].
  pose proof VC as [VA TR CR].
  assert (P : forall x, compact (String dquote (body +:+ String dquote (w1 +:+ String ":" (w2 +:+ t +:+ w3 +:+ x))))
            = String dquote (cb +:+ String dquote (String ":" (compact t +:+ compact x)))).
  { intros x. unfold compact at 1. simpl. rewrite KC. do 3 f_equal.
    rewrite (proj1 (W w1 _ ltac:(set_solver))), compact_ordinary_outside by done.
    by rewrite (proj1 (W w2 _ ltac:(set_solver))), VA, (proj1 (W w3 _ ltac:(set_solver))). }
  assert (P0 : compact (String dquote (body +:+ String dquote (w1 +:+ String ":" (w2 +:+ t +:+ w3))))
            = String dquote (cb +:+ String dquote (String ":" (compact t)))).
  { specialize (P ""). by rewrite !str_app_empty in P. }
  assert (A : forall x, String dquote (body +:+ String dquote (w1 +:+ String ":" (w2 +:+ t +:+ w3))) +:+ x
            = String dquote (body +:+ String dquote (w1 +:+ String ":" (w2 +:+ t +:+ w3 +:+ x)))).
  { intros x. by repeat (rewrite ?str_app_cons, ?str_app_assoc). }
  split; cbn [fst snd].
  - apply unquote_valid.
  - done.
  - intros x. rewrite A, P, P0. by repeat (rewrite ?str_app_cons, ?str_app_assoc).
  - by eexists _, _.
  - rewrite P0. by eexists _, _.
  - intros n c y Hc. rewrite A. apply loop_members_turn; [exact KB|done| |done].
    intros w x Hw. apply (W w x Hw).
  - intros n c y Hc. rewrite P0. unfold compact_member. cbn [fst snd].
    rewrite <- (f_equal sanitize KV : unquote cb = unquote body).
    repeat (rewrite ?str_app_cons, ?str_app_assoc).
    apply (loop_members_turn n cb (compact t) v "" "" "" c y); [exact KL|done| |done].
    intros w x Hw. repeat (apply elem_of_cons in Hw as [->|Hw]; [done|]). by apply not_elem_of_nil in Hw.
Qed.

(** What a successful turn has read. *)
Lemma loop_members_inv n s l r :
  loop_members (value d) (S n) s = Some (l, r) ->
  exists p m c y, s = p +:+ String c y /\ member_piece p m /\ ends_member c /\ after_member n m c y = Some (l, r).
Proof.
  cbn [loop_members]. intros E.
  destruct s as [|q s1]; [done|]. destruct (Ascii.eqb_spec q dquote) as [->|]; [|done]. cbn [negb] in E.
  destruct (lex_str s1) as [[body s2]|] eqn:LX; [|done]. pose proof (lex_str_split _ _ _ LX) as ->.
  destruct (skip_ws_split s2) as (w1 & W1 & H1). destruct (skip_ws s2) as [|c s3]; [done|].
  destruct (Ascii.eqb_spec c ":") as [->|]; [|done]. cbn [negb] in E.
  destruct (skip_ws_split s3) as (w2 & W2 & H2). set (s4 := skip_ws s3) in *.
  destruct (value d s4) as [[v s5]|] eqn:V; [|done].
  destruct (IHv _ _ _ V) as (t & T & VC). rewrite T in E, W2. rewrite consumed_app in E.
  destruct (skip_ws_split s5) as (w3 & W3 & H3). destruct (skip_ws s5) as [|c s6]; [done|].
  exists (String dquote (body +:+ String dquote (w1 +:+ String ":" (w2 +:+ t +:+ w3)))), (unquote body, (t, v)), c, s6.
  split_and!.
  - rewrite W1, W2, W3. by repeat (rewrite ?str_app_cons, ?str_app_assoc).
  - apply (member_piece_intro body s2); [done|done|].
    intros w x Hw. repeat (apply elem_of_cons in Hw as [->|Hw]; [done|]). by apply not_elem_of_nil in Hw.
  - destruct (Ascii.eqb_spec c ",") as [->|]; [by left|]. destruct (Ascii.eqb_spec c "}") as [->|]; [by right|done].
  - exact E.
Qed.

Lemma loop_members_compacts n s l r :
  loop_members (value d) n s = Some (l, r) ->
  exists b, s = b +:+ r /\ inside_compacts (loop_members (value d)) b l /\ starts b /\ starts (compact b) /\
    Forall (fun m => valid_utf8 m.1 /\ value_compacts d m.2.1 m.2.2) l /\
    forall n x, (String.length (compact b) <= n)%nat ->
      loop_members (value d) n (compact b +:+ x) = Some (map compact_member l, x).
Proof.
  revert s l r. induction n as [|n IH]; intros s l r E; [done|].
  apply loop_members_inv in E as (p & m & c & y & -> & [MV MM MA MS MC MR MCR] & Hc & E).
  assert (SA : forall t x, starts t -> starts (t +:+ x))
    by (intros t x (a & u & -> & H); rewrite str_app_cons; by eexists _, _).
  destruct (starts_app p "" MS) as [_ Lp]. destruct (starts_app _ "" MC) as [_ Lc].
  unfold after_member in E. destruct Hc as [->| ->]; cbn [Ascii.eqb Bool.eqb] in E.
  - destruct (loop_members (value d) n (skip_ws y)) as [[l' r']|] eqn:L; [|done]. injection E as <- <-.
    destruct (IH _ _ _ L) as (b & Eb & [BA BR] & BS & BC & BF & BCR).
    destruct (skip_ws_split y) as (w & W & WH).
    assert (Ec : compact (p +:+ String "," (w +:+ b)) = compact p +:+ String "," (compact b))
      by (by rewrite MA, compact_ordinary_outside, (proj1 (WH _))).
    exists (p +:+ String "," (w +:+ b)). split_and!.
    + rewrite W, Eb. by repeat (rewrite ?str_app_cons, ?str_app_assoc).
    + split.
      * intros x. rewrite Ec. repeat (rewrite ?str_app_cons, ?str_app_assoc).
        by rewrite MA, compact_ordinary_outside, (proj1 (WH _)), BA.
      * intros [|n'] x Hn; rewrite !str_app_length in Hn; cbn [String.length] in Hn; [lia|].
        repeat (rewrite ?str_app_cons, ?str_app_assoc). rewrite MR by by left. unfold after_member.
        cbn [Ascii.eqb Bool.eqb]. rewrite (proj1 (proj2 (WH _))), (proj1 (starts_app b x BS)), BR; [done|].
        rewrite str_app_length in Hn. lia.
    + by apply SA.
    + rewrite Ec. by apply SA.
    + by constructor.
    + rewrite Ec. intros [|n'] x Hn; rewrite !str_app_length in Hn; cbn [String.length] in Hn; [lia|].
      repeat (rewrite ?str_app_cons, ?str_app_assoc). rewrite MCR by by left. unfold after_member.
      cbn [Ascii.eqb Bool.eqb]. rewrite (proj1 (starts_app _ x BC)), BCR; [done|lia].
  - injection E as <- <-. exists (p +:+ "}").
    assert (Ec : compact (p +:+ "}") = compact p +:+ "}") by by rewrite MA.
    split_and!.
    + by rewrite str_app_assoc.
    + split.
      * intros x. rewrite Ec, !str_app_assoc. by rewrite MA.
      * intros [|n'] x Hn; rewrite !str_app_length in Hn; cbn [String.length] in Hn; [lia|].
        rewrite str_app_assoc. change ("}" +:+ x) with (String "}" x). rewrite (MR n' "}"%char x) by by right. done.
    + by apply SA.
    + rewrite Ec. by apply SA.
    + by constructor.
    + rewrite Ec. intros [|n'] x Hn; rewrite !str_app_length in Hn; cbn [String.length] in Hn; [lia|].
      rewrite str_app_assoc. change ("}" +:+ x) with (String "}" x). rewrite (MCR n' "}"%char x) by by right. done.
Qed.
End Inside.

(** A container: its brackets and its inside. *)
Lemma array_compacts d t l r :
  (forall s j r, value d s = Some (j, r) -> exists t, s = t +:+ r /\ value_compacts d t j) ->
  array_body (value d) t = Some (l, r) ->
  exists b, String "[" t = b +:+ r /\ value_compacts (S d) b (JArr (snd <$> l)) /\
    Forall (fun p => value_compacts d p.1 p.2) l.
Proof.
  intros IH E. unfold array_body in E. destruct (skip_ws_split t) as (w & W & H).
  destruct (skip_ws t) as [|c u] eqn:Et; [done|]. destruct (Ascii.eqb_spec c "]") as [->|Hc].
  - injection E as <- <-. exists (String "[" (w +:+ "]")).
    assert (C : forall x, compact (String "[" (w +:+ String "]" x)) = "[]" +:+ compact x).
    { intros x. rewrite compact_ordinary_outside, (proj1 (H _)), compact_ordinary_outside by done. done. }
    split_and!.
    + rewrite W. by rewrite str_app_cons, str_app_assoc.
    + split.
      * intros x. rewrite str_app_cons, str_app_assoc. change ("]" +:+ x) with (String "]" x).
        rewrite C. change "]" with (String "]" ""). rewrite C. by rewrite str_app_assoc.
      * split; [by eexists _, _|]. intros x _.
        rewrite str_app_cons, str_app_assoc, value_arr. unfold array_body.
        by rewrite (proj1 (proj2 (H _))).
      * change "]" with (String "]" ""). rewrite C. change (compact "") with "". rewrite str_app_empty.
        apply (reads_arr d []). constructor.
    + constructor.
  - rewrite <- Et in E. destruct (loop_elements_compacts d IH _ _ _ _ E) as (b & Eb & [BA BR] & BS & BF & BC).
    assert (C : forall x, compact (String "[" (w +:+ b +:+ x)) = String "[" (compact b +:+ compact x))
      by (intros x; by rewrite compact_ordinary_outside, (proj1 (H _)), BA).
    assert (C0 : compact (String "[" (w +:+ b)) = String "[" (compact b)).
    { specialize (C ""). change (compact "") with "" in C. by rewrite !str_app_empty in C. }
    exists (String "[" (w +:+ b)). split_and!; [..|done].
    + rewrite str_app_cons, str_app_assoc, <- Eb, Et. by rewrite <- W.
    + split.
      * intros x. rewrite C0, str_app_cons, str_app_assoc, C. by rewrite str_app_cons.
      * split; [by eexists _, _|]. intros x _. rewrite str_app_cons, str_app_assoc, value_arr.
        unfold array_body. rewrite (proj1 (proj2 (H _))), (proj1 (starts_app b x BS)).
        destruct BS as (a & v & -> & _ & Ha). rewrite str_app_cons.
        destruct (Ascii.eqb_spec a "]"); [done|]. rewrite <- str_app_cons, BR; [done|].
        rewrite str_app_length. lia.
      * rewrite C0, BC.
        change (String "[" (?a +:+ "]")) with (array_text (map fst (map (fun p => (compact p.1, p.2)) l))).
        replace (snd <$> l) with (map snd (map (fun p => (compact p.1, p.2)) l)) by by rewrite map_map.
        apply reads_arr. apply list.Forall_forall. intros p (q & -> & Hq)%list_elem_of_fmap.
        rewrite list.Forall_forall in BF. apply (BF q Hq).
Qed.

Lemma object_compacts d t ms r :
  (forall s j r, value d s = Some (j, r) -> exists t, s = t +:+ r /\ value_compacts d t j) ->
  object_body (value d) t = Some (ms, r) ->
  exists b, String "{" t = b +:+ r /\ value_compacts (S d) b (JObj ((fun m => (m.1, m.2.2)) <$> ms)) /\
    Forall (fun m => valid_utf8 m.1 /\ value_compacts d m.2.1 m.2.2) ms.
Proof.
  intros IH E. unfold object_body in E. destruct (skip_ws_split t) as (w & W & H).
  destruct (skip_ws t) as [|c u] eqn:Et; [done|]. destruct (Ascii.eqb_spec c "}") as [->|Hc].
  - injection E as <- <-. exists (String "{" (w +:+ "}")).
    assert (C : forall x, compact (String "{" (w +:+ String "}" x)) = "{}" +:+ compact x).
    { intros x. rewrite compact_ordinary_outside, (proj1 (H _)), compact_ordinary_outside by done. done. }
    split_and!.
    + rewrite W. by rewrite str_app_cons, str_app_assoc.
    + split.
      * intros x. rewrite str_app_cons, str_app_assoc. change ("}" +:+ x) with (String "}" x).
        rewrite C. change "}" with (String "}" ""). rewrite C. by rewrite str_app_assoc.
      * split; [by eexists _, _|]. intros x _.
        rewrite str_app_cons, str_app_assoc, value_obj. unfold object_body.
        by rewrite (proj1 (proj2 (H _))).
      * change "}" with (String "}" ""). rewrite C. change (compact "") with "". rewrite str_app_empty.
        apply (reads_obj d []). constructor.
    + constructor.
  - rewrite <- Et in E.
    destruct (loop_members_compacts d IH _ _ _ _ E) as (b & Eb & [BA BR] & BS & BC & BF & BCR).
    assert (C : forall x, compact (String "{" (w +:+ b +:+ x)) = String "{" (compact b +:+ compact x))
      by (intros x; by rewrite compact_ordinary_outside, (proj1 (H _)), BA).
    assert (C0 : compact (String "{" (w +:+ b)) = String "{" (compact b)).
    { specialize (C ""). change (compact "") with "" in C. by rewrite !str_app_empty in C. }
    assert (R : forall ms' b' x, (forall n x, (String.length b' <= n)%nat ->
                  loop_members (value d) n (b' +:+ x) = Some (ms', x)) -> starts b' ->
                object_body (value d) (b' +:+ x) = Some (ms', x)).
    { intros ms' b' x Hr Hs. unfold object_body. rewrite (proj1 (starts_app b' x Hs)).
      destruct (Ascii.eqb_spec c "}"); [done|].
      destruct b' as [|a v]; [by destruct Hs as (? & ? & ? & _)|]. rewrite str_app_cons.
      destruct (Ascii.eqb_spec a "}") as [->|].
      - specialize (Hr (String.length (String "}" v)) "" (le_n _)). done.
      - rewrite <- str_app_cons. apply Hr. rewrite str_app_length. lia. }
    exists (String "{" (w +:+ b)). split_and!; [..|done].
    + rewrite str_app_cons, str_app_assoc, <- Eb, Et. by rewrite <- W.
    + split.
      * intros x. rewrite C0, str_app_cons, str_app_assoc, C. by rewrite str_app_cons.
      * split; [by eexists _, _|]. intros x _. rewrite str_app_cons, str_app_assoc, value_obj.
        assert (object_body (value d) (w +:+ b +:+ x) = Some (ms, x)) as ->; [|done].
        unfold object_body. rewrite (proj1 (proj2 (H _))). by apply R.
      * rewrite C0. split; [by eexists _, _|]. intros x _. rewrite str_app_cons, value_obj.
        rewrite (R (map compact_member ms)) by done.
        change (map compact_member ms) with (compact_member <$> ms). by rewrite <- list_fmap_compose.
Qed.

Lemma value_word d c t :
  Ascii.eqb c dquote = false -> Ascii.eqb c "{" = false -> Ascii.eqb c "[" = false ->
  value d (String c t) =
    if Ascii.eqb c "t" then match CutPrefix t "rue" with Some r => Some (JBool true, r) | None => None end
    else if Ascii.eqb c "f" then match CutPrefix t "alse" with Some r => Some (JBool false, r) | None => None end
    else if Ascii.eqb c "n" then match CutPrefix t "ull" with Some r => Some (JNull, r) | None => None end
    else match lex_number (String c t) with Some (lit, r) => Some (JNum lit, r) | None => None end.
Proof. intros D B A. destruct d; cbn -[CutPrefix lex_number Ascii.eqb dquote]; by rewrite D, B, A. Qed.

(** What is read at a place is a text of its own: it is read the same
    elsewhere, and so is what it compacts to. *)
Lemma value_compacts_ok d s j r :
  value d s = Some (j, r) -> exists t, s = t +:+ r /\ value_compacts d t j.
Proof.
  revert s j r. induction d as [d IH] using lt_wf_ind. intros s j r E.
  assert (IHp : forall d' s j r, d = S d' -> value d' s = Some (j, r) -> exists t, s = t +:+ r /\ value_compacts d' t j)
    by (intros d' ? ? ? ->; apply IH; lia).
  destruct s as [|c t]; [by destruct d|].
  assert (E' : value d (String c t) = Some (j, r)) by done.
  assert (Cs : Ascii.eqb c dquote = true \/ Ascii.eqb c dquote = false /\ Ascii.eqb c "{" = true \/
     Ascii.eqb c dquote = false /\ Ascii.eqb c "{" = false /\ Ascii.eqb c "[" = true \/
     Ascii.eqb c dquote = false /\ Ascii.eqb c "{" = false /\ Ascii.eqb c "[" = false)
    by (destruct (Ascii.eqb c dquote), (Ascii.eqb c "{"), (Ascii.eqb c "["); tauto).
  destruct Cs as [D|[[D B]|[[D [B A]]|[D [B A]]]]].
  - apply Ascii.eqb_eq in D as ->. rewrite value_str in E.
    destruct (lex_str t) as [[body r']|] eqn:L; [|done]. injection E as <- <-.
    pose proof (lex_str_split _ _ _ L) as ->. destruct (string_compacts _ _ _ L) as [cb [KC KL KB KV _]].
    assert (C : forall x, compact (String dquote (body +:+ String dquote x)) = String dquote (cb +:+ String dquote (compact x)))
      by (intros x; unfold compact at 1; simpl; by rewrite KC).
    exists (String dquote (body +:+ String dquote "")). split; [by rewrite str_app_cons, str_app_assoc|]. split.
    + intros x. rewrite str_app_cons, str_app_assoc. change (String dquote "" +:+ x) with (String dquote x).
      rewrite !C. by rewrite str_app_cons, str_app_assoc.
    + split; [by eexists _, _|]. intros x _. rewrite str_app_cons, str_app_assoc.
      change (String dquote "" +:+ x) with (String dquote x). by rewrite value_str, KB.
    + rewrite C. split; [by eexists _, _|]. intros x _. rewrite str_app_cons, str_app_assoc.
      change (String dquote (compact "") +:+ x) with (String dquote x). rewrite value_str, KL.
      unfold unquote. by rewrite KV.
  - apply Ascii.eqb_eq in B as ->. destruct d as [|d]; [done|]. rewrite value_obj in E.
    destruct (object_body (value d) t) as [[ms r']|] eqn:O; [|done]. injection E as <- <-.
    destruct (object_compacts d t ms r') as (b & Eb & V & _); eauto.
  - apply Ascii.eqb_eq in A as ->. destruct d as [|d]; [done|]. rewrite value_arr in E.
    destruct (array_body (value d) t) as [[l r']|] eqn:O; [|done]. injection E as <- <-.
    destruct (array_compacts d t l r') as (b & Eb & V & _); eauto.
  - rewrite value_word in E by done.
    assert (Hb : forall p v, bare p = true -> reads_as d p v -> exists t0, p +:+ r = t0 +:+ r /\ value_compacts d t0 v)
      by (intros p v Hp Hv; exists p; split; [done|by apply bare_compacts]).
    destruct (Ascii.eqb_spec c "t") as [->|_]; [|destruct (Ascii.eqb_spec c "f") as [->|_];
      [|destruct (Ascii.eqb_spec c "n") as [->|_]]].
    + destruct (CutPrefix t "rue") eqn:P; [|done]. injection E as <- ->. apply CutPrefix_Some in P as ->.
      by apply (Hb "true"); [|apply (reads_bool d true)].
    + destruct (CutPrefix t "alse") eqn:P; [|done]. injection E as <- ->. apply CutPrefix_Some in P as ->.
      by apply (Hb "false"); [|apply (reads_bool d false)].
    + destruct (CutPrefix t "ull") eqn:P; [|done]. injection E as <- ->. apply CutPrefix_Some in P as ->.
      by apply (Hb "null"); [|apply reads_null].
    + destruct (lex_number (String c t)) as [[lit r']|] eqn:N; [|done]. injection E as <- ->.
      apply lex_number_spec in N as [-> N]. by apply Hb; [apply number_bare|apply reads_num].
Qed.

(** ** Integers *)

Lemma pretty_N_char_digit n : (n < 10)%N ->
  is_digit (pretty_N_char n) = true /\ digit_val (pretty_N_char n) = Z.of_N n /\
  (pretty_N_char n = "0"%char -> n = 0%N).
Proof.
  intros H. destruct n as [|p]; [done|].
  do 4 (destruct p as [p|p|]; [try (exfalso; lia)|try (exfalso; lia)|done]).
Qed.

Lemma pretty_N_go_digits n s :
  (0 < n)%N -> all_digits s = true ->
  exists c t, pretty_N_go n s = String c t /\ c <> "0"%char /\ all_digits (String c t) = true /\
    digits_val 0 (String c t) = digits_val (Z.of_N n) s.
Proof.
  revert s. induction (N.lt_wf_0 n) as [n _ IH]. intros s Hn Hs. rewrite pretty_N_go_step by done.
  destruct (pretty_N_char_digit (n mod 10)) as (D1 & D2 & D3); [by apply N.mod_lt|].
  pose proof (N.div_mod n 10 ltac:(lia)) as DM.
  assert (Ds : all_digits (String (pretty_N_char (n mod 10)) s) = true) by (simpl; by rewrite D1, Hs).
  destruct (decide (n / 10 = 0)%N) as [E|E].
  - rewrite E, pretty_N_go_0. eexists _, _. split_and!; [done| |done|].
    + intros H. apply D3 in H. lia.
    + cbn [digits_val]. rewrite D1, D2. f_equal. lia.
  - destruct (IH (n / 10)%N) with (s := String (pretty_N_char (n mod 10)) s) as (c & t & -> & H1 & H2 & H3);
      [by apply N.div_lt|by apply N.neq_0_lt_0|done|]. exists c, t. split_and!; [done..|].
    rewrite H3. cbn [digits_val]. rewrite D1, D2. f_equal. lia.
Qed.

(** The digits of a number that is not negative. *)
Lemma Itoa_digits n : 0 <= n ->
  exists c t, Itoa n = String c t /\ int_part (Itoa n) /\ all_digits (Itoa n) = true /\
    digits_val 0 (Itoa n) = Some n.
Proof.
  intros H. unfold Itoa, pretty, pretty_Z. destruct n as [|p|p]; [|clear H|lia].
  - exists "0"%char, "". split_and!; [done|by left|done|done].
  - unfold pretty, pretty_positive, pretty, pretty_N. rewrite decide_False by done.
    destruct (pretty_N_go_digits (Npos p) "") as (c & t & -> & H1 & H2 & H3); [lia|done|].
    exists c, t. split_and!; try done. right. exists c, t. split_and!; try done.
    by destruct (Ascii.eqb_spec c "0").
Qed.

Lemma Itoa_neg p : Itoa (Zneg p) = String "-" (Itoa (Zpos p)).
Proof. done. Qed.

Lemma Itoa_number z : number (Itoa z).
Proof.
  destruct (decide (0 <= z)) as [H|H].
  - destruct (Itoa_digits z H) as (_ & _ & _ & I & _). exists "", (Itoa z), "", "".
    rewrite !str_app_nil, !str_app_empty. split_and!; [done|by left|done|by left|by left].
  - destruct z as [|p|p]; [lia|lia|]. destruct (Itoa_digits (Zpos p)) as (_ & _ & _ & I & _); [lia|].
    exists "-", (Itoa (Zpos p)), "", "". rewrite Itoa_neg, !str_app_empty.
    split_and!; [done|by right|done|by left|by left].
Qed.

Lemma digit_not_minus c s : is_digit c = true -> lex_minus (String c s) = ("", String c s).
Proof. intros D. simpl. by destruct (digit_not_sign c D) as [-> _]. Qed.

(** [ParseInt] reads what [Itoa] wrote. *)
Lemma ParseInt_Itoa z : is_int64 z -> ParseInt (Itoa z) = Some z.
Proof.
  intros [H1 H2]. unfold ParseInt. destruct (decide (0 <= z)) as [H|H].
  - destruct (Itoa_digits z H) as (c & t & E & _ & D & V). rewrite E in D, V |- *.
    simpl in D. apply andb_true_iff in D as [D _].
    rewrite digit_not_minus by done. rewrite bool_decide_false, V by done. cbn [bool_decide].
    rewrite bool_decide_true by done.
    apply Z.leb_le in H1, H2. by rewrite H1, H2.
  - destruct z as [|p|p]; [lia|lia|]. destruct (Itoa_digits (Zpos p)) as (c & t & E & _ & D & V); [lia|].
    rewrite Itoa_neg. cbn [lex_minus Ascii.eqb Bool.eqb]. rewrite bool_decide_false, V by by rewrite E.
    rewrite bool_decide_false by done. change (- Zpos p) with (Zneg p).
    apply Z.leb_le in H1, H2. by rewrite H1, H2.
Qed.

(** ** Floats *)

(** [v < 10^k] for [v = num / den]. *)
Definition below_pow10 (num den k : Z) : bool :=
  if 0 <=? k then num <? 10 ^ k * den else num * 10 ^ (- k) <? den.

(** The least [k] from [k] on with [v < 10^k]. *)
Fixpoint point_from (fuel : nat) (num den k : Z) : Z :=
  match fuel with
  | O => k
  | S fuel => if below_pow10 num den k then k else point_from fuel num den (k + 1)
  end.
Definition decimal_point (num den : Z) : Z :=
  point_from 5 num den ((Z.log2 num - Z.log2 den) * 30103 / 100000 - 1).

Definition zeros (n : Z) : string := string_of_list_ascii (repeat "0"%char (Z.to_nat n)).

(** [%f] and [%e] of the digits [ds] with the decimal point after [k] of them;
    an exponent is written without the zero [strconv] pads it with. *)
Definition fixed_text (ds : string) (k : Z) : string :=
  let n := Z.of_nat (String.length ds) in
  if k <=? 0 then "0." +:+ zeros (- k) +:+ ds
  else if n <=? k then ds +:+ zeros (k - n)
  else take_bytes (Z.to_nat k) ds +:+ "." +:+ drop_bytes (Z.to_nat k) ds.

Definition exponent_text (ds : string) (k : Z) : string :=
  take_bytes 1 ds +:+ (if (1 <? String.length ds)%nat then "." +:+ drop_bytes 1 ds else "")
  +:+ "e" +:+ (if k - 1 <? 0 then "-" else "+") +:+ Itoa (Z.abs (k - 1)).

(** The digits [d] at [k], as text, where that reads back as [x]. *)
Definition reading (x : f64) (exp neg : bool) (d k : Z) : option string :=
  let ds := Itoa d in
  let t := (if neg then "-" else "") +:+ (if exp then exponent_text ds k else fixed_text ds k) in
  match ParseFloat t with
  | Some y => if (0 <? d) && f64_eqb x y then Some t else None
  | None => None
  end.

(** The two numbers of [n] digits around [num / den], the nearer one first. *)
Definition around (num den k n : Z) : list (Z * Z) :=
  let p := n - k in
  let '(num, den) := if 0 <=? p then (num * 10 ^ p, den) else (num, den * 10 ^ (- p)) in
  let d := num / den in
  let lo := (d, k) in
  let hi := if d + 1 =? 10 ^ n then (10 ^ (n - 1), k + 1) else (d + 1, k) in
  if 2 * (num mod den) <? den then [lo; hi] else [hi; lo].

(** The fewest digits that read back; seventeen always do. *)
Fixpoint shortest (fuel : nat) (x : f64) (exp neg : bool) (num den k n : Z) : option string :=
  match fuel with
  | O => None
  | S fuel =>
      match omap (fun p => reading x exp neg p.1 p.2) (around num den k n) with
      | t :: _ => Some t
      | [] => shortest fuel x exp neg num den k (n + 1)
      end
  end.

(** The [float64] encoder of [Marshal]: an error for what is not a number. *)
Definition f64_text (x : f64) : option string :=
  match x with
  | SpecFloat.S754_zero neg => Some (if neg then "-0" else "0")
  | SpecFloat.S754_finite neg m e =>
      let num := if 0 <=? e then Zpos m * 2 ^ e else Zpos m in
      let den := if 0 <=? e then 1 else 2 ^ (- e) in
      let abs := SpecFloat.S754_finite false m e in
      let exp := f64_ltb abs (f64_ratio 1 1000000) || negb (f64_ltb abs (f64_of_Z (10 ^ 21))) in
      shortest 17 x exp neg num den (decimal_point num den) 1
  | _ => None
  end.

Lemma all_digits_app a b : all_digits (a +:+ b) = all_digits a && all_digits b.
Proof. induction a as [|c a IH]; [done|]. rewrite str_app_cons. simpl. by rewrite IH, andb_assoc. Qed.

Lemma zeros_digits n : all_digits (zeros n) = true.
Proof. unfold zeros. by induction (Z.to_nat n) as [|m IH]. Qed.

Lemma take_drop_digits n s :
  all_digits s = true -> all_digits (take_bytes n s) = true /\ all_digits (drop_bytes n s) = true.
Proof. intros H. rewrite <- (take_drop_bytes n s), all_digits_app in H. by apply andb_true_iff in H. Qed.

(** Digits that do not start with a zero. *)
Definition leading (ds : string) : Prop :=
  exists c t, ds = String c t /\ Ascii.eqb c "0"%char = false /\ all_digits ds = true.

Lemma Itoa_leading d : 0 < d -> leading (Itoa d).
Proof.
  intros H. destruct (Itoa_digits d) as (c & t & E & [I|(c' & t' & E' & N & _)] & D & V); [lia| |].
  - rewrite I in V. change (Some 0 = Some d) in V. injection V as V. lia.
  - exists c', t'. split_and!; done.
Qed.

Lemma sign_number sg i f e :
  sg = "" \/ sg = "-" -> int_part i -> frac_part f -> exp_part e -> number (sg +:+ i +:+ f +:+ e).
Proof. intros. by exists sg, i, f, e. Qed.

Lemma leading_int ds z : leading ds -> all_digits z = true -> int_part (ds +:+ z).
Proof.
  intros (c & t & -> & N & D) Hz. right. exists c, (t +:+ z). split_and!; [done|done|].
  by rewrite all_digits_app, D, Hz.
Qed.

Lemma fixed_number sg ds k : sg = "" \/ sg = "-" -> leading ds -> number (sg +:+ fixed_text ds k).
Proof.
  intros Hs L. pose proof L as (c & t & E & N & D). unfold fixed_text.
  destruct (Z.leb_spec k 0); [|destruct (Z.leb_spec (Z.of_nat (String.length ds)) k)].
  - rewrite <- (str_app_empty (zeros (- k) +:+ ds)).
    change ("0." +:+ (zeros (- k) +:+ ds) +:+ "") with ("0" +:+ String "." (zeros (- k) +:+ ds) +:+ "").
    apply sign_number; [done|by left| |by left]. right. exists (zeros (- k) +:+ ds). split_and!; [done| |].
    + by rewrite all_digits_app, zeros_digits, D.
    + rewrite E. by destruct (zeros (- k)).
  - rewrite <- (str_app_empty (ds +:+ _)), <- (str_app_empty ((ds +:+ _) +:+ "")).
    rewrite str_app_assoc. apply sign_number; [done| |by left|by left].
    apply leading_int; [done|apply zeros_digits].
  - rewrite <- (str_app_empty (drop_bytes _ ds)).
    change ("." +:+ drop_bytes (Z.to_nat k) ds +:+ "") with (String "." (drop_bytes (Z.to_nat k) ds) +:+ "").
    destruct (take_drop_digits (Z.to_nat k) ds D) as [D1 D2].
    apply sign_number; [done| | |by left].
    + subst ds. destruct (Z.to_nat k) as [|n] eqn:Ek; [lia|]. right. exists c, (take_bytes n t). done.
    + right. exists (drop_bytes (Z.to_nat k) ds). split_and!; [done|done|]. intros E0.
      assert (L0 : String.length ds = String.length (take_bytes (Z.to_nat k) ds)).
      { rewrite <- (take_drop_bytes (Z.to_nat k) ds) at 1. by rewrite E0, str_app_empty. }
      assert (Lt : forall n s, (String.length (take_bytes n s) <= n)%nat).
      { clear. induction n as [|n IH]; intros [|c s]; simpl; try lia. specialize (IH s). lia. }
      specialize (Lt (Z.to_nat k) ds). lia.
Qed.

Lemma exponent_number sg ds k : sg = "" \/ sg = "-" -> leading ds -> number (sg +:+ exponent_text ds k).
Proof.
  intros Hs (c & t & -> & N & D). unfold exponent_text. simpl in D. apply andb_true_iff in D as [Dc Dt].
  assert (I : int_part (take_bytes 1 (String c t))).
  { right. exists c, "". split_and!; [by destruct t|done|]. simpl. by rewrite Dc. }
  assert (X : exp_part ("e" +:+ (if k - 1 <? 0 then "-" else "+") +:+ Itoa (Z.abs (k - 1)))).
  { destruct (Itoa_digits (Z.abs (k - 1)) ltac:(lia)) as (c' & t' & E & _ & De & _). right.
    exists "e"%char, (if k - 1 <? 0 then "-" else "+"), (Itoa (Z.abs (k - 1))).
    split_and!; [done|done| |done|by rewrite E]. right. destruct (k - 1 <? 0); by eexists. }
  apply sign_number; [done|exact I| |exact X]. destruct t as [|c' t]; [by left|]. simpl.
  right. exists (String c' t). done.
Qed.

Lemma shortest_spec fuel x exp neg num den k n t :
  shortest fuel x exp neg num den k n = Some t ->
  number t /\ exists y, ParseFloat t = Some y /\ f64_eqb x y = true.
Proof.
  revert n. induction fuel as [|fuel IH]; intros n E; [done|]. cbn [shortest] in E.
  destruct (omap _ _) as [|u l] eqn:O; [by eapply IH|]. injection E as ->.
  assert (Hin : t ∈ omap (fun p => reading x exp neg p.1 p.2) (around num den k n)) by (rewrite O; left).
  apply list_elem_of_omap in Hin as ([d kk] & _ & R). cbn [fst snd] in R. unfold reading in R.
  cbv zeta in R. match type of R with match ?p with _ => _ end = _ => destruct p as [y|] eqn:P end; [|done].
  destruct (0 <? d) eqn:Hd; [|done]. destruct (f64_eqb x y) eqn:Q; [|done]. injection R as <-.
  apply Z.ltb_lt in Hd. split; [|exists y; split; [exact P|done]].
  destruct exp; [apply exponent_number|apply fixed_number]; try (by apply Itoa_leading); destruct neg; auto.
Qed.

(** Where a float is written, it is a number, and stands for that float. *)
Lemma f64_text_spec x t : f64_text x = Some t ->
  number t /\ exists y, ParseFloat t = Some y /\ (y = x \/ f64_eqb x y = true).
Proof.
  destruct x as [neg|neg| |neg m e]; cbn [f64_text]; try done.
  - intros [= <-]. split.
    + destruct neg; [exists "-", "0", "", ""|exists "", "0", "", ""];
        (split_and!; [done| |by left..]); [by right|by left].
    + destruct neg; eexists; (split; [reflexivity|by left]).
  - intros E. apply shortest_spec in E as [N (y & P & Q)]. eauto.
Qed.

(** ** Depth *)

Lemma loop_elements_mono (p q : string -> option (json * string)) n s x :
  (forall s y, p s = Some y -> q s = Some y) -> loop_elements p n s = Some x -> loop_elements q n s = Some x.
Proof.
  intros H. revert s x. induction n as [|n IH]; intros s x E; [done|]. cbn [loop_elements] in *.
  destruct (p s) as [[v s1]|] eqn:P; [|done]. rewrite (H _ _ P).
  destruct (skip_ws s1) as [|c s2]; [done|]. destruct (Ascii.eqb c ","); [|done].
  destruct (loop_elements p n (skip_ws s2)) as [[l r]|] eqn:L; [|done]. by rewrite (IH _ _ L).
Qed.

Lemma loop_members_mono (p q : string -> option (json * string)) n s x :
  (forall s y, p s = Some y -> q s = Some y) -> loop_members p n s = Some x -> loop_members q n s = Some x.
Proof.
  intros H. revert s x. induction n as [|n IH]; intros [|c0 s] x E; try done. cbn [loop_members] in *.
  destruct (negb _); [done|]. destruct (lex_str s) as [[b s2]|]; [|done].
  destruct (skip_ws s2) as [|c s3]; [done|]. destruct (negb _); [done|].
  destruct (p (skip_ws s3)) as [[v s5]|] eqn:P; [|done]. rewrite (H _ _ P).
  destruct (skip_ws s5) as [|c' s6]; [done|]. destruct (Ascii.eqb c' ","); [|done].
  destruct (loop_members p n (skip_ws s6)) as [[l r]|] eqn:L; [|done]. by rewrite (IH _ _ L).
Qed.

(** More depth reads no less. *)
Lemma value_step d s x : value d s = Some x -> value (S d) s = Some x.
Proof.
  revert s x. induction d as [d IH] using lt_wf_ind. intros [|c t] x E; [by destruct d|].
  destruct (Ascii.eqb_spec c dquote) as [->|D]; [by rewrite value_str in E |- *|].
  destruct (Ascii.eqb_spec c "{") as [->|B]; [|destruct (Ascii.eqb_spec c "[") as [->|A]].
  - destruct d as [|d]; [done|]. rewrite value_obj in E |- *. unfold object_body in *.
    destruct (skip_ws t) as [|c' u]; [done|]. destruct (Ascii.eqb c' "}"); [done|].
    destruct (loop_members (value d) _ _) as [[l r]|] eqn:L; [|done].
    by rewrite (loop_members_mono (value d) (value (S d)) _ _ _ (IH d (le_n _)) L).
  - destruct d as [|d]; [done|]. rewrite value_arr in E |- *. unfold array_body in *.
    destruct (skip_ws t) as [|c' u]; [done|]. destruct (Ascii.eqb c' "]"); [done|].
    destruct (loop_elements (value d) _ _) as [[l r]|] eqn:L; [|done].
    by rewrite (loop_elements_mono (value d) (value (S d)) _ _ _ (IH d (le_n _)) L).
  - by rewrite value_word in E |- * by by apply Ascii.eqb_neq.
Qed.

Lemma value_mono d d' s x : (d <= d')%nat -> value d s = Some x -> value d' s = Some x.
Proof. intros L E. induction L as [|d' L IH]; [done|]. by apply value_step. Qed.

Lemma reads_mono d d' t j : (d <= d')%nat -> reads_as d t j -> reads_as d' t j.
Proof. intros L [S R]. split; [done|]. intros rest Hr. by apply (value_mono d), R. Qed.

Lemma tree_of_text d t j : (d <= maxNestingDepth)%nat -> reads_as d t j -> tree_of t = j.
Proof. intros L R. unfold tree_of. by rewrite (reads_parse _ _ (reads_mono _ _ _ _ L R)). Qed.

(** ** Raw texts inside a text *)

(** [t] is a text that was read at depth [d]. *)
Definition read_at (d : nat) (t : string) : Prop := exists j, value_compacts d t j.

Lemma array_body_mono d d' t x : (d <= d')%nat -> array_body (value d) t = Some x -> array_body (value d') t = Some x.
Proof.
  intros L. unfold array_body. destruct (skip_ws t) as [|c u]; [done|].
  destruct (Ascii.eqb c "]"); [done|]. apply loop_elements_mono. intros s y. by apply value_mono.
Qed.

Lemma object_body_mono d d' t x : (d <= d')%nat -> object_body (value d) t = Some x -> object_body (value d') t = Some x.
Proof.
  intros L. unfold object_body. destruct (skip_ws t) as [|c u]; [done|].
  destruct (Ascii.eqb c "}"); [done|]. apply loop_members_mono. intros s y. by apply value_mono.
Qed.

Lemma elements_read_at d t : (d <= pred maxNestingDepth)%nat -> read_at (S d) t -> Forall (read_at d) (elements t).
Proof.
  intros L [j [_ [S R] _]]. specialize (R "" I). rewrite str_app_empty in R.
  unfold elements. rewrite skip_starts by done. destruct t as [|c u]; [done|].
  destruct (Ascii.eqb_spec c "[") as [->|]; [|constructor]. rewrite value_arr in R.
  destruct (array_body (value d) u) as [[l r]|] eqn:A; [|done].
  rewrite (array_body_mono _ _ _ _ L A).
  destruct (array_compacts d u l r (value_compacts_ok d) A) as (_ & _ & _ & F).
  apply list.Forall_forall. intros x (p & -> & Hp)%list_elem_of_fmap.
  rewrite list.Forall_forall in F. by exists p.2; apply F.
Qed.

Lemma members_of_body d u ms r :
  object_body (value d) u = Some (ms, r) ->
  Forall (fun m => valid_utf8 m.1 /\ read_at d m.2) ((fun m => (m.1, m.2.1)) <$> ms).
Proof.
  intros A. destruct (object_compacts d u ms r (value_compacts_ok d) A) as (_ & _ & _ & F).
  apply list.Forall_forall. intros x (p & -> & Hp)%list_elem_of_fmap.
  rewrite list.Forall_forall in F. destruct (F p Hp) as [V C]. split; [exact V|by exists p.2.2].
Qed.

Lemma members_read_at d t : (d <= pred maxNestingDepth)%nat -> read_at (S d) t ->
  Forall (fun m => valid_utf8 m.1 /\ read_at d m.2) (members t).
Proof.
  intros L [j [_ [S R] _]]. specialize (R "" I). rewrite str_app_empty in R.
  unfold members. rewrite skip_starts by done. destruct t as [|c u]; [done|].
  destruct (Ascii.eqb_spec c "{") as [->|]; [|constructor]. rewrite value_obj in R.
  destruct (object_body (value d) u) as [[ms r]|] eqn:A; [|done].
  rewrite (object_body_mono _ _ _ _ L A). by eapply members_of_body.
Qed.

(** The members of a whole body, white space around it allowed. *)
Lemma members_parsed raw j :
  parse raw = Some j -> Forall (fun m => valid_utf8 m.1 /\ read_at (pred maxNestingDepth) m.2) (members raw).
Proof.
  unfold parse, members. destruct nesting as [d ->]. cbn [pred].
  destruct (value _ (skip_ws raw)) as [[v r]|] eqn:V; [|done]. intros _.
  destruct (skip_ws raw) as [|c u]; [done|].
  destruct (Ascii.eqb_spec c "{") as [->|]; [|constructor]. rewrite value_obj in V.
  destruct (object_body _ u) as [[ms r']|] eqn:A; [|done]. by eapply members_of_body.
Qed.

(** A raw message is read as what it stands for, also after it was compacted. *)
Lemma raw_text_reads d t : (d <= maxNestingDepth)%nat -> t = "" \/ read_at d t ->
  reads_as d (raw_text t) (if bool_decide (t = "") then JNull else tree_of t).
Proof.
  intros L H. unfold raw_text. case_bool_decide as E; [apply reads_null|].
  destruct H as [?|[j [_ T C]]]; [done|]. by rewrite (tree_of_text d t j L T).
Qed.

(** ** What decoding keeps *)

Lemma find_field_in {A} (fs : list (field A)) k d : find_field fs k = Some d -> exists n, (n, d) ∈ fs.
Proof.
  induction fs as [|[n e] fs IH]; [done|]. simpl. destruct (String.eqb _ _).
  - intros [= ->]. exists n. left.
  - intros H. destruct (IH H) as [n' Hn]. exists n'. by right.
Qed.

Lemma dec_fields_keep {A} (Q : A -> Prop) fs ms v :
  Q v -> (forall n d k t v, (n, d) ∈ fs -> (k, t) ∈ ms -> Q v -> Q (d t v).1) -> Q (dec_fields fs ms v).1.
Proof.
  revert v. induction ms as [|[k t] ms IH]; intros v Hv H; [done|]. simpl.
  destruct (find_field fs k) as [d|] eqn:F.
  - destruct (find_field_in _ _ _ F) as [n Hn]. pose proof (H n d k t v Hn ltac:(left) Hv) as Hd.
    destruct (d t v) as [v' ok]. simpl in Hd.
    pose proof (IH v' Hd ltac:(intros; eapply H; [done|by right|done])) as X.
    by destruct (dec_fields fs ms v').
  - pose proof (IH v Hv ltac:(intros; eapply H; [done|by right|done])) as X.
    by destruct (dec_fields fs ms v).
Qed.

Lemma dec_struct_keep {A} (Q : A -> Prop) fs raw v :
  Q v -> (forall n d k t v, (n, d) ∈ fs -> (k, t) ∈ members raw -> Q v -> Q (d t v).1) ->
  Q (dec_struct fs raw v).1.
Proof. intros Hv H. unfold dec_struct. destruct (tree_of raw); try done. by apply dec_fields_keep. Qed.

Lemma decode_over_keep {A} (Q : A -> Prop) zero d texts old :
  Q zero -> Forall Q old -> (forall t v, t ∈ texts -> Q v -> Q (d t v).1) ->
  Forall Q (decode_over zero d texts old).1.
Proof.
  intros Hz. revert old. induction texts as [|t texts IH]; intros old Ho H; [done|]. simpl.
  assert (Qh : Q (default zero (head old))) by (destruct Ho; done).
  pose proof (H t _ ltac:(left) Qh) as Hd. destruct (d t _) as [v ok].
  pose proof (IH (tail old) ltac:(destruct Ho; [constructor|done]) ltac:(intros; apply H; [by right|done])) as X.
  destruct (decode_over zero d texts (tail old)) as [vs oks]. by constructor.
Qed.

Lemma dec_slice_keep {A} (Q : A -> Prop) zero d raw old :
  Q zero -> Forall Q (backing old) -> (forall t v, t ∈ elements raw -> Q v -> Q (d t v).1) ->
  Forall Q (backing (dec_slice zero d raw old).1).
Proof.
  intros Hz Ho H. unfold dec_slice. destruct (tree_of raw) as [| | | |l|]; try done; try constructor.
  destruct l; [constructor|]. pose proof (decode_over_keep Q zero d (elements raw) (backing old) Hz Ho H) as X.
  by destruct (decode_over _ _ _ _).
Qed.

Lemma dec_int_keep t old : is_int64 old -> is_int64 (dec_int t old).1.
Proof.
  intros H. unfold dec_int. destruct (tree_of t); try done. unfold ParseInt.
  destruct (lex_minus lit) as [sg s]. case_bool_decide; [done|]. destruct (digits_val 0 s) as [n|]; [|done].
  set (z := if bool_decide (sg = "") then n else - n).
  destruct ((min_int64 <=? z) && (z <=? max_int64)) eqn:E; [|done]. bool_to_prop. by split.
Qed.

(** ** What structs and lists are read as *)

(** The fields of a struct, with the value each text stands for. *)
Lemma struct_members d fs ms :
  Forall2 (fun f m => f.1 = m.1 /\ valid_utf8 f.1 /\ reads_as d f.2 m.2) fs ms ->
  exists full, map (fun f => quote f.1 +:+ String ":" f.2) fs = map member_text full /\
    fs = map (fun m => (m.1, m.2.1)) full /\ ms = map (fun m => (m.1, m.2.2)) full /\
    Forall (fun m => valid_utf8 m.1 /\ reads_as d m.2.1 m.2.2) full.
Proof.
  induction 1 as [|[k t] [k' v] fs ms (E & V & R) F (full & E1 & E2 & E3 & H)]; [by exists []|].
  cbn in E, V, R. subst k'. exists ((k, (t, v)) :: full).
  split_and!; [cbn [map]; by rewrite E1|cbn; by f_equal..|by constructor].
Qed.

Lemma reads_struct d fs ms :
  Forall2 (fun f m => f.1 = m.1 /\ valid_utf8 f.1 /\ reads_as d f.2 m.2) fs ms ->
  reads_as (S d) (struct_text fs) (JObj ms).
Proof.
  intros (full & E & _ & -> & H)%struct_members. unfold struct_text. rewrite E. by apply reads_obj.
Qed.

Lemma reads_list d ts js : Forall2 (reads_as d) ts js -> reads_as (S d) (array_text ts) (JArr js).
Proof.
  intros F. assert (H : exists l, ts = map fst l /\ js = map snd l /\ Forall (fun p => reads_as d p.1 p.2) l).
  { induction F as [|t j ts js R F (l & -> & -> & IH)]; [by exists []|]. exists ((t, j) :: l). by split_and!; [..|constructor]. }
  destruct H as (l & -> & -> & H). by apply reads_arr.
Qed.

Lemma reads_Itoa d z : reads_as d (Itoa z) (JNum (Itoa z)).
Proof. apply reads_num, Itoa_number. Qed.

Lemma reads_f64 d x t : f64_text x = Some t -> reads_as d t (JNum t).
Proof. intros E. by apply reads_num, (f64_text_spec x). Qed.

Create HintDb reads.
#[export] Hint Resolve reads_str reads_Itoa reads_null reads_bool : reads.

(** What is read at a text that is read as [j]. *)
Lemma members_of_struct fs ms :
  Forall2 (fun f m => f.1 = m.1 /\ valid_utf8 f.1 /\ reads_as (pred maxNestingDepth) f.2 m.2) fs ms ->
  members (struct_text fs) = fs.
Proof.
  intros (full & E1 & E2 & _ & H)%struct_members. unfold struct_text. rewrite E1.
  change (String "{" (?a +:+ "}")) with (object_text full). rewrite members_object by done. by rewrite E2.
Qed.
