(* ===== verification/JsonLine.v ===== *)
(** * JSON texts as lines (encoding/json over internal/providers/sse.go)

    A text the encoder writes holds no newline, so it is the payload of one SSE
    event; it is at most six times as long as what it quotes; and the newline an
    [Encoder] appends changes nothing for whoever reads it. *)

From Stdlib Require Import ZArith Lia String Ascii.
From stdpp Require Import base strings list numbers pretty.
From S2P Require Import Prelude Float64 GoString Json JsonText Providers Sse.

Local Open Scope Z_scope.

(** ** One line *)

Definition one_line (s : string) : Prop := contains_byte s LF = false.

Lemma contains_app a b c : contains_byte (a +:+ b) c = contains_byte a c || contains_byte b c.
Proof.
  induction a as [|x a IH]; [done|]. rewrite str_app_cons. simpl. rewrite IH. by destruct (Ascii.eqb x c).
Qed.

Lemma one_line_app a b : one_line a -> one_line b -> one_line (a +:+ b).
Proof. unfold one_line. intros Ha Hb. by rewrite contains_app, Ha, Hb. Qed.

Lemma one_line_cons c s : Ascii.eqb c LF = false -> one_line s -> one_line (String c s).
Proof. intros H Hs. unfold one_line. simpl. by rewrite H. Qed.

Lemma one_line_digits s : all_digits s = true -> one_line s.
Proof.
  induction s as [|c s IH]; [done|]. simpl. intros [D H]%andb_true_iff.
  apply one_line_cons; [|by apply IH]. destruct (Ascii.eqb_spec c LF) as [->|]; done.
Qed.

Lemma one_line_Itoa z : one_line (Itoa z).
Proof.
  destruct z as [|p|p]; [done| |rewrite Itoa_neg; apply one_line_cons; [done|]];
    destruct (Itoa_digits (Zpos p)) as (_ & _ & _ & _ & D & _); try lia; by apply one_line_digits.
Qed.

Lemma one_line_high n s : high_run n s -> one_line (take_bytes n s).
Proof.
  revert s. induction n as [|n IH]; intros s H; [done|]. destruct s as [|c s]; [done|].
  destruct H as [H1 H2]. apply one_line_cons; [|by apply IH].
  destruct (Ascii.eqb_spec c LF) as [->|]; [|done]. by vm_compute in H1; lia.
Qed.

(** What one rune is quoted as: one line, at most six bytes for each of its own. *)
Lemma quoted_rune_line c s :
  one_line (quoted_rune (String c s)) /\
  (String.length (quoted_rune (String c s)) <= 6 * String.length (take_bytes (rune_len (String c s)) (String c s)))%nat.
Proof.
  unfold quoted_rune, rune_len. pose proof (utf8_width_cases c s) as W.
  assert (Q : one_line (quote_ascii c) /\ (String.length (quote_ascii c) <= 6)%nat).
  { clear. unfold one_line. destruct c as [[] [] [] [] [] [] [] []]; vm_compute; (split; [reflexivity|lia]). }
  destruct (utf8_width (String c s)) as [|[|k]] eqn:E; [split; [done|by destruct s; simpl; lia]| |].
  { destruct Q as [Q1 Q2]. split; [exact Q1|by destruct s; simpl; lia]. }
  destruct W as [[W0 W] _]. cbn [Nat.max]. destruct (HasPrefix _ line_separator); [split; [done|simpl; lia]|].
  destruct (HasPrefix _ paragraph_separator); [split; [done|simpl; lia]|].
  split; [|lia]. apply one_line_high. cbn [high_run]. by split.
Qed.

Lemma take_bytes_app n s : s = take_bytes n s +:+ drop_bytes n s.
Proof. symmetry. apply take_drop_bytes. Qed.

Lemma quote_from_line s :
  one_line (quote_from Fresh s) /\ (String.length (quote_from Fresh s) <= 6 * String.length s)%nat.
Proof.
  induction s as [|c s [IH1 IH2]] using rune_ind; [done|]. rewrite quote_rune.
  destruct (quoted_rune_line c s) as [Q1 Q2]. split; [by apply one_line_app|].
  pose proof (f_equal String.length (take_bytes_app (rune_len (String c s)) (String c s))) as L.
  rewrite str_app_length in L |- *. lia.
Qed.

Lemma one_line_quote s : one_line (quote s).
Proof.
  unfold quote. apply one_line_cons; [done|]. apply one_line_app; [apply quote_from_line|done].
Qed.

Lemma quote_length s : (String.length (quote s) <= 6 * String.length s + 2)%nat.
Proof.
  unfold quote. cbn [String.length]. rewrite str_app_length. simpl (String.length (String dquote "")).
  pose proof (quote_from_line s) as [_ L]. lia.
Qed.

Lemma one_line_comma l : Forall one_line l -> one_line (comma_join l).
Proof.
  induction 1 as [|t l Ht Hl IH]; [done|]. destruct l as [|u l]; [done|].
  rewrite comma_join_cons2. apply one_line_app; [done|]. by apply one_line_cons.
Qed.

Lemma one_line_struct fs : Forall (fun f => one_line f.2) fs -> one_line (struct_text fs).
Proof.
  intros F. unfold struct_text. apply one_line_cons; [done|]. apply one_line_app; [|done].
  apply one_line_comma, Forall_map. eapply Forall_impl; [exact F|]. intros f Hf.
  apply one_line_app; [apply one_line_quote|]. by apply one_line_cons.
Qed.

Lemma one_line_array ts : Forall one_line ts -> one_line (array_text ts).
Proof.
  intros F. unfold array_text. apply one_line_cons; [done|]. apply one_line_app; [|done].
  by apply one_line_comma.
Qed.

Create HintDb one_line.
#[export] Hint Resolve one_line_quote one_line_Itoa one_line_struct one_line_array : one_line.

(** Every field of a struct, or element of an array. *)
Ltac each_line :=
  repeat lazymatch goal with
  | |- Forall _ [] => constructor
  | |- Forall _ (_ :: _) => apply Forall_cons; split
  end; cbn [fst snd]; auto with one_line.

(** ** How long *)

Lemma pretty_N_go_length n s k :
  (n < 10 ^ N.of_nat k)%N -> (String.length (pretty_N_go n s) <= k + String.length s)%nat.
Proof.
  revert s k. induction (N.lt_wf_0 n) as [n _ IH]. intros s k Hk.
  destruct (decide (n = 0)%N) as [->|Hn]; [rewrite pretty_N_go_0; lia|].
  rewrite pretty_N_go_step by lia. destruct k as [|k]; [simpl in Hk; lia|].
  etransitivity; [apply (IH (n / 10)%N) with (k := k)|simpl; lia].
  - apply N.div_lt; lia.
  - apply N.Div0.div_lt_upper_bound. rewrite Nat2N.inj_succ, N.pow_succ_r' in Hk. exact Hk.
Qed.

Lemma Itoa_length z : is_int64 z -> (String.length (Itoa z) <= 20)%nat.
Proof.
  unfold is_int64, min_int64, max_int64. intros H.
  assert (L : forall p, (Zpos p < 10 ^ 19) -> (String.length (Itoa (Zpos p)) <= 19)%nat).
  { intros p Hp. unfold Itoa, pretty, pretty_Z, pretty, pretty_positive, pretty, pretty_N.
    rewrite decide_False by done. rewrite <- (Nat.add_0_r 19). apply (pretty_N_go_length _ "" 19).
    change (10 ^ N.of_nat 19)%N with (Z.to_N (10 ^ 19)). lia. }
  destruct z as [|p|p]; [simpl; lia| |]; [|rewrite Itoa_neg; cbn [String.length]];
    pose proof (L p ltac:(lia)); lia.
Qed.

(** A bound on a struct's text, from the texts of its fields. *)
Definition field_bound (f : string * string) : nat := (6 * String.length f.1 + String.length f.2 + 4)%nat.

Lemma comma_join_bound l : (String.length (comma_join l) <= sum_list_with (fun t => S (String.length t)) l)%nat.
Proof.
  induction l as [|t l IH]; [done|]. destruct l as [|u l]; [simpl; lia|].
  rewrite comma_join_cons2, str_app_length. cbn [sum_list_with String.length] in *. lia.
Qed.

Lemma struct_bound fs : (String.length (struct_text fs) <= 2 + sum_list_with field_bound fs)%nat.
Proof.
  unfold struct_text. cbn [String.length]. rewrite str_app_length.
  pose proof (comma_join_bound (map (fun f => quote f.1 +:+ String ":" f.2) fs)) as L.
  assert (M : (sum_list_with (fun t => S (String.length t)) (map (fun f => quote f.1 +:+ String ":" f.2) fs)
          <= sum_list_with field_bound fs)%nat).
  { clear L. induction fs as [|[k t] fs IH]; [done|]. cbn [map sum_list_with].
    rewrite str_app_length. cbn [String.length]. unfold field_bound at 1. cbn [fst snd].
    pose proof (quote_length k). lia. }
  simpl (String.length "}"). lia.
Qed.

Lemma array_bound t : String.length (array_text [t]) = (2 + String.length t)%nat.
Proof. unfold array_text. cbn [String.length comma_join]. rewrite str_app_length. simpl. lia. Qed.

(** ** As the payload of an event *)

Lemma payload_one_line s : one_line s -> forall c, c ∈ payload s -> lf_ c = false.
Proof.
  unfold one_line, payload, lf_. induction s as [|x s IH]; simpl; intros H c Hc.
  - by apply not_elem_of_nil in Hc.
  - destruct (Ascii.eqb x LF) eqn:X; [done|]. apply elem_of_cons in Hc as [->|Hc]; [done|by apply IH].
Qed.

Lemma payload_length s : length (payload s) = String.length s.
Proof. unfold payload. induction s as [|c s IH]; simpl; [done|]. by rewrite IH. Qed.

Lemma payload_app a b : payload (a +:+ b) = payload a ++ payload b.
Proof. unfold payload. induction a as [|c a IH]; [done|]. rewrite str_app_cons. simpl. by rewrite IH. Qed.

Lemma str_payload s : str (payload s) = s.
Proof. apply string_of_list_ascii_of_string. Qed.

(** A struct's text is a payload, if it is short enough. *)
Lemma struct_framable fs :
  Forall (fun f => one_line f.2) fs -> Z.of_nat (String.length (struct_text fs)) + 8 <= MaxSSEEventBytes ->
  framable (payload (struct_text fs)).
Proof.
  intros F L. split_and!.
  - apply payload_one_line. by apply one_line_struct.
  - unfold struct_text.
    change (String "{" (comma_join ?l +:+ "}")) with (String "{" (comma_join l) +:+ "}").
    rewrite payload_app. by apply trim_eol_app.
  - by rewrite payload_length.
Qed.

(** ** With the encoder's newline *)

Definition newline : string := String LF "".

Lemma reads_parse_line t j : reads_as maxNestingDepth t j -> parse (t +:+ newline) = Some j.
Proof.
  intros [S V]. unfold parse. rewrite (starts_skip t newline S). by rewrite V by done.
Qed.

Lemma members_line fs ms :
  Forall2 (fun f m => f.1 = m.1 /\ valid_utf8 f.1 /\ reads_as (pred maxNestingDepth) f.2 m.2) fs ms ->
  members (struct_text fs +:+ newline) = fs.
Proof.
  intros (full & E1 & E2 & _ & H)%struct_members.
  unfold struct_text. rewrite E1, str_app_cons, str_app_assoc.
  unfold members. cbn [skip_ws is_ws Ascii.eqb Bool.eqb orb].
  change (String "}" "" +:+ newline) with (String "}" newline).
  rewrite object_body_read by done. by rewrite E2.
Qed.
