(* ===== verification/Dialect.v ===== *)
(** * What the translating adapters share (internal/providers/anthropic, gemini)

    The Anthropic and the Gemini adapter read the same slice of an OpenAI
    request and write the same OpenAI texts back; each repeats the code for
    itself.  The lemmas say what the texts are read as: the usage a client
    reads out of one is the usage it was written with. *)

From Stdlib Require Import ZArith Lia String Ascii.
From stdpp Require Import base gmap strings list numbers.
From S2P Require Import Prelude Float64 GoString Providers Json JsonText OpenaiWire.

Local Open Scope Z_scope.
Local Open Scope string_scope.

(** ** The request as it is read *)

Definition roleSystem : string := "system".
Definition roleDeveloper : string := "developer".
Definition roleAssistant : string := "assistant".

Record openAIMessage := mkMessage { Role : string; Content : string }.
Definition zeroMessage : openAIMessage := mkMessage "" "".

Record openAIRequest := mkOpenAIRequest {
  Model : string; Messages : slice openAIMessage;
  MaxTokens : option Z; MaxCompletionTokens : option Z;
  Temperature : option f64; TopP : option f64; Stop : string
}.
Definition zeroRequest : openAIRequest := mkOpenAIRequest "" nil_slice None None None None "".

Definition dec_message : decoder openAIMessage := dec_struct
  [("role", at_field Role (fun v m => mkMessage v (Content m)) dec_string);
   ("content", at_field Content (fun v m => mkMessage (Role m) v) dec_raw)].

Definition set_Messages (v : slice openAIMessage) (r : openAIRequest) : openAIRequest :=
  mkOpenAIRequest (Model r) v (MaxTokens r) (MaxCompletionTokens r) (Temperature r) (TopP r) (Stop r).

Definition dec_request : decoder openAIRequest := dec_struct
  [("model", at_field Model (fun v r => mkOpenAIRequest v (Messages r) (MaxTokens r)
       (MaxCompletionTokens r) (Temperature r) (TopP r) (Stop r)) dec_string);
   ("messages", at_field Messages set_Messages (dec_slice zeroMessage dec_message));
   ("max_tokens", at_field MaxTokens (fun v r => mkOpenAIRequest (Model r) (Messages r) v
       (MaxCompletionTokens r) (Temperature r) (TopP r) (Stop r)) (dec_ptr 0 dec_int));
   ("max_completion_tokens", at_field MaxCompletionTokens (fun v r => mkOpenAIRequest (Model r) (Messages r)
       (MaxTokens r) v (Temperature r) (TopP r) (Stop r)) (dec_ptr 0 dec_int));
   ("temperature", at_field Temperature (fun v r => mkOpenAIRequest (Model r) (Messages r) (MaxTokens r)
       (MaxCompletionTokens r) v (TopP r) (Stop r)) (dec_ptr f64_zero dec_float));
   ("top_p", at_field TopP (fun v r => mkOpenAIRequest (Model r) (Messages r) (MaxTokens r)
       (MaxCompletionTokens r) (Temperature r) v (Stop r)) (dec_ptr f64_zero dec_float));
   ("stop", at_field Stop (fun v r => mkOpenAIRequest (Model r) (Messages r) (MaxTokens r)
       (MaxCompletionTokens r) (Temperature r) (TopP r) v) dec_raw)].

(** A string, or an array of parts of which the text ones count. *)
Definition textOf (content : string) : string :=
  match Unmarshal dec_string content "" with
  | Some s => s
  | None =>
      match Unmarshal (dec_slice zeroPart dec_part) content nil_slice with
      | Some parts => join_text (slice_list parts)
      | None => ""
      end
  end.

Definition stopSequences (raw : string) : list string :=
  if bool_decide (raw = "") then []
  else match Unmarshal dec_string raw "" with
  | Some one => if bool_decide (one = "") then [] else [one]
  | None =>
      match Unmarshal (dec_slice "" dec_string) raw nil_slice with
      | Some many => slice_list many
      | None => []
      end
  end.

Definition is_system (m : openAIMessage) : bool :=
  bool_decide (Role m = roleSystem) || bool_decide (Role m = roleDeveloper).

(** The loop over the messages: the system texts that say something, and what
    is made of each turn. *)
Fixpoint split_messages {A} (turn : openAIMessage -> A) (ms : list openAIMessage) : list string * list A :=
  match ms with
  | [] => ([], [])
  | m :: ms =>
      let '(system, turns) := split_messages turn ms in
      if is_system m then
        let text := textOf (Content m) in
        (if bool_decide (text = "") then system else text :: system, turns)
      else (system, turn m :: turns)
  end.

(** A field with [omitempty]. *)
Definition omit (drop : bool) (k text : string) : list (string * string) :=
  if drop then [] else [(k, text)].
(** One that is a pointer to a float: [None] when it has no text. *)
Definition omit_float (k : string) (x : option f64) : option (list (string * string)) :=
  match x with
  | None => Some []
  | Some x => match f64_text x with Some t => Some [(k, t)] | None => None end
  end.


(** ** Answers as they are written *)

Definition objectCompletion : string := "chat.completion".
Definition objectChunk : string := "chat.completion.chunk".

(** [toOpenAIUsage], written. *)
Definition openAIUsage (u : Usage) : string := struct_text
  [("prompt_tokens", Itoa (PromptTokens u)); ("completion_tokens", Itoa (CompletionTokens u));
   ("total_tokens", Itoa (TotalTokens u))].

Definition completion_text (id model content finish : string) (created : Z) (u : Usage) : string := struct_text
  [("id", quote id); ("object", quote objectCompletion); ("created", Itoa created); ("model", quote model);
   ("choices", array_text [struct_text
      [("index", Itoa 0);
       ("message", struct_text [("role", quote roleAssistant); ("content", quote content)]);
       ("finish_reason", quote finish)]]);
   ("usage", openAIUsage u)].

(** [delta] is the text of the delta; [finish] is null until the turn ends. *)
Definition chunk_text (id model delta : string) (created : Z) (finish : option string) (u : option Usage)
    : string := struct_text
  ([("id", quote id); ("object", quote objectChunk); ("created", Itoa created); ("model", quote model);
    ("choices", array_text [struct_text
       [("index", Itoa 0); ("delta", delta);
        ("finish_reason", match finish with Some f => quote f | None => "null" end)]])]
   ++ match u with Some u => [("usage", openAIUsage u)] | None => [] end).

(** ** A request, as its members *)

Definition float_members (k : string) (x : option f64) : list (string * json) :=
  match x with
  | Some x => match f64_text x with Some t => [(k, JNum t)] | None => [] end
  | None => []
  end.
Definition member_unless (drop : bool) (k : string) (j : json) : list (string * json) :=
  if drop then [] else [(k, j)].

Definition turns (r : openAIRequest) : list openAIMessage :=
  base.filter (fun m => is_system m = false) (slice_list (Messages r)).
Definition system_texts (r : openAIRequest) : list string :=
  base.filter (fun t => t <> "") ((fun m => textOf (Content m)) <$>
    base.filter (fun m => is_system m = true) (slice_list (Messages r))).

Lemma split_messages_spec {A} (turn : openAIMessage -> A) r :
  split_messages turn (slice_list (Messages r)) = (system_texts r, turn <$> turns r).
Proof.
  unfold system_texts, turns. induction (slice_list (Messages r)) as [|m ms IH]; [done|].
  cbn [split_messages]. rewrite IH. rewrite !filter_cons. destruct (is_system m); cbn [decide].
  - rewrite decide_True, decide_False by done. rewrite fmap_cons, filter_cons.
    case_bool_decide; [by rewrite decide_False by auto|by rewrite decide_True].
  - by rewrite decide_False, decide_True by done.
Qed.

(** ** What was read *)

(** The depth at which the content of a message is read. *)
Definition contentDepth : nat := maxNestingDepth - 3.

Lemma contentDepth_spec : maxNestingDepth = S (S (S contentDepth)).
Proof. unfold contentDepth. destruct nesting as [d ->]. lia. Qed.

(** The content of a message is absent, or a text that was read. *)
Definition content_ok (m : openAIMessage) : Prop := Content m = "" \/ read_at contentDepth (Content m).

Lemma dec_message_content t m :
  read_at (S contentDepth) t -> content_ok m -> content_ok (dec_message t m).1.
Proof.
  intros Ht Hm. apply (dec_struct_keep content_ok); [done|].
  intros n d k u v Hd Hu Hv.
  apply (members_read_at contentDepth) in Ht; [|rewrite contentDepth_spec; simpl; lia].
  rewrite list.Forall_forall in Ht. destruct (Ht _ Hu) as [_ Hr]. cbn in Hr.
  apply elem_of_cons in Hd as [[= -> ->]|Hd]; [|apply list_elem_of_singleton in Hd as [= -> ->]].
  - unfold at_field. by destruct (dec_string u (Role v)).
  - by right.
Qed.

Lemma request_contents raw r :
  Unmarshal dec_request raw zeroRequest = Some r -> Forall content_ok (slice_list (Messages r)).
Proof.
  unfold Unmarshal. destruct (parse raw) as [j|] eqn:P; [|done].
  pose proof (members_parsed _ _ P) as F. rewrite contentDepth_spec in F. cbn [pred] in F.
  rewrite list.Forall_forall in F.
  assert (K : Forall content_ok (backing (Messages (dec_request raw zeroRequest).1))).
  { apply (dec_struct_keep (fun r => Forall content_ok (backing (Messages r)))); [constructor|].
    intros n d k t v Hd Hk Hv. destruct (F _ Hk) as [_ Ht]. cbn in Ht. 
    repeat (apply elem_of_cons in Hd as [[= -> ->]|Hd]); [..|by apply not_elem_of_nil in Hd].
    2: { unfold at_field.
      pose proof (dec_slice_keep content_ok zeroMessage dec_message t (Messages v) ltac:(by left) Hv) as X.
      destruct (dec_slice zeroMessage dec_message t (Messages v)) as [w ok]. apply X. intros e m He.
      apply dec_message_content.
      apply (elements_read_at (S contentDepth)) in Ht; [|rewrite contentDepth_spec; simpl; lia].
      rewrite list.Forall_forall in Ht. by apply Ht. }
    all: unfold at_field; by match goal with |- context [let '(_, _) := ?x in _] => destruct x end. }
  destruct (dec_request raw zeroRequest) as [v ok]. destruct ok; [|done]. intros [= <-].
  unfold slice_list. by apply Forall_take.
Qed.

(** ** What a client reads *)

Lemma dec_struct_text {A} (decs : list (field A)) fs ms old :
  Forall2 (fun f m => f.1 = m.1 /\ valid_utf8 f.1 /\ reads_as (pred maxNestingDepth) f.2 m.2) fs ms ->
  dec_struct decs (struct_text fs) old = dec_fields decs fs old.
Proof.
  intros F. unfold dec_struct. rewrite (members_of_struct fs ms F).
  rewrite (tree_of_text maxNestingDepth _ (JObj ms)); [done|done|].
  rewrite contentDepth_spec in F |- *. by apply reads_struct.
Qed.

Lemma dec_int_Itoa z old : is_int64 z -> dec_int (Itoa z) old = (z, true).
Proof.
  intros H. unfold dec_int. rewrite (tree_of_text 0 _ (JNum (Itoa z))); [|lia|apply reads_Itoa].
  by rewrite ParseInt_Itoa.
Qed.

Definition int64_usage (u : Usage) : Prop :=
  is_int64 (PromptTokens u) /\ is_int64 (CompletionTokens u) /\ is_int64 (TotalTokens u).

Definition usage_members (u : Usage) : list (string * json) :=
  [("prompt_tokens", JNum (Itoa (PromptTokens u))); ("completion_tokens", JNum (Itoa (CompletionTokens u)));
   ("total_tokens", JNum (Itoa (TotalTokens u)))].
Definition usage_json (u : Usage) : json := JObj (usage_members u).

(** Every field of a struct text. *)
Ltac fields :=
  lazymatch goal with
  | |- Forall2 _ [] _ => constructor
  | |- Forall2 _ (_ :: _) _ => constructor; [split; [reflexivity|split; [vm_compute; reflexivity|]]|fields]
  end.

Lemma reads_usage d u : reads_as (S d) (openAIUsage u) (usage_json u).
Proof. apply reads_struct. fields; apply reads_Itoa. Qed.

Lemma dec_fields_hit {A} (decs : list (field A)) k t fs v d v' :
  find_field decs k = Some d -> d t v = (v', true) ->
  dec_fields decs ((k, t) :: fs) v = dec_fields decs fs v'.
Proof. intros F D. cbn [dec_fields]. rewrite F, D. by destruct (dec_fields decs fs v'). Qed.

Lemma dec_fields_miss {A} (decs : list (field A)) k t fs v :
  find_field decs k = None -> dec_fields decs ((k, t) :: fs) v = dec_fields decs fs v.
Proof. intros F. cbn [dec_fields]. rewrite F. by destruct (dec_fields decs fs v). Qed.

Lemma at_field_eq {A B} (get : A -> B) set d t v x ok :
  d t (get v) = (x, ok) -> at_field get set d t v = (set x v, ok).
Proof. intros E. unfold at_field. by rewrite E. Qed.

Lemma dec_openAIUsage u old : int64_usage u -> dec_usage (openAIUsage u) old = (u, true).
Proof.
  intros (H1 & H2 & H3). unfold dec_usage, openAIUsage.
  rewrite (dec_struct_text _ _ (usage_members u)) by (fields; apply reads_Itoa).
  do 3 (erewrite dec_fields_hit; [|reflexivity|apply at_field_eq, dec_int_Itoa; assumption]).
  by destruct u.
Qed.

Definition completion_members (id model content finish : string) (created : Z) (u : Usage)
    : list (string * json) :=
  [("id", JStr (sanitize id)); ("object", JStr objectCompletion); ("created", JNum (Itoa created));
   ("model", JStr (sanitize model));
   ("choices", JArr [JObj
      [("index", JNum (Itoa 0));
       ("message", JObj [("role", JStr roleAssistant); ("content", JStr (sanitize content))]);
       ("finish_reason", JStr (sanitize finish))]]);
   ("usage", usage_json u)].

Definition finish_json (f : option string) : json :=
  match f with Some f => JStr (sanitize f) | None => JNull end.

Definition chunk_members (id model : string) (delta : json) (created : Z) (finish : option string)
    (u : option Usage) : list (string * json) :=
  [("id", JStr (sanitize id)); ("object", JStr objectChunk); ("created", JNum (Itoa created));
   ("model", JStr (sanitize model));
   ("choices", JArr [JObj [("index", JNum (Itoa 0)); ("delta", delta); ("finish_reason", finish_json finish)]])]
  ++ match u with Some u => [("usage", usage_json u)] | None => [] end.

Lemma reads_choices d ts ms :
  Forall2 (fun f m => f.1 = m.1 /\ valid_utf8 f.1 /\ reads_as d f.2 m.2) ts ms ->
  reads_as (S (S d)) (array_text [struct_text ts]) (JArr [JObj ms]).
Proof. intros F. apply reads_list. constructor; [by apply reads_struct|constructor]. Qed.

(** The fields of an answer and of a chunk, as they are read. *)
Lemma completion_fields d id model content finish created u :
  Forall2 (fun f m => f.1 = m.1 /\ valid_utf8 f.1 /\ reads_as (S (S (S d))) f.2 m.2)
    [("id", quote id); ("object", quote objectCompletion); ("created", Itoa created); ("model", quote model);
     ("choices", array_text [struct_text
        [("index", Itoa 0);
         ("message", struct_text [("role", quote roleAssistant); ("content", quote content)]);
         ("finish_reason", quote finish)]]);
     ("usage", openAIUsage u)]
    (completion_members id model content finish created u).
Proof.
  fields; try apply reads_str; try apply reads_Itoa; [|apply reads_usage].
  apply reads_choices. fields; [apply reads_Itoa| |apply reads_str].
  apply reads_struct. fields; apply reads_str.
Qed.

Lemma completion_reads d id model content finish created u :
  reads_as (S (S (S (S d)))) (completion_text id model content finish created u)
    (JObj (completion_members id model content finish created u)).
Proof. apply reads_struct, completion_fields. Qed.

(** The depth is there. *)
Lemma enough_depth : exists d, pred maxNestingDepth = S (S (S d)).
Proof.
  pose proof deep. exists (maxNestingDepth - 4)%nat. lia.
Qed.

Lemma completion_parses id model content finish created u :
  parse (completion_text id model content finish created u)
  = Some (JObj (completion_members id model content finish created u)).
Proof.
  apply reads_parse. destruct enough_depth as [d E].
  replace maxNestingDepth with (S (pred maxNestingDepth)) by (rewrite contentDepth_spec; done).
  rewrite E. apply completion_reads.
Qed.

(** A completion bills what it says: the usage a reader of the OpenAI wire takes
    from it is the one it was written with. *)
Lemma completion_usage id model content finish created u :
  int64_usage u -> answer_usage (completion_text id model content finish created u) = u.
Proof.
  intros H. destruct enough_depth as [d E].
  pose proof (completion_fields d id model content finish created u) as F. rewrite <- E in F.
  unfold answer_usage. rewrite completion_parses.
  unfold completion_text. rewrite (dec_struct_text _ _ _ zeroUsage F).
  do 5 (rewrite dec_fields_miss by reflexivity).
  erewrite dec_fields_hit; [|reflexivity|apply at_field_eq, dec_openAIUsage; done]. done.
Qed.

Lemma chunk_fields d id model delta dj created finish u :
  reads_as (S d) delta dj ->
  Forall2 (fun f m => f.1 = m.1 /\ valid_utf8 f.1 /\ reads_as (S (S (S d))) f.2 m.2)
    ([("id", quote id); ("object", quote objectChunk); ("created", Itoa created); ("model", quote model);
      ("choices", array_text [struct_text
         [("index", Itoa 0); ("delta", delta);
          ("finish_reason", match finish with Some f => quote f | None => "null" end)]])]
     ++ match u with Some u => [("usage", openAIUsage u)] | None => [] end)
    (chunk_members id model dj created finish u).
Proof.
  intros D. assert (C : reads_as (S (S (S d))) (array_text [struct_text
       [("index", Itoa 0); ("delta", delta);
        ("finish_reason", match finish with Some f => quote f | None => "null" end)]])
      (JArr [JObj [("index", JNum (Itoa 0)); ("delta", dj); ("finish_reason", finish_json finish)]])).
  { apply reads_choices. fields; [apply reads_Itoa|done|].
    destruct finish; [apply reads_str|apply reads_null]. }
  destruct u as [u|]; cbn [app]; fields; try apply reads_str; try apply reads_Itoa; try exact C.
  apply reads_usage.
Qed.

Lemma chunk_usage_read id model delta dj created finish u :
  (forall d, reads_as (S d) delta dj) -> (forall v, u = Some v -> int64_usage v) ->
  chunk_usage (chunk_text id model delta created finish u) = u.
Proof.
  intros D H. destruct enough_depth as [d E].
  pose proof (chunk_fields d id model delta dj created finish u (D d)) as F. rewrite <- E in F.
  unfold chunk_usage, Unmarshal.
  rewrite (reads_parse _ (JObj (chunk_members id model dj created finish u))).
  2: { replace maxNestingDepth with (S (pred maxNestingDepth)) by (rewrite contentDepth_spec; done).
       rewrite E. by apply reads_struct, chunk_fields. }
  unfold chunk_text. rewrite (dec_struct_text _ _ _ None F). cbn [app].
  do 5 (rewrite dec_fields_miss by reflexivity). destruct u as [u|]; [|done].
  assert (P : dec_ptr zeroUsage dec_usage (openAIUsage u) None = (Some u, true)).
  { unfold dec_ptr. rewrite (tree_of_text maxNestingDepth _ (usage_json u)); [|done|].
    - change (default zeroUsage None) with zeroUsage. by rewrite dec_openAIUsage by auto.
    - rewrite contentDepth_spec. apply reads_usage. }
  erewrite dec_fields_hit; [|reflexivity|apply at_field_eq; exact P]. done.
Qed.

(** What a chunk says of usage is what the gateway takes from it. *)
Definition tells_usage (c : StreamChunk) : Prop :=
  if Keepalive c then ChunkUsage c = None else chunk_usage (Data c) = ChunkUsage c.

(** ** Fields that may be missing *)

(** A list of fields is read as a list of members. *)
Definition read_fields (d : nat) : list (string * string) -> list (string * json) -> Prop :=
  Forall2 (fun f m => f.1 = m.1 /\ valid_utf8 f.1 /\ reads_as d f.2 m.2).

Lemma read_omit d drop k t j :
  valid_utf8 k -> reads_as d t j -> read_fields d (omit drop k t) (member_unless drop k j).
Proof. intros V R. destruct drop; [constructor|]. constructor; [by split_and!|constructor]. Qed.

Lemma read_float d k x fs : valid_utf8 k -> omit_float k x = Some fs -> read_fields d fs (float_members k x).
Proof.
  intros V. unfold omit_float, float_members. destruct x as [x|]; [|intros [= <-]; constructor].
  destruct (f64_text x) as [t|] eqn:E; [|done]. intros [= <-].
  constructor; [split_and!; [done|done|by eapply reads_f64]|constructor].
Qed.

Lemma quotes_read d l : reads_as (S d) (array_text (quote <$> l)) (JArr ((fun s => JStr (sanitize s)) <$> l)).
Proof.
  apply reads_list, Forall2_fmap_2. induction l; constructor; [apply reads_str|done].
Qed.
