(* ===== verification/Anthropic.v ===== *)
(** * The Anthropic adapter (internal/providers/anthropic)

    The Messages API is another wire: a request is translated on the way out,
    an answer or the events of a stream on the way back.  The texts are built
    as [Marshal] writes them; the theorems say what they are read as. *)

From Stdlib Require Import ZArith Lia String Ascii.
From stdpp Require Import base gmap strings list numbers.
From S2P Require Import Prelude Float64 GoString Providers Json JsonText Sse Stream Upstream OpenaiWire Dialect.

Local Open Scope Z_scope.
Local Open Scope string_scope.

(** ** The provider (anthropic.go) *)

Definition defaultBaseURL : string := "https://api.anthropic.com/v1".
Definition messagesPath : string := "/messages".
Definition headerAPIKey : string := "x-api-key".
Definition headerVersion : string := "anthropic-version".
Definition anthropicVersion : string := "2023-06-01".

Record provider := mkProvider { name : string; baseURL : string; apiKey : string }.

Definition New (n url key : string) : provider :=
  mkProvider n (trim_slashes (if bool_decide (url = "") then defaultBaseURL else url)) key.

(** ** The request (translate.go) *)

Definition systemJoiner : string := string_of_list_ascii [ascii_of_nat 10; ascii_of_nat 10].
Definition defaultMaxTokens : Z := 4096.

Definition maxTokens (r : openAIRequest) : Z :=
  match MaxTokens r, MaxCompletionTokens r with
  | Some n, _ => n
  | None, Some n => n
  | None, None => defaultMaxTokens
  end.

Definition message_text (m : openAIMessage) : string :=
  struct_text [("role", quote (Role m)); ("content", raw_text (Content m))].

Definition translateRequest (raw model : string) (stream : bool) : string + goerror :=
  match Unmarshal dec_request raw zeroRequest with
  | None => inr (ErrWrap "decode chat request" (ErrOpaque "json"))
  | Some r =>
      let '(system, turns) := split_messages (fun m => m) (slice_list (Messages r)) in
      let system := Join system systemJoiner in
      let stops := stopSequences (Stop r) in
      match omit_float "temperature" (Temperature r), omit_float "top_p" (TopP r) with
      | Some temperature, Some top_p =>
          inl (struct_text
            ([("model", quote (if bool_decide (model = "") then Model r else model));
              ("messages", array_text (message_text <$> turns));
              ("max_tokens", Itoa (maxTokens r))]
             ++ omit (bool_decide (system = "")) "system" (quote system)
             ++ temperature ++ top_p
             ++ omit (bool_decide (stops = [])) "stop_sequences" (array_text (quote <$> stops))
             ++ omit (negb stream) "stream" "true"))
      | _, _ => inr (ErrWrap "encode messages request" (ErrOpaque "json"))
      end
  end.

(** ** The answer *)

(** The arms of the switch; an unknown reason still ends the turn. *)
Definition finishReason (stopReason : string) : string :=
  if bool_decide (stopReason = "") then ""
  else if bool_decide (stopReason = "end_turn") || bool_decide (stopReason = "stop_sequence") then "stop"
  else if bool_decide (stopReason = "max_tokens") then "length"
  else if bool_decide (stopReason = "tool_use") then "tool_calls"
  else "stop".

Record usageJSON := mkUsageJSON { InputTokens : Z; OutputTokens : Z }.
Definition zeroUsageJSON : usageJSON := mkUsageJSON 0 0.

Definition toUsage (u : usageJSON) : Usage :=
  mkUsage (InputTokens u) (OutputTokens u) (InputTokens u +i OutputTokens u).

Definition dec_usageJSON : decoder usageJSON := dec_struct
  [("input_tokens", at_field InputTokens (fun v u => mkUsageJSON v (OutputTokens u)) dec_int);
   ("output_tokens", at_field OutputTokens (fun v u => mkUsageJSON (InputTokens u) v) dec_int)].

(** A content block is a type and a text, like a content part. *)
Record messagesResponse := mkResponse {
  RID : string; RModel : string; RContent : slice part; RStopReason : string; RUsage : usageJSON
}.
Definition zeroResponse : messagesResponse := mkResponse "" "" nil_slice "" zeroUsageJSON.

Definition dec_response : decoder messagesResponse := dec_struct
  [("id", at_field RID (fun v r => mkResponse v (RModel r) (RContent r) (RStopReason r) (RUsage r)) dec_string);
   ("model", at_field RModel (fun v r => mkResponse (RID r) v (RContent r) (RStopReason r) (RUsage r)) dec_string);
   ("content", at_field RContent (fun v r => mkResponse (RID r) (RModel r) v (RStopReason r) (RUsage r))
      (dec_slice zeroPart dec_part));
   ("stop_reason", at_field RStopReason (fun v r => mkResponse (RID r) (RModel r) (RContent r) v (RUsage r)) dec_string);
   ("usage", at_field RUsage (fun v r => mkResponse (RID r) (RModel r) (RContent r) (RStopReason r) v) dec_usageJSON)].

Definition translateResponse (body model : string) (created : Z) : (string * Usage) + goerror :=
  match Unmarshal dec_response body zeroResponse with
  | None => inr (ErrWrap "decode messages response" (ErrOpaque "json"))
  | Some r =>
      let u := toUsage (RUsage r) in
      let model := if bool_decide (RModel r = "") then model else RModel r in
      inl (completion_text (RID r) model (join_text (slice_list (RContent r)))
             (finishReason (RStopReason r)) created u, u)
  end.

(** ** The calls *)

Definition request_of (p : provider) (body : string) : http_request :=
  mkHttpRequest (baseURL p +:+ messagesPath)
    (Header_Set headerVersion anthropicVersion
       (Header_Set headerAPIKey (apiKey p) (Header_Set "Content-Type" "application/json" ∅)))
    body.

Definition send (p : provider) (do : http_request -> http_outcome) (req : ChatRequest) (stream : bool)
    : Z * body * option ctxError + goerror :=
  match translateRequest (ReqRaw req) (ReqModel req) stream with
  | inr e => inr (ErrProvider (name p) ErrClassInvalidRequest 0
                    "request cannot be expressed on the messages api" (Some e))
  | inl text => exchange (name p) (do (request_of p text))
  end.

Definition statusError (p : provider) (status : Z) (b : body) : goerror :=
  let text := (read_limited maxErrorBody b).1 in
  ErrProvider (name p) (ClassFromStatusAndBody status text) status (upstreamErrorMessage text status) None.

(** [now] is the Unix time of the call. *)
Definition Chat (p : provider) (now : Z) (do : http_request -> http_outcome) (req : ChatRequest)
    : ChatResponse + goerror :=
  match send p do req false with
  | inr e => inr e
  | inl (status, b, ctx) =>
      if negb (Is2xx status) then inr (statusError p status b)
      else match read_answer (name p) ctx b with
      | inr e => inr e
      | inl text =>
          match translateResponse text (ReqModel req) now with
          | inr e => inr (ErrProvider (name p) ErrClassUpstream 0
                            "upstream response is not a messages completion" (Some e))
          | inl (translated, u) => inl (mkChatResponse (ReqModel req) (name p) translated u)
          end
      end
  end.

(** ** The stream (stream.go) *)

Record payload_message := mkPMessage { PM_ID : string; PM_Model : string; PM_Usage : option usageJSON }.
Record payload_delta := mkPDelta { PD_Type : string; PD_Text : string; PD_StopReason : string }.
Record streamPayload := mkPayload {
  PLType : string; PLMessage : option payload_message; PLDelta : option payload_delta;
  PLUsage : option usageJSON
}.
Definition zeroPayload : streamPayload := mkPayload "" None None None.

Definition dec_pmessage : decoder payload_message := dec_struct
  [("id", at_field PM_ID (fun v m => mkPMessage v (PM_Model m) (PM_Usage m)) dec_string);
   ("model", at_field PM_Model (fun v m => mkPMessage (PM_ID m) v (PM_Usage m)) dec_string);
   ("usage", at_field PM_Usage (fun v m => mkPMessage (PM_ID m) (PM_Model m) v) (dec_ptr zeroUsageJSON dec_usageJSON))].
Definition dec_pdelta : decoder payload_delta := dec_struct
  [("type", at_field PD_Type (fun v m => mkPDelta v (PD_Text m) (PD_StopReason m)) dec_string);
   ("text", at_field PD_Text (fun v m => mkPDelta (PD_Type m) v (PD_StopReason m)) dec_string);
   ("stop_reason", at_field PD_StopReason (fun v m => mkPDelta (PD_Type m) (PD_Text m) v) dec_string)].
Definition dec_payload : decoder streamPayload := dec_struct
  [("type", at_field PLType (fun v p => mkPayload v (PLMessage p) (PLDelta p) (PLUsage p)) dec_string);
   ("message", at_field PLMessage (fun v p => mkPayload (PLType p) v (PLDelta p) (PLUsage p))
      (dec_ptr (mkPMessage "" "" None) dec_pmessage));
   ("delta", at_field PLDelta (fun v p => mkPayload (PLType p) (PLMessage p) v (PLUsage p))
      (dec_ptr (mkPDelta "" "" "") dec_pdelta));
   ("usage", at_field PLUsage (fun v p => mkPayload (PLType p) (PLMessage p) (PLDelta p) v)
      (dec_ptr zeroUsageJSON dec_usageJSON))].

(** The reader's own state; a count is [None] until its half has arrived. *)
Record streamState := mkStream {
  st_provider : string; created : Z; sawStop : bool; id : string; model : string;
  input : option Z; output : option Z
}.

Definition stream_usage (s : streamState) : option Usage :=
  match input s, output s with
  | Some i, Some o => Some (mkUsage i o (i +i o))
  | _, _ => None
  end.

(** [chunkDelta] and the chunk around it. *)
Definition delta_text (role content : string) : string := struct_text
  (omit (bool_decide (role = "")) "role" (quote role)
   ++ omit (bool_decide (content = "")) "content" (quote content)).

Definition chunk (s : streamState) (role content : string) (finish : option string) (u : option Usage)
    : StreamChunk :=
  mkChunk (chunk_text (id s) (model s) (delta_text role content) (created s) finish u) u false.

Definition protocolError (p op : string) : goerror :=
  ErrProvider p ErrClassUpstream 0 (op +:+ " failed") (Some (ErrWrap op (ErrOpaque "json"))).

Definition started (m : option payload_message) (s : streamState) : streamState :=
  match m with
  | None => s
  | Some m =>
      mkStream (st_provider s) (created s) (sawStop s) (PM_ID m)
        (if bool_decide (PM_Model m = "") then model s else PM_Model m)
        (match PM_Usage m with Some u => Some (InputTokens u) | None => input s end) (output s)
  end.

Definition metered (u : option usageJSON) (s : streamState) : streamState :=
  match u with
  | None => s
  | Some u => mkStream (st_provider s) (created s) (sawStop s) (id s) (model s) (input s) (Some (OutputTokens u))
  end.

Definition stopped (s : streamState) : streamState :=
  mkStream (st_provider s) (created s) true (id s) (model s) (input s) (output s).

(** [translate]: the event is named by its line, or by its payload. *)
Definition translate_event (s : streamState) (ev : SSEEvent) : step streamState :=
  match (if bool_decide (EvData ev = "") then Some zeroPayload
         else Unmarshal dec_payload (EvData ev) zeroPayload) with
  | None => Fails (protocolError (st_provider s) "decode stream event")
  | Some pl =>
      let n := if bool_decide (Name ev = "") then PLType pl else Name ev in
      if bool_decide (n = "ping") then Emits (mkChunk "" None true) s
      else if bool_decide (n = "message_start") then
        let s := started (PLMessage pl) s in Emits (chunk s roleAssistant "" None None) s
      else if bool_decide (n = "content_block_delta") then
        match PLDelta pl with
        | Some d => if bool_decide (PD_Type d = "text_delta")
                    then Emits (chunk s "" (PD_Text d) None None) s else Ignore s
        | None => Ignore s
        end
      else if bool_decide (n = "message_delta") then
        let s := metered (PLUsage pl) s in
        let finish := match PLDelta pl with
                      | Some d => let r := finishReason (PD_StopReason d) in
                                  if bool_decide (r = "") then None else Some r
                      | None => None
                      end in
        Emits (chunk s "" "" finish (stream_usage s)) s
      else if bool_decide (n = "message_stop") then Complete (stopped s)
      else Ignore s
  end.

Definition anthropic_wire : wire streamState := mkWire translate_event sawStop.

(** The methods of the reader are those of the common machine, at this wire. *)
Definition Recv : moment -> streamReader streamState -> (StreamChunk + goerror) * streamReader streamState :=
  Stream.Recv anthropic_wire.
Definition recvError : streamReader streamState -> moment -> goerror -> goerror := Stream.recvError anthropic_wire.

Definition newStreamReader (p m : string) (now : Z) (b : body) : streamReader streamState :=
  newReader p b (mkStream p now false "" m None None).

Definition ChatStream (p : provider) (now : Z) (do : http_request -> http_outcome) (req : ChatRequest)
    : streamReader streamState + goerror :=
  match send p do req true with
  | inr e => inr e
  | inl (status, b, _) =>
      if negb (Is2xx status) then inr (statusError p status b)
      else inl (newStreamReader (name p) (ReqModel req) now b)
  end.

(** The adapter as a [Provider]; its streams name neither provider nor model. *)
Definition adapter (p : provider) (now : Z) (do : http_request -> http_outcome)
    : Provider (streamReader streamState) :=
  mkProviderImpl (name p) (fun req => Some (Chat p now do req))
    (fun req => Some match ChatStream p now do req with
                     | inl r => inl (r, mkStreamInfo "" "")
                     | inr e => inr e
                     end).

(** ** The crossing of a request *)

(** A turn as it crosses: its content is the value the client wrote. *)
Definition turn_json (m : openAIMessage) : json := JObj
  [("role", JStr (sanitize (Role m)));
   ("content", if bool_decide (Content m = "") then JNull else tree_of (Content m))].

(** What the Messages API is asked, member for member. *)
Definition crossing (r : openAIRequest) (model : string) (stream : bool) : list (string * json) :=
  let system := Join (system_texts r) systemJoiner in
  let stops := stopSequences (Stop r) in
  [("model", JStr (sanitize (if bool_decide (model = "") then Model r else model)));
   ("messages", JArr (turn_json <$> turns r));
   ("max_tokens", JNum (Itoa (maxTokens r)))]
  ++ member_unless (bool_decide (system = "")) "system" (JStr (sanitize system))
  ++ float_members "temperature" (Temperature r) ++ float_members "top_p" (TopP r)
  ++ member_unless (bool_decide (stops = [])) "stop_sequences" (JArr ((fun s => JStr (sanitize s)) <$> stops))
  ++ member_unless (negb stream) "stream" (JBool true).

Lemma message_reads m : content_ok m -> reads_as (S contentDepth) (message_text m) (turn_json m).
Proof.
  intros H. apply reads_struct. fields; [apply reads_str|].
  apply raw_text_reads; [rewrite contentDepth_spec; lia|exact H].
Qed.

Lemma turns_read r : Forall content_ok (slice_list (Messages r)) ->
  reads_as (S (S contentDepth)) (array_text (message_text <$> turns r)) (JArr (turn_json <$> turns r)).
Proof.
  intros H. apply reads_list. apply Forall2_fmap_2. unfold turns.
  assert (F : Forall content_ok (base.filter (fun m => is_system m = false) (slice_list (Messages r)))).
  { apply list.Forall_forall. intros m Hm. apply list_elem_of_filter in Hm as [_ Hm].
    rewrite list.Forall_forall in H. by apply H. }
  induction F as [|m ms Hm F IH]; constructor; [by apply message_reads|done].
Qed.

(** (C23) A request crosses whole: what the Messages API reads is the model that
    was routed to, every turn of the client in order with its role and exactly
    the content it wrote, every system and developer text lifted out in order,
    the token cap, and the options it knows, and nothing else; the translation
    fails only on a body that does not decode, or on a float that has no text. *)
Theorem request_crosses raw model stream :
  match translateRequest raw model stream with
  | inl out => exists r, Unmarshal dec_request raw zeroRequest = Some r /\
      parse out = Some (JObj (crossing r model stream))
  | inr e => Unmarshal dec_request raw zeroRequest = None \/
      exists r x, Unmarshal dec_request raw zeroRequest = Some r /\
        (Temperature r = Some x \/ TopP r = Some x) /\ f64_text x = None
  end.
Proof.
  unfold translateRequest. destruct (Unmarshal dec_request raw zeroRequest) as [r|] eqn:U; [|by left].
  pose proof (request_contents _ _ U) as K. rewrite split_messages_spec, list_fmap_id. cbv zeta.
  destruct (omit_float "temperature" (Temperature r)) as [ft|] eqn:T;
    [destruct (omit_float "top_p" (TopP r)) as [fp|] eqn:P|].
  - exists r. split; [done|]. apply reads_parse. rewrite contentDepth_spec. apply reads_struct.
    unfold crossing. cbv zeta. repeat apply Forall2_app.
    + fields; [apply reads_str|by apply turns_read|apply reads_Itoa].
    + apply read_omit; [done|apply reads_str].
    + by apply read_float.
    + by apply read_float.
    + apply read_omit; [done|apply quotes_read].
    + apply read_omit; [done|apply (reads_bool _ true)].
  - right. exists r. unfold omit_float in P. destruct (TopP r) as [x|] eqn:X; [|done].
    exists x. destruct (f64_text x); [done|]. auto.
  - right. exists r. unfold omit_float in T. destruct (Temperature r) as [x|] eqn:X; [|done].
    exists x. destruct (f64_text x); [done|]. auto.
Qed.

(** ** Counts *)

Definition int64_json (u : usageJSON) : Prop := is_int64 (InputTokens u) /\ is_int64 (OutputTokens u).

Lemma dec_usageJSON_int64 t u : int64_json u -> int64_json (dec_usageJSON t u).1.
Proof.
  intros H. apply (dec_struct_keep int64_json); [done|]. intros n d k x v Hd _ [V1 V2].
  apply elem_of_cons in Hd as [[= -> ->]|Hd]; [|apply list_elem_of_singleton in Hd as [= -> ->]]; unfold at_field.
  - pose proof (dec_int_keep x (InputTokens v) V1). by destruct (dec_int x (InputTokens v)).
  - pose proof (dec_int_keep x (OutputTokens v) V2). by destruct (dec_int x (OutputTokens v)).
Qed.

Lemma zero_int64 : int64_json zeroUsageJSON.
Proof. split; unfold is_int64, min_int64, max_int64; simpl; lia. Qed.

Lemma response_usage_int64 body r : Unmarshal dec_response body zeroResponse = Some r -> int64_json (RUsage r).
Proof.
  unfold Unmarshal. destruct (parse body); [|done].
  assert (K : int64_json (RUsage (dec_response body zeroResponse).1)).
  { apply (dec_struct_keep (fun r => int64_json (RUsage r))); [apply zero_int64|].
    intros n d k t v Hd _ Hv.
    repeat (apply elem_of_cons in Hd as [[= -> ->]|Hd]); [..|by apply not_elem_of_nil in Hd]; unfold at_field.
    5: { pose proof (dec_usageJSON_int64 t (RUsage v) Hv). by destruct (dec_usageJSON t (RUsage v)). }
    all: by match goal with |- context [let '(_, _) := ?x in _] => destruct x end. }
  destruct (dec_response body zeroResponse) as [v ok]. destruct ok; [|done]. by intros [= <-].
Qed.

Lemma toUsage_int64 u : int64_json u -> int64_usage (toUsage u).
Proof. intros [H1 H2]. split_and!; [done|done|]. cbn. apply wrap64_range. Qed.

(** The usage a client reads in an answer is the one that is billed. *)
Lemma response_bills body model created :
  match translateResponse body model created with
  | inl (out, u) => answer_usage out = u
  | inr _ => True
  end.
Proof.
  unfold translateResponse. destruct (Unmarshal dec_response body zeroResponse) as [r|] eqn:U; [|done].
  by apply completion_usage, toUsage_int64, (response_usage_int64 body).
Qed.

(** An answer says what is billed: what the gateway hands the client is a
    completion with the text of the upstream's text blocks and its reason to
    stop, and the usage the client reads in it is the usage the gateway charges,
    which is what the upstream reported. *)
Theorem answer_says_what_is_billed body model created :
  match translateResponse body model created with
  | inl (out, u) => answer_usage out = u /\ exists r, Unmarshal dec_response body zeroResponse = Some r /\
      u = toUsage (RUsage r) /\
      parse out = Some (JObj (completion_members (RID r) (if bool_decide (RModel r = "") then model else RModel r)
        (join_text (slice_list (RContent r))) (finishReason (RStopReason r)) created u))
  | inr _ => Unmarshal dec_response body zeroResponse = None
  end.
Proof.
  pose proof (response_bills body model created) as B. unfold translateResponse in *.
  destruct (Unmarshal dec_response body zeroResponse) as [r|]; [|done]. split; [done|].
  exists r. split_and!; [done|done|apply completion_parses].
Qed.

(** ** Streams *)

(** The event that says a message is whole. *)
Definition is_stop (ev : SSEEvent) : Prop :=
  exists pl, (EvData ev = "" /\ pl = zeroPayload \/ Unmarshal dec_payload (EvData ev) zeroPayload = Some pl) /\
    (Name ev = "message_stop" \/ Name ev = "" /\ PLType pl = "message_stop").

Lemma translate_cases s ev :
  (exists e, translate_event s ev = Fails e /\ errors_Is e IoEOF = false) \/
  (exists c s', translate_event s ev = Emits c s' /\ sawStop s' = sawStop s) \/
  translate_event s ev = Ignore s \/
  (exists s', translate_event s ev = Complete s' /\ is_stop ev).
Proof.
  unfold translate_event.
  destruct (if bool_decide (EvData ev = "") then _ else _) as [pl|] eqn:P; [|left; by eexists].
  assert (Hpl : EvData ev = "" /\ pl = zeroPayload \/ Unmarshal dec_payload (EvData ev) zeroPayload = Some pl).
  { case_bool_decide; [left; by injection P|by right]. }
  cbv zeta. set (n := if bool_decide (Name ev = "") then PLType pl else Name ev).
  destruct (bool_decide (n = "ping")); [right; left; by eexists _, _|].
  destruct (bool_decide (n = "message_start")).
  { right; left. eexists _, _. split; [done|]. by destruct (PLMessage pl). }
  destruct (bool_decide (n = "content_block_delta")).
  { destruct (PLDelta pl) as [d|]; [|by right; right; left].
    destruct (bool_decide (PD_Type d = "text_delta")); [right; left; by eexists _, _|by right; right; left]. }
  destruct (bool_decide (n = "message_delta")).
  { right; left. eexists _, _. split; [done|]. by destruct (PLUsage pl). }
  destruct (bool_decide (n = "message_stop")) eqn:St; [|by right; right; left].
  right; right; right. eexists. split; [done|]. exists pl. split; [done|]. bool_to_prop. subst n.
  case_bool_decide; [by right|by left].
Qed.

#[export] Instance anthropic_marked : Marked anthropic_wire is_stop.
Proof.
  split; intros s ev; cbn [anthropic_wire translate saw]; intros x;
    destruct (translate_cases s ev) as [(e & E & He)|[(c & s1 & E & Hs)|[E|(s1 & E & Hm)]]]; rewrite E.
  all: try (by intros [[=]|[? [=]]]); try (by intros [=]).
  - intros [[=]|[c' [= <- <-]]] H1 H2. congruence.
  - intros [[= <-]|[? [=]]] H1 H2. congruence.
  - intros _. by left.
  - by intros [= <-].
Qed.

(** A partial answer is never passed off as whole on this wire either: if
    any read of a stream reports its end, the upstream really sent a
    message_stop. *)
Theorem whole_only_after_stop p m now b ms e :
  inr e ∈ recvs anthropic_wire ms (newStreamReader p m now b) -> errors_Is e IoEOF = true ->
  exists ev, ev ∈ (events (S (length (unread b))) b).1 /\ is_stop ev.
Proof.
  intros Hin He.
  destruct (whole_only_after_mark anthropic_wire is_stop p b (mkStream p now false "" m None None) ms e)
    as (ev & Hev & _ & Hm); [done..|]. by exists ev.
Qed.

(** The counts of a payload are in range. *)
Definition opt_int64 (u : option usageJSON) : Prop := forall v, u = Some v -> int64_json v.
Definition payload_int64 (pl : streamPayload) : Prop :=
  opt_int64 (PLUsage pl) /\ forall m, PLMessage pl = Some m -> opt_int64 (PM_Usage m).

Lemma dec_ptr_usage_int64 t old : opt_int64 old -> opt_int64 (dec_ptr zeroUsageJSON dec_usageJSON t old).1.
Proof.
  intros H. unfold dec_ptr.
  assert (K : int64_json (dec_usageJSON t (default zeroUsageJSON old)).1).
  { apply dec_usageJSON_int64. destruct old as [v|]; [by apply H|apply zero_int64]. }
  destruct (tree_of t); try done; destruct (dec_usageJSON t (default zeroUsageJSON old)) as [v ok];
    intros w [= <-]; exact K.
Qed.

Lemma dec_pmessage_int64 t m : opt_int64 (PM_Usage m) -> opt_int64 (PM_Usage (dec_pmessage t m).1).
Proof.
  intros H. apply (dec_struct_keep (fun m => opt_int64 (PM_Usage m))); [done|].
  intros n d k x v Hd _ Hv.
  repeat (apply elem_of_cons in Hd as [[= -> ->]|Hd]); [..|by apply not_elem_of_nil in Hd]; unfold at_field.
  3: { pose proof (dec_ptr_usage_int64 x _ Hv) as X. by destruct (dec_ptr _ _ x (PM_Usage v)). }
  all: by match goal with |- context [let '(_, _) := ?x in _] => destruct x end.
Qed.

Lemma dec_payload_int64 t pl : payload_int64 pl -> payload_int64 (dec_payload t pl).1.
Proof.
  intros H. apply (dec_struct_keep payload_int64); [done|]. intros n d k x v Hd _ [Hv1 Hv2].
  repeat (apply elem_of_cons in Hd as [[= -> ->]|Hd]); [..|by apply not_elem_of_nil in Hd]; unfold at_field.
  - by destruct (dec_string x (PLType v)).
  - destruct (dec_ptr _ dec_pmessage x (PLMessage v)) as [w ok] eqn:E. split; [exact Hv1|]. cbn.
    intros m ->. unfold dec_ptr in E.
    assert (K : opt_int64 (PM_Usage (dec_pmessage x (default (mkPMessage "" "" None) (PLMessage v))).1)).
    { apply dec_pmessage_int64. destruct (PLMessage v) as [m'|] eqn:Em; [by apply Hv2|done]. }
    destruct (tree_of x); try done;
      destruct (dec_pmessage x (default (mkPMessage "" "" None) (PLMessage v))) as [m' ok'];
      injection E as <- _; exact K.
  - by destruct (dec_ptr _ dec_pdelta x (PLDelta v)).
  - pose proof (dec_ptr_usage_int64 x _ Hv1) as X.
    destruct (dec_ptr zeroUsageJSON dec_usageJSON x (PLUsage v)) as [w ok]. by split.
Qed.

Lemma payload_of_int64 data pl :
  (if bool_decide (data = "") then Some zeroPayload else Unmarshal dec_payload data zeroPayload) = Some pl ->
  payload_int64 pl.
Proof.
  assert (Z : payload_int64 zeroPayload) by done.
  case_bool_decide; [by intros [= <-]|]. unfold Unmarshal. destruct (parse data); [|done].
  pose proof (dec_payload_int64 data _ Z) as X. destruct (dec_payload data zeroPayload) as [v ok].
  destruct ok; [|done]. by intros [= <-].
Qed.

Definition counts_int64 (s : streamState) : Prop :=
  (forall i, input s = Some i -> is_int64 i) /\ (forall o, output s = Some o -> is_int64 o).

(** What a chunk says of usage. *)
Definition tells_total (c : StreamChunk) : Prop :=
  (if Keepalive c then ChunkUsage c = None else chunk_usage (Data c) = ChunkUsage c) /\
  forall u, ChunkUsage c = Some u -> TotalTokens u = PromptTokens u +i CompletionTokens u.

Lemma delta_reads d role content :
  reads_as (S d) (delta_text role content)
    (JObj (member_unless (bool_decide (role = "")) "role" (JStr (sanitize role))
           ++ member_unless (bool_decide (content = "")) "content" (JStr (sanitize content)))).
Proof. apply reads_struct, Forall2_app; apply read_omit; (done || apply reads_str). Qed.

Lemma chunk_tells s role content finish :
  counts_int64 s -> tells_total (chunk s role content finish (stream_usage s)) /\
  tells_total (chunk s role content finish None).
Proof.
  intros [Hi Ho]. split; cbn [Data ChunkUsage chunk]; (split; cbn [Keepalive chunk Data ChunkUsage]; [|]).
  - eapply chunk_usage_read; [intros d; apply delta_reads|]. unfold stream_usage.
    intros v Hv. destruct (input s) as [i|]; [|done]. destruct (output s) as [o|]; [|done].
    injection Hv as <-. split_and!; cbn; [by apply Hi|by apply Ho|apply wrap64_range].
  - unfold stream_usage. intros u Hu. destruct (input s) as [i|]; [|done]. destruct (output s) as [o|]; [|done].
    by injection Hu as <-.
  - eapply chunk_usage_read; [intros d; apply delta_reads|done].
  - done.
Qed.

#[export] Instance anthropic_emitting : Emitting anthropic_wire counts_int64 tells_total.
Proof.
  split; [done|]. intros s ev [Hi Ho]. cbn [anthropic_wire translate]. unfold translate_event.
  destruct (if bool_decide (EvData ev = "") then _ else _) as [pl|] eqn:P; [|done].
  destruct (payload_of_int64 _ _ P) as [PU PM]. cbv zeta.
  set (n := if bool_decide (Name ev = "") then PLType pl else Name ev).
  destruct (bool_decide (n = "ping")); [by split_and!|].
  destruct (bool_decide (n = "message_start")).
  { assert (H : counts_int64 (started (PLMessage pl) s)).
    { unfold started. destruct (PLMessage pl) as [m|] eqn:E; [|done]. split; [|exact Ho]. cbn.
      destruct (PM_Usage m) as [u|] eqn:Eu; [|exact Hi]. intros i [= <-]. by apply (PM m eq_refl u). }
    split; [exact H|]. apply (proj2 (chunk_tells _ _ _ _ H)). }
  destruct (bool_decide (n = "content_block_delta")).
  { destruct (PLDelta pl) as [d|]; [|done]. destruct (bool_decide (PD_Type d = "text_delta")); [|done].
    split; [done|]. apply (proj2 (chunk_tells s "" (PD_Text d) None (conj Hi Ho))). }
  destruct (bool_decide (n = "message_delta")).
  { assert (H : counts_int64 (metered (PLUsage pl) s)).
    { unfold metered. destruct (PLUsage pl) as [u|] eqn:E; [|done]. split; [exact Hi|]. cbn.
      intros o [= <-]. by apply (PU u). }
    split; [exact H|]. apply (proj1 (chunk_tells _ _ _ _ H)). }
  by destruct (bool_decide (n = "message_stop")).
Qed.

(** What the gateway bills for a stream is what its client is told: every
    chunk a read hands on is an OpenAI chunk whose usage, as a client reads it,
    is the usage the gateway takes from it, with the total the sum of its
    halves. *)
Theorem stream_tells_its_usage p m now b ms c :
  inl c ∈ recvs anthropic_wire ms (newStreamReader p m now b) ->
  (if Keepalive c then ChunkUsage c = None else chunk_usage (Data c) = ChunkUsage c) /\
  forall u, ChunkUsage c = Some u -> TotalTokens u = PromptTokens u +i CompletionTokens u.
Proof. by apply (every_chunk_emitted anthropic_wire counts_int64 tells_total). Qed.

(** *** Instances *)

Module AnthropicExample.
Definition ask : string := quoted
  "{'model':'claude','max_tokens':64,'temperature':0.70,'stop':['END'],
    'messages':[{'role':'system','content':'Be <brief>.'},
                {'role':'user','content':[ {'type':'text', 'text':'hi'} ]},
                {'role':'developer','content':'In French.'}]}".

Example translated :
  translateRequest ask "claude-sonnet-4-5" true = inl (quoted
    "{'model':'claude-sonnet-4-5','messages':[{'role':'user','content':[{'type':'text','text':'hi'}]}],'max_tokens':64,'system':'Be \u003cbrief\u003e.\n\nIn French.','temperature':0.7,'stop_sequences':['END'],'stream':true}").
Proof. vm_compute. reflexivity. Qed.

Definition frames (l : list string) : bytes_ := concat ((fun s => sseFrame (payload (quoted s))) <$> l).
Definition events_of_a_message : list string :=
  ["{'type':'message_start','message':{'id':'m1','model':'claude-x','usage':{'input_tokens':7}}}";
   "{'type':'content_block_delta','delta':{'type':'text_delta','text':'ok'}}";
   "{'type':'message_delta','delta':{'stop_reason':'end_turn'},'usage':{'output_tokens':2}}"].
Definition whole : body := mkBody (frames (events_of_a_message ++ ["{'type':'message_stop'}"])) (ErrSentinel IoEOF).
Definition cut : body := mkBody (frames events_of_a_message) (ErrSentinel IoEOF).
Definition quiet : moment := mkMoment None false.
Definition last_chunk : StreamChunk := mkChunk (quoted
  "{'id':'m1','object':'chat.completion.chunk','created':0,'model':'claude-x','choices':[{'index':0,'delta':{},'finish_reason':'stop'}],'usage':{'prompt_tokens':7,'completion_tokens':2,'total_tokens':9}}")
  (Some (mkUsage 7 2 9)) false.

Example reads_of_a_whole_message :
  drop 2 (recvs anthropic_wire [quiet; quiet; quiet; quiet] (newStreamReader "p" "m" 0 whole))
  = [inl last_chunk; inr (ErrSentinel IoEOF)].
Proof. vm_compute. reflexivity. Qed.

Example reads_of_a_cut_message :
  drop 2 (recvs anthropic_wire [quiet; quiet; quiet; quiet] (newStreamReader "p" "m" 0 cut))
  = [inl last_chunk; inr (ErrSentinel StreamTruncated)].
Proof. vm_compute. reflexivity. Qed.

Lemma whole_only_after_stop_witness :
  exists ev, ev ∈ (events (S (length (unread whole))) whole).1 /\ is_stop ev.
Proof.
  apply (whole_only_after_stop "p" "m" 0 whole [quiet; quiet; quiet; quiet] (ErrSentinel IoEOF)).
  - rewrite <- (take_drop 2 (recvs _ _ _)). rewrite reads_of_a_whole_message.
    apply elem_of_app. right. right. left.
  - reflexivity.
Defined.

Lemma stream_tells_its_usage_witness :
  (if Keepalive last_chunk then ChunkUsage last_chunk = None
   else chunk_usage (Data last_chunk) = ChunkUsage last_chunk) /\
  forall u, ChunkUsage last_chunk = Some u -> TotalTokens u = PromptTokens u +i CompletionTokens u.
Proof.
  apply (stream_tells_its_usage "p" "m" 0 cut [quiet; quiet; quiet; quiet] last_chunk).
  rewrite <- (take_drop 2 (recvs _ _ _)). rewrite reads_of_a_cut_message.
  apply elem_of_app. right. left.
Defined.
End AnthropicExample.
