(* ===== verification/Gemini.v ===== *)
(** * The Gemini adapter (internal/providers/gemini)

    Like the Anthropic adapter, a translation of another wire.  Gemini names the
    model in the URL, splits prompts and answers into parts, counts the tokens
    of its reasoning apart, and has no mark for the end of a stream but the
    reason a candidate finished. *)

From Stdlib Require Import ZArith Lia String Ascii.
From stdpp Require Import base gmap strings list numbers.
From S2P Require Import Prelude Float64 GoString Url Providers Json JsonText Sse Stream Upstream OpenaiWire Dialect.

Local Open Scope Z_scope.
Local Open Scope string_scope.

(** ** The provider (gemini.go) *)

Definition DefaultBaseURL : string := "https://generativelanguage.googleapis.com/v1beta".
Definition authHeader : string := "x-goog-api-key".
Definition modelsPath : string := "/models/".
Definition generateContent : string := ":generateContent".
Definition streamGenerateContent : string := ":streamGenerateContent".
Definition sseQuery : string := "alt=sse".
Definition modelNamePrefix : string := "models/".

Definition statusResourceExhausted : string := "RESOURCE_EXHAUSTED".
Definition statusUnauthenticated : string := "UNAUTHENTICATED".
Definition statusPermissionDenied : string := "PERMISSION_DENIED".

Record provider := mkProvider { name : string; baseURL : string; apiKey : string }.

Definition New (n url key : string) : provider :=
  mkProvider n (trim_slashes (if bool_decide (url = "") then DefaultBaseURL else url)) key.

Definition endpoint (p : provider) (model method query : string) : string :=
  let u := baseURL p +:+ modelsPath +:+ PathEscape (TrimPrefix model modelNamePrefix) +:+ method in
  if bool_decide (query = "") then u else u +:+ "?" +:+ query.

(** ** The data of both wires (translate.go) *)

Definition geminiRoleUser : string := "user".
Definition geminiRoleModel : string := "model".

Definition finishStop : string := "STOP".
Definition finishMaxTokens : string := "MAX_TOKENS".
Definition finishUnexpectedFC : string := "UNEXPECTED_TOOL_CALL".
(** [finishSafety] to [finishImageSafety]. *)
Definition refusals : list string :=
  ["SAFETY"; "RECITATION"; "BLOCKLIST"; "PROHIBITED_CONTENT"; "SPII"; "IMAGE_SAFETY"].

Definition openAIFinishStop : string := "stop".
Definition openAIFinishLength : string := "length".
Definition openAIFinishContentFilter : string := "content_filter".

(** A part is its text. *)
Record geminiContent := mkContent { CRole : string; Parts : slice string }.
Definition zeroContent : geminiContent := mkContent "" nil_slice.
Definition to_slice {A} (l : list A) : slice A := mkSlice (length l) l.

Record generationConfig := mkConfig {
  GTemperature : option f64; GTopP : option f64; MaxOutputTokens : option Z; StopSequences : list string
}.
Record geminiRequest := mkGeminiRequest {
  Contents : list geminiContent; SystemInstruction : option geminiContent;
  GenerationConfig : option generationConfig
}.

Record geminiCandidate := mkCandidate { CContent : geminiContent; FinishReason : string; CIndex : Z }.
Definition zeroCandidate : geminiCandidate := mkCandidate zeroContent "" 0.
Record usageMetadata := mkMetadata {
  PromptTokenCount : Z; CandidatesTokenCount : Z; ThoughtsTokenCount : Z; TotalTokenCount : Z
}.
Definition zeroMetadata : usageMetadata := mkMetadata 0 0 0 0.
Record geminiError := mkError { Code : Z; EMessage : string; EStatus : string }.
Record geminiResponse := mkResponse {
  Candidates : slice geminiCandidate; UsageMetadata : option usageMetadata; ModelVersion : string;
  PromptFeedback : option string; GError : option geminiError
}.
Definition zeroResponse : geminiResponse := mkResponse nil_slice None "" None None.

Definition dec_geminiPart : decoder string := dec_struct [("text", at_field id (fun v _ => v) dec_string)].
Definition dec_content : decoder geminiContent := dec_struct
  [("role", at_field CRole (fun v c => mkContent v (Parts c)) dec_string);
   ("parts", at_field Parts (fun v c => mkContent (CRole c) v) (dec_slice "" dec_geminiPart))].
Definition dec_candidate : decoder geminiCandidate := dec_struct
  [("content", at_field CContent (fun v c => mkCandidate v (FinishReason c) (CIndex c)) dec_content);
   ("finishReason", at_field FinishReason (fun v c => mkCandidate (CContent c) v (CIndex c)) dec_string);
   ("index", at_field CIndex (fun v c => mkCandidate (CContent c) (FinishReason c) v) dec_int)].
Definition dec_metadata : decoder usageMetadata := dec_struct
  [("promptTokenCount", at_field PromptTokenCount
      (fun v u => mkMetadata v (CandidatesTokenCount u) (ThoughtsTokenCount u) (TotalTokenCount u)) dec_int);
   ("candidatesTokenCount", at_field CandidatesTokenCount
      (fun v u => mkMetadata (PromptTokenCount u) v (ThoughtsTokenCount u) (TotalTokenCount u)) dec_int);
   ("thoughtsTokenCount", at_field ThoughtsTokenCount
      (fun v u => mkMetadata (PromptTokenCount u) (CandidatesTokenCount u) v (TotalTokenCount u)) dec_int);
   ("totalTokenCount", at_field TotalTokenCount
      (fun v u => mkMetadata (PromptTokenCount u) (CandidatesTokenCount u) (ThoughtsTokenCount u) v) dec_int)].
Definition dec_feedback : decoder string := dec_struct [("blockReason", at_field id (fun v _ => v) dec_string)].
Definition dec_geminiError : decoder geminiError := dec_struct
  [("code", at_field Code (fun v e => mkError v (EMessage e) (EStatus e)) dec_int);
   ("message", at_field EMessage (fun v e => mkError (Code e) v (EStatus e)) dec_string);
   ("status", at_field EStatus (fun v e => mkError (Code e) (EMessage e) v) dec_string)].
Definition zeroError : geminiError := mkError 0 "" "".
Definition dec_response : decoder geminiResponse := dec_struct
  [("candidates", at_field Candidates (fun v r => mkResponse v (UsageMetadata r) (ModelVersion r)
      (PromptFeedback r) (GError r)) (dec_slice zeroCandidate dec_candidate));
   ("usageMetadata", at_field UsageMetadata (fun v r => mkResponse (Candidates r) v (ModelVersion r)
      (PromptFeedback r) (GError r)) (dec_ptr zeroMetadata dec_metadata));
   ("modelVersion", at_field ModelVersion (fun v r => mkResponse (Candidates r) (UsageMetadata r) v
      (PromptFeedback r) (GError r)) dec_string);
   ("promptFeedback", at_field PromptFeedback (fun v r => mkResponse (Candidates r) (UsageMetadata r)
      (ModelVersion r) v (GError r)) (dec_ptr "" dec_feedback));
   ("error", at_field GError (fun v r => mkResponse (Candidates r) (UsageMetadata r) (ModelVersion r)
      (PromptFeedback r) v) (dec_ptr zeroError dec_geminiError))].

Definition toUsage (u : option usageMetadata) : Usage :=
  match u with
  | None => zeroUsage
  | Some u =>
      let completion := CandidatesTokenCount u +i ThoughtsTokenCount u in
      let total := if (TotalTokenCount u =? 0)%Z then PromptTokenCount u +i completion else TotalTokenCount u in
      mkUsage (PromptTokenCount u) completion total
  end.

(** ** The request *)

Definition outputTokenLimit (r : openAIRequest) : option Z :=
  match MaxTokens r with Some n => Some n | None => MaxCompletionTokens r end.

Definition geminiRole (role : string) : string :=
  if bool_decide (role = roleAssistant) || bool_decide (role = geminiRoleModel)
  then geminiRoleModel else geminiRoleUser.

Definition generationConfigOf (r : openAIRequest) : option generationConfig :=
  let cfg := mkConfig (Temperature r) (TopP r) (outputTokenLimit r) (stopSequences (Stop r)) in
  match GTemperature cfg, GTopP cfg, MaxOutputTokens cfg, StopSequences cfg with
  | None, None, None, [] => None
  | _, _, _, _ => Some cfg
  end.

Definition content_of (m : openAIMessage) : geminiContent :=
  mkContent (geminiRole (Role m)) (to_slice [textOf (Content m)]).

Definition translateRequest (raw : string) : geminiRequest + goerror :=
  match Unmarshal dec_request raw zeroRequest with
  | None => inr (ErrWrap "decode chat completions request" (ErrOpaque "json"))
  | Some r =>
      let '(system, contents) := split_messages content_of (slice_list (Messages r)) in
      inl (mkGeminiRequest contents
             (if bool_decide (system = []) then None else Some (mkContent "" (to_slice system)))
             (generationConfigOf r))
  end.

(** [json.Marshal] on the request; a float without a text is its error. *)
Definition content_text (c : geminiContent) : string := struct_text
  (omit (bool_decide (CRole c = "")) "role" (quote (CRole c))
   ++ [("parts", array_text ((fun t => struct_text [("text", quote t)]) <$> slice_list (Parts c)))]).

Definition config_text (c : generationConfig) : option string :=
  match omit_float "temperature" (GTemperature c), omit_float "topP" (GTopP c) with
  | Some temperature, Some topP => Some (struct_text (temperature ++ topP
      ++ match MaxOutputTokens c with Some n => [("maxOutputTokens", Itoa n)] | None => [] end
      ++ omit (bool_decide (StopSequences c = [])) "stopSequences" (array_text (quote <$> StopSequences c))))
  | _, _ => None
  end.

Definition request_text (q : geminiRequest) : option string :=
  let system := match SystemInstruction q with
                | Some c => [("systemInstruction", content_text c)]
                | None => []
                end in
  match GenerationConfig q with
  | None => Some (struct_text ([("contents", array_text (content_text <$> Contents q))] ++ system))
  | Some cfg =>
      match config_text cfg with
      | Some t => Some (struct_text ([("contents", array_text (content_text <$> Contents q))] ++ system
                          ++ [("generationConfig", t)]))
      | None => None
      end
  end.

(** ** The answer *)

(** With one part or with many, their texts in order. *)
Definition candidateText (c : geminiCandidate) : string :=
  match slice_list (Parts (CContent c)) with
  | [t] => t
  | ts => foldr (fun t s => t +:+ s) "" ts
  end.

Definition mapFinishReason (reason : string) : string :=
  if bool_decide (reason = "") then ""
  else if bool_decide (reason = finishMaxTokens) then openAIFinishLength
  else if bool_decide (reason ∈ refusals) then openAIFinishContentFilter
  else openAIFinishStop.

Definition responseModel (reported fallback : string) : string :=
  if bool_decide (reported = "") then fallback else reported.

(** The reason and the text that are reported. *)
Definition outcome_of (r : geminiResponse) : string * string :=
  match slice_list (Candidates r) with
  | c :: _ =>
      let mapped := mapFinishReason (FinishReason c) in
      (candidateText c, if bool_decide (mapped = "") then openAIFinishStop else mapped)
  | [] =>
      ("", match PromptFeedback r with
           | Some reason => if bool_decide (reason = "") then openAIFinishStop else openAIFinishContentFilter
           | None => openAIFinishStop
           end)
  end.

Definition translateCompletion (body id fallbackModel : string) (created : Z) : (string * Usage) + goerror :=
  match Unmarshal dec_response body zeroResponse with
  | None => inr (ErrWrap "decode generateContent response" (ErrOpaque "json"))
  | Some r =>
      let usage := toUsage (UsageMetadata r) in
      let '(text, finish) := outcome_of r in
      inl (completion_text id (responseModel (ModelVersion r) fallbackModel) text finish created usage, usage)
  end.

(** ** The calls *)

Definition parseErrorEnvelope (body : string) : option geminiError :=
  default None (Unmarshal (dec_struct [("error", at_field id (fun v _ => v) (dec_ptr zeroError dec_geminiError))])
                  body None).

Definition classify (status : Z) (body : string) (envelope : option geminiError) : ErrorClass :=
  match envelope with
  | Some e =>
      if bool_decide (EStatus e = statusResourceExhausted) then ErrClassRateLimited
      else if bool_decide (EStatus e = statusUnauthenticated) || bool_decide (EStatus e = statusPermissionDenied)
      then ErrClassAuth
      else ClassFromStatusAndBody status body
  | None => ClassFromStatusAndBody status body
  end.

Definition errorMessage (body : string) (envelope : option geminiError) (status : Z) : string :=
  let raw := if bool_decide (TrimSpace body = "") then "upstream returned status " +:+ Itoa status
             else TrimSpace body in
  match envelope with
  | Some e => if bool_decide (EMessage e = "") then raw else EMessage e
  | None => raw
  end.

Definition statusError (p : provider) (status : Z) (b : body) : goerror :=
  let text := (read_limited maxErrorBody b).1 in
  let envelope := parseErrorEnvelope text in
  ErrProvider (name p) (classify status text envelope) status (errorMessage text envelope status) None.

Definition request_of (p : provider) (model method query text : string) : http_request :=
  mkHttpRequest (endpoint p model method query)
    (Header_Set authHeader (apiKey p) (Header_Set "Content-Type" "application/json" ∅)) text.

Definition post (p : provider) (do : http_request -> http_outcome) (req : ChatRequest) (method query : string)
    : Z * body * option ctxError + goerror :=
  match translateRequest (ReqRaw req) with
  | inr e => inr (ErrProvider (name p) ErrClassInvalidRequest 0
                    "request is not a valid chat completions body" (Some e))
  | inl payload =>
      match request_text payload with
      | None => inr (ErrProvider (name p) ErrClassInternal 0 "encode upstream request"
                       (Some (ErrWrap "encode upstream request" (ErrOpaque "json"))))
      | Some text => exchange (name p) (do (request_of p (ReqModel req) method query text))
      end
  end.

(** [id] is the fresh id of the call, [now] its Unix time. *)
Definition Chat (p : provider) (id : string) (now : Z) (do : http_request -> http_outcome) (req : ChatRequest)
    : ChatResponse + goerror :=
  match post p do req generateContent "" with
  | inr e => inr e
  | inl (status, b, ctx) =>
      if negb (Is2xx status) then inr (statusError p status b)
      else match read_answer (name p) ctx b with
      | inr e => inr e
      | inl text =>
          match translateCompletion text id (ReqModel req) now with
          | inr e => inr (ErrProvider (name p) ErrClassUpstream status
                            "upstream response is not a Gemini completion" (Some e))
          | inl (translated, u) => inl (mkChatResponse (ReqModel req) (name p) translated u)
          end
      end
  end.

(** ** The stream (stream.go) *)

Record streamState := mkStream {
  st_provider : string; id : string; created : Z; model : string; sawFinish : bool; sentRole : bool
}.

(** A delta: its content is written even when empty. *)
Definition delta_text (role content : string) : string := struct_text
  (omit (bool_decide (role = "")) "role" (quote role) ++ [("content", quote content)]).

(** The text an event adds, and the reason to stop it gives. *)
Definition increment (r : geminiResponse) : string * option string :=
  match slice_list (Candidates r) with
  | c :: _ =>
      let mapped := mapFinishReason (FinishReason c) in
      (candidateText c, if bool_decide (mapped = "") then None else Some mapped)
  | [] => ("", None)
  end.

Definition translateEvent (s : streamState) (data : string) : (StreamChunk * streamState) + goerror :=
  match Unmarshal dec_response data zeroResponse with
  | None => inr (ErrProvider (st_provider s) ErrClassUpstream 0 "upstream sent a stream event that is not JSON"
                   (Some (ErrWrap "decode stream event" (ErrOpaque "json"))))
  | Some r =>
      match GError r with
      | Some e => inr (ErrProvider (st_provider s) (classify (Code e) "" (Some e)) (Code e) (EMessage e) None)
      | None =>
          let role := if sentRole s then "" else roleAssistant in
          let '(content, finish) := increment r in
          let u := match UsageMetadata r with Some m => Some (toUsage (Some m)) | None => None end in
          inl (mkChunk (chunk_text (id s) (responseModel (ModelVersion r) (model s)) (delta_text role content)
                          (created s) finish u) u false,
               mkStream (st_provider s) (id s) (created s) (model s)
                 (sawFinish s || bool_decide (finish <> None)) true)
      end
  end.

Definition gemini_event (s : streamState) (ev : SSEEvent) : step streamState :=
  if negb (HasData ev) then Ignore s
  else match translateEvent s (EvData ev) with
  | inr e => Fails e
  | inl (c, s) => Emits c s
  end.

Definition gemini_wire : wire streamState := mkWire gemini_event sawFinish.

(** The methods of the reader are those of the common machine, at this wire. *)
Definition Recv : moment -> streamReader streamState -> (StreamChunk + goerror) * streamReader streamState :=
  Stream.Recv gemini_wire.
Definition recvError : streamReader streamState -> moment -> goerror -> goerror := Stream.recvError gemini_wire.

Definition newStreamReader (p m id : string) (now : Z) (b : body) : streamReader streamState :=
  newReader p b (mkStream p id now m false false).

Definition ChatStream (p : provider) (id : string) (now : Z) (do : http_request -> http_outcome)
    (req : ChatRequest) : streamReader streamState + goerror :=
  match post p do req streamGenerateContent sseQuery with
  | inr e => inr e
  | inl (status, b, _) =>
      if negb (Is2xx status) then inr (statusError p status b)
      else inl (newStreamReader (name p) (ReqModel req) id now b)
  end.

Definition adapter (p : provider) (id : string) (now : Z) (do : http_request -> http_outcome)
    : Provider (streamReader streamState) :=
  mkProviderImpl (name p) (fun req => Some (Chat p id now do req))
    (fun req => Some match ChatStream p id now do req with
                     | inl r => inl (r, mkStreamInfo "" "")
                     | inr e => inr e
                     end).

(** ** The crossing of a request *)

Definition part_json (t : string) : json := JObj [("text", JStr (sanitize t))].
Definition turn_json (m : openAIMessage) : json := JObj
  [("role", JStr (geminiRole (Role m))); ("parts", JArr [part_json (textOf (Content m))])].

Definition config_members (r : openAIRequest) : list (string * json) :=
  let stops := stopSequences (Stop r) in
  float_members "temperature" (Temperature r) ++ float_members "topP" (TopP r)
  ++ match outputTokenLimit r with Some n => [("maxOutputTokens", JNum (Itoa n))] | None => [] end
  ++ member_unless (bool_decide (stops = [])) "stopSequences" (JArr ((fun s => JStr (sanitize s)) <$> stops)).

(** What generateContent is asked, member for member. *)
Definition crossing (r : openAIRequest) : list (string * json) :=
  [("contents", JArr (turn_json <$> turns r))]
  ++ member_unless (bool_decide (system_texts r = [])) "systemInstruction"
       (JObj [("parts", JArr (part_json <$> system_texts r))])
  ++ member_unless (bool_decide (config_members r = [])) "generationConfig" (JObj (config_members r)).

Lemma parts_read d l :
  reads_as (S (S d)) (array_text ((fun t => struct_text [("text", quote t)]) <$> l)) (JArr (part_json <$> l)).
Proof.
  apply reads_list, Forall2_fmap_2. induction l; constructor; [|done]. apply reads_struct. fields. apply reads_str.
Qed.

Lemma geminiRole_named role : geminiRole role <> "" /\ sanitize (geminiRole role) = geminiRole role.
Proof. unfold geminiRole. by destruct (_ || _). Qed.

Lemma content_reads d m : reads_as (S (S (S d))) (content_text (content_of m)) (turn_json m).
Proof.
  apply reads_struct. cbn [content_of CRole Parts].
  rewrite bool_decide_eq_false_2 by apply geminiRole_named. cbn [omit app].
  rewrite <- (proj2 (geminiRole_named (Role m))) at 2.
  fields; [apply reads_str|apply (parts_read d [textOf (Content m)])].
Qed.

Lemma contents_read d (ms : list openAIMessage) :
  reads_as (S (S (S (S d)))) (array_text (content_text <$> (content_of <$> ms))) (JArr (turn_json <$> ms)).
Proof.
  apply reads_list. rewrite <- list_fmap_compose. apply Forall2_fmap_2.
  induction ms; constructor; [apply content_reads|done].
Qed.

Lemma slice_list_to_slice {A} (l : list A) : slice_list (to_slice l) = l.
Proof. unfold slice_list, to_slice. cbn. by apply firstn_all. Qed.

(** There is no configuration exactly when it would have no member. *)
Lemma config_reads r :
  match generationConfigOf r with
  | None => config_members r = []
  | Some cfg =>
      match config_text cfg with
      | Some t => config_members r <> [] /\ forall d, reads_as (S (S (S d))) t (JObj (config_members r))
      | None => exists x, (Temperature r = Some x \/ TopP r = Some x) /\ f64_text x = None
      end
  end.
Proof.
  set (cfg := mkConfig (Temperature r) (TopP r) (outputTokenLimit r) (stopSequences (Stop r))).
  assert (K : match config_text cfg with
      | Some t => (generationConfigOf r <> None -> config_members r <> []) /\
          forall d, reads_as (S (S (S d))) t (JObj (config_members r))
      | None => exists x, (Temperature r = Some x \/ TopP r = Some x) /\ f64_text x = None
      end).
  { unfold config_text. cbn [cfg GTemperature GTopP MaxOutputTokens StopSequences].
    destruct (omit_float "temperature" (Temperature r)) as [ft|] eqn:T;
      [destruct (omit_float "topP" (TopP r)) as [fp|] eqn:P|].
    - split.
      + intros N E. apply N. unfold config_members in E. cbv zeta in E.
        apply app_nil in E as [E1 E]. apply app_nil in E as [E2 E]. apply app_nil in E as [E3 E4].
        unfold generationConfigOf. cbn [GTemperature GTopP MaxOutputTokens StopSequences].
        unfold omit_float in T, P. unfold float_members in E1, E2.
        destruct (Temperature r) as [x|]; [by destruct (f64_text x)|].
        destruct (TopP r) as [x|]; [by destruct (f64_text x)|].
        destruct (outputTokenLimit r); [done|]. by destruct (stopSequences (Stop r)).
      + intros d. apply reads_struct. unfold config_members. cbv zeta. repeat apply Forall2_app.
        * by apply read_float.
        * by apply read_float.
        * destruct (outputTokenLimit r); cbn [app]; fields; apply reads_Itoa.
        * apply read_omit; [done|apply quotes_read].
    - unfold omit_float in P. destruct (TopP r) as [x|]; [|done]. exists x.
      destruct (f64_text x); [done|]. auto.
    - unfold omit_float in T. destruct (Temperature r) as [x|]; [|done]. exists x.
      destruct (f64_text x); [done|]. auto. }
  destruct (generationConfigOf r) as [cfg'|] eqn:G.
  - assert (cfg' = cfg) as ->.
    { revert G. unfold generationConfigOf. fold cfg. 
      destruct (GTemperature cfg), (GTopP cfg), (MaxOutputTokens cfg), (StopSequences cfg); by intros [= <-]. }
    destruct (config_text cfg); [|done]. destruct K as [K1 K2]. split; [|done]. by apply K1.
  - revert G. unfold generationConfigOf, config_members. cbn [GTemperature GTopP MaxOutputTokens StopSequences].
    by destruct (Temperature r), (TopP r), (outputTokenLimit r), (stopSequences (Stop r)).
Qed.

Lemma some_depth : exists d, maxNestingDepth = S (S (S (S (S d)))).
Proof. pose proof deep. exists (maxNestingDepth - 5)%nat. lia. Qed.

Lemma system_reads d l :
  read_fields (S (S (S (S d))))
    match (if bool_decide (l = []) then None else Some (mkContent "" (to_slice l))) with
    | Some c => [("systemInstruction", content_text c)]
    | None => []
    end (member_unless (bool_decide (l = [])) "systemInstruction" (JObj [("parts", JArr (part_json <$> l))])).
Proof.
  destruct (bool_decide (l = [])); [constructor|]. constructor; [|constructor]. split_and!; [done|done|].
  unfold content_text. cbn [CRole Parts]. rewrite bool_decide_eq_true_2 by done. cbn [omit app snd].
  apply reads_struct. rewrite slice_list_to_slice. fields. apply parts_read.
Qed.

(** (C24) A prompt crosses whole: what generateContent reads is every turn of the
    client in order, as the user's or the model's with its text, every system
    and developer text in order as the system instruction, and the options it
    knows under its names, and nothing else; it fails only on a body that does
    not decode, or on a float that has no text. *)
Theorem prompt_crosses raw :
  match translateRequest raw with
  | inl q => exists r, Unmarshal dec_request raw zeroRequest = Some r /\
      match request_text q with
      | Some out => parse out = Some (JObj (crossing r))
      | None => exists x, (Temperature r = Some x \/ TopP r = Some x) /\ f64_text x = None
      end
  | inr _ => Unmarshal dec_request raw zeroRequest = None
  end.
Proof.
  unfold translateRequest. destruct (Unmarshal dec_request raw zeroRequest) as [r|]; [|done].
  rewrite split_messages_spec. exists r. split; [done|].
  pose proof (config_reads r) as C. unfold request_text. cbn [GenerationConfig Contents SystemInstruction].
  destruct (generationConfigOf r) as [cfg|]; [destruct (config_text cfg) as [t|]; [|done]; destruct C as [C1 C2]|];
    apply reads_parse; destruct some_depth as [d ->]; apply reads_struct; unfold crossing; cbn [app];
    (constructor; [split_and!; [done|done|apply contents_read]|]).
  - rewrite (bool_decide_eq_false_2 (config_members r = [])) by done. apply Forall2_app; [apply system_reads|].
    constructor; [split_and!; [done|done|apply C2]|constructor].
  - rewrite C, (bool_decide_eq_true_2 ([] = [])) by done. cbn [member_unless]. rewrite app_nil_r. apply system_reads.
Qed.

(** ** Counts *)

Definition int64_metadata (u : usageMetadata) : Prop :=
  is_int64 (PromptTokenCount u) /\ is_int64 (CandidatesTokenCount u) /\ is_int64 (ThoughtsTokenCount u) /\
  is_int64 (TotalTokenCount u).
Definition opt_int64 (u : option usageMetadata) : Prop := forall v, u = Some v -> int64_metadata v.

Lemma int64_zero : is_int64 0.
Proof. unfold is_int64, min_int64, max_int64. lia. Qed.

Lemma dec_metadata_int64 t u : int64_metadata u -> int64_metadata (dec_metadata t u).1.
Proof.
  intros H. apply (dec_struct_keep int64_metadata); [done|]. intros n d k x v Hd _ (V1 & V2 & V3 & V4).
  repeat (apply elem_of_cons in Hd as [[= -> ->]|Hd]); [..|by apply not_elem_of_nil in Hd]; unfold at_field;
    match goal with |- context [dec_int x ?old] => pose proof (dec_int_keep x old); destruct (dec_int x old) end;
    split_and!; cbn in *; auto.
Qed.

Lemma response_int64 data r : Unmarshal dec_response data zeroResponse = Some r -> opt_int64 (UsageMetadata r).
Proof.
  unfold Unmarshal. destruct (parse data); [|done].
  assert (K : opt_int64 (UsageMetadata (dec_response data zeroResponse).1)).
  { apply (dec_struct_keep (fun r => opt_int64 (UsageMetadata r))); [done|]. intros n d k t v Hd _ Hv.
    repeat (apply elem_of_cons in Hd as [[= -> ->]|Hd]); [..|by apply not_elem_of_nil in Hd]; unfold at_field.
    2: { destruct (dec_ptr zeroMetadata dec_metadata t (UsageMetadata v)) as [w ok] eqn:E. cbn.
      intros m ->. unfold dec_ptr in E.
      assert (K : int64_metadata (dec_metadata t (default zeroMetadata (UsageMetadata v))).1).
      { apply dec_metadata_int64. destruct (UsageMetadata v) as [m'|] eqn:Em; [by apply Hv|].
        repeat split; apply int64_zero. }
      destruct (tree_of t); try done;
        destruct (dec_metadata t (default zeroMetadata (UsageMetadata v))) as [m' ok'];
        injection E as <- _; exact K. }
    all: by match goal with |- context [let '(_, _) := ?x in _] => destruct x end. }
  destruct (dec_response data zeroResponse) as [v ok]. destruct ok; [|done]. by intros [= <-].
Qed.

Lemma metadata_int64 u : opt_int64 u -> int64_usage (toUsage u).
Proof.
  intros H. destruct u as [u|]; [|split_and!; apply int64_zero].
  destruct (H u eq_refl) as (H1 & H2 & H3 & H4). unfold toUsage. split_and!; cbn -[Z.eqb].
  - exact H1.
  - apply wrap64_range.
  - destruct (_ =? _)%Z; [apply wrap64_range|exact H4].
Qed.

(** The usage a client reads in an answer is the one that is billed. *)
Lemma completion_bills body id model created :
  match translateCompletion body id model created with
  | inl (out, u) => answer_usage out = u
  | inr _ => True
  end.
Proof.
  unfold translateCompletion. destruct (Unmarshal dec_response body zeroResponse) as [r|] eqn:U; [|done].
  destruct (outcome_of r). by apply completion_usage, metadata_int64, (response_int64 body).
Qed.

(** Reasoning is billed and said: an answer carries the upstream's text and
    reason to stop, a refused prompt as a content filter, and the usage its
    client reads is the usage the gateway charges, in which the tokens a model
    spent reasoning count as completion. *)
Theorem answer_bills_reasoning body id model created :
  match translateCompletion body id model created with
  | inl (out, u) => answer_usage out = u /\ exists r, Unmarshal dec_response body zeroResponse = Some r /\
      parse out = Some (JObj (completion_members id (responseModel (ModelVersion r) model)
        (outcome_of r).1 (outcome_of r).2 created u)) /\
      forall m, UsageMetadata r = Some m ->
        PromptTokens u = PromptTokenCount m /\
        CompletionTokens u = CandidatesTokenCount m +i ThoughtsTokenCount m /\
        (TotalTokenCount m <> 0 -> TotalTokens u = TotalTokenCount m) /\
        (TotalTokenCount m = 0 -> TotalTokens u = PromptTokens u +i CompletionTokens u)
  | inr _ => Unmarshal dec_response body zeroResponse = None
  end.
Proof.
  pose proof (completion_bills body id model created) as B. unfold translateCompletion in *.
  destruct (Unmarshal dec_response body zeroResponse) as [r|]; [|done].
  destruct (outcome_of r) as [text finish] eqn:O.
  split; [done|]. exists r. rewrite O. split_and!; [done| |].
  - by apply completion_parses.
  - intros m ->. unfold toUsage. cbn -[Z.eqb]. split_and!; [done|done| |]; intros E.
    + by rewrite (proj2 (Z.eqb_neq _ _) E).
    + by rewrite E.
Qed.

(** ** Streams *)

(** The event that says a turn is finished: its first candidate has a reason. *)
Definition is_finish (ev : SSEEvent) : Prop :=
  HasData ev = true /\ exists r c cs, Unmarshal dec_response (EvData ev) zeroResponse = Some r /\
    GError r = None /\ slice_list (Candidates r) = c :: cs /\ FinishReason c <> "".

Lemma increment_finish r : (increment r).2 <> None ->
  exists c cs, slice_list (Candidates r) = c :: cs /\ FinishReason c <> "".
Proof.
  unfold increment. destruct (slice_list (Candidates r)) as [|c cs]; [done|]. cbn.
  case_bool_decide as E; [done|]. intros _. exists c, cs. split; [done|].
  intros E'. apply E. unfold mapFinishReason. by rewrite E', bool_decide_eq_true_2.
Qed.

Lemma gemini_cases s ev :
  gemini_event s ev = Ignore s \/
  (exists e, gemini_event s ev = Fails e /\ errors_Is e IoEOF = false) \/
  (exists c s', gemini_event s ev = Emits c s' /\
    (sawFinish s' = true -> sawFinish s = true \/ is_finish ev)).
Proof.
  unfold gemini_event, translateEvent. destruct (HasData ev) eqn:HD; [|by left]. cbn [negb].
  destruct (Unmarshal dec_response (EvData ev) zeroResponse) as [r|] eqn:U; [|right; left; by eexists].
  destruct (GError r) eqn:G; [right; left; by eexists|]. right; right.
  pose proof (increment_finish r) as F. destruct (increment r) as [content finish].
  eexists _, _. split; [done|]. cbn [sawFinish]. intros [H|H]%orb_true_iff; [by left|right].
  apply bool_decide_eq_true in H. destruct (F H) as (c & cs & E & N). split; [done|]. by exists r, c, cs.
Qed.

#[export] Instance gemini_marked : Marked gemini_wire is_finish.
Proof.
  split; intros s ev; cbn [gemini_wire translate saw]; intros x;
    destruct (gemini_cases s ev) as [E|[(e & E & He)|(c & s1 & E & Hs)]]; rewrite E.
  all: try (by intros [[=]|[? [=]]]); try (by intros [=]).
  - intros [[= <-]|[? [=]]] H1 H2. congruence.
  - intros [[=]|[c' [= <- <-]]] H1 H2. destruct (Hs H2); [congruence|done].
  - by intros [= <-].
Qed.

(** A Gemini stream has no mark for its end, so the reader goes by what a
    finished turn promises: if any read reports the end of the answer, the
    upstream really sent an event whose first candidate gives a reason to have
    finished, however the body came to end. *)
Theorem whole_only_after_finish p m id now b ms e :
  inr e ∈ recvs gemini_wire ms (newStreamReader p m id now b) -> errors_Is e IoEOF = true ->
  exists ev, ev ∈ (events (S (length (unread b))) b).1 /\ is_finish ev.
Proof.
  intros Hin He.
  destruct (whole_only_after_mark gemini_wire is_finish p b (mkStream p id now m false false) ms e)
    as (ev & Hev & _ & Hm); [done..|]. by exists ev.
Qed.

Lemma gemini_delta_reads d role content :
  reads_as (S d) (delta_text role content)
    (JObj (member_unless (bool_decide (role = "")) "role" (JStr (sanitize role))
           ++ [("content", JStr (sanitize content))])).
Proof.
  apply reads_struct, Forall2_app; [apply read_omit; (done || apply reads_str)|]. fields. apply reads_str.
Qed.

#[export] Instance gemini_emitting : Emitting gemini_wire (fun _ => True) tells_usage.
Proof.
  split; [done|]. intros s ev _. cbn [gemini_wire translate]. unfold gemini_event, translateEvent.
  destruct (HasData ev); [|done]. cbn [negb].
  destruct (Unmarshal dec_response (EvData ev) zeroResponse) as [r|] eqn:U; [|done].
  destruct (GError r); [done|]. destruct (increment r) as [content finish]. split; [done|].
  unfold tells_usage. cbn [Keepalive Data ChunkUsage]. eapply chunk_usage_read; [intros d; apply gemini_delta_reads|].
  intros v Hv. destruct (UsageMetadata r) as [m|] eqn:M; [|done]. injection Hv as <-.
  apply (metadata_int64 (Some m)). rewrite <- M. by eapply response_int64.
Qed.

(** What the gateway bills for a Gemini stream is what its client is told:
    the usage a client reads in a chunk is the usage the gateway takes from it. *)
Theorem gemini_stream_tells_its_usage p m id now b ms c :
  inl c ∈ recvs gemini_wire ms (newStreamReader p m id now b) ->
  if Keepalive c then ChunkUsage c = None else chunk_usage (Data c) = ChunkUsage c.
Proof. by apply (every_chunk_emitted gemini_wire (fun _ => True) tells_usage). Qed.

(** ** The URL *)

(** (C25) The URL names one model: whatever a caller writes as its model, the path
    segment that names it has no slash, question mark or hash, so it can not
    reach another path, add a query or a fragment, and unescaping the segment
    gives back the model asked for, without the prefix it may come with. *)
Theorem url_names_the_model p model method query :
  exists segment, endpoint p model method query =
    baseURL p +:+ modelsPath +:+ segment +:+ method +:+ (if bool_decide (query = "") then "" else "?" +:+ query) /\
    PathUnescape segment = Some (TrimPrefix model modelNamePrefix) /\
    contains_byte segment "/" = false /\ contains_byte segment "?" = false /\ contains_byte segment "#" = false.
Proof.
  exists (PathEscape (TrimPrefix model modelNamePrefix)). split_and!.
  - unfold endpoint. destruct (bool_decide (query = "")); [by rewrite !str_app_empty|]. by rewrite !str_app_assoc.
  - apply PathUnescape_escape.
  - apply escape_one_segment.
  - apply escape_one_segment.
  - apply escape_one_segment.
Qed.

(** *** Instances *)

Module GeminiExample.
Definition ask : string := quoted
  "{'model':'gemini-pro','max_completion_tokens':64,'temperature':0.50,'n':3,
    'messages':[{'role':'system','content':'Be brief.'},
                {'role':'user','content':[{'type':'text','text':'h'},{'type':'image_url'},{'type':'text','text':'i'}]},
                {'role':'assistant','content':'hello'}]}".

Example prompt_translated :
  match translateRequest ask with
  | inl q => request_text q
  | inr _ => None
  end = Some (quoted
    "{'contents':[{'role':'user','parts':[{'text':'hi'}]},{'role':'model','parts':[{'text':'hello'}]}],'systemInstruction':{'parts':[{'text':'Be brief.'}]},'generationConfig':{'temperature':0.5,'maxOutputTokens':64}}").
Proof. vm_compute. reflexivity. Qed.

Example a_model_that_reaches_out :
  endpoint (New "g" "" "k") "models/../x?key=1" streamGenerateContent sseQuery
  = "https://generativelanguage.googleapis.com/v1beta/models/..%2Fx%3Fkey=1:streamGenerateContent?alt=sse".
Proof. vm_compute. reflexivity. Qed.

Definition frames (l : list string) : bytes_ := concat ((fun s => sseFrame (payload (quoted s))) <$> l).
Definition words : list string :=
  ["{'candidates':[{'content':{'parts':[{'text':'o'},{'text':'k'}]}}]}";
   "{'candidates':[{'finishReason':'MAX_TOKENS'}],'usageMetadata':{'promptTokenCount':7,'candidatesTokenCount':2,'thoughtsTokenCount':40}}"].
Definition whole : body := mkBody (frames words) (ErrSentinel IoEOF).
Definition cut : body := mkBody (frames (take 1 words)) (ErrSentinel IoEOF).
Definition quiet : moment := mkMoment None false.
Definition last_chunk : StreamChunk := mkChunk (quoted
  "{'id':'c1','object':'chat.completion.chunk','created':0,'model':'m','choices':[{'index':0,'delta':{'content':''},'finish_reason':'length'}],'usage':{'prompt_tokens':7,'completion_tokens':42,'total_tokens':49}}")
  (Some (mkUsage 7 42 49)) false.

Example reads_of_a_whole_answer :
  drop 1 (recvs gemini_wire [quiet; quiet; quiet] (newStreamReader "p" "m" "c1" 0 whole))
  = [inl last_chunk; inr (ErrSentinel IoEOF)].
Proof. vm_compute. reflexivity. Qed.

Example reads_of_a_cut_answer :
  drop 1 (recvs gemini_wire [quiet; quiet; quiet] (newStreamReader "p" "m" "c1" 0 cut))
  = [inr (ErrSentinel StreamTruncated); inr (ErrSentinel StreamTruncated)].
Proof. vm_compute. reflexivity. Qed.

Lemma whole_only_after_finish_witness :
  exists ev, ev ∈ (events (S (length (unread whole))) whole).1 /\ is_finish ev.
Proof.
  apply (whole_only_after_finish "p" "m" "c1" 0 whole [quiet; quiet; quiet] (ErrSentinel IoEOF)).
  - rewrite <- (take_drop 1 (recvs _ _ _)). rewrite reads_of_a_whole_answer.
    apply elem_of_app. right. right. left.
  - reflexivity.
Defined.

Lemma gemini_stream_tells_its_usage_witness :
  if Keepalive last_chunk then ChunkUsage last_chunk = None
  else chunk_usage (Data last_chunk) = ChunkUsage last_chunk.
Proof.
  apply (gemini_stream_tells_its_usage "p" "m" "c1" 0 whole [quiet; quiet; quiet] last_chunk).
  rewrite <- (take_drop 1 (recvs _ _ _)). rewrite reads_of_a_whole_answer.
  apply elem_of_app. right. left.
Defined.

(** A refused prompt is told as a content filter by [Chat]; a stream of the same
    answer reports it as cut off. *)
Definition refused : string := quoted "{'promptFeedback':{'blockReason':'SAFETY'}}".

Lemma refused_stream_looks_cut :
  (match Unmarshal dec_response refused zeroResponse with
   | Some r => outcome_of r
   | None => ("", "")
   end = ("", openAIFinishContentFilter)) /\
  drop 1 (recvs gemini_wire [quiet; quiet]
    (newStreamReader "p" "m" "c1" 0 (mkBody (sseFrame (payload refused)) (ErrSentinel IoEOF))))
  = [inr (ErrSentinel StreamTruncated)].
Proof. vm_compute. done. Qed.

(** The same missing model is [model_not_found] as a reply and an upstream fault
    as an event of a stream, where the envelope is not looked at. *)
Definition missing : string := quoted "{'error':{'code':404,'message':'no such model','status':'NOT_FOUND'}}".

Lemma missing_model_is_upstream_in_a_stream :
  errors_As_class (statusError (New "p" "" "k") 404 (mkBody (payload missing) (ErrSentinel IoEOF)))
    = Some ErrClassModelNotFound /\
  match recvs gemini_wire [quiet]
    (newStreamReader "p" "m" "c1" 0 (mkBody (sseFrame (payload missing)) (ErrSentinel IoEOF))) with
  | [inr e] => errors_As_class e = Some ErrClassUpstream
  | _ => False
  end.
Proof. vm_compute. done. Qed.
End GeminiExample.
