(* ===== verification/Embedder.v ===== *)
(** * The embedder of the semantic tier (internal/cache/embed_gemini.go)

    One HTTP call turns texts into vectors, or fails: a failure is an ordinary
    error, which the lookup takes for a miss.  The theorems say that a batch is
    taken whole or not at all, and that the API key is told in no error. *)

From Stdlib Require Import ZArith Lia String Ascii.
From stdpp Require Import base gmap strings list numbers.
From S2P Require Import Prelude Float64 GoString Url Providers Json JsonText Sse Upstream Dialect.

Local Open Scope Z_scope.
Local Open Scope string_scope.

(** ** The embedder *)

Definition DefaultEmbedBaseURL : string := "https://generativelanguage.googleapis.com/v1beta".
Definition DefaultEmbedModel : string := "gemini-embedding-001".
Definition DefaultEmbedDimensions : Z := 3072.
Definition legacyEmbedDimensions : Z := 768.
Definition embedAuthHeader : string := "x-goog-api-key".
Definition embedModelPrefix : string := "models/".
Definition embedMethod : string := ":batchEmbedContents".
Definition maxEmbedErrorBody : Z := 2 ^ 13.
Definition maxEmbedResponseBytes : Z := 2 ^ 25.
Definition redactedKey : string := "[redacted]".

Definition embedModelDimensions (model : string) : Z :=
  if bool_decide (model = "gemini-embedding-001") then DefaultEmbedDimensions
  else if bool_decide (model = "text-embedding-004") then legacyEmbedDimensions
  else if bool_decide (model = "embedding-001") then legacyEmbedDimensions
  else 0.

Record geminiEmbedder := mkEmbedder { baseURL : string; apiKey : string; model : string; qualified : string }.

Definition NewGeminiEmbedder (url key m : string) : geminiEmbedder :=
  let url := if bool_decide (url = "") then DefaultEmbedBaseURL else url in
  let m := if bool_decide (m = "") then DefaultEmbedModel else m in
  let bare := TrimPrefix m embedModelPrefix in
  mkEmbedder (trim_slashes url) key bare (embedModelPrefix +:+ bare).

Definition Dimensions (g : geminiEmbedder) : Z := embedModelDimensions (model g).

Definition endpoint (g : geminiEmbedder) : string :=
  baseURL g +:+ "/" +:+ embedModelPrefix +:+ PathEscape (model g) +:+ embedMethod.

(** ** Errors *)

(** Every one of them is an [ErrEmbedFailed]; the number is an upstream status
    or an index, the text what the upstream said or what did not decode. *)
Inductive embed_error :=
| BuildFailed (cause : goerror)
| CallFailed (cause : goerror)
| UpstreamStatus (status : Z) (detail : string)
| ReadFailed (cause : goerror)
| TooLarge
| NotABatch (text : string)
| WrongCount (got want : nat)
| EmptyVector (index : nat).

(** [strings.ReplaceAll] of a text that is not empty: [skip] bytes of a match
    are still to be dropped. *)
Fixpoint replace_from (skip : nat) (s old new : string) : string :=
  match s with
  | "" => ""
  | String c t =>
      match skip with
      | S n => replace_from n t old new
      | O => if HasPrefix s old then new +:+ replace_from (pred (String.length old)) t old new
             else String c (replace_from 0 t old new)
      end
  end.
Definition ReplaceAll : string -> string -> string -> string := replace_from 0.

Definition redact (g : geminiEmbedder) (s : string) : string :=
  if bool_decide (apiKey g = "") then s else ReplaceAll s (apiKey g) redactedKey.

Definition statusError (g : geminiEmbedder) (status : Z) (b : body) : embed_error :=
  UpstreamStatus status (redact g (TrimSpace (read_limited maxEmbedErrorBody b).1)).

(** ** The batch *)

Definition item_text (g : geminiEmbedder) (text : string) : string := struct_text
  [("model", quote (qualified g));
   ("content", struct_text [("parts", array_text [struct_text [("text", quote text)]])])].
Definition request_text (g : geminiEmbedder) (texts : list string) : string := struct_text
  [("requests", array_text (item_text g <$> texts))].

Definition request_of (g : geminiEmbedder) (texts : list string) : http_request :=
  mkHttpRequest (endpoint g)
    (Header_Set embedAuthHeader (apiKey g) (Header_Set "Content-Type" "application/json" ∅))
    (request_text g texts).

(** An embedding is the slice of its values. *)
Definition dec_embedding : decoder (slice f64) := dec_struct
  [("values", at_field id (fun v _ => v) (dec_slice f64_zero dec_float32))].
Definition dec_embedResponse : decoder (slice (slice f64)) := dec_struct
  [("embeddings", at_field id (fun v _ => v) (dec_slice nil_slice dec_embedding))].

(** The loop over the embeddings: an empty one is an error. *)
Fixpoint vectors_of (i : nat) (es : list (slice f64)) : list (list f64) + embed_error :=
  match es with
  | [] => inl []
  | e :: es =>
      if bool_decide (slice_list e = []) then inr (EmptyVector i)
      else match vectors_of (S i) es with inl vs => inl (slice_list e :: vs) | inr err => inr err end
  end.

Definition decode (b : body) (want : nat) : list (list f64) + embed_error :=
  let '(text, err) := read_limited (maxEmbedResponseBytes + 1) b in
  match err with
  | Some e => inr (ReadFailed e)
  | None =>
      if (maxEmbedResponseBytes <? Z.of_nat (String.length text))%Z then inr TooLarge
      else match Unmarshal dec_embedResponse text nil_slice with
      | None => inr (NotABatch text)
      | Some decoded =>
          if negb (length (slice_list decoded) =? want)%nat
          then inr (WrongCount (length (slice_list decoded)) want)
          else vectors_of 0 (slice_list decoded)
      end
  end.

Definition Embed (g : geminiEmbedder) (do : http_request -> http_outcome) (texts : list string)
    : list (list f64) + embed_error :=
  match texts with
  | [] => inl []
  | _ =>
      match do (request_of g texts) with
      | Unbuildable e => inr (BuildFailed e)
      | Undelivered e _ => inr (CallFailed e)
      | Response status b _ =>
          if ((status <? 200) || (300 <=? status))%Z then inr (statusError g status b) else decode b (length texts)
      end
  end.

(** What a lookup is answered. *)
Definition reply (r : list (list f64) + embed_error) : option (list (list f64)) :=
  match r with inl vs => Some vs | inr _ => None end.

(** What an error says ([Error()]).  What the HTTP client and a body say of
    themselves, and what [encoding/json] says of a text, are given. *)
Definition error_text (says : goerror -> string) (json_says : string -> string) (err : embed_error) : string :=
  "embed failed: " +:+
  match err with
  | BuildFailed e => "build request: " +:+ says e
  | CallFailed e => "call upstream: " +:+ says e
  | UpstreamStatus status detail =>
      "upstream returned status " +:+ Itoa status +:+ (if bool_decide (detail = "") then "" else ": " +:+ detail)
  | ReadFailed e => "read response: " +:+ says e
  | TooLarge => "response exceeds " +:+ Itoa maxEmbedResponseBytes +:+ " byte limit"
  | NotABatch text => "response is not a batchEmbedContents body: " +:+ json_says text
  | WrongCount got want =>
      "upstream returned " +:+ Itoa (Z.of_nat got) +:+ " embeddings for " +:+ Itoa (Z.of_nat want) +:+ " inputs"
  | EmptyVector i => "upstream returned an empty vector at index " +:+ Itoa (Z.of_nat i)
  end.

(** ** Properties *)

Lemma vectors_of_ok i es vs : vectors_of i es = inl vs -> vs = slice_list <$> es /\ Forall (fun v => v <> []) vs.
Proof.
  revert i vs. induction es as [|e es IH]; intros i vs; cbn [vectors_of]; [intros [= <-]; by split; [|constructor]|].
  case_bool_decide as E; [done|]. destruct (vectors_of (S i) es) as [ws|] eqn:W; [|done].
  intros [= <-]. destruct (IH _ _ W) as [-> F]. by split; [|constructor].
Qed.

Lemma vectors_of_error i es err : vectors_of i es = inr err -> exists j, err = EmptyVector j.
Proof.
  revert i. induction es as [|e es IH]; intros i; cbn [vectors_of]; [done|].
  case_bool_decide; [intros [= <-]; by eexists|]. specialize (IH (S i)).
  destruct (vectors_of (S i) es); [done|]. intros [= <-]. by apply IH.
Qed.

Definition item_json (g : geminiEmbedder) (text : string) : json := JObj
  [("model", JStr (sanitize (qualified g)));
   ("content", JObj [("parts", JArr [JObj [("text", JStr (sanitize text))]])])].

Lemma request_reads g texts :
  parse (request_text g texts) = Some (JObj [("requests", JArr (item_json g <$> texts))]).
Proof.
  apply reads_parse. pose proof deep. 
  assert (exists d, maxNestingDepth = S (S (S (S (S (S d)))))) as [d ->] by (exists (maxNestingDepth - 6)%nat; lia).
  apply reads_struct. fields. apply reads_list, Forall2_fmap_2.
  induction texts as [|t texts IH]; constructor; [|done]. apply reads_struct. fields; [apply reads_str|].
  apply reads_struct. fields. apply reads_list. constructor; [|constructor]. apply reads_struct. fields. apply reads_str.
Qed.

(** A batch is taken whole or not at all: the request names every text, in
    order, and when vectors come back there is one for each text and none is
    empty; they come of one reply that is a success, arrived whole and within
    the size limit, and decodes to exactly those vectors. *)
Theorem a_batch_is_whole g do texts :
  parse (sent (request_of g texts)) = Some (JObj [("requests", JArr (item_json g <$> texts))]) /\
  match Embed g do texts with
  | inl vs => length vs = length texts /\ Forall (fun v => v <> []) vs /\
      (texts <> [] -> exists status b ctx decoded, do (request_of g texts) = Response status b ctx /\
         Is2xx status = true /\ Z.of_nat (length (unread b)) <= maxEmbedResponseBytes /\
         ends_with b = ErrSentinel IoEOF /\
         Unmarshal dec_embedResponse (str (unread b)) nil_slice = Some decoded /\
         vs = slice_list <$> slice_list decoded)
  | inr _ => texts <> []
  end.
Proof.
  split; [apply request_reads|]. unfold Embed. destruct texts as [|t texts]; [done|].
  destruct (do _) as [e|e c|status b ctx]; [done|done|]. destruct (_ || _)%Z eqn:B; [done|].
  unfold decode. assert (H0 : (0 <= maxEmbedResponseBytes)%Z) by (by unfold maxEmbedResponseBytes).
  revert H0. generalize maxEmbedResponseBytes. intros limit H0.
  pose proof (read_limited_spec limit b H0) as R. destruct (Z.ltb_spec limit (Z.of_nat (length (unread b)))) as [L|L].
  { destruct R as (text & -> & N). by rewrite N, (proj2 (Z.ltb_lt _ _)) by lia. }
  rewrite R. destruct (ends_cases (ends_with b)) as [E|[E ->]]; [|done]. rewrite E. cbn [body_error].
  rewrite str_length.
  rewrite (proj2 (Z.ltb_ge _ _)) by lia.
  destruct (Unmarshal _ _ _) as [decoded|] eqn:U; [|done].
  destruct (Nat.eqb_spec (length (slice_list decoded)) (length (t :: texts))) as [N|N]; [cbn [negb]|done].
  destruct (vectors_of 0 (slice_list decoded)) as [vs|err] eqn:V; [|done].
  destruct (vectors_of_ok _ _ _ V) as [-> F]. split_and!; [by rewrite length_fmap|done|]. intros _.
  exists status, b, ctx, decoded. split_and!; [done| |lia|done|done|done]. unfold Is2xx. bool_to_prop.
  apply andb_true_iff. split; bool_to_prop; [apply Z.leb_le|apply Z.ltb_lt]; lia.
Qed.

(** *** The key *)

Fixpoint Contains (s k : string) : bool :=
  HasPrefix s k || match s with "" => false | String _ t => Contains t k end.

Lemma HasPrefix_before p c x k :
  contains_byte k c = false -> HasPrefix (p +:+ String c x) k = true -> HasPrefix p k = true.
Proof.
  revert k. induction p as [|a p IH]; intros [|b k]; try done.
  - rewrite str_app_nil. cbn. by intros [-> _]%orb_false_iff.
  - rewrite str_app_cons. cbn. intros [_ C]%orb_false_iff [E H]%andb_true_iff. by rewrite E, (IH k).
Qed.

Lemma HasPrefix_Contains s k : HasPrefix s k = true -> Contains s k = true.
Proof. intros H. destruct s; cbn [Contains]; by rewrite H. Qed.

Lemma Contains_tail a s k : Contains s k = true -> Contains (String a s) k = true.
Proof. intros H. cbn [Contains]. rewrite H. apply orb_true_r. Qed.

Lemma Contains_short s k : (String.length s < String.length k)%nat -> Contains s k = false.
Proof.
  assert (P : forall s k, (String.length s < String.length k)%nat -> HasPrefix s k = false).
  { clear. induction s as [|a s IH]; intros [|b k]; cbn; intros L; [lia|done|lia|].
    rewrite IH by lia. apply andb_false_r. }
  induction s as [|a s IH]; intros L; cbn [Contains]; rewrite P by done; [done|]. cbn [orb]. apply IH. cbn in L. lia.
Qed.

(** Across a byte the key does not have, it is on one side. *)
Lemma Contains_split p c x k :
  contains_byte k c = false -> k <> "" -> Contains (p +:+ String c x) k = true ->
  Contains p k = true \/ Contains x k = true.
Proof.
  intros C N. induction p as [|a p IH].
  - rewrite str_app_nil. cbn [Contains]. intros [H|H]%orb_true_iff; [|by right].
    exfalso. destruct k as [|b k]; [done|]. cbn in H, C. apply orb_false_iff in C as [C _].
    apply andb_true_iff in H as [H _]. congruence.
  - rewrite str_app_cons. cbn [Contains]. intros [H|H]%orb_true_iff.
    + left. rewrite <- str_app_cons in H. apply HasPrefix_before in H; [|done].
      cbn [Contains]. by rewrite H.
    + destruct (IH H) as [H'|H']; [left|by right]. cbn [Contains]. rewrite H'. apply orb_true_r.
Qed.

(** What stands before the first replacement was in the text. *)
Lemma replaced_prefix s old p :
  contains_byte p "[" = false -> HasPrefix (replace_from 0 s old redactedKey) p = true -> HasPrefix s p = true.
Proof.
  revert p. induction s as [|c s IH]; intros p C; [done|]. cbn [replace_from].
  destruct (HasPrefix (String c s) old).
  { destruct p as [|a p]; [done|]. cbn [contains_byte] in C. apply orb_false_iff in C as [E _].
    change redactedKey with (String "[" "redacted]"). rewrite str_app_cons. cbn [HasPrefix]. by rewrite E. }
  destruct p as [|a p]; [done|]. cbn in *. apply orb_false_iff in C as [_ C].
  intros [E H]%andb_true_iff. by rewrite E, IH.
Qed.

Lemma replaced_clean s k : forall skip, k <> "" -> contains_byte k "[" = false -> contains_byte k "]" = false ->
  Contains "redacted" k = false -> Contains (replace_from skip s k redactedKey) k = false.
Proof.
  induction s as [|c s IH]; intros skip N C1 C2 C3; [by destruct k|]. cbn [replace_from].
  destruct skip as [|n]; [|by apply IH]. destruct (HasPrefix (String c s) k) eqn:H.
  - apply Bool.not_true_iff_false. intros X.
    apply (Contains_split "" "[" _ k C1 N) in X as [X|X]; [by destruct k|].
    apply (Contains_split "redacted" "]" _ k C2 N) in X as [X|X]; [congruence|].
    by rewrite IH in X.
  - cbn [Contains]. rewrite IH by done. rewrite orb_false_r. apply Bool.not_true_iff_false. intros X.
    rewrite (replaced_prefix (String c s) k k C1) in H; [done|]. cbn [replace_from]. by rewrite H.
Qed.

(** *** What an error says *)

Fixpoint numeric (s : string) : bool :=
  match s with "" => true | String c t => (is_digit c || Ascii.eqb c "-") && numeric t end.

(** A key as the API hands them out: too long to be a word of a message, not a
    number, and with none of the bytes a message separates its parts with. *)
Definition separators : list ascii := [" "; ":"; "/"; "034"; "["; "]"]%char.
Definition api_key (k : string) : bool :=
  (18 <? String.length k)%nat && forallb (fun c => negb (contains_byte k c)) separators && negb (numeric k).

Definition clean (k s : string) : Prop := Contains s k = false.

Section Told.
Variable k : string.
Hypothesis Hk : api_key k = true.

Lemma key_long : (18 < String.length k)%nat.
Proof. unfold api_key in Hk. apply andb_true_iff in Hk as [[L%Nat.ltb_lt _]%andb_true_iff _]. exact L. Qed.

Lemma key_without c : c ∈ separators -> contains_byte k c = false.
Proof.
  intros I. unfold api_key in Hk. apply andb_true_iff in Hk as [[_ F]%andb_true_iff _].
  rewrite forallb_forall in F. apply negb_true_iff, F. by apply list_elem_of_In.
Qed.

Lemma key_nonempty : k <> "".
Proof. intros E. pose proof key_long. rewrite E in *. cbn in *. lia. Qed.

(** A word. *)
Lemma clean_word s : (String.length s <= 18)%nat -> clean k s.
Proof. intros L. apply Contains_short. pose proof key_long. lia. Qed.

(** Two parts of a message. *)
Lemma clean_parts p c s : c ∈ separators -> clean k p -> clean k s -> clean k (p +:+ String c s).
Proof.
  unfold clean. intros C P S. apply Bool.not_true_iff_false. intros X.
  apply Contains_split in X as [X|X]; [congruence|congruence|by apply key_without|apply key_nonempty].
Qed.

Lemma numeric_app a b : numeric (a +:+ b) = numeric a && numeric b.
Proof. induction a as [|c a IH]; [done|]. rewrite str_app_cons. cbn [numeric]. by rewrite IH, andb_assoc. Qed.

Lemma HasPrefix_numeric s p : numeric s = true -> HasPrefix s p = true -> numeric p = true.
Proof.
  revert p. induction s as [|c s IH]; intros [|d p]; cbn [numeric HasPrefix]; try done.
  intros [C N]%andb_true_iff [E%Ascii.eqb_eq P]%andb_true_iff. subst d. by rewrite C, (IH p).
Qed.

Lemma clean_numeric s : numeric s = true -> clean k s.
Proof.
  unfold api_key in Hk. apply andb_true_iff in Hk as [_ N%negb_true_iff].
  unfold clean. induction s as [|c s IH]; intros E; cbn [Contains]; apply orb_false_iff; split.
  - apply Bool.not_true_iff_false. intros X%HasPrefix_numeric; congruence.
  - done.
  - apply Bool.not_true_iff_false. intros X%HasPrefix_numeric; congruence.
  - apply IH. cbn in E. by apply andb_true_iff in E as [_ E].
Qed.

Lemma all_digits_numeric s : all_digits s = true -> numeric s = true.
Proof. induction s as [|c s IH]; [done|]. cbn. intros [-> D]%andb_true_iff. by apply IH. Qed.

Lemma clean_Itoa z : clean k (Itoa z).
Proof.
  apply clean_numeric. destruct (decide (0 <= z)%Z) as [H|H].
  - destruct (Itoa_digits z H) as (_ & _ & _ & _ & D & _). by apply all_digits_numeric.
  - destruct z as [|p|p]; [lia|lia|]. rewrite Itoa_neg. cbn [numeric].
    destruct (Itoa_digits (Zpos p)) as (_ & _ & _ & _ & D & _); [lia|]. by rewrite (all_digits_numeric _ D).
Qed.

End Told.

Ltac a_word := apply clean_word; [assumption|cbn; lia].

(** A message is taken apart at its separators: a literal word, then the rest. *)
Ltac clean_at w c :=
  apply (clean_parts _ ltac:(eassumption) w c); [repeat constructor|a_word|].

(** [*url.Error], which is what [net/http] answers for a request that it cannot
    make or deliver: the operation, the URL and the cause, and nothing of a header. *)
Definition quotes_the_url (says : goerror -> string) (k u : string) (e : goerror) : Prop :=
  exists op cause, says e = op +:+ String " " (String "034" (u +:+ String "034" (String ":" (String " " cause)))) /\
    clean k op /\ clean k cause.

Section Clean.
Variables (says : goerror -> string) (json_says : string -> string) (k : string).
Hypothesis Hk : api_key k = true.

Lemma clean_quoted_url u e : clean k u -> quotes_the_url says k u e -> clean k (says e).
Proof.
  intros U (op & cause & -> & O & C). apply clean_parts; [done|repeat constructor|done|].
  apply (clean_parts k Hk "" "034"); [repeat constructor|a_word|].
  apply clean_parts; [done|repeat constructor|done|].
  apply (clean_parts k Hk "" ":"); [repeat constructor|a_word|].
  apply (clean_parts k Hk "" " "); [repeat constructor|a_word|done].
Qed.

Lemma clean_endpoint g : clean k (baseURL g) -> clean k (PathEscape (model g)) -> clean k (endpoint g).
Proof.
  intros B P. unfold endpoint. apply (clean_parts k Hk (baseURL g) "/"); [repeat constructor|done|].
  clean_at "models" "/"%char. apply (clean_parts k Hk (PathEscape (model g)) ":"); [repeat constructor|done|].
  a_word.
Qed.

(** What an error carries that is not the package's own. *)
Definition carries (err : embed_error) : Prop :=
  match err with
  | BuildFailed e | CallFailed e | ReadFailed e => clean k (says e)
  | NotABatch text => clean k (json_says text)
  | UpstreamStatus _ detail => clean k detail
  | TooLarge | WrongCount _ _ | EmptyVector _ => True
  end.

(** The package puts no key into a message. *)
Lemma clean_message err : carries err -> clean k (error_text says json_says err).
Proof.
  intros C. unfold error_text. clean_at "embed" " "%char. clean_at "failed:" " "%char.
  destruct err as [e|e|status detail|e| |text|got want|i]; cbn [carries] in C.
  - clean_at "build" " "%char. clean_at "request:" " "%char. exact C.
  - clean_at "call" " "%char. clean_at "upstream:" " "%char. exact C.
  - clean_at "upstream" " "%char. clean_at "returned" " "%char. clean_at "status" " "%char. case_bool_decide as D.
    + rewrite str_app_empty. by apply clean_Itoa.
    + apply (clean_parts k Hk (Itoa status) ":"); [repeat constructor|by apply clean_Itoa|].
      clean_at "" " "%char. exact C.
  - clean_at "read" " "%char. clean_at "response:" " "%char. exact C.
  - clean_at "response" " "%char. clean_at "exceeds" " "%char.
    apply (clean_parts k Hk (Itoa maxEmbedResponseBytes) " "); [repeat constructor|by apply clean_Itoa|].
    clean_at "byte" " "%char. a_word.
  - clean_at "response" " "%char. clean_at "is" " "%char. clean_at "not" " "%char. clean_at "a" " "%char. clean_at "batchEmbedContents" " "%char.
    clean_at "body:" " "%char. exact C.
  - clean_at "upstream" " "%char. clean_at "returned" " "%char.
    apply (clean_parts k Hk (Itoa (Z.of_nat got)) " "); [repeat constructor|by apply clean_Itoa|].
    clean_at "embeddings" " "%char. clean_at "for" " "%char.
    apply (clean_parts k Hk (Itoa (Z.of_nat want)) " "); [repeat constructor|by apply clean_Itoa|]. a_word.
  - clean_at "upstream" " "%char. clean_at "returned" " "%char. clean_at "an" " "%char. clean_at "empty" " "%char. clean_at "vector" " "%char.
    clean_at "at" " "%char. clean_at "index" " "%char. by apply clean_Itoa.
Qed.

(** What the upstream said is redacted. *)
Lemma clean_detail g s : apiKey g = k -> clean k (redact g s).
Proof.
  intros E. unfold redact. rewrite E. pose proof (key_nonempty k Hk). rewrite bool_decide_eq_false_2 by done.
  apply replaced_clean; [done|apply key_without; [done|repeat constructor]..|a_word].
Qed.
End Clean.

(** (C26) The API key is told in no error: whatever fails, the text of the error
    [Embed] returns does not hold the key.  That is so of every one of its errors:
    the messages of the package, the reply of an upstream that refuses (and may
    echo the key), the failures of the HTTP client, which quote the URL of the
    request, the failures of a reply's body and of its decoding.  The key is one
    as the API hands them out ([api_key]), and the operator did not put it in the
    base URL or in the name of the model; of their own, the client, the body and
    the decoder say nothing that holds it. *)
Theorem key_is_never_told says json_says g do texts err :
  api_key (apiKey g) = true ->
  clean (apiKey g) (baseURL g) -> clean (apiKey g) (PathEscape (model g)) ->
  (forall e, do (request_of g texts) = Unbuildable e \/ (exists ctx, do (request_of g texts) = Undelivered e ctx) ->
     quotes_the_url says (apiKey g) (url (request_of g texts)) e) ->
  (forall status b ctx, do (request_of g texts) = Response status b ctx -> clean (apiKey g) (says (ends_with b))) ->
  (forall text, clean (apiKey g) (json_says text)) ->
  Embed g do texts = inr err ->
  Contains (error_text says json_says err) (apiKey g) = false.
Proof.
  intros Hk B P Client Body Json E. apply (clean_message says json_says (apiKey g) Hk).
  pose proof (clean_endpoint _ Hk g B P) as U. unfold Embed in E. destruct texts as [|t texts]; [done|].
  destruct (do (request_of g (t :: texts))) as [e|e c|status b ctx].
  - injection E as <-. apply (clean_quoted_url says _ Hk (endpoint g)); [done|]. apply Client. by left.
  - injection E as <-. apply (clean_quoted_url says _ Hk (endpoint g)); [done|]. apply Client. right. by eexists.
  - destruct (_ || _)%Z; [injection E as <-; by apply clean_detail|]. specialize (Body _ _ _ eq_refl).
    unfold decode, read_limited in E. destruct (_ <=? _)%Z; cbn iota beta in E;
      [|destruct (ends_cases (ends_with b)) as [X|[X Y]]; [rewrite X in E; cbn [body_error] in E|rewrite Y in E; by injection E as <-]].
    all: destruct (_ <? _)%Z; [by injection E as <-|]; destruct (Unmarshal _ _ _) as [d|]; [|injection E as <-; apply Json];
      destruct (negb _); [by injection E as <-|]; apply vectors_of_error in E as [i ->]; done.
Qed.

(** *** Instances *)

Module EmbedderExample.
Definition g : geminiEmbedder := NewGeminiEmbedder "" "AIza-1" "models/text-embedding-004".

Definition batch : body := mkBody (payload (quoted "{'embeddings':[{'values':[0.5,1e-1]},{'values':[-2]}]}")) (ErrSentinel IoEOF).
Definition short : body := mkBody (payload (quoted "{'embeddings':[{'values':[0.5]}]}")) (ErrSentinel IoEOF).

(** One tenth as a [float32]. *)
Example a_whole_batch :
  Embed g (fun _ => Response 200 batch None) ["a"; "b"]
  = inl [[f64_ratio 1 2; f64_ratio 13421773 134217728]; [f64_of_Z (-2)]].
Proof. vm_compute. reflexivity. Qed.

Example a_short_batch : Embed g (fun _ => Response 200 short None) ["a"; "b"] = inr (WrongCount 1 2).
Proof. vm_compute. reflexivity. Qed.

Definition echo : body := mkBody (payload "  bad key AIza-1AIza-1! ") (ErrSentinel IoEOF).
Example an_echoed_key :
  statusError g 403 echo = UpstreamStatus 403 "bad key [redacted][redacted]!".
Proof. vm_compute. reflexivity. Qed.

(** A client that cannot reach the host of the request. *)
Definition secret : string := "AIza-0123456789-abcdef".
Definition keyed : geminiEmbedder := NewGeminiEmbedder "" secret "models/text-embedding-004".
Definition unreachable (_ : http_request) : http_outcome := Undelivered (ErrOpaque "dial") None.
Definition transport_says (_ : goerror) : string :=
  "Post " +:+ String "034" (url (request_of keyed ["a"]) +:+ String "034" ": dial tcp: no such host").
Definition told : string := error_text transport_says (fun _ => "unexpected end of JSON input") (CallFailed (ErrOpaque "dial")).

Example the_text : told =
  "embed failed: call upstream: Post " +:+ String "034"
    ("https://generativelanguage.googleapis.com/v1beta/models/text-embedding-004:batchEmbedContents" +:+
     String "034" ": dial tcp: no such host").
Proof. vm_compute. reflexivity. Qed.

Lemma key_is_never_told_witness :
  Embed keyed unreachable ["a"] = inr (CallFailed (ErrOpaque "dial")) /\ Contains told secret = false.
Proof.
  split; [reflexivity|].
  apply (key_is_never_told transport_says (fun _ => "unexpected end of JSON input") keyed unreachable ["a"]
           (CallFailed (ErrOpaque "dial"))); try (vm_compute; reflexivity).
  intros e _. exists "Post", "dial tcp: no such host". split_and!; vm_compute; reflexivity.
Defined.
End EmbedderExample.
