(* ===== verification/Wiring.v ===== *)
(** * Wiring (cmd/penstock/main.go, internal/providers/factory.go)

    From a loaded configuration to the parts of a running gateway: the
    providers the registered builders make, one router per route over a shared
    health tracker, the prices an estimate is made at, the tenants' keys and
    limits.  What a builder answers is given; the theorems say that a
    configuration that passes validation boots, and that what it wires is what
    it says. *)

From Stdlib Require Import ZArith Lia String Ascii.
From stdpp Require Import base gmap strings list numbers sorting.
From S2P Require Import Prelude Float64 GoString Providers Health Selector Router Sha256 Budget.
From S2P Require Import Estimator Pricing Money Guard Wire Auth Durable Exact Semantic Lookup Handlers.
From S2P Require Import Json Config OpenaiWire Ingress.

Local Open Scope Z_scope.

(** ** Providers (factory.go) *)

Inductive boot_error :=
| DuplicateName (name : string)
| UnknownKind (name : string)
| BuilderFailed (name : string)
| NotBuilt (route name : string)
| UnknownStrategy (route : string)
| RouterRefused (route : string) (e : newError).

Section Boot.
Context {R : Type}.

(** [builders]: what each kind was registered with. *)
Definition registry : Type := ProviderKind -> option (ProviderConfig -> option (Provider R)).

Fixpoint buildAll (reg : registry) (cfgs : list ProviderConfig) (out : gmap string (Provider R))
    : gmap string (Provider R) + boot_error :=
  match cfgs with
  | [] => inl out
  | cfg :: cfgs =>
      match out !! PName cfg with
      | Some _ => inr (DuplicateName (PName cfg))
      | None =>
          match reg (PKind cfg) with
          | None => inr (UnknownKind (PName cfg))
          | Some build =>
              match build cfg with
              | None => inr (BuilderFailed (PName cfg))
              | Some p => buildAll reg cfgs (<[PName cfg := p]> out)
              end
          end
      end
  end.

Definition BuildAll (reg : registry) (cfgs : list ProviderConfig) : gmap string (Provider R) + boot_error :=
  buildAll reg cfgs ∅.

(** ** Routes *)

(** [time.Duration(n) * unit]. *)
Definition duration (n unit : Z) : Duration := wrap64 (n * unit).

Definition routerOptions (cfg : Config) : Options :=
  let r := CRouter cfg in
  mkOptions StrategyUnset (Config.MaxAttempts r)
    (duration (RetryBaseDelayMS r) Millisecond) (duration (MaxRetryDelayMS r) Millisecond)
    (Config.BreakerThreshold r) (duration (BreakerCooldownSeconds r) Second).

Definition strategyOrDefault (s : string) : string :=
  if bool_decide (s = ""%string) then "priority"%string else s.

(** The conversion [router.Strategy(s)]: the named constants. *)
Definition strategy_of (s : string) : Strategy :=
  if bool_decide (s = "priority"%string) then StrategyPriority
  else if bool_decide (s = "least_latency"%string) then StrategyLeastLatency
  else if bool_decide (s = "round_robin"%string) then StrategyRoundRobin
  else if bool_decide (s = ""%string) then StrategyUnset
  else StrategyOther s.

(** A routed model: its router, its selector and the members of its chain. *)
Record routed := mkRouted {
  r_router : Router; r_selector : Selector; r_members : list (Provider R)
}.

(** One member: asked for its own name of the model, where that differs. *)
Definition member (route : RouteConfig) (p : Provider R) (name : string) : Provider R :=
  if bool_decide (UpstreamModel route name = RModel route) then p
  else WithModel p (UpstreamModel route name).

Fixpoint build_chain (route : RouteConfig) (provs : gmap string (Provider R)) (names : list string)
    : list (Provider R) + boot_error :=
  match names with
  | [] => inl []
  | name :: names =>
      match provs !! name with
      | None => inr (NotBuilt (RModel route) name)
      | Some p =>
          match build_chain route provs names with
          | inl chain => inl (member route p name :: chain)
          | inr e => inr e
          end
      end
  end.

Definition build_route (o : Options) (h : tracker) (provs : gmap string (Provider R)) (route : RouteConfig)
    : routed + boot_error :=
  match build_chain route provs (Chain route) with
  | inr e => inr e
  | inl chain =>
      match NewSelector (strategy_of (strategyOrDefault (RStrategy route))) with
      | None => inr (UnknownStrategy (RModel route))
      | Some sel =>
          match New (RModel route) (provName <$> chain) (Some h) (Some sel) o with
          | inl e => inr (RouterRefused (RModel route) e)
          | inr r => inl (mkRouted r sel chain)
          end
      end
  end.

Fixpoint build_routes (o : Options) (h : tracker) (provs : gmap string (Provider R))
    (rs : list RouteConfig) (out : gmap string routed) : gmap string routed + boot_error :=
  match rs with
  | [] => inl out
  | route :: rs =>
      match build_route o h provs route with
      | inr e => inr e
      | inl r => build_routes o h provs rs (<[RModel route := r]> out)
      end
  end.

Definition buildRoutes (cfg : Config) (provs : gmap string (Provider R)) : gmap string routed + boot_error :=
  let o := routerOptions cfg in
  build_routes o (NewHealth o) provs (CRoutes cfg) ∅.

(** What [Router.ChatStream] hands on: a timed reader, which names the provider
    and has no answer to which model it was. *)
Definition routed_open (p : Provider R) (req : ChatRequest) : option ((R * streamInfo) + goerror) :=
  match provStream p req with
  | Some (inl (r, _)) => Some (inl (r, mkStreamInfo (provName p) ""))
  | o => o
  end.
End Boot.

Arguments registry : clear implicits.
Arguments routed : clear implicits.

(** ** Prices, keys and limits *)

Definition kind_text (k : ProviderKind) : string :=
  match k with
  | KindGroq => "groq" | KindOpenAICompat => "openai_compat" | KindOpenAI => "openai"
  | KindCerebras => "cerebras" | KindMistral => "mistral" | KindOpenRouter => "openrouter"
  | KindGemini => "gemini" | KindAnthropic => "anthropic" | KindOther s => s
  end%string.

Definition kinds_by_name (ps : list ProviderConfig) : gmap string string :=
  foldl (fun m p => <[PName p := kind_text (PKind p)]> m) ∅ ps.

(** A name that is not there reads as the empty string. *)
Definition providerKinds (cfg : Config) (provider : string) : string :=
  default ""%string (kinds_by_name (CProviders cfg) !! provider).

Definition price_route (cfg : Config) (m : gmap string (string * string)) (route : RouteConfig)
    : gmap string (string * string) :=
  match Chain route with
  | [] => m
  | first :: _ => <[RModel route := (providerKinds cfg first, UpstreamModel route first)]> m
  end.
Definition price_index (cfg : Config) : gmap string (string * string) :=
  foldl (price_route cfg) ∅ (CRoutes cfg).
Definition routePricing (cfg : Config) (model : string) : string * string :=
  default (""%string, ""%string) (price_index cfg !! model).

(** [None]: no tenants. *)
Definition tenantKeys (cfg : Config) : gmap string (list string) :=
  foldl (fun m t => <[TName t := TKeys t]> m) ∅ (Tenants (CAuth cfg)).

Definition limits_of (l : TenantLimits) : Limits f64 :=
  mkLimits (Config.RequestsPerMinute l) (Config.TokensPerMinute l) (Config.DailyUSD l)
    (Config.MonthlyUSD l) (Config.FailClosed l).

Definition tenantLimits (cfg : Config) : gmap string (Limits f64) :=
  foldl (fun m t => <[TName t := limits_of (TLimits t)]> m) ∅ (Tenants (CAuth cfg)).

(** ** The gateway's parts *)

(** [openEnforcer]: [opened] is what opening the store file and loading it
    answered; a store that does not open, or does not load, is fatal. *)
Definition openEnforcer (cfg : Config) (l : gmap string (Limits f64)) (clk : Time)
    (opened : option (option (list (SpendRow f64)))) : option (MemEnforcer f64) :=
  if bool_decide (StorePath (CAccounting cfg) = ""%string) then Some (NewEnforcer l)
  else match opened with
       | None => None
       | Some loaded => NewDurableEnforcer l clk true loaded
       end.

(** [openLedger]: [opens] says whether the file opens; a file starts with no
    rows of this run. *)
Definition openLedger (ledger_path : string) (opens : bool) : option Ledger :=
  if bool_decide (ledger_path = ""%string) then Some NopLedger
  else if opens then Some (FileLedger []) else None.

(** [buildAccounting]: [None] is a boot error, [Some None] a gateway without
    tenants.  [prices] is [pricing.DefaultTable()]. *)
Definition buildAccounting (cfg : Config) (prices : option Table) (ledger_opens : bool) (clk : Time)
    (opened : option (option (list (SpendRow f64)))) : option (option Guard) :=
  let l := tenantLimits cfg in
  if bool_decide (l = ∅) then Some None
  else match prices with
  | None => None
  | Some t =>
      match openLedger (LedgerPath (CAccounting cfg)) ledger_opens with
      | None => None
      | Some ledger =>
          match openEnforcer cfg l clk opened with
          | None => None
          | Some e =>
              let est := NewEstimator (Some t) (Some (routePricing cfg)) (mkEstimatorOptions 0 0) in
              Some (Some (mkGuard (Some (Estimate_ est)) (Some e) (Some t) (Some (providerKinds cfg))
                            (Some ledger)))
          end
      end
  end.

Definition buildCache (cfg : Config) : option Lookup :=
  let c := CCache cfg in
  let life := duration (TTLSeconds c) Second in
  if negb (CacheEnabled c) then None
  else
    let sem := SemanticC c in
    Some (mkLookup (Some (NewExact (MaxEntries c) life))
            (if SemEnabled sem then Some (NewSemantic (SemThreshold sem) (MaxPerTenant sem) life) else None)
            (SemEnabled sem) (MaxTemperature c)).

(** The keys of the server: [order] is the map [tenantKeys] gives, in the order
    Go walks it. *)
Definition gateway_keys (cfg : Config) (order : list (string * list string)) : keySet :=
  WithTenantKeys (newKeySet (ClientKeys (CAuth cfg))) order.

Definition buildGateway {R} (cfg : Config) (routes : gmap string (routed R)) (acct : option Guard)
    (order : list (string * list string)) : gateway :=
  mkGateway
    (mkServer ((fun r => rt_name (r_router r)) <$> routes) (StreamIdleTimeoutMS (CServer cfg)) acct
       (buildCache cfg) [] [])
    (gateway_keys cfg order)
    (newInflight (MaxInflight (CServer cfg))).

(** [RequiresAuth]. *)
Definition RequiresAuth (g : gateway) : bool := negb (keys_empty (keys g)).

(** ** Facts *)

#[local] Opaque Sum256.

(** What the registered builders promise of an entry that passed validation. *)
Class Registered {R} (reg : registry R) (url_ok : string -> bool) := registered p :
  PKind p ∈ AllKinds -> APIKey p <> ""%string -> BaseURL p <> ""%string -> url_ok (BaseURL p) = true ->
  exists build prov, reg (PKind p) = Some build /\ build p = Some prov /\ provName prov = PName p.

(** A map filled from a list keeps, under a key that occurs once, its value. *)
Lemma foldl_insert_other {A V} (k : A -> string) (v : A -> V) l (m : gmap string V) n :
  n ∉ k <$> l -> foldl (fun m a => <[k a := v a]> m) m l !! n = m !! n.
Proof.
  revert m. induction l as [|a l IH]; intros m N; [done|]. rewrite fmap_cons in N.
  apply not_elem_of_cons in N as [N1 N2]. simpl. rewrite IH by done. by apply lookup_insert_ne.
Qed.

Lemma foldl_insert_lookup {A V} (k : A -> string) (v : A -> V) l (m : gmap string V) a :
  NoDup (k <$> l) -> a ∈ l -> foldl (fun m a => <[k a := v a]> m) m l !! k a = Some (v a).
Proof.
  revert m. induction l as [|b l IH]; intros m N Ha; [by apply not_elem_of_nil in Ha|].
  rewrite fmap_cons in N. apply list.NoDup_cons in N as [N1 N2]. simpl.
  apply elem_of_cons in Ha as [->|Ha]; [|by apply IH].
  rewrite foldl_insert_other by done. apply lookup_insert_eq.
Qed.

(** ... and holds nothing else. *)
Lemma foldl_insert_inv {A V} (k : A -> string) (v : A -> V) l (m : gmap string V) n x :
  foldl (fun m a => <[k a := v a]> m) m l !! n = Some x ->
  m !! n = Some x \/ exists a, a ∈ l /\ k a = n /\ v a = x.
Proof.
  revert m. induction l as [|a l IH]; intros m E; [by left|]. simpl in E.
  destruct (IH _ E) as [E'|(b & Hb & Kb & Vb)].
  - apply lookup_insert_Some in E' as [[Ea <-]|[_ E']]; [|by left].
    right. exists a. split_and!; [left|done|done].
  - right. exists b. split_and!; [by right|done|done].
Qed.

Lemma NoDup_rev_inv (l : list string) : NoDup (rev l) -> NoDup l.
Proof.
  intros H. apply NoDup_ListNoDup. rewrite <- (rev_involutive l). apply NoDup_rev.
  by apply NoDup_ListNoDup.
Qed.

(** The declarations of a configuration that passes. *)
Lemma valid_parts lo ur c :
  Validate lo ur c = [] ->
  NoDup (PName <$> CProviders c) /\
  (forall p, p ∈ CProviders c -> PKind p ∈ AllKinds /\ APIKey p <> ""%string /\
     BaseURL p <> ""%string /\ ur (BaseURL p) = true) /\
  NoDup (RModel <$> CRoutes c) /\
  (forall r, r ∈ CRoutes c -> Chain r <> [] /\ NoDup (Chain r) /\
     (RStrategy r = ""%string \/ RStrategy r ∈ AllStrategies) /\
     forall n, n ∈ Chain r -> exists p, p ∈ CProviders c /\ PName p = n).
Proof.
  intros V. destruct (Validate_nil _ _ _ V) as (decl & models & Hp & _ & _ & _ & _ & _ & Hr).
  destruct (validateProviders_spec _ _ _ _ _ _ _ _ Hp eq_refl) as (P1 & P2 & P3 & _); [constructor|].
  destruct (validateRoutes_spec _ _ _ _ _ Hr) as [R1 R2]; [constructor|].
  rewrite app_nil_r in P1, R1. subst decl. apply NoDup_rev_inv in P2, R1. split_and!; try done.
  - intros p Hin. destruct (P3 p Hin) as (_ & K & A & U & _). split_and!; try done.
    by apply (validateProviders_urls _ _ _ _ _ _ _ Hp p).
  - intros r Hin. destruct (R2 r Hin) as (_ & C & N & St & D). split_and!; try done.
    intros n Hn. destruct (D n Hn) as [D1 _].
    apply list_elem_of_In, in_rev, list_elem_of_In, list_elem_of_fmap in D1 as (p & -> & Hp'). eauto.
Qed.

Lemma name_unique ps p q : NoDup (PName <$> ps) -> p ∈ ps -> q ∈ ps -> PName p = PName q -> p = q.
Proof.
  intros N Hp Hq E. apply list_elem_of_lookup in Hp as [i Hi], Hq as [j Hj].
  assert (i = j) as <-; [|congruence].
  eapply (NoDup_lookup _ i j (PName p) N); rewrite list_lookup_fmap; [by rewrite Hi|].
  rewrite Hj. simpl. by rewrite E.
Qed.

Section BuildFacts.
Context {R : Type} (reg : registry R) (url_ok : string -> bool) `{!Registered reg url_ok}.

(** The provider an entry is built into. *)
Definition built (p : ProviderConfig) (prov : Provider R) : Prop :=
  exists build, reg (PKind p) = Some build /\ build p = Some prov.

Lemma buildAll_ok cfgs out :
  NoDup (PName <$> cfgs) -> (forall p, p ∈ cfgs -> out !! PName p = None) ->
  (forall p, p ∈ cfgs -> PKind p ∈ AllKinds /\ APIKey p <> ""%string /\ BaseURL p <> ""%string /\
     url_ok (BaseURL p) = true) ->
  exists m, buildAll reg cfgs out = inl m /\
    (forall n, n ∉ PName <$> cfgs -> m !! n = out !! n) /\
    forall p, p ∈ cfgs -> exists prov, m !! PName p = Some prov /\ built p prov /\ provName prov = PName p.
Proof.
  revert out. induction cfgs as [|p cfgs IH]; intros out N F V.
  { exists out. split_and!; [done|done|]. by intros p Hp%not_elem_of_nil. }
  rewrite fmap_cons in N. apply list.NoDup_cons in N as [N1 N2].
  destruct (V p) as (K & A & B & U); [left|]. destruct (registered p K A B U) as (build & prov & E1 & E2 & E3).
  destruct (IH (<[PName p := prov]> out)) as (m & Em & Ho & Hm); [done| | |].
  - intros q Hq. rewrite lookup_insert_ne; [apply F; by right|]. intros E. apply N1. rewrite E.
    by apply list_elem_of_fmap_2.
  - intros q Hq. apply V. by right.
  - exists m. simpl. rewrite F, E1, E2 by left. split_and!; [done| |].
    + intros n Hn. apply not_elem_of_cons in Hn as [H1 H2]. rewrite Ho by done. by apply lookup_insert_ne.
    + intros q [->|Hq]%elem_of_cons; [|by apply Hm]. exists prov. rewrite Ho by done.
      split_and!; [apply lookup_insert_eq|by exists build|done].
Qed.

End BuildFacts.

Section RouteFacts.
Context {R : Type}.

Lemma member_name route (p : Provider R) n : provName (member route p n) = provName p.
Proof. unfold member, WithModel. by repeat case_bool_decide. Qed.

(** A chain of declared providers becomes its members, in order. *)
Lemma build_chain_ok route (provs : gmap string (Provider R)) names :
  (forall n, n ∈ names -> exists p, provs !! n = Some p /\ provName p = n) ->
  exists chain, build_chain route provs names = inl chain /\ provName <$> chain = names /\
    Forall2 (fun n m => exists p, provs !! n = Some p /\ m = member route p n) names chain.
Proof.
  induction names as [|n names IH]; intros H; [by exists []|].
  destruct (H n) as (p & Hp & En); [left|]. destruct IH as (chain & E & Ec & F).
  { intros n' Hn'. apply H. by right. }
  exists (member route p n :: chain). cbn [build_chain]. rewrite Hp, E. split_and!; [done| |].
  - rewrite fmap_cons, member_name, En. by f_equal.
  - constructor; [eauto|done].
Qed.

Lemma addProviders_ok chain names :
  NoDup (names ++ chain) -> addProviders chain names = inr (names ++ chain).
Proof.
  revert names. induction chain as [|p chain IH]; intros names N; simpl; [by rewrite app_nil_r|].
  rewrite bool_decide_false.
  - rewrite IH; rewrite <- app_assoc; done.
  - intros Hin. apply list.NoDup_app in N as (_ & N & _). apply (N p Hin). left.
Qed.

Definition selector_for (route : RouteConfig) : Selector :=
  default prioritySelector (NewSelector (strategy_of (strategyOrDefault (RStrategy route)))).

Lemma strategy_ok route :
  RStrategy route = ""%string \/ RStrategy route ∈ AllStrategies ->
  NewSelector (strategy_of (strategyOrDefault (RStrategy route))) = Some (selector_for route).
Proof.
  unfold selector_for. intros [->|H]; [done|].
  repeat (apply elem_of_cons in H as [->|H]; [done|]). by apply not_elem_of_nil in H.
Qed.

(** What a route is wired to. *)
Definition wired (o : Options) (provs : gmap string (Provider R)) (route : RouteConfig) (r : routed R) : Prop :=
  r_router r = mkRouter (RModel route) (Chain route) (withDefaults o) /\
  r_selector r = selector_for route /\ provName <$> r_members r = Chain route /\
  Forall2 (fun n m => exists p, provs !! n = Some p /\ m = member route p n) (Chain route) (r_members r).

Lemma build_route_ok o h (provs : gmap string (Provider R)) route :
  Chain route <> [] -> NoDup (Chain route) ->
  (RStrategy route = ""%string \/ RStrategy route ∈ AllStrategies) ->
  (forall n, n ∈ Chain route -> exists p, provs !! n = Some p /\ provName p = n) ->
  exists r, build_route o h provs route = inl r /\ wired o provs route r.
Proof.
  intros C N St H. destruct (build_chain_ok route provs (Chain route) H) as (chain & E & Ec & F).
  exists (mkRouted (mkRouter (RModel route) (Chain route) (withDefaults o)) (selector_for route) chain).
  unfold build_route. rewrite E, (strategy_ok route St), Ec. unfold New.
  rewrite addProviders_ok by done. simpl. split; [|done].
  by destruct (Chain route).
Qed.

Lemma build_routes_ok o h (provs : gmap string (Provider R)) rs out :
  NoDup (RModel <$> rs) ->
  (forall r, r ∈ rs -> Chain r <> [] /\ NoDup (Chain r) /\
     (RStrategy r = ""%string \/ RStrategy r ∈ AllStrategies) /\
     forall n, n ∈ Chain r -> exists p, provs !! n = Some p /\ provName p = n) ->
  exists m, build_routes o h provs rs out = inl m /\ dom m = dom out ∪ list_to_set (RModel <$> rs) /\
    (forall n, n ∉ RModel <$> rs -> m !! n = out !! n) /\
    forall route, route ∈ rs -> exists r, m !! RModel route = Some r /\ wired o provs route r.
Proof.
  revert out. induction rs as [|route rs IH]; intros out N H.
  { exists out. split_and!; [done|set_solver|done|]. by intros r Hr%not_elem_of_nil. }
  rewrite fmap_cons in N. apply list.NoDup_cons in N as [N1 N2].
  destruct (H route) as (C & NC & St & D); [left|].
  destruct (build_route_ok o h provs route C NC St D) as (r & E & W).
  destruct (IH (<[RModel route := r]> out)) as (m & Em & Dm & Ho & Hm);
    [done|intros r' Hr'; apply H; by right|].
  exists m. simpl. rewrite E. split_and!; [done| | |].
  - rewrite Dm, dom_insert_L. set_solver.
  - intros n [H1 H2]%not_elem_of_cons. rewrite Ho by done. by apply lookup_insert_ne.
  - intros q [->|Hq]%elem_of_cons; [|by apply Hm]. exists r. rewrite Ho by done.
    split; [apply lookup_insert_eq|done].
Qed.
End RouteFacts.

(** ** Properties *)

Lemma boots {R} (reg : registry R) lo ur c :
  Registered reg ur -> Validate lo ur c = [] ->
  exists provs routes,
    BuildAll reg (CProviders c) = inl provs /\ buildRoutes c provs = inl routes /\
    (forall p, p ∈ CProviders c -> exists prov, provs !! PName p = Some prov /\ built reg p prov) /\
    dom routes = list_to_set (RModel <$> CRoutes c) /\
    forall route, route ∈ CRoutes c -> exists r, routes !! RModel route = Some r /\
      wired (routerOptions c) provs route r.
Proof.
  intros G V. destruct (valid_parts _ _ _ V) as (NP & HP & NR & HR).
  destruct (buildAll_ok reg ur (CProviders c) ∅ NP) as (provs & E & _ & HB); [done|done|].
  destruct (build_routes_ok (routerOptions c) (NewHealth (routerOptions c)) provs (CRoutes c) ∅ NR)
    as (routes & Er & D & _ & W).
  { intros r Hr. destruct (HR r Hr) as (C & N & St & H). split_and!; try done.
    intros n Hn. destruct (H n Hn) as (p & Hp & <-). destruct (HB p Hp) as (prov & H1 & _ & H2). eauto. }
  exists provs, routes. split_and!; [done|done| |rewrite D; set_solver|done].
  intros p Hp. destruct (HB p Hp) as (prov & H1 & H2 & _). eauto.
Qed.

(** (C20) A configuration that passes validation boots, and what it wires is what
    it says: every provider is built, there is a route for exactly the models
    the file names, and each is a router over the providers of its chain, in
    order, with the strategy and limits of the file, whose members are asked for
    the model name each of them knows. *)
Theorem valid_config_boots {R} (reg : registry R) lo ur c :
  Registered reg ur -> Validate lo ur c = [] ->
  exists provs routes,
    BuildAll reg (CProviders c) = inl provs /\ buildRoutes c provs = inl routes /\
    (forall p, p ∈ CProviders c -> exists prov, provs !! PName p = Some prov /\ built reg p prov) /\
    dom routes = list_to_set (RModel <$> CRoutes c) /\
    forall route, route ∈ CRoutes c -> exists r, routes !! RModel route = Some r /\
      wired (routerOptions c) provs route r.
Proof. intros G V. by apply (boots reg lo ur). Qed.

(** *** Keys *)

(** The keys of the server, as one list with owners. *)
Definition key_list (c : Config) (order : list (string * list string)) : list (string * string) :=
  ((fun key => (key, AnonymousTenant)) <$> ClientKeys (CAuth c))
  ++ (order ≫= fun p => (fun key => (key, p.1)) <$> p.2).

Lemma fold_add_key (ks : list string) t l :
  fold_left (fun k key => add_key k key t) ks (configured l)
  = configured (l ++ ((fun key => (key, t)) <$> ks)).
Proof.
  revert l. induction ks as [|key ks IH]; intros l; simpl; [by rewrite app_nil_r|].
  assert (add_key (configured l) key t = configured (l ++ [(key, t)])) as ->
    by (unfold configured; by rewrite fold_left_app).
  rewrite IH. by rewrite <- app_assoc.
Qed.

Lemma gateway_keys_configured c order : gateway_keys c order = configured (key_list c order).
Proof.
  unfold gateway_keys, newKeySet, key_list.
  change emptyKeys with (configured []). rewrite fold_add_key. simpl.
  generalize ((fun key => (key, AnonymousTenant)) <$> ClientKeys (CAuth c)) as l.
  unfold WithTenantKeys. induction order as [|p order IH]; intros l; simpl; [by rewrite app_nil_r|].
  rewrite fold_add_key, IH. by rewrite app_assoc.
Qed.

Lemma tenantKeys_lookup c t :
  NoDup (TName <$> Tenants (CAuth c)) -> t ∈ Tenants (CAuth c) ->
  tenantKeys c !! TName t = Some (TKeys t).
Proof. apply (foldl_insert_lookup TName TKeys). Qed.

Lemma key_list_spec c order key owner :
  ClientKeys (CAuth c) = [] -> NoDup (TName <$> Tenants (CAuth c)) ->
  order ≡ₚ map_to_list (tenantKeys c) ->
  (key, owner) ∈ key_list c order <->
  exists t, t ∈ Tenants (CAuth c) /\ TName t = owner /\ key ∈ TKeys t.
Proof.
  intros C N P. unfold key_list. rewrite C. simpl. rewrite list_elem_of_bind. split.
  - intros ([n ks] & Hin & Hn). rewrite P in Hn. apply elem_of_map_to_list in Hn.
    apply list_elem_of_fmap in Hin as (k & [= <- <-] & Hk). simpl in Hk.
    apply (foldl_insert_inv TName TKeys) in Hn as [?|(t & Ht & <- & <-)]; [done|]. eauto.
  - intros (t & Ht & <- & Hk). exists (TName t, TKeys t). split.
    + by apply (list_elem_of_fmap_2 (fun key => (key, TName t))).
    + rewrite P. by apply elem_of_map_to_list, tenantKeys_lookup.
Qed.

Lemma tenant_for_key_none ts key : tenant_for_key ts key = None <-> forall t, t ∈ ts -> key ∉ TKeys t.
Proof.
  induction ts as [|t ts IH]; simpl; [split; [intros _ u Hu; by apply not_elem_of_nil in Hu|done]|].
  case_bool_decide as B.
  - split; [done|]. intros H. destruct (H t); [left|done].
  - rewrite IH. split; intros H u.
    + intros [->|Hu]%elem_of_cons; [done|by apply H].
    + intros Hu. apply H. by right.
Qed.

Lemma tenant_for_key_some ts key n l :
  tenant_for_key ts key = Some (n, l) -> exists t, t ∈ ts /\ key ∈ TKeys t /\ n = TName t.
Proof.
  induction ts as [|t ts IH]; simpl; [done|]. case_bool_decide as B.
  - intros [= <- <-]. exists t. split; [left|done].
  - intros E. destruct (IH E) as (u & Hu & Hk & En). exists u. split; [by right|done].
Qed.

Lemma valid_tenants lo ur c :
  Validate lo ur c = [] -> Tenants (CAuth c) <> [] ->
  ClientKeys (CAuth c) = [] /\ NoDup (TName <$> Tenants (CAuth c)).
Proof.
  intros V Ne. destruct (Validate_nil _ _ _ V) as (decl & models & _ & _ & _ & Ha & _).
  unfold validateAuth in Ha. no_errs. split.
  - destruct (ClientKeys (CAuth c)); [done|]. by destruct (Tenants (CAuth c)).
  - match goal with H : tenant_errs _ _ _ _ _ = [] |- _ => apply tenant_errs_spec in H as [N _] end;
      [|constructor]. rewrite app_nil_r in N. by apply NoDup_rev_inv.
Qed.

(** (C21) The digests the gateway holds decide as the file does: for a valid
    configuration with tenants, in whatever order Go walks the tenant map, a
    presented key opens the gateway exactly when the file gives it to a tenant,
    and under that tenant's name, unless it collides with another configured key
    under SHA-256. *)
Theorem keys_follow_the_file lo ur c order presented :
  Validate lo ur c = [] -> Tenants (CAuth c) <> [] -> order ≡ₚ map_to_list (tenantKeys c) ->
  (forall t key, t ∈ Tenants (CAuth c) -> key ∈ TKeys t -> Sum256 key = Sum256 presented ->
     key = presented) ->
  key_lookup (gateway_keys c order) presented =
    match TenantForKey c presented with
    | Some (t, _) => (t, true)
    | None => (AnonymousTenant, false)
    end.
Proof.
  intros V Ne P Coll. destruct (valid_tenants _ _ _ V Ne) as [C N].
  rewrite gateway_keys_configured.
  destruct (TenantForKey c presented) as [[n l]|] eqn:E.
  - assert (exists t, t ∈ Tenants (CAuth c) /\ presented ∈ TKeys t /\ n = TName t) as (t & Ht & Hk & ->).
    { unfold TenantForKey in E. case_bool_decide; [done|]. by eapply tenant_for_key_some. }
    apply key_lookup_owned.
    + apply key_list_spec; eauto.
    + unfold TenantForKey in E. by case_bool_decide.
    + intros [key owner] Hp _ D. apply key_list_spec in Hp as (u & Hu & <- & Hku); [|done..].
      cbn in D |- *. rewrite (Coll u key Hu Hku D) in Hku.
      destruct (valid_keys_identify _ _ _ u presented V Hu Hku) as [E' _]. congruence.
  - apply key_lookup_unknown. intros [key owner] Hp Hne D.
    apply key_list_spec in Hp as (u & Hu & <- & Hku); [|done..]. cbn in D, Hne.
    rewrite (Coll u key Hu Hku D) in Hku.
    destruct (valid_keys_identify _ _ _ u presented V Hu Hku) as [E' _]. congruence.
Qed.

(** *** Prices and limits *)

Lemma providerKinds_of c p :
  NoDup (PName <$> CProviders c) -> p ∈ CProviders c -> providerKinds c (PName p) = kind_text (PKind p).
Proof.
  intros N Hp. unfold providerKinds, kinds_by_name.
  by rewrite (foldl_insert_lookup PName (fun p => kind_text (PKind p))).
Qed.

Lemma kind_text_nonempty k : k ∈ AllKinds -> kind_text k <> ""%string.
Proof.
  intros H. repeat (apply elem_of_cons in H as [->|H]; [done|]). by apply not_elem_of_nil in H.
Qed.

Lemma price_index_other c rs m n :
  n ∉ RModel <$> rs -> foldl (price_route c) m rs !! n = m !! n.
Proof.
  revert m. induction rs as [|r rs IH]; intros m N; [done|]. rewrite fmap_cons in N.
  apply not_elem_of_cons in N as [N1 N2]. simpl. rewrite IH by done. unfold price_route.
  destruct (Chain r); [done|]. by apply lookup_insert_ne.
Qed.

(** A route is priced as its first choice. *)
Lemma routePricing_of c route first rest :
  NoDup (RModel <$> CRoutes c) -> route ∈ CRoutes c -> Chain route = first :: rest ->
  routePricing c (RModel route) = (providerKinds c first, UpstreamModel route first).
Proof.
  intros N Hr C. unfold routePricing, price_index.
  revert N Hr. generalize (CRoutes c) as rs. generalize (∅ : gmap string (string * string)) as m.
  intros m rs. revert m. induction rs as [|r rs IH]; intros m N Hr; [by apply not_elem_of_nil in Hr|].
  rewrite fmap_cons in N. apply list.NoDup_cons in N as [N1 N2]. simpl.
  apply elem_of_cons in Hr as [<-|Hr]; [|by apply IH].
  rewrite price_index_other by done. unfold price_route. by rewrite C, lookup_insert_eq.
Qed.

(** The parts of a guard that was built. *)
Lemma buildAccounting_parts c prices lo clk opened g :
  buildAccounting c prices lo clk opened = Some (Some g) ->
  tenantLimits c <> ∅ /\
  exists t e, prices = Some t /\ openEnforcer c (tenantLimits c) clk opened = Some e /\
    g_enforcer g = Some e /\ g_prices g = Some t /\ g_kindOf g = Some (providerKinds c) /\
    g_estimator g = Some (Estimate_ (NewEstimator (Some t) (Some (routePricing c)) (mkEstimatorOptions 0 0))).
Proof.
  unfold buildAccounting. case_bool_decide as B; [done|].
  destruct prices as [t|]; [|done]. destruct (openLedger _ _) as [l|]; [|done].
  destruct (openEnforcer _ _ _ _) as [e|] eqn:E; [|done]. intros [= <-]. split; [done|].
  exists t, e. by split_and!.
Qed.

Lemma openEnforcer_limits c l clk opened e : openEnforcer c l clk opened = Some e -> limits e = l.
Proof.
  unfold openEnforcer. case_bool_decide; [by intros [= <-]|]. destruct opened as [loaded|]; [|done].
  unfold NewDurableEnforcer. simpl. destruct loaded as [rows|]; [|done]. intros [= <-].
  by destruct (restoreRows_frame
    (mkEnforcer (limits (NewEnforcer l)) (tenants (NewEnforcer l)) (healthy (NewEnforcer l))
       (nextID (NewEnforcer l)) (done_ (NewEnforcer l)) true (seq_ (NewEnforcer l))
       (written (NewEnforcer l))) clk rows) as (E & _).
Qed.

Lemma UpstreamModel_named lo ur c route n :
  Validate lo ur c = [] -> route ∈ CRoutes c -> UpstreamModel route n <> ""%string.
Proof.
  intros V Hr. destruct (Validate_nil _ _ _ V) as (decl & models & _ & _ & _ & _ & _ & _ & Hrt).
  destruct (validateRoutes_spec _ _ _ _ _ Hrt) as [_ R2]; [constructor|].
  destruct (R2 route Hr) as (M & _). unfold UpstreamModel.
  destruct (ProviderModels route !! n); [by case_bool_decide|done].
Qed.

(** A file with tenants closes the gateway. *)
Lemma tenants_close_the_gateway lo ur c order :
  Validate lo ur c = [] -> Tenants (CAuth c) <> [] -> order ≡ₚ map_to_list (tenantKeys c) ->
  keys_empty (gateway_keys c order) = false.
Proof.
  intros V NT P. destruct (valid_tenants _ _ _ V NT) as [C N].
  destruct (Validate_nil _ _ _ V) as (decl & models & _ & _ & _ & Ha & _).
  unfold validateAuth in Ha. apply app_eq_nil in Ha as [_ Ha]. apply app_eq_nil in Ha as [_ Ha].
  apply app_eq_nil in Ha as [Ha _]. apply tenant_errs_spec in Ha as (_ & T & _); [|constructor].
  destruct (Tenants (CAuth c)) as [|t ts] eqn:ET; [done|].
  destruct (T t) as (_ & K & L & _); [left|]. destruct (TKeys t) as [|key ks] eqn:EK; [done|].
  destruct (L key) as (_ & _ & Hl); [left|].
  rewrite gateway_keys_configured. apply (configured_nonempty _ (key, TName t)).
  - apply key_list_spec; [done|by rewrite ET|done|]. exists t. rewrite ET, EK. split_and!; [left|done|left].
  - cbn. intros ->. unfold str_Z, MinClientKeyLength in Hl. simpl in Hl. lia.
Qed.

(** A reservation holds what its route would be billed: for a valid
    configuration, the dollars an estimate reserves for a routed model are the
    dollars the guard charges when the first provider of the chain answers with
    exactly the tokens estimated. *)
Theorem estimate_is_the_first_choices_bill lo ur c prices lop clk opened g estimate route first rest raw :
  Validate lo ur c = [] -> buildAccounting c prices lop clk opened = Some (Some g) ->
  g_estimator g = Some estimate -> route ∈ CRoutes c -> Chain route = first :: rest ->
  let est := estimate (RModel route) raw in
  EstUSD est = guard_Price (Some g) first (UpstreamModel route first)
                 (mkUsage (EstPrompt est) (EstCompletion est) 0).
Proof.
  intros V B G Hr C. destruct (valid_parts _ _ _ V) as (NP & HP & NR & HR).
  destruct (HR route Hr) as (_ & _ & _ & D).
  destruct (D first) as (p & Hp & <-); [rewrite C; left|]. destruct (HP p Hp) as (K & _).
  destruct (buildAccounting_parts _ _ _ _ _ _ B) as (_ & t & e & -> & _ & _ & GP & GK & GE).
  rewrite GE in G. injection G as <-. cbv zeta. unfold guard_Price, Estimate_. rewrite GP, GK.
  match goal with |- context [let '(_, _) := ?x in _] => destruct x as [pt ct] end. cbn.
  unfold usd. cbn. rewrite (routePricing_of c route _ _ NR Hr C), (providerKinds_of c p NP Hp).
  rewrite (bool_decide_false (kind_text _ = _)) by by apply kind_text_nonempty.
  rewrite bool_decide_false; [done|]. by eapply UpstreamModel_named.
Qed.

(** Nobody who gets in escapes the limits: for a valid configuration with
    tenants, whoever is admitted to anything but the health check is a tenant of
    the file, and the enforcer the requests are charged to has that tenant's
    limits, also when it was restored from a store. *)
Theorem callers_are_limited lo ur c prices lop clk opened g e order path header w t :
  Validate lo ur c = [] -> buildAccounting c prices lop clk opened = Some (Some g) ->
  g_enforcer g = Some e -> order ≡ₚ map_to_list (tenantKeys c) -> path <> healthPath ->
  withAuth (gateway_keys c order) path header w = Admit t ->
  exists tc, tc ∈ Tenants (CAuth c) /\ TName tc = t /\ limits e !! t = Some (limits_of (TLimits tc)).
Proof.
  intros V B G P Hp A.
  destruct (buildAccounting_parts _ _ _ _ _ _ B) as (Ne & tb & e' & -> & O & GE & _).
  rewrite GE in G. injection G as <-. apply openEnforcer_limits in O.
  assert (Tenants (CAuth c) <> []) as NT
    by (intros E; apply Ne; unfold tenantLimits; by rewrite E).
  destruct (valid_tenants _ _ _ V NT) as [C N].
  pose proof (tenants_close_the_gateway _ _ _ _ V NT P) as K.
  unfold withAuth in A. rewrite K, bool_decide_false in A by done. simpl in A.
  destruct (bearerToken header) as [key|]; [|done].
  destruct (key_lookup (gateway_keys c order) key) as [t' []] eqn:L; [|done]. injection A as ->.
  rewrite gateway_keys_configured in L. apply key_lookup_owner in L as (k & Hk).
  apply key_list_spec in Hk as (tc & Htc & <- & _); [|done..]. exists tc. split_and!; [done|done|].
  rewrite O. by apply (foldl_insert_lookup TName (fun t => limits_of (TLimits t))).
Qed.

(** A gateway built from a valid configuration that asks nobody for a key
    listens on loopback only. *)
Theorem open_gateway_is_local {R} lo ur c (routes : gmap string (routed R)) acct order :
  Validate lo ur c = [] -> order ≡ₚ map_to_list (tenantKeys c) ->
  RequiresAuth (buildGateway c routes acct order) = false ->
  isLoopbackListen lo (Listen (CServer c)) = true.
Proof.
  intros V P A. destruct (Validate_nil _ _ _ V) as (decl & models & _ & _ & _ & Ha & _).
  unfold validateAuth in Ha. apply app_eq_nil in Ha as [Ho Ha]. apply report_nil in Ho.
  apply andb_false_iff in Ho as [Ho|Ho]; [|by apply negb_false_iff in Ho].
  apply negb_false_iff in Ho. exfalso. unfold RequiresAuth in A. apply negb_false_iff in A. cbn in A.
  rewrite gateway_keys_configured in A.
  cut (keys_empty (configured (key_list c order)) = false); [congruence|].
  destruct (decide (Tenants (CAuth c) = [])) as [ET|NT].
  - unfold hasKeys in Ho. rewrite ET in Ho. simpl in Ho. rewrite orb_false_r in Ho.
    destruct (ClientKeys (CAuth c)) as [|k ks] eqn:EC; [done|].
    apply (configured_nonempty _ (k, AnonymousTenant)).
    + unfold key_list. rewrite EC. left.
    + apply app_eq_nil in Ha as [Ha _]. simpl in Ha. no_errs. cbn. intros ->.
      unfold str_Z, MinClientKeyLength in *. simpl in *. lia.
  - rewrite <- gateway_keys_configured. by eapply tenants_close_the_gateway.
Qed.

(** *** Instances *)

Module WiringExample.
Import ConfigExample.

(** Builders that make a provider under the configured name; its calls fail. *)
Definition down (n : string) : goerror := ErrProvider n ErrClassUpstream 503 "down" None.
Definition stub (cfg : ProviderConfig) : Provider unit :=
  mkProviderImpl (PName cfg) (fun _ => Some (inr (down (PName cfg))))
    (fun _ => Some (inl (tt, mkStreamInfo "" ""))).
Definition stubs : registry unit := fun k => if bool_decide (k ∈ AllKinds) then Some (fun c => Some (stub c)) else None.

Lemma stubs_registered : Registered stubs any_url.
Proof.
  intros p K _ _ _. exists (fun c => Some (stub c)), (stub p). unfold stubs.
  by rewrite bool_decide_true.
Defined.

Lemma valid_config_boots_witness :
  exists provs routes,
    BuildAll stubs (CProviders loaded) = inl provs /\ buildRoutes loaded provs = inl routes /\
    (forall p, p ∈ CProviders loaded -> exists prov, provs !! PName p = Some prov /\ built stubs p prov) /\
    dom routes = list_to_set (RModel <$> CRoutes loaded) /\
    forall route, route ∈ CRoutes loaded -> exists r, routes !! RModel route = Some r /\
      wired (routerOptions loaded) provs route r.
Proof. apply (valid_config_boots stubs loopback any_url loaded stubs_registered). vm_compute. reflexivity. Defined.

Definition order : list (string * list string) := [("acme", ["acme-key-0123456789"])]%string.
Lemma order_ok : order ≡ₚ map_to_list (tenantKeys loaded).
Proof. vm_compute. reflexivity. Qed.

Lemma keys_follow_the_file_witness :
  key_lookup (gateway_keys loaded order) "acme-key-0123456789" =
    match TenantForKey loaded "acme-key-0123456789" with
    | Some (t, _) => (t, true)
    | None => (AnonymousTenant, false)
    end.
Proof.
  apply (keys_follow_the_file loopback any_url loaded order).
  - vm_compute. reflexivity.
  - done.
  - exact order_ok.
  - intros t key Ht Hk _. apply list_elem_of_singleton in Ht as ->. by apply list_elem_of_singleton in Hk.
Defined.

Definition guard : Guard :=
  mkGuard (Some (Estimate_ (NewEstimator (Some PricingExample.table) (Some (routePricing loaded))
                              (mkEstimatorOptions 0 0))))
    (Some (NewEnforcer (tenantLimits loaded))) (Some PricingExample.table) (Some (providerKinds loaded))
    (Some NopLedger).

Lemma estimate_is_the_first_choices_bill_witness :
  let est := Estimate_ (NewEstimator (Some PricingExample.table) (Some (routePricing loaded))
                          (mkEstimatorOptions 0 0)) "fast" EstimatorExample.ask in
  EstUSD est = guard_Price (Some guard) "groq" (UpstreamModel route "groq")
                 (mkUsage (EstPrompt est) (EstCompletion est) 0).
Proof.
  apply (estimate_is_the_first_choices_bill loopback any_url loaded (Some PricingExample.table) true 0 None
           guard _ route "groq" ["oai"]%string).
  - vm_compute. reflexivity.
  - reflexivity.
  - reflexivity.
  - left.
  - reflexivity.
Defined.

Lemma callers_are_limited_witness :
  exists tc, tc ∈ Tenants (CAuth loaded) /\ TName tc = "acme"%string /\
    Budget.limits (NewEnforcer (tenantLimits loaded)) !! "acme"%string = Some (limits_of (TLimits tc)).
Proof.
  apply (callers_are_limited loopback any_url loaded (Some PricingExample.table) true 0 None guard
           (NewEnforcer (tenantLimits loaded)) order "/v1/models" "Bearer acme-key-0123456789" no_response).
  - vm_compute. reflexivity.
  - reflexivity.
  - reflexivity.
  - exact order_ok.
  - done.
  - vm_compute. reflexivity.
Defined.

(** A file without keys, on a loopback listener. *)
Definition open_file : Config :=
  mkConfig (CServer loaded) (mkAuthConfig [] []) (CAccounting loaded) (CCache loaded) (CProviders loaded)
    (CRoutes loaded) (CRouter loaded) (CTelemetry loaded).

Lemma open_gateway_is_local_witness : isLoopbackListen loopback (Listen (CServer open_file)) = true.
Proof.
  apply (open_gateway_is_local (R := unit) loopback any_url open_file ∅ None []); vm_compute; reflexivity.
Defined.

(** A key with a space at its end passes validation, and nobody can present it:
    the bearer token is trimmed before it is looked up. *)
Definition padded : TenantConfig := mkTenantConfig "acme" ["acme-key-0123456789 "]%string (limits (f64_of_Z 5)).
Definition padded_file : Config :=
  mkConfig (CServer loaded) (mkAuthConfig [] [padded]) (CAccounting loaded) (CCache loaded)
    (CProviders loaded) (CRoutes loaded) (CRouter loaded) (CTelemetry loaded).

Theorem padded_key_never_opens :
  Validate loopback any_url padded_file = [] /\
  withAuth (gateway_keys padded_file (map_to_list (tenantKeys padded_file))) "/v1/models"
    "Bearer acme-key-0123456789 " no_response = Reject (rejectUnauthorized no_response).
Proof. split; vm_compute; reflexivity. Qed.

(** A stream of a renamed member knows the model it was asked for; routed, it
    does not, and the bill is under the route's name. *)
Definition renamed : Provider unit := member route (stub (mkProviderConfig "oai" KindOpenAI "u" "k" [] None)) "oai".
Definition ask : ChatRequest := mkRequest "fast" true (quoted "{'model':'fast'}").

Theorem renamed_stream_is_billed_as_its_route :
  option_map (fun r => match r with inl (_, i) => Some (AnsweringModel i) | inr _ => None end)
    (provStream renamed ask) = Some (Some "gpt-4o-mini"%string) /\
  option_map (fun r => match r with inl (_, i) => Some (billedModel "fast" (AnsweringModel i)) | inr _ => None end)
    (routed_open renamed ask) = Some (Some "fast"%string).
Proof. split; vm_compute; reflexivity. Qed.
End WiringExample.
