(* ===== verification/Admin.v ===== *)
(** * The operator API (internal/admin)

    Read-only balances over the enforcer the request path writes.  A view reads
    it twice, under its lock each time; reading turns expired windows over, as a
    request would.  What the mux makes of a request is given: the pattern its
    path matches, and the name in it.  The theorems relate what an operator is
    shown to what the enforcer will do. *)

From Stdlib Require Import ZArith Lia String Ascii SpecFloat.
From stdpp Require Import base gmap strings list numbers sorting.
From S2P Require Import Prelude Float64 Rounding GoString Json JsonText Providers Money Sse Budget Wire.

Local Open Scope Z_scope.

(** ** Views (view.go) *)

Section Views.
Context {M : Type} `{USD M}.

Record tenantView := mkView {
  VName : TenantID; VLimits : Limits M;
  DailySpentUSD : M; MonthlySpentUSD : M; CommittedUSD : M;
  DailyRemainingUSD : option M; MonthlyRemainingUSD : option M
}.

Definition remaining (limit spent committed : M) : option M :=
  if usd_leb limit usd_zero then None else Some (usd_sub (usd_sub limit spent) committed).

(** [Accounting]: the enforcer, or [zeroAccounting] when there is none. *)
Record admin := mkAdmin {
  acct : option (MemEnforcer M); alimits : gmap string (Limits M); names : list TenantID
}.

Definition with_acct (e : MemEnforcer M) (s : admin) : admin := mkAdmin (Some e) (alimits s) (names s).

Definition acct_Spent (s : admin) (clk : Time) (t : TenantID) : (M * M) * admin :=
  match acct s with
  | None => ((usd_zero, usd_zero), s)
  | Some e => let '(x, e) := Spent e clk t in (x, with_acct e s)
  end.
Definition acct_Committed (s : admin) (clk : Time) (t : TenantID) : M * admin :=
  match acct s with
  | None => (usd_zero, s)
  | Some e => let '(x, e) := Committed e clk t in (x, with_acct e s)
  end.

Definition zeroLimits : Limits M := mkLimits 0 0 usd_zero usd_zero false.

(** [clk] are the instants of the two reads. *)
Definition view (s : admin) (clk : Time * Time) (name : TenantID) : tenantView * admin :=
  let limits := default zeroLimits (alimits s !! name) in
  let '((daily, monthly), s) := acct_Spent s clk.1 name in
  let '(committed, s) := acct_Committed s clk.2 name in
  (mkView name limits daily monthly committed
     (remaining (DailyUSD limits) daily committed)
     (remaining (MonthlyUSD limits) monthly committed), s).

Fixpoint view_all (s : admin) (clk : nat -> Time * Time) (ns : list TenantID)
    : list tenantView * admin :=
  match ns with
  | [] => ([], s)
  | n :: ns =>
      let '(v, s) := view s (clk 0%nat) n in
      let '(vs, s) := view_all s (fun i => clk (S i)) ns in
      (v :: vs, s)
  end.

(** [New]: the limits copied, the names sorted. *)
Definition New (acct : option (MemEnforcer M)) (limits : gmap string (Limits M)) : admin :=
  mkAdmin acct limits (Sorted_strings (map_to_list limits).*1).
End Views.

Arguments tenantView : clear implicits.
Arguments admin : clear implicits.

(** ** The handlers (admin.go, errors.go), at float64 *)

Definition money (x : f64) : option string := f64_text x.
Definition money_or_null (x : option f64) : option string :=
  match x with None => Some "null"%string | Some x => f64_text x end.

(** [json.Marshal] of a view: a value with no text makes it fail. *)
Definition view_text (v : tenantView f64) : option string :=
  match money (DailyUSD (VLimits v)), money (MonthlyUSD (VLimits v)), money (DailySpentUSD v),
        money (MonthlySpentUSD v), money (CommittedUSD v), money_or_null (DailyRemainingUSD v),
        money_or_null (MonthlyRemainingUSD v) with
  | Some ld, Some lm, Some d, Some m, Some c, Some rd, Some rm =>
      Some (struct_text
        [("name", quote (VName v));
         ("limits", struct_text
            [("requests_per_minute", Itoa (RequestsPerMinute (VLimits v)));
             ("tokens_per_minute", Itoa (TokensPerMinute (VLimits v)));
             ("daily_usd", ld); ("monthly_usd", lm);
             ("fail_closed", if FailClosed (VLimits v) then "true" else "false")]);
         ("daily_spent_usd", d); ("monthly_spent_usd", m); ("committed_usd", c);
         ("daily_remaining_usd", rd); ("monthly_remaining_usd", rm)])%string
  | _, _, _, _, _, _, _ => None
  end.

Definition list_text (vs : list (tenantView f64)) : option string :=
  texts ← mapM view_text vs; Some (struct_text [("tenants", array_text texts)])%string.

(** [httperr.WriteJSON]: the encoder writes the text and a newline, or nothing. *)
Definition writeJSON (status : Z) (text : option string) (w : response) : response :=
  let w := WriteHeader status (set_header "Content-Type" ContentTypeJSON w) in
  match text with Some t => Write (WJSON (t +:+ String LF "")) w | None => w end.

Inductive target := Tenants | OneTenant (name : string) | Healthz | Elsewhere.

Definition admin_error (status : Z) (msg code : string) : response -> response :=
  WriteError status (Authored msg) TypeInvalidRequest code.

Definition handleTenantList (s : admin f64) (clk : nat -> Time * Time) (w : response) : response * admin f64 :=
  let '(vs, s) := view_all s clk (names s) in (writeJSON 200 (list_text vs) w, s).

Definition handleTenant (s : admin f64) (clk : nat -> Time * Time) (name : string) (w : response)
    : response * admin f64 :=
  match alimits s !! name with
  | None => (admin_error 404 "tenant is not configured" "tenant_not_found" w, s)
  | Some _ => let '(v, s) := view s (clk 0%nat) name in (writeJSON 200 (view_text v) w, s)
  end.

Definition handleMethodNotAllowed (w : response) : response :=
  admin_error 405 "this endpoint is read only" "method_not_allowed" (set_header "Allow" "GET" w).

(** The mux of [New]. *)
Definition admin_serve (s : admin f64) (clk : nat -> Time * Time) (get : bool) (at_ : target) (w : response)
    : response * admin f64 :=
  match at_ with
  | Elsewhere => (admin_error 404 "unknown admin endpoint" "not_found" w, s)
  | _ =>
      if negb get then (handleMethodNotAllowed w, s)
      else match at_ with
      | Tenants => handleTenantList s clk w
      | OneTenant name => handleTenant s clk name w
      | _ => (writeJSON 200 (Some (struct_text [("status", quote "ok")])%string) w, s)
      end
  end.

(** ** Reading and reserving *)

Section Reading.
Context {M : Type} `{USD M}.

(** The counters a reservation is decided on. *)
Definition same_counters (a b : tenantState M) : Prop :=
  dailySpent a = dailySpent b /\ monthlySpent a = monthlySpent b /\ committed a = committed b /\
  requests a = requests b /\ tokens a = tokens b.

Definition same_decision (a b : Denial + Reservation M) : Prop :=
  match a, b with
  | inl d, inl d' => Reason d = Reason d'
  | inr r, inr r' => r = r'
  | _, _ => False
  end.

(** An expired window stays expired, and one that was read is empty either way. *)
Lemma window_once {A} (now c start : Time) (d : Duration) (zero x : A) :
  min_int64 < d <= max_int64 -> c <= now ->
  (if windowOver now (if windowOver c start d then c else start) d then zero
   else if windowOver c start d then zero else x)
  = if windowOver now start d then zero else x.
Proof.
  intros D L. unfold windowOver. rewrite !time_Sub_leb by done.
  destruct (d <=? c - start) eqn:E; bool_to_prop.
  - replace (d <=? now - start) with true by (symmetry; apply Z.leb_le; lia).
    by destruct (_ <=? _).
  - done.
Qed.

Lemma windows_ok : min_int64 < dailyWindow <= max_int64 /\ min_int64 < monthlyWindow <= max_int64 /\
  min_int64 < rateWindow <= max_int64.
Proof. by vm_compute. Qed.

Lemma rollover_read (st : tenantState M) c now :
  c <= now -> same_counters (rollover (rollover st c) now) (rollover st now).
Proof. intros L. destruct windows_ok as (D & Mo & R). split_and!; cbn; try by apply window_once. done. Qed.

Definition agree (now : Time) (e e' : MemEnforcer M) : Prop :=
  limits e' = limits e /\ healthy e' = healthy e /\ nextID e' = nextID e /\
  forall t, same_counters (stateFor e' t now).1 (stateFor e t now).1.

Lemma agree_refl now e : agree now e e.
Proof. done. Qed.

Lemma agree_read now e e' t c : c <= now -> agree now e e' -> agree now e (stateFor e' t c).2.
Proof.
  intros L (A1 & A2 & A3 & A4). destruct (stateFor_frame e' t c) as (F1 & F2 & F3 & _).
  split_and!; [congruence..|]. intros u.
  assert (C : same_counters (stateFor (stateFor e' t c).2 u now).1 (stateFor e' u now).1).
  { unfold stateFor at 1. rewrite stateFor_tenants. destruct (decide (t = u)) as [<-|_].
    - unfold stateFor. cbn. destruct (tenants e' !! t); [by apply rollover_read|].
      split_and!; cbn; by repeat destruct (windowOver _ _ _).
    - unfold stateFor. cbn. by destruct (tenants e' !! u). }
  destruct C as (? & ? & ? & ? & ?), (A4 u) as (? & ? & ? & ? & ?). split_and!; congruence.
Qed.

Lemma checks_same a b l est now : same_counters a b ->
  option_map Reason (checkRates a l est now) = option_map Reason (checkRates b l est now) /\
  checkBudgets a l est = checkBudgets b l est.
Proof.
  intros (E1 & E2 & E3 & E4 & E5). unfold checkRates, checkBudgets. rewrite E1, E2, E3, E4, E5. split; [|done].
  destruct (_ && _); [done|]. destruct (0 <? _); [|done]. by destruct (_ <? _).
Qed.

Lemma agree_decides now e e' t est : agree now e e' -> same_decision (Reserve e' now t est).1 (Reserve e now t est).1.
Proof.
  intros (A1 & A2 & A3 & A4). unfold Reserve. rewrite A1, A2.
  destruct (limits e !! t) as [l|]; [|done]. destruct (negb (healthy e) && FailClosed l); [done|].
  specialize (A4 t). destruct (stateFor_frame e t now) as (_ & _ & G & _).
  destruct (stateFor_frame e' t now) as (_ & _ & G' & _).
  destruct (stateFor e t now) as [st e1], (stateFor e' t now) as [st' e1']. cbn [fst snd] in *.
  destruct (checks_same st' st l est now A4) as [R B]. rewrite B.
  destruct (checkRates st' l est now), (checkRates st l est now); cbn in R; try done; [by injection R|].
  destruct (checkBudgets st l est); [done|]. cbn. congruence.
Qed.

(** *** What the handlers read *)

Lemma view_agree now e (s : admin M) clk n e1 :
  acct s = Some e1 -> agree now e e1 -> clk.1 <= now -> clk.2 <= now ->
  exists e2, acct (view s clk n).2 = Some e2 /\ agree now e e2.
Proof.
  intros E A L1 L2. unfold view, acct_Spent. rewrite E. unfold Spent.
  pose proof (agree_read now e e1 n clk.1 L1 A) as A1. destruct (stateFor e1 n clk.1) as [st1 e2].
  unfold acct_Committed. cbn [acct with_acct]. unfold Committed.
  pose proof (agree_read now e e2 n clk.2 L2 A1) as A2. destruct (stateFor e2 n clk.2) as [st2 e3]. by exists e3.
Qed.

Lemma view_all_agree now e (s : admin M) clk ns e1 :
  acct s = Some e1 -> agree now e e1 -> (forall i, (clk i).1 <= now /\ (clk i).2 <= now) ->
  exists e2, acct (view_all s clk ns).2 = Some e2 /\ agree now e e2.
Proof.
  revert s clk e1. induction ns as [|n ns IH]; intros s clk e1 E A L; [by exists e1|]. cbn [view_all].
  destruct (view_agree now e s (clk 0%nat) n e1 E A) as (e2 & E2 & A2); [apply L..|].
  destruct (view s (clk 0%nat) n) as [v s'].
  destruct (IH s' (fun i => clk (S i)) e2 E2 A2) as (e3 & E3 & A3); [intros i; apply L|].
  destruct (view_all s' _ ns) as [vs s'']. by exists e3.
Qed.
End Reading.

(** ** Properties *)

(** Looking changes nothing that is enforced: whatever an operator asks of
    the API, and although reading turns windows over, a reservation at any later
    instant is admitted, or denied for the same reason, as if nobody had asked. *)
Theorem looking_changes_no_decision (s : admin f64) e clk get at_ w now t est :
  acct s = Some e -> (forall i, (clk i).1 <= now /\ (clk i).2 <= now) ->
  exists e', acct (admin_serve s clk get at_ w).2 = Some e' /\
    same_decision (Reserve e' now t est).1 (Reserve e now t est).1.
Proof.
  intros E L.
  assert (K : exists e', acct (admin_serve s clk get at_ w).2 = Some e' /\ agree now e e').
  { unfold admin_serve. destruct at_ as [|name| |]; [| | |by exists e]; (destruct (negb get); [by exists e|]).
    - unfold handleTenantList.
      destruct (view_all_agree now e s clk (names s) e E (agree_refl _ _) L) as (e' & E' & A).
      destruct (view_all s clk (names s)). by exists e'.
    - unfold handleTenant. destruct (alimits s !! name); [|by exists e].
      destruct (view_agree now e s (clk 0%nat) name e E (agree_refl _ _)) as (e' & E' & A); [apply L..|].
      destruct (view s (clk 0%nat) name). by exists e'.
    - by exists e. }
  destruct K as (e' & E' & A). exists e'. split; [done|]. by apply agree_decides.
Qed.

Section Headroom.
Context {M : Type} `{RoundedUSD M}.
Local Abbreviation val := usd_val.

(** How far rounding can carry what is shown from what is compared: four
    roundings, of amounts within twice the total. *)
Definition slack (cap spent comm est : M) : Z := 4 * usd_err M (2 * (val cap + val spent + val comm + val est)).

(** [est] fits in what is left, give or take [k]; anything fits where there is
    no cap. *)
Definition fits_within (k : Z) (left : option M) (est : M) : Prop :=
  forall x, left = Some x -> val est <= val x + k.

(** What fails a budget check is past the cap, up to two roundings. *)
Lemma overBudget_true (cap spent comm est : M) m :
  usd_num cap -> amount spent -> amount comm -> amount est ->
  val spent + val comm + val est <= m -> overBudget cap spent comm est = true ->
  val cap < val spent + val comm + val est + 2 * usd_err M (2 * m).
Proof.
  intros Nc S C U L. unfold overBudget. intros [_ B]%andb_true_iff.
  pose proof (usd_err_nonneg (M := M) (2 * m)). destruct S as [Ns Ps], C as [Nk Pk], U as [Nu Pu].
  destruct (usd_add_cases spent comm Ns Nk Ps Pk) as [N1|[_ O]]; [|specialize (O cap Nc); lia].
  destruct (amount_add spent comm ltac:(by split) ltac:(by split) N1) as [[_ P1] E1].
  pose proof (amount_add_within spent comm (2 * m) ltac:(by split) ltac:(by split) N1 ltac:(lia)).
  destruct (usd_add_cases _ _ N1 Nu P1 Pu) as [N2|[_ O]]; [|specialize (O cap Nc); lia].
  rewrite usd_ltb_val in B by done. apply Z.ltb_lt in B.
  pose proof (amount_add_within (usd_add spent comm) est (2 * m) ltac:(by split) ltac:(by split) N2 ltac:(lia)).
  lia.
Qed.

(** The remainder shown is what is left of the cap, up to two roundings. *)
Lemma remaining_rounds (cap spent comm x : M) m :
  usd_num cap -> amount spent -> amount comm -> remaining cap spent comm = Some x -> usd_num x ->
  val cap + val spent + val comm <= m ->
  0 < val cap /\ Z.abs (val x - (val cap - val spent - val comm)) <= 2 * usd_err M (2 * m).
Proof.
  intros Nc [Ns Ps] [Nk Pk]. unfold remaining. rewrite usd_leb_val, usd_zero_val by (try done; apply usd_zero_num).
  destruct (Z.leb_spec (val cap) 0) as [|Pc]; [done|]. intros [= <-] Nx L. split; [done|].
  pose proof (usd_sub_num cap spent Nc Ns ltac:(lia) Ps) as N1.
  pose proof (usd_sub_err cap spent Nc Ns N1) as E1. pose proof (usd_sub_err _ comm N1 Nk Nx) as E2.
  pose proof (usd_err_bound M (val cap - val spent)).
  assert (usd_err M (val cap - val spent) <= usd_err M (2 * m)) by (apply usd_err_mono; lia).
  assert (usd_err M (val (usd_sub cap spent) - val comm) <= usd_err M (2 * m)) by (apply usd_err_mono; lia).
  lia.
Qed.

Lemma remaining_enforced (cap spent comm est : M) :
  usd_num cap -> amount spent -> amount comm -> amount est ->
  (forall x, remaining cap spent comm = Some x -> usd_num x) ->
  let k := slack cap spent comm est in
  if overBudget cap spent comm est
  then ~ fits_within (- k) (remaining cap spent comm) est
  else fits_within k (remaining cap spent comm) est.
Proof.
  intros Nc S C U Nx k. unfold fits_within. pose proof (proj2 S) as Ps. pose proof (proj2 C) as Pk. pose proof (proj2 U) as Pu.
  set (m := val cap + val spent + val comm + val est) in *. unfold slack in k. fold m in k.
  destruct (overBudget cap spent comm est) eqn:B.
  - destruct (remaining cap spent comm) as [x|] eqn:R.
    + destruct (remaining_rounds cap spent comm x m) as [Pc E]; [done..|by apply Nx|lia|].
      pose proof (overBudget_true cap spent comm est m Nc S C U ltac:(lia) B). intros F. specialize (F x eq_refl). lia.
    + exfalso. revert R B. unfold remaining, overBudget.
      rewrite usd_leb_val, usd_ltb_val, usd_zero_val by (try done; apply usd_zero_num).
      destruct (Z.leb_spec (val cap) 0) as [Z0|]; [|done]. by rewrite (proj2 (Z.ltb_ge _ _) Z0).
  - intros x R. destruct (remaining_rounds cap spent comm x m) as [Pc E]; [done..|by apply Nx|lia|].
    pose proof (overBudget_false cap spent comm est m Nc S C U Pc ltac:(lia) B). lia.
Qed.

Lemma checkRates_reason (st : tenantState M) l est now d :
  checkRates st l est now = Some d -> Reason d = DenyRequestRate \/ Reason d = DenyTokenRate.
Proof.
  unfold checkRates. destruct (_ && _); [intros [= <-]; by left|]. destruct (0 <? _); [|done].
  destruct (_ <? _); [|done]. intros [= <-]. by right.
Qed.

Lemma view_remaining (s : admin M) e clk t l : acct s = Some e -> alimits s !! t = Some l ->
  let v := (view s (clk, clk) t).1 in let st := (stateFor e t clk).1 in
  DailyRemainingUSD v = remaining (DailyUSD l) (dailySpent st) (committed st) /\
  MonthlyRemainingUSD v = remaining (MonthlyUSD l) (monthlySpent st) (committed st).
Proof.
  intros E L v st. subst v st. unfold view, acct_Spent. rewrite E, L. unfold Spent. cbn [fst snd].
  pose proof (agree_read clk e e t clk ltac:(lia) (agree_refl clk e)) as (_ & _ & _ & A).
  specialize (A t). destruct A as (_ & _ & A & _).
  destruct (stateFor e t clk) as [st1 e1]. cbn [fst snd] in *.
  unfold acct_Committed. cbn [acct with_acct]. unfold Committed.
  destruct (stateFor e1 t clk) as [st2 e2]. cbn in *. by rewrite A.
Qed.

(** (C27) The headroom shown is the headroom enforced, up to rounding: read at the
    instant of a request, every remainder a tenant's view shows is one the
    request's estimate fits in when the budgets admit it, give or take [slack];
    an estimate that fits every remainder with [slack] to spare is admitted; and a
    request denied for a budget does not fit the remainder shown for that budget
    with [slack] to spare.  [slack] is four roundings: none for exact money, where
    this is an equivalence, and for binary64 at most 2^-50 of the amounts
    involved.  Amounts are numbers that are not negative. *)
Theorem headroom_is_what_is_admitted (s : admin M) e clk t l est :
  acct s = Some e -> alimits s !! t = Some l -> limits e !! t = Some l ->
  let v := (view s (clk, clk) t).1 in
  let st := (stateFor e t clk).1 in
  let daily := slack (DailyUSD l) (dailySpent st) (committed st) (EstUSD est) in
  let monthly := slack (MonthlyUSD l) (monthlySpent st) (committed st) (EstUSD est) in
  usd_num (DailyUSD l) -> usd_num (MonthlyUSD l) ->
  amount (dailySpent st) -> amount (monthlySpent st) -> amount (committed st) -> amount (EstUSD est) ->
  (forall x, DailyRemainingUSD v = Some x \/ MonthlyRemainingUSD v = Some x -> usd_num x) ->
  (fits_within (- daily) (DailyRemainingUSD v) (EstUSD est) ->
   fits_within (- monthly) (MonthlyRemainingUSD v) (EstUSD est) -> checkBudgets st l est = None) /\
  match (Reserve e clk t est).1 with
  | inr _ => fits_within daily (DailyRemainingUSD v) (EstUSD est) /\
             fits_within monthly (MonthlyRemainingUSD v) (EstUSD est)
  | inl d =>
      (Reason d = DenyDailyBudget -> ~ fits_within (- daily) (DailyRemainingUSD v) (EstUSD est)) /\
      (Reason d = DenyMonthlyBudget -> ~ fits_within (- monthly) (MonthlyRemainingUSD v) (EstUSD est))
  end.
Proof.
  intros E L Le v st daily monthly Nd Nm Ad Am Ac Ae Nx.
  destruct (view_remaining s e clk t l E L) as [V1 V2]. fold v st in V1, V2.
  pose proof (remaining_enforced _ _ _ _ Nd Ad Ac Ae ltac:(intros x Hx; apply Nx; left; congruence)) as D.
  pose proof (remaining_enforced _ _ _ _ Nm Am Ac Ae ltac:(intros x Hx; apply Nx; right; congruence)) as O.
  fold daily monthly in D, O. rewrite V1, V2. clear Nx. cbv zeta in D, O.
  assert (K : match checkBudgets st l est with
    | None => fits_within daily (remaining (DailyUSD l) (dailySpent st) (committed st)) (EstUSD est) /\
              fits_within monthly (remaining (MonthlyUSD l) (monthlySpent st) (committed st)) (EstUSD est)
    | Some d =>
        Reason d = DenyDailyBudget /\ ~ fits_within (- daily) (remaining (DailyUSD l) (dailySpent st) (committed st)) (EstUSD est) \/
        Reason d = DenyMonthlyBudget /\ ~ fits_within (- monthly) (remaining (MonthlyUSD l) (monthlySpent st) (committed st)) (EstUSD est)
    end).
  { unfold checkBudgets. destruct (overBudget (DailyUSD l) _ _ _); [by left|].
    destruct (overBudget (MonthlyUSD l) _ _ _); [by right|done]. }
  split.
  { intros F1 F2. destruct (checkBudgets st l est); [|done]. by destruct K as [[_ []]|[_ []]]. }
  pose proof (Reserve_cases e clk t est) as C. cbv zeta in C. fold st in C.
  destruct (Reserve e clk t est) as [[d|r] e']; cbn [fst].
  - destruct C as [(N & _)|(l' & L' & [(_ & _ & -> & _)|(_ & _ & [R|[_ R]])])]; [congruence|done| |].
    + apply checkRates_reason in R. split; intros X; destruct R; congruence.
    + assert (l' = l) as -> by congruence. rewrite R in K. destruct K as [[-> K]|[-> K]]; by split.
  - destruct C as (l' & L' & _ & _ & C & _). assert (l' = l) as -> by congruence. by rewrite C in K.
Qed.
End Headroom.

(** *** Instances *)

Module AdminExample.
(** Two dollars and a half a day, of which 54 cents are spent and 64 reserved. *)
Definition cents (n : Z) : f64 := f64_ratio n 100.
Definition capped : Limits f64 := mkLimits 0 0 (cents 250) f64_zero false.
Definition counters : tenantState f64 := mkTenant (cents 54) 0 (cents 54) 0 (cents 64) 0 0 0 0.
Definition e1 : MemEnforcer f64 := set_tenant (NewEnforcer {["acme"%string := capped]}) "acme" counters.
Definition s1 : admin f64 := New (Some e1) (limits e1).
Definition asks : Estimate f64 := mkEstimate 1 1 (cents 132).

(** What is shown is 1.3199999999999998, and 1.32 is admitted. *)
Example the_view :
  (view s1 (7, 7) "acme").1 = mkView "acme" capped (cents 54) (cents 54) (cents 64)
    (Some (f64_sub (f64_sub (cents 250) (cents 54)) (cents 64))) None /\
  f64_ltb (f64_sub (f64_sub (cents 250) (cents 54)) (cents 64)) (cents 132) = true /\
  checkBudgets (stateFor e1 "acme" 7).1 capped asks = None.
Proof. vm_compute. done. Qed.

Lemma counters_read : (stateFor e1 "acme" 7).1 = counters.
Proof. vm_compute. reflexivity. Qed.

Lemma remainder_number x : DailyRemainingUSD (view s1 (7, 7) "acme").1 = Some x \/
  MonthlyRemainingUSD (view s1 (7, 7) "acme").1 = Some x -> is_number x.
Proof. intros [X|X]; vm_compute in X; [injection X as <-; by split|discriminate]. Qed.

Lemma shown_amount n : n ∈ [54; 64; 132] -> amount (cents n).
Proof. rewrite !elem_of_cons. intros [->|[->|[->|[]%not_elem_of_nil]]]; split; [split| |split| |split|]; vm_compute; done. Qed.

Lemma asks_admitted : exists r, (Reserve e1 7 "acme" asks).1 = inr r.
Proof. eexists. vm_compute. reflexivity. Qed.

Lemma headroom_is_what_is_admitted_witness :
  fits_within (slack (cents 250) (cents 54) (cents 64) (cents 132))
    (DailyRemainingUSD (view s1 (7, 7) "acme").1) (cents 132).
Proof.
  pose proof (headroom_is_what_is_admitted s1 e1 7 "acme" capped asks eq_refl eq_refl eq_refl) as K.
  cbv zeta in K. rewrite counters_read in K. destruct asks_admitted as [r R]. rewrite R in K.
  apply K; [by split|by split|apply shown_amount; left|apply shown_amount; left|apply shown_amount; right; left
    |apply shown_amount; right; right; left|exact remainder_number].
Defined.

Definition dollars : Limits f64 := mkLimits 3 0 (f64_of_Z 5) f64_zero true.
Definition f0 : MemEnforcer f64 := NewEnforcer {["acme"%string := dollars]}.
Definition shop : admin f64 := New (Some f0) (limits f0).

Example the_list :
  rwrites (admin_serve shop (fun _ => (1, 2)) true Tenants no_response).1 = [WJSON (quoted
    "{'tenants':[{'name':'acme','limits':{'requests_per_minute':3,'tokens_per_minute':0,'daily_usd':5,'monthly_usd':0,'fail_closed':true},'daily_spent_usd':0,'monthly_spent_usd':0,'committed_usd':0,'daily_remaining_usd':5,'monthly_remaining_usd':null}]}" +:+ String LF "")].
Proof. vm_compute. reflexivity. Qed.

Lemma looking_changes_no_decision_witness :
  exists e', acct (admin_serve shop (fun _ => (1, 2)) true Tenants no_response).2 = Some e' /\
    same_decision (Reserve e' 9 "acme" (mkEstimate 1 1 f64_zero)).1 (Reserve f0 9 "acme" (mkEstimate 1 1 f64_zero)).1.
Proof.
  apply (looking_changes_no_decision shop f0 (fun _ => (1, 2)) true Tenants no_response 9).
  - reflexivity.
  - intros i. cbn. lia.
Defined.

(** A cap that is not a number passes validation and is no cap to the enforcer;
    the view takes it for one, its remainder has no text, and the whole list is
    answered 200 with an empty body. *)
Definition unset : Limits f64 := mkLimits 3 0 S754_nan f64_zero true.
Definition blank : admin f64 := New (Some (NewEnforcer {["acme"%string := unset]})) {["acme"%string := unset]}.

Theorem nan_cap_blanks_the_list :
  let w := (admin_serve blank (fun _ => (1, 2)) true Tenants no_response).1 in
  rstatus w = Some 200 /\ rwrites w = [] /\
  overBudget S754_nan f64_zero f64_zero (f64_of_Z 1000) = false.
Proof. vm_compute. done. Qed.
End AdminExample.
