(* ===== verification/Adapters.v ===== *)
(** * The adapters behind one contract (internal/providers, the adapters' init functions)

    The gateway is linked with three adapters, each registered for the kinds it
    serves.  A reader is one of theirs.  [Honest] is what the rest of the
    gateway relies on when it bills an answer, retries a failure or tells its
    client that an answer is whole; the three adapters keep it, renaming a model
    keeps it, and so does every member of every chain that boots. *)

From Stdlib Require Import ZArith Lia String Ascii.
From stdpp Require Import base gmap strings list numbers.
From S2P Require Import Prelude GoString Providers Json Sse Stream Upstream Config OpenaiWire Dialect.
From S2P Require Import Anthropic Gemini Selector Router Wiring.

Local Open Scope Z_scope.

(** ** The readers of the three wires *)

Inductive reader :=
| OpenaiReader (r : streamReader bool)
| AnthropicReader (r : streamReader Anthropic.streamState)
| GeminiReader (r : streamReader Gemini.streamState).

Definition reads (ms : list moment) (r : reader) : list (StreamChunk + goerror) :=
  match r with
  | OpenaiReader r => recvs openai_wire ms r
  | AnthropicReader r => recvs anthropic_wire ms r
  | GeminiReader r => recvs gemini_wire ms r
  end.

(** What a reader has not read of its body. *)
Definition pending (r : reader) : body :=
  match r with OpenaiReader r => source r | AnthropicReader r => source r | GeminiReader r => source r end.

(** A provider seen through its readers. *)
Definition lift {R} (f : R -> reader) (p : Provider R) : Provider reader :=
  mkProviderImpl (provName p) (provChat p) (fun req =>
    match provStream p req with
    | Some (inl (r, info)) => Some (inl (f r, info))
    | Some (inr e) => Some (inr e)
    | None => None
    end).

Section Linked.
(** The HTTP client of each provider, the clock and the random ids. *)
Context (do : ProviderConfig -> http_request -> http_outcome) (now : Z) (fresh : string).

(** [builders] once every adapter's [init] has run. *)
Definition linked : registry reader := fun kind =>
  match kind with
  | KindAnthropic => Some (fun cfg => Some (lift AnthropicReader
      (Anthropic.adapter (Anthropic.New (PName cfg) (BaseURL cfg) (APIKey cfg)) now (do cfg))))
  | KindGemini => Some (fun cfg => Some (lift GeminiReader
      (Gemini.adapter (Gemini.New (PName cfg) (BaseURL cfg) (APIKey cfg)) fresh now (do cfg))))
  | kind =>
      match profiles kind with
      | None => None
      | Some _ => Some (fun cfg =>
          match builderFor kind cfg with
          | Some p => Some (lift OpenaiReader (OpenaiWire.adapter p (do cfg)))
          | None => None
          end)
      end
  end.

#[export] Instance linked_registered url_ok : Registered linked url_ok.
Proof.
  intros cfg K _ U _. unfold linked, AllKinds in *.
  assert (B : forall k, exists p, builderFor k cfg = Some p /\ OpenaiWire.name p = PName cfg).
  { intros k. unfold builderFor. cbv zeta.
    rewrite (bool_decide_eq_false_2 (BaseURL cfg = ""%string)) by done.
    rewrite (bool_decide_eq_false_2 (BaseURL cfg = ""%string)) by done. by eexists. }
  destruct (PKind cfg) as [| | | | | | | |s] eqn:E; cbn [profiles];
    try (destruct (B (PKind cfg)) as (p & Hp & Hn); rewrite E in Hp; eexists _, _; split_and!; [done|by cbv beta; rewrite Hp|done]);
    try (by eexists _, _).
  by repeat (apply elem_of_cons in K as [K|K]; [done|]); apply not_elem_of_nil in K.
Qed.
End Linked.

(** ** The contract *)

(** An error of this provider, with its class. *)
Definition owned (n : string) (e : goerror) : Prop := exists c status m cause, e = ErrProvider n c status m cause.

(** The event that makes an answer whole, on the wire of the reader. *)
Definition makes_whole (r : reader) (ev : SSEEvent) : Prop :=
  match r with
  | OpenaiReader _ => is_done ev
  | AnthropicReader _ => is_stop ev
  | GeminiReader _ => is_finish ev
  end.

Definition opens (p : Provider reader) (req : ChatRequest) (r : reader) : Prop :=
  exists info, provStream p req = Some (inl (r, info)).

Class Honest (p : Provider reader) : Prop := {
  honest_answer : forall req resp, provChat p req = Some (inl resp) ->
    RespProvider resp = provName p /\ answer_usage (RespBody resp) = RespUsage resp;
  honest_failure : forall req e,
    provChat p req = Some (inr e) \/ provStream p req = Some (inr e) -> owned (provName p) e;
  honest_chunk : forall req r ms c, opens p req r -> inl c ∈ reads ms r ->
    if Keepalive c then ChunkUsage c = None else chunk_usage (Data c) = ChunkUsage c;
  honest_end : forall req r ms e, opens p req r -> inr e ∈ reads ms r -> errors_Is e IoEOF = true ->
    exists ev, ev ∈ (events (S (length (unread (pending r)))) (pending r)).1 /\ makes_whole r ev
}.

(** ** The adapters keep it *)

Lemma exchange_owned n o e : exchange n o = inr e -> owned n e.
Proof. destruct o; intros [= <-]; by eexists _, _, _, _. Qed.

Lemma read_answer_owned n ctx b e : read_answer n ctx b = inr e -> owned n e.
Proof.
  intros E. pose proof (read_answer_spec n ctx b) as X. rewrite E in X.
  destruct X as [(m & cause & ->) _]. by eexists _, _, _, _.
Qed.

(** The shape the three adapters share: two exchanges, a classed failure for a
    status that is none of success, the bounded body handed to the translation,
    and a reader over the body of a stream. *)
Section OneWire.
Context {L : Type} (w : wire L) (f : streamReader L -> reader) (mark : SSEEvent -> Prop) (I : L -> Prop).
Context (reads_f : forall ms r, reads ms (f r) = recvs w ms r) (pending_f : forall r, pending (f r) = source r)
  (whole_f : forall r ev, makes_whole (f r) ev <-> mark ev).
Context `{!Marked w mark} `{!Emitting w I tells_usage}.
Context (n : string) (ask ask_stream : ChatRequest -> Z * body * option ctxError + goerror)
  (refuse : Z -> body -> goerror) (answer : ChatRequest -> Z -> string -> ChatResponse + goerror)
  (start : ChatRequest -> L).

Definition http_chat (req : ChatRequest) : ChatResponse + goerror :=
  match ask req with
  | inr e => inr e
  | inl (status, b, ctx) =>
      if negb (Is2xx status) then inr (refuse status b)
      else match read_answer n ctx b with
      | inr e => inr e
      | inl text => answer req status text
      end
  end.

Definition http_stream (req : ChatRequest) : streamReader L + goerror :=
  match ask_stream req with
  | inr e => inr e
  | inl (status, b, _) => if negb (Is2xx status) then inr (refuse status b) else inl (newReader n b (start req))
  end.

Definition http_provider : Provider (streamReader L) :=
  mkProviderImpl n (fun req => Some (http_chat req))
    (fun req => Some match http_stream req with
                     | inl r => inl (r, mkStreamInfo "" "")
                     | inr e => inr e
                     end).

Context (ask_owned : forall req e, ask req = inr e -> owned n e)
  (ask_stream_owned : forall req e, ask_stream req = inr e -> owned n e)
  (refuse_owned : forall status b, owned n (refuse status b))
  (answer_ok : forall req status text,
    match answer req status text with
    | inl resp => RespProvider resp = n /\ answer_usage (RespBody resp) = RespUsage resp
    | inr e => owned n e
    end)
  (start_ok : forall req, saw w (start req) = false /\ I (start req)).

Lemma http_chat_ok req :
  match http_chat req with
  | inl resp => RespProvider resp = n /\ answer_usage (RespBody resp) = RespUsage resp
  | inr e => owned n e
  end.
Proof.
  unfold http_chat. destruct (ask req) as [[[status b] ctx]|e] eqn:E; [|by eapply ask_owned].
  destruct (negb (Is2xx status)); [apply refuse_owned|].
  destruct (read_answer n ctx b) eqn:A; [apply answer_ok|].
  by eapply read_answer_owned.
Qed.

Lemma http_stream_ok req :
  match http_stream req with
  | inl r => exists b, r = newReader n b (start req)
  | inr e => owned n e
  end.
Proof.
  unfold http_stream. destruct (ask_stream req) as [[[status b] ctx]|e] eqn:E; [|by eapply ask_stream_owned].
  destruct (negb (Is2xx status)); [apply refuse_owned|eauto].
Qed.

Lemma http_opens req r : opens (lift f http_provider) req r -> exists b, r = f (newReader n b (start req)).
Proof.
  intros [info E]. cbn in E. pose proof (http_stream_ok req) as O.
  destruct (http_stream req) as [r'|e]; [|done]. destruct O as [b ->]. injection E as <- _. by exists b.
Qed.

Lemma http_honest : Honest (lift f http_provider).
Proof.
  split.
  - intros req resp [= E]. pose proof (http_chat_ok req) as O. by rewrite E in O.
  - intros req e [[= E]|E].
    + pose proof (http_chat_ok req) as O. by rewrite E in O.
    + cbn in E. pose proof (http_stream_ok req) as O. destruct (http_stream req); [done|]. by injection E as <-.
  - intros req r ms c Hr Hc. destruct (http_opens _ _ Hr) as [b ->]. rewrite reads_f in Hc.
    apply (every_chunk_emitted w I tells_usage n b (start req) ms c); [apply start_ok|done].
  - intros req r ms e Hr Hin He. destruct (http_opens _ _ Hr) as [b ->]. rewrite pending_f, reads_f in *.
    destruct (whole_only_after_mark w mark n b (start req) ms e) as (ev & Hev & _ & Hm);
      [by apply start_ok|done..|]. exists ev. split; [exact Hev|by apply whole_f].
Qed.
End OneWire.

#[export] Instance openai_emitting : Emitting openai_wire (fun _ => True) tells_usage.
Proof.
  split; [done|]. intros s ev _. cbn. unfold openai_event. destruct (negb (HasData ev)); [done|].
  by case_bool_decide.
Qed.

#[export] Instance anthropic_telling : Emitting anthropic_wire counts_int64 tells_usage.
Proof.
  apply (emitting_weaken _ _ tells_total); [apply _|]. by intros c [H _].
Qed.

#[export] Instance openai_honest p do : Honest (lift OpenaiReader (OpenaiWire.adapter p do)).
Proof.
  apply (http_honest openai_wire OpenaiReader is_done (fun _ => True) ltac:(done) ltac:(done) ltac:(done) (OpenaiWire.name p)
    (fun req => OpenaiWire.post p do (ReqRaw req))
    (fun req => OpenaiWire.post p do (withStreamUsage (ReqRaw req) (prof p)))
    (OpenaiWire.statusError p)
    (fun req _ text => inl (mkChatResponse (ReqModel req) (OpenaiWire.name p) text (answer_usage text)))
    (fun _ => false)); try done.
  - intros req e. apply exchange_owned.
  - intros req e. apply exchange_owned.
  - intros status b. by eexists _, _, _, _.
Qed.

#[export] Instance anthropic_honest p now do : Honest (lift AnthropicReader (Anthropic.adapter p now do)).
Proof.
  assert (O : forall stream req e, Anthropic.send p do req stream = inr e -> owned (Anthropic.name p) e).
  { intros stream req e. unfold send. destruct (Anthropic.translateRequest _ _ _); [apply exchange_owned|].
    intros [= <-]. by eexists _, _, _, _. }
  apply (http_honest anthropic_wire AnthropicReader is_stop counts_int64 ltac:(done) ltac:(done) ltac:(done) (Anthropic.name p)
    (fun req => send p do req false) (fun req => send p do req true) (Anthropic.statusError p)
    (fun req _ text => match translateResponse text (ReqModel req) now with
       | inr e => inr (ErrProvider (Anthropic.name p) ErrClassUpstream 0
                         "upstream response is not a messages completion" (Some e))
       | inl (out, u) => inl (mkChatResponse (ReqModel req) (Anthropic.name p) out u)
       end)
    (fun req => Anthropic.mkStream (Anthropic.name p) now false "" (ReqModel req) None None)); try done.
  - apply (O false).
  - apply (O true).
  - intros status b. by eexists _, _, _, _.
  - intros req _ text. pose proof (response_bills text (ReqModel req) now) as T.
    destruct (translateResponse _ _ _) as [[out u]|e]; [done|by eexists _, _, _, _].
Qed.

#[export] Instance gemini_honest p id now do : Honest (lift GeminiReader (Gemini.adapter p id now do)).
Proof.
  assert (O : forall method query req e, Gemini.post p do req method query = inr e -> owned (Gemini.name p) e).
  { intros method query req e. unfold Gemini.post.
    destruct (Gemini.translateRequest _) as [q|]; [destruct (request_text q); [apply exchange_owned|]|];
      intros [= <-]; by eexists _, _, _, _. }
  apply (http_honest gemini_wire GeminiReader is_finish (fun _ => True) ltac:(done) ltac:(done) ltac:(done) (Gemini.name p)
    (fun req => Gemini.post p do req generateContent "")
    (fun req => Gemini.post p do req streamGenerateContent sseQuery) (Gemini.statusError p)
    (fun req status text => match translateCompletion text id (ReqModel req) now with
       | inr e => inr (ErrProvider (Gemini.name p) ErrClassUpstream status
                         "upstream response is not a Gemini completion" (Some e))
       | inl (out, u) => inl (mkChatResponse (ReqModel req) (Gemini.name p) out u)
       end)
    (fun req => Gemini.mkStream (Gemini.name p) id now (ReqModel req) false false)); try done.
  - apply O.
  - apply O.
  - intros status b. by eexists _, _, _, _.
  - intros req status text. pose proof (completion_bills text id (ReqModel req) now) as T.
    destruct (translateCompletion _ _ _ _) as [[out u]|e]; [done|by eexists _, _, _, _].
Qed.

(** ** Renaming keeps it, and so does every chain *)

#[export] Instance renamed_honest p m : Honest p -> Honest (WithModel p m).
Proof.
  intros H. unfold WithModel. destruct (bool_decide (m = ""%string)); [done|].
  assert (C : forall {A} (call : ChatRequest -> option (A + goerror)) req x,
    rewritten p m call req = Some x -> (exists req', call req' = Some x) \/
    exists e, x = inr e /\ owned (provName p) e).
  { intros A call req x. unfold rewritten, rewrite_request. destruct (setModel _ _); [eauto| |done].
    intros [= <-]. right. eexists. split; [done|]. by eexists _, _, _, _. }
  assert (O : forall req r, opens (modelRewriter p m) req r -> exists req', opens p req' r).
  { intros req r [info E]. apply C in E as [[req' E]|(e & [=] & _)].
    destruct (provStream p req') as [[[r' i]|e]|] eqn:P; try done. injection E as <- _. by exists req', i. }
  split.
  - intros req resp E. apply C in E as [[req' E]|(e & [=] & _)]. exact (honest_answer (p := p) req' resp E).
  - intros req e [E|E]; apply C in E as [[req' E]|(e' & [= <-] & ?)]; try done.
    + apply (honest_failure (p := p) req'). by left.
    + apply (honest_failure (p := p) req'). right. by destruct (provStream p req') as [[[r' i]|e']|].
  - intros req r ms c Hr. destruct (O _ _ Hr) as [req' Hr']. by apply (honest_chunk (p := p) req').
  - intros req r ms e Hr. destruct (O _ _ Hr) as [req' Hr']. by apply (honest_end (p := p) req').
Qed.

Lemma linked_honest do now fresh cfg build p :
  linked do now fresh (PKind cfg) = Some build -> build cfg = Some p -> Honest p.
Proof.
  unfold linked. intros E B.
  destruct (PKind cfg); cbn [profiles] in E; try done; injection E as <-;
    try (by injection B as <-; apply _);
    (destruct (builderFor _ cfg); [injection B as <-; apply _|done]).
Qed.

(** What holds of every provider that is built holds of every member. *)
Section Members.
Context {R : Type} (P : Provider R -> Prop) (renamed_ok : forall p m, P p -> P (WithModel p m)).

Lemma buildAll_all (reg : registry R) cfgs out provs :
  (forall cfg build p, reg (PKind cfg) = Some build -> build cfg = Some p -> P p) ->
  map_Forall (fun _ => P) out -> buildAll reg cfgs out = inl provs -> map_Forall (fun _ => P) provs.
Proof.
  intros H. revert out. induction cfgs as [|cfg cfgs IH]; intros out Ho E; [by injection E as <-|].
  cbn [buildAll] in E. destruct (out !! PName cfg); [done|]. destruct (reg (PKind cfg)) as [build|] eqn:Rg; [|done].
  destruct (build cfg) as [p|] eqn:B; [|done]. eapply IH; [|exact E].
  apply map_Forall_insert_2; [|done]. by eapply H.
Qed.

Lemma build_chain_all route provs names chain :
  map_Forall (fun _ => P) provs -> build_chain route provs names = inl chain -> Forall P chain.
Proof.
  intros H. revert chain. induction names as [|n names IH]; intros chain E; [by injection E as <-; constructor|].
  cbn [build_chain] in E. destruct (provs !! n) as [p|] eqn:L; [|done].
  destruct (build_chain route provs names) as [c|]; [|done]. injection E as <-.
  constructor; [|by apply IH]. unfold member. destruct (bool_decide _); [by eapply H|]. apply renamed_ok. by eapply H.
Qed.

Lemma build_routes_all o h provs rs out routes :
  map_Forall (fun _ => P) provs -> map_Forall (fun _ r => Forall P (r_members r)) out ->
  build_routes o h provs rs out = inl routes -> map_Forall (fun _ r => Forall P (r_members r)) routes.
Proof.
  intros H. revert out. induction rs as [|route rs IH]; intros out Ho E; [by injection E as <-|].
  cbn [build_routes] in E. destruct (build_route o h provs route) as [r|] eqn:B; [|done].
  eapply IH; [|exact E]. apply map_Forall_insert_2; [|done]. revert B. unfold build_route.
  destruct (build_chain route provs (Chain route)) as [chain|] eqn:C; [|done].
  destruct (NewSelector _); [|done]. destruct (New _ _ _ _ _); [done|]. intros [= <-]. by eapply build_chain_all.
Qed.
End Members.

(** ** Properties *)

(** (C4) No backend is trusted more than another: a configuration that passes
    validation boots with the adapters that are linked in, and every member of
    every chain, whatever its wire and however it is renamed, answers under its
    own name with the usage its body tells the client, fails with errors of its
    own that have a class, bills for each chunk of a stream the usage that chunk
    tells, and reports a stream whole only when its upstream sent the event that
    says so. *)
Theorem every_member_is_honest do now fresh lo ur c :
  Validate lo ur c = [] ->
  exists provs routes,
    BuildAll (linked do now fresh) (CProviders c) = inl provs /\ buildRoutes c provs = inl routes /\
    forall route, route ∈ CRoutes c -> exists r, routes !! Config.RModel route = Some r /\
      provName <$> r_members r = Chain route /\ Forall Honest (r_members r).
Proof.
  intros V. destruct (boots (linked do now fresh) lo ur c _ V) as (provs & routes & E & Er & _ & _ & W).
  exists provs, routes. split_and!; [done..|]. intros route Hr. destruct (W route Hr) as (r & L & _ & _ & N & _).
  exists r. split_and!; [done|done|].
  assert (HP : map_Forall (fun _ => Honest) provs).
  { eapply buildAll_all; [|apply map_Forall_empty|exact E]. apply linked_honest. }
  eapply (build_routes_all Honest) in Er; [by eapply Er|apply renamed_honest|done|apply map_Forall_empty].
Qed.

(** *** Instances *)

Module AdaptersExample.
Import ConfigExample.

(** An upstream that answers every request with the same text. *)
Definition says (text : string) (_ : ProviderConfig) (_ : http_request) : http_outcome :=
  Response 200 (mkBody (payload text) (ErrSentinel IoEOF)) None.

Lemma every_member_is_honest_witness :
  exists provs routes,
    BuildAll (linked (says "{}") 0 "c1") (CProviders loaded) = inl provs /\ buildRoutes loaded provs = inl routes /\
    forall route, route ∈ CRoutes loaded -> exists r, routes !! Config.RModel route = Some r /\
      provName <$> r_members r = Chain route /\ Forall Honest (r_members r).
Proof. apply (every_member_is_honest (says "{}") 0 "c1" loopback any_url loaded). vm_compute. reflexivity. Defined.

(** The same answer, through the three wires. *)
Definition claude : ProviderConfig := mkProviderConfig "claude" KindAnthropic "https://a" "k" [] None.
Definition reply : string := quoted
  "{'id':'m','model':'x','content':[{'type':'text','text':'ok'}],'stop_reason':'end_turn','usage':{'input_tokens':3,'output_tokens':2}}".

Example a_translated_answer :
  option_map (fun build => option_map (fun p => provChat p (mkRequest "x" false (quoted "{'messages':[]}"))) (build claude))
    (linked (says reply) 0 "c1" KindAnthropic)
  = Some (Some (Some (inl (mkChatResponse "x" "claude" (quoted
      "{'id':'m','object':'chat.completion','created':0,'model':'x','choices':[{'index':0,'message':{'role':'assistant','content':'ok'},'finish_reason':'stop'}],'usage':{'prompt_tokens':3,'completion_tokens':2,'total_tokens':5}}")
      (mkUsage 3 2 5))))).
Proof. vm_compute. reflexivity. Qed.
End AdaptersExample.
