(* ===== verification/Relay.v ===== *)
(** * From the upstream's bytes to the client's (internal/ingress/handlers.go over the adapters)

    The relay loop is fed by a goroutine that reads a stream and forwards what it
    gets.  Put together with the contract of the providers, this says what a
    client may conclude from the bytes it is written. *)

From Stdlib Require Import ZArith Lia String Ascii.
From stdpp Require Import base gmap strings list numbers.
From S2P Require Import Prelude GoString Providers Json Sse Stream Upstream Wire Config OpenaiWire Dialect.
From S2P Require Import Anthropic Handlers Wiring Adapters.

Local Open Scope Z_scope.

(** ** The pump *)

(** [pumpStream] over what successive [Recv]s answer, [None] where one panics:
    it forwards up to and including the first error. *)
Fixpoint pumpStream (got : list (option (StreamChunk + goerror))) : list (StreamChunk + goerror) :=
  match got with
  | [] => []
  | None :: _ => [inr (ErrOpaque "stream reader panicked")]
  | Some (inr e) :: _ => [inr e]
  | Some (inl c) :: got => inl c :: pumpStream got
  end.

(** What the loop received of it: the cases of its [select] that are results. *)
Definition result_of (ev : loop_event) : option (StreamChunk + goerror) :=
  match ev with EvChunk c _ => Some (inl c) | EvErr e => Some (inr e) | _ => None end.
Definition received (evs : list loop_event) : list (StreamChunk + goerror) := omap result_of evs.

(** The loop runs on this reader: it received some of what the pump forwards,
    in order, before it returned. *)
Definition runs_on (r : reader) (ms : list moment) (evs : list loop_event) : Prop :=
  received evs `prefix_of` pumpStream (Some <$> reads ms r).

(** ** What a client reads *)

Definition frame_data (x : write) : option string := match x with WFrame d => Some d | _ => None end.

(** The last usage told in the frames. *)
Definition told (frames : list write) : option Usage :=
  fold_left (fun u d => match chunk_usage d with Some x => Some x | None => u end) (omap frame_data frames) None.

(** ** Facts *)

Lemma pump_sub l x : x ∈ pumpStream (Some <$> l) -> x ∈ l.
Proof.
  induction l as [|[c|e] l IH]; cbn; [done| |].
  - intros [->|H]%elem_of_cons; [left|right; by apply IH].
  - intros ->%list_elem_of_singleton. left.
Qed.

Lemma received_read r ms evs x : runs_on r ms evs -> x ∈ received evs -> x ∈ reads ms r.
Proof.
  intros [rest E] H. apply pump_sub. rewrite E. apply elem_of_app. by left.
Qed.

Lemma received_app a b : received (a ++ b) = received a ++ received b.
Proof. apply omap_app. Qed.

Lemma chunk_received evs c : c ∈ chunks_of evs -> inl c ∈ received evs.
Proof.
  unfold chunks_of, received. rewrite !list_elem_of_omap. intros (ev & Hev & E). exists ev.
  split; [done|]. destruct ev; try done. by injection E as ->.
Qed.

(** What was received up to an error is all that was read up to it: chunks only,
    none left out, and nothing is received after it. *)
Lemma pump_whole l a e b : (a ++ inr e :: b) `prefix_of` pumpStream (Some <$> l) ->
  b = [] /\ exists cs rest, a = inl <$> cs /\ l = a ++ inr e :: rest.
Proof.
  intros [z Ez]. revert a Ez. induction l as [|[c|e'] l IH]; intros a Ez; cbn in Ez.
  - by destruct a.
  - destruct a as [|x a]; [done|]. injection Ez as <- Ez. destruct (IH a Ez) as (-> & cs & rest & -> & ->).
    split; [done|]. by exists (c :: cs), rest.
  - destruct a as [|x a]; cbn in Ez; [|injection Ez as _ Ez; by destruct a].
    injection Ez as <- Ez. symmetry in Ez. apply app_nil in Ez as [-> _]. split; [done|]. by exists [], l.
Qed.

Lemma chunks_of_inl evs cs : received evs = inl <$> cs -> chunks_of evs = cs.
Proof.
  revert cs. induction evs as [|ev evs IH]; intros cs; [by destruct cs|].
  destruct ev as [c b|e| |]; cbn; try apply IH; [|by destruct cs].
  destruct cs as [|c' cs]; [done|]. intros [= -> E]. f_equal. by apply IH.
Qed.

Lemma chunks_of_received evs : received evs = [] -> chunks_of evs = [].
Proof.
  induction evs as [|ev evs IH]; [done|]. rewrite chunks_of_cons.
  destruct ev; try done; exact IH.
Qed.

(** Chunks that say their usage, and the frames they are written as. *)
Lemma later_usage_told (read : string -> option Usage) cs u :
  Forall (fun c => if Keepalive c then ChunkUsage c = None else read (Data c) = ChunkUsage c) cs ->
  later_usage u cs = fold_left (fun u d => match read d with Some x => Some x | None => u end)
    (omap frame_data (chunk_write <$> cs)) u.
Proof.
  intros F. revert u. induction F as [|c cs Hc F IH]; intros u; [done|].
  unfold later_usage in *. cbn [fold_left]. rewrite IH. rewrite fmap_cons. unfold chunk_write at 2.
  destruct (Keepalive c); [by rewrite Hc|]. by rewrite <- Hc.
Qed.

(** Only the end of a stream writes [[DONE]]. *)
Lemma done_is_terminal cs last frames :
  (chunk_write <$> cs) ++ terminal last = frames ++ [WDone] ->
  frames = chunk_write <$> cs /\ exists e, last = EvErr e /\ errors_Is e IoEOF = true.
Proof.
  intros E. destruct last as [c b|e| |]; cbn [terminal] in E.
  2: { destruct (errors_Is e IoEOF) eqn:X; apply app_inj_2 in E as [E1 E2]; try done. eauto. }
  2: { by apply app_inj_2 in E as [_ ?]. }
  all: exfalso; rewrite app_nil_r in E; assert (H : WDone ∈ chunk_write <$> cs)
    by (rewrite E; apply elem_of_app; right; left);
    apply list_elem_of_fmap in H as (c' & H & _); unfold chunk_write in H; by destruct (Keepalive c').
Qed.

(** ** Properties *)

(** (C3) A client that reads [[DONE]] has the whole answer and the bill: whatever
    backend served it, over whatever wire and under whatever name, and however
    the reads, the timers and the client's writes were scheduled, if the relay
    ended what it wrote with [[DONE]], then the upstream sent the event that makes
    an answer whole; the provider's stream ended there, and what was written
    before is every chunk it gave before that end, in order, none left out; and
    the usage the gateway charges is the last one told in those frames. *)
Theorem done_is_the_whole_bill p req r ms s info evs t w l frames :
  Honest p -> opens p req r -> runs_on r ms evs -> fresh_tally t ->
  run_loop s info evs (mkLoop t true w []) = Some l ->
  rwrites (out l) = rwrites w ++ frames ++ [WDone] ->
  (exists ev, ev ∈ (events (S (length (unread (pending r)))) (pending r)).1 /\ makes_whole r ev) /\
  (exists cs e rest, reads ms r = (inl <$> cs) ++ inr e :: rest /\ errors_Is e IoEOF = true /\
     frames = chunk_write <$> cs) /\
  lastUsage (tally l) = told frames.
Proof.
  intros H O Ro (F1 & _) E W.
  destruct (run_loop_spec _ _ _ _ _ E) as (pre & last & rest & -> & _ & _ & W' & U & _).
  rewrite W in W'. apply app_inv_head, symmetry, done_is_terminal in W' as (Ef & e & -> & He).
  assert (Split : received pre ++ inr e :: received rest `prefix_of` pumpStream (Some <$> reads ms r))
    by (unfold runs_on in Ro; by rewrite received_app in Ro).
  destruct (pump_whole _ _ _ _ Split) as (Rest%chunks_of_received & cs & later & Ecs & All).
  assert (Ec : forall x, chunks_of (pre ++ x) = chunks_of pre ++ chunks_of x) by (intros x; apply omap_app).
  split_and!.
  - apply (honest_end req r ms e); [done| |done]. rewrite All. apply elem_of_app. right. left.
  - exists cs, e, later. split_and!; [by rewrite All, Ecs|done|]. by rewrite Ef, (chunks_of_inl _ _ Ecs).
  - cbn [tally] in U. rewrite F1, Ec, chunks_of_cons in U. cbn [chunk_of option_list app chunks_of omap list_omap] in U.
    rewrite app_nil_r in U. rewrite U. unfold told. rewrite Ef. apply later_usage_told, list.Forall_forall.
    intros c Hc. apply (honest_chunk req r ms c O). apply (received_read r ms _ _ Ro).
    apply chunk_received. rewrite Ec. apply elem_of_app. by left.
Qed.

(** *** Instances *)

Module RelayExample.
Import HandlersExample.

Definition upstream (_ : http_request) : http_outcome := Response 200 Anthropic.AnthropicExample.whole None.
Definition claude : Provider reader :=
  lift AnthropicReader (Anthropic.adapter (Anthropic.New "claude" "" "k") 0 upstream).
Definition asked : ChatRequest := mkRequest "m" true (quoted "{'messages':[]}").
Definition opened : reader :=
  match provStream claude asked with
  | Some (inl (r, _)) => r
  | _ => OpenaiReader (OpenaiWire.newStreamReader "" (mkBody [] (ErrSentinel IoEOF)))
  end.
Definition moments : list moment := replicate 4 (mkMoment None false).
Definition case_of (x : StreamChunk + goerror) : loop_event :=
  match x with inl c => EvChunk c true | inr e => EvErr e end.
Definition cases : list loop_event := case_of <$> reads moments opened.
Definition relayed : loop_state :=
  default (mkLoop start true no_response []) (run_loop served info cases (mkLoop start true no_response [])).

Example the_bill : lastUsage (tally relayed) = Some (mkUsage 7 2 9).
Proof. vm_compute. reflexivity. Qed.

Lemma done_is_the_whole_bill_witness :
  (exists ev, ev ∈ (events (S (length (unread (pending opened)))) (pending opened)).1 /\ makes_whole opened ev) /\
  (exists cs e rest, reads moments opened = (inl <$> cs) ++ inr e :: rest /\ errors_Is e IoEOF = true /\
     take 3 (rwrites (out relayed)) = chunk_write <$> cs) /\
  lastUsage (tally relayed) = told (take 3 (rwrites (out relayed))).
Proof.
  apply (done_is_the_whole_bill claude asked opened moments served info cases start no_response relayed
           (take 3 (rwrites (out relayed)))).
  - apply anthropic_honest.
  - eexists. vm_compute. reflexivity.
  - exists []. vm_compute. reflexivity.
  - done.
  - vm_compute. reflexivity.
  - vm_compute. reflexivity.
Defined.
End RelayExample.
