(* ===== verification/LlmSim.v ===== *)
(** * The simulator (internal/llmsim, cmd/llmsim)

    The deterministic upstream the gateway is tested and measured against: how a
    request's plan is drawn from its own generator, what the plan makes of the
    request, byte for byte, and the slots that bound the connections held open.
    The generator of math/rand/v2 and [math.Log] and [math.Exp] are parameters;
    the sleeps, the client's writes and the clock are given to the request. *)

From Stdlib Require Import ZArith Lia String Ascii.
From stdpp Require Import base strings list numbers relations.
From S2P Require Import Prelude Float64 GoString Json JsonText JsonLine Providers Sse Stream Upstream OpenaiWire Dialect.

Local Open Scope Z_scope.

(** ** Profiles (profile.go) *)

Record Dist := mkDist { Mean : f64; P95 : f64 }.
Record Profile := mkProfile { PrName : string; TTFT : Dist; ITL : Dist; OutputTokens : Dist }.

Definition zeroDist : Dist := mkDist f64_zero f64_zero.
Definition zeroProfile : Profile := mkProfile "" zeroDist zeroDist zeroDist.

Definition DefaultProfile : Profile :=
  mkProfile "llmsim-default" (mkDist (f64_of_Z 300) (f64_of_Z 900)) (mkDist (f64_of_Z 15) (f64_of_Z 40))
    (mkDist (f64_of_Z 180) (f64_of_Z 400)).

(** The constant, and its square, which the compiler computes exactly. *)
Definition z95 : f64 := default f64_zero (decimal_in f64_prec f64_emax false 16448536269514722 (-16)).
Definition z95_squared : f64 :=
  default f64_zero (decimal_in f64_prec f64_emax false (16448536269514722 ^ 2) (-32)).

Definition dec_dist : decoder Dist := dec_struct
  [("mean", at_field Mean (fun v d => mkDist v (P95 d)) dec_float);
   ("p95", at_field P95 (fun v d => mkDist (Mean d) v) dec_float)]%string.

Definition dec_profile : decoder Profile := dec_struct
  [("name", at_field PrName (fun v p => mkProfile v (TTFT p) (ITL p) (OutputTokens p)) dec_string);
   ("ttft_ms", at_field TTFT (fun v p => mkProfile (PrName p) v (ITL p) (OutputTokens p)) dec_dist);
   ("itl_ms", at_field ITL (fun v p => mkProfile (PrName p) (TTFT p) v (OutputTokens p)) dec_dist);
   ("output_tokens", at_field OutputTokens (fun v p => mkProfile (PrName p) (TTFT p) (ITL p) v) dec_dist)]%string.

(** What [validate] makes of one field; [None] when it is fine. *)
Definition validate_dist (field : string) (d : Dist) : option string :=
  if f64_leb (Mean d) f64_zero || f64_leb (P95 d) f64_zero
  then Some (field +:+ ": mean and p95 must be positive")
  else if f64_ltb (P95 d) (Mean d) then Some (field +:+ ": p95 must be at least the mean")
  else None.

Definition validate (p : Profile) : option string :=
  match validate_dist "ttft_ms" (TTFT p) with
  | Some e => Some e
  | None => match validate_dist "itl_ms" (ITL p) with
            | Some e => Some e
            | None => validate_dist "output_tokens" (OutputTokens p)
            end
  end.

Inductive profile_error := ErrRead | ErrParse | ErrInvalid (why : string).

(** [file] is what reading it gave. *)
Definition LoadProfile (file : option string) : Profile + profile_error :=
  match file with
  | None => inr ErrRead
  | Some data =>
      match Unmarshal dec_profile data zeroProfile with
      | None => inr ErrParse
      | Some p => match validate p with Some why => inr (ErrInvalid why) | None => inl p end
      end
  end.

(** ** The server (server.go) *)

Definition roleAssistant : string := "assistant".
Definition finishStop : string := "stop".
Definition doneEvent : string := "[DONE]".
Definition idPrefix : string := "sim-".
Definition ownerName : string := "llmsim".
Definition promptCharsPerToken : Z := 4.
Definition retryAfterSeconds : string := "2".
Definition maxRequestBodyBytes : Z := 2 ^ 20.
Definition defaultMaxConcurrentHangs : Z := 64.

Definition wordlist : list string :=
  ["alpha"; "bravo"; "charlie"; "delta"; "echo"; "foxtrot"; "golf"; "hotel"; "india"; "juliet"; "kilo";
   "lima"; "mike"; "november"; "oscar"; "papa"; "quebec"; "romeo"; "sierra"; "tango"; "uniform"; "victor";
   "whiskey"; "xray"; "yankee"; "zulu"]%string.

Record Options := mkOptions {
  Seed : Z; Profile_ : Profile; TimeScale : f64;
  Fail429 : f64; FailHang : f64; FailCut : f64;
  MaxConcurrentHangs : Z
}.

(** [next] numbers the requests; [hanging] is how many slots are taken. *)
Record Server := mkServer { opts : Options; next : Z; hanging : Z }.

Definition dist_eqb (a b : Dist) : bool := f64_eqb (Mean a) (Mean b) && f64_eqb (P95 a) (P95 b).
(** Go's [==] on the struct. *)
Definition profile_eqb (a b : Profile) : bool :=
  bool_decide (PrName a = PrName b) && dist_eqb (TTFT a) (TTFT b) && dist_eqb (ITL a) (ITL b)
  && dist_eqb (OutputTokens a) (OutputTokens b).

Definition New (cfg : Options) : Server :=
  let scale := if f64_leb (TimeScale cfg) f64_zero then f64_of_Z 1 else TimeScale cfg in
  let profile := if profile_eqb (Profile_ cfg) zeroProfile then DefaultProfile else Profile_ cfg in
  let hangs := if MaxConcurrentHangs cfg <=? 0 then defaultMaxConcurrentHangs else MaxConcurrentHangs cfg in
  mkServer (mkOptions (Seed cfg) profile scale (Fail429 cfg) (FailHang cfg) (FailCut cfg) hangs) 0 0.

(** ** Plans *)

Inductive failureMode := failNone | fail429 | failHang | failCut.

#[export] Instance failureMode_eq_dec : EqDecision failureMode.
Proof. solve_decision. Defined.

Record plan := mkPlan {
  n : Z; fail : failureMode; ttft : Duration; words : list string; itl : list Duration
}.

Definition id (p : plan) : string := idPrefix +:+ Itoa (n p).

Definition scale (o : Options) (ms : f64) : Duration :=
  f64_to_int64 (f64_mul (f64_mul ms (TimeScale o)) (f64_of_Z Millisecond)).

(** The generator: [rand.New(rand.NewPCG(a, b))] and the draws the plan makes. *)
Class Source (G : Type) := {
  NewPCG : Z -> Z -> G;
  Float64 : G -> f64 * G;
  NormFloat64 : G -> f64 * G;
  IntN : Z -> G -> Z * G
}.

(** The ranges its documentation states. *)
Class SourceLaws (G : Type) `{Source G} := {
  Float64_unit : forall g, f64_leb f64_zero (Float64 g).1 = true /\ f64_ltb (Float64 g).1 (f64_of_Z 1) = true;
  IntN_range : forall m g, 0 < m -> 0 <= (IntN m g).1 < m
}.

Section Plan.
Context {G : Type} `{Source G} (Log Exp : f64 -> f64).

Definition params (d : Dist) : f64 * f64 :=
  let sigma :=
    if f64_ltb (Mean d) (P95 d) then
      let disc := f64_sub z95_squared (f64_mul (f64_of_Z 2) (Log (f64_div (P95 d) (Mean d)))) in
      if f64_ltb f64_zero disc then f64_sub z95 (f64_sqrt disc) else z95
    else f64_zero in
  (f64_sub (Log (Mean d)) (f64_div (f64_mul sigma sigma) (f64_of_Z 2)), sigma).

Definition sample (d : Dist) (g : G) : f64 * G :=
  if f64_leb (Mean d) f64_zero then (f64_zero, g)
  else
    let '(mu, sigma) := params d in
    let '(z, g) := NormFloat64 g in
    (Exp (f64_add mu (f64_mul sigma z)), g).

(** One word and the gap before it, [k] times. *)
Fixpoint draw_words (o : Options) (k : nat) (g : G) : list string * list Duration :=
  match k with
  | O => ([], [])
  | S k =>
      let '(i, g) := IntN (Z.of_nat (length wordlist)) g in
      let '(x, g) := sample (ITL (Profile_ o)) g in
      let '(ws, gaps) := draw_words o k g in
      (default "" (wordlist !! Z.to_nat i) :: ws, scale o x :: gaps)
  end.

Definition newPlan (o : Options) (num : Z) : plan :=
  let seed := wrapu64 (Z.lxor (Seed o) num) in
  let g := NewPCG seed seed in
  let '(u, g) := Float64 g in
  let mode :=
    if f64_ltb u (Fail429 o) then fail429
    else if f64_ltb u (f64_add (Fail429 o) (FailHang o)) then failHang
    else if f64_ltb u (f64_add (f64_add (Fail429 o) (FailHang o)) (FailCut o)) then failCut
    else failNone in
  let '(tokens, g) := sample (OutputTokens (Profile_ o)) g in
  let k := Z.max 1 (f64_to_int64 (f64_round tokens)) in
  let '(first, g) := sample (TTFT (Profile_ o)) g in
  let '(ws, gaps) := draw_words o (Z.to_nat k) g in
  mkPlan num mode (scale o first) ws gaps.
End Plan.

(** ** Requests and what is written *)

Record chatMessage := mkChatMessage { CRole : string; CContent : string }.
Definition zeroChatMessage : chatMessage := mkChatMessage "" "".
Record chatRequest := mkChatRequest { Model : string; Messages : slice chatMessage; Stream : bool }.

Definition dec_chatMessage : decoder chatMessage := dec_struct
  [("role", at_field CRole (fun v m => mkChatMessage v (CContent m)) dec_string);
   ("content", at_field CContent (fun v m => mkChatMessage (CRole m) v) dec_string)]%string.

Definition dec_chatRequest : decoder chatRequest := dec_struct
  [("model", at_field Model (fun v r => mkChatRequest v (Messages r) (Stream r)) dec_string);
   ("messages", at_field Messages (fun v r => mkChatRequest (Model r) v (Stream r))
                  (dec_slice zeroChatMessage dec_chatMessage));
   ("stream", at_field Stream (fun v r => mkChatRequest (Model r) (Messages r) v) dec_bool)]%string.

(** What the decoder could read: a body, of which it takes the first value, or
    the limit or an error of the connection before a value ended. *)
Inductive body_read := Body (raw : string) | OverLimit | Broken.

Definition decodeRequest (raw : string) : option chatRequest :=
  match decode_first raw with
  | None => None
  | Some (_, rest) =>
      let '(r, ok) := dec_chatRequest (consumed (skip_ws raw) rest) (mkChatRequest "" nil_slice false) in
      if ok then Some r else None
  end.

Record chatDelta := mkDelta { DRole : string; DContent : string }.

Definition delta_text (d : chatDelta) : string := struct_text
  (omit (bool_decide (DRole d = ""%string)) "role" (quote (DRole d))
   ++ omit (bool_decide (DContent d = ""%string)) "content" (quote (DContent d))).

(** The delta of the [i]-th word. *)
Definition word_delta (i : nat) (w : string) : chatDelta :=
  match i with O => mkDelta roleAssistant w | S _ => mkDelta "" (" " +:+ w) end.

(** How a stream ended: with [[DONE]], with the connection dropped on purpose,
    or because the client was gone. *)
Inductive stream_end := Whole | Cut | Left_.

Inductive reply :=
| Answered (status : Z) (headers : list (string * string)) (text : string)
| Streamed (frames : list string) (how : stream_end)
| Dropped    (* closed with nothing written *)
| Silent.    (* the client was gone before anything was written *)

(** [sleepCtx]'s answer for the [i]-th sleep, and whether the [i]-th event was
    written and flushed. *)
Record env := mkEnv {
  created : Z; awake : nat -> bool; takes : nat -> bool; decode_error : string
}.

Definition json_type : list (string * string) := [("Content-Type", "application/json")]%string.

Definition errorText (msg typ code : string) : string := struct_text
  [("error", struct_text [("message", quote msg); ("type", quote typ); ("param", "null"); ("code", quote code)])]%string.
Definition writeError (before : list (string * string)) (status : Z) (msg typ code : string) : reply :=
  Answered status (before ++ json_type) (errorText msg typ code +:+ newline).

Definition usage_of (r : chatRequest) (p : plan) : Usage :=
  let promptChars := foldl (fun acc m => acc +i Z.of_nat (String.length (CContent m))) 0 (slice_list (Messages r)) in
  let prompt := promptChars / promptCharsPerToken in
  let completion := Z.of_nat (length (words p)) in
  mkUsage prompt completion (prompt +i completion).

Definition completeChat (v : env) (model : string) (p : plan) (u : Usage) : reply :=
  if negb (awake v 0) then Silent
  else if bool_decide (fail p = failCut) then Dropped
  else Answered 200 json_type
         (completion_text (id p) model (Join (words p) " ") finishStop (created v) u +:+ newline).

Definition word_chunk (v : env) (model : string) (p : plan) (i : nat) (w : string) : string :=
  chunk_text (id p) model (delta_text (word_delta i w)) (created v) None None.
Definition final_chunk (v : env) (model : string) (p : plan) (u : Usage) : string :=
  chunk_text (id p) model (delta_text (mkDelta "" "")) (created v) (Some finishStop) (Some u).

(** The loop over the words: the events written, and whether it ran to its end. *)
Fixpoint emit (v : env) (model : string) (p : plan) (i : nat) (ws : list string) : list string * bool :=
  match ws with
  | [] => ([], true)
  | w :: ws =>
      if (0 <? i)%nat && negb (awake v i) then ([], false)
      else if negb (takes v i) then ([], false)
      else let '(frames, ok) := emit v model p (S i) ws in (word_chunk v model p i w :: frames, ok)
  end.

Definition streamChat (v : env) (model : string) (p : plan) (u : Usage) : reply :=
  if negb (awake v 0) then Streamed [] Left_
  else
    let k := length (words p) in
    let cut := bool_decide (fail p = failCut) in
    let '(frames, ok) := emit v model p 0 (take (if cut then k / 2 else k)%nat (words p)) in
    if negb ok then Streamed frames Left_
    else if cut then Streamed frames Cut
    else if negb (takes v k) then Streamed frames Left_
    else if negb (takes v (S k)) then Streamed (frames ++ [final_chunk v model p u]) Left_
    else Streamed (frames ++ [final_chunk v model p u; doneEvent]) Whole.

(** ** Handlers *)

(** A request is answered, or holds its connection open in a slot. *)
Inductive chat_result := Replied (r : reply) | Hangs.

Definition with_next (k : Z) (s : Server) : Server := mkServer (opts s) k (hanging s).
Definition with_hanging (k : Z) (s : Server) : Server := mkServer (opts s) (next s) k.

(** [hang] up to the sleep. *)
Definition hang (s : Server) : Server * chat_result :=
  if hanging s <? MaxConcurrentHangs (opts s) then (with_hanging (hanging s + 1) s, Hangs)
  else (s, Replied (writeError [] 503 "simulated hang capacity exhausted" "server_error" "hang_capacity_exhausted")).

(** The rest of it: the slot is given back, and the connection dropped if it was
    the timeout that ended the sleep. *)
Definition unhang (elapsed : bool) (s : Server) : Server * reply :=
  (with_hanging (hanging s - 1) s, if elapsed then Dropped else Silent).

Section Handlers.
Context {G : Type} `{Source G} (Log Exp : f64 -> f64).

Definition handleChat (s : Server) (v : env) (b : body_read) : Server * chat_result :=
  match b with
  | OverLimit =>
      (s, Replied (writeError [] 413 ("request body exceeds " +:+ Itoa maxRequestBodyBytes +:+ " bytes")
                     "invalid_request_error" "request_too_large"))
  | Broken =>
      (s, Replied (writeError [] 400 ("invalid request body: " +:+ decode_error v)
                     "invalid_request_error" "invalid_request_error"))
  | Body raw =>
      match decodeRequest raw with
      | None =>
          (s, Replied (writeError [] 400 ("invalid request body: " +:+ decode_error v)
                         "invalid_request_error" "invalid_request_error"))
      | Some req =>
          let p := newPlan Log Exp (opts s) (next s) in
          let s := with_next (wrap64 (next s + 1)) s in
          match fail p with
          | fail429 =>
              (s, Replied (writeError [("Retry-After", retryAfterSeconds)]%string 429
                             "simulated rate limit exceeded" "rate_limit_exceeded" "rate_limit_exceeded"))
          | failHang => hang s
          | _ =>
              let u := usage_of req p in
              (s, Replied (if Stream req then streamChat v (Model req) p u
                           else completeChat v (Model req) p u))
          end
      end
  end.

Definition handleModels (s : Server) (v : env) : reply :=
  Answered 200 json_type
    (struct_text [("object", quote "list");
                  ("data", array_text [struct_text
                     [("id", quote (PrName (Profile_ (opts s)))); ("object", quote "model");
                      ("created", Itoa (created v)); ("owned_by", quote ownerName)]])]%string +:+ newline).

Definition handleHealth : reply :=
  Answered 200 [("Content-Type", "text/plain; charset=utf-8")]%string ("ok" +:+ newline).

(** The patterns of [New]; one for GET also serves HEAD.  What the mux answers
    itself is given by its status. *)
Definition ServeHTTP (s : Server) (method path : string) (v : env) (b : body_read) : Server * (chat_result + Z) :=
  let get r := if bool_decide (method ∈ ["GET"; "HEAD"]%string) then (s, inl (Replied r)) else (s, inr 405) in
  if bool_decide (path = "/v1/chat/completions"%string)
  then if bool_decide (method = "POST"%string)
       then let '(s, r) := handleChat s v b in (s, inl r)
       else (s, inr 405)
  else if bool_decide (path = "/v1/models"%string) then get (handleModels s v)
  else if bool_decide (path = "/healthz"%string) then get handleHealth
  else (s, inr 404).
End Handlers.

(** [run] of cmd/llmsim up to the listener: [profile] is the flag, and the file
    it names. *)
Definition run (seed : Z) (profile : option (option string)) (timeScale f429 fHang fCut : f64)
    : Server + profile_error :=
  match match profile with None => inl DefaultProfile | Some file => LoadProfile file end with
  | inr e => inr e
  | inl p => inl (New (mkOptions seed p timeScale f429 fHang fCut 0))
  end.

(** ** What the adapter reads of it *)

(** What the client's side of the connection holds: the frames, and how the
    body ends, [io.EOF] after the last chunk of a response that was finished. *)
Definition frames_body (frames : list string) (e : goerror) : body :=
  mkBody (concat (sseFrame ∘ payload <$> frames)) e.
Definition text_body (text : string) : body := mkBody (payload text) (ErrSentinel IoEOF).

(** A client that stays and takes everything. *)
Definition stays (v : env) : Prop := forall i, awake v i = true /\ takes v i = true.

(** The chunks of the words. *)
Definition word_chunks (v : env) (model : string) (p : plan) (ws : list string) : list string :=
  imap (word_chunk v model p) ws.

Definition contents (ws : list string) : string := String.concat "" (DContent <$> imap word_delta ws).

(** Plans whose texts fit an event: their words are the list's, and the name of
    the model is at most a hundred thousand bytes. *)
Definition plain_plan (p : plan) : Prop := is_int64 (n p) /\ Forall (fun w => w ∈ wordlist) (words p).
Definition short (model : string) : Prop := Z.of_nat (String.length model) <= 100000.

Lemma emit_all v model p i ws : stays v ->
  emit v model p i ws = (imap (fun j => word_chunk v model p (i + j)) ws, true).
Proof.
  intros St. revert i. induction ws as [|w ws IH]; intros i; [done|]. cbn [emit].
  destruct (St i) as [-> ->]. rewrite andb_false_r. cbn [negb]. rewrite IH. rewrite imap_cons.
  rewrite Nat.add_0_r. do 2 f_equal. apply imap_ext. intros j x _. cbn. by rewrite Nat.add_succ_r.
Qed.

Lemma emit_words v model p ws : stays v -> emit v model p 0 ws = (word_chunks v model p ws, true).
Proof. intros St. by rewrite emit_all. Qed.

Lemma later_contents ws : DContent <$> imap (word_delta ∘ S) ws = (fun w => " " +:+ w) <$> ws.
Proof.
  transitivity (DContent <$> imap (fun _ w => mkDelta "" (" " +:+ w)) ws); [done|].
  induction ws as [|w ws IH]; [done|]. rewrite imap_cons, !fmap_cons. f_equal. exact IH.
Qed.

Lemma contents_join ws : contents ws = Join ws " ".
Proof.
  unfold contents. destruct ws as [|w ws]; [done|]. rewrite imap_cons, fmap_cons, later_contents, str_concat_cons.
  cbn [word_delta DContent]. revert w. induction ws as [|x ws IH]; intros w; [apply str_app_empty|].
  rewrite fmap_cons, str_concat_cons, str_app_assoc, IH. done.
Qed.

(** *** Deltas and chunks as texts *)

Lemma word_delta_reads d : exists j, forall k, reads_as (S k) (delta_text d) j.
Proof.
  exists (JObj (member_unless (bool_decide (DRole d = ""%string)) "role" (JStr (sanitize (DRole d)))
           ++ member_unless (bool_decide (DContent d = ""%string)) "content" (JStr (sanitize (DContent d))))).
  intros k. apply reads_struct, Forall2_app; (apply read_omit; [by vm_compute|apply reads_str]).
Qed.

Lemma one_line_omit drop k t : one_line t -> Forall (fun f : string * string => one_line f.2) (omit drop k t).
Proof. destruct drop; simpl; auto. Qed.

Lemma delta_line d : one_line (delta_text d).
Proof. apply one_line_struct, Forall_app. split; apply one_line_omit, one_line_quote. Qed.

Lemma delta_bound d :
  (String.length (delta_text d) <= 100 + 6 * (String.length (DRole d) + String.length (DContent d)))%nat.
Proof.
  unfold delta_text. etransitivity; [apply struct_bound|].
  pose proof (quote_length (DRole d)). pose proof (quote_length (DContent d)).
  do 2 case_bool_decide; unfold omit, field_bound; simpl in *; lia.
Qed.

Lemma usage_line u : one_line (openAIUsage u).
Proof. apply one_line_struct. each_line. Qed.

Lemma usage_bound u : int64_usage u -> (String.length (openAIUsage u) <= 500)%nat.
Proof.
  intros (H1 & H2 & H3). unfold openAIUsage. etransitivity; [apply struct_bound|].
  pose proof (Itoa_length _ H1). pose proof (Itoa_length _ H2). pose proof (Itoa_length _ H3). simpl. lia.
Qed.

Lemma id_bound p : is_int64 (n p) -> (String.length (quote (id p)) <= 200)%nat.
Proof.
  intros H. pose proof (quote_length (id p)) as Q. pose proof (Itoa_length _ H).
  unfold id, idPrefix in *. rewrite str_app_length in Q. cbn [String.length] in Q. lia.
Qed.

(** A chunk of the simulator is the payload of one event. *)
Lemma chunk_framable p model delta created finish u :
  is_int64 (n p) -> short model -> is_int64 created -> one_line delta -> (String.length delta <= 1000)%nat ->
  (finish = None \/ finish = Some finishStop) -> (forall v, u = Some v -> int64_usage v) ->
  framable (payload (chunk_text (id p) model delta created finish u)).
Proof.
  intros Hn Hm Hc Dl Db Hf Hu. unfold chunk_text. apply struct_framable.
  - assert (C : one_line (array_text [struct_text [("index", Itoa 0); ("delta", delta);
       ("finish_reason", match finish with Some f => quote f | None => "null"%string end)]])).
    { apply one_line_array. each_line. apply one_line_struct. each_line.
      destruct Hf as [-> | ->]; vm_compute; done. }
    apply Forall_app; split; [each_line|]. destruct u; each_line. apply usage_line.
  - etransitivity; [apply Zplus_le_compat_r, inj_le, struct_bound|].
    rewrite sum_list_with_app. cbn [sum_list_with]. unfold field_bound. cbn [fst snd]. rewrite array_bound.
    assert (B : (String.length (struct_text [("index", Itoa 0); ("delta", delta);
       ("finish_reason", match finish with Some f => quote f | None => "null"%string end)]) <= 1300)%nat).
    { etransitivity; [apply struct_bound|]. destruct Hf as [-> | ->]; simpl; lia. }
    assert (U : (sum_list_with field_bound (match u with Some u => [("usage", openAIUsage u)] | None => [] end) <= 600)%nat).
    { destruct u as [u|]; [|simpl; lia]. pose proof (usage_bound u (Hu u eq_refl)).
      cbn [sum_list_with]. unfold field_bound. cbn [fst snd]. change (String.length "usage") with 5%nat. lia. }
    unfold field_bound in U. pose proof (Itoa_length _ Hc) as Lc. pose proof (id_bound p Hn) as Li.
    pose proof (quote_length model) as Lm. unfold short in Hm. clear Dl Db Hf Hu.
    revert B U Lc Li Lm. generalize (String.length (struct_text [("index", Itoa 0); ("delta", delta);
       ("finish_reason", match finish with Some f => quote f | None => "null"%string end)])).
    generalize (String.length (quote (id p))) (String.length (Itoa created)) (String.length (quote model)).
    match goal with |- context [sum_list_with ?f ?l] => generalize (sum_list_with f l) end.
    intros a b c d e B U Lc Li Lm. change (String.length (quote objectChunk)) with 23%nat.
    cbn [String.length]. unfold MaxSSEEventBytes. lia.
Qed.

(** *** The reader over the frames *)

Definition quiet : moment := mkMoment None false.
Definition frame_chunk (d : string) : StreamChunk := mkChunk d (chunk_usage d) false.

Lemma answers_frames prov ds k evs e :
  Forall (fun d => d <> sseDoneSentinel) ds ->
  answers openai_wire prov (replicate (length ds + k) quiet) false
    ((fun d => mkEvent "" d true false) <$> ds ++ evs) e
  = ((fun d => inl (frame_chunk d)) <$> ds)
    ++ answers openai_wire prov (replicate k quiet) false ((fun d => mkEvent "" d true false) <$> evs) e.
Proof.
  induction 1 as [|d ds Hd _ IH]; [done|]. cbn [length Nat.add replicate app]. rewrite !fmap_cons.
  cbn [answers next_answer EvKeepalive]. unfold openai_wire, openai_event at 1. cbn [translate HasData EvData negb].
  rewrite bool_decide_false by done. cbn [closed_meanwhile quiet app]. f_equal. exact IH.
Qed.

Lemma recvs_frames prov ds last k e :
  Forall (fun d => framable (payload d)) (ds ++ last) -> Forall (fun d => d <> sseDoneSentinel) ds ->
  recvs openai_wire (replicate (length ds + k) quiet) (newStreamReader prov (frames_body (ds ++ last) e))
  = ((fun d => inl (frame_chunk d)) <$> ds)
    ++ answers openai_wire prov (replicate k quiet) false ((fun d => mkEvent "" d true false) <$> last) e.
Proof.
  intros F D. unfold newStreamReader. rewrite recvs_live. unfold frames_body. cbn [unread].
  assert (E : concat (sseFrame ∘ payload <$> (ds ++ last)) = concat (item_bytes <$> (Some ∘ payload <$> (ds ++ last)))).
  { by rewrite <- list_fmap_compose. }
  rewrite E, all_frames.
  2: { intros d Hd. apply list_elem_of_fmap in Hd as (x & [= ->] & Hx).
       rewrite list.Forall_forall in F. by apply F. }
  rewrite <- answers_frames by done. f_equal. rewrite <- list_fmap_compose.
  apply list_fmap_ext. intros i x _. cbn. by rewrite str_payload.
Qed.

Lemma word_chunk_usage v model p i w : chunk_usage (word_chunk v model p i w) = None.
Proof.
  destruct (word_delta_reads (word_delta i w)) as [j Hj].
  by apply (chunk_usage_read _ _ _ j).
Qed.

Lemma final_chunk_usage v model p u : int64_usage u -> chunk_usage (final_chunk v model p u) = Some u.
Proof.
  intros H. destruct (word_delta_reads (mkDelta "" "")) as [j Hj].
  apply (chunk_usage_read _ _ _ j); [done|]. by intros ? [= <-].
Qed.

Lemma struct_not_done fs : struct_text fs <> sseDoneSentinel.
Proof. done. Qed.

Lemma wordlist_short w : w ∈ wordlist -> (String.length w <= 8)%nat.
Proof.
  intros H. unfold wordlist in H. repeat (apply elem_of_cons in H as [->|H]; [simpl; lia|]).
  by apply not_elem_of_nil in H.
Qed.

Lemma word_framable v model p i w :
  plain_plan p -> short model -> is_int64 (created v) -> w ∈ wordlist ->
  framable (payload (word_chunk v model p i w)).
Proof.
  intros [Hn _] Hm Hc Hw. unfold word_chunk.
  apply chunk_framable; [exact Hn|exact Hm|exact Hc|apply delta_line| |by left|by intros ? [=]].
  etransitivity; [apply delta_bound|]. apply wordlist_short in Hw.
  destruct i; unfold word_delta, roleAssistant; cbn [DRole DContent]; [|rewrite str_app_length];
    cbn [String.length]; lia.
Qed.

Lemma final_framable v model p u :
  plain_plan p -> short model -> is_int64 (created v) -> int64_usage u -> framable (payload (final_chunk v model p u)).
Proof.
  intros [Hn _] Hm Hc Hu. unfold final_chunk.
  apply chunk_framable; [exact Hn|exact Hm|exact Hc|apply delta_line|vm_compute; lia|by right|].
  by intros ? [= <-].
Qed.

Lemma words_framable v model p ws :
  plain_plan p -> short model -> is_int64 (created v) -> Forall (fun w => w ∈ wordlist) ws ->
  Forall (fun d => framable (payload d)) (word_chunks v model p ws) /\
  Forall (fun d => d <> sseDoneSentinel) (word_chunks v model p ws).
Proof.
  intros Hp Hm Hc Hw. rewrite !list.Forall_forall in *. unfold word_chunks.
  split; intros d (i & w & -> & Hi)%elem_of_lookup_imap; [|apply struct_not_done].
  apply word_framable; auto. apply Hw. by eapply list_elem_of_lookup_2.
Qed.

Lemma words_chunked v model p ws :
  ((fun d => inl (frame_chunk d)) <$> word_chunks v model p ws)
  = ((fun d => inl (mkChunk d None false)) <$> word_chunks v model p ws) :> list (StreamChunk + goerror).
Proof.
  apply list_fmap_ext. intros i d Hd. unfold word_chunks in Hd. rewrite list_lookup_imap in Hd.
  destruct (ws !! i) as [w|]; [|done]. injection Hd as <-. unfold frame_chunk. by rewrite word_chunk_usage.
Qed.

Lemma done_framable : framable (payload doneEvent).
Proof.
  split_and!; [|done|vm_compute; discriminate]. apply payload_one_line. done.
Qed.

(** *** Plans *)

Section PlanFacts.
Context {G : Type} `{SourceLaws G} (Log Exp : f64 -> f64).

Lemma draw_words_spec o k g :
  let '(ws, gaps) := draw_words Log Exp o k g in
  length ws = k /\ length gaps = k /\ Forall (fun w => w ∈ wordlist) ws.
Proof.
  revert g. induction k as [|k IH]; intros g; [by split_and!|]. cbn [draw_words].
  pose proof (IntN_range (Z.of_nat (length wordlist)) g ltac:(done)) as R.
  destruct (IntN _ g) as [i g1]. cbn [fst] in R. destruct (sample Log Exp _ g1) as [x g2].
  specialize (IH g2). destruct (draw_words Log Exp o k g2) as [ws gaps]. destruct IH as (L1 & L2 & F).
  split_and!; [simpl; lia..|]. constructor; [|done].
  destruct (lookup_lt_is_Some_2 wordlist (Z.to_nat i)) as [w Hw]; [lia|]. rewrite Hw.
  by eapply list_elem_of_lookup_2.
Qed.

(** Every plan says something: as many words as gaps, at least one, all of the
    list's. *)
Lemma newPlan_spec o num :
  let p := newPlan Log Exp o num in
  n p = num /\ length (words p) = length (itl p) /\ 1 <= Z.of_nat (length (words p)) <= max_int64 /\
  Forall (fun w => w ∈ wordlist) (words p).
Proof.
  unfold newPlan. destruct (Float64 _) as [u g1]. destruct (sample Log Exp _ g1) as [tokens g2].
  destruct (sample Log Exp _ g2) as [first g3].
  set (k := Z.max 1 (f64_to_int64 (f64_round tokens))).
  pose proof (draw_words_spec o (Z.to_nat k) g3) as D.
  destruct (draw_words Log Exp o (Z.to_nat k) g3) as [ws gaps]. destruct D as (L1 & L2 & F).
  cbn [n words itl]. rewrite L1, L2. split_and!; [done|done|unfold k; lia| |done].
  pose proof (f64_to_int64_range (f64_round tokens)) as R. unfold is_int64, max_int64 in *. unfold k. lia.
Qed.

Lemma usage_of_int64 r p : Z.of_nat (length (words p)) <= max_int64 -> int64_usage (usage_of r p).
Proof.
  intros L. unfold usage_of, int64_usage. cbn [PromptTokens CompletionTokens TotalTokens].
  split_and!; [|unfold is_int64, min_int64, max_int64 in *; lia|apply wrap64_range].
  assert (R : forall l acc, is_int64 acc ->
    is_int64 (foldl (fun acc m => acc +i Z.of_nat (String.length (CContent m))) acc l)).
  { induction l as [|m l IH]; intros acc Ha; [done|]. apply IH, wrap64_range. }
  specialize (R (slice_list (Messages r)) 0 ltac:(done)). revert R.
  generalize (foldl (fun acc m => acc +i Z.of_nat (String.length (CContent m))) 0 (slice_list (Messages r))).
  unfold is_int64, min_int64, max_int64, promptCharsPerToken. intros z R.
  pose proof (Z.div_le_mono (- 2 ^ 63) z 4). pose proof (Z.div_le_mono z (2 ^ 63 - 1) 4).
  change (- 2 ^ 63 / 4) with (- 2 ^ 61) in *. change ((2 ^ 63 - 1) / 4) with (2 ^ 61 - 1) in *. lia.
Qed.

(** What decides the mode, when nothing is asked for. *)
Lemma no_failures o num :
  Fail429 o = f64_zero -> FailHang o = f64_zero -> FailCut o = f64_zero -> fail (newPlan Log Exp o num) = failNone.
Proof.
  intros E1 E2 E3. unfold newPlan.
  pose proof (Float64_unit (NewPCG (wrapu64 (Z.lxor (Seed o) num)) (wrapu64 (Z.lxor (Seed o) num)))) as [U _].
  destruct (Float64 _) as [u g1]. cbn [fst] in U. destruct (sample Log Exp _ g1) as [tokens g2].
  destruct (sample Log Exp _ g2) as [first g3]. destruct (draw_words _ _ _ _ _). cbn [fail].
  rewrite E1, E2, E3. change (f64_add f64_zero f64_zero) with f64_zero.
  change (f64_add f64_zero f64_zero) with f64_zero. by rewrite (f64_leb_not_ltb _ _ U).
Qed.
End PlanFacts.

(** ** Properties *)

(** (C30) What the simulator streams is what the gateway reads: to a client that
    stays, a plan that is not cut is streamed to its end, and the adapter's
    reader over those bytes gives one chunk per word, in order and byte for
    byte, none of them claiming a usage, then one that bills what the plan
    says, then the end of the answer; and the contents of the deltas, put
    together, are the text a call that does not stream is answered with. *)
Theorem simulated_stream_crosses v model p u prov :
  stays v -> fail p <> failCut -> plain_plan p -> short model -> is_int64 (created v) -> int64_usage u ->
  exists frames, streamChat v model p u = Streamed frames Whole /\
    recvs openai_wire (replicate (length (words p) + 2) quiet)
      (newStreamReader prov (frames_body frames (ErrSentinel IoEOF)))
    = ((fun d => inl (mkChunk d None false)) <$> word_chunks v model p (words p))
      ++ [inl (mkChunk (final_chunk v model p u) (Some u) false); inr (ErrSentinel IoEOF)] /\
    contents (words p) = Join (words p) " ".
Proof.
  intros St Hf Hp Hm Hc Hu. unfold streamChat. destruct (St 0%nat) as [-> _].
  rewrite bool_decide_false by done. rewrite take_ge by done. rewrite emit_words by done. cbn [negb].
  destruct (St (length (words p))) as [_ ->]. destruct (St (S (length (words p)))) as [_ ->].
  eexists. split_and!; [reflexivity| |apply contents_join].
  destruct (words_framable v model p (words p)) as [F D]; [done..|by destruct Hp|].
  replace (length (words p)) with (length (word_chunks v model p (words p))) by apply length_imap.
  rewrite recvs_frames; [|apply Forall_app; split; [done|]|done].
  - rewrite words_chunked. f_equal. rewrite <- (final_chunk_usage v model p u) by done. reflexivity.
  - constructor; [by apply final_framable|]. constructor; [apply done_framable|constructor].
Qed.

(** A cut is never passed off as an answer: of a plan that is cut, the
    first half of the words is streamed and the connection dropped, and
    whatever error the transport makes of that, the adapter's reader gives
    exactly those chunks and then an error that is not the end of the answer;
    a call that does not stream is dropped with nothing written. *)
Theorem cut_stream_is_truncated v model p u prov e :
  stays v -> fail p = failCut -> plain_plan p -> short model -> is_int64 (created v) ->
  let half := take (length (words p) / 2) (words p) in
  streamChat v model p u = Streamed (word_chunks v model p half) Cut /\
  (exists err,
    recvs openai_wire (replicate (length half + 1) quiet)
      (newStreamReader prov (frames_body (word_chunks v model p half) e))
    = ((fun d => inl (mkChunk d None false)) <$> word_chunks v model p half) ++ [inr err] /\
    errors_Is err IoEOF = false) /\
  completeChat v model p u = Dropped.
Proof.
  intros St Hf Hp Hm Hc half. split_and!.
  - unfold streamChat. destruct (St 0%nat) as [-> _]. rewrite bool_decide_true by done.
    fold half. by rewrite emit_words.
  - assert (Hh : Forall (fun w => w ∈ wordlist) half) by (apply Forall_take; apply Hp).
    destruct (words_framable v model p half) as [F D]; [done..|].
    exists (ending openai_wire prov false quiet e). split; [|by apply ending_not_eof].
    replace (length half) with (length (word_chunks v model p half)) by apply length_imap.
    rewrite <- (app_nil_r (word_chunks v model p half)) at 2.
    rewrite recvs_frames; [|by rewrite app_nil_r|done]. by rewrite words_chunked.
  - unfold completeChat. destruct (St 0%nat) as [-> _]. by rewrite bool_decide_true.
Qed.

Definition http_of (r : reply) : http_outcome :=
  match r with
  | Answered status _ text => Response status (text_body text) None
  | _ => Undelivered (ErrOpaque "EOF") None
  end.

Lemma completion_line_usage id model content finish created u :
  int64_usage u -> answer_usage (completion_text id model content finish created u +:+ newline) = u.
Proof.
  intros H. destruct enough_depth as [d E].
  pose proof (completion_fields d id model content finish created u) as F. rewrite <- E in F.
  assert (R : reads_as maxNestingDepth (completion_text id model content finish created u)
                (JObj (completion_members id model content finish created u))).
  { replace maxNestingDepth with (S (pred maxNestingDepth)) by (rewrite contentDepth_spec; done).
    rewrite E. apply completion_reads. }
  pose proof (reads_parse_line _ _ R) as P. unfold answer_usage. rewrite P. unfold dec_struct at 1.
  unfold tree_of. rewrite P. cbn [default]. unfold completion_text. rewrite (members_line _ _ F).
  do 5 (rewrite dec_fields_miss by reflexivity).
  erewrite dec_fields_hit; [|reflexivity|apply at_field_eq, dec_openAIUsage; done]. done.
Qed.

(** What the simulator answers is what the gateway bills: a call that does not
    stream gets the plan's words, and the adapter relays the simulator's bytes
    as they are under the model that was asked for, billing exactly the usage
    that was computed for the request. *)
Theorem simulated_answer_is_billed v model p u req prov do :
  stays v -> fail p <> failCut -> int64_usage u ->
  Z.of_nat (String.length (completion_text (id p) model (Join (words p) " ") finishStop (created v) u)) < maxResponseBytes ->
  do (request_of prov (ReqRaw req)) = http_of (completeChat v model p u) ->
  exists text, completeChat v model p u = Answered 200 json_type text /\
    Chat prov do req = inl (mkChatResponse (ReqModel req) (name prov) text u).
Proof.
  intros St Hf Hu Hl Hd. unfold completeChat in *. destruct (St 0%nat) as [E _]. rewrite E in Hd |- *.
  rewrite bool_decide_false in Hd |- * by done. cbn [negb] in *. eexists. split; [reflexivity|].
  unfold Chat, post. rewrite Hd. cbn [http_of exchange]. unfold text_body.
  match goal with |- context [payload ?t] => set (text := t) in * end.
  assert (Lt : Z.of_nat (length (payload text)) <= maxResponseBytes).
  { rewrite payload_length. unfold text, newline. rewrite str_app_length. simpl (String.length (String LF "")). lia. }
  cbn [negb Is2xx Z.leb Z.ltb Z.compare Pos.compare Pos.compare_cont andb].
  pose proof (read_answer_spec (name prov) None (mkBody (payload text) (ErrSentinel IoEOF))) as R.
  destruct (read_answer _ _ _) as [t|e].
  - destruct R as (-> & _ & _). cbn [unread]. rewrite str_payload.
    unfold text. rewrite completion_line_usage by done. done.
  - destruct R as [_ [R|R]]; [cbn [unread] in R; lia|done].
Qed.

(** ** Requests coming and going *)

(** The server, the handlers asleep in [hang], and the numbers handed out. *)
Record world := mkWorld { server : Server; asleep : nat; drawn : list Z }.

Section Interleaving.
Context {G : Type} `{Source G} (Log Exp : f64 -> f64).

(** A request comes, or one that hangs leaves: in any order. *)
Inductive sim_step : world -> world -> Prop :=
| step_arrives v b w s r :
    handleChat Log Exp (server w) v b = (s, r) ->
    sim_step w (mkWorld s (match r with Hangs => S (asleep w) | Replied _ => asleep w end)
                  (if decide (next s = next (server w)) then drawn w else drawn w ++ [next (server w)]))
| step_leaves elapsed w k s r :
    asleep w = S k -> unhang elapsed (server w) = (s, r) ->
    sim_step w (mkWorld s k (drawn w)).

Definition numbered (w : world) : Prop :=
  Z.of_nat (length (drawn w)) <= max_int64 ->
  next (server w) = Z.of_nat (length (drawn w)) /\ drawn w = Z.of_nat <$> seq 0 (length (drawn w)).

Definition slots_ok (o : Options) (w : world) : Prop :=
  opts (server w) = o /\ hanging (server w) = Z.of_nat (asleep w) /\ hanging (server w) <= MaxConcurrentHangs o.

(** What a request does to the server. *)
Lemma handleChat_server s v b s' r : handleChat Log Exp s v b = (s', r) ->
  opts s' = opts s /\
  hanging s' = hanging s + (match r with Hangs => 1 | Replied _ => 0 end) /\
  (r = Hangs -> hanging s < MaxConcurrentHangs (opts s)) /\
  (next s' = next s \/ next s' = wrap64 (next s + 1)).
Proof.
  unfold handleChat. destruct b as [raw| |]; try (intros [= <- <-]; split_and!; auto; lia || done).
  destruct (decodeRequest raw) as [req|]; [|intros [= <- <-]; split_and!; auto; lia || done].
  destruct (fail _); try (intros [= <- <-]; cbn; split_and!; auto; lia || done).
  unfold hang. destruct (hanging _ <? _) eqn:E; intros [= <- <-]; cbn in *; bool_to_prop;
    split_and!; auto; lia || done.
Qed.

Lemma sim_step_slots o w w' : sim_step w w' -> slots_ok o w -> slots_ok o w'.
Proof.
  unfold slots_ok. intros [v b x s r E|elapsed x k s r A E] (Ho & Hh & Hm); cbn [server asleep].
  - apply handleChat_server in E as (E1 & E2 & E3 & _). rewrite E1, E2.
    destruct r; [|specialize (E3 eq_refl)]; rewrite Ho in *; split_and!; try done; lia.
  - unfold unhang in E. injection E as <- _. cbn. rewrite A in Hh. split_and!; [done|lia|lia].
Qed.

Lemma sim_step_numbered w w' : sim_step w w' -> numbered w -> numbered w'.
Proof.
  unfold numbered. intros [v b x s r E|elapsed x k s r A E] I; cbn [server drawn].
  - apply handleChat_server in E as (_ & _ & _ & E). case_decide as D; [by rewrite D|].
    rewrite length_app. cbn [length]. rewrite Nat.add_1_r. intros L.
    destruct I as [I1 I2]; [lia|]. destruct E as [E|E]; [done|].
    assert (N : next s = Z.of_nat (S (length (drawn x)))).
    { rewrite E, I1. rewrite wrap64_id; unfold is_int64, min_int64, max_int64 in *; lia. }
    split; [exact N|]. rewrite seq_S, fmap_app, <- I2. cbn. by rewrite I1.
  - unfold unhang in E. injection E as <- _. exact I.
Qed.

(** The simulator never pins more connections than it was told to, and no two
    requests share a plan: however requests come and held connections go, the
    handlers asleep are exactly the slots taken and never more than the bound,
    and the numbers handed out, one to each request that was understood, are
    0, 1, 2 and so on, so that what a request gets depends on its place in the
    order alone. *)
Theorem hangs_are_bounded cfg w :
  rtc sim_step (mkWorld (New cfg) 0 []) w ->
  hanging (server w) = Z.of_nat (asleep w) /\
  hanging (server w) <= MaxConcurrentHangs (opts (New cfg)) /\
  (Z.of_nat (length (drawn w)) <= max_int64 -> drawn w = Z.of_nat <$> seq 0 (length (drawn w))).
Proof.
  intros R. assert (I : slots_ok (opts (New cfg)) w /\ numbered w).
  { revert w R. apply rtc_ind_r.
    - split; [|intros _; done]. split_and!; [done|done|]. cbn. destruct (_ <=? 0) eqn:E; bool_to_prop; [done|lia].
    - intros w1 w2 _ St [I1 I2]. split; [by eapply sim_step_slots|by eapply sim_step_numbered]. }
  destruct I as [(_ & I1 & I2) I3]. split_and!; [done..|]. intros L. by apply I3.
Qed.
End Interleaving.

(** *** Instances *)

Module LlmSimExample.
(** A generator that counts. *)
#[export] Instance counting : Source Z := {
  NewPCG a b := a;
  Float64 g := (f64_ratio (g mod 8) 8, g + 1);
  NormFloat64 g := (f64_zero, g + 1);
  IntN m g := (g mod m, g + 1)
}.
#[export] Instance counting_laws : SourceLaws Z.
Proof.
  split.
  - intros g. cbn. pose proof (Z.mod_pos_bound g 8 ltac:(lia)) as B.
    generalize dependent (g mod 8). intros k B.
    assert (k = 0 \/ k = 1 \/ k = 2 \/ k = 3 \/ k = 4 \/ k = 5 \/ k = 6 \/ k = 7) as X by lia.
    clear B. repeat destruct X as [->|X]; try subst; vm_compute; split; reflexivity.
  - intros m g Hm. cbn. by apply Z.mod_pos_bound.
Qed.

(** [Exp] and [Log] as constants: three tokens from every sample. *)
Definition three (_ : f64) : f64 := f64_of_Z 3.
Definition opts0 (c h : f64) : Options := mkOptions 1 zeroProfile f64_zero f64_zero h c 2.
Definition env0 : env := mkEnv 1700000000 (fun _ => true) (fun _ => true) "".
Definition plan0 : plan := newPlan three three (opts (New (opts0 f64_zero f64_zero))) 0.
Definition cut0 : plan := newPlan three three (opts (New (opts0 (f64_of_Z 1) f64_zero))) 0.
Definition req0 : chatRequest :=
  default (mkChatRequest "" nil_slice false)
    (decodeRequest (quoted "{'model':'m','messages':[{'role':'user','content':'hello, world'}]}")).
Definition usage0 : Usage := usage_of req0 plan0.
Definition read_of (r : reply) : list (StreamChunk + goerror) :=
  match r with
  | Streamed frames Whole =>
      recvs openai_wire (replicate 5 quiet) (newStreamReader "sim" (frames_body frames (ErrSentinel IoEOF)))
  | _ => []
  end.

Example planned : words plan0 = ["echo"; "golf"; "india"]%string /\ usage0 = mkUsage 3 3 6.
Proof. split; vm_compute; reflexivity. Qed.

Lemma plain0 p : is_int64 (n p) -> words p = ["echo"; "golf"; "india"]%string -> plain_plan p.
Proof. intros Hn Hw. split; [exact Hn|]. rewrite Hw. repeat constructor; unfold wordlist; set_solver. Qed.

Lemma stays0 : stays env0.
Proof. done. Qed.

Example streamed : read_of (streamChat env0 "m" plan0 usage0)
  = [inl (mkChunk (quoted "{'id':'sim-0','object':'chat.completion.chunk','created':1700000000,'model':'m','choices':[{'index':0,'delta':{'role':'assistant','content':'echo'},'finish_reason':null}]}") None false);
     inl (mkChunk (quoted "{'id':'sim-0','object':'chat.completion.chunk','created':1700000000,'model':'m','choices':[{'index':0,'delta':{'content':' golf'},'finish_reason':null}]}") None false);
     inl (mkChunk (quoted "{'id':'sim-0','object':'chat.completion.chunk','created':1700000000,'model':'m','choices':[{'index':0,'delta':{'content':' india'},'finish_reason':null}]}") None false);
     inl (mkChunk (quoted "{'id':'sim-0','object':'chat.completion.chunk','created':1700000000,'model':'m','choices':[{'index':0,'delta':{},'finish_reason':'stop'}],'usage':{'prompt_tokens':3,'completion_tokens':3,'total_tokens':6}}") (Some (mkUsage 3 3 6)) false);
     inr (ErrSentinel IoEOF)].
Proof. vm_compute. reflexivity. Qed.

Lemma simulated_stream_crosses_witness :
  exists frames, streamChat env0 "m" plan0 usage0 = Streamed frames Whole /\
    recvs openai_wire (replicate (length (words plan0) + 2) quiet)
      (newStreamReader "sim" (frames_body frames (ErrSentinel IoEOF)))
    = ((fun d => inl (mkChunk d None false)) <$> word_chunks env0 "m" plan0 (words plan0))
      ++ [inl (mkChunk (final_chunk env0 "m" plan0 usage0) (Some usage0) false); inr (ErrSentinel IoEOF)] /\
    contents (words plan0) = Join (words plan0) " ".
Proof.
  apply (simulated_stream_crosses env0 "m" plan0 usage0 "sim"); [exact stays0| | | | |].
  - vm_compute. discriminate.
  - apply plain0; vm_compute; [split; discriminate|reflexivity].
  - vm_compute. discriminate.
  - vm_compute. split; discriminate.
  - apply usage_of_int64. vm_compute. discriminate.
Defined.

Lemma cut_stream_is_truncated_witness :
  let half := take (length (words cut0) / 2) (words cut0) in
  half = ["echo"]%string /\
  streamChat env0 "m" cut0 usage0 = Streamed (word_chunks env0 "m" cut0 half) Cut /\
  (exists err,
    recvs openai_wire (replicate (length half + 1) quiet)
      (newStreamReader "sim" (frames_body (word_chunks env0 "m" cut0 half) (ErrOpaque "unexpected EOF")))
    = ((fun d => inl (mkChunk d None false)) <$> word_chunks env0 "m" cut0 half) ++ [inr err] /\
    errors_Is err IoEOF = false) /\
  completeChat env0 "m" cut0 usage0 = Dropped.
Proof.
  split; [vm_compute; reflexivity|].
  apply (cut_stream_is_truncated env0 "m" cut0 usage0 "sim" (ErrOpaque "unexpected EOF")); [exact stays0| | | |].
  - vm_compute. reflexivity.
  - apply plain0; vm_compute; [split; discriminate|reflexivity].
  - vm_compute. discriminate.
  - vm_compute. split; discriminate.
Defined.

Definition gateway : provider := newWithProfile "sim" "http://sim/v1" "k" (OpenaiWire.mkProfile "" [] true).
Definition served (_ : http_request) : http_outcome := http_of (completeChat env0 "m" plan0 usage0).

Lemma simulated_answer_is_billed_witness :
  exists text, completeChat env0 "m" plan0 usage0 = Answered 200 json_type text /\
    Chat gateway served (mkRequest "m" false "{}") = inl (mkChatResponse "m" "sim" text usage0).
Proof.
  apply (simulated_answer_is_billed env0 "m" plan0 usage0 (mkRequest "m" false "{}") gateway served).
  - exact stays0.
  - vm_compute. discriminate.
  - apply usage_of_int64. vm_compute. discriminate.
  - vm_compute. reflexivity.
  - reflexivity.
Defined.

(** Two slots, and a third request that is shed. *)
Definition hanging_server : Server := New (opts0 f64_zero (f64_of_Z 1)).
Definition ask : body_read := Body (quoted "{'model':'m'}").
Definition after (k : nat) : Server :=
  Nat.iter k (fun s => (handleChat three three s env0 ask).1) hanging_server.

Example third_is_shed :
  (handleChat three three (after 2) env0 ask).2
  = Replied (writeError [] 503 "simulated hang capacity exhausted" "server_error" "hang_capacity_exhausted").
Proof. vm_compute. reflexivity. Qed.

Definition two_asleep : world := mkWorld (after 2) 2 [0; 1].

Lemma hangs_are_bounded_witness :
  hanging (server two_asleep) = 2 /\ drawn two_asleep = [0; 1] /\
  hanging (server two_asleep) = Z.of_nat (asleep two_asleep) /\
  hanging (server two_asleep) <= MaxConcurrentHangs (opts hanging_server) /\
  (Z.of_nat (length (drawn two_asleep)) <= max_int64 ->
   drawn two_asleep = Z.of_nat <$> seq 0 (length (drawn two_asleep))).
Proof.
  split; [vm_compute; reflexivity|]. split; [reflexivity|].
  apply (hangs_are_bounded three three (opts0 f64_zero (f64_of_Z 1))).
  eapply rtc_l; [apply (step_arrives three three env0 ask _ (after 1) Hangs); vm_compute; reflexivity|].
  eapply rtc_l; [apply (step_arrives three three env0 ask _ (after 2) Hangs); vm_compute; reflexivity|].
  match goal with |- rtc _ ?x ?y => replace x with y by (vm_compute; reflexivity) end. apply rtc_refl.
Defined.
End LlmSimExample.
