(* ===== verification/Samples.v ===== *)
(** * Samples of measurements (cmd/cachestudy/study.go, cmd/calibrate/main.go)

    How the two measuring commands reduce a sample of [float64]s: the sorted
    sample, nearest-rank percentiles, counts against a bound, the extremes, the
    probability that one sample outscores another.  Sorting is [sort.Float64s]:
    NaNs first; where it is free to swap values that compare equal (two zeros of
    different sign) this keeps their order. *)

From Stdlib Require Import ZArith Lia SpecFloat.
From stdpp Require Import base list numbers sorting.
From S2P Require Import Prelude Float64.

Local Open Scope Z_scope.

(** ** Order *)

Definition sample_leb (x y : f64) : bool := f64_is_nan x || f64_leb x y.
Definition sample_le (x y : f64) : Prop := sample_leb x y = true.

#[export] Instance sample_le_dec x y : Decision (sample_le x y).
Proof. unfold sample_le. apply _. Defined.

(** [sort.Float64s]. *)
Definition Float64s (l : list f64) : list f64 := merge_sort sample_le l.

(** ** Statistics (study.go) *)

Definition half : f64 := f64_ratio 1 2.

(** The index a nearest rank comes to, as [int(math.Ceil(q*n)) - 1] clamped. *)
Definition rank_index (q : f64) (n : nat) : nat :=
  let idx := f64_to_int64 (f64_ceil (f64_mul q (f64_of_Z (Z.of_nat n)))) -i 1 in
  let idx := if idx <? 0 then 0 else idx in
  let idx := if Z.of_nat n <=? idx then Z.of_nat n - 1 else idx in
  Z.to_nat idx.

Definition percentile (sorted : list f64) (q : f64) : f64 :=
  match sorted with
  | [] => f64_zero
  | _ => default f64_zero (sorted !! rank_index q (length sorted))
  end.

Definition median (values : list f64) : f64 := percentile (Float64s values) half.

Definition sum (values : list f64) : f64 := foldl f64_add f64_zero values.

Record Stats := mkStats {
  N : Z; Min : f64; P05 : f64; P25 : f64; Median : f64; P75 : f64; P95 : f64; Max : f64; Mean : f64
}.
Definition zeroStats : Stats :=
  mkStats 0 f64_zero f64_zero f64_zero f64_zero f64_zero f64_zero f64_zero f64_zero.

Definition describe (values : list f64) : Stats :=
  match values with
  | [] => zeroStats
  | _ =>
      let sorted := Float64s values in
      let n := Z.of_nat (length sorted) in
      mkStats n (default f64_zero (head sorted))
        (percentile sorted (f64_ratio 5 100)) (percentile sorted (f64_ratio 25 100))
        (percentile sorted half) (percentile sorted (f64_ratio 75 100)) (percentile sorted (f64_ratio 95 100))
        (default f64_zero (last sorted)) (f64_div (sum sorted) (f64_of_Z n))
  end.

Definition countAbove (values : list f64) (bound : f64) : Z :=
  foldl (fun n v => if f64_ltb bound v then n + 1 else n) 0 values.
Definition countBelow (values : list f64) (bound : f64) : Z :=
  foldl (fun n v => if f64_ltb v bound then n + 1 else n) 0 values.

(** [None]: the index of an empty slice panics. *)
Definition minOf (values : list f64) : option f64 :=
  match values with
  | [] => None
  | v :: values => Some (foldl (fun out v => if f64_ltb v out then v else out) v values)
  end.
Definition maxOf (values : list f64) : option f64 :=
  match values with
  | [] => None
  | v :: values => Some (foldl (fun out v => if f64_ltb out v then v else out) v values)
  end.

Definition ratio (part whole : Z) : f64 :=
  if whole =? 0 then f64_zero else f64_div (f64_of_Z part) (f64_of_Z whole).

(** The loops over both samples. *)
Definition wins_over (negative : list f64) (wins : f64) (p : f64) : f64 :=
  foldl (fun wins n => if f64_ltb n p then f64_add wins (f64_of_Z 1)
                       else if f64_eqb p n then f64_add wins half else wins) wins negative.
Definition auc (positive negative : list f64) : f64 :=
  match positive, negative with
  | [], _ | _, [] => f64_zero
  | _, _ =>
      f64_div (foldl (wins_over negative) f64_zero positive)
        (f64_of_Z (Z.of_nat (length positive * length negative)))
  end.

Definition million : f64 := f64_of_Z 1000000.
Definition round6 (v : f64) : f64 := f64_div (f64_round (f64_mul v million)) million.

(** ** Facts *)

Definition no_nan (l : list f64) : Prop := Forall (fun x => f64_is_nan x = false) l.

Lemma f64_leb_rank x y : f64_is_nan x = false -> f64_is_nan y = false -> f64_leb x y = negb (f64_ltb y x).
Proof.
  intros Hx Hy. unfold f64_leb, f64_ltb, SFleb, SFltb, SFcompare.
  destruct x as [[]|[]| |[] m e], y as [[]|[]| |[] m' e']; simpl in *; try done;
    rewrite (Z.compare_antisym e e'); destruct (e ?= e') eqn:E; simpl; try done;
    change (Pos.compare_cont Eq m m') with (Pos.compare m m');
    change (Pos.compare_cont Eq m' m) with (Pos.compare m' m);
    rewrite (Pos.compare_antisym m m'); by destruct (m ?= m')%positive.
Qed.

#[export] Instance sample_le_total : Total sample_le.
Proof.
  intros x y. unfold sample_le, sample_leb. destruct (f64_is_nan x) eqn:X; [by left|].
  destruct (f64_is_nan y) eqn:Y; [by right|]. cbn [orb].
  rewrite !f64_leb_rank by done. destruct (f64_ltb y x) eqn:L; [|by left].
  right. by rewrite (f64_less_asym y x).
Qed.

#[export] Instance sample_le_trans : Transitive sample_le.
Proof.
  intros x y z. unfold sample_le, sample_leb. destruct (f64_is_nan x) eqn:X; [done|].
  destruct (f64_is_nan y) eqn:Y; cbn [orb].
  { unfold f64_leb, SFleb, SFcompare. destruct x as [[]|[]| |[] m e], y; done. }
  destruct (f64_is_nan z) eqn:Z0; cbn [orb].
  { unfold f64_leb at 2, SFleb, SFcompare. destruct y as [[]|[]| |[] m e], z; done. }
  rewrite !f64_leb_rank by done. intros L1%negb_true_iff L2%negb_true_iff.
  apply negb_true_iff. by apply (f64_not_less_trans x y z).
Qed.

Lemma Float64s_perm l : Float64s l ≡ₚ l.
Proof. apply merge_sort_Permutation. Qed.

Lemma elem_of_Float64s x l : x ∈ Float64s l <-> x ∈ l.
Proof. by rewrite Float64s_perm. Qed.

Lemma Float64s_sorted l : StronglySorted sample_le (Float64s l).
Proof. apply StronglySorted_merge_sort; apply _. Qed.

Lemma Float64s_length l : length (Float64s l) = length l.
Proof. by rewrite Float64s_perm. Qed.

Lemma rank_index_lt q n : (0 < n)%nat -> (rank_index q n < n)%nat.
Proof.
  intros H. unfold rank_index. set (i := _ -i 1).
  destruct (i <? 0) eqn:E1; bool_to_prop.
  - destruct (Z.of_nat n <=? 0) eqn:E2; bool_to_prop; lia.
  - destruct (Z.of_nat n <=? i) eqn:E2; bool_to_prop; lia.
Qed.

(** In a sorted list, what comes first is not larger. *)
Lemma sorted_lookup l i j x y :
  StronglySorted sample_le l -> (i <= j)%nat -> l !! i = Some x -> l !! j = Some y -> sample_le x y.
Proof.
  intros F. revert i j. induction F as [|a l F IH A]; intros [|i] [|j] Hij Hx Hy; try done; try lia.
  - simpl in *. simplify_eq. by destruct (total sample_le x x).
  - simpl in *. simplify_eq. rewrite list.Forall_forall in A. apply A. by eapply list_elem_of_lookup_2.
  - apply (IH i j); auto. lia.
Qed.

Lemma countAbove_length values bound :
  countAbove values bound = Z.of_nat (length (base.filter (fun v => f64_ltb bound v = true) values)).
Proof.
  unfold countAbove. assert (G : forall l n, foldl (fun n v => if f64_ltb bound v then n + 1 else n) n l
    = n + Z.of_nat (length (base.filter (fun v => f64_ltb bound v = true) l))); [|apply G].
  induction l as [|v l IH]; intros n; [simpl; lia|]. cbn [foldl]. rewrite IH, filter_cons.
  destruct (f64_ltb bound v); [rewrite decide_True by done; simpl; lia|by rewrite decide_False].
Qed.

(** The loop that keeps the best seen, for a strict order of the numbers. *)
Section Best.
Context (lt : f64 -> f64 -> bool) (lt_irrefl : forall x, lt x x = false).
Context (lt_asym : forall x y, f64_is_nan x = false -> f64_is_nan y = false -> lt x y = true -> lt y x = false).
Context (lt_trans : forall x y z, f64_is_nan x = false -> f64_is_nan y = false -> f64_is_nan z = false ->
  lt y x = false -> lt z y = false -> lt z x = false).

Lemma keep_best l seen out :
  no_nan l -> no_nan seen -> out ∈ seen -> (forall x, x ∈ seen -> lt x out = false) ->
  let m := foldl (fun out v => if lt v out then v else out) out l in
  m ∈ seen ++ l /\ forall x, x ∈ seen ++ l -> lt x m = false.
Proof.
  revert seen out. induction l as [|a l IH]; intros seen out F Fs Ho Hm; [by rewrite app_nil_r|]. cbn [foldl].
  apply list.Forall_cons in F as [Na F].
  replace (seen ++ a :: l) with ((seen ++ [a]) ++ l) by by rewrite <- app_assoc.
  assert (No : f64_is_nan out = false) by (unfold no_nan in Fs; rewrite list.Forall_forall in Fs; by apply Fs).
  assert (Fa : no_nan (seen ++ [a])) by (apply Forall_app; split; [done|by repeat constructor]).
  destruct (lt a out) eqn:L; apply IH; auto; try (apply elem_of_app; (by left) || (right; left)).
  - intros x [Hx|Hx%list_elem_of_singleton]%elem_of_app; [|by subst].
    unfold no_nan in Fs. rewrite list.Forall_forall in Fs. apply (lt_trans _ out); auto.
  - intros x [Hx|Hx%list_elem_of_singleton]%elem_of_app; [by apply Hm|by subst].
Qed.

Lemma best_of_all v l :
  no_nan (v :: l) ->
  let m := foldl (fun out v => if lt v out then v else out) v l in
  m ∈ v :: l /\ forall x, x ∈ v :: l -> lt x m = false.
Proof.
  intros [Nv F]%list.Forall_cons. apply (keep_best l [v]); [done|by repeat constructor|left|].
  by intros x ->%list_elem_of_singleton.
Qed.
End Best.

Lemma minOf_le values m : no_nan values -> minOf values = Some m ->
  m ∈ values /\ forall v, v ∈ values -> f64_ltb v m = false.
Proof.
  destruct values as [|v values]; [done|]. intros F [= <-].
  apply (best_of_all f64_ltb); auto using f64_ltb_irrefl, f64_less_asym.
  intros x y z ???. by apply f64_not_less_trans.
Qed.

Lemma maxOf_ge values m : no_nan values -> maxOf values = Some m ->
  m ∈ values /\ forall v, v ∈ values -> f64_ltb m v = false.
Proof.
  destruct values as [|v values]; [done|]. intros F [= <-].
  apply (best_of_all (fun x y => f64_ltb y x)); auto using f64_ltb_irrefl.
  - intros x y ?? H. by apply f64_less_asym.
  - intros x y z ??? H1 H2. by apply (f64_not_less_trans z y x).
Qed.

(** ** Properties *)

(** A percentile is the [rank_index]-th of the sorted sample: at least as many
    values are not larger, and the rest are not smaller. *)
Lemma percentile_rank values q :
  values <> [] ->
  exists before after, Float64s values = before ++ percentile (Float64s values) q :: after /\
    length before = rank_index q (length values) /\
    Forall (fun x => sample_le x (percentile (Float64s values) q)) before /\
    Forall (sample_le (percentile (Float64s values) q)) after.
Proof.
  intros H. unfold percentile. pose proof (Float64s_length values) as L.
  assert (P : (0 < length values)%nat) by (destruct values; [done|simpl; lia]).
  pose proof (rank_index_lt q (length values) P) as R. rewrite <- L in R |- *.
  destruct (lookup_lt_is_Some_2 (Float64s values) (rank_index q (length (Float64s values)))) as [x Hx];
    [by rewrite L in R |- *|]. pose proof (Float64s_sorted values) as S1.
  destruct (Float64s values) as [|y l] eqn:E; [done|]. rewrite <- E in *. rewrite Hx. cbn [default].
  pose proof Hx as Hl. apply list_elem_of_split_length in Hl as (before & after & Es & Lb).
  exists before, after. split_and!; [done|done| |].
  - apply list.Forall_forall. intros z Hz. apply list_elem_of_lookup in Hz as [i Hi].
    eapply (sorted_lookup _ i (length before)); [exact S1| | |by rewrite <- Lb].
    + apply lookup_lt_Some in Hi. lia.
    + rewrite Es. by apply lookup_app_l_Some.
  - apply list.Forall_forall. intros z Hz. apply list_elem_of_lookup in Hz as [i Hi].
    eapply (sorted_lookup _ (length before) (length before + S i)); [exact S1|lia|by rewrite <- Lb|].
    rewrite Es, lookup_app_r by lia. replace (length before + S i - length before)%nat with (S i) by lia. done.
Qed.

Lemma percentile_in values q : values <> [] -> percentile (Float64s values) q ∈ Float64s values.
Proof.
  intros (before & after & E & _)%(percentile_rank values q). rewrite E at 2.
  apply elem_of_app. right. left.
Qed.

Lemma sorted_ends l x :
  StronglySorted sample_le l -> x ∈ l ->
  default f64_zero (head l) ∈ l /\ default f64_zero (last l) ∈ l /\
  sample_le (default f64_zero (head l)) x /\ sample_le x (default f64_zero (last l)).
Proof.
  intros F Hx. apply list_elem_of_lookup in Hx as [i Hi].
  assert (L : (i < length l)%nat) by by eapply lookup_lt_Some.
  destruct (lookup_lt_is_Some_2 l 0) as [y Hy]; [lia|].
  destruct (lookup_lt_is_Some_2 l (pred (length l))) as [z Hz]; [lia|].
  rewrite head_lookup, last_lookup, Hy, Hz. cbn [default].
  split_and!; [by eapply list_elem_of_lookup_2|by eapply list_elem_of_lookup_2| |].
  - eapply (sorted_lookup l 0 i); eauto. lia.
  - eapply (sorted_lookup l i (pred (length l))); eauto. lia.
Qed.

Definition reported (d : Stats) : list f64 := [Min d; P05 d; P25 d; Median d; P75 d; P95 d; Max d].

(** A summary reports what was scored: of a sample that is not empty, the
    size is its size, every figure but the mean is one of its values, and the
    least and the greatest bound the sample and every percentile reported; an
    empty one is all zeros. *)
Theorem summary_is_of_the_sample values :
  match values with
  | [] => describe values = zeroStats
  | _ =>
      let d := describe values in
      N d = Z.of_nat (length values) /\
      (forall p, p ∈ reported d -> p ∈ values /\ sample_le (Min d) p /\ sample_le p (Max d)) /\
      (forall v, v ∈ values -> sample_le (Min d) v /\ sample_le v (Max d))
  end.
Proof.
  destruct values as [|v0 rest] eqn:E; [done|]. rewrite <- E.
  assert (Hne : values <> []) by by rewrite E.
  assert (Ed : describe values = let sorted := Float64s values in
    let n := Z.of_nat (length sorted) in
    mkStats n (default f64_zero (head sorted))
        (percentile sorted (f64_ratio 5 100)) (percentile sorted (f64_ratio 25 100))
        (percentile sorted half) (percentile sorted (f64_ratio 75 100)) (percentile sorted (f64_ratio 95 100))
        (default f64_zero (last sorted)) (f64_div (sum sorted) (f64_of_Z n))) by by rewrite E.
  pose proof (Float64s_sorted values) as S1.
  assert (Ends : forall x, x ∈ Float64s values -> x ∈ values /\
    sample_le (default f64_zero (head (Float64s values))) x /\ sample_le x (default f64_zero (last (Float64s values)))).
  { intros x Hx. destruct (sorted_ends _ x S1 Hx) as (_ & _ & ? & ?). split; [by apply elem_of_Float64s|done]. }
  cbv zeta. rewrite Ed. cbn [N Min Max]. split_and!.
  - by rewrite Float64s_length.
  - intros p Hp. apply Ends. unfold reported in Hp. cbn [Min P05 P25 Median P75 P95 Max] in Hp.
    destruct (sorted_ends (Float64s values) v0 S1) as (H1 & H2 & _); [apply elem_of_Float64s; rewrite E; left|].
    repeat (apply elem_of_cons in Hp as [->|Hp]; [auto using percentile_in|]). by apply not_elem_of_nil in Hp.
  - intros v Hv. apply Ends. by apply elem_of_Float64s.
Qed.

Module SamplesExample.
Definition scores : list f64 := f64_of_Z <$> [7; 3; 9; 3; 5].

Example medians : median scores = f64_of_Z 5 /\ percentile (Float64s scores) (f64_ratio 95 100) = f64_of_Z 9.
Proof. split; vm_compute; reflexivity. Qed.

Example no_signal : auc scores scores = f64_ratio 1 2.
Proof. vm_compute. reflexivity. Qed.
End SamplesExample.
