(* ===== verification/Corpus.v ===== *)
(** * The labelled corpus (cmd/cachestudy/corpus.go)

    The questions the cache study asks, how they are read, and the checks that
    make their labels trustworthy.  [validate] is shown to accept exactly the
    corpora its comments describe. *)

From Stdlib Require Import ZArith Lia String Ascii.
From stdpp Require Import base gmap strings list numbers.
From S2P Require Import Prelude GoString Json JsonText.

Local Open Scope Z_scope.

(** ** Data *)

Definition corpusSchema : string := "penstock/cache-quality/corpus/v1".

Abbreviation Label := string (only parsing).
Definition LabelRepeat : Label := "repeat".
Definition LabelParaphrase : Label := "paraphrase".
Definition LabelOpposite : Label := "opposite".
Definition LabelUnrelated : Label := "unrelated".

Definition labelOrder : list Label := [LabelRepeat; LabelParaphrase; LabelOpposite; LabelUnrelated].
Definition knownLabels : list Label := labelOrder.

Record Probe := mkProbe { PLabel : Label; Text : string; Flip : string }.
Record Group := mkGroup { ID : string; Domain : string; Anchor : string; Probes_ : slice Probe }.
Record Corpus := mkCorpus { Schema : string; Note : string; Groups_ : slice Group }.

Definition Probes (g : Group) : list Probe := slice_list (Probes_ g).
Definition Groups (c : Corpus) : list Group := slice_list (Groups_ c).

Definition zeroProbe : Probe := mkProbe "" "" "".
Definition zeroGroup : Group := mkGroup "" "" "" nil_slice.
Definition zeroCorpus : Corpus := mkCorpus "" "" nil_slice.

(** ** Reading *)

Definition dec_probe : decoder Probe := dec_struct
  [("label", at_field PLabel (fun v p => mkProbe v (Text p) (Flip p)) dec_string);
   ("text", at_field Text (fun v p => mkProbe (PLabel p) v (Flip p)) dec_string);
   ("flip", at_field Flip (fun v p => mkProbe (PLabel p) (Text p) v) dec_string)]%string.

Definition dec_group : decoder Group := dec_struct
  [("id", at_field ID (fun v g => mkGroup v (Domain g) (Anchor g) (Probes_ g)) dec_string);
   ("domain", at_field Domain (fun v g => mkGroup (ID g) v (Anchor g) (Probes_ g)) dec_string);
   ("anchor", at_field Anchor (fun v g => mkGroup (ID g) (Domain g) v (Probes_ g)) dec_string);
   ("probes", at_field Probes_ (fun v g => mkGroup (ID g) (Domain g) (Anchor g) v)
                (dec_slice zeroProbe dec_probe))]%string.

Definition dec_corpus : decoder Corpus := dec_struct
  [("schema", at_field Schema (fun v c => mkCorpus v (Note c) (Groups_ c)) dec_string);
   ("note", at_field Note (fun v c => mkCorpus (Schema c) v (Groups_ c)) dec_string);
   ("groups", at_field Groups_ (fun v c => mkCorpus (Schema c) (Note c) v)
                (dec_slice zeroGroup dec_group))]%string.

(** ** Checks *)

Inductive probe_error :=
| UnknownLabel (i : nat) (l : Label)
| NoText (i : nat)
| RepeatDiffers
| TextUsed (i : nat) (owner : string)
| NoFlip (i : nat)
| RepeatCount (n : Z)
| NoParaphrase | NoOpposite | NoUnrelated.

Inductive corpus_error :=
| BadSchema (s : string)
| NoGroups
| NoID (i : nat)
| DupID (id : string)
| NoDomain (id : string)
| NoAnchor (id : string)
| AnchorUsed (id owner : string)
| InGroup (id : string) (e : probe_error).

(** A Go map from labels to counts. *)
Definition count_of (counts : gmap string Z) (l : Label) : Z := default 0 (counts !! l).
Definition count_up (l : Label) (counts : gmap string Z) : gmap string Z := <[l := count_of counts l + 1]> counts.

(** The loop of [validateProbes]. *)
Fixpoint probes_loop (g : Group) (i : nat) (ps : list Probe) (seen : gmap string string) (counts : gmap string Z)
    : probe_error + gmap string string * gmap string Z :=
  match ps with
  | [] => inr (seen, counts)
  | p :: ps =>
      if negb (bool_decide (PLabel p ∈ knownLabels)) then inl (UnknownLabel i (PLabel p))
      else if bool_decide (Text p = ""%string) then inl (NoText i)
      else
        let counts := count_up (PLabel p) counts in
        if bool_decide (PLabel p = LabelRepeat) then
          if negb (bool_decide (Text p = Anchor g)) then inl RepeatDiffers
          else probes_loop g (S i) ps seen counts
        else match seen !! Text p with
        | Some owner => inl (TextUsed i owner)
        | None =>
            let seen := <[Text p := ID g]> seen in
            if bool_decide (PLabel p = LabelOpposite) && bool_decide (Flip p = ""%string) then inl (NoFlip i)
            else probes_loop g (S i) ps seen counts
        end
  end.

Definition validateProbes (g : Group) (seen : gmap string string) : probe_error + gmap string string :=
  match probes_loop g 0 (Probes g) seen ∅ with
  | inl e => inl e
  | inr (seen, counts) =>
      if negb (count_of counts LabelRepeat =? 1) then inl (RepeatCount (count_of counts LabelRepeat))
      else if count_of counts LabelParaphrase =? 0 then inl NoParaphrase
      else if count_of counts LabelOpposite =? 0 then inl NoOpposite
      else if count_of counts LabelUnrelated =? 0 then inl NoUnrelated
      else inr seen
  end.

Fixpoint groups_loop (i : nat) (gs : list Group) (seenID : gset string) (seenText : gmap string string)
    : option corpus_error :=
  match gs with
  | [] => None
  | g :: gs =>
      if bool_decide (ID g = ""%string) then Some (NoID i)
      else if bool_decide (ID g ∈ seenID) then Some (DupID (ID g))
      else if bool_decide (Domain g = ""%string) then Some (NoDomain (ID g))
      else if bool_decide (Anchor g = ""%string) then Some (NoAnchor (ID g))
      else match seenText !! Anchor g with
      | Some owner => Some (AnchorUsed (ID g) owner)
      | None =>
          match validateProbes g (<[Anchor g := ID g]> seenText) with
          | inl e => Some (InGroup (ID g) e)
          | inr seenText => groups_loop (S i) gs ({[ID g]} ∪ seenID) seenText
          end
      end
  end.

(** [None] when the corpus is fine. *)
Definition validate (c : Corpus) : option corpus_error :=
  if negb (bool_decide (Schema c = corpusSchema)) then Some (BadSchema (Schema c))
  else match Groups c with
  | [] => Some NoGroups
  | gs => groups_loop 0 gs ∅ ∅
  end.

Inductive load_error := ErrReadCorpus | ErrParseCorpus | ErrCorpus (e : corpus_error).

Definition LoadCorpus (file : option string) : Corpus + load_error :=
  match file with
  | None => inr ErrReadCorpus
  | Some data =>
      match Unmarshal dec_corpus data zeroCorpus with
      | None => inr ErrParseCorpus
      | Some c => match validate c with Some e => inr (ErrCorpus e) | None => inl c end
      end
  end.

(** ** Counts *)

Definition LabelCounts (c : Corpus) : gmap string Z :=
  foldl (fun counts g => foldl (fun counts p => count_up (PLabel p) counts) counts (Probes g)) ∅ (Groups c).
Definition DomainCounts (c : Corpus) : gmap string Z :=
  foldl (fun counts g => count_up (Domain g) counts) ∅ (Groups c).

(** ** What a trustworthy corpus is *)

Definition with_label (l : Label) (ps : list Probe) : list Probe := base.filter (fun p => PLabel p = l) ps.

(** The texts of a group that must be its own: a repeat is its anchor. *)
Definition fresh_texts (ps : list Probe) : list string := Text <$> base.filter (fun p => PLabel p <> LabelRepeat) ps.
Definition questions (g : Group) : list string := Anchor g :: fresh_texts (Probes g).

Record probe_ok (g : Group) (p : Probe) : Prop := {
  label_known : PLabel p ∈ knownLabels;
  text_there : Text p <> ""%string;
  repeat_same : PLabel p = LabelRepeat -> Text p = Anchor g;
  flip_told : PLabel p = LabelOpposite -> Flip p <> ""%string
}.

Record group_ok (g : Group) : Prop := {
  id_there : ID g <> ""%string;
  domain_there : Domain g <> ""%string;
  anchor_there : Anchor g <> ""%string;
  probes_ok : Forall (probe_ok g) (Probes g);
  one_repeat : length (with_label LabelRepeat (Probes g)) = 1%nat;
  some_paraphrase : with_label LabelParaphrase (Probes g) <> [];
  some_opposite : with_label LabelOpposite (Probes g) <> [];
  some_unrelated : with_label LabelUnrelated (Probes g) <> []
}.

Record corpus_ok (c : Corpus) : Prop := {
  schema_ok : Schema c = corpusSchema;
  groups_there : Groups c <> [];
  groups_ok : Forall group_ok (Groups c);
  ids_differ : NoDup (ID <$> Groups c);
  questions_differ : NoDup (concat (questions <$> Groups c))
}.

(** ** Facts *)

Lemma elem_of_concat {A} (x : A) ls : x ∈ concat ls <-> exists l, x ∈ l /\ l ∈ ls.
Proof.
  induction ls as [|l ls IH]; cbn [concat].
  - split; [by intros ?%not_elem_of_nil|]. by intros (l & _ & ?%not_elem_of_nil).
  - rewrite elem_of_app, IH. split.
    + intros [H|(l' & H & Hl)]; [exists l; by split; [|left]|exists l'; by split; [|right]].
    + intros (l' & H & [->|Hl]%elem_of_cons); [by left|right; by exists l'].
Qed.

Lemma count_of_up l l' counts :
  count_of (count_up l counts) l' = count_of counts l' + (if decide (l' = l) then 1 else 0).
Proof.
  unfold count_up. destruct (decide (l' = l)) as [->|H]; unfold count_of at 1.
  - by rewrite lookup_insert_eq.
  - rewrite lookup_insert_ne by done. unfold count_of. lia.
Qed.

Definition fresh_for (seen : gmap string string) (ts : list string) : Prop :=
  NoDup ts /\ forall t, t ∈ ts -> seen !! t = None.

Lemma fresh_for_cons seen t o ts :
  seen !! t = None -> fresh_for (<[t := o]> seen) ts <-> fresh_for seen (t :: ts).
Proof.
  intros Ht. unfold fresh_for. rewrite list.NoDup_cons. split.
  - intros [N F]. split_and!; [|done|].
    + intros Hin. specialize (F t Hin). by rewrite lookup_insert_eq in F.
    + intros u [->|Hu]%elem_of_cons; [done|]. specialize (F u Hu).
      destruct (decide (t = u)) as [->|]; [done|]. by rewrite lookup_insert_ne in F.
  - intros [[Hn N] F]. split; [done|]. intros u Hu. assert (N' : t <> u) by (intros E; by subst).
    rewrite lookup_insert_ne by done. apply F. by right.
Qed.

Lemma probes_loop_spec g i ps seen counts :
  match probes_loop g i ps seen counts with
  | inr (seen', counts') =>
      (Forall (probe_ok g) ps /\ fresh_for seen (fresh_texts ps)) /\
      (forall t, seen' !! t = None <-> seen !! t = None /\ t ∉ fresh_texts ps) /\
      (forall l, count_of counts' l = count_of counts l + Z.of_nat (length (with_label l ps)))
  | inl _ => ~ (Forall (probe_ok g) ps /\ fresh_for seen (fresh_texts ps))
  end.
Proof.
  revert i seen counts. induction ps as [|p ps IH]; intros i seen counts; cbn [probes_loop].
  { split_and!.
    - apply Forall_nil_2.
    - split; [apply NoDup_nil_2|]. intros t Ht. by apply not_elem_of_nil in Ht.
    - intros t. split; [|by intros []]. intros H. split; [done|apply not_elem_of_nil].
    - intros l. simpl. lia. }
  assert (Bad : forall P : Prop, (Forall (probe_ok g) (p :: ps) -> P) ->
            (~ P) -> ~ (Forall (probe_ok g) (p :: ps) /\ fresh_for seen (fresh_texts (p :: ps)))) by tauto.
  assert (Hd : Forall (probe_ok g) (p :: ps) -> probe_ok g p) by (by inversion_clear 1).
  destruct (bool_decide (PLabel p ∈ knownLabels)) eqn:K; bool_to_prop; cbn [negb].
  2: { apply (Bad (PLabel p ∈ knownLabels)); [|done]. intros F. by destruct (Hd F). }
  case_bool_decide as T; [apply (Bad (Text p <> ""%string)); [|tauto]; intros F; by destruct (Hd F)|].
  assert (Cnt : forall l, count_of (count_up (PLabel p) counts) l + Z.of_nat (length (with_label l ps))
            = count_of counts l + Z.of_nat (length (with_label l (p :: ps)))).
  { intros l. rewrite count_of_up. unfold with_label. rewrite filter_cons.
    destruct (decide (l = PLabel p)) as [->|N].
    - rewrite decide_True by done. simpl. lia.
    - rewrite decide_False by congruence. lia. }
  case_bool_decide as R.
  - assert (Ft : fresh_texts (p :: ps) = fresh_texts ps).
    { unfold fresh_texts. rewrite filter_cons, decide_False; [done|tauto]. }
    destruct (bool_decide (Text p = Anchor g)) eqn:A; bool_to_prop; cbn [negb].
    2: { apply (Bad (Text p = Anchor g)); [|done]. intros F. by apply Hd. }
    assert (Ok : probe_ok g p).
    { constructor; try done. intros O. by rewrite O in R. }
    rewrite Ft. specialize (IH (S i) seen (count_up (PLabel p) counts)).
    destruct (probes_loop g (S i) ps seen _) as [e|[seen' counts']].
    + intros [F Fr]. apply IH. split; [by inversion_clear F|done].
    + destruct IH as ([F Fr] & H1 & H2). split_and!; [by constructor|exact Fr|done|].
      intros l. by rewrite H2, Cnt.
  - assert (Ft : fresh_texts (p :: ps) = Text p :: fresh_texts ps).
    { unfold fresh_texts. by rewrite filter_cons, decide_True. }
    rewrite Ft in Bad |- *. destruct (seen !! Text p) as [owner|] eqn:Sn.
    { intros [_ [_ F]]. specialize (F (Text p) ltac:(left)). by rewrite F in Sn. }
    destruct (bool_decide (PLabel p = LabelOpposite) && bool_decide (Flip p = ""%string)) eqn:O.
    { bool_to_prop. apply (Bad (Flip p <> ""%string)); [|tauto]. intros F. by apply Hd. }
    assert (Ok : probe_ok g p).
    { constructor; try done. intros Lo Fe. rewrite !bool_decide_true in O by done. done. }
    specialize (IH (S i) (<[Text p := ID g]> seen) (count_up (PLabel p) counts)).
    pose proof (fresh_for_cons seen (Text p) (ID g) (fresh_texts ps) Sn) as FC.
    destruct (probes_loop g (S i) ps _ _) as [e|[seen' counts']].
    + intros [F Fr]. apply IH. split; [by inversion_clear F|by apply FC].
    + destruct IH as ([F Fr] & H1 & H2). split_and!; [by constructor|by apply FC| |].
      * intros t. rewrite H1, not_elem_of_cons. destruct (decide (t = Text p)) as [->|N].
        -- rewrite lookup_insert_eq. naive_solver.
        -- rewrite lookup_insert_ne by done. naive_solver.
      * intros l. by rewrite H2, Cnt.
Qed.

Lemma with_label_count ps l counts :
  (forall l, count_of counts l = 0 + Z.of_nat (length (with_label l ps))) ->
  (count_of counts l =? 0) = bool_decide (with_label l ps = []).
Proof.
  intros H. rewrite H. destruct (with_label l ps); [done|]. rewrite bool_decide_false by done.
  apply Z.eqb_neq. simpl. lia.
Qed.

(** The probes' part of [group_ok]. *)
Definition probes_fine (g : Group) : Prop :=
  Forall (probe_ok g) (Probes g) /\ length (with_label LabelRepeat (Probes g)) = 1%nat /\
  with_label LabelParaphrase (Probes g) <> [] /\ with_label LabelOpposite (Probes g) <> [] /\
  with_label LabelUnrelated (Probes g) <> [].

Lemma validateProbes_spec g seen :
  match validateProbes g seen with
  | inr seen' => (probes_fine g /\ fresh_for seen (fresh_texts (Probes g))) /\
      (forall t, seen' !! t = None <-> seen !! t = None /\ t ∉ fresh_texts (Probes g))
  | inl _ => ~ (probes_fine g /\ fresh_for seen (fresh_texts (Probes g)))
  end.
Proof.
  unfold validateProbes, probes_fine. pose proof (probes_loop_spec g 0 (Probes g) seen ∅) as L.
  destruct (probes_loop g 0 (Probes g) seen ∅) as [e|[seen' counts]]; [tauto|].
  destruct L as ([F Fr] & H1 & H2).
  assert (H3 : forall l, count_of counts l = 0 + Z.of_nat (length (with_label l (Probes g)))) by exact H2.
  destruct (count_of counts LabelRepeat =? 1) eqn:R; bool_to_prop; cbn [negb];
    [|intros [(_ & N & _) _]; apply R; rewrite H3, N; done].
  rewrite !(with_label_count (Probes g)) by done.
  case_bool_decide; [tauto|]. case_bool_decide; [tauto|]. case_bool_decide; [tauto|].
  split; [|done]. split; [|done]. split_and!; try done. rewrite H3 in R. lia.
Qed.

Definition ids_fresh (seen : gset string) (gs : list Group) : Prop :=
  NoDup (ID <$> gs) /\ forall g, g ∈ gs -> ID g ∉ seen.

Lemma ids_fresh_cons seen g gs :
  ID g ∉ seen -> ids_fresh ({[ID g]} ∪ seen) gs <-> ids_fresh seen (g :: gs).
Proof.
  intros Hg. unfold ids_fresh. rewrite fmap_cons, list.NoDup_cons. split.
  - intros [N F]. split_and!; [|done|].
    + intros (g' & E & Hin)%list_elem_of_fmap. specialize (F g' Hin). set_solver.
    + intros h [->|Hh]%elem_of_cons; [done|]. specialize (F h Hh). set_solver.
  - intros [[Hn N] F]. split; [done|]. intros h Hh. specialize (F h ltac:(by right)).
    intros [E%elem_of_singleton|?]%elem_of_union; [|done]. apply Hn. rewrite <- E. apply list_elem_of_fmap. by exists h.
Qed.

Lemma fresh_for_app seen seen' ts us :
  (forall t, seen' !! t = None <-> seen !! t = None /\ t ∉ ts) -> fresh_for seen ts ->
  fresh_for seen' us <-> fresh_for seen (ts ++ us).
Proof.
  intros H [N F]. unfold fresh_for. rewrite list.NoDup_app. split.
  - intros [Nu Fu]. split_and!; [done| |done|].
    + intros t Ht Hu. specialize (Fu t Hu). apply H in Fu. tauto.
    + intros t [Ht|Ht]%elem_of_app; [by apply F|]. specialize (Fu t Ht). apply H in Fu. tauto.
  - intros [(_ & D & Nu) Fa]. split; [done|]. intros t Ht. apply H. split; [apply Fa, elem_of_app; by right|].
    intros Hin. by apply (D t).
Qed.

Lemma groups_loop_spec i gs seenID seenText :
  groups_loop i gs seenID seenText = None <->
  Forall group_ok gs /\ ids_fresh seenID gs /\ fresh_for seenText (concat (questions <$> gs)).
Proof.
  revert i seenID seenText. induction gs as [|g gs IH]; intros i seenID seenText; cbn [groups_loop].
  { split; [|done]. intros _. split_and!; [apply Forall_nil_2| |].
    - split; [apply NoDup_nil_2|]. intros g Hg. by apply not_elem_of_nil in Hg.
    - split; [apply NoDup_nil_2|]. intros t Ht. by apply not_elem_of_nil in Ht. }
  assert (Hd : Forall group_ok (g :: gs) -> group_ok g) by (by inversion_clear 1).
  case_bool_decide as E1; [split; [done|]; intros (F & _); by destruct (Hd F)|].
  case_bool_decide as E2; [split; [done|]; intros (_ & [_ F] & _); by destruct (F g ltac:(left))|].
  case_bool_decide as E3; [split; [done|]; intros (F & _); by destruct (Hd F)|].
  case_bool_decide as E4; [split; [done|]; intros (F & _); by destruct (Hd F)|].
  rewrite fmap_cons. cbn [concat]. change (questions g ++ ?l) with (Anchor g :: (fresh_texts (Probes g) ++ l)).
  destruct (seenText !! Anchor g) as [owner|] eqn:A.
  { split; [done|]. intros (_ & _ & _ & F). specialize (F (Anchor g) ltac:(left)). by rewrite F in A. }
  rewrite <- (fresh_for_cons seenText (Anchor g) (ID g)) by done. rewrite <- ids_fresh_cons by done.
  pose proof (validateProbes_spec g (<[Anchor g := ID g]> seenText)) as V.
  destruct (validateProbes g _) as [e|seen'].
  - split; [done|]. intros (F & _ & [Fr1 Fr2]). destruct V. apply Hd in F as [].
    split; [by split_and!|]. apply list.NoDup_app in Fr1 as (N & _). split; [done|].
    intros t Ht. apply Fr2, elem_of_app. by left.
  - destruct V as [[(P1 & P2 & P3 & P4 & P5) Fr] Hs]. rewrite IH.
    rewrite (fresh_for_app _ seen' (fresh_texts (Probes g))) by done.
    rewrite list.Forall_cons. split; [|tauto]. intros (? & ? & ?). split_and!; try done.
Qed.

(** *** What was read is valid UTF-8 *)

Lemma dec_string_valid t old : valid_utf8 old -> valid_utf8 (dec_string t old).1.
Proof.
  intros H. unfold dec_string, tree_of. destruct (parse t) as [j|] eqn:E; [|done].
  cbn [default from_option id]. destruct j; try done. apply parse_wf in E. by inversion_clear E.
Qed.

(** Through a field: one the property is about, and one it is not. *)
Lemma field_keeps {A B} (Q : A -> Prop) (P : B -> Prop) (get : A -> B) set (d : decoder B) t v :
  (forall w, P w -> Q (set w v)) -> P (get v) -> (forall old, P old -> P (d t old).1) -> Q (at_field get set d t v).1.
Proof. intros H1 H2 H3. unfold at_field. specialize (H3 _ H2). destruct (d t (get v)). by apply H1. Qed.

Lemma field_apart {A B} (Q : A -> Prop) (get : A -> B) set (d : decoder B) t v :
  (forall w, Q (set w v)) -> Q (at_field get set d t v).1.
Proof. intros H. by apply (field_keeps Q (fun _ => True)). Qed.

Definition utf8_probe (p : Probe) : Prop := valid_utf8 (Text p).
Definition utf8_group (g : Group) : Prop :=
  valid_utf8 (ID g) /\ valid_utf8 (Anchor g) /\ Forall utf8_probe (backing (Probes_ g)).

Ltac each_field Hd :=
  repeat (apply elem_of_cons in Hd as [[= -> ->]|Hd]); [..|by apply not_elem_of_nil in Hd].

Lemma dec_probe_utf8 t p : utf8_probe p -> utf8_probe (dec_probe t p).1.
Proof.
  intros H. apply (dec_struct_keep utf8_probe); [done|]. intros n d k u v Hd _ Hv. each_field Hd.
  - by apply field_apart.
  - by apply (field_keeps _ valid_utf8); [|exact Hv|apply dec_string_valid].
  - by apply field_apart.
Qed.

Lemma dec_group_utf8 t g : utf8_group g -> utf8_group (dec_group t g).1.
Proof.
  intros H. apply (dec_struct_keep utf8_group); [done|]. intros n d k u v Hd _ (V1 & V2 & V3). each_field Hd.
  - by apply (field_keeps _ valid_utf8); [|exact V1|apply dec_string_valid].
  - by apply field_apart.
  - by apply (field_keeps _ valid_utf8); [|exact V2|apply dec_string_valid].
  - apply (field_keeps _ (fun l => Forall utf8_probe (backing l))); [done|exact V3|].
    intros old Ho. apply (dec_slice_keep utf8_probe); [done|exact Ho|]. intros e p _. apply dec_probe_utf8.
Qed.

(** Everything the study asks, and every name it goes by. *)
Lemma loaded_utf8 file c : LoadCorpus file = inl c -> Forall utf8_group (Groups c).
Proof.
  unfold LoadCorpus, Unmarshal. destruct file as [data|]; [|done]. destruct (parse data); [|done].
  assert (K : Forall utf8_group (backing (Groups_ (dec_corpus data zeroCorpus).1))).
  { apply (dec_struct_keep (fun c => Forall utf8_group (backing (Groups_ c)))); [constructor|].
    intros n d k u v Hd _ Hv.
    each_field Hd; [by apply (field_apart (fun c => Forall utf8_group (backing (Groups_ c))))..|].
    apply (field_keeps (fun c => Forall utf8_group (backing (Groups_ c))) (fun l => Forall utf8_group (backing l)));
      [done|exact Hv|]. intros old Ho. apply (dec_slice_keep utf8_group); [by split_and!; [..|constructor]|exact Ho|].
    intros e g _. apply dec_group_utf8. }
  destruct (dec_corpus data zeroCorpus) as [v ok]. destruct ok; [|done]. destruct (validate v); [done|].
  intros [= <-]. by apply Forall_take.
Qed.

(** The checks accept what can be trusted, and nothing else. *)
Lemma validate_ok c : validate c = None <-> corpus_ok c.
Proof.
  unfold validate. destruct (bool_decide (Schema c = corpusSchema)) eqn:E; bool_to_prop; cbn [negb].
  2: { split; [done|]. by intros []. }
  destruct (Groups c) as [|g gs] eqn:G; [split; [done|]; intros []; by rewrite G in *|]. rewrite <- G.
  rewrite groups_loop_spec. split.
  - intros (F & [N _] & [Q _]). constructor; try done. by rewrite G.
  - intros []. split_and!; [done| |].
    + split; [done|]. intros h _. set_solver.
    + split; [done|]. intros t _. apply lookup_empty.
Qed.

(** ** Properties *)

(** (C32) A corpus that loads can be trusted, and one that can be trusted loads: the
    corpora accepted are exactly those the file describes in which every group
    has an id of its own, a domain, an anchor, exactly one repeat, which is the
    anchor byte for byte, and at least one paraphrase, one opposite and one
    unrelated probe, every opposite says which word was flipped, and no question
    of the file, repeats apart, is asked twice; their texts are valid UTF-8. *)
Theorem loads_exactly_the_trustworthy file c :
  LoadCorpus file = inl c <->
  Forall utf8_group (Groups c) /\ corpus_ok c /\
  exists data, file = Some data /\ Unmarshal dec_corpus data zeroCorpus = Some c.
Proof.
  split.
  - intros L. split; [by eapply loaded_utf8|]. revert L. unfold LoadCorpus. destruct file as [data|]; [|done].
    destruct (Unmarshal dec_corpus data zeroCorpus) as [v|] eqn:U; [|done].
    destruct (validate v) eqn:V; [done|]. intros [= <-]. split; [by apply validate_ok|by exists data].
  - intros (_ & Ok & data & -> & U). unfold LoadCorpus. rewrite U. by apply validate_ok in Ok as ->.
Qed.
