(* ===== verification/Study.v ===== *)
(** * The cache study (cmd/cachestudy/study.go)

    The labelled corpus replayed against the gateway's own cache: the request
    bodies, the exact tier, the semantic tier swept over thresholds, and the
    similarities behind it.  The stores are those of [Exact] and [Semantic];
    the vectors and the priced answers are given, and so is the clock, as the
    instant of each call that reads it. *)

From Stdlib Require Import ZArith Lia String Ascii SpecFloat.
From stdpp Require Import base gmap strings list numbers sorting.
From S2P Require Import Prelude Float64 GoString Providers Json JsonText Sha256 Dialect Exact Semantic Lookup Samples Corpus.

Local Open Scope Z_scope.

(** ** Bodies and answers *)

Definition studyTTL : Duration := 24 * Hour.
Definition probeThreshold : f64 := default f64_zero (decimal_in f64_prec f64_emax false 1 (-9)).
Definition cosineTolerance : f64 := probeThreshold.

(** [json.Marshal] of the request: a temperature of 0 is written [0]. *)
Definition buildBody (model question : string) : string := struct_text
  [("model", quote model); ("temperature", "0");
   ("messages", array_text [struct_text [("role", quote "user"); ("content", quote question)]])]%string.

Record storedAnswer := mkAnswer { AGroup : string; Question : string; Completion : string; Tokens : Z }.
Definition zeroAnswer : storedAnswer := mkAnswer "" "" "" 0.

Definition answer_text (a : storedAnswer) : string := struct_text
  ([("group", quote (AGroup a)); ("question", quote (Question a))]%string
   ++ omit (bool_decide (Completion a = ""%string)) "completion" (quote (Completion a))
   ++ omit (Tokens a =? 0) "tokens" (Itoa (Tokens a))).

Definition dec_answer : decoder storedAnswer := dec_struct
  [("group", at_field AGroup (fun v a => mkAnswer v (Question a) (Completion a) (Tokens a)) dec_string);
   ("question", at_field Question (fun v a => mkAnswer (AGroup a) v (Completion a) (Tokens a)) dec_string);
   ("completion", at_field Completion (fun v a => mkAnswer (AGroup a) (Question a) v (Tokens a)) dec_string);
   ("tokens", at_field Tokens (fun v a => mkAnswer (AGroup a) (Question a) (Completion a) v) dec_int)]%string.

Definition decodeAnswer (e : Entry) : option storedAnswer := Unmarshal dec_answer (Body e) zeroAnswer.

Record completion := mkCompletion { CText : string; CTokens : Z }.

(** ** The study *)

Record probeRecord := mkProbeRecord {
  pgroup : Group; label : Label; ptext : string; flip : string; pbody : string; pvector : list f64; tokens : Z
}.
Record anchorRecord := mkAnchorRecord { agroup : Group; abody : string; avector : list f64; entry : Entry }.
Record Study := mkStudy {
  corpus : Corpus; tenant : string; model : string; anchors : list anchorRecord; probes : list probeRecord
}.

Inductive study_error :=
| ErrEmptyPrompt (q : string)
| ErrNotCacheable (r : IneligibleReason)
| ErrNoVector
| ErrKey (e : key_error)
| ErrDecodeAnswer.

(** [promptTexts]: every text once, in corpus order. *)
Definition corpus_questions (c : Corpus) : list string :=
  concat ((fun g => Anchor g :: (Text <$> Probes g)) <$> Groups c).

Fixpoint add_texts (model : string) (qs seen texts : list string) : list string + study_error :=
  match qs with
  | [] => inl texts
  | q :: qs =>
      let text := PromptText (buildBody model q) in
      if bool_decide (text = ""%string) then inr (ErrEmptyPrompt q)
      else if bool_decide (text ∈ seen) then add_texts model qs seen texts
      else add_texts model qs (text :: seen) (texts ++ [text])
  end.
Definition promptTexts (c : Corpus) (model : string) : list string + study_error :=
  add_texts model (corpus_questions c) [] [].

Definition resolve (model question : string) (vectors : gmap string (list f64)) : string * list f64 + study_error :=
  let body := buildBody model question in
  let e := Eligible body DefaultMaxTemperature in
  if negb (Cacheable e) then inr (ErrNotCacheable (Reason e))
  else match vectors !! PromptText body with
  | None => inr ErrNoVector
  | Some v => inl (body, v)
  end.

Section New.
Context (model_ : string) (vectors : gmap string (list f64)) (completions : gmap string completion).

Fixpoint group_probes (g : Group) (ps : list Probe) : list probeRecord + study_error :=
  match ps with
  | [] => inl []
  | p :: ps =>
      match resolve model_ (Text p) vectors with
      | inr e => inr e
      | inl (b, v) =>
          match group_probes g ps with
          | inr e => inr e
          | inl rest =>
              let t := match completions !! Text p with Some c => CTokens c | None => 0 end in
              inl (mkProbeRecord g (PLabel p) (Text p) (Flip p) b v t :: rest)
          end
      end
  end.

Definition answer_of (g : Group) : storedAnswer :=
  match completions !! Anchor g with
  | Some c => mkAnswer (ID g) (Anchor g) (CText c) (CTokens c)
  | None => mkAnswer (ID g) (Anchor g) "" 0
  end.

Definition anchor_of (g : Group) (b : string) (v : list f64) : anchorRecord :=
  mkAnchorRecord g b v (mkEntry (answer_text (answer_of g)) [] zeroUsage f64_zero "cachestudy" model_ 0).

Fixpoint new_groups (gs : list Group) : list anchorRecord * list probeRecord + study_error :=
  match gs with
  | [] => inl ([], [])
  | g :: gs =>
      match resolve model_ (Anchor g) vectors with
      | inr e => inr e
      | inl (b, v) =>
          match group_probes g (Probes g) with
          | inr e => inr e
          | inl ps =>
              match new_groups gs with
              | inr e => inr e
              | inl (anchors, probes) => inl (anchor_of g b v :: anchors, ps ++ probes)
              end
          end
      end
  end.
End New.

Definition NewStudy (c : Corpus) (tenant model : string) (vectors : gmap string (list f64))
    (completions : gmap string completion) : Study + study_error :=
  match new_groups model vectors completions (Groups c) with
  | inr e => inr e
  | inl (anchors, probes) => inl (mkStudy c tenant model anchors probes)
  end.

(** ** The exact tier *)

Record TierRow := mkTier { TN : Z; THits : Z; TOwn : Z; TCross : Z; THitRate : f64 }.
Definition zeroTier : TierRow := mkTier 0 0 0 0 f64_zero.
Definition tier_of (rows : gmap string TierRow) (l : Label) : TierRow := default zeroTier (rows !! l).

(** The [i]-th call of the store reads [clock i]. *)
Fixpoint warm_exact (s : Study) (clock : nat -> Time) (i : nat) (al : list anchorRecord) (store : Exact)
    : Exact + study_error :=
  match al with
  | [] => inl store
  | a :: al =>
      match BuildKey (tenant s) (model s) (abody a) with
      | inr e => inr (ErrKey e)
      | inl k => warm_exact s clock (S i) al (exact_Put store (clock i) k (Some (entry a))).1
      end
  end.

Definition count_hit (own : bool) (r : TierRow) : TierRow :=
  if own then mkTier (TN r) (THits r + 1) (TOwn r + 1) (TCross r) (THitRate r)
  else mkTier (TN r) (THits r + 1) (TOwn r) (TCross r + 1) (THitRate r).

Fixpoint exact_probes (s : Study) (clock : nat -> Time) (i : nat) (ps : list probeRecord) (store : Exact)
    (rows : gmap string TierRow) : gmap string TierRow + study_error :=
  match ps with
  | [] => inl rows
  | p :: ps =>
      let row := tier_of rows (label p) in
      let row := mkTier (TN row + 1) (THits row) (TOwn row) (TCross row) (THitRate row) in
      match BuildKey (tenant s) (model s) (pbody p) with
      | inr e => inr (ErrKey e)
      | inl k =>
          match (exact_Get store (clock i) k).1 with
          | (None, store) => exact_probes s clock (S i) ps store (<[label p := row]> rows)
          | (Some e, store) =>
              match decodeAnswer e with
              | None => inr ErrDecodeAnswer
              | Some hit =>
                  let row := count_hit (bool_decide (AGroup hit = ID (pgroup p))) row in
                  exact_probes s clock (S i) ps store (<[label p := row]> rows)
              end
          end
      end
  end.

Definition with_rate (r : TierRow) : TierRow := mkTier (TN r) (THits r) (TOwn r) (TCross r) (ratio (THits r) (TN r)).

Definition RunExactTier (s : Study) (clock : nat -> Time) : gmap string TierRow + study_error :=
  let n := length (anchors s) in
  match warm_exact s clock 0 (anchors s) (NewExact (Z.of_nat n + 1) studyTTL) with
  | inr e => inr e
  | inl store =>
      match exact_probes s clock n (probes s) store ∅ with
      | inr e => inr e
      | inl rows => inl (with_rate <$> rows)
      end
  end.

(** ** The semantic tier *)

Definition warmSemantic (s : Study) (clock : nat -> Time) (threshold : f64) : semanticStore :=
  (foldl (fun '(st, i) a => ((Add st (clock i) (tenant s) (avector a) (Some (entry a))).1, S i))
     (NewSemantic threshold (Z.of_nat (length (anchors s)) + 1) 0, 0%nat) (anchors s)).1.

Record LabelRow := mkLabelRow {
  LN : Z; LHits : Z; LOwn : Z; LCross : Z; LCorrect : Z; LFalse : Z;
  HitRate : f64; CorrectHitRate : f64; FalseHitRate : f64
}.
Definition zeroRow : LabelRow := mkLabelRow 0 0 0 0 0 0 f64_zero f64_zero f64_zero.
Record TokenRow := mkTokenRow { ServedCorrect : Z; ServedWrong : Z; WrongShare : f64 }.
Record SweepRow := mkSweepRow { Threshold : f64; Labels : gmap string LabelRow; MarginPP : f64; RTokens : TokenRow }.

Definition row_of (rows : gmap string LabelRow) (l : Label) : LabelRow := default zeroRow (rows !! l).

Definition seen_row (r : LabelRow) : LabelRow :=
  mkLabelRow (LN r + 1) (LHits r) (LOwn r) (LCross r) (LCorrect r) (LFalse r)
    (HitRate r) (CorrectHitRate r) (FalseHitRate r).
(** A hit, by whose answer it was and whether that makes it right. *)
Definition hit_row (own correct : bool) (r : LabelRow) : LabelRow :=
  mkLabelRow (LN r) (LHits r + 1) (if own then LOwn r + 1 else LOwn r) (if own then LCross r else LCross r + 1)
    (if correct then LCorrect r + 1 else LCorrect r) (if correct then LFalse r else LFalse r + 1)
    (HitRate r) (CorrectHitRate r) (FalseHitRate r).

Definition serve_tokens (own : bool) (p : probeRecord) (t : TokenRow) : TokenRow :=
  if bool_decide (label p = LabelRepeat) then t
  else if own && bool_decide (label p = LabelParaphrase)
  then mkTokenRow (ServedCorrect t +i tokens p) (ServedWrong t) (WrongShare t)
  else mkTokenRow (ServedCorrect t) (ServedWrong t +i tokens p) (WrongShare t).

(** The loop of [sweepOne]; [None]: a label the rows do not have, whose pointer
    is nil. *)
Fixpoint sweep_probes (s : Study) (now : Time) (store : semanticStore) (ps : list probeRecord)
    (rows : gmap string LabelRow) (t : TokenRow) : option (gmap string LabelRow * TokenRow + study_error) :=
  match ps with
  | [] => Some (inl (rows, t))
  | p :: ps =>
      match rows !! label p with
      | None => None
      | Some row =>
          let row := seen_row row in
          match (Nearest store now (tenant s) (pvector p)).1 with
          | None => sweep_probes s now store ps (<[label p := row]> rows) t
          | Some (e, _) =>
              match decodeAnswer e with
              | None => Some (inr ErrDecodeAnswer)
              | Some hit =>
                  let own := bool_decide (AGroup hit = ID (pgroup p)) in
                  let correct := own && (bool_decide (label p = LabelRepeat) || bool_decide (label p = LabelParaphrase)) in
                  sweep_probes s now store ps (<[label p := hit_row own correct row]> rows) (serve_tokens own p t)
              end
          end
      end
  end.

Definition rated (r : LabelRow) : LabelRow :=
  mkLabelRow (LN r) (LHits r) (LOwn r) (LCross r) (LCorrect r) (LFalse r)
    (ratio (LHits r) (LN r)) (ratio (LCorrect r) (LN r)) (ratio (LFalse r) (LN r)).

Definition zeroRows : gmap string LabelRow := list_to_map ((fun l => (l, zeroRow)) <$> labelOrder).

(** Nothing expires, so the store's clock decides nothing: one instant stands for
    the reads of the loop. *)
Definition sweepOne (s : Study) (clock : nat -> Time) (now : Time) (threshold : f64)
    : option (SweepRow + study_error) :=
  let store := warmSemantic s clock threshold in
  match sweep_probes s now store (probes s) zeroRows (mkTokenRow 0 0 f64_zero) with
  | None => None
  | Some (inr e) => Some (inr e)
  | Some (inl (rows, t)) =>
      let rows := rated <$> rows in
      let margin := f64_mul (f64_of_Z 100)
        (f64_sub (CorrectHitRate (row_of rows LabelParaphrase)) (FalseHitRate (row_of rows LabelOpposite))) in
      let share := ratio (ServedWrong t) (ServedCorrect t +i ServedWrong t) in
      Some (inl (mkSweepRow threshold rows margin (mkTokenRow (ServedCorrect t) (ServedWrong t) share)))
  end.

Fixpoint Sweep (s : Study) (clock : nat -> Time) (now : Time) (thresholds : list f64)
    : option (list SweepRow + study_error) :=
  match thresholds with
  | [] => Some (inl [])
  | th :: thresholds =>
      match sweepOne s clock now th with
      | None => None
      | Some (inr e) => Some (inr e)
      | Some (inl row) =>
          match Sweep s clock now thresholds with
          | Some (inl rows) => Some (inl (row :: rows))
          | o => o
          end
      end
  end.

(** ** Similarities *)

(** The command's own copy of the formula. *)
Definition cosine (a b : list f64) : f64 :=
  if negb (length a =? length b)%nat || (length a =? 0)%nat then f64_zero
  else
    let '(dot, magA, magB) := dot_mags a b f64_zero f64_zero f64_zero in
    if f64_eqb magA f64_zero || f64_eqb magB f64_zero then f64_zero
    else f64_div dot (f64_sqrt (f64_mul magA magB)).

Record Pair := mkPair { Cosine : f64; PGroup : string; PA : string; PB : string; PFlip : string }.

Definition anchorByGroup (s : Study) : gmap string (list f64) :=
  foldl (fun m a => <[ID (agroup a) := avector a]> m) ∅ (anchors s).

(** A group without an anchor has the nil vector. *)
Definition probe_score (s : Study) (p : probeRecord) : f64 :=
  cosine (pvector p) (default [] (anchorByGroup s !! ID (pgroup p))).

Definition scores_of (s : Study) (l : Label) : list f64 :=
  probe_score s <$> base.filter (fun p => label p = l) (probes s).
Definition pairs_of (s : Study) (l : Label) : list Pair :=
  (fun p => mkPair (probe_score s p) (ID (pgroup p)) (Anchor (pgroup p)) (ptext p) (flip p))
    <$> base.filter (fun p => label p = l) (probes s).

Definition anchor_pair (a b : anchorRecord) : Pair :=
  mkPair (cosine (avector a) (avector b)) (ID (agroup a) +:+ " vs " +:+ ID (agroup b))
    (Anchor (agroup a)) (Anchor (agroup b)) "".
Fixpoint cross_pairs (al : list anchorRecord) : list Pair :=
  match al with
  | [] => []
  | a :: al => (anchor_pair a <$> al) ++ cross_pairs al
  end.

(** [sort.Slice], which keeps no promise about the order of ties; this keeps it. *)
Definition above (p q : Pair) : Prop := f64_ltb (Cosine p) (Cosine q) = false.
Definition below (p q : Pair) : Prop := f64_ltb (Cosine q) (Cosine p) = false.
#[export] Instance above_dec p q : Decision (above p q).
Proof. unfold above. apply _. Defined.
#[export] Instance below_dec p q : Decision (below p q).
Proof. unfold below. apply _. Defined.

Definition extremePairs : nat := 10.
Definition topPairs (pairs : list Pair) (highest : bool) : list Pair :=
  take extremePairs (if highest then merge_sort above pairs else merge_sort below pairs).

Record SimilaritySummary := mkSummary {
  OwnAnchorByLabel : gmap string Stats; CrossAnchorPairs : Stats;
  HighestOpposites : list Pair; LowestParaphrases : list Pair; ClosestAnchorPairs : list Pair;
  ParaphraseVsOppositeAUC : f64; OppositesAboveParaphraseMedian : f64; ParaphrasesBelowOppositeMedian : f64;
  Separable : bool
}.

Definition separable (paraphrases opposites : list f64) : bool :=
  match minOf paraphrases, maxOf opposites with
  | Some m, Some x => f64_ltb x m
  | _, _ => false
  end.

Definition labels_seen (s : Study) : list Label := remove_dups (label <$> probes s).

Definition Similarity (s : Study) : SimilaritySummary :=
  let paraphrases := scores_of s LabelParaphrase in
  let opposites := scores_of s LabelOpposite in
  let cross := cross_pairs (anchors s) in
  mkSummary (list_to_map ((fun l => (l, describe (scores_of s l))) <$> labels_seen s))
    (describe (Cosine <$> cross))
    (topPairs (pairs_of s LabelOpposite) true) (topPairs (pairs_of s LabelParaphrase) false) (topPairs cross true)
    (auc paraphrases opposites)
    (ratio (countAbove opposites (median paraphrases)) (Z.of_nat (length opposites)))
    (ratio (countBelow paraphrases (median opposites)) (Z.of_nat (length paraphrases)))
    (separable paraphrases opposites).

(** [Verify]: how many probes the two formulas disagree on. *)
Definition best_anchor (s : Study) (p : probeRecord) : f64 :=
  foldl (fun best a => let score := cosine (pvector p) (avector a) in if f64_ltb best score then score else best)
    f64_zero (anchors s).

Definition f64_abs (x : f64) : f64 :=
  match x with
  | S754_zero _ => S754_zero false
  | S754_infinity _ => S754_infinity false
  | S754_finite _ m e => S754_finite false m e
  | S754_nan => S754_nan
  end.

Definition disagrees (s : Study) (now : Time) (store : semanticStore) (p : probeRecord) : bool :=
  let best := best_anchor s p in
  match (Nearest store now (tenant s) (pvector p)).1 with
  | None => f64_leb probeThreshold best
  | Some (_, score) => f64_ltb cosineTolerance (f64_abs (f64_sub score best))
  end.

Definition Verify (s : Study) (clock : nat -> Time) (now : Time) : Z :=
  Z.of_nat (length (base.filter (fun p => disagrees s now (warmSemantic s clock probeThreshold) p = true) (probes s))).

(** ** Thresholds *)

(** The [1e-9] that keeps the last point in. *)
Definition slack : f64 := probeThreshold.

Inductive thresholds_error := ErrStep | ErrRange.

Definition sweep_point (minValue step : f64) (i : nat) : f64 :=
  round6 (f64_add minValue (f64_mul (f64_of_Z (Z.of_nat i)) step)).

(** The loop from its [i]-th turn; [None]: still running when the fuel is spent. *)
Fixpoint thresholds_from (fuel : nat) (minValue maxValue step : f64) (i : nat) : option (list f64) :=
  match fuel with
  | O => None
  | S fuel =>
      let v := sweep_point minValue step i in
      if f64_ltb (f64_add maxValue slack) v then Some []
      else match thresholds_from fuel minValue maxValue step (S i) with
           | Some out => Some (v :: out)
           | None => None
           end
  end.

Definition Thresholds (fuel : nat) (minValue maxValue step : f64) : option (list f64 + thresholds_error) :=
  if f64_leb step f64_zero then Some (inr ErrStep)
  else if f64_ltb maxValue minValue then Some (inr ErrRange)
  else inl <$> thresholds_from fuel minValue maxValue step 0.

(** ** What is stored and read back *)

Lemma dec_string_quote s old : dec_string (quote s) old = (sanitize s, true).
Proof. unfold dec_string. by rewrite (tree_of_text 0 _ (JStr (sanitize s))) by (lia || apply reads_str). Qed.

Definition answer_fields (a : storedAnswer) : list (string * string) :=
  [("group", quote (AGroup a)); ("question", quote (Question a))]%string
   ++ omit (bool_decide (Completion a = ""%string)) "completion" (quote (Completion a))
   ++ omit (Tokens a =? 0) "tokens" (Itoa (Tokens a)).

Lemma answer_read d a : exists ms, read_fields d (answer_fields a) ms.
Proof.
  exists ([("group", JStr (sanitize (AGroup a))); ("question", JStr (sanitize (Question a)))]%string
    ++ member_unless (bool_decide (Completion a = ""%string)) "completion" (JStr (sanitize (Completion a)))
    ++ member_unless (Tokens a =? 0) "tokens" (JNum (Itoa (Tokens a)))).
  unfold answer_fields, read_fields. apply Forall2_app.
  - fields; apply reads_str.
  - apply Forall2_app; apply read_omit; [by vm_compute|apply reads_str|by vm_compute|apply reads_Itoa].
Qed.

(** An answer is read back as it was stored. *)
Lemma answer_reads_back a :
  is_int64 (Tokens a) ->
  Unmarshal dec_answer (answer_text a) zeroAnswer
  = Some (mkAnswer (sanitize (AGroup a)) (sanitize (Question a)) (sanitize (Completion a)) (Tokens a)).
Proof.
  intros T. destruct (answer_read (pred maxNestingDepth) a) as [ms F].
  unfold Unmarshal, answer_text. change (struct_text _) with (struct_text (answer_fields a)).
  assert (R : reads_as maxNestingDepth (struct_text (answer_fields a)) (JObj ms)).
  { replace maxNestingDepth with (S (pred maxNestingDepth)) by (rewrite contentDepth_spec; done).
    by apply reads_struct. }
  rewrite (reads_parse _ _ R). unfold dec_answer. rewrite (dec_struct_text _ _ ms zeroAnswer F).
  unfold answer_fields. cbn [app].
  do 2 (erewrite dec_fields_hit; [|reflexivity|apply at_field_eq, dec_string_quote]).
  case_bool_decide as C; destruct (Tokens a =? 0) eqn:Z0; bool_to_prop; unfold omit; cbn [app];
    try (erewrite dec_fields_hit; [|reflexivity|apply at_field_eq, dec_string_quote]);
    try (erewrite dec_fields_hit; [|reflexivity|apply at_field_eq, dec_int_Itoa; done]);
    cbn; by rewrite ?C, ?Z0.
Qed.

(** *** What a warmed store holds *)

Lemma Add_sub st now t v e u r :
  r ∈ default [] (stenants (Add st now t v (Some e)).1 !! u) ->
  r ∈ default [] (stenants st !! u) \/ r = mkRecord v e now.
Proof.
  unfold Add. destruct (length v =? 0)%nat; [by left|]. cbn [dims stenants sttl maxPerTenant threshold].
  destruct (negb _); [by left|].
  destruct (dropExpired_suffix (default [] (stenants st !! t)) (sttl st) now) as (gone & Eo & _ & _).
  destruct (dropExpired (default [] (stenants st !! t)) (sttl st) now) as [kept k]. cbn [fst] in Eo.
  assert (K : forall x, x ∈ kept ++ [mkRecord v e now] -> x ∈ default [] (stenants st !! t) \/ x = mkRecord v e now).
  { intros x [Hx|Hx%list_elem_of_singleton]%elem_of_app; [|by right]. left. rewrite Eo. apply elem_of_app. by right. }
  destruct (0 <? _); cbn [fst stenants]; destruct (decide (u = t)) as [->|Hu];
    rewrite ?lookup_insert_eq, ?lookup_insert_ne by done; cbn [default from_option id]; try (by left).
  - intros Hr. apply K. eapply list_elem_of_lookup in Hr as [i Hi]. rewrite list.lookup_drop in Hi.
    by eapply list_elem_of_lookup_2.
  - apply K.
Qed.

(** Every record of the warmed store is an anchor's. *)
Lemma warm_sub s clock th u r :
  r ∈ default [] (stenants (warmSemantic s clock th) !! u) -> exists a, a ∈ anchors s /\ sentry r = entry a.
Proof.
  unfold warmSemantic. set (f := fun '(st, i) a => _).
  assert (G : forall al st i, (forall r, r ∈ default [] (stenants st !! u) -> exists a, a ∈ anchors s /\ sentry r = entry a) ->
    (forall a, a ∈ al -> a ∈ anchors s) ->
    forall r, r ∈ default [] (stenants (foldl f (st, i) al).1 !! u) -> exists a, a ∈ anchors s /\ sentry r = entry a).
  { induction al as [|a al IH]; intros st i Hst Hal; [exact Hst|]. cbn [foldl]. unfold f at 2. apply IH; [|by intros; apply Hal; right].
    intros x [Hx| ->]%Add_sub; [by apply Hst|]. exists a. split; [apply Hal; left|done]. }
  apply G; [|done]. intros x Hx. unfold NewSemantic in Hx. cbn in Hx. rewrite lookup_empty in Hx. by apply not_elem_of_nil in Hx.
Qed.

Lemma Nearest_in st now t q e sc :
  (Nearest st now t q).1 = Some (e, sc) -> exists r, r ∈ default [] (stenants st !! t) /\ sentry r = e /\
    sc = cosineSimilarity q (vector r).
Proof.
  unfold Nearest, scanTenant. destruct (length q =? 0)%nat; [done|]. destruct (_ =? _); [|done].
  pose proof (scan_best q (Semantic.threshold st) (sttl st) now (default [] (stenants st !! t)) [] None) as B.
  destruct (scan _ _ _ _ _ _) as [[e' sc']|]; [|done]. cbn. intros [= <- <-].
  destruct B as [(r & Hr & _ & He & Hs) _]; [by intros r ?%not_elem_of_nil|]. eauto.
Qed.

(** ** Counting *)

(** The answer a probe got, and what the labels make of it. *)
Definition hit_of (s : Study) (now : Time) (store : semanticStore) (p : probeRecord) : option storedAnswer :=
  match (Nearest store now (tenant s) (pvector p)).1 with
  | Some (e, _) => decodeAnswer e
  | None => None
  end.
Definition is_hit s now store p : bool := match hit_of s now store p with Some _ => true | None => false end.
Definition is_own s now store p : bool :=
  match hit_of s now store p with Some a => bool_decide (AGroup a = ID (pgroup p)) | None => false end.
(** The labels whose probes may be answered with the anchor's answer. *)
Definition answerable (l : Label) : bool := bool_decide (l = LabelRepeat) || bool_decide (l = LabelParaphrase).
Definition is_correct s now store p : bool := is_own s now store p && answerable (label p).

Definition count (f : probeRecord -> bool) (l : Label) (ps : list probeRecord) : Z :=
  Z.of_nat (length (base.filter (fun p => label p = l /\ f p = true) ps)).

Lemma count_cons f l p ps :
  count f l (p :: ps) = count f l ps + (if bool_decide (label p = l) && f p then 1 else 0).
Proof.
  unfold count. rewrite filter_cons. destruct (decide (label p = l /\ f p = true)) as [[E F]|N].
  - rewrite bool_decide_true, F by done. simpl. lia.
  - case_bool_decide; [|simpl; lia]. destruct (f p); [tauto|simpl; lia].
Qed.

(** Two counts that split a third. *)
Lemma count_split f g h l ps :
  (forall p, p ∈ ps -> label p = l -> f p = g p || h p /\ g p && h p = false) ->
  count f l ps = count g l ps + count h l ps.
Proof.
  induction ps as [|p ps IH]; intros H; [done|]. rewrite !count_cons, IH by (intros; apply H; [by right|done]).
  destruct (bool_decide (label p = l)) eqn:E; [|simpl; lia]. bool_to_prop.
  destruct (H p ltac:(left) E) as [H1 H2]. rewrite H1. cbn [andb]. destruct (g p), (h p); simpl in *; try done; lia.
Qed.

Lemma count_le f g l ps : (forall p, p ∈ ps -> f p = true -> g p = true) -> count f l ps <= count g l ps.
Proof.
  induction ps as [|p ps IH]; intros H; [done|]. rewrite !count_cons.
  specialize (IH ltac:(intros q Hq; apply H; by right)). specialize (H p ltac:(left)).
  destruct (bool_decide _), (f p), (g p); simpl in *; try lia; by specialize (H eq_refl).
Qed.

Lemma count_nonneg f l ps : 0 <= count f l ps.
Proof. unfold count. lia. Qed.

Lemma hits_by_group s now st l ps :
  count (is_hit s now st) l ps
  = count (is_own s now st) l ps + count (fun p => is_hit s now st p && negb (is_own s now st p)) l ps.
Proof.
  apply count_split. intros p _ _. unfold is_own, is_hit. destruct (hit_of s now st p); [|done].
  by case_bool_decide.
Qed.

Lemma hits_by_truth s now st l ps :
  count (is_hit s now st) l ps
  = count (is_correct s now st) l ps + count (fun p => is_hit s now st p && negb (is_correct s now st p)) l ps.
Proof.
  apply count_split. intros p _ _. unfold is_correct, is_own, is_hit. destruct (hit_of s now st p); [|done].
  case_bool_decide; by destruct (answerable (label p)).
Qed.

Lemma correct_by_label s now st l ps :
  if answerable l then count (is_correct s now st) l ps = count (is_own s now st) l ps
  else count (is_correct s now st) l ps = 0.
Proof.
  induction ps as [|p ps IH]; [by destruct (answerable l)|]. rewrite !count_cons. unfold is_correct at 2 4.
  case_bool_decide as E; [|by rewrite !Z.add_0_r]. rewrite E.
  destruct (answerable l); rewrite IH; by destruct (is_own s now st p).
Qed.

(** The rows of the sweep, before the rates. *)
Record adds (s : Study) (now : Time) (store : semanticStore) (l : Label) (ps : list probeRecord) (r r' : LabelRow) : Prop := {
  adds_n : LN r' = LN r + count (fun _ => true) l ps;
  adds_hits : LHits r' = LHits r + count (is_hit s now store) l ps;
  adds_own : LOwn r' = LOwn r + count (is_own s now store) l ps;
  adds_cross : LCross r' = LCross r + count (fun p => is_hit s now store p && negb (is_own s now store p)) l ps;
  adds_correct : LCorrect r' = LCorrect r + count (is_correct s now store) l ps;
  adds_false : LFalse r' = LFalse r + count (fun p => is_hit s now store p && negb (is_correct s now store p)) l ps
}.

(** A store whose answers are all read back. *)
Definition readable (s : Study) (store : semanticStore) : Prop :=
  forall r, r ∈ default [] (stenants store !! tenant s) -> exists a, decodeAnswer (sentry r) = Some a.

Lemma sweep_probes_spec s now store ps rows t :
  readable s store -> (forall p, p ∈ ps -> is_Some (rows !! label p)) ->
  exists rows' t', sweep_probes s now store ps rows t = Some (inl (rows', t')) /\
    (forall l, is_Some (rows' !! l) <-> is_Some (rows !! l)) /\
    forall l, is_Some (rows !! l) -> adds s now store l ps (row_of rows l) (row_of rows' l).
Proof.
  intros Rd. revert rows t. induction ps as [|p ps IH]; intros rows t Hl.
  { exists rows, t. split_and!; [done|done|]. intros l _. constructor; unfold count; simpl; lia. }
  cbn [sweep_probes]. destruct (Hl p ltac:(left)) as [row Hrow]. rewrite Hrow.
  assert (Step : forall row' t', (forall q, q ∈ ps -> is_Some (<[label p := row']> rows !! label q)) ->
    LN row' = LN row + 1 ->
    LHits row' = LHits row + (if is_hit s now store p then 1 else 0) ->
    LOwn row' = LOwn row + (if is_own s now store p then 1 else 0) ->
    LCross row' = LCross row + (if is_hit s now store p && negb (is_own s now store p) then 1 else 0) ->
    LCorrect row' = LCorrect row + (if is_correct s now store p then 1 else 0) ->
    LFalse row' = LFalse row + (if is_hit s now store p && negb (is_correct s now store p) then 1 else 0) ->
    exists rows' t'', sweep_probes s now store ps (<[label p := row']> rows) t' = Some (inl (rows', t'')) /\
      (forall l, is_Some (rows' !! l) <-> is_Some (rows !! l)) /\
      forall l, is_Some (rows !! l) -> adds s now store l (p :: ps) (row_of rows l) (row_of rows' l)).
  { intros row' t' Hq E1 E2 E3 E4 E5 E6. destruct (IH (<[label p := row']> rows) t' Hq) as (rows' & t'' & Es & Hs & Ha).
    exists rows', t''. split; [exact Es|]. split.
    - intros l. rewrite Hs. destruct (decide (label p = l)) as [<-|N];
        [rewrite lookup_insert_eq, Hrow; split; by eauto|by rewrite lookup_insert_ne].
    - intros l Hsl. destruct (decide (label p = l)) as [<-|N].
      + destruct (Ha (label p)) as [A1 A2 A3 A4 A5 A6]; [rewrite lookup_insert_eq; by eauto|].
        unfold row_of in *. rewrite lookup_insert_eq in *. cbn [default from_option id] in *. rewrite Hrow. cbn [default from_option id].
        constructor; rewrite count_cons, bool_decide_true by done; cbn [andb]; lia.
      + destruct (Ha l) as [A1 A2 A3 A4 A5 A6]; [by rewrite lookup_insert_ne|].
        unfold row_of in *. rewrite lookup_insert_ne in * by done.
        constructor; rewrite count_cons, bool_decide_false by done; cbn [andb]; lia. }
  assert (Hin : forall row' q, q ∈ ps -> is_Some (<[label p := row']> rows !! label q)).
  { intros row' q Hq. destruct (decide (label p = label q)) as [->|N]; [rewrite lookup_insert_eq; by eauto|].
    rewrite lookup_insert_ne by done. apply Hl. by right. }
  destruct (Nearest store now (tenant s) (pvector p)).1 as [[e sc]|] eqn:N.
  - destruct (Nearest_in _ _ _ _ _ _ N) as (r & Hr & He & _). destruct (Rd r Hr) as [a Ha]. rewrite He in Ha.
    rewrite Ha. assert (Hh : hit_of s now store p = Some a) by (unfold hit_of; by rewrite N).
    unfold is_correct, is_own, is_hit in Step. rewrite Hh in Step.
    apply Step; [apply Hin|..]; cbn; fold (answerable (label p));
      destruct (bool_decide (AGroup a = ID (pgroup p))), (answerable (label p)); cbn; lia.
  - assert (Hh : hit_of s now store p = None) by (unfold hit_of; by rewrite N).
    unfold is_correct, is_own, is_hit in Step. rewrite Hh in Step. apply Step; [apply Hin|..]; cbn; lia.
Qed.

(** ** What a study is made of *)

Definition anchor_ok (model : string) (completions : gmap string completion) (g : Group) (a : anchorRecord) : Prop :=
  agroup a = g /\ abody a = buildBody model (Anchor g) /\ Body (entry a) = answer_text (answer_of completions g) /\
  StoredAt (entry a) = 0.

Lemma group_probes_spec m vectors completions g ps rs :
  group_probes m vectors completions g ps = inl rs ->
  Forall2 (fun p r => pgroup r = g /\ label r = PLabel p /\ ptext r = Text p /\ pbody r = buildBody m (Text p)) ps rs.
Proof.
  revert rs. induction ps as [|p ps IH]; intros rs; cbn [group_probes]; [intros [= <-]; constructor|].
  unfold resolve. destruct (negb _); [done|]. destruct (vectors !! _); [|done].
  destruct (group_probes m vectors completions g ps) as [rest|]; [|done]. intros [= <-].
  constructor; [done|by apply IH].
Qed.

Lemma new_groups_spec m vectors completions gs al ps :
  new_groups m vectors completions gs = inl (al, ps) ->
  Forall2 (anchor_ok m completions) gs al /\
  Forall2 (fun q r => pgroup r = q.1 /\ label r = PLabel q.2 /\ ptext r = Text q.2 /\ pbody r = buildBody m (Text q.2))
    (concat ((fun g => (fun p => (g, p)) <$> Probes g) <$> gs)) ps.
Proof.
  revert al ps. induction gs as [|g gs IH]; intros al ps; cbn [new_groups]; [intros [= <- <-]; by split|].
  unfold resolve. destruct (negb _); [done|]. destruct (vectors !! _); [|done].
  destruct (group_probes m vectors completions g (Probes g)) as [rs|] eqn:G; [|done].
  destruct (new_groups m vectors completions gs) as [[al' ps']|]; [|done]. intros [= <- <-].
  destruct (IH _ _ eq_refl) as [I1 I2]. split; [constructor; [done|exact I1]|].
  rewrite fmap_cons. cbn [concat]. apply Forall2_app; [|exact I2]. apply Forall2_fmap_l.
  by apply group_probes_spec in G.
Qed.

Definition priced (completions : gmap string completion) : Prop :=
  forall q c, completions !! q = Some c -> is_int64 (CTokens c).

Lemma answer_of_int64 completions g : priced completions -> is_int64 (Tokens (answer_of completions g)).
Proof.
  intros P. unfold answer_of. destruct (completions !! Anchor g) eqn:E; [by eapply P|done].
Qed.

Section Built.
Context (c : Corpus) (tn m : string) (vectors : gmap string (list f64)) (completions : gmap string completion).
Context (s : Study) (built : NewStudy c tn m vectors completions = inl s).

Lemma built_spec :
  tenant s = tn /\ model s = m /\ Forall2 (anchor_ok m completions) (Groups c) (anchors s) /\
  Forall2 (fun q r => pgroup r = q.1 /\ label r = PLabel q.2 /\ ptext r = Text q.2 /\ pbody r = buildBody m (Text q.2))
    (concat ((fun g => (fun p => (g, p)) <$> Probes g) <$> Groups c)) (probes s).
Proof.
  unfold NewStudy in built. destruct (new_groups m vectors completions (Groups c)) as [[al ps]|] eqn:E; [|done].
  injection built as <-. by apply new_groups_spec in E as [? ?].
Qed.

Lemma probe_of p : p ∈ probes s -> exists g q, g ∈ Groups c /\ q ∈ Probes g /\ pgroup p = g /\ label p = PLabel q /\
  ptext p = Text q /\ pbody p = buildBody m (Text q).
Proof.
  intros H. destruct built_spec as (_ & _ & _ & F). apply list_elem_of_lookup in H as [i Hi].
  destruct (Forall2_lookup_r _ _ _ _ _ F Hi) as ([g q] & Hq & E1 & E2 & E3 & E4). cbn in *.
  apply list_elem_of_lookup_2 in Hq. apply elem_of_concat in Hq as (l & Hq & Hl).
  apply list_elem_of_fmap in Hl as (g' & -> & Hg). apply list_elem_of_fmap in Hq as (q' & [= -> ->] & Hq).
  by exists g', q'.
Qed.

Lemma anchor_readable (P : priced completions) a : a ∈ anchors s ->
  exists g, g ∈ Groups c /\ agroup a = g /\
    decodeAnswer (entry a) = Some (mkAnswer (sanitize (ID g)) (sanitize (Anchor g))
      (sanitize (Completion (answer_of completions g))) (Tokens (answer_of completions g))).
Proof.
  intros H. destruct built_spec as (_ & _ & F & _). apply list_elem_of_lookup in H as [i Hi].
  destruct (Forall2_lookup_r _ _ _ _ _ F Hi) as (g & Hg & E1 & E2 & E3 & _).
  exists g. split; [by eapply list_elem_of_lookup_2|]. split; [done|]. unfold decodeAnswer. rewrite E3.
  rewrite answer_reads_back by by apply answer_of_int64. unfold answer_of. by destruct (completions !! Anchor g).
Qed.

Lemma warm_readable (P : priced completions) clock th : readable s (warmSemantic s clock th).
Proof.
  intros r (a & Ha & ->)%warm_sub. destruct (anchor_readable P a Ha) as (g & _ & _ & ->). by eexists.
Qed.
End Built.

Lemma zeroRows_known l : l ∈ labelOrder -> zeroRows !! l = Some zeroRow.
Proof.
  intros H. unfold labelOrder in H.
  repeat (apply elem_of_cons in H as [->|H]; [vm_compute; reflexivity|]). by apply not_elem_of_nil in H.
Qed.

(** The rows of a sweep, as counts. *)
Record counts (s : Study) (now : Time) (st : semanticStore) (l : Label) (r : LabelRow) : Prop := {
  counts_n : LN r = count (fun _ => true) l (probes s);
  counts_hits : LHits r = count (is_hit s now st) l (probes s);
  counts_own : LOwn r = count (is_own s now st) l (probes s);
  counts_cross : LCross r = count (fun p => is_hit s now st p && negb (is_own s now st p)) l (probes s);
  counts_correct : LCorrect r = count (is_correct s now st) l (probes s);
  counts_false : LFalse r = count (fun p => is_hit s now st p && negb (is_correct s now st p)) l (probes s)
}.

Lemma sweep_rows c tn m vectors completions s clock now th :
  corpus_ok c -> priced completions -> NewStudy c tn m vectors completions = inl s ->
  exists row, sweepOne s clock now th = Some (inl row) /\
    forall l, l ∈ labelOrder -> counts s now (warmSemantic s clock th) l (row_of (Labels row) l).
Proof.
  intros Ok P B. set (st := warmSemantic s clock th).
  assert (K : forall p, p ∈ probes s -> label p ∈ labelOrder).
  { intros p (g & q & Hg & Hq & _ & -> & _)%(probe_of _ _ _ _ _ _ B).
    pose proof (groups_ok _ Ok) as F. rewrite list.Forall_forall in F. specialize (F g Hg).
    pose proof (probes_ok _ F) as Fp. rewrite list.Forall_forall in Fp. apply (Fp q Hq). }
  destruct (sweep_probes_spec s now st (probes s) zeroRows (mkTokenRow 0 0 f64_zero)) as (rows & t & E & _ & A).
  { by eapply warm_readable. } { intros p Hp. rewrite zeroRows_known by by apply K. by eexists. }
  unfold sweepOne. fold st. rewrite E. eexists. split; [reflexivity|]. intros l Hl. cbn [Labels].
  destruct (A l) as [A1 A2 A3 A4 A5 A6]; [rewrite zeroRows_known by done; by eexists|].
  assert (Z0 : row_of zeroRows l = zeroRow) by (unfold row_of; by rewrite zeroRows_known).
  rewrite Z0 in *. cbn in A1, A2, A3, A4, A5, A6.
  unfold row_of in *. rewrite lookup_fmap. by destruct (rows !! l); constructor.
Qed.

(** *** Raising the threshold *)

(** The best above a higher bar is the best above a lower one. *)
Definition same_best (thr : f64) (low high : option (Entry * f64)) : Prop :=
  match high with
  | Some (e, b) => low = high /\ f64_is_nan b = false /\ f64_ltb b thr = false
  | None => match low with Some (_, b) => f64_is_nan b = false /\ f64_ltb b thr = true | None => True end
  end.

Lemma scan_raise q life now thr1 thr2 records low high :
  f64_is_nan thr1 = false -> f64_is_nan thr2 = false -> f64_ltb thr2 thr1 = false ->
  same_best thr2 low high ->
  same_best thr2 (scan records q thr1 life now low) (scan records q thr2 life now high).
Proof.
  intros N1 N2 L. revert low high. induction records as [|r records IH]; intros low high R; [done|].
  cbn [scan]. apply IH. clear IH. destruct (expired _ _ _); [done|].
  set (score := cosineSimilarity q (vector r)). assert (Ns : f64_is_nan score = false) by apply cosine_not_nan.
  destruct (f64_ltb score thr2) eqn:S2.
  - destruct (f64_ltb score thr1); [done|]. destruct high as [[e b]|]; cbn in R.
    + destruct R as (-> & Nb & Hb). assert (E : f64_ltb b score = false); [|rewrite E; cbn; by split_and!].
      apply (f64_not_less_trans score thr2 b); auto. by apply f64_less_asym.
    + destruct low as [[e b]|]; cbn; [|done]. by destruct (f64_ltb b score).
  - assert (S1 : f64_ltb score thr1 = false) by (by apply (f64_not_less_trans thr1 thr2 score)).
    rewrite S1. destruct high as [[e b]|]; cbn in R.
    + destruct R as (-> & Nb & Hb). destruct (f64_ltb b score); cbn; by split_and!.
    + destruct low as [[e b]|]; cbn; [|by split_and!]. destruct R as [Nb Hb].
      assert (E : f64_ltb b score = true); [|rewrite E; cbn; by split_and!].
      destruct (f64_ltb b score) eqn:E; [done|].
      assert (X : f64_ltb b thr2 = false) by (by apply (f64_not_less_trans thr2 score b)). congruence.
Qed.

(** Two stores that differ in their threshold. *)
Definition but_threshold (a b : semanticStore) : Prop :=
  maxPerTenant a = maxPerTenant b /\ sttl a = sttl b /\ dims a = dims b /\ stenants a = stenants b.

Lemma Add_threshold a b now t v e : but_threshold a b ->
  but_threshold (Add a now t v e).1 (Add b now t v e).1 /\
  Semantic.threshold (Add a now t v e).1 = Semantic.threshold a.
Proof.
  intros (E1 & E2 & E3 & E4). unfold Add, but_threshold. destruct e as [e|]; [|done].
  destruct (length v =? 0)%nat; [done|]. cbn [dims stenants sttl maxPerTenant]. rewrite E1, E2, E3, E4.
  destruct (negb _); [done|]. destruct (dropExpired _ _ _) as [kept k]. by destruct (0 <? _).
Qed.

Lemma warm_threshold s clock th1 th2 :
  but_threshold (warmSemantic s clock th1) (warmSemantic s clock th2) /\
  Semantic.threshold (warmSemantic s clock th1) = if f64_leb th1 f64_zero then DefaultSimilarityThreshold else th1.
Proof.
  unfold warmSemantic. set (f := fun '(st, i) a => _).
  assert (G : forall al a b i, but_threshold a b ->
    but_threshold (foldl f (a, i) al).1 (foldl f (b, i) al).1 /\
    Semantic.threshold (foldl f (a, i) al).1 = Semantic.threshold a).
  { induction al as [|x al IH]; intros a b i H; [by split|]. cbn [foldl]. unfold f at 2 4 6.
    destruct (Add_threshold a b (clock i) (tenant s) (avector x) (Some (entry x)) H) as [H' E].
    destruct (IH _ _ (S i) H') as [I1 I2]. split; [exact I1|]. by rewrite I2, E. }
  by apply G.
Qed.

Lemma Nearest_raise s clock now th1 th2 q x :
  f64_is_nan th2 = false -> f64_ltb f64_zero th1 = true -> f64_ltb th2 th1 = false ->
  (Nearest (warmSemantic s clock th2) now (tenant s) q).1 = Some x ->
  (Nearest (warmSemantic s clock th1) now (tenant s) q).1 = Some x.
Proof.
  intros N2 P1 L. destruct (warm_threshold s clock th1 th2) as [(_ & E2 & E3 & E4) T1].
  destruct (warm_threshold s clock th2 th1) as [_ T2].
  assert (N1 : f64_is_nan th1 = false) by (by destruct th1 as [[]|[]| |[]]).
  assert (P2 : f64_ltb f64_zero th2 = true).
  { destruct (f64_ltb f64_zero th2) eqn:E; [done|].
    assert (X : f64_ltb f64_zero th1 = false); [|congruence]. by apply (f64_not_less_trans th1 th2 f64_zero). }
  rewrite f64_leb_rank in T1, T2 by done. rewrite P1 in T1. rewrite P2 in T2. cbn [negb] in T1, T2.
  unfold Nearest, scanTenant. rewrite E2, E3, E4, T1, T2. destruct (length q =? 0)%nat; [done|].
  destruct (_ =? _); [|done].
  pose proof (scan_raise q (sttl (warmSemantic s clock th2)) now th1 th2
    (default [] (stenants (warmSemantic s clock th2) !! tenant s)) None None N1 N2 L I) as R.
  destruct (scan _ q th2 _ now None) as [[e b]|]; [|done]. cbn in R. destruct R as [-> _]. by intros [= <-].
Qed.

(** ** Properties *)

(** Every probe is scored once, by whose answer came back: over a study built
    of a checked corpus the sweep never fails, at any threshold; the row of a
    label counts its probes and those the production store answered, each hit
    is the group's own or another's, and correct or false but not both; of the
    labels that may be answered from their anchor the correct hits are the own
    ones, and of the others every hit is false. *)
Theorem sweep_accounts c tn m vectors completions s clock now th :
  corpus_ok c -> priced completions -> NewStudy c tn m vectors completions = inl s ->
  exists row, sweepOne s clock now th = Some (inl row) /\
    forall l, l ∈ labelOrder ->
      let r := row_of (Labels row) l in
      LN r = count (fun _ => true) l (probes s) /\
      LHits r = count (is_hit s now (warmSemantic s clock th)) l (probes s) /\
      LHits r <= LN r /\ LHits r = LOwn r + LCross r /\ LHits r = LCorrect r + LFalse r /\
      (if answerable l then LCorrect r = LOwn r else LCorrect r = 0 /\ LFalse r = LHits r).
Proof.
  intros Ok P B. destruct (sweep_rows c tn m vectors completions s clock now th Ok P B) as (row & E & A).
  exists row. split; [exact E|]. intros l Hl. destruct (A l Hl) as [A1 A2 A3 A4 A5 A6].
  set (st := warmSemantic s clock th) in *.
  pose proof (hits_by_group s now st l (probes s)) as S1. pose proof (hits_by_truth s now st l (probes s)) as S2.
  pose proof (correct_by_label s now st l (probes s)) as S3.
  pose proof (count_le (is_hit s now st) (fun _ => true) l (probes s) ltac:(done)) as Hle.
  cbv zeta. rewrite A1, A2, A3, A4, A5, A6. split_and!; try done. destruct (answerable l); [done|lia].
Qed.

(** A higher threshold never adds an answer: between two positive thresholds,
    every probe the production store answers at the higher one it answers with
    the same entry and score at the lower one, so that no row of the sweep
    loses hits, correct hits or false hits when the bar is lowered. *)
Theorem raising_never_adds c tn m vectors completions s clock now th1 th2 :
  corpus_ok c -> priced completions -> NewStudy c tn m vectors completions = inl s ->
  f64_is_nan th2 = false -> f64_ltb f64_zero th1 = true -> f64_ltb th2 th1 = false ->
  (forall p x, (Nearest (warmSemantic s clock th2) now (tenant s) (pvector p)).1 = Some x ->
     (Nearest (warmSemantic s clock th1) now (tenant s) (pvector p)).1 = Some x) /\
  exists low high, sweepOne s clock now th1 = Some (inl low) /\ sweepOne s clock now th2 = Some (inl high) /\
    forall l, l ∈ labelOrder ->
      LHits (row_of (Labels high) l) <= LHits (row_of (Labels low) l) /\
      LCorrect (row_of (Labels high) l) <= LCorrect (row_of (Labels low) l) /\
      LFalse (row_of (Labels high) l) <= LFalse (row_of (Labels low) l).
Proof.
  intros Ok P B N2 P1 L. pose proof (fun q x => Nearest_raise s clock now th1 th2 q x N2 P1 L) as M.
  split; [by intros p x; apply M|].
  destruct (sweep_rows c tn m vectors completions s clock now th1 Ok P B) as (low & E1 & A1).
  destruct (sweep_rows c tn m vectors completions s clock now th2 Ok P B) as (high & E2 & A2).
  exists low, high. split_and!; [done|done|]. intros l Hl.
  assert (H : forall p a, hit_of s now (warmSemantic s clock th2) p = Some a ->
                hit_of s now (warmSemantic s clock th1) p = Some a).
  { intros p a. unfold hit_of. destruct (Nearest (warmSemantic s clock th2) _ _ _).1 as [[e b]|] eqn:E; [|done].
    by rewrite (M _ _ E). }
  rewrite (counts_hits _ _ _ _ _ (A1 l Hl)), (counts_hits _ _ _ _ _ (A2 l Hl)).
  rewrite (counts_correct _ _ _ _ _ (A1 l Hl)), (counts_correct _ _ _ _ _ (A2 l Hl)).
  rewrite (counts_false _ _ _ _ _ (A1 l Hl)), (counts_false _ _ _ _ _ (A2 l Hl)).
  split_and!; apply count_le; intros p _; unfold is_correct, is_own, is_hit;
    destruct (hit_of s now (warmSemantic s clock th2) p) as [a|] eqn:E; try done; by rewrite (H p a E).
Qed.

(** ** The exact tier's keys *)

#[local] Opaque Sum256.

(** What a question's body says, in the order of the canonical form. *)
Definition question_fields (m q : string) : list (string * json) :=
  [("messages", JArr [JObj [("content", JStr (sanitize q)); ("role", JStr "user")]]);
   ("model", JStr (sanitize m)); ("temperature", JNum "0")]%string.

Lemma body_read_as m q : body_fields (buildBody m q) = Some (question_fields m q).
Proof.
  assert (R : reads_as maxNestingDepth (buildBody m q) (JObj
    [("model", JStr (sanitize m)); ("temperature", JNum "0");
     ("messages", JArr [JObj [("role", JStr "user"); ("content", JStr (sanitize q))]])]%string)).
  { destruct enough_depth as [d E].
    replace maxNestingDepth with (S (pred maxNestingDepth)) by (rewrite contentDepth_spec; done).
    rewrite E. apply reads_struct. fields; [apply reads_str|apply (reads_Itoa _ 0)|].
    apply reads_choices. fields; apply reads_str. }
  unfold body_fields. rewrite (reads_parse _ _ R). reflexivity.
Qed.

Definition canonical_of (m q : string) : string := marshal (JObj (question_fields m q)).

Lemma canonicalize_question m q : canonicalize (buildBody m q) = inl (canonical_of m q).
Proof. rewrite (canonicalize_fields _ _ (body_read_as m q)). reflexivity. Qed.

Lemma canonical_of_inj m q q' : valid_utf8 q -> valid_utf8 q' -> canonical_of m q = canonical_of m q' -> q = q'.
Proof.
  intros V V' E. apply marshal_inj in E; [|by eapply body_fields_wf, body_read_as..].
  injection E as E. by rewrite V, V' in E.
Qed.

Definition key_of_question (tn m q : string) : Key := mkKey tn m (EncodeToString (Sum256 (preimage m (canonical_of m q)))).

Lemma BuildKey_question tn m q : BuildKey tn m (buildBody m q) = inl (key_of_question tn m q).
Proof. unfold BuildKey. by rewrite canonicalize_question. Qed.

(** The hash tells the study's questions apart. *)
Definition no_collision (m : string) (qs : list string) : Prop :=
  forall q q', q ∈ qs -> q' ∈ qs ->
    EncodeToString (Sum256 (preimage m (canonical_of m q))) = EncodeToString (Sum256 (preimage m (canonical_of m q'))) ->
    preimage m (canonical_of m q) = preimage m (canonical_of m q').

(** It does when their hashes are listed without a repetition. *)
Lemma fmap_apart {A B} (h : A -> B) l x y : NoDup (h <$> l) -> x ∈ l -> y ∈ l -> h x = h y -> x = y.
Proof.
  intros N [i Hi]%list_elem_of_lookup [j Hj]%list_elem_of_lookup E.
  assert (i = j) as ->; [|congruence].
  eapply (NoDup_lookup _ _ _ (h x) N); [by rewrite list_lookup_fmap, Hi|by rewrite list_lookup_fmap, Hj, E].
Qed.

Lemma key_of_question_inj tn m qs q q' :
  no_collision m qs -> Forall valid_utf8 qs -> q ∈ qs -> q' ∈ qs ->
  key_of (key_of_question tn m q) = key_of (key_of_question tn m q') -> q = q'.
Proof.
  intros C V Hq Hq' E%key_of_inj. apply (f_equal KHash) in E. unfold key_of_question in E. cbn [KHash] in E.
  specialize (C q q' Hq Hq' E). apply preimage_inj in C as [_ X]. rewrite list.Forall_forall in V.
  exact (canonical_of_inj m q q' (V q Hq) (V q' Hq') X).
Qed.

(** ** The exact tier as a list *)

Lemma warm_exact_spec s clock al i store m :
  exact_repr store m -> ttl store = studyTTL ->
  Z.of_nat (length m + length al) < maxEntries store ->
  (forall a, a ∈ al -> abody a = buildBody (model s) (Anchor (agroup a))) ->
  let key a := key_of_question (tenant s) (model s) (Anchor (agroup a)) in
  NoDup ((held_key <$> m) ++ (key_of ∘ key <$> al)) ->
  exists store' m', warm_exact s clock i al store = inl store' /\ exact_repr store' m' /\
    NoDup (held_key <$> m') /\
    forall x, x ∈ m' <-> x ∈ m \/ exists j a, al !! j = Some a /\
      x = mkHeld (key a) (stamped (entry a) (clock (i + j)%nat)) (clock (i + j)%nat + studyTTL).
Proof.
  intros R T L Bd key N. revert i store m R T L Bd N. induction al as [|a al IH]; intros i store m R T L Bd N; cbn [warm_exact].
  { exists store, m. split_and!; [done|done|by rewrite app_nil_r in N|].
    intros x. split; [by left|]. intros [H|(j & a & H & _)]; [done|by rewrite lookup_nil in H]. }
  rewrite (Bd a ltac:(left)), BuildKey_question. fold (key a).
  rewrite fmap_cons in N. change (?f <$> ?x) with (map f x) in N at 2.
  assert (Hk : forall x, x ∈ m -> held_key x <> key_of (key a)).
  { intros x Hx E. apply list.NoDup_app in N as (_ & N & _). apply (N (held_key x)).
    - by apply list_elem_of_fmap_2.
    - rewrite E. left. }
  pose proof (repr_insert store m (clock i) (key a) (entry a) R) as I.
  unfold spec_insert in I. rewrite (spec_remove_none _ _ Hk) in I.
  rewrite take_ge in I by (simpl in *; lia). destruct I as (R' & _ & M' & T').
  unfold exact_Put. destruct (insert_ store (clock i) (key a) (entry a)) as [store' ev] eqn:Es. cbn [fst] in *.
  set (x0 := mkHeld (key a) (stamped (entry a) (clock i)) (clock i + ttl store)) in *.
  destruct (IH (S i) store' (x0 :: m)) as (store2 & m2 & E & R2 & N2 & H2); [done|congruence| | | |].
  - rewrite M'. simpl in *. lia.
  - intros b Hb. apply Bd. by right.
  - rewrite fmap_cons, <- app_comm_cons, Permutation_middle. exact N.
  - exists store2, m2. split_and!; [done|done|done|]. intros x. rewrite H2, elem_of_cons. split.
    + intros [[->|Hx]|(j & b & Hj & ->)]; [right; exists 0%nat, a|by left|right; exists (S j), b].
      * split; [done|]. unfold x0. by rewrite T, Nat.add_0_r.
      * split; [done|]. by rewrite Nat.add_succ_r.
    + intros [Hx|(j & b & Hj & ->)]; [by left; right|]. destruct j as [|j]; simpl in Hj.
      * injection Hj as <-. left. left. unfold x0. by rewrite T, Nat.add_0_r.
      * right. exists j, b. split; [done|]. by rewrite Nat.add_succ_r.
Qed.

(** A lookup in time moves what it finds to the front and changes nothing else. *)
Lemma lookup_in_time m now k :
  NoDup (held_key <$> m) -> (forall x, x ∈ m -> now < hexpires x) ->
  (spec_lookup m now k).2 ≡ₚ m /\
  match (spec_lookup m now k).1 with
  | Some e => exists x, x ∈ m /\ held_key x = key_of k /\ hentry x = e
  | None => forall x, x ∈ m -> held_key x <> key_of k
  end.
Proof.
  intros N L. unfold spec_lookup. destruct (spec_find m (key_of k)) as [x|] eqn:E.
  - destruct (spec_find_Some _ _ _ E) as [Hx Hk]. rewrite (proj2 (Z.ltb_lt now (hexpires x))) by by apply L.
    cbn [fst snd]. split; [|by exists x]. apply list_elem_of_lookup in Hx as [i Hi].
    rewrite (spec_remove_delete k m i x) by done. by rewrite <- delete_Permutation.
  - split; [done|]. cbn [fst]. by apply spec_find_None.
Qed.

Record tier_adds (l : Label) (k : Z) (r r' : TierRow) : Prop := {
  tier_n : TN r' = TN r + k;
  tier_hits : THits r' = THits r + (if bool_decide (l = LabelRepeat) then k else 0);
  tier_own : TOwn r' = TOwn r + (if bool_decide (l = LabelRepeat) then k else 0);
  tier_cross : TCross r' = TCross r
}.

Lemma held_unique m x y : NoDup (held_key <$> m) -> x ∈ m -> y ∈ m -> held_key x = held_key y -> x = y.
Proof.
  intros N Hx Hy E. apply list_elem_of_lookup in Hx as [i Hi], Hy as [j Hj].
  pose proof (spec_find_lookup m i x N Hi) as F1. pose proof (spec_find_lookup m j y N Hj) as F2.
  rewrite E, F2 in F1. by injection F1.
Qed.

(** What the warmed tier holds for each probe: a repeat's own answer, and nothing
    for the others. *)
Definition exact_answers (s : Study) (m : list held) (p : probeRecord) : Prop :=
  let k := key_of (key_of_question (tenant s) (model s) (ptext p)) in
  pbody p = buildBody (model s) (ptext p) /\
  if bool_decide (label p = LabelRepeat)
  then exists x a, x ∈ m /\ held_key x = k /\ decodeAnswer (hentry x) = Some a /\ AGroup a = ID (pgroup p)
  else forall x, x ∈ m -> held_key x <> k.

Lemma exact_probes_spec s clock ps i store rows m :
  exact_repr store m -> NoDup (held_key <$> m) -> (forall x j, x ∈ m -> clock j < hexpires x) ->
  (forall p, p ∈ ps -> exact_answers s m p) ->
  exists rows', exact_probes s clock i ps store rows = inl rows' /\
    forall l, tier_adds l (count (fun _ => true) l ps) (tier_of rows l) (tier_of rows' l).
Proof.
  intros R N L A. revert i store rows m R N L A. induction ps as [|p ps IH]; intros i store rows m R N L A.
  { exists rows. split; [done|]. intros l. constructor; unfold count; cbn; try lia; case_bool_decide; lia. }
  cbn [exact_probes]. destruct (A p ltac:(left)) as [-> Hp]. rewrite BuildKey_question.
  set (k := key_of_question (tenant s) (model s) (ptext p)) in *.
  destruct (repr_lookup store m (clock i) k R) as (E1 & R' & _).
  destruct (lookup_in_time m (clock i) k N ltac:(auto)) as [Pm Hit].
  assert (Next : forall row store', store' = (lookup_ store (clock i) k).2 ->
    tier_adds (label p) 1 (tier_of rows (label p)) row ->
    exists rows', exact_probes s clock (S i) ps store' (<[label p := row]> rows) = inl rows' /\
      forall l, tier_adds l (count (fun _ => true) l (p :: ps)) (tier_of rows l) (tier_of rows' l)).
  { intros row store' -> [H1 H2 H3 H4].
    destruct (IH (S i) (lookup_ store (clock i) k).2 (<[label p := row]> rows) (spec_lookup m (clock i) k).2) as (rows' & E & T).
    - exact R'.
    - by rewrite Pm.
    - intros x j Hx. apply L. by rewrite <- Pm.
    - intros q Hq. destruct (A q ltac:(by right)) as [B1 B2]. split; [exact B1|].
      case_bool_decide; [destruct B2 as (x & a & Hx & ?); exists x, a; split; [by rewrite Pm|done]|].
      intros x Hx. apply B2. by rewrite <- Pm.
    - exists rows'. split; [exact E|]. intros l. rewrite count_cons. specialize (T l). unfold tier_of in *.
      destruct (decide (label p = l)) as [Hl|Hl];
        [rewrite bool_decide_true by done; subst l; rewrite lookup_insert_eq in T
        |rewrite bool_decide_false by done; rewrite lookup_insert_ne in T by done];
        destruct T as [T1 T2 T3 T4]; cbn [default from_option id andb] in *; constructor;
        rewrite ?T1, ?T2, ?T3, ?T4, ?H1, ?H2, ?H3, ?H4;
        match goal with |- context [if bool_decide ?P then _ else _] => destruct (bool_decide P) | _ => idtac end; lia. }
  unfold exact_Get. destruct (lookup_ store (clock i) k) as [o store'] eqn:El. cbn [fst] in E1. subst o.
  destruct (spec_lookup m (clock i) k).1 as [e|]; cbn [fst].
  - destruct Hit as (x & Hx & Kx & <-). case_bool_decide as Rp.
    + destruct Hp as (y & a & Hy & Ky & Da & Ga). rewrite (held_unique m x y N Hx Hy) by congruence.
      rewrite Da, bool_decide_true by done. apply Next; [done|]. unfold count_hit.
      constructor; cbn; rewrite ?bool_decide_true by done; lia.
    + by destruct (Hp x Hx).
  - case_bool_decide as Rp.
    + destruct Hp as (y & a & Hy & Ky & _). by destruct (Hit y Hy).
    + apply Next; [done|]. constructor; cbn; rewrite ?bool_decide_false by done; lia.
Qed.

(** ** Properties of the exact tier *)

(** What was read from a file is valid UTF-8. *)
Definition utf8_corpus (c : Corpus) : Prop :=
  Forall valid_utf8 (corpus_questions c) /\ Forall (fun g => valid_utf8 (ID g)) (Groups c).

(** As every corpus that loads is. *)
Lemma loaded_utf8_corpus file c : LoadCorpus file = inl c -> utf8_corpus c.
Proof.
  intros F%loaded_utf8. split; [|by apply (list.Forall_impl _ _ _ F); intros g []].
  unfold corpus_questions. apply list.Forall_forall. intros q (l & Hq & Hl)%elem_of_concat.
  apply list_elem_of_fmap in Hl as (g & -> & Hg). rewrite list.Forall_forall in F. destruct (F g Hg) as (_ & Va & Vp).
  revert q Hq. apply list.Forall_forall. constructor; [exact Va|].
  apply Forall_fmap, list.Forall_forall. intros p Hp. rewrite list.Forall_forall in Vp. apply Vp.
  unfold Probes, slice_list in Hp. by apply elem_of_take in Hp as (i & ? & _); eapply list_elem_of_lookup_2.
Qed.

Lemma anchor_question c g : g ∈ Groups c -> Anchor g ∈ corpus_questions c.
Proof.
  intros H. apply elem_of_concat. eexists. split; [left|]. apply list_elem_of_fmap. by exists g.
Qed.
Lemma probe_question c g q : g ∈ Groups c -> q ∈ Probes g -> Text q ∈ corpus_questions c.
Proof.
  intros H Hq. apply elem_of_concat. exists (Anchor g :: (Text <$> Probes g)). split.
  - right. apply list_elem_of_fmap. by exists q.
  - apply list_elem_of_fmap. by exists g.
Qed.

(** Of a checked corpus, a repeat asks its own anchor's question, and any other
    probe a question that is no anchor's. *)
Lemma repeats_only c g q : corpus_ok c -> g ∈ Groups c -> q ∈ Probes g ->
  if bool_decide (PLabel q = LabelRepeat) then Text q = Anchor g
  else forall g', g' ∈ Groups c -> Anchor g' <> Text q.
Proof.
  intros Ok Hg Hq. pose proof (groups_ok _ Ok) as F. rewrite list.Forall_forall in F.
  pose proof (probes_ok _ (F g Hg)) as Fp. rewrite list.Forall_forall in Fp. specialize (Fp q Hq).
  case_bool_decide as R; [by apply Fp|]. intros g' Hg' E.
  assert (Hf : Text q ∈ fresh_texts (Probes g)).
  { unfold fresh_texts. apply list_elem_of_fmap. exists q. split; [done|]. by apply list_elem_of_filter. }
  pose proof (questions_differ _ Ok) as N.
  assert (G : forall gs, NoDup (concat (questions <$> gs)) -> g ∈ gs -> g' ∈ gs -> False); [|by apply (G (Groups c))].
  clear - Hf E. induction gs as [|h gs IH]; intros N; [by intros ?%not_elem_of_nil|].
  rewrite fmap_cons in N. cbn [concat] in N. apply list.NoDup_app in N as (Nh & D & N).
  intros [->|Hg]%elem_of_cons [->|Hg']%elem_of_cons.
  - unfold questions in Nh. apply list.NoDup_cons in Nh as [Nh _]. by rewrite E in Nh.
  - apply (D (Text q)); [by right|]. apply elem_of_concat. exists (questions g'). rewrite <- E.
    split; [left|]. by apply list_elem_of_fmap_2.
  - apply (D (Anchor h)); [left|]. apply elem_of_concat. exists (questions g). rewrite E.
    split; [by right|]. by apply list_elem_of_fmap_2.
  - by apply IH.
Qed.

Lemma anchors_differ c : corpus_ok c -> NoDup (Anchor <$> Groups c).
Proof.
  intros Ok. pose proof (questions_differ _ Ok) as N. clear Ok. induction (Groups c) as [|g gs IH]; [constructor|].
  rewrite fmap_cons in N. rewrite fmap_cons. cbn [concat] in N. apply list.NoDup_app in N as (_ & D & N).
  apply list.NoDup_cons. split; [|by apply IH]. intros (g' & E & Hg')%list_elem_of_fmap.
  apply (D (Anchor g)); [left|]. apply elem_of_concat. exists (questions g'). rewrite E.
  split; [left|]. by apply list_elem_of_fmap_2.
Qed.

Lemma keys_differ tn m qs al :
  no_collision m qs -> Forall valid_utf8 qs -> (forall a, a ∈ al -> Anchor (agroup a) ∈ qs) ->
  NoDup ((fun a => Anchor (agroup a)) <$> al) ->
  NoDup ((fun a => key_of (key_of_question tn m (Anchor (agroup a)))) <$> al).
Proof.
  intros C V. induction al as [|a al IH]; intros Hq N; [constructor|]. rewrite !fmap_cons in *.
  apply list.NoDup_cons in N as [Na N]. apply list.NoDup_cons. split; [|apply IH; [by intros; apply Hq; right|done]].
  intros (b & E & Hb)%list_elem_of_fmap. apply Na. apply list_elem_of_fmap. exists b. split; [|done].
  eapply (key_of_question_inj tn m qs); [done|done|apply Hq; left|apply Hq; by right|exact E].
Qed.

Section ExactTier.
Context (c : Corpus) (tn m : string) (vectors : gmap string (list f64)) (completions : gmap string completion).
Context (s : Study) (built : NewStudy c tn m vectors completions = inl s).
Context (ok : corpus_ok c) (utf8 : utf8_corpus c) (paid : priced completions).
Context (told_apart : no_collision m (corpus_questions c)).

Let key (g : Group) : Key := key_of_question tn m (Anchor g).

Lemma anchor_record a : a ∈ anchors s ->
  exists g, g ∈ Groups c /\ agroup a = g /\ abody a = buildBody m (Anchor g) /\ StoredAt (entry a) = 0.
Proof.
  destruct (built_spec _ _ _ _ _ _ built) as (_ & _ & Fa & _). intros [i Hi]%list_elem_of_lookup.
  destruct (Forall2_lookup_r _ _ _ _ _ Fa Hi) as (g & Hg & E1 & E2 & _ & E3).
  exists g. split_and!; [by eapply list_elem_of_lookup_2|done..].
Qed.

Lemma anchor_groups : (fun a => Anchor (agroup a)) <$> anchors s = Anchor <$> Groups c.
Proof.
  destruct (built_spec _ _ _ _ _ _ built) as (_ & _ & Fa & _).
  induction Fa as [|g a gs al (E1 & _) F IH]; [done|]. rewrite !fmap_cons, IH. by rewrite E1.
Qed.

(** What the warmed tier holds: every anchor's answer, under its question's key. *)
Definition holds_anchors (clock : nat -> Time) (ms : list held) : Prop :=
  forall x, x ∈ ms <-> exists j a, anchors s !! j = Some a /\
    x = mkHeld (key (agroup a)) (stamped (entry a) (clock j)) (clock j + studyTTL).

Lemma warmed clock : Z.of_nat (length (Groups c)) < max_int64 - 1 ->
  exists store ms, warm_exact s clock 0 (anchors s) (NewExact (Z.of_nat (length (anchors s)) + 1) studyTTL) = inl store /\
    exact_repr store ms /\ NoDup (held_key <$> ms) /\ holds_anchors clock ms.
Proof.
  intros Lm. destruct (built_spec _ _ _ _ _ _ built) as (Et & Em & Fa & _).
  pose proof (Forall2_length _ _ _ Fa) as La.
  destruct (warm_exact_spec s clock (anchors s) 0 (NewExact (Z.of_nat (length (anchors s)) + 1) studyTTL) [])
    as (store & ms & E & R & N & Hm).
  - apply NewExact_repr. lia.
  - done.
  - cbn. destruct (_ <=? 0) eqn:X; bool_to_prop; lia.
  - intros a Ha. destruct (anchor_record a Ha) as (g & _ & -> & -> & _). by rewrite Em.
  - cbn [fmap list_fmap app]. rewrite Et, Em. apply (keys_differ tn m (corpus_questions c)); [done|apply utf8| |].
    + intros a Ha. destruct (anchor_record a Ha) as (g & Hg & -> & _). by apply anchor_question.
    + rewrite anchor_groups. by apply anchors_differ.
  - exists store, ms. split_and!; [exact E|exact R|exact N|]. intros x. rewrite Hm. unfold key. rewrite Et, Em. split.
    + intros [Hx|H]; [by apply not_elem_of_nil in Hx|exact H].
    + by right.
Qed.

Lemma probe_answered clock ms p : holds_anchors clock ms -> p ∈ probes s -> exact_answers s ms p.
Proof.
  intros H Hp. destruct (built_spec _ _ _ _ _ _ built) as (Et & Em & Fa & _).
  destruct (probe_of _ _ _ _ _ _ built p Hp) as (g & q & Hg & Hq & Eg & El & Ex & Eb).
  unfold exact_answers. rewrite Et, Em, El, Ex, Eb, Eg. split; [done|].
  pose proof (repeats_only c g q ok Hg Hq) as Rp. case_bool_decide.
  - rewrite Rp. apply list_elem_of_lookup in Hg as [j Hj].
    destruct (Forall2_lookup_l _ _ _ _ _ Fa Hj) as (a & Ha & E1 & _).
    destruct (anchor_readable _ _ _ _ _ _ built paid a) as (g' & Hg' & Ea & Da); [by eapply list_elem_of_lookup_2|].
    assert (g' = g) as -> by congruence. eexists _, _. split_and!.
    + apply H. exists j, a. split; [exact Ha|reflexivity].
    + unfold held_key. cbn [hkey]. unfold key. rewrite Ea. reflexivity.
    + unfold decodeAnswer in *. cbn [hentry]. unfold stamped. destruct (time_IsZero _); exact Da.
    + cbn [AGroup]. destruct utf8 as [_ Vi]. rewrite list.Forall_forall in Vi. by apply Vi.
  - intros x (j & a & Ha & ->)%H E. unfold held_key in E. cbn [hkey] in E.
    destruct (anchor_record a) as (g' & Hg' & Ea & _); [by eapply list_elem_of_lookup_2|]. rewrite Ea in E.
    apply (Rp g' Hg'). eapply (key_of_question_inj tn m (corpus_questions c)); [done|apply utf8| | |exact E].
    + exact (anchor_question c g' Hg').
    + exact (probe_question c g q Hg Hq).
Qed.
End ExactTier.

(** The baseline is what it is said to be: of a checked corpus in valid UTF-8
    whose questions the hash tells apart, replayed within a day, the exact tier
    never fails, answers every repeat from its own group, and answers no other
    probe at all. *)
Theorem exact_tier_is_the_repeats c tn m vectors completions s clock :
  corpus_ok c -> utf8_corpus c -> priced completions -> NewStudy c tn m vectors completions = inl s ->
  no_collision m (corpus_questions c) ->
  (forall i j, clock j < clock i + studyTTL) -> Z.of_nat (length (Groups c)) < max_int64 - 1 ->
  exists rows, RunExactTier s clock = inl rows /\
    forall l, let r := tier_of rows l in
      let n := count (fun _ => true) l (probes s) in
      TN r = n /\ TCross r = 0 /\
      if bool_decide (l = LabelRepeat) then THits r = n /\ TOwn r = n else THits r = 0 /\ TOwn r = 0.
Proof.
  intros Ok V P B C Cl Lm.
  destruct (warmed c tn m vectors completions s B Ok V C clock Lm) as (store & ms & E & R & N & H).
  destruct (exact_probes_spec s clock (probes s) (length (anchors s)) store ∅ ms R N) as (rows & Er & A).
  - intros x j (i & a & _ & ->)%H. apply Cl.
  - intros p Hp. by eapply probe_answered.
  - unfold RunExactTier. rewrite E, Er. eexists. split; [reflexivity|]. intros l. cbv zeta.
    assert (T0 : tier_of ∅ l = zeroTier) by done.
    destruct (A l) as [A1 A2 A3 A4]. rewrite T0 in A1, A2, A3, A4. cbn in A1, A2, A3, A4.
    assert (W : tier_of (with_rate <$> rows) l = with_rate (tier_of rows l) \/
                tier_of (with_rate <$> rows) l = zeroTier /\ tier_of rows l = zeroTier).
    { unfold tier_of. rewrite lookup_fmap. destruct (rows !! l); [by left|by right]. }
    destruct W as [->|[-> W]]; [|rewrite W in A1, A2, A3, A4]; cbn in *;
      destruct (bool_decide (l = LabelRepeat)); split_and!; lia.
Qed.

Module StudyExample.

Definition probe_text (l q : string) : string :=
  struct_text [("label", quote l); ("text", quote q); ("flip", quote "on")]%string.
Definition file : string := struct_text
  [("schema", quote corpusSchema);
   ("groups", array_text [struct_text
      [("id", quote "g"); ("domain", quote "d"); ("anchor", quote "a");
       ("probes", array_text [probe_text LabelRepeat "a"; probe_text LabelParaphrase "p";
          probe_text LabelOpposite "o"; probe_text LabelUnrelated "u"])]])]%string.

Definition c : Corpus := match LoadCorpus (Some file) with inl c => c | inr _ => zeroCorpus end.
Lemma c_loads : LoadCorpus (Some file) = inl c.
Proof. vm_compute. reflexivity. Qed.

(** Two numbers per question: the paraphrase leans away, the opposite stays close. *)
Definition asked : list (string * list Z) := [("a", [1; 0]); ("p", [1; 1]); ("o", [9; 1]); ("u", [0; 1])]%string.
Definition vector_of (x : string * list Z) : string * list f64 := (PromptText (buildBody "m" x.1), f64_of_Z <$> x.2).
Definition vectors : gmap string (list f64) := list_to_map (vector_of <$> asked).
Definition answers : gmap string completion := {["o"%string := mkCompletion "no" 3]}.
Definition clock (i : nat) : Time := 1.

Definition s : Study := match NewStudy c "t" "m" vectors answers with inl s => s | inr _ => mkStudy c "" "" [] [] end.
Lemma s_built : NewStudy c "t" "m" vectors answers = inl s.
Proof. vm_compute. reflexivity. Qed.

Lemma c_ok : corpus_ok c.
Proof. apply validate_ok. vm_compute. reflexivity. Qed.

Lemma answers_priced : priced answers.
Proof. intros q w H. unfold answers in H. apply lookup_singleton_Some in H as [_ <-]. by split; vm_compute. Qed.

Example sweep_accounts_witness :
  exists row, sweepOne s clock 2 (f64_ratio 9 10) = Some (inl row) /\
    forall l, l ∈ labelOrder ->
      let r := row_of (Labels row) l in
      LN r = count (fun _ => true) l (probes s) /\
      LHits r = count (is_hit s 2 (warmSemantic s clock (f64_ratio 9 10))) l (probes s) /\
      LHits r <= LN r /\ LHits r = LOwn r + LCross r /\ LHits r = LCorrect r + LFalse r /\
      (if answerable l then LCorrect r = LOwn r else LCorrect r = 0 /\ LFalse r = LHits r).
Proof. exact (sweep_accounts c "t" "m" vectors answers s clock 2 (f64_ratio 9 10) c_ok answers_priced s_built). Defined.

(** The paraphrase is answered at 0.7 and no longer at 0.9; the opposite is
    answered, falsely, at both. *)
Example the_sweep :
  (fun th => match sweepOne s clock 2 th with
             | Some (inl row) => (fun l => let r := row_of (Labels row) l in (LCorrect r, LFalse r)) <$> labelOrder
             | _ => []
             end) <$> [f64_ratio 7 10; f64_ratio 9 10]
  = [[(1, 0); (1, 0); (0, 1); (0, 0)]; [(1, 0); (0, 0); (0, 1); (0, 0)]].
Proof. vm_compute. reflexivity. Qed.

Example raising_never_adds_witness :
  exists low high, sweepOne s clock 2 (f64_ratio 7 10) = Some (inl low) /\
    sweepOne s clock 2 (f64_ratio 9 10) = Some (inl high) /\
    forall l, l ∈ labelOrder -> LHits (row_of (Labels high) l) <= LHits (row_of (Labels low) l).
Proof.
  destruct (raising_never_adds c "t" "m" vectors answers s clock 2 (f64_ratio 7 10) (f64_ratio 9 10)
    c_ok answers_priced s_built) as (_ & low & high & El & Eh & H); [vm_compute; reflexivity..|].
  exists low, high. split; [exact El|]. split; [exact Eh|]. intros l Hl. apply (H l Hl).
Defined.

Lemma apart : no_collision "m" (corpus_questions c).
Proof.
  set (h q := EncodeToString (Sum256 (preimage "m" (canonical_of "m" q)))).
  assert (N : NoDup (h <$> remove_dups (corpus_questions c))) by (apply (bool_decide_unpack _); vm_compute; exact I).
  intros q q' Hq Hq' E. f_equal. f_equal. revert E. apply (fmap_apart h _ q q' N); by apply elem_of_remove_dups.
Qed.

Example exact_tier_is_the_repeats_witness :
  exists rows, RunExactTier s clock = inl rows /\
    forall l, let r := tier_of rows l in
      let n := count (fun _ => true) l (probes s) in
      TN r = n /\ TCross r = 0 /\
      if bool_decide (l = LabelRepeat) then THits r = n /\ TOwn r = n else THits r = 0 /\ TOwn r = 0.
Proof.
  apply (exact_tier_is_the_repeats c "t" "m" vectors answers s clock c_ok (loaded_utf8_corpus _ _ c_loads)
    answers_priced s_built apart); [|vm_compute; reflexivity].
  intros i j. vm_compute. reflexivity.
Defined.
End StudyExample.
