(* ===== verification/Verdict.v ===== *)
(** * What the cache study concludes (cmd/cachestudy/study.go, report.go)

    The study's own formula against the production store's, the sweep's points,
    the reduction of the sweep to an answer, and what each of them is worth: the
    formulas agree, a threshold without a wrong answer exists only where the two
    samples are separable, and the answer quotes the best row there is. *)

From Stdlib Require Import ZArith Lia String SpecFloat.
From stdpp Require Import base gmap strings list numbers sorting.
From S2P Require Import Prelude Float64 GoString Providers Json JsonText Exact Semantic Lookup Samples Corpus Study.

Local Open Scope Z_scope.

(** ** The verdict (report.go) *)

Record Criterion := mkCriterion {
  CName : string; MaxOppositeFalseHitRate : f64; Satisfied : bool; CThreshold : option f64;
  ParaphraseHitRate : f64; OppositeFalseHitRate : f64
}.

(** The sentence of [answerFrom], as what it quotes. *)
Inductive Answer :=
| Yes (threshold paraphrases : f64)
| Partly (threshold paraphrases opposites : f64)
| No (opposites margin threshold : f64).

Record Verdict := mkVerdict {
  VAnswer : Answer; BestMarginThreshold : f64; BestMarginPP : f64; VSeparable : bool; Criteria : list Criterion
}.

Definition criteria : list (string * f64) :=
  [("no wrong answers", f64_zero); ("under 1 in 20 wrong", f64_ratio 5 100); ("under 1 in 10 wrong", f64_ratio 10 100)]%string.

Definition opposite_rate (row : SweepRow) : f64 := FalseHitRate (row_of (Labels row) LabelOpposite).
Definition paraphrase_rate (row : SweepRow) : f64 := CorrectHitRate (row_of (Labels row) LabelParaphrase).

(** The loop over the margins: the first turn always takes its row. *)
Definition best_margin (sweep : list SweepRow) : f64 * f64 :=
  match sweep with
  | [] => (f64_zero, f64_zero)
  | row :: sweep =>
      foldl (fun best row => if f64_ltb best.1 (MarginPP row) then (MarginPP row, Threshold row) else best)
        (MarginPP row, Threshold row) sweep
  end.

Definition weigh (max : f64) (best : Criterion) (row : SweepRow) : Criterion :=
  let opposite := opposite_rate row in
  let paraphrase := paraphrase_rate row in
  if f64_ltb max opposite || f64_leb paraphrase f64_zero then best
  else if negb (Satisfied best) || f64_ltb (ParaphraseHitRate best) paraphrase
  then mkCriterion (CName best) (MaxOppositeFalseHitRate best) true (Some (Threshold row)) paraphrase opposite
  else best.

Definition judge (sweep : list SweepRow) (c : string * f64) : Criterion :=
  foldl (weigh c.2) (mkCriterion c.1 c.2 false None f64_zero f64_zero) sweep.

Definition f64_hundred : f64 := f64_of_Z 100.

(** [None]: an empty list of criteria, which there is none of, or a satisfied one
    without its threshold. *)
Definition answerFrom (cs : list Criterion) (margin threshold : f64) : option Answer :=
  match cs, last cs with
  | strict :: _, Some loose =>
      if Satisfied strict then
        (fun th => Yes th (f64_mul f64_hundred (ParaphraseHitRate strict))) <$> CThreshold strict
      else if Satisfied loose then
        (fun th => Partly th (f64_mul f64_hundred (ParaphraseHitRate loose)) (f64_mul f64_hundred (OppositeFalseHitRate loose)))
          <$> CThreshold loose
      else Some (No (f64_mul f64_hundred (MaxOppositeFalseHitRate loose)) margin threshold)
  | _, _ => None
  end.

Definition buildVerdict (sweep : list SweepRow) (separable : bool) : option Verdict :=
  let '(margin, threshold) := best_margin sweep in
  let cs := judge sweep <$> criteria in
  (fun answer => mkVerdict answer threshold margin separable cs) <$> answerFrom cs margin threshold.

(** ** The two formulas *)

Definition clamp (x : f64) : f64 :=
  if f64_is_nan x then f64_zero
  else if f64_ltb f64_one x then f64_one
  else if f64_ltb x f64_minus_one then f64_minus_one
  else x.

(** The store's similarity is the command's cosine, held to the range. *)
Lemma similarity_clamps a b : cosineSimilarity a b = clamp (cosine a b).
Proof.
  unfold cosineSimilarity, cosine. destruct (_ || _); [by vm_compute|].
  destruct (dot_mags a b _ _ _) as [[d ma] mb]. destruct (_ || _); [by vm_compute|done].
Qed.

Definition in_range (x : f64) : Prop := f64_is_nan x = false /\ f64_ltb f64_one x = false.

Lemma clamp_ltb x th : in_range x -> f64_ltb f64_zero th = true ->
  f64_ltb (clamp x) th = f64_ltb x th /\ (f64_ltb x th = false -> f64_is_nan th = false -> clamp x = x).
Proof.
  intros [N L] P. unfold clamp. rewrite N, L. destruct (f64_ltb x f64_minus_one) eqn:M; [|done].
  destruct (f64_is_nan th) eqn:Nt; [by destruct th as [[]|[]| |[]]|].
  assert (H1 : f64_ltb f64_minus_one th = true).
  { apply f64_ltb_rank; [done..|]. apply f64_ltb_rank in P; [|done..]. unfold rank_lt in *. vm_compute (f64_rank f64_minus_one).
    vm_compute (f64_rank f64_zero) in P. cbn in *. lia. }
  assert (H2 : f64_ltb x th = true).
  { apply f64_ltb_rank; [done..|]. apply f64_ltb_rank in H1; [|done..]. apply f64_ltb_rank in M; [|done..].
    unfold rank_lt in *. lia. }
  by rewrite H1, H2.
Qed.

(** ** The warmed store *)

Lemma dropExpired_never records now : dropExpired records 0 now = (records, O).
Proof. by destruct records. Qed.

(** Record for record, the anchors. *)
Definition warmed_with (al : list anchorRecord) (rs : list semanticRecord) : Prop :=
  Forall2 (fun a r => vector r = avector a /\ sentry r = entry a) al rs.

Definition one_width (s : Study) (d : nat) : Prop :=
  (0 < d)%nat /\ (forall a, a ∈ anchors s -> length (avector a) = d) /\ forall p, p ∈ probes s -> length (pvector p) = d.

Lemma warm_records s clock th d : one_width s d -> anchors s <> [] ->
  let st := warmSemantic s clock th in
  dims st = Z.of_nat d /\ sttl st = 0 /\ warmed_with (anchors s) (default [] (stenants st !! tenant s)).
Proof.
  intros (Hd & Ha & _) Hne. unfold warmSemantic. set (f := fun '(st, i) a => _).
  assert (G : forall al before st i,
    (forall a, a ∈ al -> length (avector a) = d) -> sttl st = 0 ->
    (dims st = Z.of_nat d \/ dims st = 0 /\ al <> []) ->
    Z.of_nat (length before + length al) < maxPerTenant st ->
    warmed_with before (default [] (stenants st !! tenant s)) ->
    let st' := (foldl f (st, i) al).1 in
    dims st' = Z.of_nat d /\ sttl st' = 0 /\ warmed_with (before ++ al) (default [] (stenants st' !! tenant s))).
  { induction al as [|a al IH]; intros before st i Hl Ht Hdim Hm Hw.
    { cbn. rewrite app_nil_r. by destruct Hdim as [|[_ []]]. }
    cbn [foldl]. unfold f at 2 4 6. replace (before ++ a :: al) with ((before ++ [a]) ++ al) by by rewrite <- app_assoc.
    pose proof (Hl a ltac:(left)) as La. pose proof (Forall2_length _ _ _ Hw) as Lw. cbn [length] in Hm.
    assert (E : (Add st (clock i) (tenant s) (avector a) (Some (entry a))).1
      = mkStore (Semantic.threshold st) (maxPerTenant st) (sttl st) (Z.of_nat d)
          (<[tenant s := default [] (stenants st !! tenant s) ++ [mkRecord (avector a) (entry a) (clock i)]]> (stenants st))).
    { unfold Add. rewrite La, (proj2 (Nat.eqb_neq d 0)) by lia. cbn [dims stenants sttl maxPerTenant Semantic.threshold].
      assert (Ed : (if dims st =? 0 then Z.of_nat d else dims st) = Z.of_nat d)
        by (destruct Hdim as [->|[-> _]]; [destruct (Z.of_nat d =? 0); done|done]).
      rewrite Ed, Z.eqb_refl. cbn [negb]. rewrite Ht, dropExpired_never. rewrite length_app. cbn [length].
      rewrite (proj2 (Z.ltb_ge _ _)) by lia. done. }
    apply IH; rewrite ?E; cbn [sttl dims maxPerTenant stenants]; [|done|by left| |].
    - intros b Hb. apply Hl. by right.
    - rewrite length_app. cbn [length]. lia.
    - rewrite lookup_insert_eq. cbn [default from_option id]. apply Forall2_app; [done|]. by constructor. }
  apply (G (anchors s) []); [done|done|by right| |].
  - cbn. destruct (_ <=? 0) eqn:X; bool_to_prop; lia.
  - cbn. rewrite lookup_empty. constructor.
Qed.

(** Every score the study meets is a number no greater than one. *)
Definition scores_in_range (s : Study) : Prop :=
  forall p a, p ∈ probes s -> a ∈ anchors s -> in_range (cosine (pvector p) (avector a)).

(** What the production store answers, in the command's own arithmetic. *)
Lemma nearest_warm s clock now th d p :
  one_width s d -> anchors s <> [] -> scores_in_range s -> p ∈ probes s ->
  f64_is_nan th = false -> f64_ltb f64_zero th = true ->
  match (Nearest (warmSemantic s clock th) now (tenant s) (pvector p)).1 with
  | None => forall a, a ∈ anchors s -> f64_ltb (cosine (pvector p) (avector a)) th = true
  | Some (e, score) =>
      (exists a, a ∈ anchors s /\ entry a = e /\ score = cosine (pvector p) (avector a)) /\
      f64_ltb score th = false /\
      forall a, a ∈ anchors s -> f64_ltb score (cosine (pvector p) (avector a)) = false
  end.
Proof.
  intros W Hne R Hp Nt Pt. destruct (warm_records s clock th d W Hne) as (Ed & El & F).
  destruct (warm_threshold s clock th th) as [_ Et]. rewrite f64_leb_rank, Pt in Et by done. cbn [negb] in Et.
  destruct W as (Hd & _ & Hpd). unfold Nearest, scanTenant. rewrite Hpd, Ed, Z.eqb_refl, Et, El by done.
  rewrite (proj2 (Nat.eqb_neq d 0)) by lia.
  set (rs := default [] (stenants (warmSemantic s clock th) !! tenant s)) in *.
  assert (Cl : forall a r, a ∈ anchors s -> vector r = avector a ->
    f64_ltb (cosineSimilarity (pvector p) (vector r)) th = f64_ltb (cosine (pvector p) (avector a)) th /\
    (f64_ltb (cosine (pvector p) (avector a)) th = false ->
     cosineSimilarity (pvector p) (vector r) = cosine (pvector p) (avector a))).
  { intros a r Ha ->. rewrite similarity_clamps. destruct (clamp_ltb _ th (R p a Hp Ha) Pt). by auto. }
  pose proof (scan_best (pvector p) th 0 now rs [] None ltac:(by intros r ?%not_elem_of_nil)) as B. cbn [app] in B.
  destruct (scan rs _ th 0 now None) as [[e score]|]; cbn [fst best_of] in *.
  - destruct B as [(r & Hr & [_ Hc] & <- & ->) Top].
    apply list_elem_of_lookup in Hr as [i Hr]. destruct (Forall2_lookup_r _ _ _ _ _ F Hr) as (a & Ha%list_elem_of_lookup_2 & Va & Ve).
    destruct (Cl a r Ha Va) as [C1 C2]. rewrite C1 in Hc. rewrite C2 in * by done. split_and!; [by exists a|done|].
    intros b Hb. pose proof (R p a Hp Ha) as [Na _]. pose proof (R p b Hp Hb) as [Nb _].
    apply list_elem_of_lookup in Hb as [j Hj]. destruct (Forall2_lookup_l _ _ _ _ _ F Hj) as (r' & Hr' & Vb & _).
    apply list_elem_of_lookup_2 in Hj, Hr'. destruct (Cl b r' Hj Vb) as [C3 C4].
    destruct (f64_ltb (cosine (pvector p) (avector b)) th) eqn:L.
    + apply (f64_not_less_trans _ th); [done..| |done]. by apply f64_less_asym.
    + rewrite <- C4 by done. apply Top; [done|]. by split.
  - intros a Ha. pose proof Ha as [i Hi]%list_elem_of_lookup. destruct (Forall2_lookup_l _ _ _ _ _ F Hi) as (r & Hr & Va & _).
    apply list_elem_of_lookup_2 in Hr. destruct (Cl a r Ha Va) as [C1 _]. rewrite <- C1.
    destruct (f64_ltb (cosineSimilarity _ _) th) eqn:L; [done|]. destruct (B r Hr). by split.
Qed.

Lemma best_anchor_spec s p : scores_in_range s -> p ∈ probes s ->
  let best := best_anchor s p in
  (best = f64_zero \/ exists a, a ∈ anchors s /\ best = cosine (pvector p) (avector a)) /\
  forall a, a ∈ anchors s -> f64_ltb best (cosine (pvector p) (avector a)) = false.
Proof.
  intros R Hp. set (scores := (fun a => cosine (pvector p) (avector a)) <$> anchors s).
  assert (E : maxOf (f64_zero :: scores) = Some (best_anchor s p)).
  { unfold best_anchor, scores. cbn [maxOf]. f_equal. generalize f64_zero. induction (anchors s) as [|a al IH]; [done|].
    intros x. rewrite fmap_cons. cbn [foldl]. apply IH. }
  assert (Nn : no_nan (f64_zero :: scores)).
  { constructor; [done|]. apply list.Forall_forall. intros x (a & -> & Ha)%list_elem_of_fmap. by apply R. }
  destruct (maxOf_ge _ _ Nn E) as [[->|Hb]%elem_of_cons Hm]; (split; [|]).
  - by left.
  - intros a Ha. apply Hm. right. apply list_elem_of_fmap. by exists a.
  - right. apply list_elem_of_fmap in Hb as (a & Eb & Ha). by exists a.
  - intros a Ha. apply Hm. right. apply list_elem_of_fmap. by exists a.
Qed.

(** Two positive numbers neither of which is less are one number. *)
Lemma f64_equal x y : f64_is_nan x = false -> f64_is_nan y = false ->
  f64_ltb x y = false -> f64_ltb y x = false -> f64_ltb f64_zero x = true -> x = y.
Proof.
  intros Nx Ny L1%not_true_iff_false L2%not_true_iff_false P. rewrite f64_ltb_rank in L1, L2, P by done. unfold rank_lt in *.
  destruct x as [[]|[]| |[] m e], y as [[]|[]| |[] m' e']; cbn in *; try done; try lia.
  assert (e = e') as -> by lia. by assert (m = m') as -> by lia.
Qed.

Lemma f64_sub_self x : in_range x -> f64_ltb f64_zero x = true -> f64_sub x x = f64_zero.
Proof.
  intros [N L] P. destruct x as [[]|[]| |[] m e]; try done. unfold f64_sub, SFsub. rewrite Z.min_id.
  by rewrite Z.sub_diag.
Qed.

Lemma probeThreshold_positive : f64_is_nan probeThreshold = false /\ f64_ltb f64_zero probeThreshold = true.
Proof. by split; vm_compute. Qed.

#[local] Opaque probeThreshold cosineTolerance.

Lemma agrees s clock now d p :
  one_width s d -> scores_in_range s -> p ∈ probes s ->
  disagrees s now (warmSemantic s clock probeThreshold) p = false.
Proof.
  intros W R Hp. unfold disagrees. cbv zeta. generalize probeThreshold_positive.
  generalize probeThreshold. intros th [Nt Pt].
  destruct (best_anchor_spec s p R Hp) as [Hb Top].
  destruct (decide (anchors s = [])) as [Ea|Hne].
  - destruct Hb as [->|(a & Ha & _)]; [|rewrite Ea in Ha; destruct (not_elem_of_nil a Ha)].
    destruct W as (Hd & _ & Hpd). unfold Nearest, warmSemantic. rewrite Ea. cbn. rewrite Hpd by done.
    destruct d; [lia|]. cbn [Nat.eqb]. rewrite (proj2 (Z.eqb_neq _ 0)) by lia. cbn [fst].
    rewrite f64_leb_rank by done. by rewrite Pt.
  - pose proof (nearest_warm s clock now th d p W Hne R Hp Nt Pt) as Near.
    set (best := best_anchor s p) in *.
    assert (Nb : f64_is_nan best = false) by (destruct Hb as [->|(a & Ha & ->)]; [done|by apply R]).
    destruct (Nearest _ _ _ _).1 as [[e score]|]; cbn [fst] in *.
    + destruct Near as ((a & Ha & _ & ->) & Hth & Best). pose proof (R p a Hp Ha) as [Nx Lx].
      assert (P : f64_ltb f64_zero (cosine (pvector p) (avector a)) = true).
      { apply not_false_iff_true. intros E. assert (X : f64_ltb f64_zero th = false); [|congruence].
        by apply (f64_not_less_trans th (cosine (pvector p) (avector a)) f64_zero). }
      assert (E : cosine (pvector p) (avector a) = best).
      { apply f64_equal; try done; [|by apply Top].
        destruct Hb as [->|(b & Hb & ->)]; [by apply f64_less_asym|by apply Best]. }
      rewrite <- E, (f64_sub_self _ (conj Nx Lx) P). vm_compute. reflexivity.
    + rewrite f64_leb_rank by done. apply negb_false_iff. destruct Hb as [->|(b & Hb & ->)]; [done|by apply Near].
Qed.

(** *** Separable *)

Lemma separable_spec paraphrases opposites : no_nan paraphrases -> no_nan opposites ->
  separable paraphrases opposites = true <->
  paraphrases <> [] /\ opposites <> [] /\ forall x y, x ∈ paraphrases -> y ∈ opposites -> f64_ltb y x = true.
Proof.
  intros Np No. unfold separable. destruct (minOf paraphrases) as [m|] eqn:Em.
  2: { destruct paraphrases; [|done]. split; [done|]. by intros []. }
  destruct (maxOf opposites) as [M|] eqn:EM.
  2: { destruct opposites; [|done]. split; [done|]. by intros (_ & [] & _). }
  destruct (minOf_le _ _ Np Em) as [Hm Lm]. destruct (maxOf_ge _ _ No EM) as [HM LM].
  split.
  - intros L. split_and!; [by intros ->; apply not_elem_of_nil in Hm|by intros ->; apply not_elem_of_nil in HM|].
    intros x y Hx Hy. specialize (Lm x Hx). specialize (LM y Hy). unfold no_nan in *. rewrite list.Forall_forall in Np, No.
    destruct (f64_ltb y x) eqn:E; [done|].
    assert (X : f64_ltb y m = false) by (by apply (f64_not_less_trans m x y); auto).
    assert (f64_ltb M m = false); [|congruence]. by apply (f64_not_less_trans m y M); auto.
  - intros (_ & _ & H). by apply H.
Qed.

(** The map of the loop over the anchors, which have groups of their own. *)
Lemma anchorByGroup_own s a :
  NoDup ((fun a => ID (agroup a)) <$> anchors s) -> a ∈ anchors s -> anchorByGroup s !! ID (agroup a) = Some (avector a).
Proof.
  unfold anchorByGroup. set (f := fun (m : gmap string (list f64)) a => _).
  assert (Keep : forall al m k, k ∉ ((fun a => ID (agroup a)) <$> al) -> foldl f m al !! k = m !! k).
  { induction al as [|b al IH]; intros m k Hk; [done|]. rewrite fmap_cons, not_elem_of_cons in Hk. cbn [foldl].
    rewrite IH by tauto. apply lookup_insert_ne. naive_solver. }
  generalize (∅ : gmap string (list f64)).
  induction (anchors s) as [|b al IH]; intros m N; [by intros ?%not_elem_of_nil|].
  rewrite fmap_cons in N. apply list.NoDup_cons in N as [Nb N]. cbn [foldl].
  intros [->|Ha]%elem_of_cons; [|by apply IH]. rewrite Keep by done. apply lookup_insert_eq.
Qed.

Lemma count_none f l ps : count f l ps = 0 -> forall p, p ∈ ps -> label p = l -> f p = false.
Proof.
  unfold count. intros E p Hp Hl. destruct (f p) eqn:F; [|done].
  assert (X : p ∈ base.filter (fun p => label p = l /\ f p = true) ps) by by apply list_elem_of_filter.
  destruct (base.filter _ ps); [by apply not_elem_of_nil in X|done].
Qed.

Lemma count_all f l ps : count f l ps = count (fun _ => true) l ps -> forall p, p ∈ ps -> label p = l -> f p = true.
Proof.
  intros E p Hp Hl. apply negb_false_iff. revert p Hp Hl. apply count_none.
  rewrite (count_split (fun _ => true) f (fun p => negb (f p))) in E; [lia|]. intros p _ _. by destruct (f p).
Qed.

Section Clean.
Context (c : Corpus) (tn m : string) (vectors : gmap string (list f64)) (completions : gmap string completion).
Context (s : Study) (built : NewStudy c tn m vectors completions = inl s).
Context (ok : corpus_ok c) (utf8 : utf8_corpus c) (paid : priced completions).
Context (d : nat) (wide : one_width s d) (range : scores_in_range s).

Lemma anchors_of_groups : agroup <$> anchors s = Groups c.
Proof.
  destruct (built_spec _ _ _ _ _ _ built) as (_ & _ & F & _). induction F as [|g a gs al (E & _) F IH]; [done|].
  by rewrite fmap_cons, IH, E.
Qed.

Lemma anchor_ids : NoDup ((fun a => ID (agroup a)) <$> anchors s).
Proof. pose proof (ids_differ _ ok) as N. rewrite <- anchors_of_groups, <- list_fmap_compose in N. exact N. Qed.

Lemma anchors_there : anchors s <> [].
Proof. intros E. apply (groups_there _ ok). by rewrite <- anchors_of_groups, E. Qed.

Lemma own_anchor p : p ∈ probes s -> exists a, a ∈ anchors s /\ agroup a = pgroup p.
Proof.
  intros (g & q & Hg & _ & -> & _)%(probe_of _ _ _ _ _ _ built). rewrite <- anchors_of_groups in Hg.
  apply list_elem_of_fmap in Hg as (a & -> & Ha). by exists a.
Qed.

(** A probe's score is its cosine to the anchor of its group. *)
Lemma probe_score_own p a : p ∈ probes s -> a ∈ anchors s -> ID (agroup a) = ID (pgroup p) ->
  probe_score s p = cosine (pvector p) (avector a).
Proof. intros Hp Ha E. unfold probe_score. rewrite <- E, anchorByGroup_own by (done || apply anchor_ids). done. Qed.

Lemma answer_names a : a ∈ anchors s -> exists ans, decodeAnswer (entry a) = Some ans /\ AGroup ans = ID (agroup a).
Proof.
  intros Ha. destruct (anchor_readable _ _ _ _ _ _ built paid a Ha) as (g & Hg & E & D). eexists. split; [exact D|].
  cbn [AGroup]. rewrite E. destruct utf8 as [_ Vi]. rewrite list.Forall_forall in Vi. by apply Vi.
Qed.

Lemma scores_numbers l : no_nan (scores_of s l).
Proof.
  apply list.Forall_forall. intros x (p & -> & [_ Hp]%list_elem_of_filter)%list_elem_of_fmap.
  destruct (own_anchor p Hp) as (a & Ha & E). rewrite (probe_score_own p a) by (done || by rewrite E). by apply range.
Qed.

Lemma label_sampled l :
  (forall g, group_ok g -> with_label l (Probes g) <> []) -> scores_of s l <> [].
Proof.
  intros H. destruct (built_spec _ _ _ _ _ _ built) as (_ & _ & _ & F).
  destruct (Groups c) as [|g gs] eqn:G; [by destruct (groups_there _ ok)|].
  pose proof (groups_ok _ ok) as Fg. rewrite G in Fg. apply list.Forall_cons in Fg as [Og _]. specialize (H g Og).
  destruct (with_label l (Probes g)) as [|q qs] eqn:Eq; [done|].
  assert (Hq : q ∈ with_label l (Probes g)) by (rewrite Eq; left). apply list_elem_of_filter in Hq as [Lq Hq].
  rewrite fmap_cons in F. cbn [concat] in F. apply Forall2_app_inv_l in F as (ps & rest & F & _ & E).
  assert (Hx : (g, q) ∈ (fun p => (g, p)) <$> Probes g) by (apply list_elem_of_fmap; by exists q).
  apply list_elem_of_lookup in Hx as [i Hi]. destruct (Forall2_lookup_l _ _ _ _ _ F Hi) as (p & Hp & _ & El & _).
  apply list_elem_of_lookup_2 in Hp. cbn in El. intros E0. apply fmap_nil_inv in E0.
  assert (X : p ∈ base.filter (fun p => label p = l) (probes s)).
  { apply list_elem_of_filter. split; [congruence|]. rewrite E. apply elem_of_app. by left. }
  rewrite E0 in X. by apply not_elem_of_nil in X.
Qed.

(** At a threshold that answers every paraphrase from its group, a paraphrase
    scores no less than the threshold; where no opposite is answered, an opposite
    scores less. *)
Context (clock : nat -> Time) (now : Time) (th : f64).
Context (number : f64_is_nan th = false) (positive : f64_ltb f64_zero th = true).
Let st := warmSemantic s clock th.

Lemma own_hit_scores p : p ∈ probes s -> is_own s now st p = true -> f64_ltb (probe_score s p) th = false.
Proof.
  intros Hp. unfold is_own, hit_of.
  pose proof (nearest_warm s clock now th d p wide anchors_there range Hp number positive) as Near. fold st in Near.
  destruct (Nearest st now (tenant s) (pvector p)).1 as [[e score]|]; [|done].
  destruct Near as ((a & Ha & <- & ->) & Hth & _). destruct (answer_names a Ha) as (ans & -> & Ea).
  rewrite bool_decide_eq_true, Ea. intros E. by rewrite (probe_score_own p a Hp Ha E).
Qed.

Lemma no_hit_scores p : p ∈ probes s -> is_hit s now st p = false -> f64_ltb (probe_score s p) th = true.
Proof.
  intros Hp. unfold is_hit, hit_of.
  pose proof (nearest_warm s clock now th d p wide anchors_there range Hp number positive) as Near. fold st in Near.
  destruct (own_anchor p Hp) as (a & Ha & Ea).
  destruct (Nearest st now (tenant s) (pvector p)).1 as [[e score]|].
  - destruct Near as ((b & Hb & <- & _) & _). by destruct (answer_names b Hb) as (ans & -> & _).
  - intros _. rewrite (probe_score_own p a Hp Ha) by by rewrite Ea. by apply Near.
Qed.

Lemma clean_separates :
  (forall p, p ∈ probes s -> label p = LabelParaphrase -> is_own s now st p = true) ->
  (forall p, p ∈ probes s -> label p = LabelOpposite -> is_hit s now st p = false) ->
  separable (scores_of s LabelParaphrase) (scores_of s LabelOpposite) = true.
Proof.
  intros Hown Hno. apply separable_spec; [apply scores_numbers..|].
  split; [apply label_sampled; by intros ? []|]. split; [apply label_sampled; by intros ? []|].
  intros x y Hx Hy. pose proof (scores_numbers LabelParaphrase) as Nx. pose proof (scores_numbers LabelOpposite) as Ny.
  unfold no_nan in Nx, Ny. rewrite list.Forall_forall in Nx, Ny. specialize (Nx x Hx). specialize (Ny y Hy).
  apply list_elem_of_fmap in Hx as (p & -> & [Lp Hp]%list_elem_of_filter).
  apply list_elem_of_fmap in Hy as (q & -> & [Lq Hq]%list_elem_of_filter).
  pose proof (own_hit_scores p Hp (Hown p Hp Lp)) as H1. pose proof (no_hit_scores q Hq (Hno q Hq Lq)) as H2.
  apply not_false_iff_true. intros H3. by rewrite (f64_not_less_trans th (probe_score s p)) in H2.
Qed.
End Clean.

(** ** The sweep's points *)

Lemma thresholds_from_spec fuel mn mx step i out :
  thresholds_from fuel mn mx step i = Some out <->
  exists n, (n < fuel)%nat /\ out = sweep_point mn step <$> seq i n /\
    (forall j, (i <= j < i + n)%nat -> f64_ltb (f64_add mx slack) (sweep_point mn step j) = false) /\
    f64_ltb (f64_add mx slack) (sweep_point mn step (i + n)) = true.
Proof.
  revert i out. induction fuel as [|fuel IH]; intros i out; cbn [thresholds_from].
  { split; [done|]. intros (n & ? & _). lia. }
  destruct (f64_ltb _ _) eqn:L.
  - split.
    + intros [= <-]. exists 0%nat. rewrite Nat.add_0_r. split_and!; [lia|done|lia|done].
    + intros ([|n] & _ & -> & B & _); [done|]. rewrite B in L by lia. done.
  - split.
    + destruct (thresholds_from fuel mn mx step (S i)) as [rest|] eqn:E; [|done]. intros [= <-].
      apply IH in E as (n & Hn & -> & B & T). exists (S n). rewrite Nat.add_succ_r. split_and!; [lia|done| |done].
      intros j Hj. destruct (decide (j = i)) as [->|]; [done|]. apply B. lia.
    + intros ([|n] & Hn & -> & B & T); [rewrite Nat.add_0_r in T; congruence|].
      rewrite (proj2 (IH (S i) (sweep_point mn step <$> seq (S i) n))); [done|].
      exists n. split_and!; [lia|done|intros j Hj; apply B; lia|]. by rewrite Nat.add_succ_r in T.
Qed.

(** ** The best row *)

(** A row that holds the ceiling and catches a paraphrase. *)
Definition qualifies (max : f64) (row : SweepRow) : Prop :=
  f64_ltb max (opposite_rate row) = false /\ f64_leb (paraphrase_rate row) f64_zero = false.

Definition judged (max : f64) (seen : list SweepRow) (c : Criterion) : Prop :=
  if Satisfied c then
    exists row, row ∈ seen /\ qualifies max row /\ CThreshold c = Some (Threshold row) /\
      ParaphraseHitRate c = paraphrase_rate row /\ OppositeFalseHitRate c = opposite_rate row /\
      forall r, r ∈ seen -> qualifies max r -> f64_ltb (paraphrase_rate row) (paraphrase_rate r) = false
  else CThreshold c = None /\ forall r, r ∈ seen -> ~ qualifies max r.

Definition rates_numbers (sweep : list SweepRow) : Prop :=
  forall row, row ∈ sweep -> f64_is_nan (paraphrase_rate row) = false.

Lemma judged_grows max seen row c : judged max seen c -> ~ qualifies max row -> judged max (seen ++ [row]) c.
Proof.
  unfold judged. intros J Q. destruct (Satisfied c).
  - destruct J as (r & Hr & Qr & ? & ? & ? & Top). exists r. split_and!; try done; [apply elem_of_app; by left|].
    intros r' [Hin|Hin%list_elem_of_singleton]%elem_of_app; [by apply Top|by subst].
  - destruct J as [E J]. split; [done|]. intros r' [Hin|Hin%list_elem_of_singleton]%elem_of_app; [by apply J|by subst].
Qed.

Lemma weigh_judges max seen row c :
  rates_numbers (seen ++ [row]) -> judged max seen c -> judged max (seen ++ [row]) (weigh max c row).
Proof.
  intros Nm J. unfold weigh. cbv zeta.
  destruct (f64_ltb max (opposite_rate row) || f64_leb (paraphrase_rate row) f64_zero) eqn:Q.
  { apply judged_grows; [done|]. unfold qualifies. apply orb_true_iff in Q. intros [Q1 Q2]. destruct Q; congruence. }
  apply orb_false_iff in Q. fold (qualifies max row) in Q.
  assert (Hrow : row ∈ seen ++ [row]) by (apply elem_of_app; right; left).
  destruct (negb (Satisfied c) || f64_ltb (ParaphraseHitRate c) (paraphrase_rate row)) eqn:B.
  - unfold judged. cbn [Satisfied CThreshold ParaphraseHitRate OppositeFalseHitRate]. exists row. split_and!; try done.
    intros r Hr Qr. apply elem_of_app in Hr as [Hr| ->%list_elem_of_singleton]; [|apply f64_ltb_irrefl].
    unfold judged in J. destruct (Satisfied c); cbn [negb orb] in B; [|by destruct (proj2 J r Hr)].
    destruct J as (x & Hx & _ & _ & Ex & _ & Top). rewrite Ex in B.
    assert (M : forall z, z ∈ seen -> f64_is_nan (paraphrase_rate z) = false) by (intros; apply Nm, elem_of_app; by left).
    apply (f64_not_less_trans _ (paraphrase_rate x)); auto. by apply f64_less_asym; auto.
  - apply orb_false_iff in B as [Sat L]. apply negb_false_iff in Sat. unfold judged in *. rewrite Sat in *.
    destruct J as (x & Hx & Qx & ? & Ex & ? & Top). exists x. split_and!; try done; [apply elem_of_app; by left|].
    intros r [Hr| ->%list_elem_of_singleton]%elem_of_app; [by apply Top|]. by rewrite Ex in L.
Qed.

Lemma judge_spec sweep c : rates_numbers sweep ->
  judged c.2 sweep (judge sweep c) /\ MaxOppositeFalseHitRate (judge sweep c) = c.2.
Proof.
  unfold judge. set (c0 := mkCriterion _ _ _ _ _ _).
  assert (G : forall rows seen x, rates_numbers (seen ++ rows) -> judged c.2 seen x -> MaxOppositeFalseHitRate x = c.2 ->
    judged c.2 (seen ++ rows) (foldl (weigh c.2) x rows) /\ MaxOppositeFalseHitRate (foldl (weigh c.2) x rows) = c.2).
  { induction rows as [|row rows IH]; intros seen x Nm J M; [by rewrite app_nil_r|]. cbn [foldl].
    replace (seen ++ row :: rows) with ((seen ++ [row]) ++ rows) in * by by rewrite <- app_assoc.
    apply IH; [done| |].
    - apply weigh_judges; [|done]. intros z Hz. apply Nm, elem_of_app. by left.
    - unfold weigh. by repeat case_match. }
  intros Nm. apply (G sweep []); [done|split; [done|by intros r ?%not_elem_of_nil]|done].
Qed.

(** ** Properties *)

(** The command's arithmetic is the store's: on a study whose vectors have one
    width and whose cosines are numbers no greater than one, the check the run
    makes of itself finds no disagreement on any probe, whatever the answers, the
    clock or the instant of the lookups. *)
Theorem verify_finds_none s clock now d :
  one_width s d -> scores_in_range s -> Verify s clock now = 0.
Proof.
  intros W R. unfold Verify. destruct (base.filter _ (probes s)) as [|p ps] eqn:E; [done|].
  assert (Hp : p ∈ p :: ps) by left. rewrite <- E in Hp. apply list_elem_of_filter in Hp as [Hd Hp].
  by rewrite (agrees s clock now d p W R Hp) in Hd.
Qed.

(** No threshold is clean unless the samples are separable: when some positive
    threshold of the sweep answers every paraphrase from its own group and no
    opposite at all, every paraphrase scores above every opposite, which is what
    the summary reports as separable; so a summary that says otherwise settles
    the question for every threshold. *)
Theorem clean_threshold_separates c tn m vectors completions s clock now th d row :
  corpus_ok c -> utf8_corpus c -> priced completions -> NewStudy c tn m vectors completions = inl s ->
  one_width s d -> scores_in_range s -> f64_is_nan th = false -> f64_ltb f64_zero th = true ->
  sweepOne s clock now th = Some (inl row) ->
  LCorrect (row_of (Labels row) LabelParaphrase) = LN (row_of (Labels row) LabelParaphrase) ->
  LFalse (row_of (Labels row) LabelOpposite) = 0 ->
  Separable (Similarity s) = true.
Proof.
  intros Ok V P B W R Nt Pt E Ep Eo.
  destruct (sweep_rows c tn m vectors completions s clock now th Ok P B) as (row' & E' & A).
  assert (row' = row) as -> by congruence.
  pose proof (A LabelParaphrase ltac:(set_solver)) as Ap. pose proof (A LabelOpposite ltac:(set_solver)) as Ao.
  rewrite (counts_correct _ _ _ _ _ Ap), (counts_n _ _ _ _ _ Ap) in Ep. rewrite (counts_false _ _ _ _ _ Ao) in Eo.
  cbn [Similarity Separable]. apply (clean_separates c tn m vectors completions s B Ok V P d W R clock now th Nt Pt).
  - intros p Hp Lp. pose proof (count_all _ _ _ Ep p Hp Lp) as H. by apply andb_true_iff in H as [H _].
  - intros p Hp Lp. pose proof (count_none _ _ _ Eo p Hp Lp) as H. unfold is_correct in H. rewrite Lp in H.
    change (answerable LabelOpposite) with false in H. by rewrite andb_false_r, andb_true_r in H.
Qed.

(** The sweep is the rounded grid from the least threshold up to the greatest:
    with the fuel to see its end the command returns the points before the first
    that passes the greatest, in order, and refuses exactly a step that is not
    positive or a least threshold above the greatest. *)
Theorem thresholds_are_the_grid fuel mn mx step out :
  Thresholds fuel mn mx step = Some (inl out) <->
  f64_leb step f64_zero = false /\ f64_ltb mx mn = false /\
  exists n, (n < fuel)%nat /\ out = sweep_point mn step <$> seq 0 n /\
    (forall i, (i < n)%nat -> f64_ltb (f64_add mx slack) (sweep_point mn step i) = false) /\
    f64_ltb (f64_add mx slack) (sweep_point mn step n) = true.
Proof.
  unfold Thresholds. destruct (f64_leb step f64_zero); [split; [done|by intros [? _]]|].
  destruct (f64_ltb mx mn); [split; [done|by intros (_ & ? & _)]|].
  assert (E : inl <$> thresholds_from fuel mn mx step 0 = Some (@inl _ thresholds_error out)
    <-> thresholds_from fuel mn mx step 0 = Some out).
  { destruct (thresholds_from fuel mn mx step 0); cbn; split; congruence. }
  rewrite E, thresholds_from_spec. split.
  - intros (n & Hn & Eo & Bl & T). split_and!; [done..|]. exists n. split_and!; [done|done| |done]. intros i Hi. apply Bl. lia.
  - intros (_ & _ & n & Hn & Eo & Bl & T). exists n. split_and!; [done|done| |done]. intros i Hi. apply Bl. lia.
Qed.

(** What an answer claims of the rows it was drawn from. *)
Definition answer_holds (sweep : list SweepRow) (a : Answer) : Prop :=
  let tolerated := f64_ratio 10 100 in
  let best max row := row ∈ sweep /\ qualifies max row /\
    forall r, r ∈ sweep -> qualifies max r -> f64_ltb (paraphrase_rate row) (paraphrase_rate r) = false in
  match a with
  | Yes th pct => exists row, best f64_zero row /\ th = Threshold row /\ pct = f64_mul f64_hundred (paraphrase_rate row)
  | Partly th pct wrong =>
      (forall r, r ∈ sweep -> ~ qualifies f64_zero r) /\
      exists row, best tolerated row /\ th = Threshold row /\ pct = f64_mul f64_hundred (paraphrase_rate row) /\
        wrong = f64_mul f64_hundred (opposite_rate row)
  | No pct _ _ => (forall r, r ∈ sweep -> ~ qualifies tolerated r) /\ pct = f64_mul f64_hundred tolerated
  end.

(** The answer is true of the sweep: the reduction never fails, each tolerance
    is met exactly when some row holds the opposites at or below it and catches a
    paraphrase, and quotes the row of the highest paraphrase rate among those;
    "yes" is said of a row without a wrong answer, "partly" only where there is
    none, and "no" only where every row that catches a paraphrase answers more
    than one opposite in ten. *)
Theorem the_answer_holds sweep separable :
  rates_numbers sweep ->
  exists v, buildVerdict sweep separable = Some v /\
    Forall2 (fun c x => judged c.2 sweep x) criteria (Criteria v) /\ answer_holds sweep (VAnswer v).
Proof.
  intros Nm. unfold buildVerdict. destruct (best_margin sweep) as [margin th].
  assert (J : forall c, judged c.2 sweep (judge sweep c)) by (intros; by apply judge_spec).
  assert (F : Forall2 (fun c x => judged c.2 sweep x) criteria (judge sweep <$> criteria)).
  { apply Forall2_fmap_r, Forall_Forall2_diag, list.Forall_forall. intros c _. apply J. }
  unfold criteria in *. rewrite !fmap_cons, fmap_nil in *. cbn [answerFrom last].
  set (strict := judge sweep (_, f64_zero)) in *. set (loose := judge sweep (_, f64_ratio 10 100)) in *.
  pose proof (J ("no wrong answers"%string, f64_zero)) as Js. fold strict in Js.
  pose proof (J ("under 1 in 10 wrong"%string, f64_ratio 10 100)) as Jl. fold loose in Jl.
  assert (Ml : MaxOppositeFalseHitRate loose = f64_ratio 10 100) by by apply (judge_spec sweep (_, _) Nm).
  unfold judged in Js, Jl. cbn [snd] in Js, Jl. destruct (Satisfied strict).
  { destruct Js as (row & Hr & Qr & -> & -> & _ & Top). eexists. split; [reflexivity|]. split; [exact F|].
    exists row. split; [split; [exact Hr|split; [exact Qr|exact Top]]|split; reflexivity]. }
  destruct Js as [_ Js]. destruct (Satisfied loose).
  - destruct Jl as (row & Hr & Qr & -> & -> & -> & Top). eexists. split; [reflexivity|]. split; [exact F|].
    split; [exact Js|]. exists row. split; [split; [exact Hr|split; [exact Qr|exact Top]]|split_and!; reflexivity].
  - destruct Jl as [_ Jl]. eexists. split; [reflexivity|]. split; [exact F|]. split; [exact Jl|]. by rewrite Ml.
Qed.

(** A threshold that is not positive is not measured: the row that carries it
    holds the counts of the store's default. *)
Lemma warm_default s clock th : f64_leb th f64_zero = true ->
  warmSemantic s clock th = warmSemantic s clock DefaultSimilarityThreshold.
Proof. intros H. unfold warmSemantic, NewSemantic. by rewrite H. Qed.

Lemma unmeasured_row s clock now th row :
  f64_leb th f64_zero = true -> sweepOne s clock now th = Some (inl row) ->
  exists row', sweepOne s clock now DefaultSimilarityThreshold = Some (inl row') /\
    Labels row = Labels row' /\ RTokens row = RTokens row' /\ Threshold row = th.
Proof.
  intros H. unfold sweepOne. rewrite (warm_default s clock th H).
  destruct (sweep_probes _ _ _ _ _ _) as [[[rows t]|]|]; [|done..]. intros [= <-]. eexists. split; [reflexivity|done].
Qed.

(** A step that is not a number passes the guard, and the loop never ends. *)
Lemma nan_step_never_ends fuel mn mx : thresholds_from fuel mn mx S754_nan 0 = None.
Proof.
  generalize 0%nat. induction fuel as [|fuel IH]; intros i; [done|]. cbn [thresholds_from].
  assert (E : sweep_point mn S754_nan i = S754_nan).
  { unfold sweep_point, round6. destruct (f64_of_Z (Z.of_nat i)) as [[]|[]| |[] ? ?], mn as [[]|[]| |[] ? ?]; reflexivity. }
  rewrite E. destruct (f64_nan_ltb (f64_add mx slack)) as [_ ->]. by rewrite IH.
Qed.

Module VerdictExample.

Import StudyExample.

(** Both conditions on the vectors, as a computation. *)
Definition measured (s : Study) (d : nat) : bool :=
  forallb (fun a => length (avector a) =? d)%nat (anchors s) &&
  forallb (fun p => (length (pvector p) =? d)%nat &&
    forallb (fun a => let x := cosine (pvector p) (avector a) in negb (f64_is_nan x) && negb (f64_ltb f64_one x)) (anchors s))
    (probes s).

Lemma measured_spec s d : (0 < d)%nat -> measured s d = true -> one_width s d /\ scores_in_range s.
Proof.
  intros Hd. unfold measured. rewrite andb_true_iff, !forallb_forall. intros [Ha Hp]. split.
  - split; [done|]. split; [intros a H; apply Nat.eqb_eq, Ha, list_elem_of_In, H|].
    intros p H. apply list_elem_of_In, Hp, andb_true_iff in H as [H _]. by apply Nat.eqb_eq.
  - intros p a H H'. apply list_elem_of_In, Hp, andb_true_iff in H as [_ H]. rewrite forallb_forall in H.
    apply list_elem_of_In, H, andb_true_iff in H' as [N L]. split; by apply negb_true_iff.
Qed.

Lemma s_measured : one_width s 2 /\ scores_in_range s.
Proof. apply measured_spec; [lia|vm_compute; reflexivity]. Qed.

Example verify_finds_none_witness : Verify s clock 2 = 0.
Proof. exact (verify_finds_none s clock 2 2 (proj1 s_measured) (proj2 s_measured)). Defined.

(** Closer paraphrases: 0.9 separates them from an opposite that strays. *)
Definition close : gmap string (list f64) := list_to_map
  (vector_of <$> [("a", [1; 0]); ("p", [9; 1]); ("o", [1; 1]); ("u", [0; 1])]%string).
Definition t : Study := match NewStudy c "t" "m" close answers with inl s => s | inr _ => s end.
Lemma t_built : NewStudy c "t" "m" close answers = inl t.
Proof. vm_compute. reflexivity. Qed.

Lemma t_measured : one_width t 2 /\ scores_in_range t.
Proof. apply measured_spec; [lia|vm_compute; reflexivity]. Qed.

Definition clean_row : SweepRow :=
  match sweepOne t clock 2 (f64_ratio 9 10) with Some (inl r) => r | _ => mkSweepRow f64_zero ∅ f64_zero (mkTokenRow 0 0 f64_zero) end.

Example clean_threshold_separates_witness : Separable (Similarity t) = true.
Proof.
  apply (clean_threshold_separates c "t" "m" close answers t clock 2 (f64_ratio 9 10) 2 clean_row c_ok
    (loaded_utf8_corpus _ _ c_loads) answers_priced t_built (proj1 t_measured) (proj2 t_measured)).
  - vm_compute. reflexivity.
  - vm_compute. reflexivity.
  - vm_compute. reflexivity.
  - vm_compute. reflexivity.
  - vm_compute. reflexivity.
Defined.

Example not_separable : Separable (Similarity s) = false.
Proof. vm_compute. reflexivity. Qed.

Definition rows : list SweepRow :=
  match Sweep s clock 2 [f64_ratio 7 10; f64_ratio 9 10] with Some (inl rows) => rows | _ => [] end.

(** The opposite of the example is always answered. *)
Example the_answer_holds_witness :
  exists v, buildVerdict rows false = Some v /\
    Forall2 (fun c x => judged c.2 rows x) criteria (Criteria v) /\ answer_holds rows (VAnswer v).
Proof.
  apply the_answer_holds. intros r Hr. apply negb_true_iff. revert r Hr. apply list.Forall_forall.
  apply (bool_decide_unpack _). vm_compute. exact I.
Defined.

(** The default sweep: twenty points, from 0.80 to 0.99. *)
Example default_sweep :
  match Thresholds 32 (f64_ratio 80 100) (f64_ratio 99 100) (f64_ratio 1 100) with
  | Some (inl out) => out = (fun i => f64_ratio (80 + Z.of_nat i) 100) <$> seq 0 20
  | _ => False
  end.
Proof. vm_compute. reflexivity. Qed.
End VerdictExample.
