(* ===== verification/Collect.v ===== *)
(** * What the cache study collects (cmd/cachestudy/embed.go, completions.go, main.go)

    One vector per prompt text, embedded in batches under an item budget, and one
    answer per question, generated by several workers at once.  The embedder, the
    upstream, the clock and the cancellation of the run are given: the [k]-th
    call and the [k]-th wait of a run get the [k]-th answer and readings.  The
    workers are a step relation. *)

From Stdlib Require Import ZArith Lia String Ascii SpecFloat.
From stdpp Require Import base gmap strings list numbers.
From S2P Require Import Prelude Float64 GoString Providers Json JsonText Upstream Samples Corpus Study.

Local Open Scope Z_scope.

(** ** Pacing (embed.go) *)

Definition embedAttempts : nat := 4.
Definition embedBackoff : Duration := 30 * Second.
Definition embedWindow : Duration := Minute.

Record embedPacer := mkPacer { budget : Z; sent : Z; windowStart : Time }.

(** [wait], with what the clock reads on entry and after the pause, and whether
    the run was cancelled before the pause was over.  [None]: cancelled. *)
Definition wait (p : embedPacer) (n : Z) (now later : Time) (cancelled : bool) : option embedPacer * option Duration :=
  if budget p <=? 0 then (Some p, None)
  else
    let p := if time_IsZero (windowStart p) || (embedWindow <=? time_Sub now (windowStart p))
             then mkPacer (budget p) 0 now else p in
    if sent p +i n <=? budget p then (Some (mkPacer (budget p) (sent p +i n) (windowStart p)), None)
    else
      let pause := embedWindow -i time_Sub now (windowStart p) in
      if cancelled then (None, Some pause) else (Some (mkPacer (budget p) n later), Some pause).

(** ** Embedding (embed.go) *)

Inductive embed_error :=
| ErrBatchSize
| ErrWaitWindow
| ErrWaitRetry
| ErrVectors (got want : nat)
| ErrAttempts.

Section Embedding.
(** What the [k]-th call of the embedder returns, whether the run is cancelled
    during the [k]-th wait of either kind, and the clock around the [k]-th batch. *)
Context (embed : nat -> list string -> option (list (list f64))).
Context (retry_cancelled : nat -> bool) (wait_cancelled : nat -> bool) (clock : nat -> Time * Time).

(** The loop of [embedBatch], so many attempts to go; the calls made are counted. *)
Fixpoint attempts (tries : nat) (first : bool) (k : nat) (batch : list string)
    : (list (list f64) + embed_error) * nat :=
  match tries with
  | O => (inr ErrAttempts, k)
  | S tries =>
      if negb first && retry_cancelled k then (inr ErrWaitRetry, k)
      else match embed k batch with
      | Some got =>
          if (length got =? length batch)%nat then (inl got, S k)
          else (inr (ErrVectors (length got) (length batch)), S k)
      | None => attempts tries false (S k) batch
      end
  end.
Definition embedBatch (k : nat) (batch : list string) : (list (list f64) + embed_error) * nat :=
  attempts embedAttempts true k batch.

Definition keep_vectors (batch : list string) (got : list (list f64)) (vectors : gmap string (list f64)) :=
  foldl (fun m '(text, v) => <[text := v]> m) vectors (zip batch got).

(** The loop of [embedAll]: what is left of the texts, the batches so far, the
    calls so far.  A turn takes at least one text, so their number bounds it. *)
Fixpoint embed_batches (fuel : nat) (batchSize : nat) (texts : list string) (b k : nat) (p : embedPacer)
    (vectors : gmap string (list f64)) : option (gmap string (list f64) + embed_error) :=
  match texts with
  | [] => Some (inl vectors)
  | _ =>
      match fuel with
      | O => None
      | S fuel =>
          let batch := take batchSize texts in
          let '(now, later) := clock b in
          match (wait p (Z.of_nat (length batch)) now later (wait_cancelled b)).1 with
          | None => Some (inr ErrWaitWindow)
          | Some p =>
              match embedBatch k batch with
              | (inr e, _) => Some (inr e)
              | (inl got, k) =>
                  embed_batches fuel batchSize (drop batchSize texts) (S b) k p (keep_vectors batch got vectors)
              end
          end
      end
  end.

Definition embedAll (texts : list string) (batchSize perMinute : Z) : option (gmap string (list f64) + embed_error) :=
  if batchSize <=? 0 then Some (inr ErrBatchSize)
  else embed_batches (length texts) (Z.to_nat batchSize) texts 0 0 (mkPacer perMinute 0 0) ∅.
End Embedding.

(** ** Questions (main.go) *)

Definition distinctQuestions (c : Corpus) : list string :=
  foldl (fun out q => if bool_decide (q ∈ out) then out else out ++ [q]) [] (corpus_questions c).

(** ** One answer (completions.go) *)

Definition maxCompletionErrorBody : nat := 4096.

Record completionOptions := mkCompletionOptions { BaseURL : string; CModel : string; MaxTokens : Z; Concurrency : Z }.

Definition completion_body (o : completionOptions) (question : string) : string := struct_text
  [("model", quote (CModel o)); ("temperature", "0"); ("max_tokens", Itoa (MaxTokens o));
   ("messages", array_text [struct_text [("role", quote "user"); ("content", quote question)]])]%string.

Definition completion_url (o : completionOptions) : string := (trim_slashes (BaseURL o) +:+ "/chat/completions")%string.

(** What the client got: nothing, or a status and a body. *)
Inductive exchange := CallFailed | Answered (status : Z) (body : string).

Inductive completion_error :=
| ErrCall
| ErrStatus (status : Z) (detail : string)
| ErrDecodeResponse
| ErrNoChoices
| ErrNoTokens.

(** The fields of [completionResponse] the command reads. *)
Record completionResponse := mkCompletionResponse { RContents : slice string; CompletionTokens : Z }.

Definition dec_choice : decoder string := dec_struct
  [("message", dec_struct [("content", dec_string)])]%string.
Definition dec_response : decoder completionResponse := dec_struct
  [("choices", at_field RContents (fun v r => mkCompletionResponse v (CompletionTokens r)) (dec_slice ""%string dec_choice));
   ("usage", at_field CompletionTokens (fun v r => mkCompletionResponse (RContents r) v)
               (dec_struct [("completion_tokens", dec_int)]))]%string.

(** [json.NewDecoder(body).Decode]: the first value of the text, what follows it
    unread. *)
Definition first_value (s : string) : option string :=
  match decode_first s with
  | Some (_, rest) => Some (consumed (skip_ws s) rest)
  | None => None
  end.

Definition complete (x : exchange) : completion + completion_error :=
  match x with
  | CallFailed => inr ErrCall
  | Answered status body =>
      if negb (Is2xx status) then inr (ErrStatus status (TrimSpace (String.substring 0 maxCompletionErrorBody body)))
      else match first_value body with
      | None => inr ErrDecodeResponse
      | Some raw =>
          match Unmarshal dec_response raw (mkCompletionResponse nil_slice 0) with
          | None => inr ErrDecodeResponse
          | Some r =>
              match slice_list (RContents r) with
              | [] => inr ErrNoChoices
              | content :: _ =>
                  if CompletionTokens r <=? 0 then inr ErrNoTokens
                  else inl (mkCompletion content (CompletionTokens r))
              end
          end
      end
  end.

(** ** All of them (completions.go) *)

Inductive fetch_error := ErrConcurrency (n : Z) | ErrCompletion (q : string) (e : completion_error).

(** Where the sender is: about to look at the first error, or holding a question
    for a worker, or done and the channel closed. *)
Inductive sender := Looking | Handing (q : string) | Closed.

Record fetch := mkFetch {
  todo : list string;             (** not yet taken up by the sender *)
  at_ : sender;
  busy : list string;             (** with a worker *)
  out : gmap string completion;
  firstErr : option fetch_error;
  reports : list (Z * Z)          (** the calls of [progress] *)
}.

Definition fetch_start (questions : list string) : fetch := mkFetch questions Looking [] ∅ None [].

Section Fetching.
Context (o : completionOptions) (total : Z) (upstream : string -> exchange -> Prop).

(** What a worker does under the lock with the answer to its question. *)
Definition report (f : fetch) (q : string) (busy' : list string) (r : completion + completion_error) : fetch :=
  let err := match r, firstErr f with inr e, None => Some (ErrCompletion q e) | _, e => e end in
  let out := match r with inl c => <[q := c]> (out f) | inr _ => out f end in
  mkFetch (todo f) (at_ f) busy' out err (reports f ++ [(Z.of_nat (length (reports f)) + 1, total)]).

Inductive fetch_step : fetch -> fetch -> Prop :=
| step_takes f q qs :
    at_ f = Looking -> todo f = q :: qs -> firstErr f = None ->
    fetch_step f (mkFetch qs (Handing q) (busy f) (out f) (firstErr f) (reports f))
| step_stops f e :
    at_ f = Looking -> todo f <> [] -> firstErr f = Some e ->
    fetch_step f (mkFetch (todo f) Closed (busy f) (out f) (firstErr f) (reports f))
| step_ends f :
    at_ f = Looking -> todo f = [] ->
    fetch_step f (mkFetch [] Closed (busy f) (out f) (firstErr f) (reports f))
| step_hands f q :
    at_ f = Handing q -> Z.of_nat (length (busy f)) < Concurrency o ->
    fetch_step f (mkFetch (todo f) Looking (q :: busy f) (out f) (firstErr f) (reports f))
| step_reports f before q after x :
    busy f = before ++ q :: after -> upstream q x ->
    fetch_step f (report f q (before ++ after) (complete x)).

(** [wg.Wait] has returned. *)
Definition settled (f : fetch) : Prop := at_ f = Closed /\ busy f = [].
Definition fetched (f : fetch) : gmap string completion + fetch_error :=
  match firstErr f with Some e => inr e | None => inl (out f) end.
End Fetching.

(** What [fetchCompletions] may return. *)
Definition fetchCompletions (o : completionOptions) (upstream : string -> exchange -> Prop) (questions : list string)
    (r : gmap string completion + fetch_error) : Prop :=
  if Concurrency o <=? 0 then r = inr (ErrConcurrency (Concurrency o))
  else exists f, rtc (fetch_step o (Z.of_nat (length questions)) upstream) (fetch_start questions) f /\ settled f /\ r = fetched f.

Record CompletionsSummary := mkCompletionsSummary { SQuestions : Z; TotalTokens : Z; MeanTokens : f64 }.

(** The loop over the map, whose order the sum does not show. *)
Definition price_summary (got : gmap string completion) : CompletionsSummary :=
  let total := map_fold (fun _ c total => total +i CTokens c) 0 got in
  mkCompletionsSummary (Z.of_nat (size got)) total (ratio total (Z.of_nat (size got))).

(** ** Facts about pacing *)

(** Waits one after another, none cancelled: the pacer, and what was let through,
    each under the window it was counted in. *)
Fixpoint pace (p : embedPacer) (turns : list (Z * (Time * Time))) : embedPacer * list (Time * Z) :=
  match turns with
  | [] => (p, [])
  | (n, (now, later)) :: turns =>
      match (wait p n now later false).1 with
      | None => (p, [])
      | Some p => let '(p', log) := pace p turns in (p', (windowStart p, n) :: log)
      end
  end.

(** The clock does not go back, and a timer does not fire before its time. *)
Fixpoint clock_ok (p : embedPacer) (before : Time) (turns : list (Z * (Time * Time))) : Prop :=
  match turns with
  | [] => True
  | (n, (now, later)) :: turns =>
      before <= now /\
      (forall pause, (wait p n now later false).2 = Some pause -> now + pause <= later) /\
      match (wait p n now later false).1 with
      | None => True
      | Some p' => clock_ok p' (Z.max now (windowStart p')) turns
      end
  end.

Fixpoint granted (log : list (Time * Z)) (w : Time) : Z :=
  match log with
  | [] => 0
  | x :: log => (if decide (x.1 = w) then x.2 else 0) + granted log w
  end.

Lemma granted_app log log' w : granted (log ++ log') w = granted log w + granted log' w.
Proof. induction log as [|x log IH]; [done|]. cbn. rewrite IH. lia. Qed.

Lemma granted_other log w : (forall x, x ∈ log -> x.1 <> w) -> granted log w = 0.
Proof.
  induction log as [|x log IH]; intros H; [done|]. cbn. rewrite decide_False by (apply H; left).
  rewrite IH; [done|]. intros y Hy. apply H. by right.
Qed.

(** A pacer and what it has let through. *)
Record paced (p : embedPacer) (log : list (Time * Z)) : Prop := {
  sent_is : sent p = granted log (windowStart p);
  sent_fits : 0 <= sent p <= budget p;
  windows_past : forall x, x ∈ log -> x.1 <= windowStart p;
  started : 0 <= windowStart p /\ (windowStart p = 0 -> log = []);
  all_fit : forall w, granted log w <= budget p
}.

Lemma paced_new_window p log w n :
  paced p log -> 0 <= n <= budget p -> 0 < w -> (forall x, x ∈ log -> x.1 < w) ->
  paced (mkPacer (budget p) n w) (log ++ [(w, n)]).
Proof.
  intros [] Hn Hw New. assert (G : granted log w = 0) by (apply granted_other; intros x Hx; specialize (New x Hx); lia).
  constructor; cbn [sent budget windowStart].
  - rewrite granted_app, G. cbn. rewrite decide_True by done. lia.
  - done.
  - intros x [Hx|Hx%list_elem_of_singleton]%elem_of_app; [specialize (New x Hx); lia|by subst].
  - lia.
  - intros v. rewrite granted_app. cbn. destruct (decide (w = v)) as [<-|]; [lia|]. specialize (all_fit0 v). lia.
Qed.

Lemma paced_same_window p log n :
  paced p log -> 0 <= n -> sent p + n <= budget p -> 0 < windowStart p ->
  paced (mkPacer (budget p) (sent p + n) (windowStart p)) (log ++ [(windowStart p, n)]).
Proof.
  intros [] Hn Hs Hw. constructor; cbn [sent budget windowStart].
  - rewrite granted_app. cbn. rewrite decide_True by done. lia.
  - lia.
  - intros x [Hx|Hx%list_elem_of_singleton]%elem_of_app; [by apply windows_past0|by subst].
  - lia.
  - intros v. rewrite granted_app. cbn. destruct (decide (windowStart p = v)) as [<-|]; [lia|]. specialize (all_fit0 v). lia.
Qed.

Lemma wait_paced p log n now later before :
  paced p log -> 0 < budget p -> is_int64 (2 * budget p) -> 0 <= n <= budget p -> windowStart p <= before -> 0 < before ->
  before <= now -> (forall pause, (wait p n now later false).2 = Some pause -> now + pause <= later) ->
  exists p', (wait p n now later false).1 = Some p' /\ budget p' = budget p /\ 0 < windowStart p' /\
    paced p' (log ++ [(windowStart p', n)]).
Proof.
  intros P Hb Ib Hn Hw Hp Hnow Timer. revert Timer. unfold wait. rewrite (proj2 (Z.leb_gt _ _)) by lia. cbv zeta.
  pose proof (sent_fits p log P) as Hs. unfold is_int64, min_int64, max_int64 in Ib.
  assert (Add : forall x, 0 <= x <= budget p -> x + n <= max_int64 -> x +i n = x + n).
  { intros x Hx Hm. apply wrap64_id. unfold is_int64, min_int64, max_int64 in *. lia. }
  destruct (time_IsZero (windowStart p) || (embedWindow <=? time_Sub now (windowStart p))) eqn:New.
  - cbn [sent budget windowStart]. rewrite Add by (unfold max_int64; lia). rewrite (proj2 (Z.leb_le _ _)) by lia. intros _.
    eexists. split; [reflexivity|]. cbn [budget windowStart]. split_and!; [done|lia|].
    apply paced_new_window; [done|lia|lia|]. intros x Hx. pose proof (windows_past p log P x Hx).
    unfold time_IsZero in New. apply orb_true_iff in New as [New|New]; bool_to_prop.
    + rewrite (proj2 (started p log P) New) in Hx. by apply not_elem_of_nil in Hx.
    + unfold embedWindow, time_Sub, min_int64, max_int64 in New. change Minute with 60000000000 in New. lia.
  - apply orb_false_iff in New as [Z0 New]. unfold time_IsZero in Z0. bool_to_prop.
    pose proof (proj1 (started p log P)) as W0.
    rewrite Add by (unfold max_int64 in *; lia).
    destruct (sent p + n <=? budget p) eqn:Fit; bool_to_prop.
    + intros _. eexists. split; [reflexivity|]. cbn [budget windowStart]. split_and!; [done|lia|].
      apply paced_same_window; [done|lia|lia|lia].
    + cbn [fst snd]. intros Timer. specialize (Timer _ eq_refl). eexists. split; [reflexivity|].
      assert (L : windowStart p < later).
      { unfold embedWindow, time_Sub, min_int64, max_int64 in New, Timer. change Minute with 60000000000 in New, Timer.
        rewrite wrap64_id in Timer by (unfold is_int64, min_int64, max_int64; lia). lia. }
      cbn [budget windowStart]. split_and!; [done|lia|]. apply paced_new_window; [done|lia|lia|].
      intros x Hx. pose proof (windows_past p log P x Hx). lia.
Qed.

(** The run stays under its budget: from the first wait on, with batches no
    larger than a budget whose double is an [int], a clock that does not go back and timers that do not
    fire early, no wait fails and the texts let through in any one window never
    number more than the budget. *)
Theorem pacer_holds_budget b turns :
  0 < b -> is_int64 (2 * b) -> Forall (fun x => 0 <= x.1 <= b) turns -> clock_ok (mkPacer b 0 0) 1 turns ->
  forall w, granted (pace (mkPacer b 0 0) turns).2 w <= b.
Proof.
  intros Hb Ib F C.
  assert (P0 : paced (mkPacer b 0 0) []) 
    by (constructor; cbn; [done|lia|by intros x ?%not_elem_of_nil|split; [lia|done]|lia]).
  assert (G : forall turns p before log, Forall (fun x => 0 <= x.1 <= b) turns -> clock_ok p before turns ->
    paced p log -> budget p = b -> windowStart p <= before -> 0 < before ->
    forall w, granted (log ++ (pace p turns).2) w <= b).
  { clear turns F C P0. induction turns as [|[n [now later]] turns IH]; intros p before log F C P Eb Hw Hp w.
    - cbn. rewrite app_nil_r, <- Eb. apply (all_fit p log P).
    - apply list.Forall_cons in F as [Hn F]. cbn [clock_ok pace fst] in *. destruct C as (Hnow & Timer & C).
      destruct (wait_paced p log n now later before P) as (p' & E & Eb' & Pos & P'); [lia|congruence|by rewrite Eb|done..|].
      rewrite E in *. specialize (IH p' (Z.max now (windowStart p')) (log ++ [(windowStart p', n)]) F C P').
      destruct (pace p' turns) as [q log']. cbn [snd] in *. rewrite <- app_assoc in IH. apply IH; [congruence|lia|lia]. }
  by apply (G turns _ 1 []).
Qed.

(** ** Facts about embedding *)

Lemma keep_vectors_lookup vec batch m t :
  keep_vectors batch (vec <$> batch) m !! t = if decide (t ∈ batch) then Some (vec t) else m !! t.
Proof.
  unfold keep_vectors. revert m. induction batch as [|b batch IH]; intros m; [done|]. rewrite fmap_cons. cbn [zip_with foldl].
  rewrite IH. destruct (decide (t ∈ batch)) as [H|H].
  - by rewrite decide_True by by right.
  - destruct (decide (t = b)) as [->|N]; [rewrite decide_True by left; apply lookup_insert_eq|].
    rewrite lookup_insert_ne by done. rewrite decide_False by set_solver. done.
Qed.

Section Honest.
Context (embed : nat -> list string -> option (list (list f64))) (vec : string -> list f64).
Context (honest : forall k batch got, embed k batch = Some got -> got = vec <$> batch).
Context (retry_cancelled wait_cancelled : nat -> bool) (clock : nat -> Time * Time).

Lemma attempts_spec tries first k batch :
  match attempts embed retry_cancelled tries first k batch with
  | (inl got, _) => got = vec <$> batch
  | (inr e, _) => e ∈ [ErrWaitRetry; ErrAttempts]
  end.
Proof.
  revert first k. induction tries as [|tries IH]; intros first k; cbn [attempts]; [set_solver|].
  destruct (negb first && retry_cancelled k); [set_solver|].
  destruct (embed k batch) as [got|] eqn:E; [|apply IH]. apply honest in E as ->. by rewrite length_fmap, Nat.eqb_refl.
Qed.

(** A call among the next few that answers. *)
Definition answers_within (tries : nat) : Prop :=
  forall k batch, exists j, (j < tries)%nat /\ is_Some (embed (k + j) batch).

Lemma attempts_answer tries first k batch :
  (forall k, retry_cancelled k = false) -> (exists j, (j < tries)%nat /\ is_Some (embed (k + j) batch)) ->
  exists k', attempts embed retry_cancelled tries first k batch = (inl (vec <$> batch), k').
Proof.
  intros R. revert first k. induction tries as [|tries IH]; intros first k (j & Hj & got & E); [lia|]. cbn [attempts].
  rewrite R, andb_false_r. destruct (embed k batch) as [got'|] eqn:E'.
  - apply honest in E' as ->. rewrite length_fmap, Nat.eqb_refl. by eexists.
  - apply IH. destruct j as [|j]; [rewrite Nat.add_0_r in E; congruence|]. exists j. split; [lia|].
    rewrite Nat.add_succ_r in E. cbn. by rewrite E.
Qed.

Definition never_cancelled : Prop := (forall k, retry_cancelled k = false) /\ forall b, wait_cancelled b = false.

Lemma wait_uncancelled p n now later : exists p', (wait p n now later false).1 = Some p'.
Proof. unfold wait. repeat case_match; by eexists. Qed.

Lemma embed_batches_spec fuel size texts b k p m :
  (0 < size)%nat -> (length texts <= fuel)%nat ->
  exists r, embed_batches embed retry_cancelled wait_cancelled clock fuel size texts b k p m = Some r /\
    match r with
    | inl m' => forall t, m' !! t = if decide (t ∈ texts) then Some (vec t) else m !! t
    | inr e => e ∈ [ErrWaitWindow; ErrWaitRetry; ErrAttempts]
    end /\
    (never_cancelled -> answers_within embedAttempts -> exists m', r = inl m').
Proof.
  intros Hs. revert texts b k p m. induction fuel as [|fuel IH]; intros [|t0 texts] b k p m Hl;
    try (cbn in Hl; lia); try (eexists; split; [reflexivity|split; [done|by eexists]]).
  cbn [embed_batches]. set (all := t0 :: texts) in *. set (batch := take size all).
  destruct (clock b) as [now later]. destruct (wait p _ now later _).1 as [p'|] eqn:W.
  2: { eexists. split; [reflexivity|]. split; [set_solver|]. intros [_ Nc]. rewrite Nc in W.
       destruct (wait_uncancelled p (Z.of_nat (length batch)) now later) as [? W']. congruence. }
  pose proof (attempts_spec embedAttempts true k batch) as A. unfold embedBatch.
  destruct (attempts _ _ embedAttempts true k batch) as [[got|e] k'] eqn:E.
  - subst got. destruct (IH (drop size all) (S b) k' p' (keep_vectors batch (vec <$> batch) m)) as (r & Er & Hr & Hn).
    { rewrite length_drop. subst all. cbn [length] in *. lia. }
    exists r. split; [exact Er|]. split; [|exact Hn]. destruct r as [m'|]; [|exact Hr]. intros t. rewrite Hr, keep_vectors_lookup.
    assert (T : t ∈ all <-> t ∈ batch \/ t ∈ drop size all) by (rewrite <- elem_of_app; unfold batch; by rewrite take_drop).
    repeat case_decide; tauto || done.
  - eexists. split; [reflexivity|]. split; [set_solver|]. intros [Nr _] An.
    destruct (attempts_answer embedAttempts true k batch Nr (An k batch)) as [? E']. congruence.
Qed.
End Honest.

(** One vector for every text, from the model and no other: with batches of at
    least one text and an embedder that answers a batch with the vectors of its
    texts or not at all, the run always comes to an end; it either reports a
    cancelled wait or four failures in a row, or returns exactly the texts, each
    with its own vector, and it does return when nothing is cancelled and every
    batch is answered within four calls. *)
Theorem every_text_is_embedded embed vec retry_cancelled wait_cancelled clock texts batchSize perMinute :
  (forall k batch got, embed k batch = Some got -> got = vec <$> batch) -> 0 < batchSize ->
  exists r, embedAll embed retry_cancelled wait_cancelled clock texts batchSize perMinute = Some r /\
    match r with
    | inl m => forall t, m !! t = if decide (t ∈ texts) then Some (vec t) else None
    | inr e => e ∈ [ErrWaitWindow; ErrWaitRetry; ErrAttempts]
    end /\
    (never_cancelled retry_cancelled wait_cancelled -> answers_within embed embedAttempts -> exists m, r = inl m).
Proof.
  intros H Hs. unfold embedAll. rewrite (proj2 (Z.leb_gt _ _)) by lia.
  destruct (embed_batches_spec embed vec H retry_cancelled wait_cancelled clock (length texts) (Z.to_nat batchSize) texts 0 0
    (mkPacer perMinute 0 0) ∅) as (r & E & Hr & Hn); [lia|done|].
  exists r. split; [exact E|]. split; [|exact Hn]. destruct r; [|exact Hr]. intros t. by rewrite Hr, lookup_empty.
Qed.

(** ** Facts about the questions *)

Definition add_question (out : list string) (q : string) : list string :=
  if bool_decide (q ∈ out) then out else out ++ [q].

Lemma add_probes g ps out :
  Forall (probe_ok g) ps -> Anchor g ∈ out -> NoDup (out ++ fresh_texts ps) ->
  foldl add_question out (Text <$> ps) = out ++ fresh_texts ps.
Proof.
  revert out. induction ps as [|p ps IH]; intros out F A N; [by rewrite app_nil_r|].
  apply list.Forall_cons in F as [Fp F]. rewrite fmap_cons. cbn [foldl]. unfold add_question at 2.
  unfold fresh_texts in *. rewrite filter_cons in *. destruct (decide (PLabel p <> LabelRepeat)) as [L|L].
  - rewrite fmap_cons in *. assert (Hn : Text p ∉ out).
    { apply list.NoDup_app in N as (_ & D & _). intros H. apply (D _ H). left. }
    rewrite bool_decide_false by done.
    assert (E : forall l, out ++ Text p :: l = (out ++ [Text p]) ++ l) by (intros; by rewrite <- app_assoc).
    rewrite (E (Text <$> base.filter _ ps)) in N |- *. apply IH; [done| |done]. apply elem_of_app. by left.
  - apply dec_stable in L. rewrite bool_decide_true; [by apply IH|]. rewrite (repeat_same g p Fp L). done.
Qed.

Lemma add_groups gs out :
  Forall group_ok gs -> NoDup (out ++ concat (questions <$> gs)) ->
  foldl add_question out (concat ((fun g => Anchor g :: (Text <$> Probes g)) <$> gs)) = out ++ concat (questions <$> gs).
Proof.
  revert out. induction gs as [|g gs IH]; intros out F N; [by rewrite app_nil_r|].
  apply list.Forall_cons in F as [Fg F]. rewrite !fmap_cons in *. cbn [concat] in *. rewrite app_assoc in N.
  rewrite foldl_app, app_assoc. cbn [foldl]. pose proof N as (N1 & _ & _)%list.NoDup_app.
  assert (E : add_question out (Anchor g) = out ++ [Anchor g]).
  { unfold add_question. rewrite bool_decide_false; [done|]. intros H. apply list.NoDup_app in N1 as (_ & D & _).
    apply (D _ H). left. }
  rewrite E, (add_probes g); [|apply Fg|apply elem_of_app; right; left|].
  - rewrite <- (app_assoc out). by apply IH.
  - by rewrite <- app_assoc.
Qed.

(** Of a trusted corpus the distinct questions are its questions, the repeats
    left out, in its order. *)
Lemma distinct_questions c : corpus_ok c -> distinctQuestions c = concat (questions <$> Groups c).
Proof. intros []. by apply (add_groups (Groups c) []). Qed.

(** ** Facts about the workers *)

Section Workers.
Context (o : completionOptions) (upstream : string -> exchange -> Prop) (questions : list string).
Context (some_worker : 0 < Concurrency o).

Let total := Z.of_nat (length questions).
Let step := fetch_step o total upstream.

(** A question the upstream answers, and with what. *)
Definition answers (q : string) (r : completion + completion_error) : Prop := exists x, upstream q x /\ complete x = r.

Definition held (f : fetch) : list string := match at_ f with Handing q => [q] | _ => [] end.

(** Every question is with the sender, with a worker or reported. *)
Record fetching (f : fetch) (reported : list string) : Prop := {
  all_there : questions ≡ₚ reported ++ busy f ++ held f ++ todo f;
  counted : reports f = (fun i => (Z.of_nat i + 1, total)) <$> seq 0 (length reported);
  few_busy : Z.of_nat (length (busy f)) <= Concurrency o;
  kept : firstErr f = None -> forall q, q ∈ reported -> is_Some (out f !! q);
  earned : forall q c, out f !! q = Some c -> q ∈ reported /\ answers q (inl c);
  failed : forall e, firstErr f = Some e -> exists q ce, e = ErrCompletion q ce /\ q ∈ reported /\ answers q (inr ce);
  closed : at_ f = Closed -> todo f = [] \/ firstErr f <> None
}.

Lemma start_fetching : fetching (fetch_start questions) [].
Proof.
  constructor; try done; cbn; [lia|by intros _ q ?%not_elem_of_nil].
Qed.

Lemma report_fetching f reported before q after x :
  fetching f reported -> busy f = before ++ q :: after -> upstream q x ->
  fetching (report total f q (before ++ after) (complete x)) (q :: reported).
Proof.
  intros [P C B K E F Cl] Eb U. unfold report. constructor; cbn [busy todo reports out firstErr at_ held].
  - rewrite P, Eb. unfold held. cbn [at_]. rewrite <- app_assoc. cbn. solve_Permutation.
  - rewrite C at 1. rewrite length_cons, seq_S, fmap_app, C, length_fmap, length_seq. done.
  - rewrite Eb in B. rewrite length_app in *. cbn [length] in B. lia.
  - intros H r Hr. destruct (complete x) as [c|e].
    + apply elem_of_cons in Hr as [->|Hr]; [by rewrite lookup_insert_eq|].
      destruct (decide (q = r)) as [->|N]; [by rewrite lookup_insert_eq|]. rewrite lookup_insert_ne by done. by apply K.
    + by destruct (firstErr f).
  - intros r c Hc. assert (Old : out f !! r = Some c -> r ∈ q :: reported /\ answers r (inl c)).
    { intros Ho. destruct (E r c Ho). split; [by right|done]. }
    destruct (complete x) as [c'|e] eqn:X; [|by apply Old]. destruct (decide (q = r)) as [->|N].
    + rewrite lookup_insert_eq in Hc. injection Hc as ->. split; [left|by exists x].
    + rewrite lookup_insert_ne in Hc by done. by apply Old.
  - intros e He. assert (Old : firstErr f = Some e -> exists r ce, e = ErrCompletion r ce /\ r ∈ q :: reported /\ answers r (inr ce)).
    { intros Ho. destruct (F e Ho) as (r & ce & ? & ? & ?). exists r, ce. split_and!; [done|by right|done]. }
    destruct (complete x) as [c'|e'] eqn:X; [by apply Old|]. destruct (firstErr f) as [e0|]; [by apply Old|].
    injection He as <-. exists q, e'. split_and!; [done|left|by exists x].
  - intros H. destruct (Cl H) as [T|T]; [by left|right]. destruct (complete x); [done|]. by destruct (firstErr f).
Qed.

Lemma step_fetching f g reported : step f g -> fetching f reported -> exists reported', fetching g reported'.
Proof.
  intros S' I. destruct S' as [f q qs A T E|f e A T E|f A T|f q A L|f before q after x Eb U];
    try (exists (q :: reported); by apply report_fetching); exists reported; destruct I as [P C B K Ea F Cl];
    unfold held in P; rewrite A in P; constructor; cbn [busy todo reports out firstErr at_ held]; try done.
  - rewrite P, T. done.
  - intros _. right. congruence.
  - rewrite P, T. done.
  - by left.
  - rewrite P. cbn. solve_Permutation.
  - cbn [length]. lia.
Qed.

Lemma reach_fetching f : rtc step (fetch_start questions) f -> exists reported, fetching f reported.
Proof.
  revert f. apply rtc_ind_r; [exists []; apply start_fetching|].
  intros f g _ S' [reported I]. by apply (step_fetching f g reported).
Qed.

(** What the sender and the workers have before them: every step is one less. *)
Definition left_to_do (f : fetch) : nat :=
  4 * length (todo f) + length (busy f) + match at_ f with Looking => 1 | Handing _ => 3 | Closed => 0 end.

Lemma step_does f g : step f g -> (left_to_do g < left_to_do f)%nat.
Proof.
  intros [h q qs A T E|h e A T E|h A T|h q A L|h before q after x Eb U]; unfold left_to_do, report;
    cbn [todo busy at_]; rewrite ?A, ?T, ?Eb, ?length_app; cbn [length]; lia.
Qed.

Lemma can_step f reported : fetching f reported -> (forall q, q ∈ questions -> exists x, upstream q x) ->
  settled f \/ exists g, step f g.
Proof.
  intros I U. destruct (busy f) as [|q qs] eqn:Eb.
  - destruct (at_ f) eqn:A.
    + right. destruct (todo f) as [|q qs] eqn:T; [eexists; by apply step_ends|].
      destruct (firstErr f) eqn:E; eexists; [eapply step_stops; [done|by rewrite T|done]|by eapply step_takes].
    + right. eexists. eapply step_hands; [done|]. rewrite Eb. cbn. lia.
    + by left.
  - right. destruct (U q) as [x Hx].
    { rewrite (all_there f reported I), Eb. apply elem_of_app. right. left. }
    eexists. apply (step_reports _ _ _ f [] q qs x Eb Hx).
Qed.
End Workers.

(** (C31) All the answers or none: whatever the order in which the workers ask and
    report, the run returns either an answer for every question and for nothing
    else, each one the upstream gave to that question and priced in tokens, or
    the error of a question that was asked. *)
Theorem all_answers_or_none o upstream questions r :
  0 < Concurrency o -> fetchCompletions o upstream questions r ->
  match r with
  | inl m => (forall q, is_Some (m !! q) <-> q ∈ questions) /\
             forall q c, m !! q = Some c -> answers upstream q (inl c) /\ 0 < CTokens c
  | inr e => exists q ce, e = ErrCompletion q ce /\ q ∈ questions /\ answers upstream q (inr ce)
  end.
Proof.
  intros Hc. unfold fetchCompletions. rewrite (proj2 (Z.leb_gt _ _)) by lia. intros (f & R & [Hcl Hb] & ->).
  destruct (reach_fetching o upstream questions Hc f R) as [reported I]. unfold fetched.
  assert (All : forall q, q ∈ reported -> q ∈ questions) by (intros q Hq; rewrite (all_there _ _ _ _ _ I); apply elem_of_app; by left).
  destruct (firstErr f) as [e|] eqn:Fe.
  - destruct (failed _ _ _ _ _ I e Fe) as (q & ce & -> & Hq & A). exists q, ce. auto.
  - destruct (closed _ _ _ _ _ I Hcl) as [T|]; [|congruence].
    assert (P : questions ≡ₚ reported).
    { rewrite (all_there _ _ _ _ _ I), Hb, T. unfold held. rewrite Hcl. by rewrite !app_nil_r. }
    split.
    + intros q. rewrite P. split; [intros [c Hq]; by apply (earned _ _ _ _ _ I q c)|]. by apply (kept _ _ _ _ _ I).
    + intros q c Hq. destruct (earned _ _ _ _ _ I q c Hq) as [_ A]. split; [exact A|]. destruct A as (x & _ & E).
      unfold complete in E. destruct x as [|st b]; [done|]. repeat (case_match; try done). injection E as <-. cbn. by bool_to_prop.
Qed.

(** The workers always finish: as long as the upstream answers every question
    somehow, every state the run can reach either is settled or has a next step,
    every step leaves less to do, and no more questions are ever out at once than
    there are workers. *)
Theorem fetching_ends o upstream questions f :
  0 < Concurrency o -> (forall q, q ∈ questions -> exists x, upstream q x) ->
  rtc (fetch_step o (Z.of_nat (length questions)) upstream) (fetch_start questions) f ->
  (settled f \/ exists g, fetch_step o (Z.of_nat (length questions)) upstream f g) /\
  (forall g, fetch_step o (Z.of_nat (length questions)) upstream f g -> (left_to_do g < left_to_do f)%nat) /\
  Z.of_nat (length (busy f)) <= Concurrency o.
Proof.
  intros Hc U R. destruct (reach_fetching o upstream questions Hc f R) as [reported I].
  split; [by apply (can_step o upstream questions Hc f reported)|]. split; [apply step_does|].
  exact (few_busy _ _ _ _ _ I).
Qed.

(** What a run's answers cost is an [int], as the study needs. *)
Lemma complete_priced x c : complete x = inl c -> is_int64 (CTokens c).
Proof.
  unfold complete. destruct x as [|st b]; [done|]. destruct (negb _); [done|]. destruct (first_value b) as [raw|]; [|done].
  destruct (Unmarshal dec_response raw _) as [r|] eqn:U; [|done].
  assert (V : is_int64 (CompletionTokens r)).
  { unfold Unmarshal in U. destruct (parse raw); [|done].
    assert (K : is_int64 (CompletionTokens (dec_response raw (mkCompletionResponse nil_slice 0)).1)).
    { apply (dec_struct_keep (fun r => is_int64 (CompletionTokens r))); [done|]. intros n d k t v Hd _ Hv.
      repeat (apply elem_of_cons in Hd as [[= -> ->]|Hd]); [..|by apply not_elem_of_nil in Hd].
      - by apply (field_apart (fun r => is_int64 (CompletionTokens r))).
      - apply (field_keeps (fun r => is_int64 (CompletionTokens r)) is_int64); [done|exact Hv|]. intros old Ho. apply dec_struct_keep; [exact Ho|].
        intros n' d' k' t' v' Hd' _ Hv'. repeat (apply elem_of_cons in Hd' as [[= -> ->]|Hd']); [|by apply not_elem_of_nil in Hd'].
        by apply dec_int_keep. }
    destruct (dec_response raw _) as [v ok]. destruct ok; [|done]. injection U as <-. exact K. }
  destruct (slice_list _); [done|]. destruct (_ <=? 0); [done|]. by intros [= <-].
Qed.

Lemma fetched_priced o upstream questions m :
  0 < Concurrency o -> fetchCompletions o upstream questions (inl m) -> priced m.
Proof.
  intros Hc. unfold fetchCompletions. rewrite (proj2 (Z.leb_gt _ _)) by lia. intros (f & R & _ & E) q c Hq.
  destruct (reach_fetching o upstream questions Hc f R) as [reported I]. unfold fetched in E.
  destruct (firstErr f); [done|]. injection E as ->. destruct (earned _ _ _ _ _ I q c Hq) as [_ (x & _ & X)].
  by eapply complete_priced.
Qed.

Module CollectExample.

(** Three batches of 40 under a budget of 90: the third waits for the window. *)
Definition second (n : Z) : Time := n * Second.
Definition turns : list (Z * (Time * Time)) :=
  [(40, (second 1, second 1)); (40, (second 2, second 2)); (40, (second 3, second 61))].

Example pacer_holds_budget_witness : forall w, granted (pace (mkPacer 90 0 0) turns).2 w <= 90.
Proof.
  apply pacer_holds_budget; [lia|by vm_compute|repeat constructor; by vm_compute|].
  split; [by vm_compute|]. split; [by intros|]. split; [by vm_compute|]. split; [by intros|].
  split; [by vm_compute|]. split; [intros pause E; vm_compute in E; injection E as <-; by vm_compute|exact I].
Defined.

Example third_waits : (pace (mkPacer 90 0 0) turns).2 = [(second 1, 40); (second 1, 40); (second 61, 40)].
Proof. vm_compute. reflexivity. Qed.

(** Two windows end to end: 170 texts go out within a few seconds. *)
Lemma a_minute_across_windows :
  (pace (mkPacer 90 0 0) [(5, (second 1, second 1)); (85, (second 59, second 59)); (85, (second 61, second 61))]).2
  = [(second 1, 5); (second 1, 85); (second 61, 85)].
Proof. vm_compute. reflexivity. Qed.

(** A batch larger than the budget goes out after one pause. *)
Lemma a_batch_over_budget :
  (wait (mkPacer 10 0 0) 25 (second 1) (second 61) false).1 = Some (mkPacer 10 25 (second 61)).
Proof. vm_compute. reflexivity. Qed.

(** The embedder answers every third call. *)
Definition vec (t : string) : list f64 := [f64_of_Z (Z.of_nat (String.length t))].
Definition third (k : nat) (batch : list string) : option (list (list f64)) :=
  if (k mod 3 =? 2)%nat then Some (vec <$> batch) else None.
Definition texts : list string := ["a"; "bb"; "ccc"]%string.
Definition clock (b : nat) : Time * Time := (1, 1).

Example every_text_is_embedded_witness :
  exists r, embedAll third (fun _ => false) (fun _ => false) clock texts 2 90 = Some r /\
    match r with
    | inl m => forall t, m !! t = if decide (t ∈ texts) then Some (vec t) else None
    | inr e => e ∈ [ErrWaitWindow; ErrWaitRetry; ErrAttempts]
    end /\
    (never_cancelled (fun _ => false) (fun _ => false) -> answers_within third embedAttempts -> exists m, r = inl m).
Proof.
  apply (every_text_is_embedded third vec); [|done]. intros k batch got. unfold third.
  destruct (_ =? _)%nat; [by intros [= <-]|done].
Defined.

Example third_embeds :
  embedAll third (fun _ => false) (fun _ => false) clock texts 2 90
  = Some (inl (list_to_map [("a", vec "a"); ("bb", vec "bb"); ("ccc", vec "ccc")])%string).
Proof. vm_compute. reflexivity. Qed.

(** Two workers, two questions, an upstream that repeats them. *)
Definition o : completionOptions := mkCompletionOptions "http://127.0.0.1:8100/v1/" "local" 160 2.
Definition reply (q : string) : string := struct_text
  [("choices", array_text [struct_text [("message", struct_text [("content", quote q)])]]);
   ("usage", struct_text [("completion_tokens", "7")])]%string.
Definition echo (q : string) (x : exchange) : Prop := x = Answered 200 (reply q).
Definition qs : list string := ["a"; "b"]%string.

Definition got : gmap string completion := list_to_map [("a", mkCompletion "a" 7); ("b", mkCompletion "b" 7)]%string.

(** Both are out before the first comes back. *)
Lemma echo_fetched : fetchCompletions o echo qs (inl got).
Proof.
  unfold fetchCompletions. cbn [Concurrency o Z.leb Z.compare]. eexists. split.
  - eapply rtc_l; [by eapply step_takes|]. eapply rtc_l; [by eapply step_hands|].
    eapply rtc_l; [by eapply step_takes|]. eapply rtc_l; [by eapply step_hands|].
    eapply rtc_l; [by apply (step_reports _ _ _ _ [] "b"%string ["a"%string] (Answered 200 (reply "b")))|].
    eapply rtc_l; [by apply (step_reports _ _ _ _ [] "a"%string [] (Answered 200 (reply "a")))|].
    eapply rtc_l; [by eapply step_ends|]. apply rtc_refl.
  - split; [done|]. vm_compute. reflexivity.
Qed.

Example all_answers_or_none_witness :
  got !! "a"%string = Some (mkCompletion "a" 7) /\ forall q, is_Some (got !! q) <-> q ∈ qs.
Proof. split; [reflexivity|]. exact (proj1 (all_answers_or_none o echo qs (inl got) ltac:(done) echo_fetched)). Defined.

Example fetching_ends_witness :
  settled (fetch_start qs) \/ exists g, fetch_step o 2 echo (fetch_start qs) g.
Proof. apply (fetching_ends o echo qs); [done|intros q _; by eexists|apply rtc_refl]. Defined.

Example trimmed_url : completion_url o = "http://127.0.0.1:8100/v1/chat/completions"%string.
Proof. vm_compute. reflexivity. Qed.
End CollectExample.
