(* ===== verification/Calibrate.v ===== *)
(** * Recording a provider (cmd/calibrate/main.go)

    How a provider's stream is timed, frame by frame, and how the timings are
    reduced to the profile the simulator replays.  The lines of each stream come
    with the instant at which the loop saw them; the simulator's side of the
    contract is [LlmSim.validate].  The profile is kept as the numbers in the
    document; the file it becomes is [ProfileFile]'s. *)

From Stdlib Require Import ZArith Lia String Ascii SpecFloat.
From stdpp Require Import base gmap strings list numbers sorting.
From S2P Require Import Prelude Float64 GoString Json JsonText Providers Wire Upstream Samples LlmSim.

Local Open Scope Z_scope.

Definition defaultPrompt : string := "Count slowly from one to twenty, one number per line.".
Definition sampleGap : Duration := 2 * Second.
Definition maxErrorBody : nat := 4096.

(** ** Timing one stream *)

(** What [record] asks for.  The members of a map of Go come in the order of their
    keys. *)
Definition record_request (baseURL key model prompt : string) : http_request :=
  mkHttpRequest (trim_slashes baseURL +:+ "/chat/completions")
    (<["Authorization" := "Bearer " +:+ key]> {["Content-Type" := "application/json"]})
    (struct_text
      [("max_tokens", "200");
       ("messages", array_text [struct_text [("content", quote prompt); ("role", quote "user")]]);
       ("model", quote model); ("stream", "true"); ("temperature", "0")])%string.

Definition dec_delta : decoder string := dec_struct [("delta", dec_struct [("content", dec_string)])]%string.
Definition dec_chunk : decoder (slice string) := dec_struct [("choices", dec_slice ""%string dec_delta)]%string.

Definition hasContent (payload : string) : bool :=
  match Unmarshal dec_chunk payload nil_slice with
  | None => false
  | Some choices => existsb (fun c => negb (bool_decide (c = ""%string))) (slice_list choices)
  end.

Record observation := mkObservation { ottft : Duration; ogaps : list Duration; otokens : Z }.

(** What the loop makes of a line: the end, a frame with text, or neither. *)
Inductive frame := Done | Content | Other.
Definition frame_of (line : string) : frame :=
  let line := TrimSpace line in
  match CutPrefix line "data: " with
  | None => Other
  | Some payload =>
      if bool_decide (payload = "[DONE]"%string) then Done else if hasContent payload then Content else Other
  end.

(** The scanner loop: the lines and when each was seen. *)
Fixpoint observe (start : Time) (lines : list (string * Time)) (last : Time) (obs : observation) : observation :=
  match lines with
  | [] => obs
  | (line, now) :: lines =>
      match frame_of line with
      | Done => obs
      | Other => observe start lines last obs
      | Content =>
          let obs :=
            if otokens obs =? 0 then mkObservation (time_Sub now start) (ogaps obs) (otokens obs +i 1)
            else mkObservation (ottft obs) (ogaps obs ++ [time_Sub now last]) (otokens obs +i 1) in
          observe start lines now obs
      end
  end.

Inductive record_error := ErrDo | ErrUpstream (status : Z) (msg : string) | ErrScan | ErrNoContent.

(** What the client got: nothing, or a response, with the lines the loop reads
    from its body up to the one that ends it, and whether [scanner.Err] tells of
    an error after that. *)
Inductive recording :=
| NoResponse
| Response (status : Z) (body : string) (lines : list (string * Time)) (scan_failed : bool).

(** [record], from the instant the request was sent. *)
Definition record (start : Time) (r : recording) : observation + record_error :=
  match r with
  | NoResponse => inr ErrDo
  | Response status body lines scan_failed =>
      if negb (Is2xx status) then inr (ErrUpstream status (TrimSpace (String.substring 0 maxErrorBody body)))
      else
        let obs := observe start lines start (mkObservation 0 [] 0) in
        if scan_failed then inr ErrScan
        else if otokens obs =? 0 then inr ErrNoContent
        else inl obs
  end.

(** ** Reducing the samples *)

Definition round2 (v : f64) : f64 := f64_div (f64_round (f64_mul v (f64_of_Z 100))) (f64_of_Z 100).

(** [stats]: the mean, and the nearest rank of the 95th. *)
Definition stats (values : list f64) : Dist :=
  match values with
  | [] => mkDist f64_zero f64_zero
  | _ =>
      let sorted := Float64s values in
      let n := length sorted in
      let mean := f64_div (sum sorted) (f64_of_Z (Z.of_nat n)) in
      mkDist (round2 mean) (round2 (default f64_zero (sorted !! rank_index (f64_ratio 95 100) n)))
  end.

Definition millis (d : Duration) : f64 := f64_mul (duration_Seconds d) (f64_of_Z 1000).
Definition toMillis (ds : list Duration) : list f64 := millis <$> ds.

(** The upper of the two middle samples, for the progress line. *)
Definition middle (values : list f64) : f64 :=
  match values with
  | [] => f64_zero
  | _ => let sorted := Float64s values in default f64_zero (sorted !! (length sorted `div` 2)%nat)
  end.

Record samples := mkSamples { ttfts : list f64; itls : list f64; tokens : list f64 }.

Definition keep (s : samples) (obs : observation) : samples :=
  mkSamples (ttfts s ++ [millis (ottft obs)]) (itls s ++ toMillis (ogaps obs)) (tokens s ++ [f64_of_Z (otokens obs)]).

(** The document [buildProfile] returns: what the simulator reads of it, and the
    provenance it ignores. *)
Record Recorded := mkRecorded { profile : Profile; chunk_samples : Z; sample_count : Z; provider_model : string }.

Definition buildProfile (name : string) (s : samples) : Profile :=
  LlmSim.mkProfile name (stats (ttfts s)) (stats (itls s)) (stats (tokens s)).

Inductive run_error := ErrNoKey | ErrSamples (n : Z) | ErrSample (i : nat) (e : record_error).

(** The loop of [run]: the recordings come one per sample. *)
Fixpoint record_all (i : nat) (recs : list (Time * recording)) (s : samples) : samples + run_error :=
  match recs with
  | [] => inl s
  | (start, r) :: recs =>
      match record start r with
      | inr e => inr (ErrSample (S i) e)
      | inl obs => record_all (S i) recs (keep s obs)
      end
  end.

Definition calibrate (key name model : string) (n : Z) (recs : nat -> Time * recording) : Recorded + run_error :=
  if bool_decide (key = ""%string) then inr ErrNoKey
  else if n <? 1 then inr (ErrSamples n)
  else
    let name := if bool_decide (name = ""%string) then model else name in
    match record_all 0 (recs <$> seq 0 (Z.to_nat n)) (mkSamples [] [] []) with
    | inr e => inr e
    | inl s => inl (mkRecorded (buildProfile name s) (Z.of_nat (length (itls s))) n model)
    end.

(** ** Facts *)

(** The frames with text before the end of the stream, as the instants they were
    seen at. *)
Fixpoint content_times (lines : list (string * Time)) : list Time :=
  match lines with
  | [] => []
  | (line, now) :: lines =>
      match frame_of line with
      | Done => []
      | Other => content_times lines
      | Content => now :: content_times lines
      end
  end.

(** The waits between instants, from one on. *)
Fixpoint waits (from : Time) (ts : list Time) : list Duration :=
  match ts with
  | [] => []
  | t :: ts => time_Sub t from :: waits t ts
  end.

Lemma observe_later start lines last obs :
  0 < otokens obs -> otokens obs + Z.of_nat (length lines) <= max_int64 ->
  observe start lines last obs =
    mkObservation (ottft obs) (ogaps obs ++ waits last (content_times lines))
      (otokens obs + Z.of_nat (length (content_times lines))).
Proof.
  revert last obs. induction lines as [|[line now] lines IH]; intros last obs Ht Hm; cbn [observe content_times].
  { destruct obs. cbn. by rewrite app_nil_r, Z.add_0_r. }
  cbn [length] in Hm. destruct (frame_of line).
  - destruct obs. cbn. by rewrite app_nil_r, Z.add_0_r.
  - rewrite (proj2 (Z.eqb_neq _ _)) by lia. rewrite wrap64_id by (unfold is_int64, min_int64, max_int64 in *; lia).
    rewrite IH by (cbn; lia). cbn. rewrite <- app_assoc. f_equal. lia.
  - apply IH; lia.
Qed.

Lemma observe_spec start lines :
  Z.of_nat (length lines) <= max_int64 ->
  observe start lines start (mkObservation 0 [] 0) =
    match content_times lines with
    | [] => mkObservation 0 [] 0
    | t :: ts => mkObservation (time_Sub t start) (waits t ts) (Z.of_nat (S (length ts)))
    end.
Proof.
  induction lines as [|[line now] lines IH]; intros Hm; cbn [observe content_times]; [done|]. cbn [length] in Hm.
  destruct (frame_of line); [done| |apply IH; lia]. cbn [otokens ogaps Z.eqb].
  rewrite wrap64_id by done. rewrite observe_later by (cbn; lia). cbn. f_equal. lia.
Qed.

Lemma waits_length from ts : length (waits from ts) = length ts.
Proof. revert from. by induction ts as [|t ts IH]; intros from; cbn; [|rewrite IH]. Qed.

(** Instants that a duration can be taken between add up. *)
Lemma waits_total from ts :
  (forall t u, t ∈ from :: ts -> u ∈ from :: ts -> is_int64 (t - u)) ->
  foldr Z.add 0 (waits from ts) = default from (last ts) - from.
Proof.
  revert from. induction ts as [|t ts IH]; intros from H; [cbn; lia|]. cbn [waits foldr].
  rewrite IH by (intros; apply H; by right). unfold time_Sub.
  specialize (H t from ltac:(right; left) ltac:(left)). unfold is_int64 in H.
  destruct ts as [|u ts]; cbn [last]; [cbn; lia|]. destruct (last (u :: ts)) eqn:E; [cbn; lia|by apply last_None in E].
Qed.

Lemma record_all_keeps i recs s s' :
  record_all i recs s = inl s' ->
  exists obs, Forall2 (fun x o => record x.1 x.2 = inl o) recs obs /\
    s' = mkSamples (ttfts s ++ ((fun o => millis (ottft o)) <$> obs))
           (itls s ++ concat ((fun o => toMillis (ogaps o)) <$> obs)) (tokens s ++ ((fun o => f64_of_Z (otokens o)) <$> obs)).
Proof.
  revert i s. induction recs as [|[start r] recs IH]; intros i s; cbn [record_all].
  { intros [= <-]. exists []. split; [constructor|]. destruct s. cbn. by rewrite !app_nil_r. }
  destruct (record start r) as [o|] eqn:R; [|done]. intros H. apply IH in H as (obs & F & ->).
  exists (o :: obs). split; [by constructor|]. destruct s. cbn. by rewrite <- !app_assoc.
Qed.

(** ** Properties *)

(** A recording times what it saw: a stream that is recorded has as many
    tokens as frames with text before its end, at least one, one gap fewer, and
    the time to the first and the gaps add up to the instant of the last. *)
Theorem recording_adds_up start status body lines failed obs :
  record start (Response status body lines failed) = inl obs ->
  Z.of_nat (length lines) <= max_int64 ->
  (forall t u, t ∈ start :: lines.*2 -> u ∈ start :: lines.*2 -> is_int64 (t - u)) ->
  let seen := content_times lines in
  otokens obs = Z.of_nat (length seen) /\ 0 < otokens obs /\
  Z.of_nat (length (ogaps obs)) = otokens obs - 1 /\
  ottft obs + foldr Z.add 0 (ogaps obs) = default start (last seen) - start.
Proof.
  intros R Lm H. unfold record in R. destruct (negb _); [done|]. rewrite observe_spec in R by done.
  destruct failed; [done|]. cbv zeta. set (seen := content_times lines) in *.
  assert (Sub : forall t, t ∈ seen -> t ∈ lines.*2).
  { subst seen. clear. induction lines as [|[line now] lines IH]; intros t; cbn [content_times]; [done|].
    destruct (frame_of line); [by intros ?%not_elem_of_nil| |by right; apply IH].
    intros [->|Ht]%elem_of_cons; [left|right; by apply IH]. }
  destruct seen as [|t ts] eqn:E; [done|]. rewrite (proj2 (Z.eqb_neq _ _)) in R by (cbn [otokens]; lia).
  injection R as <-. cbn [otokens ogaps ottft]. rewrite waits_length, waits_total.
  - pose proof (H t start ltac:(right; apply Sub; left) ltac:(left)) as Ht. unfold is_int64 in Ht.
    cbn [length]. split_and!; [lia|lia|lia|]. unfold time_Sub.
    destruct ts as [|u ts]; cbn [last]; [cbn; lia|]. destruct (last (u :: ts)) eqn:El; [cbn; lia|by apply last_None in El].
  - intros x y Hx Hy. apply H; right; by apply Sub.
Qed.

(** No profile without measurements: a profile is written exactly when there is
    a key, at least one sample was asked for and every one was recorded; it then
    reduces one first-token time and one token count per sample, and every gap
    of every sample. *)
Theorem a_profile_is_measured key name model n recs r :
  calibrate key name model n recs = inl r <->
  key <> ""%string /\ 1 <= n /\
  exists obs, Forall2 (fun i o => record (recs i).1 (recs i).2 = inl o) (seq 0 (Z.to_nat n)) obs /\
    r = mkRecorded
      (LlmSim.mkProfile (if bool_decide (name = ""%string) then model else name)
         (stats ((fun o => millis (ottft o)) <$> obs)) (stats (concat ((fun o => toMillis (ogaps o)) <$> obs)))
         (stats ((fun o => f64_of_Z (otokens o)) <$> obs)))
      (Z.of_nat (length (concat ((fun o => toMillis (ogaps o)) <$> obs)))) n model.
Proof.
  unfold calibrate. case_bool_decide as K; [split; [done|by intros [? _]]|].
  destruct (n <? 1) eqn:L; bool_to_prop; [split; [done|lia]|].
  split.
  - destruct (record_all _ _ _) as [s|] eqn:E; [|done]. intros [= <-]. split_and!; [done|done|].
    apply record_all_keeps in E as (obs & F & ->). exists obs.
    apply Forall2_fmap_l in F. split; [exact F|reflexivity].
  - intros (_ & _ & obs & F & ->).
    assert (E : forall i s0, exists s, record_all i (recs <$> seq 0 (Z.to_nat n)) s0 = inl s).
    { revert F. generalize (seq 0 (Z.to_nat n)). intros l F.
      induction F as [|x o l obs R F IH]; intros i s0; [by eexists|].
      rewrite fmap_cons. cbn [record_all]. destruct (recs x) as [start rc]. cbn [fst snd] in R. rewrite R. apply IH. }
    destruct (E 0%nat (mkSamples [] [] [])) as [s Es]. rewrite Es. apply record_all_keeps in Es as (obs' & F' & ->).
    apply Forall2_fmap_l in F'. assert (obs' = obs) as ->; [|done].
    clear - F F'. revert obs' F'. induction F as [|x o l obs R F IH]; intros obs' F'; inversion F' as [|? o' ? obs'' R' F'']; [done|].
    subst. f_equal; [|by apply IH]. cbn in *. congruence.
Qed.

Module CalibrateExample.

Definition chunk (text : string) : string := ("data: " +:+ struct_text
  [("choices", array_text [struct_text [("delta", struct_text [("content", quote text)])]])])%string.
Definition ms (n : Z) : Time := n * Millisecond.
Definition lines : list (string * Time) :=
  [(chunk "", ms 90); (chunk "one", ms 100); ("", ms 100); (chunk "two", ms 130); ("data: [DONE]", ms 131);
   (chunk "late", ms 132)]%string.

(** The simulator reads the request as it was meant. *)
Example the_simulator_is_asked :
  LlmSim.decodeRequest (sent (record_request "http://127.0.0.1:8100/v1/" "k" "small" defaultPrompt))
  = Some (mkChatRequest "small" (mkSlice 1 [mkChatMessage "user" defaultPrompt]) true).
Proof. vm_compute. reflexivity. Qed.

(** Written out, for the proof below. *)
Lemma lines_recorded : record (ms 10) (Response 200 "" lines false) = inl (mkObservation (ms 90) [ms 30] 2).
Proof. vm_compute. reflexivity. Qed.

Example recording_adds_up_witness :
  ms 90 + (ms 30 + 0) = ms 130 - ms 10.
Proof.
  destruct (recording_adds_up _ _ _ _ _ _ lines_recorded) as (_ & _ & _ & T); [vm_compute; discriminate| |].
  2: { assert (E : default (ms 10) (last (content_times lines)) = ms 130) by (vm_compute; reflexivity).
       rewrite E in T. exact T. }
  intros t u Ht%list_elem_of_In Hu%list_elem_of_In.
  assert (B : forallb (fun t => forallb (fun u => (min_int64 <=? t - u) && (t - u <=? max_int64)) (ms 10 :: lines.*2))
    (ms 10 :: lines.*2) = true) by (vm_compute; reflexivity).
  rewrite forallb_forall in B. specialize (B t Ht). rewrite forallb_forall in B. specialize (B u Hu).
  apply andb_true_iff in B as [B1 B2]. split; [by apply Z.leb_le|by apply Z.leb_le].
Defined.

(** Nineteen gaps of a millisecond and one of a hundred: the rank of the 95th is
    the nineteenth, below the mean. *)
Definition bursty : list f64 := repeat (f64_of_Z 1) 19 ++ [f64_of_Z 100].

Lemma p95_below_mean : f64_ltb (P95 (stats bursty)) (LlmSim.Mean (stats bursty)) = true.
Proof. vm_compute. reflexivity. Qed.

(** A recording with those gaps writes a profile the simulator refuses. *)
Lemma a_recorded_profile_is_refused :
  validate (buildProfile "p" (mkSamples [f64_of_Z 100] bursty [f64_of_Z 21]))
  = Some "itl_ms: p95 must be at least the mean"%string.
Proof. vm_compute. reflexivity. Qed.

(** As does one of streams that each come in a single frame. *)
Lemma no_gaps_are_refused :
  validate (buildProfile "p" (mkSamples [f64_of_Z 100] [] [f64_of_Z 1]))
  = Some "itl_ms: mean and p95 must be positive"%string.
Proof. vm_compute. reflexivity. Qed.
End CalibrateExample.
