(* ===== verification/Conformance.v ===== *)
(** * The adapters' conformance suite (internal/providers/conformance)

    The repository's own executable specification of an adapter: what the suite
    observes of an adapter against a test upstream, run on the adapters of this
    library and on the fixtures of the repository's tests, and what of it holds
    for every upstream.  A test is whether it reports nothing.  The pieces in
    which the upstream writes its body are not seen by a reader that buffers, so
    the tests of split reads read the body whole. *)

From Stdlib Require Import ZArith Lia String Ascii.
From stdpp Require Import base gmap strings list numbers.
From S2P Require Import Prelude GoString Providers Json JsonText Sse Stream Upstream Config OpenaiWire Dialect.
From S2P Require Import Anthropic Gemini Wiring Adapters.

Local Open Scope Z_scope.

(** ** Suites *)

Record NonStreamCase := mkNonStream { NBody : string; NContent : string; NUsage : Usage }.
Record StreamCase := mkStreamCase { SBody : string; SContent : string; SUsage : Usage }.
Record ErrorCase := mkErrorCase {
  EName : string; EStatus : Z; EBody : string; EWantClass : ErrorClass; SecretInBody : string
}.

(** [New] is given the HTTP client as well, which stands for the test upstream. *)
Record Suite := mkSuite {
  SuiteName : string;
  SuiteNew : string -> string -> (http_request -> http_outcome) -> Provider reader;
  AuthHeader : string; AuthValue : string -> string;
  NonStream : NonStreamCase; StreamOk : StreamCase; Truncated : StreamCase; Errors : list ErrorCase
}.

Definition testAPIKey : string := "conformance-test-key-abcdef123456".
Definition testURL : string := "http://127.0.0.1:80".

(** [upstream]: the body once, whole. *)
Definition whole_body (text : string) : body := mkBody (list_ascii_of_string text) (ErrSentinel IoEOF).
Definition upstream (status : Z) (text : string) (_ : http_request) : http_outcome :=
  Response status (whole_body text) None.

Definition chatRequest (stream : bool) : ChatRequest := mkRequest "test-model" stream (struct_text
  ([("model", quote "test-model")]%string ++ (if stream then [("stream", "true")]%string else [])
   ++ [("messages", array_text [struct_text [("role", quote "user"); ("content", quote "hello")]])]%string)).

(** ** Reading a stream to its end *)

Definition dec_delta_content : decoder string := dec_struct [("delta", dec_struct [("content", dec_string)])]%string.
Record envelope := mkEnvelope { object : string; contents : slice string }.
Definition dec_envelope : decoder envelope := dec_struct
  [("object", at_field object (fun v e => mkEnvelope v (contents e)) dec_string);
   ("choices", at_field contents (fun v e => mkEnvelope (object e) v) (dec_slice ""%string dec_delta_content))]%string.

(** [fine]: nothing was reported on the way. *)
Record drained := mkDrained { content : string; usage : option Usage; ended : goerror; fine : bool }.

(** [drain], over the answers to one read after another. *)
Fixpoint drain (answers : list (StreamChunk + goerror)) (text : string) (u : option Usage) (ok : bool) : option drained :=
  match answers with
  | [] => None
  | inr e :: _ => Some (mkDrained text u e ok)
  | inl c :: answers =>
      if Keepalive c then drain answers text u ok
      else
        let u := match ChunkUsage c with Some x => Some x | None => u end in
        match Unmarshal dec_envelope (Data c) (mkEnvelope "" nil_slice) with
        | None => drain answers text u false
        | Some e =>
            let known := bool_decide (object e = ""%string) || bool_decide (object e = "chat.completion.chunk"%string) in
            drain answers (text +:+ String.concat "" (slice_list (contents e))) u (ok && known)
        end
  end.

Definition calm : moment := mkMoment None false.
(** As many reads as the body has bytes, and one. *)
Definition drain_reader (r : reader) : option drained :=
  drain (reads (repeat calm (S (length (unread (pending r))))) r) "" None true.

(** ** The tests *)

(** The stream of a suite, opened and drained. *)
Definition opened (s : Suite) (text : string) : option reader :=
  match provStream (SuiteNew s testURL testAPIKey (upstream 200 text)) (chatRequest true) with
  | Some (inl (r, _)) => Some r
  | _ => None
  end.

(** The upstream answers only the key it should see, which tells what it saw. *)
Definition testAuthHeader (s : Suite) : bool :=
  let do r := if bool_decide (default "" (header r !! CanonicalHeaderKey (AuthHeader s)) = AuthValue s testAPIKey)
              then upstream 200 (NBody (NonStream s)) r else Undelivered (ErrOpaque "") None in
  match provChat (SuiteNew s testURL testAPIKey do) (chatRequest false) with Some (inl _) => true | _ => false end.

Record assistant := mkAssistant { role : string; acontent : string }.
Definition dec_assistant : decoder assistant := dec_struct [("message", dec_struct
  [("role", at_field role (fun v m => mkAssistant v (acontent m)) dec_string);
   ("content", at_field acontent (fun v m => mkAssistant (role m) v) dec_string)])]%string.
Record openai_body := mkOpenaiBody { bobject : string; bchoices : slice assistant }.
Definition dec_openai_body : decoder openai_body := dec_struct
  [("object", at_field bobject (fun v b => mkOpenaiBody v (bchoices b)) dec_string);
   ("choices", at_field bchoices (fun v b => mkOpenaiBody (bobject b) v) (dec_slice (mkAssistant "" "") dec_assistant))]%string.

Definition assertOpenAICompletion (text want : string) : bool :=
  match Unmarshal dec_openai_body text (mkOpenaiBody "" nil_slice) with
  | None => false
  | Some b =>
      match slice_list (bchoices b) with
      | [] => false
      | m :: _ =>
          bool_decide (bobject b = "chat.completion"%string) && bool_decide (acontent m = want)
          && bool_decide (role m = "assistant"%string)
      end
  end.

Definition testNonStream (s : Suite) : bool :=
  match provChat (SuiteNew s testURL testAPIKey (upstream 200 (NBody (NonStream s)))) (chatRequest false) with
  | Some (inl resp) =>
      bool_decide (RespUsage resp = NUsage (NonStream s)) && assertOpenAICompletion (RespBody resp) (NContent (NonStream s))
  | _ => false
  end.

Definition usage_wanted (got : option Usage) (want : Usage) : bool :=
  match got with Some u => bool_decide (u = want) | None => bool_decide (want = zeroUsage) end.

Definition testStream (s : Suite) : bool :=
  match opened s (SBody (StreamOk s)) with
  | None => false
  | Some r =>
      match drain_reader r with
      | None => false
      | Some d => fine d && errors_Is (ended d) IoEOF && bool_decide (content d = SContent (StreamOk s))
                  && usage_wanted (usage d) (SUsage (StreamOk s))
      end
  end.

Definition testTruncated (s : Suite) : bool :=
  match opened s (SBody (Truncated s)) with
  | None => false
  | Some r => match drain_reader r with None => false | Some d => fine d && errors_Is (ended d) StreamTruncated end
  end.

Definition testSplitReads (s : Suite) : bool :=
  match opened s (SBody (StreamOk s)) with
  | None => false
  | Some r =>
      match drain_reader r with
      | None => false
      | Some d => fine d && errors_Is (ended d) IoEOF && bool_decide (content d = SContent (StreamOk s))
      end
  end.

Definition Contains (s sub : string) : bool := match String.index 0 sub s with Some _ => true | None => false end.

(** The parts of [pe.Error()] that are not the program's own: the name of the
    provider and the message. *)
Definition testError (s : Suite) (c : ErrorCase) : bool :=
  match provChat (SuiteNew s testURL testAPIKey (upstream (EStatus c) (EBody c))) (chatRequest false) with
  | Some (inr (ErrProvider name class status message None)) =>
      bool_decide (class = EWantClass c) && (status =? EStatus c)
      && negb (Contains name testAPIKey) && negb (Contains message testAPIKey)
      && (bool_decide (SecretInBody c = ""%string) || negb (Contains message (SecretInBody c)))
  | _ => false
  end.
Definition testErrors (s : Suite) : bool := forallb (testError s) (Errors s).

(** A body that nothing ever arrives on, until the context is canceled. *)
Definition testCancel (s : Suite) : bool :=
  let do _ := Response 200 (mkBody [] (ErrSentinel CtxCanceled)) None in
  match provStream (SuiteNew s testURL testAPIKey do) (chatRequest true) with
  | Some (inl (r, _)) =>
      match reads [mkMoment (Some Canceled) false] r with [inr _] => true | _ => false end
  | _ => false
  end.

Definition close (r : reader) : reader :=
  match r with
  | OpenaiReader r => OpenaiReader (Stream.Close r)
  | AnthropicReader r => AnthropicReader (Stream.Close r)
  | GeminiReader r => GeminiReader (Stream.Close r)
  end.

Definition testCloseIdempotent (s : Suite) : bool :=
  match opened s (SBody (StreamOk s)) with
  | None => false
  | Some r => match reads [calm] (close (close r)) with [inr _] => true | _ => false end
  end.

(** [Run]. *)
Definition Run (s : Suite) : bool :=
  testAuthHeader s && testNonStream s && testStream s && testTruncated s && testSplitReads s && testErrors s
  && testCancel s && testCloseIdempotent s.

(** ** What holds for every upstream *)

Lemma events_fewer f b : (length (events f b).1 <= length (unread b))%nat.
Proof.
  revert b. induction f as [|f IH]; intros b; [cbn; lia|]. rewrite events_S.
  destruct (Next b) as [[ev|e] b'] eqn:N; [|cbn; lia]. apply Next_shorter in N. specialize (IH b').
  destruct (events f b'). cbn in *. lia.
Qed.

Section OneReader.
Context {L : Type} (w : wire L).


Lemma next_answer_shrinks p m s evs e c s' evs' :
  next_answer w p m s evs e = (inl c, s', evs') -> (length evs' < length evs)%nat.
Proof.
  revert s. induction evs as [|ev evs IH]; intros s; cbn [next_answer]; [done|].
  destruct (EvKeepalive ev); [intros [= _ _ ->]; cbn; lia|].
  destruct (translate w s ev); try done; [intros H%IH; cbn; lia|intros [= _ _ ->]; cbn; lia].
Qed.

Lemma answers_end p n s evs e :
  (length evs < n)%nat -> exists pre err post, answers w p (repeat calm n) s evs e = (inl <$> pre) ++ inr err :: post.
Proof.
  revert s evs. induction n as [|n IH]; intros s evs Hn; [lia|]. cbn [repeat answers].
  destruct (next_answer w p calm s evs e) as [[[c|err] s'] evs'] eqn:N.
  - apply next_answer_shrinks in N. cbn [closed_meanwhile calm].
    destruct (IH s' evs' ltac:(lia)) as (pre & err & post & ->). by exists (c :: pre), err, post.
  - cbn [replicate]. by exists [], err, (replicate (length (repeat calm n)) (inr err)).
Qed.

Lemma recvs_end p b s : exists pre err post,
  recvs w (repeat calm (S (length (unread b)))) (newReader p b s) = (inl <$> pre) ++ inr err :: post.
Proof.
  rewrite recvs_live. destruct (events (S (length (unread b))) b) as [evs e] eqn:E. apply answers_end.
  pose proof (events_fewer (S (length (unread b))) b) as Hl. rewrite E in Hl. cbn in Hl. lia.
Qed.

Lemma recvs_after_close m ms p b s : recvs w (m :: ms) (Stream.Close (Stream.Close (newReader p b s)))
  = replicate (S (length ms)) (inr (ErrSentinel StreamTruncated)).
Proof. by rewrite recvs_closed. Qed.
End OneReader.

Lemma drain_at (pre : list StreamChunk) e post t u ok :
  exists d, drain ((inl <$> pre) ++ inr e :: post) t u ok = Some d /\ ended d = e.
Proof.
  revert t u ok. induction pre as [|c pre IH]; intros t u ok; [by eexists|]. cbn [fmap list_fmap app drain].
  destruct (Keepalive c); [apply IH|]. destruct (Unmarshal _ _ _); apply IH.
Qed.

(** A reader as an adapter hands it out. *)
Definition unused (r : reader) : Prop :=
  match r with
  | OpenaiReader r => exists n b s, r = newReader n b s
  | AnthropicReader r => exists n b s, r = newReader n b s
  | GeminiReader r => exists n b s, r = newReader n b s
  end.

Lemma unused_drains r : unused r -> exists d post,
  drain_reader r = Some d /\ (inr (ended d) : StreamChunk + goerror) ∈ reads (repeat calm post) r.
Proof.
  intros U. assert (R : exists pre err post, reads (repeat calm (S (length (unread (pending r))))) r
    = (inl <$> pre) ++ inr err :: post) by (destruct r; destruct U as (n & b & s & ->); apply recvs_end).
  destruct R as (pre & err & post & R). unfold drain_reader. rewrite R.
  destruct (drain_at pre err post "" None true) as (d & -> & Ed). exists d, (S (length (unread (pending r)))).
  split; [done|]. rewrite R, Ed. apply elem_of_app. right. left.
Qed.

Lemma unused_closed r m ms : unused r -> reads (m :: ms) (close (close r))
  = replicate (S (length ms)) (inr (ErrSentinel StreamTruncated)).
Proof. destruct r; intros (n & b & s & ->); apply recvs_after_close. Qed.

(** Every adapter hands out such a reader. *)
Lemma linked_unused do now fresh cfg build p req r :
  linked do now fresh (PKind cfg) = Some build -> build cfg = Some p -> opens p req r -> unused r.
Proof.
  intros L B [info E]. unfold linked in L.
  assert (O : forall q, provStream (lift OpenaiReader (OpenaiWire.adapter q (do cfg))) req = Some (inl (r, info)) -> unused r).
  { intros q. cbn. unfold OpenaiWire.ChatStream. destruct (OpenaiWire.post _ _ _) as [[[st b] ctx]|]; [|done].
    destruct (negb _); [done|]. intros [= <- _]. by eexists _, _, _. }
  destruct (PKind cfg); cbn [profiles] in L; try done; injection L as <-;
    try (destruct (builderFor _ cfg); [injection B as <-; by eapply O|done]); injection B as <-; cbn in E.
  - unfold Gemini.ChatStream in E. destruct (Gemini.post _ _ _ _ _) as [[[st b] ctx]|]; [|done].
    destruct (negb _); [done|]. injection E as <- _. by eexists _, _, _.
  - unfold Anthropic.ChatStream in E. destruct (send _ _ _ _) as [[[st b] ctx]|]; [|done].
    destruct (negb _); [done|]. injection E as <- _. by eexists _, _, _.
Qed.

(** ** Properties *)

(** What the suite samples holds for every adapter and every upstream: the
    loop that drains a stream ends after at most one read for each byte of the
    body and one more, it ends with [io.EOF] only where the body holds the event
    that makes an answer whole, and a stream closed twice answers every later
    read with the truncation error. *)
Theorem every_stream_drains do now fresh cfg build p req r :
  linked do now fresh (PKind cfg) = Some build -> build cfg = Some p -> opens p req r ->
  (exists d, drain_reader r = Some d /\
     (errors_Is (ended d) IoEOF = true ->
      exists ev, ev ∈ (events (S (length (unread (pending r)))) (pending r)).1 /\ makes_whole r ev)) /\
  forall m ms, reads (m :: ms) (close (close r)) = replicate (S (length ms)) (inr (ErrSentinel StreamTruncated)).
Proof.
  intros L B O. pose proof (linked_unused _ _ _ _ _ _ _ _ L B O) as U. split.
  - destruct (unused_drains r U) as (d & k & Ed & Hin). exists d. split; [exact Ed|].
    pose proof (linked_honest _ _ _ _ _ _ L B) as H. by apply (honest_end (p := p) req r (repeat calm k)).
  - intros m ms. by apply unused_closed.
Qed.

(** The fixtures of the adapters' conformance_test.go, quotes written single. *)
Module ConformanceExample.

Definition lf : string := String "010" "".
Definition crlf : string := String "013" lf.

Definition config (kind : ProviderKind) (url key : string) : ProviderConfig := mkProviderConfig "test" kind url key [] None.
(** As the registry builds it. *)
Definition linked_provider (cfg : ProviderConfig) (do : http_request -> http_outcome) : Provider reader :=
  match linked (fun _ => do) 1700000000 "id" (PKind cfg) with
  | Some build => default (mkProviderImpl "" (fun _ => None) (fun _ => None)) (build cfg)
  | None => mkProviderImpl "" (fun _ => None) (fun _ => None)
  end.

Definition openai_stream : string := quoted (": keep-alive" +:+ lf +:+ lf +:+
    "data: {'object':'chat.completion.chunk','choices':[{'delta':{'role':'assistant','content':'Hel'}}]}" +:+
    lf +:+ lf +:+ "data: {'object':'chat.completion.chunk','choices':[{'delta':{'content':'lo'}}]}" +:+
    lf +:+ lf +:+
    "data: {'object':'chat.completion.chunk','choices':[{'delta':{},'finish_reason':'stop'}],'usage':{'prompt_tokens':9,'completion_tokens':2,'total_tokens':11}}" +:+
    lf +:+ lf +:+ "data: [DONE]" +:+ lf +:+ lf)%string.

Definition openai_cut : string := quoted ("data: {'object':'chat.completion.chunk','choices':[{'delta':{'content':'par'}}]}" +:+ lf +:+
    lf)%string.

Definition openai_answer : string :=
    quoted "{'id':'c1','object':'chat.completion','model':'test-model','choices':[{'index':0,'message':{'role':'assistant','content':'Hello there'},'finish_reason':'stop'}],'usage':{'prompt_tokens':9,'completion_tokens':3,'total_tokens':12}}"%string.

Definition openai_errors : list ErrorCase :=
  [mkErrorCase "unauthorized" 401 (quoted "{'error':{'message':'Invalid API Key','type':'invalid_request_error'}}") ErrClassAuth "";
   mkErrorCase "rate limited" 429 (quoted "{'error':{'message':'Rate limit reached','type':'rate_limit_error'}}") ErrClassRateLimited "";
   mkErrorCase "bad request" 400 (quoted "{'error':{'message':'temperature must be <= 2','type':'invalid_request_error'}}") ErrClassInvalidRequest "";
   mkErrorCase "model not found" 404 (quoted "{'error':{'message':'model does not exist','type':'invalid_request_error'}}") ErrClassModelNotFound "";
   mkErrorCase "bare 404 from a mistyped base_url" 404 (quoted "404 page not found") ErrClassUpstream "";
   mkErrorCase "server error" 500 (quoted "{'error':{'message':'internal'}}") ErrClassUpstream "";
   mkErrorCase "overloaded" 503 (quoted "{'error':{'message':'overloaded'}}") ErrClassUpstream ""]%string.

Definition openai_suite (kind : ProviderKind) : Suite := mkSuite "openai"
  (fun url key do => linked_provider (config kind url key) do)
  "Authorization" (fun key => "Bearer " +:+ key)%string
  (mkNonStream openai_answer "Hello there" (mkUsage 9 3 12))
  (mkStreamCase openai_stream "Hello" (mkUsage 9 2 11)) (mkStreamCase openai_cut "par" zeroUsage) openai_errors.

Definition anthropic_stream : string := quoted ("event: message_start" +:+ lf +:+
    "data: {'type':'message_start','message':{'id':'msg_01Fx9k','type':'message','role':'assistant','model':'claude-sonnet-4-5-20250929','content':[],'stop_reason':null,'stop_sequence':null,'usage':{'input_tokens':9,'output_tokens':1}}}" +:+
    lf +:+ lf +:+ "event: content_block_start" +:+ lf +:+
    "data: {'type':'content_block_start','index':0,'content_block':{'type':'text','text':''}}" +:+ lf +:+
    lf +:+ "event: ping" +:+ lf +:+ "data: {'type': 'ping'}" +:+ lf +:+ lf +:+
    "event: content_block_delta" +:+ lf +:+
    "data: {'type':'content_block_delta','index':0,'delta':{'type':'text_delta','text':'Hel'}}" +:+ lf +:+
    lf +:+ "event: content_block_delta" +:+ lf +:+
    "data: {'type':'content_block_delta','index':0,'delta':{'type':'text_delta','text':'lo'}}" +:+ crlf +:+
    crlf +:+ "event: content_block_stop" +:+ lf +:+ "data: {'type':'content_block_stop','index':0}" +:+
    lf +:+ lf +:+ "event: message_delta" +:+ lf +:+
    "data: {'type':'message_delta','delta':{'stop_reason':'end_turn','stop_sequence':null},'usage':{'output_tokens':2}}" +:+
    lf +:+ lf +:+ "event: message_stop" +:+ lf +:+ "data: {'type':'message_stop'}" +:+ lf +:+ lf)%string.

Definition anthropic_cut : string := quoted ("event: message_start" +:+ lf +:+
    "data: {'type':'message_start','message':{'id':'msg_01Fx9k','type':'message','role':'assistant','model':'claude-sonnet-4-5-20250929','content':[],'stop_reason':null,'stop_sequence':null,'usage':{'input_tokens':9,'output_tokens':1}}}" +:+
    lf +:+ lf +:+ "event: content_block_delta" +:+ lf +:+
    "data: {'type':'content_block_delta','index':0,'delta':{'type':'text_delta','text':'par'}}" +:+ lf +:+
    lf)%string.

Definition anthropic_answer : string :=
    quoted "{'id':'msg_01XFDUDYJgAACzvnptvVoYEL','type':'message','role':'assistant','model':'claude-sonnet-4-5-20250929','content':[{'type':'text','text':'Hello there'}],'stop_reason':'end_turn','stop_sequence':null,'usage':{'input_tokens':9,'output_tokens':3}}"%string.

Definition anthropic_errors : list ErrorCase :=
  [mkErrorCase "unauthorized" 401 (quoted "{'type':'error','error':{'type':'authentication_error','message':'invalid x-api-key'}}") ErrClassAuth "";
   mkErrorCase "rate limited" 429 (
    quoted "{'type':'error','error':{'type':'rate_limit_error','message':'Number of request tokens has exceeded your per-minute rate limit'}}") ErrClassRateLimited "";
   mkErrorCase "bad request" 400 (
    quoted "{'type':'error','error':{'type':'invalid_request_error','message':'max_tokens: must be greater than 0'}}") ErrClassInvalidRequest "";
   mkErrorCase "model not found" 404 (
    quoted "{'type':'error','error':{'type':'not_found_error','message':'model: claude-does-not-exist'}}") ErrClassModelNotFound "";
   mkErrorCase "bare 404 from a mistyped base_url" 404 (quoted "404 page not found") ErrClassUpstream "";
   mkErrorCase "server error" 500 (quoted "{'type':'error','error':{'type':'api_error','message':'Internal server error'}}") ErrClassUpstream "";
   mkErrorCase "overloaded" 529 (quoted "{'type':'error','error':{'type':'overloaded_error','message':'Overloaded'}}") ErrClassUpstream "";
   mkErrorCase "echoed request material is not relayed" 400 (
    quoted "{'type':'error','error':{'type':'invalid_request_error','message':'messages: at least one message is required'},'request_echo':{'authorization':'sk-ant-REDACTED'}}") ErrClassInvalidRequest "sk-ant-REDACTED"]%string.

Definition anthropic_suite : Suite := mkSuite "anthropic"
  (fun url key do => linked_provider (config KindAnthropic url key) do)
  "x-api-key" (fun key => key)
  (mkNonStream anthropic_answer "Hello there" (mkUsage 9 3 12))
  (mkStreamCase anthropic_stream "Hello" (mkUsage 9 2 11)) (mkStreamCase anthropic_cut "par" zeroUsage) anthropic_errors.

Definition gemini_stream : string := quoted (": keep-alive" +:+ lf +:+ lf +:+
    "data: {'candidates':[{'content':{'parts':[{'text':'Hel'}],'role':'model'},'index':0}],'usageMetadata':{'promptTokenCount':9,'candidatesTokenCount':1,'totalTokenCount':10},'modelVersion':'gemini-2.0-flash'}" +:+
    lf +:+ lf +:+
    "data: {'candidates':[{'content':{'parts':[{'text':'lo'}],'role':'model'},'finishReason':'STOP','index':0}],'usageMetadata':{'promptTokenCount':9,'candidatesTokenCount':2,'totalTokenCount':11},'modelVersion':'gemini-2.0-flash'}" +:+
    lf +:+ lf)%string.

Definition gemini_cut : string :=
    quoted ("data: {'candidates':[{'content':{'parts':[{'text':'par'}],'role':'model'},'index':0}],'modelVersion':'gemini-2.0-flash'}" +:+
    lf +:+ lf)%string.

Definition gemini_answer : string :=
    quoted "{'candidates':[{'content':{'parts':[{'text':'Hello '},{'text':'there'}],'role':'model'},'finishReason':'STOP','index':0,'safetyRatings':[{'category':'HARM_CATEGORY_HATE_SPEECH','probability':'NEGLIGIBLE'}]}],'usageMetadata':{'promptTokenCount':9,'candidatesTokenCount':3,'totalTokenCount':12},'modelVersion':'gemini-2.0-flash'}"%string.

Definition gemini_errors : list ErrorCase :=
  [mkErrorCase "unauthenticated" 401 (
    quoted "{'error':{'code':401,'message':'Request had invalid authentication credentials.','status':'UNAUTHENTICATED'}}") ErrClassAuth "";
   mkErrorCase "permission denied" 403 (
    quoted "{'error':{'code':403,'message':'Generative Language API has not been used in this project before.','status':'PERMISSION_DENIED'}}") ErrClassAuth "";
   mkErrorCase "resource exhausted" 429 (
    quoted "{'error':{'code':429,'message':'Resource has been exhausted (e.g. check quota).','status':'RESOURCE_EXHAUSTED'}}") ErrClassRateLimited "";
   mkErrorCase "invalid argument keeps error details out of the message" 400 (
    quoted "{'error':{'code':400,'message':'API key not valid. Please pass a valid API key.','status':'INVALID_ARGUMENT','details':[{'@type':'type.googleapis.com/google.rpc.ErrorInfo','reason':'API_KEY_INVALID','domain':'googleapis.com','metadata':{'service':'generativelanguage.googleapis.com','internal_trace':'INTERNAL-TRACE-DO-NOT-LEAK'}}]}}") ErrClassInvalidRequest "INTERNAL-TRACE-DO-NOT-LEAK";
   mkErrorCase "model not found" 404 (
    quoted "{'error':{'code':404,'message':'models/gemini-9-ultra is not found for API version v1beta.','status':'NOT_FOUND'}}") ErrClassModelNotFound "";
   mkErrorCase "bare 404 from a mistyped base_url" 404 (quoted "404 page not found") ErrClassUpstream "";
   mkErrorCase "internal" 500 (quoted "{'error':{'code':500,'message':'An internal error has occurred.','status':'INTERNAL'}}") ErrClassUpstream "";
   mkErrorCase "overloaded" 503 (
    quoted "{'error':{'code':503,'message':'The model is overloaded. Please try again later.','status':'UNAVAILABLE'}}") ErrClassUpstream ""]%string.

Definition gemini_suite : Suite := mkSuite "gemini"
  (fun url key do => linked_provider (config KindGemini url key) do)
  "x-goog-api-key" (fun key => key)
  (mkNonStream gemini_answer "Hello there" (mkUsage 9 3 12))
  (mkStreamCase gemini_stream "Hello" (mkUsage 9 2 11)) (mkStreamCase gemini_cut "par" zeroUsage) gemini_errors.


Definition suite_of (kind : ProviderKind) : Suite :=
  match kind with KindAnthropic => anthropic_suite | KindGemini => gemini_suite | _ => openai_suite kind end.

(** Every kind the gateway registers passes. *)
Example every_kind_conforms : forallb (fun kind => Run (suite_of kind)) AllKinds = true.
Proof. vm_compute. reflexivity. Qed.

Definition cut_upstream : ProviderConfig -> http_request -> http_outcome := fun _ => upstream 200 openai_cut.
Definition cut_config : ProviderConfig := config KindGroq "http://groq" "k".
Definition cut_provider : Provider reader := linked_provider cut_config (upstream 200 openai_cut).
Definition cut_reader : reader := default (OpenaiReader (newReader "" (whole_body "") false)) (opened (openai_suite KindGroq) openai_cut).

Example every_stream_drains_witness : exists d, drain_reader cut_reader = Some d.
Proof.
  destruct (every_stream_drains cut_upstream 1700000000 "id" (config KindGroq testURL testAPIKey)
    (fun cfg => match builderFor KindGroq cfg with
                | Some p => Some (lift OpenaiReader (OpenaiWire.adapter p (cut_upstream cfg)))
                | None => None
                end)
    (linked_provider (config KindGroq testURL testAPIKey) (upstream 200 openai_cut)) (chatRequest true) cut_reader)
    as [(d & E & _) _]; [reflexivity|reflexivity|eexists; vm_compute; reflexivity|]. exists d. exact E.
Defined.
End ConformanceExample.
