(* ===== verification/Decimal.v ===== *)
(** * Decimal digits of a fixed width

    What the files that write numbers by hand share: digits padded to a width and
    read back, trailing zeros dropped, and what that leaves the number. *)

From Stdlib Require Import ZArith Lia String Ascii.
From stdpp Require Import base list strings numbers.
From S2P Require Import Prelude GoString Json JsonText.

Local Open Scope Z_scope.

(** ** Padding *)

Definition digit_char (d : Z) : ascii := ascii_of_nat (48 + Z.to_nat d).

(** [%0wd] of a number of at most [w] digits. *)
Fixpoint padded (w : nat) (n : Z) : string :=
  match w with
  | O => ""
  | S w => String (digit_char (n / 10 ^ Z.of_nat w)) (padded w (n mod 10 ^ Z.of_nat w))
  end.

(** [w] digits, and what follows them. *)
Fixpoint read_fixed (w : nat) (acc : Z) (s : string) : option (Z * string) :=
  match w, s with
  | O, _ => Some (acc, s)
  | S w, String c s => if is_digit c then read_fixed w (10 * acc + digit_val c) s else None
  | S _, "" => None
  end.

(** A character that has to follow. *)
Definition expect (c : ascii) (s : string) : option string :=
  match s with String d s => if Ascii.eqb c d then Some s else None | "" => None end.

Lemma expect_read c s : expect c (String c s) = Some s.
Proof. cbn. by rewrite Ascii.eqb_refl. Qed.

Lemma digit_char_spec d : 0 <= d < 10 -> is_digit (digit_char d) = true /\ digit_val (digit_char d) = d.
Proof.
  intros H. assert (E : d = 0 \/ d = 1 \/ d = 2 \/ d = 3 \/ d = 4 \/ d = 5 \/ d = 6 \/ d = 7 \/ d = 8 \/ d = 9) by lia.
  repeat destruct E as [->|E]; [done..|]. by rewrite E.
Qed.

Lemma leading_digit w n : 0 <= n < 10 ^ Z.of_nat (S w) -> 0 <= n / 10 ^ Z.of_nat w < 10.
Proof.
  intros H. rewrite Nat2Z.inj_succ, Z.pow_succ_r in H by lia. pose proof (Z.pow_pos_nonneg 10 (Z.of_nat w)).
  split; [apply Z.div_pos; lia|apply Z.div_lt_upper_bound; lia].
Qed.

Lemma read_padded w n acc rest : 0 <= n < 10 ^ Z.of_nat w ->
  read_fixed w acc (padded w n +:+ rest) = Some (acc * 10 ^ Z.of_nat w + n, rest).
Proof.
  revert n acc. induction w as [|w IH]; intros n acc H; [cbn in *; f_equal; f_equal; lia|].
  cbn [padded read_fixed]. rewrite str_app_cons. destruct (digit_char_spec _ (leading_digit w n H)) as [-> ->].
  pose proof (Z.pow_pos_nonneg 10 (Z.of_nat w) ltac:(lia) ltac:(lia)) as P.
  rewrite IH by (apply Z.mod_pos_bound; lia). f_equal. f_equal. rewrite Nat2Z.inj_succ, Z.pow_succ_r by lia.
  pose proof (Z.div_mod n (10 ^ Z.of_nat w)). nia.
Qed.

Lemma padded_length w n : String.length (padded w n) = w.
Proof. revert n. induction w as [|w IH]; intros n; [done|]. cbn. by rewrite IH. Qed.

Lemma padded_digits w n : 0 <= n < 10 ^ Z.of_nat w ->
  all_digits (padded w n) = true /\ forall acc, digits_val acc (padded w n) = Some (acc * 10 ^ Z.of_nat w + n).
Proof.
  revert n. induction w as [|w IH]; intros n H; [split; [done|intros acc; cbn in *; f_equal; lia]|].
  cbn [padded all_digits digits_val]. destruct (digit_char_spec _ (leading_digit w n H)) as [-> ->].
  pose proof (Z.pow_pos_nonneg 10 (Z.of_nat w) ltac:(lia) ltac:(lia)) as P.
  destruct (IH (n mod 10 ^ Z.of_nat w)) as [D V]; [apply Z.mod_pos_bound; lia|]. split; [done|]. intros acc. rewrite V.
  f_equal. rewrite Nat2Z.inj_succ, Z.pow_succ_r by lia. pose proof (Z.div_mod n (10 ^ Z.of_nat w)). nia.
Qed.

(** ** Values *)

Lemma digits_val_app a b acc : digits_val acc (a +:+ b) = match digits_val acc a with Some v => digits_val v b | None => None end.
Proof.
  revert acc. induction a as [|c a IH]; intros acc; [done|]. rewrite str_app_cons. cbn [digits_val].
  by destruct (is_digit c); [apply IH|].
Qed.

Lemma digits_val_acc s acc : all_digits s = true ->
  digits_val acc s = Some (acc * 10 ^ Z.of_nat (String.length s) + default 0 (digits_val 0 s)).
Proof.
  revert acc. induction s as [|c s IH]; intros acc D; [simpl; f_equal; lia|]. simpl in D. apply andb_true_iff in D as [Dc Ds].
  cbn [digits_val String.length]. rewrite Dc. rewrite (IH (10 * acc + digit_val c)) by done.
  rewrite (IH (10 * 0 + digit_val c)) by done.
  change (default 0 (Some ?x)) with x. f_equal. rewrite Nat2Z.inj_succ, Z.pow_succ_r by lia. ring.
Qed.

(** ** Trailing zeros *)

(** [strings.TrimRight(s, zero)]. *)
Fixpoint TrimRightZeros (s : string) : string :=
  match s with
  | "" => ""
  | String c t =>
      match TrimRightZeros t with
      | "" => if Ascii.eqb c "0" then "" else String c ""
      | t => String c t
      end
  end.

Lemma TrimRightZeros_cons c t : TrimRightZeros (String c t)
  = if String.eqb (TrimRightZeros t) "" && Ascii.eqb c "0" then "" else String c (TrimRightZeros t).
Proof. cbn. by destruct (TrimRightZeros t). Qed.

Lemma TrimRightZeros_app s t : TrimRightZeros t <> "" -> TrimRightZeros (s +:+ t) = s +:+ TrimRightZeros t.
Proof.
  intros H. induction s as [|c s IH]; [done|]. rewrite !str_app_cons, TrimRightZeros_cons, IH.
  replace (String.eqb (s +:+ TrimRightZeros t) "") with false; [done|]. symmetry. apply String.eqb_neq. by destruct s.
Qed.

(** What is dropped is a power of ten. *)
Lemma trimmed_value s : all_digits s = true ->
  let t := TrimRightZeros s in
  all_digits t = true /\ (String.length t <= String.length s)%nat /\
  default 0 (digits_val 0 t) * 10 ^ (Z.of_nat (String.length s) - Z.of_nat (String.length t)) = default 0 (digits_val 0 s).
Proof.
  induction s as [|c s IH]; intros D; [done|]. pose proof D as D'. simpl in D. apply andb_true_iff in D as [Dc Ds].
  destruct (IH Ds) as (Dt & Lt & V). cbn zeta. rewrite TrimRightZeros_cons.
  assert (Vs : forall u, all_digits (String c u) = true ->
    default 0 (digits_val 0 (String c u)) = digit_val c * 10 ^ Z.of_nat (String.length u) + default 0 (digits_val 0 u)).
  { intros u Du. cbn [digits_val]. rewrite Dc. rewrite digits_val_acc; [change (default 0 (Some ?x)) with x; lia|].
    simpl in Du. by apply andb_true_iff in Du as [_ Du]. }
  rewrite (Vs s D'). destruct (String.eqb _ _ && _) eqn:E.
  - apply andb_true_iff in E as [E%String.eqb_eq C%Ascii.eqb_eq]. subst c. rewrite E in V. cbn in V |- *.
    split_and!; [done|lia|]. change (digit_val "0") with 0. lia.
  - assert (Du : all_digits (String c (TrimRightZeros s)) = true) by (simpl; by rewrite Dc, Dt).
    split_and!; [done|cbn; lia|]. rewrite Vs by done. cbn [String.length].
    rewrite <- V. rewrite Z.mul_add_distr_r, <- Z.mul_assoc, <- Z.pow_add_r by lia. f_equal; [f_equal; f_equal; lia|].
    f_equal. f_equal. lia.
Qed.
