(* ===== verification/Timestamp.v ===== *)
(** * Instants as text: RFC 3339 with nanoseconds

    What encoding/json makes of a [time.Time] (the rows of the ledger carry one):
    the proleptic Gregorian date of an instant in a zone, its text, and a reader
    that gives the instant back.  Zones are seconds east of Greenwich. *)

From Stdlib Require Import ZArith Lia String Ascii.
From stdpp Require Import base list strings numbers.
From S2P Require Import Prelude GoString Json JsonText Decimal.

Local Open Scope Z_scope.

(** ** Dates *)

(** Days of an era of four hundred years that starts on the first of March. *)
Definition era_days : Z := 146097.
(** From there to the first of January of year one. *)
Definition epoch_shift : Z := 306.

(** Year of the era (of years that start in March), month and day. *)
Definition civil_in_era (doe : Z) : Z * Z * Z :=
  let yoe := (doe - doe / 1460 + doe / 36524 - doe / 146096) / 365 in
  let doy := doe - (365 * yoe + yoe / 4 - yoe / 100) in
  let mp := (5 * doy + 2) / 153 in
  (yoe, if mp <? 10 then mp + 3 else mp - 9, doy - (153 * mp + 2) / 5 + 1).

Definition day_in_era (yoe m d : Z) : Z :=
  let mp := (m + 9) mod 12 in
  yoe * 365 + yoe / 4 - yoe / 100 + (153 * mp + 2) / 5 + d - 1.

(** [Time.Date] of a day counted from the first of January of year one. *)
Definition civil (day : Z) : Z * Z * Z :=
  let z := day + epoch_shift in
  let '(yoe, m, d) := civil_in_era (z mod era_days) in
  (400 * (z / era_days) + yoe + (if m <=? 2 then 1 else 0), m, d).

Definition day_of (y m d : Z) : Z :=
  let y := if m <=? 2 then y - 1 else y in
  era_days * (y / 400) + day_in_era (y mod 400) m d - epoch_shift.

Definition era_day_ok (doe : Z) : bool :=
  let '(yoe, m, d) := civil_in_era doe in
  (0 <=? yoe) && (yoe <? 400) && (1 <=? m) && (m <=? 12) && (1 <=? d) && (d <=? 31) && (day_in_era yoe m d =? doe).

Definition all_below (n : N) (f : Z -> bool) : bool :=
  (N.iter n (fun p => (p.1 + 1, p.2 && f p.1)) (0, true)).2.

Lemma all_below_spec n f z : all_below n f = true -> 0 <= z < Z.of_N n -> f z = true.
Proof.
  unfold all_below. intros A H.
  assert (I : (N.iter n (fun p => (p.1 + 1, p.2 && f p.1)) (0, true)).1 = Z.of_N n /\
    ((N.iter n (fun p => (p.1 + 1, p.2 && f p.1)) (0, true)).2 = true -> forall z, 0 <= z < Z.of_N n -> f z = true)).
  { clear A z H. induction n as [|n [E IH]] using N.peano_ind; [split; [done|lia]|]. rewrite N.iter_succ. cbn [fst snd]. rewrite E.
    split; [lia|]. intros [A F]%andb_true_iff z Hz. destruct (decide (z = Z.of_N n)) as [->|]; [done|]. apply IH; [done|lia]. }
  by apply I.
Qed.

(** The year of the era is found without a search: the quotient below grows with the
    day, and is right on the first and on the last day of each of the 400 years. *)
Definition year_of_era (doe : Z) : Z := (doe - doe / 1460 + doe / 36524 - doe / 146096) / 365.
Definition first_day (yoe : Z) : Z := 365 * yoe + yoe / 4 - yoe / 100.
Definition last_day (yoe : Z) : Z := if yoe =? 399 then 146096 else first_day (yoe + 1) - 1.

Lemma year_of_era_mono x y : 0 <= x <= y -> y < era_days -> year_of_era x <= year_of_era y.
Proof.
  intros H L. unfold era_days in L. unfold year_of_era. apply Z.div_le_mono; [done|].
  replace y with (x + Z.of_nat (Z.to_nat (y - x))) in * by lia.
  induction (Z.to_nat (y - x)) as [|n IH]; [rewrite Z.add_0_r; lia|]. specialize (IH ltac:(lia) ltac:(lia)).
  Z.to_euclidean_division_equations. lia.
Qed.

Definition year_ok (y : Z) : bool :=
  (year_of_era (first_day y) =? y) && (year_of_era (last_day y) =? y) && (0 <=? first_day y) && (first_day y <=? last_day y)
  && (last_day y <=? first_day y + 365) && (last_day y <? era_days).
Lemma year_in_era y : 0 <= y < 400 -> year_ok y = true.
Proof. intros H. apply (all_below_spec 400); [vm_compute; reflexivity|exact H]. Qed.

Lemma year_of_day doe : 0 <= doe < era_days ->
  0 <= year_of_era doe < 400 /\ first_day (year_of_era doe) <= doe <= first_day (year_of_era doe) + 365.
Proof.
  intros H. assert (R : 0 <= year_of_era doe <= 399).
  { split; [apply (year_of_era_mono 0 doe); lia|].
    apply (year_of_era_mono doe 146096); unfold era_days in *; lia. }
  split; [lia|]. set (y := year_of_era doe) in *.
  assert (K : forall z, 0 <= z < 400 -> year_of_era (first_day z) = z /\ year_of_era (last_day z) = z /\ 0 <= first_day z /\
    first_day z <= last_day z <= first_day z + 365 /\ last_day z < era_days).
  { intros z Hz. pose proof (year_in_era z Hz) as O. unfold year_ok in O. rewrite !andb_true_iff in O. lia. }
  assert (A : first_day y <= doe).
  { destruct (Z.le_gt_cases (first_day y) doe) as [|Lt]; [done|]. exfalso.
    destruct (decide (y = 0)) as [E|]; [rewrite E in Lt; change (first_day 0) with 0 in Lt; lia|].
    destruct (K (y - 1) ltac:(lia)) as (_ & E & _ & B & _). unfold last_day in E at 1. unfold last_day in B.
    destruct (Z.eqb_spec (y - 1) 399) as [|_]; [lia|]. replace (y - 1 + 1) with y in * by lia.
    pose proof (year_of_era_mono doe (first_day y - 1) ltac:(lia) ltac:(destruct (K y ltac:(lia)); lia)). lia. }
  split; [exact A|]. destruct (K y ltac:(lia)) as (_ & _ & _ & B & _).
  destruct (Z.le_gt_cases doe (last_day y)) as [|Gt]; [lia|]. exfalso. unfold last_day in Gt.
  destruct (Z.eqb_spec y 399) as [|N]; [unfold era_days in H; lia|].
  destruct (K (y + 1) ltac:(lia)) as (E & _ & P & _).
  pose proof (year_of_era_mono (first_day (y + 1)) doe ltac:(lia) ltac:(lia)). lia.
Qed.

(** Month and day of a day of the year. *)
Definition year_day_ok (doy : Z) : bool :=
  let mp := (5 * doy + 2) / 153 in
  let m := if mp <? 10 then mp + 3 else mp - 9 in
  let d := doy - (153 * mp + 2) / 5 + 1 in
  (1 <=? m) && (m <=? 12) && (1 <=? d) && (d <=? 31) && ((153 * ((m + 9) mod 12) + 2) / 5 + d - 1 =? doy).
Lemma year_days_ok doy : 0 <= doy < 366 -> year_day_ok doy = true.
Proof. intros H. apply (all_below_spec 366); [vm_compute; reflexivity|exact H]. Qed.

Lemma era_days_ok doe : 0 <= doe < era_days -> era_day_ok doe = true.
Proof.
  intros H. destruct (year_of_day doe H) as [Y D]. unfold era_day_ok, civil_in_era. fold (year_of_era doe).
  set (y := year_of_era doe) in *. unfold first_day in D. set (doy := doe - (365 * y + y / 4 - y / 100)).
  pose proof (year_days_ok doy ltac:(lia)) as O. unfold year_day_ok in O. unfold day_in_era. cbv zeta in O |- *.
  rewrite !andb_true_iff in O |- *. lia.
Qed.

(** A date is a date, and names its day. *)
Lemma civil_spec day : let '(y, m, d) := civil day in day_of y m d = day /\ 1 <= m <= 12 /\ 1 <= d <= 31.
Proof.
  unfold civil. pose proof (era_days_ok ((day + epoch_shift) mod era_days) ltac:(by apply Z.mod_pos_bound)) as O.
  unfold era_day_ok in O. destruct (civil_in_era _) as [[yoe m] d]. rewrite !andb_true_iff in O.
  destruct O as [[[[[[A1%Z.leb_le A2%Z.ltb_lt] A3%Z.leb_le] A4%Z.leb_le] A5%Z.leb_le] A6%Z.leb_le] A7%Z.eqb_eq].
  split; [|lia]. unfold day_of.
  set (q := (day + epoch_shift) / era_days) in *.
  assert (E : (if m <=? 2 then 400 * q + yoe + (if m <=? 2 then 1 else 0) - 1 else 400 * q + yoe + (if m <=? 2 then 1 else 0))
    = yoe + q * 400) by (destruct (m <=? 2); lia).
  rewrite E, Z.div_add, Z.mod_add, (Z.div_small yoe), (Z.mod_small yoe) by lia. rewrite A7.
  pose proof (Z.div_mod (day + epoch_shift) era_days ltac:(done)) as D. fold q in D. lia.
Qed.

(** ** Text *)

Definition Nano : Z := 1000000000.

(** The zone of [appendFormatRFC3339]: whole minutes, [Z] for none. *)
Definition zone_text (zone : Z) : string :=
  if zone =? 0 then "Z"
  else
    let minutes := Z.abs (zone ÷ 60) in
    String (if zone ÷ 60 <? 0 then "-" else "+") (padded 2 (minutes / 60) +:+ String ":" (padded 2 (minutes mod 60))).

Definition fraction_text (ns : Z) : string :=
  match TrimRightZeros (padded 9 ns) with "" => "" | f => String "." f end.

Definition rfc3339 (zone : Z) (t : Time) : string :=
  let secs := t / Nano + zone in
  let '(y, m, d) := civil (secs / 86400) in
  let s := secs mod 86400 in
  padded 4 y +:+ String "-" (padded 2 m +:+ String "-" (padded 2 d +:+ String "T"
    (padded 2 (s / 3600) +:+ String ":" (padded 2 (s / 60 mod 60) +:+ String ":" (padded 2 (s mod 60)
    +:+ (fraction_text (t mod Nano) +:+ zone_text zone)))))).

Definition year_of (zone : Z) (t : Time) : Z := (civil ((t / Nano + zone) / 86400)).1.1.

(** [Time.MarshalJSON], without the quotes: an error for a year of other than four
    digits and for a zone of a day or more. *)
Definition MarshalTime (zone : Z) (t : Time) : option string :=
  if (0 <=? year_of zone t) && (year_of zone t <=? 9999) && (Z.abs (zone ÷ 60) / 60 <? 24)
  then Some (rfc3339 zone t) else None.

(** ** Reading it back *)

Definition read_zone (s : string) : option Z :=
  match s with
  | String c s =>
      if Ascii.eqb c "Z" then (if String.eqb s "" then Some 0 else None)
      else if Ascii.eqb c "+" || Ascii.eqb c "-" then
        '(hh, s) ← read_fixed 2 0 s;
        s ← expect ":" s;
        '(mm, s) ← read_fixed 2 0 s;
        if String.eqb s "" then Some ((if Ascii.eqb c "-" then -1 else 1) * (hh * 60 + mm) * 60) else None
      else None
  | "" => None
  end.

Definition read_fraction (s : string) : Z * string :=
  match s with
  | String c t =>
      if Ascii.eqb c "." then
        let '(f, s) := take_digits t in (default 0 (digits_val 0 f) * 10 ^ (9 - Z.of_nat (String.length f)), s)
      else (0, s)
  | "" => (0, s)
  end.

(** The instant a text stands for. *)
Definition read_rfc3339 (s : string) : option Time :=
  '(y, s) ← read_fixed 4 0 s; s ← expect "-" s;
  '(m, s) ← read_fixed 2 0 s; s ← expect "-" s;
  '(d, s) ← read_fixed 2 0 s; s ← expect "T" s;
  '(hh, s) ← read_fixed 2 0 s; s ← expect ":" s;
  '(mm, s) ← read_fixed 2 0 s; s ← expect ":" s;
  '(ss, s) ← read_fixed 2 0 s;
  let '(ns, s) := read_fraction s in
  zone ← read_zone s;
  Some ((day_of y m d * 86400 + hh * 3600 + mm * 60 + ss - zone) * Nano + ns).

Lemma read_zone_text zone : zone mod 60 = 0 -> Z.abs zone < 86400 -> read_zone (zone_text zone) = Some zone.
Proof.
  intros M B. unfold zone_text. destruct (Z.eqb_spec zone 0) as [->|N]; [done|].
  set (q := zone ÷ 60). assert (Q : zone = 60 * q).
  { pose proof (Z.quot_rem zone 60 ltac:(done)) as E. fold q in E.
    assert (Z.rem zone 60 = 0) by (apply Z.rem_divide; [done|]; by apply Z.mod_divide). lia. }
  pose proof (Z.div_mod (Z.abs q) 60 ltac:(done)) as D. pose proof (Z.mod_pos_bound (Z.abs q) 60 ltac:(done)) as P.
  assert (0 <= Z.abs q / 60 < 10 ^ Z.of_nat 2) by (change (10 ^ Z.of_nat 2) with 100; lia).
  assert (0 <= Z.abs q mod 60 < 10 ^ Z.of_nat 2) by (change (10 ^ Z.of_nat 2) with 100; lia).
  rewrite <- (str_app_empty (padded 2 (Z.abs q mod 60))). unfold read_zone.
  destruct (Z.ltb_spec q 0); cbn [Ascii.eqb Bool.eqb orb];
    (rewrite read_padded by done; cbn [mbind option_bind]; rewrite expect_read; cbn [mbind option_bind];
     rewrite read_padded by done; cbn [mbind option_bind String.eqb]; f_equal; cbn; lia).
Qed.

Lemma zone_text_start zone : no_digit (zone_text zone) /\ forall t, zone_text zone <> String "." t.
Proof. unfold zone_text. destruct (zone =? 0); [done|]. by destruct (_ <? 0). Qed.

Lemma read_fraction_text ns zone : 0 <= ns < Nano -> read_fraction (fraction_text ns +:+ zone_text zone) = (ns, zone_text zone).
Proof.
  intros H. destruct (padded_digits 9 ns H) as [D V]. destruct (trimmed_value _ D) as (Dt & L & E).
  rewrite V in E. change (default 0 (Some ?x)) with x in E. rewrite padded_length in E.
  unfold fraction_text. destruct (TrimRightZeros (padded 9 ns)) as [|c f] eqn:T.
  - cbn in E. rewrite str_app_nil. destruct (zone_text_start zone) as [_ Z]. unfold read_fraction.
    destruct (zone_text zone) as [|x t] eqn:Ez; [f_equal; lia|].
    destruct (Ascii.eqb_spec x ".") as [->|]; [by destruct (Z t)|]. f_equal; lia.
  - unfold read_fraction. rewrite str_app_cons, Ascii.eqb_refl.
    rewrite take_digits_read by (done || apply zone_text_start). f_equal. change (Z.of_nat 9) with 9 in E. lia.
Qed.

Lemma two_digit n : 0 <= n < 100 -> 0 <= n < 10 ^ Z.of_nat 2.
Proof. done. Qed.

(** The text of an instant reads back as that instant, whatever the zone. *)
Lemma read_rfc3339_text zone t text :
  MarshalTime zone t = Some text -> zone mod 60 = 0 -> Z.abs zone < 86400 -> read_rfc3339 text = Some t.
Proof.
  unfold MarshalTime, year_of. intros E M B. destruct (_ && _) eqn:G; [|done]. injection E as <-.
  apply andb_true_iff in G as [[Y1%Z.leb_le Y2%Z.leb_le]%andb_true_iff _].
  unfold rfc3339. set (secs := t / Nano + zone) in *. pose proof (civil_spec (secs / 86400)) as C.
  destruct (civil (secs / 86400)) as [[y m] d]. cbn [fst] in Y1, Y2. destruct C as (C & Hm & Hd).
  pose proof (Z.mod_pos_bound secs 86400 ltac:(done)) as S. set (s := secs mod 86400) in *.
  pose proof (Z.mod_pos_bound (s / 60) 60 ltac:(done)). pose proof (Z.mod_pos_bound s 60 ltac:(done)).
  pose proof (Z.mod_pos_bound t Nano ltac:(done)) as N.
  unfold read_rfc3339.
  rewrite read_padded by (change (10 ^ Z.of_nat 4) with 10000; lia). cbn [mbind option_bind]. rewrite expect_read. cbn [mbind option_bind].
  do 2 (rewrite read_padded by (apply two_digit; lia); cbn [mbind option_bind]; rewrite expect_read; cbn [mbind option_bind]).
  rewrite read_padded by (apply two_digit; split; [apply Z.div_pos; lia|apply Z.div_lt_upper_bound; lia]).
  cbn [mbind option_bind]. rewrite expect_read. cbn [mbind option_bind].
  rewrite read_padded by (apply two_digit; lia). cbn [mbind option_bind]. rewrite expect_read. cbn [mbind option_bind].
  rewrite read_padded by (apply two_digit; lia). cbn [mbind option_bind].
  rewrite read_fraction_text by done. rewrite read_zone_text by done. cbn [mbind option_bind]. f_equal.
  rewrite !Z.mul_0_l, !Z.add_0_l, C.
  pose proof (Z.div_mod secs 86400 ltac:(done)). fold s in H1. pose proof (Z.div_mod s 60 ltac:(done)).
  pose proof (Z.div_mod (s / 60) 60 ltac:(done)). rewrite Z.div_div in * by lia. change (60 * 60) with 3600 in *.
  pose proof (Z.div_mod t Nano ltac:(done)). lia.
Qed.

Example an_instant : rfc3339 (-12600) 63922088399012340000 = "2026-08-11T20:09:59.01234-03:30".
Proof. vm_compute. reflexivity. Qed.
