(* ===== verification/Ledger.v ===== *)
(** * The cost ledger on disk (internal/pricing/ledger.go)

    The file behind [Pricing.FileLedger]: one JSON object per line, appended by an
    encoder that escapes no HTML and that never writes again after a write failed.
    The rows that were accepted read back from the bytes, and [Pricing]'s ledger of
    rows is what the file refines. *)

From Stdlib Require Import ZArith Lia String Ascii SpecFloat.
From stdpp Require Import base list strings numbers.
From S2P Require Import Prelude Float64 GoString Providers Json JsonText Sse JsonLine Dialect Decimal Timestamp Pricing.

Local Open Scope Z_scope.

(** ** Strings without HTML escapes *)

(** [appendString] with [escapeHTML] off. *)
Definition among_html (c : ascii) : bool := Ascii.eqb c "<"%char || Ascii.eqb c ">"%char || Ascii.eqb c "&"%char.
Definition plain_ascii (c : ascii) : string := if among_html c then String c "" else quote_ascii c.

Fixpoint plain_from (m : quote_mode) (s : string) : string :=
  match s with
  | "" => ""
  | String c t =>
      match m with
      | Copy k => String c (plain_from (copying (pred k)) t)
      | Skip k => plain_from (skipping (pred k)) t
      | Fresh =>
          match utf8_width s with
          | O => String backslash "ufffd" +:+ plain_from Fresh t
          | 1%nat => plain_ascii c +:+ plain_from Fresh t
          | S k =>
              if HasPrefix s line_separator then String backslash "u2028" +:+ plain_from (Skip 2) t
              else if HasPrefix s paragraph_separator
              then String backslash "u2029" +:+ plain_from (Skip 2) t
              else String c (plain_from (Copy k) t)
          end
      end
  end.
Definition plain_quote (s : string) : string := String dquote (plain_from Fresh s +:+ String dquote "").

(** ** A row *)

(** [zone]: of the local time the row carries. *)
Definition entry_text (zone : Z) (e : Entry) : option string :=
  match MarshalTime zone (Timestamp e), f64_text (EUSD e) with
  | Some time, Some usd => Some (struct_text
      [("timestamp", String dquote (time +:+ String dquote "")); ("tenant", plain_quote (ETenant e));
       ("provider_kind", plain_quote (ProviderKind e)); ("model", plain_quote (EModel e));
       ("prompt_tokens", Itoa (EPromptTokens e)); ("completion_tokens", Itoa (ECompletionTokens e)); ("usd", usd);
       ("price_version", Itoa (EPriceVersion e)); ("cache_hit", if CacheHit e then "true" else "false");
       ("request_id", plain_quote (RequestID e))]%string)
  | _, _ => None
  end.

(** ** The file *)

Record ledger_file := mkLedgerFile { contents : string; broken : bool; closed : bool }.

(** What the operating system makes of one write: all of it, or an error after the
    first [k] bytes. *)
Inductive os_write := Whole | Short (k : nat).

(** [existing]: what the file holds. *)
Definition OpenFileLedger (existing : string) : ledger_file := mkLedgerFile existing false false.

(** The encoder keeps the error of a failed write and gives it back ever after; a
    row that cannot be encoded is not written and leaves no trace. *)
Definition Write (zone : Z) (w : os_write) (l : ledger_file) (e : Entry) : ledger_file * bool :=
  if broken l then (l, false)
  else match entry_text zone e with
       | None => (l, false)
       | Some text =>
           match (if closed l then Short 0 else w) with
           | Whole => (mkLedgerFile (contents l +:+ text +:+ newline) false (closed l), true)
           | Short k => (mkLedgerFile (contents l +:+ take_bytes k (text +:+ newline)) true (closed l), false)
           end
       end.

Definition Sync (synced : bool) (l : ledger_file) : bool := negb (closed l) && synced.
Definition Close (synced closing : bool) (l : ledger_file) : ledger_file * bool :=
  (mkLedgerFile (contents l) (broken l) true, Sync synced l && closing).

(** A history of writes: the file, and which rows were accepted. *)
Record attempt := mkAttempt { zone : Z; os : os_write; row : Entry }.
Fixpoint writes (l : ledger_file) (h : list attempt) : ledger_file * list bool :=
  match h with
  | [] => (l, [])
  | a :: h =>
      let '(l, ok) := Write (zone a) (os a) l (row a) in
      let '(l, oks) := writes l h in
      (l, ok :: oks)
  end.

Fixpoint accepted (h : list attempt) (oks : list bool) : list Entry :=
  match h, oks with
  | a :: h, ok :: oks => (if ok then [row a] else []) ++ accepted h oks
  | _, _ => []
  end.

(** ** Reading it back *)

(** The lines that end, and what follows the last of them. *)
Fixpoint lines_of (s : string) : list string * string :=
  match s with
  | "" => ([], "")
  | String c t =>
      if Ascii.eqb c LF then let '(ls, r) := lines_of t in ("" :: ls, r)
      else match lines_of t with
           | ([], r) => ([], String c r)
           | (l :: ls, r) => (String c l :: ls, r)
           end
  end.

Definition dec_time : decoder Time := fun raw old =>
  match tree_of raw with
  | JStr s => match read_rfc3339 s with Some t => (t, true) | None => (old, false) end
  | JNull => (old, true)
  | _ => (old, false)
  end.

Definition zeroEntry : Entry := mkEntry 0 "" "" "" 0 0 f64_zero 0 false "".
Definition dec_entry : decoder Entry := dec_struct
  [("timestamp", at_field Timestamp (fun v e => mkEntry v (ETenant e) (ProviderKind e) (EModel e) (EPromptTokens e) (ECompletionTokens e) (EUSD e) (EPriceVersion e) (CacheHit e) (RequestID e)) dec_time);
   ("tenant", at_field ETenant (fun v e => mkEntry (Timestamp e) v (ProviderKind e) (EModel e) (EPromptTokens e) (ECompletionTokens e) (EUSD e) (EPriceVersion e) (CacheHit e) (RequestID e)) dec_string);
   ("provider_kind", at_field ProviderKind (fun v e => mkEntry (Timestamp e) (ETenant e) v (EModel e) (EPromptTokens e) (ECompletionTokens e) (EUSD e) (EPriceVersion e) (CacheHit e) (RequestID e)) dec_string);
   ("model", at_field EModel (fun v e => mkEntry (Timestamp e) (ETenant e) (ProviderKind e) v (EPromptTokens e) (ECompletionTokens e) (EUSD e) (EPriceVersion e) (CacheHit e) (RequestID e)) dec_string);
   ("prompt_tokens", at_field EPromptTokens (fun v e => mkEntry (Timestamp e) (ETenant e) (ProviderKind e) (EModel e) v (ECompletionTokens e) (EUSD e) (EPriceVersion e) (CacheHit e) (RequestID e)) dec_int);
   ("completion_tokens", at_field ECompletionTokens (fun v e => mkEntry (Timestamp e) (ETenant e) (ProviderKind e) (EModel e) (EPromptTokens e) v (EUSD e) (EPriceVersion e) (CacheHit e) (RequestID e)) dec_int);
   ("usd", at_field EUSD (fun v e => mkEntry (Timestamp e) (ETenant e) (ProviderKind e) (EModel e) (EPromptTokens e) (ECompletionTokens e) v (EPriceVersion e) (CacheHit e) (RequestID e)) dec_float);
   ("price_version", at_field EPriceVersion (fun v e => mkEntry (Timestamp e) (ETenant e) (ProviderKind e) (EModel e) (EPromptTokens e) (ECompletionTokens e) (EUSD e) v (CacheHit e) (RequestID e)) dec_int);
   ("cache_hit", at_field CacheHit (fun v e => mkEntry (Timestamp e) (ETenant e) (ProviderKind e) (EModel e) (EPromptTokens e) (ECompletionTokens e) (EUSD e) (EPriceVersion e) v (RequestID e)) dec_bool);
   ("request_id", at_field RequestID (fun v e => mkEntry (Timestamp e) (ETenant e) (ProviderKind e) (EModel e) (EPromptTokens e) (ECompletionTokens e) (EUSD e) (EPriceVersion e) (CacheHit e) v) dec_string)]%string.

Definition read_row (line : string) : option Entry := Unmarshal dec_entry line zeroEntry.

(** ** Facts on strings *)

Definition plain_rune (s : string) : string :=
  match utf8_width s with
  | O => String backslash "ufffd"
  | 1%nat => match s with String c _ => plain_ascii c | "" => "" end
  | n => if HasPrefix s line_separator then String backslash "u2028"
         else if HasPrefix s paragraph_separator then String backslash "u2029"
         else take_bytes n s
  end.

(** Only a rune of one byte is treated differently. *)
Lemma plain_rune_quoted s : utf8_width s <> 1%nat -> plain_rune s = quoted_rune s.
Proof. unfold plain_rune, quoted_rune. by destruct (utf8_width s) as [|[|k]]. Qed.

Lemma plain_from_copy k s : high_run k s -> plain_from (copying k) s = take_bytes k s +:+ plain_from Fresh (drop_bytes k s).
Proof.
  revert s. induction k as [|k IH]; intros [|c s]; simpl; try done.
  intros [_ H]. rewrite str_app_cons. f_equal. by apply IH.
Qed.

Lemma plain_from_rune c s : plain_from Fresh (String c s)
  = plain_rune (String c s) +:+ plain_from Fresh (drop_bytes (rune_len (String c s)) (String c s)).
Proof.
  unfold plain_rune, rune_len. pose proof (utf8_width_cases c s) as W. cbn [plain_from].
  destruct (utf8_width (String c s)) as [|[|k]] eqn:E; [done|by simpl; destruct s|].
  assert (Sep : forall p r, p = line_separator \/ p = paragraph_separator -> String c s = p +:+ r -> k = 1%nat).
  { intros p r Hp P. rewrite P, separator_width in E by done. by injection E. }
  destruct (HasPrefix (String c s) line_separator) eqn:P1.
  { apply HasPrefix_CutPrefix in P1 as [r P1]. apply CutPrefix_Some in P1.
    rewrite (Sep line_separator r) by auto. change (line_separator +:+ r) with
      (String (byte_of 226) (String (byte_of 128) (String (byte_of 168) r))) in P1. by injection P1 as -> ->. }
  destruct (HasPrefix (String c s) paragraph_separator) eqn:P2.
  { apply HasPrefix_CutPrefix in P2 as [r P2]. apply CutPrefix_Some in P2.
    rewrite (Sep paragraph_separator r) by auto. change (paragraph_separator +:+ r) with
      (String (byte_of 226) (String (byte_of 128) (String (byte_of 169) r))) in P2. by injection P2 as -> ->. }
  destruct W as [[_ H] _]. cbn [Nat.max take_bytes drop_bytes]. rewrite str_app_cons. f_equal. by apply (plain_from_copy (S k)).
Qed.

(** What one rune becomes: read as it is written, standing for the rune, on one line. *)
Lemma plain_rune_spec c s t :
  lex_str (plain_rune (String c s) +:+ t) = prepend (plain_rune (String c s)) (lex_str t) /\
  unescape (plain_rune (String c s) +:+ t) = sanitized_rune (String c s) +:+ unescape t /\
  one_line (plain_rune (String c s)).
Proof.
  destruct (decide (utf8_width (String c s) = 1%nat)) as [E|E].
  - unfold plain_rune, sanitized_rune. rewrite E. cbn [take_bytes]. split_and!.
    + destruct c as [[] [] [] [] [] [] [] []]; lex_piece.
    + by destruct c as [[] [] [] [] [] [] [] []].
    + unfold one_line. destruct c as [[] [] [] [] [] [] [] []]; vm_compute; reflexivity.
  - rewrite plain_rune_quoted by done. split_and!; [apply lex_quoted_rune|apply unescape_quoted_rune|apply quoted_rune_line].
Qed.

Lemma plain_from_spec s :
  (forall rest, lex_str (plain_from Fresh s +:+ String dquote rest) = Some (plain_from Fresh s, rest)) /\
  unescape (plain_from Fresh s) = sanitize s /\ one_line (plain_from Fresh s).
Proof.
  induction s as [|c s (IH1 & IH2 & IH3)] using rune_ind; [done|].
  destruct (plain_rune_spec c s "") as (_ & _ & O). rewrite plain_from_rune. split_and!.
  - intros rest. rewrite str_app_assoc.
    destruct (plain_rune_spec c s (plain_from Fresh (drop_bytes (rune_len (String c s)) (String c s)) +:+ String dquote rest)) as (-> & _ & _).
    by rewrite IH1.
  - destruct (plain_rune_spec c s (plain_from Fresh (drop_bytes (rune_len (String c s)) (String c s)))) as (_ & -> & _).
    by rewrite IH2, sanitize_rune.
  - by apply one_line_app.
Qed.

Lemma reads_plain d s : reads_as d (plain_quote s) (JStr (sanitize s)).
Proof.
  destruct (plain_from_spec s) as (L & U & _). split; [by eexists _, _|]. intros rest _. unfold plain_quote.
  rewrite str_app_cons, str_app_assoc, str_app_cons, str_app_nil, value_str, L.
  unfold unquote. rewrite U. by rewrite (sanitize_valid s).
Qed.

Lemma one_line_plain s : one_line (plain_quote s).
Proof.
  unfold plain_quote. apply one_line_cons; [done|]. apply one_line_app; [apply plain_from_spec|done].
Qed.

(** Text that is written without escapes at all. *)
Definition bare_ascii (c : ascii) : bool :=
  (32 <=? code c)%nat && (code c <? 128)%nat && negb (Ascii.eqb c dquote) && negb (Ascii.eqb c backslash)
  && negb (among_html c).
Fixpoint all_bare (s : string) : bool := match s with "" => true | String c t => bare_ascii c && all_bare t end.

Lemma bare_ascii_plain c : bare_ascii c = true -> (code c <? 128)%nat = true /\ plain_ascii c = String c "".
Proof. destruct c as [[] [] [] [] [] [] [] []]; vm_compute; done. Qed.

Lemma bare_plain s : all_bare s = true -> plain_from Fresh s = s /\ sanitize s = s.
Proof.
  induction s as [|c s IH]; [done|]. cbn [all_bare]. intros [B A]%andb_true_iff. destruct (IH A) as [P S].
  destruct (bare_ascii_plain c B) as [L Q]. unfold sanitize in *. cbn [plain_from sanitize_from].
  unfold utf8_width. rewrite L. by rewrite Q, P, S.
Qed.

Lemma all_bare_app a b : all_bare (a +:+ b) = all_bare a && all_bare b.
Proof. induction a as [|c a IH]; [done|]. rewrite str_app_cons. cbn [all_bare]. by rewrite IH, andb_assoc. Qed.

Lemma digits_bare_ascii s : all_digits s = true -> all_bare s = true.
Proof.
  induction s as [|c s IH]; [done|]. simpl. intros [D A]%andb_true_iff. rewrite IH by done. rewrite andb_true_r.
  revert D. destruct c as [[] [] [] [] [] [] [] []]; vm_compute; done.
Qed.

Lemma padded_bare w n : 0 <= n < 10 ^ Z.of_nat w -> all_bare (padded w n) = true.
Proof. intros H. by apply digits_bare_ascii, padded_digits. Qed.

Lemma zone_bare zone : Z.abs (zone ÷ 60) / 60 < 24 -> all_bare (zone_text zone) = true.
Proof.
  intros H. unfold zone_text. destruct (zone =? 0); [done|]. cbn [all_bare].
  pose proof (Z.mod_pos_bound (Z.abs (zone ÷ 60)) 60 ltac:(done)). assert (0 <= Z.abs (zone ÷ 60) / 60) by (apply Z.div_pos; lia).
  rewrite all_bare_app. cbn [all_bare]. rewrite !padded_bare by (change (10 ^ Z.of_nat 2) with 100; lia). by destruct (_ <? 0).
Qed.

Lemma fraction_bare ns : 0 <= ns < Nano -> all_bare (fraction_text ns) = true.
Proof.
  intros H. unfold fraction_text. destruct (padded_digits 9 ns H) as [D _]. destruct (trimmed_value _ D) as (Dt & _).
  destruct (TrimRightZeros (padded 9 ns)) as [|c f]; [done|]. cbn [all_bare]. by apply digits_bare_ascii in Dt.
Qed.

Lemma time_bare zone t text : MarshalTime zone t = Some text -> all_bare text = true.
Proof.
  unfold MarshalTime, year_of. intros E. destruct (_ && _) eqn:G; [|done]. injection E as <-.
  apply andb_true_iff in G as [[Y1%Z.leb_le Y2%Z.leb_le]%andb_true_iff Zn%Z.ltb_lt].
  unfold rfc3339. set (secs := t / Nano + zone) in *. pose proof (civil_spec (secs / 86400)) as C.
  destruct (civil (secs / 86400)) as [[y m] d]. cbn [fst] in Y1, Y2. destruct C as (_ & Hm & Hd).
  pose proof (Z.mod_pos_bound secs 86400 ltac:(done)). pose proof (Z.mod_pos_bound (secs mod 86400 / 60) 60 ltac:(done)).
  pose proof (Z.mod_pos_bound (secs mod 86400) 60 ltac:(done)). pose proof (Z.mod_pos_bound t Nano ltac:(done)).
  assert (0 <= secs mod 86400 / 3600 < 100) by (split; [apply Z.div_pos; lia|apply Z.div_lt_upper_bound; lia]).
  repeat (rewrite all_bare_app || cbn [all_bare]).
  rewrite (padded_bare 4) by (change (10 ^ Z.of_nat 4) with 10000; lia).
  rewrite !(padded_bare 2) by (change (10 ^ Z.of_nat 2) with 100; lia).
  by rewrite fraction_bare, zone_bare.
Qed.

Lemma reads_time d zone t text : MarshalTime zone t = Some text -> reads_as d (String dquote (text +:+ String dquote "")) (JStr text).
Proof.
  intros E. destruct (bare_plain _ (time_bare _ _ _ E)) as [P S]. pose proof (reads_plain d text) as R.
  unfold plain_quote in R. by rewrite P, S in R.
Qed.

(** ** A row reads back *)

Record clean (zone : Z) (e : Entry) : Prop := mkClean {
  clean_zone : zone mod 60 = 0 /\ Z.abs zone < 86400;
  clean_strings : valid_utf8 (ETenant e) /\ valid_utf8 (ProviderKind e) /\ valid_utf8 (EModel e) /\ valid_utf8 (RequestID e);
  clean_ints : is_int64 (EPromptTokens e) /\ is_int64 (ECompletionTokens e) /\ is_int64 (EPriceVersion e)
}.

Definition entry_members (time usd : string) (e : Entry) : list (string * json) :=
  [("timestamp", JStr time); ("tenant", JStr (sanitize (ETenant e))); ("provider_kind", JStr (sanitize (ProviderKind e)));
   ("model", JStr (sanitize (EModel e))); ("prompt_tokens", JNum (Itoa (EPromptTokens e)));
   ("completion_tokens", JNum (Itoa (ECompletionTokens e))); ("usd", JNum usd); ("price_version", JNum (Itoa (EPriceVersion e)));
   ("cache_hit", JBool (CacheHit e)); ("request_id", JStr (sanitize (RequestID e)))]%string.

Lemma tree_of_reads t j : reads_as maxNestingDepth t j -> tree_of t = j.
Proof. intros R. unfold tree_of. by rewrite (reads_parse _ _ R). Qed.

Lemma dec_plain s old : valid_utf8 s -> dec_string (plain_quote s) old = (s, true).
Proof. intros V. unfold dec_string. rewrite (tree_of_reads _ _ (reads_plain _ s)). by rewrite V. Qed.

Lemma f64_eqb_finite s m e y : f64_eqb (S754_finite s m e) y = true -> y = S754_finite s m e.
Proof.
  unfold f64_eqb, SFeqb. destruct y as [s'|s'| |s' m' e']; cbn; try (destruct s; done); try (destruct s, s'; done).
  destruct s, s'; try done; destruct (Z.compare_spec e e') as [->|?|?]; try done;
    change (Pos.compare_cont Eq m m') with (Pos.compare m m'); destruct (Pos.compare_spec m m') as [->|?|?]; done.
Qed.

Lemma dec_float_text x t old : f64_text x = Some t -> dec_float t old = (x, true).
Proof.
  intros E. unfold dec_float. rewrite (tree_of_reads _ _ (reads_f64 _ _ _ E)).
  destruct x as [s|s| |s m e]; try done; [by injection E as <-; destruct s|].
  apply f64_text_spec in E as (_ & y & -> & [->|Q]); [done|]. by apply f64_eqb_finite in Q as ->.
Qed.

Lemma dec_time_text zone t text old : MarshalTime zone t = Some text -> zone mod 60 = 0 -> Z.abs zone < 86400 ->
  dec_time (String dquote (text +:+ String dquote "")) old = (t, true).
Proof.
  intros E M B. unfold dec_time. rewrite (tree_of_reads _ _ (reads_time _ _ _ _ E)).
  by rewrite (read_rfc3339_text _ _ _ E M B).
Qed.

Lemma dec_bool_text (b : bool) old : dec_bool (if b then "true" else "false") old = (b, true).
Proof. by destruct b. Qed.

Lemma one_line_number t : number t -> one_line t.
Proof.
  intros (sg & i & f & e & -> & Hs & Hi & Hf & He).
  repeat apply one_line_app.
  - by destruct Hs as [->| ->].
  - destruct Hi as [->|(c & t & -> & _ & D)]; [done|]. by apply one_line_digits.
  - destruct Hf as [->|(d & -> & D & _)]; [done|]. apply one_line_cons; [done|]. by apply one_line_digits.
  - destruct He as [->|(c & s & d & -> & X & Hs' & D & _)]; [done|]. apply one_line_cons.
    + destruct (Ascii.eqb_spec c LF) as [->|]; done.
    + apply one_line_app; [|by apply one_line_digits]. destruct Hs' as [->|(x & -> & Sx)]; [done|].
      apply one_line_cons; [|done]. destruct (Ascii.eqb_spec x LF) as [->|]; done.
Qed.

Lemma one_line_bare s : all_bare s = true -> one_line s.
Proof.
  induction s as [|c s IH]; [done|]. cbn [all_bare]. intros [B A]%andb_true_iff. apply one_line_cons; [|by apply IH].
  destruct (Ascii.eqb_spec c LF) as [->|]; done.
Qed.

(** One field more is read, its setter applied. *)
Tactic Notation "read_field" uconstr(H) :=
  erewrite dec_fields_hit; [|reflexivity|apply at_field_eq, H];
  cbn [Timestamp ETenant ProviderKind EModel EPromptTokens ECompletionTokens EUSD EPriceVersion CacheHit RequestID zeroEntry].

(** A row is one line, and what it says is the entry. *)
Lemma entry_text_spec zone e text : entry_text zone e = Some text ->
  one_line text /\ (clean zone e -> read_row text = Some e).
Proof.
  unfold entry_text. destruct (MarshalTime _ _) as [time|] eqn:T; [|done]. destruct (f64_text _) as [usd|] eqn:U; [|done].
  intros [= <-]. split.
  - apply one_line_struct. each_line; try apply one_line_plain; [| |by destruct (CacheHit e)].
    + apply one_line_cons; [done|]. apply one_line_app; [by apply one_line_bare, (time_bare zone (Timestamp e))|done].
    + by apply one_line_number, (f64_text_spec (EUSD e)).
  - intros [[Z1 Z2] (V1 & V2 & V3 & V4) (I1 & I2 & I3)].
    assert (F : forall d, Forall2 (fun f m => f.1 = m.1 /\ valid_utf8 f.1 /\ reads_as d f.2 m.2)
      [("timestamp", String dquote (time +:+ String dquote "")); ("tenant", plain_quote (ETenant e));
       ("provider_kind", plain_quote (ProviderKind e)); ("model", plain_quote (EModel e));
       ("prompt_tokens", Itoa (EPromptTokens e)); ("completion_tokens", Itoa (ECompletionTokens e)); ("usd", usd);
       ("price_version", Itoa (EPriceVersion e)); ("cache_hit", if CacheHit e then "true" else "false");
       ("request_id", plain_quote (RequestID e))]%string (entry_members time usd e)).
    { intros d. unfold entry_members. fields; cbn [fst snd];
        first [apply reads_plain | apply reads_Itoa | apply reads_bool | by apply (reads_time d zone (Timestamp e))
              | by apply (reads_f64 d (EUSD e))]. }
    unfold read_row, Unmarshal.
    rewrite (reads_parse _ (JObj (entry_members time usd e))) by (rewrite contentDepth_spec; apply reads_struct, F).
    unfold dec_entry. rewrite (dec_struct_text _ _ _ zeroEntry (F _)).
    read_field (dec_time_text zone _ _ _ T Z1 Z2).
    read_field (dec_plain _ _ V1).
    read_field (dec_plain _ _ V2).
    read_field (dec_plain _ _ V3).
    read_field (dec_int_Itoa _ _ I1).
    read_field (dec_int_Itoa _ _ I2).
    read_field (dec_float_text _ _ _ U).
    read_field (dec_int_Itoa _ _ I3).
    read_field (dec_bool_text (CacheHit e)).
    read_field (dec_plain _ _ V4).
    by destruct e.
Qed.

(** ** The file *)

Lemma lines_of_line t rest : one_line t -> lines_of (t +:+ newline +:+ rest) = (t :: (lines_of rest).1, (lines_of rest).2).
Proof.
  induction t as [|c t IH]; intros O.
  - rewrite str_app_nil. change (newline +:+ rest) with (String LF rest). cbn [lines_of].
    rewrite Ascii.eqb_refl. by destruct (lines_of rest).
  - unfold one_line in O. simpl in O. destruct (Ascii.eqb c LF) eqn:C; [done|]. rewrite str_app_cons. cbn [lines_of].
    rewrite C, (IH O). done.
Qed.

Lemma lines_of_torn t : one_line t -> lines_of t = ([], t).
Proof.
  induction t as [|c t IH]; intros O; [done|]. unfold one_line in O. simpl in O.
  destruct (Ascii.eqb c LF) eqn:C; [done|]. cbn [lines_of]. by rewrite C, (IH O).
Qed.

(** What is appended to a file whose last line has ended. *)
Lemma lines_of_append s t ls : lines_of s = (ls, "") -> lines_of (s +:+ t) = (ls ++ (lines_of t).1, (lines_of t).2).
Proof.
  revert ls. induction s as [|c s IH]; intros ls E.
  - injection E as <-. rewrite str_app_nil. by destruct (lines_of t).
  - rewrite str_app_cons. cbn [lines_of] in E |- *. destruct (Ascii.eqb c LF).
    + destruct (lines_of s) as [l0 r0]. injection E as <- ->. by rewrite (IH l0 eq_refl).
    + destruct (lines_of s) as [[|l0 ls0] r0]; [done|]. injection E as <- ->. by rewrite (IH (l0 :: ls0) eq_refl).
Qed.

Lemma one_line_take k t : one_line t -> one_line (take_bytes k t).
Proof.
  revert t. induction k as [|k IH]; intros [|c t] O; try done. unfold one_line in *. simpl in *.
  destruct (Ascii.eqb c LF); [done|]. by apply IH.
Qed.

Lemma take_bytes_within k t u : (k <= String.length t)%nat -> take_bytes k (t +:+ u) = take_bytes k t.
Proof.
  revert t. induction k as [|k IH]; intros [|c t] H; try done; simpl in H; [lia|]. rewrite str_app_cons. simpl.
  by rewrite IH by lia.
Qed.

(** A write that fails did not write the whole line. *)
Definition falls_short (a : attempt) : Prop :=
  forall k text, os a = Short k -> entry_text (zone a) (row a) = Some text -> (k <= String.length text)%nat.

Lemma writes_broken l h : broken l = true -> writes l h = (l, repeat false (length h)).
Proof. intros B. induction h as [|a h IH]; [done|]. cbn [writes]. unfold Write. by rewrite B, IH. Qed.

(** A history that begins with a file of whole lines. *)
Lemma writes_lines h l ls :
  broken l = false -> lines_of (contents l) = (ls, "") -> Forall falls_short h ->
  let '(l', oks) := writes l h in
  exists texts torn, lines_of (contents l') = (ls ++ texts, torn) /\ (torn <> "" -> broken l' = true) /\
    Forall2 (fun text e => exists a, a ∈ h /\ row a = e /\ entry_text (zone a) e = Some text) texts (accepted h oks).
Proof.
  revert l ls. induction h as [|a h IH]; intros l ls B L S; [exists [], ""; by rewrite app_nil_r|].
  apply list.Forall_cons in S as [Sa S]. cbn [writes]. unfold Write. rewrite B.
  assert (Weaken : forall texts es, Forall2 (fun text e => exists a, a ∈ h /\ row a = e /\ entry_text (zone a) e = Some text) texts es ->
    Forall2 (fun text e => exists a', a' ∈ a :: h /\ row a' = e /\ entry_text (zone a') e = Some text) texts es).
  { intros texts es F. eapply Forall2_impl; [|exact F]. intros text e (a' & Ha & R). exists a'. split; [by right|done]. }
  destruct (entry_text (zone a) (row a)) as [text|] eqn:T.
  2:{ specialize (IH l ls B L S). destruct (writes l h) as [l' oks]. destruct IH as (texts & torn & E & W & F).
      exists texts, torn. split_and!; [done..|]. by apply Weaken. }
  destruct (entry_text_spec _ _ _ T) as [O _]. destruct (if closed l then Short 0 else os a) as [|k] eqn:K.
  - assert (L' : lines_of (contents l +:+ text +:+ newline) = (ls ++ [text], "")).
    { rewrite (lines_of_append _ _ ls L). rewrite <- (str_app_empty newline), (lines_of_line text "") by done. done. }
    specialize (IH (mkLedgerFile (contents l +:+ text +:+ newline) false (closed l)) (ls ++ [text]) eq_refl L' S).
    destruct (writes _ h) as [l' oks]. destruct IH as (texts & torn & E & W & F).
    exists (text :: texts), torn. rewrite E, <- (assoc_L app). split_and!; [done..|]. cbn [accepted app]. constructor.
    + exists a. split_and!; [left|done|done].
    + by apply Weaken.
  - assert (Hk : (k <= String.length text)%nat).
    { destruct (closed l); [injection K as <-; lia|]. by apply (Sa k text). }
    rewrite writes_broken by done. exists [], (take_bytes k text). cbn [contents broken].
    rewrite take_bytes_within by done. rewrite (lines_of_append _ _ ls L), lines_of_torn by (by apply one_line_take).
    split_and!; [done|done|]. cbn [accepted app].
    assert (N : accepted h (repeat false (length h)) = []) by (clear; induction h as [|x h IH]; [done|exact IH]).
    rewrite N. constructor.
Qed.

Lemma abstract_rows rows h oks : length oks = length h ->
  foldl (fun g p => (ledger_Write g p.2 (row p.1)).1) (FileLedger rows) (zip h oks) = FileLedger (rows ++ accepted h oks).
Proof.
  revert rows oks. induction h as [|a h IH]; intros rows [|ok oks] L; try done; [by rewrite app_nil_r|].
  cbn [zip zip_with foldl accepted]. injection L as L. destruct ok; cbn [ledger_Write fst snd app]; rewrite IH by done; [|done].
  by rewrite <- (assoc_L app).
Qed.

Lemma writes_length h l : length (writes l h).2 = length h.
Proof.
  revert l. induction h as [|a h IH]; intros l; [done|]. cbn [writes]. destruct (Write _ _ _ _) as [l' ok].
  specialize (IH l'). destruct (writes l' h). cbn in *. by rewrite IH.
Qed.

(** (C34) The ledger can be replayed from its beginning: after any history of writes,
    some of them failed, the lines of the file are the rows it held when it was
    opened followed by exactly the rows whose write was accepted, each reading back
    as the entry it was written from, to the nanosecond and the last bit of its
    cost; what follows the last line is nothing, or the torn start of a row that was
    refused, after which the ledger accepts no row.  The rows are those of the
    ledger the request path is proved against. *)
Theorem ledger_reads_back existing texts rows h :
  lines_of existing = (texts, "") -> read_row <$> texts = Some <$> rows ->
  Forall (fun a => clean (zone a) (row a)) h -> Forall falls_short h ->
  let '(l, oks) := writes (OpenFileLedger existing) h in
  let '(lines, torn) := lines_of (contents l) in
  read_row <$> lines = Some <$> rows ++ accepted h oks /\
  (torn <> "" -> broken l = true /\ forall h', writes l h' = (l, repeat false (length h'))) /\
  foldl (fun g p => (ledger_Write g p.2 (row p.1)).1) (FileLedger rows) (zip h oks) = FileLedger (rows ++ accepted h oks).
Proof.
  intros L R C S. pose proof (writes_lines h (OpenFileLedger existing) texts eq_refl L S) as W.
  pose proof (writes_length h (OpenFileLedger existing)) as N.
  destruct (writes _ h) as [l oks]. cbn [snd] in N. destruct W as (news & torn & -> & T & F). split_and!.
  - rewrite !fmap_app, R. f_equal. clear -C F. induction F as [|text e ts es (a & Ha & <- & E) F IH]; [done|].
    cbn [fmap list_fmap]. f_equal; [|done]. rewrite list.Forall_forall in C. by apply (entry_text_spec _ _ _ E), C.
  - intros Ht. split; [by apply T|]. intros h'. by apply writes_broken, T.
  - by apply abstract_rows.
Qed.

Module LedgerExample.
(** 2026-08-11T23:39:59.01234Z, seen from three and a half hours west. *)
Definition instant : Time := 63922088399012340000.
Definition west : Z := -12600.
Definition paid : Entry := mkEntry instant "acme" "openai" "<gpt & co>" 12 7 (f64_ratio 3 1000) 2 false "r-1".
Definition next : Entry := mkEntry (instant + 1) "acme" "gemini" "flash" 1 1 f64_zero 2 false "r-2".
Definition no_number : Entry := mkEntry instant "acme" "openai" "m" 1 1 S754_nan 2 false "r-3".

Example a_row : entry_text west paid = Some (quoted
  "{'timestamp':'2026-08-11T20:09:59.01234-03:30','tenant':'acme','provider_kind':'openai','model':'<gpt & co>','prompt_tokens':12,'completion_tokens':7,'usd':0.003,'price_version':2,'cache_hit':false,'request_id':'r-1'}").
Proof. vm_compute. reflexivity. Qed.

(** A row that cannot be encoded, one torn after forty bytes, and one after it. *)
Definition history : list attempt :=
  [mkAttempt west Whole paid; mkAttempt 0 Whole no_number; mkAttempt west (Short 40) next; mkAttempt west Whole next].

Example ledger_reads_back_witness :
  let '(l, oks) := writes (OpenFileLedger "") history in
  oks = [true; false; false; false] /\ read_row <$> (lines_of (contents l)).1 = [Some paid].
Proof.
  assert (C : Forall (fun a => clean (zone a) (row a)) history).
  { unfold history. repeat constructor; cbn [zone row]; try reflexivity; try discriminate. }
  assert (S : Forall falls_short history).
  { repeat constructor; intros k text K E; try discriminate K. injection K as <-. vm_compute in E. injection E as <-.
    apply Nat.leb_le. vm_compute. reflexivity. }
  pose proof (ledger_reads_back "" [] [] history eq_refl eq_refl C S) as T.
  assert (O : (writes (OpenFileLedger "") history).2 = [true; false; false; false]) by (vm_compute; reflexivity).
  destruct (writes _ history) as [l oks]. cbn [snd] in O. subst oks.
  destruct (lines_of (contents l)) as [ls torn]. cbn [fst]. split; [reflexivity|]. apply (proj1 T).
Defined.

(** A write that failed is the ledger's last, whatever the comments say of losing
    one row: the next ones are refused though the disk would take them. *)
Example one_failed_write_ends_the_ledger :
  (writes (OpenFileLedger "") [mkAttempt 0 (Short 0) paid; mkAttempt 0 Whole next; mkAttempt 0 Whole next]).2 = [false; false; false].
Proof. vm_compute. reflexivity. Qed.

(** And what it left of its line spoils the first row after a restart, which is
    reported as written. *)
Example a_torn_line_spoils_the_next_row :
  let l := (writes (OpenFileLedger "") [mkAttempt 0 (Short 40) paid]).1 in
  let '(l', oks) := writes (OpenFileLedger (contents l)) [mkAttempt 0 Whole next] in
  oks = [true] /\ read_row <$> (lines_of (contents l')).1 = [None].
Proof. vm_compute. split; reflexivity. Qed.
End LedgerExample.
