(* ===== verification/Canvas.v ===== *)
(** * A drawing that is checked before it is written (cmd/plot/svg.go, theme.go)

    The canvas on which the repository's figures are drawn: every operation
    appends markup and records the box it covers, and [Validate] accepts a
    drawing in which nothing leaves the frame and no label meets another label, a
    bar or a curve.  The clipping that decides the last is written over any
    arithmetic, with binary64 (the program's) and the rationals as instances:
    what it means is proved for exact numbers, what survives rounding for the
    program's own. *)

From Stdlib Require Import ZArith Lia QArith Lqa SpecFloat String Ascii.
From stdpp Require Import base list strings numbers.
From S2P Require Import Prelude Float64 Rounding GoString Json JsonText Decimal Sse JsonLine.

Local Open Scope Z_scope.

(** ** Numbers as text *)

(** Half to even, as [strconv] rounds an exact decimal. *)
Definition div_half_even (n d : Z) : Z :=
  let q := n / d in
  let r := 2 * (n mod d) in
  if (d <? r) || ((r =? d) && Z.odd q) then q + 1 else q.

(** [10^prec] times the magnitude of a finite number, rounded. *)
Definition scaled (prec : nat) (m : positive) (e : Z) : Z :=
  let n := Zpos m * 10 ^ Z.of_nat prec in
  if 0 <=? e then n * 2 ^ e else div_half_even n (2 ^ (- e)).

(** [prec] digits after the point. *)
Definition decimal (prec : nat) (n : Z) : string :=
  let frac := Itoa (n mod 10 ^ Z.of_nat prec) in
  match prec with
  | O => Itoa n
  | _ => Itoa (n / 10 ^ Z.of_nat prec) +:+ "." +:+ zeros (Z.of_nat prec - Z.of_nat (String.length frac)) +:+ frac
  end.

(** [strconv.FormatFloat(v, 'f', prec, 64)]. *)
Definition FormatFixed (prec : nat) (v : f64) : string :=
  match v with
  | S754_nan => "NaN"
  | S754_infinity s => if s then "-Inf" else "+Inf"
  | S754_zero s => (if s then "-" else "") +:+ decimal prec 0
  | S754_finite s m e => (if s then "-" else "") +:+ decimal prec (scaled prec m e)
  end.

(** The verb [%+.2f]. *)
Definition FormatSigned (prec : nat) (v : f64) : string :=
  match v with
  | S754_nan => "+NaN"
  | S754_zero false | S754_finite false _ _ => String "+" (FormatFixed prec v)
  | _ => FormatFixed prec v
  end.

(** [strings.TrimSuffix] of one point. *)
Fixpoint TrimPoint (s : string) : string :=
  match s with
  | "" => ""
  | String c t => if Ascii.eqb c "." && String.eqb t "" then "" else String c (TrimPoint t)
  end.

Definition num (v : f64) : string :=
  let s := TrimPoint (TrimRightZeros (FormatFixed 2 v)) in
  if String.eqb s "" || String.eqb s "-0" then "0" else s.

(** ** Boxes *)

(** What the clipping computes with. *)
Class Arith (F : Type) := {
  zero : F; one : F;
  minus : F -> F -> F; negate : F -> F; divide : F -> F -> F;
  equal : F -> F -> bool; less : F -> F -> bool; at_most : F -> F -> bool
}.

Record Box (F : Type) := mkBox { X0 : F; Y0 : F; X1 : F; Y1 : F }.
Arguments mkBox {F}. Arguments X0 {F}. Arguments Y0 {F}. Arguments X1 {F}. Arguments Y1 {F}.

Section Clipping.
Context {F : Type} `{Arith F}.

Definition overlaps (b o : Box F) : bool :=
  less (X0 b) (X1 o) && less (X0 o) (X1 b) && less (Y0 b) (Y1 o) && less (Y0 o) (Y1 b).

(** One edge against the part of the segment that is left. *)
Definition clip (t : F * F) (e : F * F) : option (F * F) :=
  let '(t0, t1) := t in
  let '(p, q) := e in
  if equal p zero then if less q zero then None else Some (t0, t1)
  else if less p zero then
    let r := divide q p in
    if less t1 r then None else if less t0 r then Some (r, t1) else Some (t0, t1)
  else
    let r := divide q p in
    if less r t0 then None else if less r t1 then Some (t0, r) else Some (t0, t1).

Fixpoint clip_all (t : F * F) (es : list (F * F)) : option (F * F) :=
  match es with
  | [] => Some t
  | e :: es => match clip t e with None => None | Some t => clip_all t es end
  end.

Definition edges (b : Box F) (x0 y0 x1 y1 : F) : list (F * F) :=
  let dx := minus x1 x0 in
  let dy := minus y1 y0 in
  [(negate dx, minus x0 (X0 b)); (dx, minus (X1 b) x0); (negate dy, minus y0 (Y0 b)); (dy, minus (Y1 b) y0)].

Definition segMeetsBox (b : Box F) (x0 y0 x1 y1 : F) : bool :=
  match clip_all (zero, one) (edges b x0 y0 x1 y1) with
  | None => false
  | Some (t0, t1) => at_most t0 t1
  end.

(** The points of a curve, two coordinates each; [i] is the segment's index. *)
Fixpoint crossing_from (i : Z) (b : Box F) (pts : list F) : Z :=
  match pts with
  | x0 :: y0 :: ((x1 :: y1 :: _) as rest) =>
      if segMeetsBox b x0 y0 x1 y1 then i else crossing_from (i + 1) b rest
  | _ => -1
  end.
Definition firstCrossing : Box F -> list F -> Z := crossing_from 0.
End Clipping.

#[export] Instance f64_arith : Arith f64 := {|
  zero := f64_zero; one := f64_of_Z 1;
  minus := f64_sub; negate := SFopp; divide := f64_div;
  equal := f64_eqb; less := f64_ltb; at_most := f64_leb
|}.

#[export] Instance Q_arith : Arith Q := {|
  zero := 0%Q; one := 1%Q;
  minus := Qminus; negate := Qopp; divide := Qdiv;
  equal := Qeq_bool; less x y := negb (Qle_bool y x); at_most := Qle_bool
|}.

(** The built-in [min] and [max] on [float64]: a NaN wins, a zero of the
    smaller (larger) sign before the other. *)
Definition f64_min (x y : f64) : f64 :=
  if f64_is_nan x || f64_is_nan y then S754_nan
  else match x, y with
       | S754_zero s, S754_zero t => S754_zero (s || t)
       | _, _ => if f64_ltb y x then y else x
       end.
Definition f64_max (x y : f64) : f64 :=
  if f64_is_nan x || f64_is_nan y then S754_nan
  else match x, y with
       | S754_zero s, S754_zero t => S754_zero (s && t)
       | _, _ => if f64_ltb x y then y else x
       end.

Definition normalize (x0 y0 x1 y1 : f64) : Box f64 :=
  let '(x0, x1) := if f64_ltb x1 x0 then (x1, x0) else (x0, x1) in
  let '(y0, y1) := if f64_ltb y1 y0 then (y1, y0) else (y0, y1) in
  mkBox x0 y0 x1 y1.

Fixpoint widen (b : Box f64) (pts : list f64) : Box f64 :=
  match pts with
  | x :: y :: pts =>
      widen (mkBox (f64_min (X0 b) x) (f64_min (Y0 b) y) (f64_max (X1 b) x) (f64_max (Y1 b) y)) pts
  | _ => b
  end.
Definition bounds (pts : list f64) : Box f64 :=
  match pts with
  | x :: y :: pts => widen (mkBox x y x y) pts
  | _ => mkBox f64_zero f64_zero f64_zero f64_zero
  end.

(** ** Theme (theme.go) *)

Definition dec (p q : Z) : f64 := f64_ratio p q.
Definition int (n : Z) : f64 := f64_of_Z n.

Definition sizeTitle : f64 := int 16.
Definition sizeSubtitle : f64 := int 12.
Definition sizeAxis : f64 := dec 25 2.
Definition sizeTick : f64 := int 12.
Definition sizeAnnot : f64 := dec 25 2.
Definition sizeFootnote : f64 := int 11.
Definition figureWidth : f64 := int 700.

Definition classInk : string := "ink".
Definition classRule : string := "rule".
Definition classAxis : string := "axis".
Definition classBand : string := "band".
Definition classLead : string := "lead".
Definition classMark : string := "mark".
Definition classRight : string := "right".
Definition classRightLine : string := "right-line".
Definition classWrong : string := "wrong".
Definition classWrongLine : string := "wrong-line".

Fixpoint lines (l : list string) : string :=
  match l with [] => "" | s :: l => s +:+ newline +:+ lines l end.

Definition styleBlock : string := quoted (lines
  ["  <style>";
   "    text { font-family: ui-sans-serif, -apple-system, 'Segoe UI', Helvetica, Arial, sans-serif; }";
   "    .ink { fill: #757575; }";
   "    .rule { stroke: #757575; stroke-opacity: 0.30; stroke-width: 1; fill: none; }";
   "    .axis { stroke: #757575; stroke-opacity: 0.75; stroke-width: 1; fill: none; }";
   "    .band { fill: #757575; fill-opacity: 0.16; }";
   "    .lead { stroke: #757575; stroke-opacity: 0.55; stroke-width: 1; fill: none; }";
   "    .mark { stroke: #757575; stroke-opacity: 0.60; stroke-width: 1.25;";
   "            stroke-dasharray: 4 3; fill: none; }";
   "    .right { fill: #0072B2; }";
   "    .right-line { stroke: #0072B2; stroke-width: 2.2; fill: none;";
   "                  stroke-linejoin: round; stroke-linecap: round; }";
   "    .wrong { fill: #D55E00; }";
   "    .wrong-line { stroke: #D55E00; stroke-width: 2.2; fill: none; stroke-dasharray: 7 4;";
   "                  stroke-linejoin: round; stroke-linecap: round; }";
   "    @media (prefers-color-scheme: dark) {";
   "      .ink { fill: #C9D1D9; }";
   "      .rule { stroke: #C9D1D9; stroke-opacity: 0.24; }";
   "      .axis { stroke: #C9D1D9; stroke-opacity: 0.62; }";
   "      .band { fill: #C9D1D9; fill-opacity: 0.14; }";
   "      .lead { stroke: #C9D1D9; stroke-opacity: 0.50; }";
   "      .mark { stroke: #C9D1D9; stroke-opacity: 0.55; }";
   "      .right, .right-line { fill: #56B4E9; }";
   "      .right-line { stroke: #56B4E9; fill: none; }";
   "      .wrong, .wrong-line { fill: #E69F00; }";
   "      .wrong-line { stroke: #E69F00; fill: none; }";
   "    }";
   "  </style>"]).

(** ** The canvas *)

Inductive Anchor := AnchorStart | AnchorMiddle | AnchorEnd.
Inductive Weight := WeightNormal | WeightBold.
Definition anchor_text (a : Anchor) : string :=
  match a with AnchorStart => "start" | AnchorMiddle => "middle" | AnchorEnd => "end" end.
Definition weight_text (w : Weight) : string := match w with WeightNormal => "400" | WeightBold => "600" end.

Inductive solidity := backdrop | opaque.
#[export] Instance solidity_eq_dec : EqDecision solidity.
Proof. solve_decision. Defined.

Record element := mkElement { kind : string; elabel : string; ebox : Box f64; solid : solidity }.
Record curve := mkCurve { clabel : string; pts : list f64 }.
Record Canvas := mkCanvas { w : f64; h : f64; body : string; elems : list element; curves : list curve }.

Definition NewCanvas (w h : f64) : Canvas := mkCanvas w h "" [] [].

Definition record (kind label : string) (b : Box f64) (s : solidity) (c : Canvas) : Canvas :=
  mkCanvas (w c) (h c) (body c) (elems c ++ [mkElement kind label b s]) (curves c).
Definition write (text : string) (c : Canvas) : Canvas :=
  mkCanvas (w c) (h c) (body c +:+ text) (elems c) (curves c).

(** [%q] of a text without quotes, backslashes and unprintable characters: the
    numbers, anchors, weights and class names of a drawing. *)
Definition attr (name value : string) : string := " " +:+ name +:+ "=" +:+ String dquote (value +:+ String dquote "").

Definition Rect (b : Box f64) (class : string) (s : solidity) (c : Canvas) : Canvas :=
  record "rect" class b s (write ("  <rect" +:+ attr "x" (num (X0 b)) +:+ attr "y" (num (Y0 b))
    +:+ attr "width" (num (f64_sub (X1 b) (X0 b))) +:+ attr "height" (num (f64_sub (Y1 b) (Y0 b)))
    +:+ attr "class" class +:+ "/>" +:+ newline) c).

Definition Line (x0 y0 x1 y1 : f64) (class : string) (c : Canvas) : Canvas :=
  record "line" class (normalize x0 y0 x1 y1) backdrop (write ("  <line" +:+ attr "x1" (num x0) +:+ attr "y1" (num y0)
    +:+ attr "x2" (num x1) +:+ attr "y2" (num y1) +:+ attr "class" class +:+ "/>" +:+ newline) c).

Fixpoint points_text (first : bool) (pts : list f64) : string :=
  match pts with
  | x :: y :: pts => (if first then "" else " ") +:+ num x +:+ "," +:+ num y +:+ points_text false pts
  | _ => ""
  end.

Definition Polyline (pts : list f64) (class : string) (c : Canvas) : Canvas :=
  let c := record "polyline" class (bounds pts) backdrop (write ("  <polyline" +:+ attr "points" (points_text true pts)
    +:+ attr "class" class +:+ "/>" +:+ newline) c) in
  mkCanvas (w c) (h c) (body c) (elems c) (curves c ++ [mkCurve class pts]).

Definition around (x y r : f64) : Box f64 := mkBox (f64_sub x r) (f64_sub y r) (f64_add x r) (f64_add y r).

Definition Circle (x y r : f64) (class : string) (c : Canvas) : Canvas :=
  record "circle" class (around x y r) backdrop (write ("  <circle" +:+ attr "cx" (num x) +:+ attr "cy" (num y)
    +:+ attr "r" (num r) +:+ attr "class" class +:+ "/>" +:+ newline) c).

Definition Square (x y r : f64) (class : string) (c : Canvas) : Canvas :=
  record "rect" class (around x y r) backdrop (write ("  <rect" +:+ attr "x" (num (f64_sub x r)) +:+ attr "y" (num (f64_sub y r))
    +:+ attr "width" (num (f64_mul (int 2) r)) +:+ attr "height" (num (f64_mul (int 2) r))
    +:+ attr "class" class +:+ "/>" +:+ newline) c).

(** An anchor or a weight that is not given is the first of its type. *)
Record Label := mkLabel {
  Text_ : string; X : f64; Y : f64; Size : f64; Anchored : Anchor; Weighted : Weight; Class_ : string
}.

Definition among (s : string) (c : ascii) : bool := contains_byte s c.

(** A rune by its first byte: every class but the last is ASCII. *)
Definition runeWidth (c : ascii) : f64 :=
  if Ascii.eqb c " " then dec 28 100
  else if among "iljtIf.,:;'`|!()[]{}/\-" c then dec 32 100
  else if among "mwMW@%" c then dec 88 100
  else if is_digit c then dec 57 100
  else if within 65 90 c then dec 68 100
  else dec 56 100.

(** [skip] bytes belong to a rune already counted. *)
Fixpoint ems (skip : nat) (s : string) (em : f64) : f64 :=
  match s with
  | "" => em
  | String c t =>
      match skip with
      | S k => ems k t em
      | O => ems (pred (utf8_width s)) t (f64_add em (runeWidth c))
      end
  end.

Definition TextWidth (s : string) (size : f64) (weight : Weight) : f64 :=
  let em := ems 0 s f64_zero in
  let em := match weight with WeightBold => f64_mul em (dec 106 100) | WeightNormal => em end in
  f64_mul em size.

Definition textBox (l : Label) : Box f64 :=
  let w := TextWidth (Text_ l) (Size l) (Weighted l) in
  let x0 := match Anchored l with
            | AnchorMiddle => f64_sub (X l) (f64_div w (int 2))
            | AnchorEnd => f64_sub (X l) w
            | AnchorStart => X l
            end in
  mkBox x0 (f64_sub (Y l) (f64_mul (dec 80 100) (Size l))) (f64_add x0 w)
    (f64_add (Y l) (f64_mul (dec 24 100) (Size l))).

Fixpoint escape (s : string) : string :=
  match s with
  | "" => ""
  | String c t =>
      (if Ascii.eqb c "&" then "&amp;" else if Ascii.eqb c "<" then "&lt;"
       else if Ascii.eqb c ">" then "&gt;" else String c "") +:+ escape t
  end.

Definition Text (l : Label) (c : Canvas) : Canvas :=
  record "text" (Text_ l) (textBox l) opaque (write ("  <text" +:+ attr "x" (num (X l)) +:+ attr "y" (num (Y l))
    +:+ attr "font-size" (num (Size l)) +:+ attr "font-weight" (weight_text (Weighted l))
    +:+ attr "text-anchor" (anchor_text (Anchored l)) +:+ attr "class" (Class_ l) +:+ ">"
    +:+ escape (Text_ l) +:+ "</text>" +:+ newline) c).

(** ** Validation *)

Inductive problem :=
| Escapes (e : element)
| Overlaps (e f : element)
| SitsOn (e : element) (cv : curve) (segment : Z).

Definition tolerance : f64 := dec 1 2.
Definition curveClearance : f64 := int 5.

Definition escapes (c : Canvas) (e : element) : bool :=
  let b := ebox e in
  f64_ltb (X0 b) (f64_sub f64_zero tolerance) || f64_ltb (Y0 b) (f64_sub f64_zero tolerance)
  || f64_ltb (f64_add (w c) tolerance) (X1 b) || f64_ltb (f64_add (h c) tolerance) (Y1 b).

Definition is_opaque (e : element) : bool := bool_decide (solid e = opaque).
Definition is_text (e : element) : bool := String.eqb (kind e) "text".

(** Each opaque element with the opaque ones after it. *)
Fixpoint solid_pairs (es : list element) : list (element * element) :=
  match es with
  | [] => []
  | e :: es => (if is_opaque e then (fun f => (e, f)) <$> filter is_opaque es else []) ++ solid_pairs es
  end.

Definition pad (b : Box f64) : Box f64 :=
  mkBox (f64_sub (X0 b) curveClearance) (f64_sub (Y0 b) curveClearance)
    (f64_add (X1 b) curveClearance) (f64_add (Y1 b) curveClearance).

Definition sits_on (e : element) (cv : curve) : list problem :=
  let seg := firstCrossing (pad (ebox e)) (pts cv) in
  if 0 <=? seg then [SitsOn e cv seg] else [].

(** No problem is no error. *)
Definition Validate (c : Canvas) : list problem :=
  (Escapes <$> filter (escapes c) (elems c))
  ++ ((fun p => Overlaps p.1 p.2) <$> filter (fun p => overlaps (ebox p.1) (ebox p.2)) (solid_pairs (elems c)))
  ++ (e ← filter is_text (elems c); cv ← curves c; sits_on e cv).

(** ** The document *)

Definition Report (c : Canvas) : string :=
  let texts := Z.of_nat (length (filter is_text (elems c))) in
  let solids := Z.of_nat (length (filter is_opaque (elems c))) in
  let segments := foldl (fun n cv => n + (Z.of_nat (length (pts cv)) ÷ 2 - 1)) 0 (curves c) in
  FormatFixed 0 (w c) +:+ "x" +:+ FormatFixed 0 (h c) +:+ ", " +:+ Itoa (Z.of_nat (length (elems c)))
  +:+ " elements, " +:+ Itoa texts +:+ " labels, " +:+ Itoa (Z.of_nat (length (elems c))) +:+ " frame checks, "
  +:+ Itoa (solids * (solids - 1) ÷ 2) +:+ " solid pairs, " +:+ Itoa (texts * segments) +:+ " label/segment pairs".

Definition Bytes (title desc : string) (c : Canvas) : string :=
  "<svg" +:+ attr "xmlns" "http://www.w3.org/2000/svg" +:+ attr "width" (num (w c)) +:+ attr "height" (num (h c))
  +:+ attr "viewBox" ("0 0 " +:+ num (w c) +:+ " " +:+ num (h c)) +:+ attr "role" "img" +:+ ">" +:+ newline
  +:+ "  <title>" +:+ escape title +:+ "</title>" +:+ newline +:+ "  <desc>" +:+ escape desc +:+ "</desc>" +:+ newline
  +:+ styleBlock +:+ body c +:+ "</svg>" +:+ newline.

(** ** The clipping, in exact arithmetic *)

Section Exact.
Local Open Scope Q_scope.

(** The parameters of a segment at which it satisfies an edge. *)
Definition within_edge (t : Q) (e : Q * Q) : Prop := t * e.1 <= e.2.
Definition in_span (t : Q) (range : Q * Q) : Prop := range.1 <= t <= range.2.

Lemma less_Q x y : less x y = true <-> x < y.
Proof.
  cbn. rewrite negb_true_iff, <- not_true_iff_false, Qle_bool_iff. split; [apply Qnot_le_lt|apply Qlt_not_le].
Qed.

Lemma less_Q_false x y : less x y = false <-> y <= x.
Proof. cbn. by rewrite negb_false_iff, Qle_bool_iff. Qed.

Lemma divided_pos t p q : 0 < p -> t * p <= q <-> t <= q / p.
Proof.
  intros P. split; intros E.
  - by apply Qle_shift_div_l.
  - assert (Hq : q == q / p * p) by (field; lra). rewrite Hq. apply Qmult_le_compat_r; [done|lra].
Qed.

Lemma divided_neg t p q : p < 0 -> t * p <= q <-> q / p <= t.
Proof.
  intros P. assert (E : q / p == (- q) / (- p)) by (field; lra). rewrite E.
  rewrite <- (Qmult_le_r (- q / - p) t (- p)) by lra.
  assert (Hq : - q / - p * - p == - q) by (field; lra). rewrite Hq. split; nra.
Qed.

(** An edge leaves exactly the parameters that satisfy it. *)
Lemma clip_spec range e t :
  in_span t range /\ within_edge t e <->
  match clip range e with Some range => in_span t range | None => False end.
Proof.
  destruct range as [t0 t1], e as [p q]. unfold in_span, within_edge. cbn [clip fst snd].
  destruct (equal p zero) eqn:Pz.
  { apply Qeq_bool_eq in Pz. cbn in Pz. destruct (less q zero) eqn:N.
    - apply less_Q in N. cbn in N. split; [intros [_ H]; rewrite Pz in H; lra|done].
    - apply less_Q_false in N. cbn in N. rewrite Pz. split; [tauto|intros; split; [done|lra]]. }
  apply Qeq_bool_neq in Pz. cbn in Pz. destruct (less p zero) eqn:N.
  - apply less_Q in N. cbn in N. rewrite (divided_neg t p q N). cbn [divide Q_arith].
    destruct (less t1 (q / p)) eqn:A; [apply less_Q in A; split; [lra|done]|]. apply less_Q_false in A.
    destruct (less t0 (q / p)) eqn:B; [apply less_Q in B|apply less_Q_false in B]; cbn [fst snd]; split; lra.
  - apply less_Q_false in N. cbn in N. assert (P : 0 < p) by (apply Qle_lteq in N as [|N]; [done|destruct Pz; lra]).
    rewrite (divided_pos t p q P). cbn [divide Q_arith].
    destruct (less (q / p) t0) eqn:A; [apply less_Q in A; split; [lra|done]|]. apply less_Q_false in A.
    destruct (less (q / p) t1) eqn:B; [apply less_Q in B|apply less_Q_false in B]; cbn [fst snd]; split; lra.
Qed.

Lemma clip_all_spec es range t :
  in_span t range /\ Forall (within_edge t) es <->
  match clip_all range es with Some range => in_span t range | None => False end.
Proof.
  revert range. induction es as [|e es IH]; intros range; cbn [clip_all].
  - rewrite list.Forall_nil. tauto.
  - rewrite list.Forall_cons. pose proof (clip_spec range e t) as C. destruct (clip range e) as [range'|].
    + rewrite <- IH. tauto.
    + tauto.
Qed.

(** The point of a segment at [t]. *)
Definition point_at (t x0 y0 x1 y1 : Q) : Q * Q := (x0 + t * (x1 - x0), y0 + t * (y1 - y0)).
Definition in_box (b : Box Q) (p : Q * Q) : Prop := X0 b <= p.1 <= X1 b /\ Y0 b <= p.2 <= Y1 b.

Lemma edges_spec b x0 y0 x1 y1 t :
  Forall (within_edge t) (edges b x0 y0 x1 y1) <-> in_box b (point_at t x0 y0 x1 y1).
Proof.
  unfold edges, in_box, point_at, within_edge. rewrite !list.Forall_cons, list.Forall_nil. cbn. split.
  - intros (A1 & A2 & A3 & A4 & _). split; split; lra.
  - intros [[A1 A2] [A3 A4]]. split_and!; try done; lra.
Qed.
End Exact.

(** The pieces of a curve, in order. *)
Fixpoint pieces {F} (pts : list F) : list (F * F * F * F) :=
  match pts with
  | x0 :: y0 :: ((x1 :: y1 :: _) as rest) => (x0, y0, x1, y1) :: pieces rest
  | _ => []
  end.
Definition piece_meets {F} `{Arith F} (b : Box F) (s : F * F * F * F) : bool :=
  let '(x0, y0, x1, y1) := s in segMeetsBox b x0 y0 x1 y1.

Lemma crossing_from_find {F} `{Arith F} (b : Box F) (pts : list F) i : crossing_from i b pts =
  match list_find (fun s => piece_meets b s = true) (pieces pts) with Some (k, _) => i + Z.of_nat k | None => -1 end.
Proof.
  revert i. induction pts as [pts IH] using (induction_ltof1 _ (@length _)). intros i. unfold ltof in IH.
  destruct pts as [|x0 [|y0 [|x1 [|y1 rest]]]]; try done.
  change (pieces _) with ((x0, y0, x1, y1) :: pieces (x1 :: y1 :: rest)).
  change (crossing_from i b _) with (if segMeetsBox b x0 y0 x1 y1 then i else crossing_from (i + 1) b (x1 :: y1 :: rest)).
  rewrite (IH (x1 :: y1 :: rest)) by (cbn; lia). cbn [list_find piece_meets].
  destruct (segMeetsBox b x0 y0 x1 y1).
  - rewrite decide_True by done. lia.
  - rewrite decide_False by done. destruct (list_find _ _) as [[k s]|]; cbn; lia.
Qed.

Definition piece_point (t : Q) (s : Q * Q * Q * Q) : Q * Q := let '(x0, y0, x1, y1) := s in point_at t x0 y0 x1 y1.
Definition enters (b : Box Q) (s : Q * Q * Q * Q) : Prop := exists t, (0 <= t <= 1)%Q /\ in_box b (piece_point t s).

Lemma segMeetsBox_exact (b : Box Q) s : piece_meets b s = true <-> enters b s.
Proof.
  destruct s as [[[x0 y0] x1] y1]. unfold piece_meets, enters, piece_point, segMeetsBox. setoid_rewrite <- edges_spec.
  pose proof (clip_all_spec (edges b x0 y0 x1 y1) (zero, one)) as C.
  destruct (clip_all (zero, one) (edges b x0 y0 x1 y1)) as [[t0 t1]|].
  - cbn [at_most Q_arith]. rewrite Qle_bool_iff. split.
    + intros L. exists t0. apply C. split; cbn; [apply Qle_refl|exact L].
    + intros (t & T). apply C in T. destruct T. by apply (Qle_trans _ t).
  - split; [done|]. intros (t & T). by apply C in T.
Qed.

(** (C39) The clipping is the intersection of a segment and a rectangle: in exact
    arithmetic a curve is said to cross a label's box at a piece exactly when that
    is the first of its pieces with a point in the box, the border included; and
    to cross it nowhere, [-1], exactly when no point of it lies there. *)
Theorem crossing_is_intersection (b : Box Q) (pts : list Q) :
  (firstCrossing b pts = -1 <-> Forall (fun s => ~ enters b s) (pieces pts)) /\
  forall k : nat, firstCrossing b pts = Z.of_nat k <->
    (exists s, pieces pts !! k = Some s /\ enters b s) /\ Forall (fun s => ~ enters b s) (take k (pieces pts)).
Proof.
  unfold firstCrossing. rewrite crossing_from_find.
  assert (N : forall l, Forall (fun s => ~ enters b s) l <-> Forall (fun s => piece_meets b s <> true) l).
  { intros l. apply Forall_iff. intros s. by rewrite segMeetsBox_exact. }
  rewrite N. setoid_rewrite N. setoid_rewrite <- segMeetsBox_exact.
  destruct (list_find _ _) as [[k s]|] eqn:L.
  - apply list_find_Some in L as (Lk & M & First). split.
    + split; [lia|]. intros A. rewrite list.Forall_lookup in A. by destruct (A _ _ Lk).
    + intros k'. split.
      * intros <-%(inj Z.of_nat). split; [by exists s|]. apply list.Forall_lookup. intros j s' Hj.
        apply lookup_take_Some in Hj as [Hj Hlt]. by apply (First j).
      * intros [(s' & Hk' & M') A]. rewrite list.Forall_lookup in A. cut (k = k'); [by intros ->|].
        destruct (lt_eq_lt_dec k k') as [[Hlt|]|Hlt]; [|done|].
        -- destruct (A k s); [|done]. by rewrite lookup_take_lt.
        -- by destruct (First k' s' Hk' Hlt).
  - apply list_find_None in L. split; [by split|]. intros k'. split; [lia|].
    intros [(s & Hk & M) _]. rewrite list.Forall_lookup in L. by destruct (L _ _ Hk).
Qed.

(** ** The clipping as the program computes it *)

(** What comes out of rounding has the sign it was given, or is no number. *)
Lemma round_aux_sign s m e l x : binary_round_aux f64_prec f64_emax s m e l = x ->
  if s then f64_ltb f64_zero x = false else f64_ltb x f64_zero = false.
Proof.
  intros <-. unfold binary_round_aux. destruct (shr_fexp _ _ m e l) as [r1 e1].
  destruct (shr_fexp _ _ _ e1 loc_Exact) as [r2 e2]. destruct (shr_m r2); destruct s; try done; by destruct (_ <=? _)%Z.
Qed.

Lemma div_sign_neg q p : f64_ltb q f64_zero = false -> f64_ltb p f64_zero = true -> f64_ltb f64_zero (f64_div q p) = false.
Proof.
  unfold f64_div. destruct q as [[]|[]| |[] mq eq], p as [[]|[]| |[] mp ep]; cbn -[SFdiv_core_binary binary_round_aux]; try done.
  intros _ _. destruct (SFdiv_core_binary _ _ _ _ _ _) as [[m e] l]. by apply (round_aux_sign true m e l).
Qed.

Lemma div_sign_pos q p : f64_ltb q f64_zero = false -> f64_eqb p f64_zero = false -> f64_ltb p f64_zero = false ->
  f64_ltb (f64_div q p) f64_zero = false.
Proof.
  unfold f64_div. destruct q as [[]|[]| |[] mq eq], p as [[]|[]| |[] mp ep]; cbn -[SFdiv_core_binary binary_round_aux]; try done.
  intros _ _ _. destruct (SFdiv_core_binary _ _ _ _ _ _) as [[m e] l]. by apply (round_aux_sign false m e l).
Qed.

Lemma normalize_sign m e : 0 <= m -> f64_ltb (binary_normalize f64_prec f64_emax m e false) f64_zero = false.
Proof. intros H. apply f64_nonneg_not_neg. by apply binary_normalize_nonneg. Qed.

(** A difference that is not negative is not computed as a negative one. *)
Lemma sub_sign a b : is_float a -> is_float b -> f64_leb a b = true -> f64_ltb (f64_sub b a) f64_zero = false.
Proof.
  unfold is_float, f64_leb, f64_sub, SFleb. intros Va Vb L.
  destruct a as [sa|[]| |sa ma ea], b as [sb|[]| |sb mb eb]; cbn -[shl_align binary_normalize Z.sub bounded] in *;
    try destruct sa; try destruct sb; try done; apply normalize_sign; cbn [cond_Zopp].
  - assert (O : eb < ea \/ eb = ea /\ (mb <= ma)%positive).
    { destruct (Z.compare_spec ea eb) as [->|E|E]; [|done|by left]. right. split; [done|].
      change (Pos.compare_cont Eq ma mb) with (Pos.compare ma mb) in L. destruct (Pos.compare_spec ma mb); [lia|done|lia]. }
    pose proof (magnitude_order _ _ _ _ Vb Va O). lia.
  - lia.
  - assert (O : ea < eb \/ ea = eb /\ (ma <= mb)%positive).
    { destruct (Z.compare_spec ea eb) as [->|E|E]; [|by left|done]. right. split; [done|].
      change (Pos.compare_cont Eq ma mb) with (Pos.compare ma mb) in L. destruct (Pos.compare_spec ma mb); [lia|lia|done]. }
    pose proof (magnitude_order _ _ _ _ Va Vb O) as M. rewrite (Z.min_comm eb ea). lia.
Qed.

(** The part of the segment that is left starts at its start. *)
Definition from_start (t : f64 * f64) : Prop :=
  t.1 = f64_zero /\ f64_ltb t.2 f64_zero = false /\ f64_is_nan t.2 = false.

Lemma ltb_numbers a b : f64_ltb a b = true -> f64_is_nan a = false /\ f64_is_nan b = false.
Proof. destruct a as [[]|[]| |[] m e], b as [[]|[]| |[] m' e']; cbn; done. Qed.

Lemma clip_keeps_start t p q : from_start t -> f64_ltb q f64_zero = false ->
  exists t', clip t (p, q) = Some t' /\ from_start t'.
Proof.
  destruct t as [t0 t1]. intros (E0 & T & N) Q. cbn in E0. subst t0. unfold clip. cbn -[f64_div]. rewrite Q.
  assert (S : from_start (f64_zero, t1)) by done. cbn in T, N.
  destruct (f64_eqb p f64_zero) eqn:E; [by eexists|]. destruct (f64_ltb p f64_zero) eqn:P.
  - pose proof (div_sign_neg _ _ Q P) as R. destruct (f64_ltb t1 (f64_div q p)) eqn:L.
    + exfalso. destruct (ltb_numbers _ _ L) as [_ Nr]. cbn in N.
      pose proof (f64_not_less_trans (f64_div q p) f64_zero t1 Nr eq_refl N R T). congruence.
    + change (f64_ltb (S754_zero false)) with (f64_ltb f64_zero). rewrite R. by eexists.
  - pose proof (div_sign_pos _ _ Q E P) as R. change (f64_ltb (f64_div q p) (S754_zero false)) with (f64_ltb (f64_div q p) f64_zero).
    rewrite R. destruct (f64_ltb (f64_div q p) t1) eqn:L; [|by eexists]. eexists. split; [done|].
    by destruct (ltb_numbers _ _ L).
Qed.

Definition in_f64_box (b : Box f64) (x y : f64) : Prop :=
  f64_leb (X0 b) x = true /\ f64_leb x (X1 b) = true /\ f64_leb (Y0 b) y = true /\ f64_leb y (Y1 b) = true.
Definition box_of_floats (b : Box f64) : Prop := is_float (X0 b) /\ is_float (Y0 b) /\ is_float (X1 b) /\ is_float (Y1 b).

(** A segment that starts in a box meets it, whatever rounding does and wherever
    it leads. *)
Lemma start_is_seen b x0 y0 x1 y1 :
  box_of_floats b -> is_float x0 -> is_float y0 -> in_f64_box b x0 y0 -> segMeetsBox b x0 y0 x1 y1 = true.
Proof.
  intros (Bx & By & Bx' & By') Fx Fy (Hx & Hx' & Hy & Hy'). unfold segMeetsBox, edges. cbn [clip_all zero one minus negate at_most f64_arith].
  assert (S0 : from_start (f64_zero, f64_of_Z 1)) by done.
  destruct (clip_keeps_start _ (SFopp (f64_sub x1 x0)) _ S0 (sub_sign _ _ Bx Fx Hx)) as (t & -> & S1).
  destruct (clip_keeps_start _ (f64_sub x1 x0) _ S1 (sub_sign _ _ Fx Bx' Hx')) as (t' & -> & S2).
  destruct (clip_keeps_start _ (SFopp (f64_sub y1 y0)) _ S2 (sub_sign _ _ By Fy Hy)) as (t'' & -> & S3).
  destruct (clip_keeps_start _ (f64_sub y1 y0) _ S3 (sub_sign _ _ Fy By' Hy')) as ([u v] & -> & (Eu & V & N)).
  cbn in *. subst u. by destruct v as [|[]| |[]].
Qed.

(** ** What is accepted *)

Definition inside (b : Box f64) (x y : f64) : Prop :=
  f64_ltb (X0 b) x = true /\ f64_ltb x (X1 b) = true /\ f64_ltb (Y0 b) y = true /\ f64_ltb y (Y1 b) = true.

(** The frame, with the half unit that is tolerated around it. *)
Definition frame (c : Canvas) : Box f64 :=
  mkBox (f64_sub f64_zero tolerance) (f64_sub f64_zero tolerance) (f64_add (w c) tolerance) (f64_add (h c) tolerance).

Lemma ltb_trans a b c : f64_ltb a b = true -> f64_ltb b c = true -> f64_ltb a c = true.
Proof.
  intros L1 L2. destruct (ltb_numbers _ _ L1), (ltb_numbers _ _ L2). rewrite f64_ltb_rank in L1, L2 |- * by done.
  unfold rank_lt in *. lia.
Qed.

Lemma leb_ltb_trans a b c : f64_is_nan a = false -> f64_ltb b a = false -> f64_ltb b c = true -> f64_ltb a c = true.
Proof.
  intros Na L1 L2. destruct (ltb_numbers _ _ L2). apply not_true_iff_false in L1.
  rewrite f64_ltb_rank in L1 by done. rewrite f64_ltb_rank in L2 |- * by done. unfold rank_lt in *. lia.
Qed.

Lemma ltb_leb_trans a b c : f64_is_nan c = false -> f64_ltb c b = false -> f64_ltb a b = true -> f64_ltb a c = true.
Proof.
  intros Nc L1 L2. destruct (ltb_numbers _ _ L2). apply not_true_iff_false in L1.
  rewrite f64_ltb_rank in L1 by done. rewrite f64_ltb_rank in L2 |- * by done. unfold rank_lt in *. lia.
Qed.

Lemma shared_point_overlaps b o x y : inside b x y -> inside o x y -> overlaps b o = true.
Proof.
  intros (A1 & A2 & A3 & A4) (B1 & B2 & B3 & B4). unfold overlaps. cbn.
  by rewrite (ltb_trans _ _ _ A1 B2), (ltb_trans _ _ _ B1 A2), (ltb_trans _ _ _ A3 B4), (ltb_trans _ _ _ B3 A4).
Qed.

Lemma solid_pairs_elem es i j e f : (i < j)%nat -> es !! i = Some e -> es !! j = Some f ->
  solid e = opaque -> solid f = opaque -> (e, f) ∈ solid_pairs es.
Proof.
  revert i j. induction es as [|a es IH]; intros [|i] [|j] Hij He Hf Oe Of; try done; try lia; cbn in *.
  - injection He as ->. apply elem_of_app. left. unfold is_opaque. rewrite bool_decide_true by done.
    apply list_elem_of_fmap. exists f. split; [done|]. apply list_elem_of_filter. split; [by apply bool_decide_pack|].
    by apply list_elem_of_lookup_2 in Hf.
  - apply elem_of_app. right. apply (IH i j); [lia|done..].
Qed.

Lemma accepted c : Validate c = [] ->
  Forall (fun e => escapes c e = false) (elems c) /\
  Forall (fun p => overlaps (ebox p.1) (ebox p.2) = false) (solid_pairs (elems c)) /\
  (forall e cv, e ∈ elems c -> is_text e = true -> cv ∈ curves c -> sits_on e cv = []).
Proof.
  unfold Validate. intros [E1 [E2 E3]%app_nil]%app_nil. apply fmap_nil_inv in E1, E2. split_and!.
  - apply list.Forall_forall. intros e He. destruct (escapes c e) eqn:E; [|done].
    assert (e ∈ filter (escapes c) (elems c)) as X by (apply list_elem_of_filter; split; [by rewrite E|done]).
    rewrite E1 in X. by apply not_elem_of_nil in X.
  - apply list.Forall_forall. intros p Hp. destruct (overlaps _ _) eqn:E; [|done].
    match type of E2 with filter ?P ?l = [] => assert (p ∈ filter P l) as X by (apply list_elem_of_filter; split; [by rewrite E|done]) end.
    rewrite E2 in X. by apply not_elem_of_nil in X.
  - intros e cv He Ht Hc. destruct (sits_on e cv) as [|x l] eqn:S; [done|]. exfalso. apply (not_elem_of_nil x).
    rewrite <- E3. apply list_elem_of_bind. exists e. split.
    + apply list_elem_of_bind. exists cv. rewrite S. split; [left|done].
    + apply list_elem_of_filter. split; [by rewrite Ht|done].
Qed.

(** A drawing that is accepted can be read: in the program's own rounded
    arithmetic no point of an element is outside the frame, by more than the half
    unit that is tolerated; no point belongs to two labels or bars; and no vertex of
    a curve that another follows lies in the box of a label, widened by the
    clearance. *)
Theorem accepted_is_legible c : Validate c = [] ->
  f64_is_nan (f64_add (w c) tolerance) = false -> f64_is_nan (f64_add (h c) tolerance) = false ->
  (forall e x y, e ∈ elems c -> inside (ebox e) x y -> inside (frame c) x y) /\
  (forall i j e f x y, (i < j)%nat -> elems c !! i = Some e -> elems c !! j = Some f ->
     solid e = opaque -> solid f = opaque -> inside (ebox e) x y -> ~ inside (ebox f) x y) /\
  (forall e cv x0 y0 x1 y1, e ∈ elems c -> is_text e = true -> cv ∈ curves c -> (x0, y0, x1, y1) ∈ pieces (pts cv) ->
     box_of_floats (pad (ebox e)) -> is_float x0 -> is_float y0 -> ~ in_f64_box (pad (ebox e)) x0 y0).
Proof.
  intros V Nw Nh. apply accepted in V as (A1 & A2 & A3). split_and!.
  - intros e x y He (P1 & P2 & P3 & P4). rewrite list.Forall_forall in A1. specialize (A1 e He).
    unfold escapes in A1. rewrite !orb_false_iff in A1. destruct A1 as [[[B1 B2] B3] B4].
    unfold frame. split_and!; cbn [X0 X1 Y0 Y1].
    + by apply (leb_ltb_trans _ (X0 (ebox e))).
    + by apply (ltb_leb_trans _ (X1 (ebox e))).
    + by apply (leb_ltb_trans _ (Y0 (ebox e))).
    + by apply (ltb_leb_trans _ (Y1 (ebox e))).
  - intros i j e f x y Hij He Hf Oe Of Pe Pf. rewrite list.Forall_forall in A2.
    specialize (A2 (e, f) (solid_pairs_elem _ _ _ _ _ Hij He Hf Oe Of)). cbn in A2.
    by rewrite (shared_point_overlaps _ _ _ _ Pe Pf) in A2.
  - intros e cv x0 y0 x1 y1 He Ht Hc Hp B Fx Fy In. specialize (A3 e cv He Ht Hc). unfold sits_on, firstCrossing in A3.
    rewrite crossing_from_find in A3. destruct (list_find _ _) as [[k s]|] eqn:L.
    + by rewrite (proj2 (Z.leb_le _ _)) in A3 by lia.
    + apply list_find_None in L. rewrite list.Forall_forall in L. apply (L _ Hp). by apply start_is_seen.
Qed.

(** ** Coordinates read back *)

Lemma div_half_even_nearest n d : 0 < d -> 2 * Z.abs (div_half_even n d * d - n) <= d.
Proof.
  intros D. unfold div_half_even. pose proof (Z.div_mod n d ltac:(lia)) as E. pose proof (Z.mod_pos_bound n d D) as B.
  destruct ((d <? 2 * (n mod d)) || _) eqn:C.
  - assert (d <= 2 * (n mod d)).
    { apply orb_true_iff in C as [C|[C _]%andb_true_iff]; [apply Z.ltb_lt in C|apply Z.eqb_eq in C]; lia. }
    replace ((n / d + 1) * d - n) with (d - n mod d) by lia. lia.
  - apply orb_false_iff in C as [C _]. apply Z.ltb_ge in C. replace (n / d * d - n) with (- (n mod d)) by lia. lia.
Qed.

Lemma TrimPoint_app s t : t <> "" -> TrimPoint (s +:+ t) = s +:+ TrimPoint t.
Proof.
  intros H. induction s as [|c s IH]; [done|]. rewrite !str_app_cons. cbn [TrimPoint]. rewrite IH.
  replace (String.eqb (s +:+ t) "") with false; [by rewrite andb_false_r|]. symmetry. apply String.eqb_neq. by destruct s.
Qed.

(** What is left of two digits after the point. *)
Definition two_digits (r : Z) : string := zeros (Z.of_nat 2 - Z.of_nat (String.length (Itoa r))) +:+ Itoa r.
Definition fraction (r : Z) : string := TrimRightZeros (two_digits r).
Definition tail_text (r : Z) : string := match fraction r with "" => "" | f => String "." f end.

Definition fraction_ok (r : Z) : bool :=
  let f := fraction r in
  all_digits f && (String.length f <=? 2)%nat
  && (default 0 (digits_val 0 f) * 10 ^ (2 - Z.of_nat (String.length f)) =? r)
  && negb (String.eqb (TrimRightZeros (String "." (two_digits r))) "")
  && String.eqb (TrimPoint (TrimRightZeros (String "." (two_digits r)))) (tail_text r).

Lemma fraction_spec r : 0 <= r < 100 -> fraction_ok r = true.
Proof.
  intros H. assert (A : forallb fraction_ok (Z.of_nat <$> seq 0 100) = true) by (vm_compute; reflexivity).
  rewrite forallb_forall in A. apply A. apply list_elem_of_In, list_elem_of_fmap. exists (Z.to_nat r).
  split; [lia|]. apply elem_of_seq. lia.
Qed.

Lemma tail_text_no_digit r : no_digit (tail_text r).
Proof. unfold tail_text. by destruct (fraction r). Qed.

Lemma num_text sg n : sg = "" \/ sg = "-" -> 0 <= n ->
  TrimPoint (TrimRightZeros (sg +:+ decimal 2 n)) = sg +:+ Itoa (n / 100) +:+ tail_text (n mod 100).
Proof.
  intros Hs Hn. pose proof (fraction_spec (n mod 100) ltac:(apply Z.mod_pos_bound; lia)) as F.
  unfold fraction_ok in F. rewrite !andb_true_iff in F. destruct F as [[_ F1] F2%String.eqb_eq].
  apply negb_true_iff, String.eqb_neq in F1. unfold decimal. change (10 ^ Z.of_nat 2) with 100.
  change ("." +:+ ?z +:+ ?t) with (String "." (two_digits (n mod 100))).
  rewrite <- str_app_assoc, TrimRightZeros_app, TrimPoint_app, F2, str_app_assoc by done. done.
Qed.

(** The hundredths that are printed. *)
Definition hundredths (v : f64) : Z := match v with S754_finite s m e => cond_Zopp s (scaled 2 m e) | _ => 0 end.

Lemma scaled_nonneg prec m e : 0 <= scaled prec m e.
Proof.
  unfold scaled. pose proof (Z.pow_nonneg 10 (Z.of_nat prec)) as P. destruct (0 <=? e) eqn:E.
  - apply Z.leb_le in E. pose proof (Z.pow_nonneg 2 e). nia.
  - apply Z.leb_gt in E. unfold div_half_even. pose proof (Z.pow_pos_nonneg 2 (- e) ltac:(lia) ltac:(lia)).
    pose proof (Z.div_pos (Zpos m * 10 ^ Z.of_nat prec) (2 ^ (- e)) ltac:(nia) ltac:(lia)). destruct (_ || _); lia.
Qed.

Lemma text_reads (neg : bool) n : 0 <= n ->
  let s := (if neg then "-" else "") +:+ Itoa (n / 100) +:+ tail_text (n mod 100) in
  number s /\ exists m k, 0 <= k <= 2 /\ decimal_parts s = (neg, m, - k) /\ m * 10 ^ (2 - k) = n.
Proof.
  intros Hn. pose proof (fraction_spec (n mod 100) ltac:(apply Z.mod_pos_bound; lia)) as F.
  unfold fraction_ok in F. rewrite !andb_true_iff in F. destruct F as [[[[F1 F2%Nat.leb_le] F3%Z.eqb_eq] _] _].
  assert (Hq : 0 <= n / 100) by (apply Z.div_pos; lia).
  destruct (Itoa_digits (n / 100) Hq) as (c & t & E & I & D & V). split.
  - rewrite <- (str_app_empty (tail_text _)). apply sign_number; [destruct neg; auto|done| |by left].
    unfold tail_text. destruct (fraction (n mod 100)) as [|a f] eqn:Ef; [by left|]. right. by exists (String a f).
  - exists (default 0 (digits_val 0 (Itoa (n / 100) +:+ fraction (n mod 100)))), (Z.of_nat (String.length (fraction (n mod 100)))).
    split; [lia|]. split.
    + unfold decimal_parts.
      assert (M : lex_minus ((if neg then "-" else "") +:+ Itoa (n / 100) +:+ tail_text (n mod 100))
        = (if neg then "-" else "", Itoa (n / 100) +:+ tail_text (n mod 100))).
      { destruct neg; [done|]. rewrite str_app_nil, E, str_app_cons. apply digit_not_minus. rewrite E in D. simpl in D.
        by apply andb_true_iff in D as [D _]. }
      rewrite M, take_digits_read by (done || apply tail_text_no_digit). unfold tail_text.
      destruct (fraction (n mod 100)) as [|a f] eqn:Ef; [by destruct neg|].
      rewrite (Ascii.eqb_refl "."). rewrite <- (str_app_empty (String a f)) at 1. rewrite take_digits_read by done.
      by destruct neg.
    + rewrite digits_val_app, V, digits_val_acc by done. change (default 0 (Some ?x)) with x.
      rewrite Z.mul_add_distr_r, F3, <- Z.mul_assoc, <- Z.pow_add_r by lia.
      replace (Z.of_nat (String.length (fraction (n mod 100))) + (2 - Z.of_nat (String.length (fraction (n mod 100))))) with 2 by lia.
      pose proof (Z.div_mod n 100). lia.
Qed.

Lemma num_finite (neg : bool) n : 0 <= n -> TrimPoint (TrimRightZeros ((if neg then "-" else "") +:+ decimal 2 n))
  = (if neg then "-" else "") +:+ Itoa (n / 100) +:+ tail_text (n mod 100).
Proof. intros H. apply num_text; [destruct neg; auto|done]. Qed.

(** A zero is written without a sign. *)
Lemma num_cases v : f64_finite v = true ->
  (num v = "0" /\ hundredths v = 0) \/
  exists (neg : bool) n, 0 <= n /\ hundredths v = cond_Zopp neg n /\
    num v = (if neg then "-" else "") +:+ Itoa (n / 100) +:+ tail_text (n mod 100).
Proof.
  destruct v as [s|s| |s m e]; try done; [by left; destruct s|]. intros _.
  pose proof (scaled_nonneg 2 m e) as N. destruct (text_reads s _ N) as (_ & m' & k & K & R & V).
  cbn zeta in R. unfold num, FormatFixed. rewrite num_finite by done.
  destruct (_ || _) eqn:Z; [left|right; by exists s, (scaled 2 m e)]. split; [done|].
  apply orb_true_iff in Z as [Z%String.eqb_eq|Z%String.eqb_eq]; rewrite Z in R; injection R as _ <- _;
    cbn in V |- *; rewrite <- V; by destruct s.
Qed.

(** A coordinate is written as it is, to the hundredth: the text of a finite
    number is a number of JSON's grammar (and so of SVG's) with at most two digits
    after the point, and reads back as the nearest hundredth, halves to even. *)
Theorem num_reads_back v : f64_finite v = true ->
  number (num v) /\
  (exists neg m k, decimal_parts (num v) = (neg, m, - k) /\ 0 <= k <= 2 /\ cond_Zopp neg (m * 10 ^ (2 - k)) = hundredths v) /\
  match v with
  | S754_finite s m e =>
      if 0 <=? e then hundredths v = cond_Zopp s (Zpos m * 100 * 2 ^ e)
      else 2 * Z.abs (hundredths v * 2 ^ (- e) - cond_Zopp s (Zpos m * 100)) <= 2 ^ (- e)
  | _ => hundredths v = 0
  end.
Proof.
  intros Fv. apply and_assoc. split.
  - destruct (num_cases v Fv) as [[-> ->]|(neg & n & Hn & -> & ->)].
    + split; [|by exists false, 0, 0]. exists "", "0", "", "". split_and!; [done|by left|by left|by left|by left].
    + destruct (text_reads neg n Hn) as (N & m & k & K & R & <-). split; [done|]. by exists neg, m, k.
  - destruct v as [s|s| |s m e]; try done. unfold hundredths, scaled. change (10 ^ Z.of_nat 2) with 100.
    destruct (0 <=? e) eqn:E; [done|]. apply Z.leb_gt in E.
    pose proof (div_half_even_nearest (Zpos m * 100) (2 ^ (- e)) ltac:(lia)). destruct s; cbn [cond_Zopp]; lia.
Qed.

(** *** The counts of the report *)

Lemma filter_cons_length {A} (P : A -> Prop) `{!forall x, Decision (P x)} x l :
  length (filter P (x :: l)) = (length (filter P l) + if decide (P x) then 1 else 0)%nat.
Proof. rewrite filter_cons. destruct (decide (P x)); cbn; lia. Qed.

(** As many comparisons of solid elements as are reported. *)
Lemma solid_pairs_count es : 2 * Z.of_nat (length (solid_pairs es))
  = Z.of_nat (length (filter is_opaque es)) * (Z.of_nat (length (filter is_opaque es)) - 1).
Proof.
  induction es as [|e es IH]; [done|]. cbn [solid_pairs]. rewrite filter_cons_length, length_app.
  destruct (is_opaque e) eqn:O.
  - rewrite decide_True by done. rewrite length_fmap. lia.
  - rewrite decide_False by (by intros []). cbn. lia.
Qed.

Lemma pieces_count {F} (pts : list F) : (2 <= length pts)%nat -> Z.of_nat (length (pieces pts)) = Z.of_nat (length pts) ÷ 2 - 1.
Proof.
  induction pts as [pts IH] using (induction_ltof1 _ (@length _)). unfold ltof in IH. intros L.
  destruct pts as [|x0 [|y0 [|x1 [|y1 rest]]]]; try (cbn in L; lia); [done|done|].
  change (pieces _) with ((x0, y0, x1, y1) :: pieces (x1 :: y1 :: rest)). cbn [length].
  specialize (IH (x1 :: y1 :: rest) ltac:(cbn; lia) ltac:(cbn; lia)). cbn [length] in IH.
  rewrite Nat2Z.inj_succ, IH, !Nat2Z.inj_succ. rewrite !Z.quot_div_nonneg by lia.
  replace (Z.succ (Z.succ (Z.succ (Z.succ (Z.of_nat (length rest)))))) with (Z.succ (Z.succ (Z.of_nat (length rest))) + 1 * 2) by lia.
  rewrite Z.div_add by lia. lia.
Qed.

(** *** Instances: the cases of svg_test.go *)

Module CanvasExample.
Definition blank : Canvas := NewCanvas (int 400) (int 200).
Definition says (text : string) (x y : Z) : Canvas -> Canvas :=
  Text (mkLabel text (int x) (int y) (int 12) AnchorStart WeightNormal classInk).
Definition box (x0 y0 x1 y1 : Z) : Box f64 := mkBox (int x0) (int y0) (int x1) (int y1).

Definition clean : Canvas :=
  Polyline (int <$> [10; 150; 390; 190]) classRightLine (says "right" 200 30 (says "left" 10 30 blank)).

Example a_clean_layout : Validate clean = [].
Proof. vm_compute. reflexivity. Qed.

Example overlapping_labels :
  length (Validate (says "sitting on top" 20 32 (says "a long label" 10 30 blank))) = 1%nat.
Proof. vm_compute. reflexivity. Qed.

Example label_over_a_bar :
  length (Validate (says "over the bar" 60 70 (Rect (box 50 50 300 80) classWrong opaque blank))) = 1%nat.
Proof. vm_compute. reflexivity. Qed.

Example label_over_a_band : Validate (says "inside the band" 60 70 (Rect (box 50 50 300 80) classBand backdrop blank)) = [].
Proof. vm_compute. reflexivity. Qed.

Example label_on_a_curve :
  length (Validate (says "on the line" 100 102 (Polyline (int <$> [10; 100; 390; 100]) classRightLine blank))) = 1%nat.
Proof. vm_compute. reflexivity. Qed.

Example label_past_the_edge : length (Validate (says "hanging off the right edge" 380 30 blank)) = 1%nat.
Proof. vm_compute. reflexivity. Qed.

Example a_segment_and_a_box :
  segMeetsBox (box 100 100 200 120) (int 0) (int 0) (int 90) (int 10) = false /\
  segMeetsBox (box 100 100 200 120) (int 0) (int 110) (int 300) (int 110) = true.
Proof. split; vm_compute; reflexivity. Qed.

(** What has no place is nowhere outside the frame. *)
Example no_place_is_accepted : Validate (Rect (mkBox S754_nan S754_nan S754_nan S754_nan) classWrong opaque blank) = [].
Proof. vm_compute. reflexivity. Qed.

(** A curve without points counts for one segment less than none. *)
Example an_empty_curve_is_counted :
  Report (Polyline [] classRightLine (says "left" 10 30 blank))
  = "400x200, 2 elements, 1 labels, 2 frame checks, 0 solid pairs, -1 label/segment pairs".
Proof. vm_compute. reflexivity. Qed.

Example accepted_is_legible_witness :
  ~ in_f64_box (pad (ebox (mkElement "text" "left" (textBox (mkLabel "left" (int 10) (int 30) (int 12) AnchorStart WeightNormal classInk)) opaque)))
      (int 10) (int 150).
Proof.
  destruct (accepted_is_legible clean) as (_ & _ & L); [vm_compute; reflexivity..|].
  refine (L _ (mkCurve classRightLine (int <$> [10; 150; 390; 190])) (int 10) (int 150) (int 390) (int 190) _ _ _ _ _ _ _).
  - left.
  - reflexivity.
  - left.
  - left.
  - vm_compute. repeat split.
  - vm_compute. reflexivity.
  - vm_compute. reflexivity.
Defined.

Definition third : f64 := f64_ratio 1 3.
Example num_reads_back_witness : hundredths third = 33 /\ number (num third).
Proof. split; [vm_compute; reflexivity|exact (proj1 (num_reads_back third eq_refl))]. Defined.
End CanvasExample.
