(* ===== verification/Figures.v ===== *)
(** * The figures (cmd/plot: data.go, scale.go, sweep.go, overhead.go, main.go)

    Two figures of the repository's documentation, from the bytes of a result
    file to the bytes of the drawing: what is read of a study and of a load test,
    what is refused, the scales, and every element that is drawn. *)

From Stdlib Require Import ZArith Lia SpecFloat String Ascii.
From stdpp Require Import base gmap strings list numbers.
From S2P Require Import Prelude Float64 GoString Json JsonLine Canvas.

Local Open Scope Z_scope.

(** ** Results (data.go) *)

(** A JSON object into a Go map: a value is decoded afresh, a second one of the
    same key replaces the first. *)
Fixpoint dec_entries {A} (zero : A) (d : decoder A) (ms : list (string * string)) (old : gmap string A)
    : gmap string A * bool :=
  match ms with
  | [] => (old, true)
  | (k, t) :: ms =>
      let '(v, ok) := d t zero in
      let '(m, oks) := dec_entries zero d ms (<[k := v]> old) in
      (m, ok && oks)
  end.
Definition dec_map {A} (zero : A) (d : decoder A) : decoder (gmap string A) := fun raw old =>
  match tree_of raw with
  | JObj _ => dec_entries zero d (members raw) old
  | JNull => (∅, true)
  | _ => (old, false)
  end.

Record LabelCounts := mkLabelCounts {
  N : Z; Hits : Z; CorrectHits : Z; FalseHits : Z; CorrectHitRate : f64; FalseHitRate : f64
}.
Definition zeroCounts : LabelCounts := mkLabelCounts 0 0 0 0 f64_zero f64_zero.
Definition dec_counts : decoder LabelCounts := dec_struct
  [("n", at_field N (fun v l => mkLabelCounts v (Hits l) (CorrectHits l) (FalseHits l) (CorrectHitRate l) (FalseHitRate l)) dec_int);
   ("hits", at_field Hits (fun v l => mkLabelCounts (N l) v (CorrectHits l) (FalseHits l) (CorrectHitRate l) (FalseHitRate l)) dec_int);
   ("correct_hits", at_field CorrectHits (fun v l => mkLabelCounts (N l) (Hits l) v (FalseHits l) (CorrectHitRate l) (FalseHitRate l)) dec_int);
   ("false_hits", at_field FalseHits (fun v l => mkLabelCounts (N l) (Hits l) (CorrectHits l) v (CorrectHitRate l) (FalseHitRate l)) dec_int);
   ("correct_hit_rate", at_field CorrectHitRate (fun v l => mkLabelCounts (N l) (Hits l) (CorrectHits l) (FalseHits l) v (FalseHitRate l)) dec_float);
   ("false_hit_rate", at_field FalseHitRate (fun v l => mkLabelCounts (N l) (Hits l) (CorrectHits l) (FalseHits l) (CorrectHitRate l) v) dec_float)]%string.

Record SweepPoint := mkSweepPoint { Threshold : f64; Labels : gmap string LabelCounts }.
Definition zeroPoint : SweepPoint := mkSweepPoint f64_zero ∅.
Definition dec_point : decoder SweepPoint := dec_struct
  [("threshold", at_field Threshold (fun v p => mkSweepPoint v (Labels p)) dec_float);
   ("labels", at_field Labels (fun v p => mkSweepPoint (Threshold p) v) (dec_map zeroCounts dec_counts))]%string.

Record corpus_part := mkCorpusPart { Groups : Z; ProbesByLabel : gmap string Z; DistinctPrompt : Z }.
Definition dec_corpus_part : decoder corpus_part := dec_struct
  [("groups", at_field Groups (fun v c => mkCorpusPart v (ProbesByLabel c) (DistinctPrompt c)) dec_int);
   ("probes_by_label", at_field ProbesByLabel (fun v c => mkCorpusPart (Groups c) v (DistinctPrompt c)) (dec_map 0 dec_int));
   ("distinct_prompts_embedded", at_field DistinctPrompt (fun v c => mkCorpusPart (Groups c) (ProbesByLabel c) v) dec_int)]%string.

Record embedder_part := mkEmbedderPart { Model : string; Dimensions : Z }.
Definition dec_embedder_part : decoder embedder_part := dec_struct
  [("model", at_field Model (fun v e => mkEmbedderPart v (Dimensions e)) dec_string);
   ("dimensions", at_field Dimensions (fun v e => mkEmbedderPart (Model e) v) dec_int)]%string.

Record verdict_part := mkVerdictPart { BestMarginThreshold : f64; BestMarginPP : f64; Separable : bool }.
Definition dec_verdict_part : decoder verdict_part := dec_struct
  [("best_margin_threshold", at_field BestMarginThreshold (fun v p => mkVerdictPart v (BestMarginPP p) (Separable p)) dec_float);
   ("best_margin_pp", at_field BestMarginPP (fun v p => mkVerdictPart (BestMarginThreshold p) v (Separable p)) dec_float);
   ("separable", at_field Separable (fun v p => mkVerdictPart (BestMarginThreshold p) (BestMarginPP p) v) dec_bool)]%string.

Record CacheStudy := mkCacheStudy {
  Corpus : corpus_part; Embedder : embedder_part; Sweep : slice SweepPoint; Verdict : verdict_part
}.
Definition zeroStudy : CacheStudy :=
  mkCacheStudy (mkCorpusPart 0 ∅ 0) (mkEmbedderPart "" 0) nil_slice (mkVerdictPart f64_zero f64_zero false).
Definition dec_study : decoder CacheStudy := dec_struct
  [("corpus", at_field Corpus (fun v s => mkCacheStudy v (Embedder s) (Sweep s) (Verdict s)) dec_corpus_part);
   ("embedder", at_field Embedder (fun v s => mkCacheStudy (Corpus s) v (Sweep s) (Verdict s)) dec_embedder_part);
   ("sweep", at_field Sweep (fun v s => mkCacheStudy (Corpus s) (Embedder s) v (Verdict s)) (dec_slice zeroPoint dec_point));
   ("verdict", at_field Verdict (fun v s => mkCacheStudy (Corpus s) (Embedder s) (Sweep s) v) dec_verdict_part)]%string.

Definition labelParaphrase : string := "paraphrase".
Definition labelOpposite : string := "opposite".
Definition shippedFloor : f64 := dec 95 100.

Definition abs (v : f64) : f64 := if f64_ltb v f64_zero then SFopp v else v.

Definition findThreshold (s : CacheStudy) (t : f64) : option SweepPoint :=
  snd <$> list_find (fun p => f64_ltb (abs (f64_sub (Threshold p) t)) (dec 1 1000000000) = true) (slice_list (Sweep s)).

(** Why a result is not drawn. *)
Inductive plot_error :=
| Unreadable | Malformed | NoSweep | MissingLabel (threshold : f64) (label : string) | FloorNotSwept
| NoMetric (arm : string) | NoStatistic (arm key : string) | BadLayout (file : string) (ps : list problem)
| Unwritable (file : string).

(** [file]: what reading the path gives. *)
Definition readJSON {A} (file : option string) (d : decoder A) (zero : A) : A + plot_error :=
  match file with
  | None => inr Unreadable
  | Some raw => match Unmarshal d raw zero with Some v => inl v | None => inr Malformed end
  end.

Definition missing (p : SweepPoint) : option plot_error :=
  match Labels p !! labelParaphrase with
  | None => Some (MissingLabel (Threshold p) labelParaphrase)
  | Some _ => match Labels p !! labelOpposite with
              | None => Some (MissingLabel (Threshold p) labelOpposite)
              | Some _ => None
              end
  end.

Definition loadCacheStudy (file : option string) : CacheStudy + plot_error :=
  match readJSON file dec_study zeroStudy with
  | inr e => inr e
  | inl s =>
      match slice_list (Sweep s) with
      | [] => inr NoSweep
      | ps =>
          match omap missing ps with
          | e :: _ => inr e
          | [] => match findThreshold s shippedFloor with None => inr FloorNotSwept | Some _ => inl s end
          end
      end
  end.

(** *** A comparison *)

Definition k6Summary : Type := gmap string (gmap string f64).
Definition dec_summary : decoder k6Summary := dec_struct
  [("metrics", dec_map ∅ (dec_struct [("values", dec_map f64_zero dec_float)]))]%string.

Definition armDirect : string := "direct_latency".
Definition armDirectRecheck : string := "direct_recheck_latency".
Definition armPenstock : string := "penstock_latency".
Definition armLiteLLM : string := "litellm_latency".

Record Statistic := mkStatistic { SName : string; Key : string }.
Definition statistics : list Statistic :=
  [mkStatistic "mean" "avg"; mkStatistic "p50" "p(50)"; mkStatistic "p95" "p(95)"; mkStatistic "p99" "p(99)"].

Record Overhead := mkOverhead { StatisticOf : string; Penstock : f64; LiteLLM : f64; NoiseFloor : f64 }.
Definition BelowFloor (o : Overhead) : bool := f64_ltb (abs (Penstock o)) (NoiseFloor o).

Record Comparison := mkComparison { Run : string; Overheads : list Overhead; Samples : Z }.

Definition value (s : k6Summary) (arm key : string) : f64 + plot_error :=
  match s !! arm with
  | None => inr (NoMetric arm)
  | Some values => match values !! key with None => inr (NoStatistic arm key) | Some v => inl v end
  end.

(** [let! x := r in k]: the first error is the answer. *)
Definition sum_bind {A B E} (r : A + E) (k : A -> B + E) : B + E :=
  match r with inl x => k x | inr e => inr e end.
Notation "'let!' x := r 'in' k" := (sum_bind r (fun x => k)) (at level 200, x pattern, r at level 100, k at level 200).

Definition overhead_of (s : k6Summary) (st : Statistic) : Overhead + plot_error :=
  let! direct := value s armDirect (Key st) in
  let! recheck := value s armDirectRecheck (Key st) in
  let! penstock := value s armPenstock (Key st) in
  let! litellm := value s armLiteLLM (Key st) in
  inl (mkOverhead (SName st) (f64_sub penstock direct) (f64_sub litellm direct) (abs (f64_sub recheck direct))).

Fixpoint overheads_of (s : k6Summary) (l : list Statistic) : list Overhead + plot_error :=
  match l with
  | [] => inl []
  | st :: l => let! o := overhead_of s st in let! os := overheads_of s l in inl (o :: os)
  end.

Definition summarySuffix : string := ".summary.json".
Definition trimSummarySuffix (name : string) : string :=
  let n := (String.length name - String.length summarySuffix)%nat in
  if (String.length summarySuffix <? String.length name)%nat && String.eqb (drop_bytes n name) summarySuffix
  then take_bytes n name else name.

(** [filepath.Base] of a path whose last element is the file [name] is [name]. *)
Definition loadComparison (name : string) (file : option string) : Comparison + plot_error :=
  let! s := readJSON file dec_summary ∅ in
  let! os := overheads_of s statistics in
  inl (mkComparison (trimSummarySuffix name) os
         match value s armDirect "count" with inl n => f64_to_int64 n | inr _ => 0 end).

(** ** Scales (scale.go) *)

Record Scale := mkScale { d0 : f64; d1 : f64; p0 : f64; p1 : f64 }.
Definition NewScale (d0 d1 p0 p1 : f64) : Scale := mkScale d0 d1 p0 p1.

Definition At (s : Scale) (v : f64) : f64 :=
  if f64_eqb (d1 s) (d0 s) then p0 s
  else f64_add (p0 s) (f64_mul (f64_div (f64_sub v (d0 s)) (f64_sub (d1 s) (d0 s))) (f64_sub (p1 s) (p0 s))).
Definition Span (s : Scale) (v : f64) : f64 := f64_sub (At s (f64_add (d0 s) v)) (p0 s).

(** ** Drawing *)

Definition draw (ops : list (Canvas -> Canvas)) (c : Canvas) : Canvas := foldl (fun c op => op c) c ops.
Definition label (text : string) (x y size : f64) (a : Anchor) (wt : Weight) (class : string) : Canvas -> Canvas :=
  Text (mkLabel text x y size a wt class).

(** The values of [for v := from; v <= to; v += step]. *)
Fixpoint steps (fuel : nat) (v step to : f64) : option (list f64) :=
  if f64_leb v to then
    match fuel with
    | O => None
    | S fuel => cons v <$> steps fuel (f64_add v step) step to
    end
  else Some [].

(** What is drawn: the canvas, its title and its description. *)
Definition drawing : Type := Canvas * string * string.

Definition cacheStudyFile : string := "cache-study-20260806T233311Z.json".
Definition compareFile : string := "compare-linux-uvicorn-w1-20260807T011936Z.summary.json".

(** *** The threshold sweep (sweep.go) *)

Definition sweepHeight : f64 := int 430.
Definition sweepPlotLeft : f64 := int 62.
Definition sweepPlotRight : f64 := int 674.
Definition sweepPlotTop : f64 := int 84.
Definition sweepPlotBottom : f64 := int 352.
Definition sweepValueTop : f64 := int 96.
Definition sweepThresholdMin : f64 := dec 80 100.
Definition sweepThresholdMax : f64 := dec 99 100.
Definition markerRadius : f64 := dec 34 10.

Definition seriesPoints (s : CacheStudy) (x y : Scale) (lbl : string) (pick : LabelCounts -> f64) : list f64 :=
  p ← slice_list (Sweep s);
  [At x (Threshold p); At y (f64_mul (pick (default zeroCounts (Labels p !! lbl))) (int 100))].

(** One mark for each pair of coordinates. *)
Fixpoint marks (mark : f64 -> f64 -> Canvas -> Canvas) (pts : list f64) : list (Canvas -> Canvas) :=
  match pts with x :: y :: pts => mark x y :: marks mark pts | _ => [] end.

Definition value_rule (y : Scale) (v : f64) : list (Canvas -> Canvas) :=
  let gy := At y v in
  [Line sweepPlotLeft gy sweepPlotRight gy classRule;
   label (FormatFixed 0 v) (int (62 - 8)) (f64_add gy (int 4)) sizeTick AnchorEnd WeightNormal classInk].

Definition threshold_tick (x : Scale) (t : f64) : Canvas -> Canvas :=
  label (FormatFixed 2 t) (At x t) (int (352 + 20)) sizeTick AnchorMiddle WeightNormal classInk.

(** [None]: the floor is not swept, a nil pointer. *)
Definition drawThresholdSweep (s : CacheStudy) : option drawing :=
  let x := NewScale sweepThresholdMin sweepThresholdMax sweepPlotLeft sweepPlotRight in
  let y := NewScale f64_zero (int 100) sweepPlotBottom sweepValueTop in
  let fx := At x shippedFloor in
  let wrong := seriesPoints s x y labelOpposite FalseHitRate in
  let right := seriesPoints s x y labelParaphrase CorrectHitRate in
  let rate (p : SweepPoint) lbl pick := f64_mul (pick (default zeroCounts (Labels p !! lbl))) (int 100) in
  atFloor ← findThreshold s shippedFloor;
  rules ← steps 6 f64_zero (int 20) (int 100);
  let opposites := FormatFixed 0 (rate atFloor labelOpposite FalseHitRate) in
  let paraphrases := FormatFixed 0 (rate atFloor labelParaphrase CorrectHitRate) in
  let c := draw
    ([label "No similarity threshold separates a paraphrase from its opposite" (int 14) (int 26) sizeTitle
        AnchorStart WeightBold classInk;
      label (Itoa (DistinctPrompt (Corpus s)) +:+ " labelled probes over " +:+ Itoa (Groups (Corpus s))
             +:+ " question groups, embedded with " +:+ Model (Embedder s) +:+ " (" +:+ Itoa (Dimensions (Embedder s))
             +:+ " dimensions)") (int 14) (int 46) sizeSubtitle AnchorStart WeightNormal classInk;
      label "cache hit rate (% of that group's probes)" (int 14) (int 72) sizeAxis AnchorStart WeightNormal classInk]
     ++ (v ← rules; value_rule y v)
     ++ [Line sweepPlotLeft sweepPlotBottom sweepPlotRight sweepPlotBottom classAxis]
     ++ (threshold_tick x <$> [dec 80 100; dec 85 100; dec 90 100; dec 95 100; dec 99 100])
     ++ [label "cosine similarity threshold" (f64_ratio (62 + 674) 2) (int (352 + 40)) sizeAxis AnchorMiddle WeightNormal classInk;
         Line fx sweepPlotTop fx sweepPlotBottom classMark;
         label "0.95, the floor Penstock enforces" fx (int (84 - 6)) sizeTick AnchorMiddle WeightNormal classInk;
         Polyline right classRightLine; Polyline wrong classWrongLine]
     ++ marks (fun x y => Square x y markerRadius classWrong) wrong
     ++ marks (fun x y => Circle x y markerRadius classRight) right
     ++ [label "opposite meaning (wrong answers)" (int 440) (int 130) sizeAnnot AnchorStart WeightNormal classWrong;
         Line (int 462) (int 137) (int 466) (int 184) classLead;
         label "paraphrase (right answers)" (int 390) (int 294) sizeAnnot AnchorEnd WeightNormal classRight;
         Line (int 394) (int 290) (int 495) (int 244) classLead;
         label (opposites +:+ "% of opposites") (f64_add fx (int 8)) (int 228) sizeAnnot AnchorStart WeightNormal classWrong;
         label (paraphrases +:+ "% of paraphrases") (f64_sub fx (int 8)) (int 305) sizeAnnot AnchorEnd WeightNormal classRight;
         label ("Source: bench/results/" +:+ cacheStudyFile +:+ ". Method and caveats: docs/cache-quality.md") (int 14) (int 414)
           sizeFootnote AnchorStart WeightNormal classInk])
    (NewCanvas figureWidth sweepHeight) in
  Some (c, "Semantic cache hit rate against false hit rate, by similarity threshold",
    "Two curves over cosine similarity thresholds " +:+ FormatFixed 2 sweepThresholdMin +:+ " to "
    +:+ FormatFixed 2 sweepThresholdMax +:+ ". The false hit rate on opposite-meaning questions runs level with or above "
    +:+ "the correct hit rate on paraphrases across most of the range, so no threshold separates them. At the shipped floor of "
    +:+ FormatFixed 2 shippedFloor +:+ " the tier serves " +:+ opposites +:+ "% of opposites from cache and " +:+ paraphrases
    +:+ "% of paraphrases.")%string.

(** *** The overhead (overhead.go) *)

Definition overheadHeight : f64 := int 400.
Definition overheadPlotLeft : f64 := int 118.
Definition overheadPlotRight : f64 := int 566.
Definition overheadRowsTop : f64 := int 82.
Definition overheadRowHeight : f64 := int 50.
Definition overheadLabelRight : f64 := int 104.
Definition overheadBarHeight : f64 := int 15.
Definition overheadTickStep : f64 := int 4.

(** [math.Max]: an infinity before a NaN. *)
Definition math_Max (x y : f64) : f64 :=
  match x, y with
  | S754_infinity false, _ | _, S754_infinity false => S754_infinity false
  | _, _ => f64_max x y
  end.

(** [for domainMax < target { domainMax += overheadTickStep }]. *)
Fixpoint raise (fuel : nat) (domainMax target : f64) : option f64 :=
  if f64_ltb domainMax target then
    match fuel with O => None | S fuel => raise fuel (f64_add domainMax overheadTickStep) target end
  else Some domainMax.

Definition target (o : Overhead) : f64 := f64_mul (math_Max (LiteLLM o) (Penstock o)) (dec 102 100).

Fixpoint domain (fuel : nat) (domainMax : f64) (os : list Overhead) : option f64 :=
  match os with
  | [] => Some domainMax
  | o :: os => d ← raise fuel domainMax (target o); domain fuel d os
  end.

Definition signed (ms : f64) : string := FormatSigned 2 ms +:+ " ms".

Definition bar (x : Scale) (zero top v : f64) (class text : string) : list (Canvas -> Canvas) :=
  let stop := At x v in
  [Rect (normalize zero top stop (f64_add top overheadBarHeight)) class opaque;
   label text (f64_add (math_Max zero stop) (int 8)) (f64_sub (f64_add top overheadBarHeight) (dec 35 10)) sizeAnnot
     AnchorStart WeightNormal class].

Definition latency_tick (x : Scale) (rowsBottom v : f64) : list (Canvas -> Canvas) :=
  let gx := At x v in
  [Line gx overheadRowsTop gx rowsBottom (if f64_eqb v f64_zero then classAxis else classRule);
   label (FormatFixed 0 v) gx (f64_add rowsBottom (int 20)) sizeTick AnchorMiddle WeightNormal classInk].

Definition overhead_row (x : Scale) (zero : f64) (i : nat) (o : Overhead) : list (Canvas -> Canvas) :=
  let yc := f64_add overheadRowsTop (f64_mul overheadRowHeight (f64_add (int (Z.of_nat i)) (dec 1 2))) in
  let note := if BelowFloor o then " (below the noise floor)" else "" in
  [Rect (mkBox (At x (SFopp (NoiseFloor o))) (f64_sub yc (int 20)) (At x (NoiseFloor o)) (f64_add yc (int 20)))
     classBand backdrop;
   label (StatisticOf o) overheadLabelRight (f64_sub yc (int 4)) sizeTick AnchorEnd WeightBold classInk;
   label ("floor " +:+ FormatFixed 2 (NoiseFloor o) +:+ " ms") overheadLabelRight (f64_add yc (int 13)) sizeFootnote
     AnchorEnd WeightNormal classInk]
  ++ bar x zero (f64_sub (f64_sub yc overheadBarHeight) (int 3)) (Penstock o) classRight
       ("Penstock " +:+ signed (Penstock o) +:+ note)
  ++ bar x zero (f64_add yc (int 3)) (LiteLLM o) classWrong ("LiteLLM " +:+ signed (LiteLLM o)).

(** [None]: the fuel does not bring the axis past a value, or there is no
    statistic to describe (an index out of range). *)
Definition drawOverhead (fuel : nat) (cmp : Comparison) : option drawing :=
  domainMax ← domain fuel overheadTickStep (Overheads cmp);
  let x := NewScale (int (-2)) domainMax overheadPlotLeft overheadPlotRight in
  let zero := At x f64_zero in
  let rowsBottom := f64_add overheadRowsTop (f64_mul overheadRowHeight (int (Z.of_nat (length (Overheads cmp))))) in
  ticks ← steps (S (S fuel)) f64_zero overheadTickStep domainMax;
  let c := draw
    ([label "LiteLLM adds about 12 ms per request, Penstock about 1 ms" (int 14) (int 26) sizeTitle AnchorStart
        WeightBold classInk;
      label ("Linux, LiteLLM 1.95.0 on uvicorn with uvloop confirmed loaded. " +:+ Itoa (Samples cmp)
             +:+ " samples per arm at 20 requests/s.") (int 14) (int 46) sizeSubtitle AnchorStart WeightNormal classInk]
     ++ (v ← ticks; latency_tick x rowsBottom v)
     ++ [label "added latency vs no gateway (ms)" (f64_ratio (118 + 566) 2) (f64_add rowsBottom (int 40)) sizeAxis
           AnchorMiddle WeightNormal classInk]
     ++ concat (imap (overhead_row x zero) (Overheads cmp))
     ++ [label ("Grey band is this run's own noise floor: the gap between two identical " +:+ "no-gateway arms of the same run.")
           (int 14) (int 344) sizeFootnote AnchorStart WeightNormal classInk;
         label ("Percentile rows are differences of quantiles. Only the mean row is " +:+ "exactly the mean per request overhead.")
           (int 14) (int 360) sizeFootnote AnchorStart WeightNormal classInk;
         label ("Source: bench/results/" +:+ compareFile +:+ ". Caveats: docs/comparison.md") (int 14) (int 376) sizeFootnote
           AnchorStart WeightNormal classInk])
    (NewCanvas figureWidth overheadHeight) in
  mean ← head (Overheads cmp);
  Some (c, "Gateway overhead against the measurement noise floor",
    "Added latency per request for Penstock and LiteLLM at four statistics, each beside the noise floor of the same run. "
    +:+ "Mean overhead was " +:+ signed (Penstock mean) +:+ " for Penstock and " +:+ signed (LiteLLM mean)
    +:+ " for LiteLLM against a floor of " +:+ FormatFixed 2 (NoiseFloor mean) +:+ " ms. Every LiteLLM figure is far outside "
    +:+ "the floor; Penstock's tail deltas are inside it and are not resolvable by this harness.")%string.

(** ** The command (main.go) *)

(** How it ended; [Stuck]: a panic, or out of fuel. *)
Inductive outcome := Finished | Failed (e : plot_error) | Stuck.

(** The files written, and how it ended. *)
Fixpoint write_figures (writable : string -> bool) (figures : list (string * option drawing))
    : list (string * string) * outcome :=
  match figures with
  | [] => ([], Finished)
  | (_, None) :: _ => ([], Stuck)
  | (file, Some (c, title, desc)) :: figures =>
      match Validate c with
      | [] =>
          if writable file then
            let '(files, e) := write_figures writable figures in ((file, Bytes title desc c) :: files, e)
          else ([], Failed (Unwritable file))
      | ps => ([], Failed (BadLayout file ps))
      end
  end.

Definition run (fuel : nat) (read : string -> option string) (writable : string -> bool)
    : list (string * string) * outcome :=
  match loadCacheStudy (read cacheStudyFile) with
  | inr e => ([], Failed e)
  | inl study =>
      match loadComparison compareFile (read compareFile) with
      | inr e => ([], Failed e)
      | inl comparison =>
          write_figures writable
            [("cache-threshold-sweep.svg"%string, drawThresholdSweep study);
             ("gateway-overhead.svg"%string, drawOverhead fuel comparison)]
      end
  end.

(** ** What is loaded *)

Lemma loaded_study file s : loadCacheStudy file = inl s ->
  Forall (fun p => is_Some (Labels p !! labelParaphrase) /\ is_Some (Labels p !! labelOpposite)) (slice_list (Sweep s)) /\
  is_Some (findThreshold s shippedFloor).
Proof.
  unfold loadCacheStudy. destruct (readJSON _ _ _) as [s'|]; [|done].
  destruct (slice_list (Sweep s')) as [|p ps] eqn:S; [done|]. destruct (omap missing (p :: ps)) as [|e es] eqn:M; [|done].
  destruct (findThreshold s' shippedFloor) eqn:F; [|done]. intros [= <-]. split; [|by rewrite F]. rewrite S.
  apply list.Forall_forall. intros q Hq. assert (Nq : missing q = None).
  { destruct (missing q) as [e|] eqn:E; [|done]. assert (e ∈ omap missing (p :: ps)) as X by (apply list_elem_of_omap; by exists q).
    rewrite M in X. by apply not_elem_of_nil in X. }
  unfold missing in Nq. destruct (Labels q !! labelParaphrase); [|done]. by destruct (Labels q !! labelOpposite).
Qed.

(** A row of the comparison is what the arms differ by at one statistic. *)
Definition row_of (s : k6Summary) (st : Statistic) (o : Overhead) : Prop :=
  exists direct recheck penstock litellm,
    value s armDirect (Key st) = inl direct /\ value s armDirectRecheck (Key st) = inl recheck /\
    value s armPenstock (Key st) = inl penstock /\ value s armLiteLLM (Key st) = inl litellm /\
    o = mkOverhead (SName st) (f64_sub penstock direct) (f64_sub litellm direct) (abs (f64_sub recheck direct)).

Lemma sum_bind_inl {A B E} (r : A + E) (k : A -> B + E) b : sum_bind r k = inl b -> exists a, r = inl a /\ k a = inl b.
Proof. destruct r as [a|]; [|done]. intros H. by exists a. Qed.

Ltac take_bind H := apply sum_bind_inl in H as (? & ? & H).

Lemma overheads_rows s l os : overheads_of s l = inl os -> Forall2 (row_of s) l os.
Proof.
  revert os. induction l as [|st l IH]; intros os H; [by injection H as <-|]. cbn [overheads_of] in H.
  apply sum_bind_inl in H as (o & Ho & H). apply sum_bind_inl in H as (os' & Hos & [= <-]).
  constructor; [|by apply IH]. unfold overhead_of in Ho. do 4 take_bind Ho. injection Ho as <-. by eexists _, _, _, _.
Qed.

Lemma loaded_comparison name file c : loadComparison name file = inl c ->
  exists s, readJSON file dec_summary ∅ = inl s /\ Forall2 (row_of s) statistics (Overheads c).
Proof.
  unfold loadComparison. intros H. apply sum_bind_inl in H as (s & Hs & H). apply sum_bind_inl in H as (os & Ho & [= <-]).
  exists s. split; [done|]. by apply overheads_rows.
Qed.

(** ** The axis ends *)

Definition tick (i : nat) : f64 := int (4 * Z.of_nat i).
(** Four seconds of overhead. *)
Definition max_tick : nat := 1000.

Definition tick_ok (i : nat) : bool :=
  bool_decide (f64_add (tick i) overheadTickStep = tick (S i)) && negb (f64_leb (tick (S i)) (tick i)).

Lemma ticks_ok i : (i <= max_tick)%nat -> f64_add (tick i) overheadTickStep = tick (S i) /\ f64_leb (tick (S i)) (tick i) = false.
Proof.
  intros H. assert (A : forallb tick_ok (seq 0 (S max_tick)) = true) by (vm_compute; reflexivity).
  rewrite forallb_forall in A. specialize (A i). rewrite in_seq in A. specialize (A ltac:(lia)).
  unfold tick_ok in A. apply andb_true_iff in A as [A B]. split; [by apply bool_decide_eq_true in A|by apply negb_true_iff].
Qed.

#[local] Opaque tick max_tick f64_add f64_ltb f64_leb.

Definition in_reach (o : Overhead) : Prop := f64_ltb (tick max_tick) (target o) = false.

Lemma raise_ends fuel i t : (i <= max_tick)%nat -> (max_tick <= fuel + i)%nat -> f64_ltb (tick max_tick) t = false ->
  exists j, (i <= j <= max_tick)%nat /\ raise fuel (tick i) t = Some (tick j).
Proof.
  revert i. induction fuel as [|fuel IH]; intros i Hi Hf Ht; cbn [raise].
  - replace i with max_tick in * by lia. rewrite Ht. by exists max_tick.
  - destruct (f64_ltb (tick i) t) eqn:L; [|by exists i].
    destruct (decide (i = max_tick)) as [->|Ne]; [congruence|].
    rewrite (proj1 (ticks_ok i ltac:(lia))). destruct (IH (S i)) as (j & Hj & E); [lia|lia|done|]. exists j. split; [lia|done].
Qed.

Lemma domain_ends os fuel i : (i <= max_tick)%nat -> (max_tick <= fuel + i)%nat -> Forall in_reach os ->
  exists j, (i <= j <= max_tick)%nat /\ domain fuel (tick i) os = Some (tick j).
Proof.
  intros Hi Hf F. revert i Hi Hf. induction F as [|o os Ho F IH]; intros i Hi Hf; cbn [domain]; [by exists i|].
  destruct (raise_ends fuel i (target o) Hi Hf Ho) as (j & Hj & E). rewrite E. cbn [mbind option_bind].
  destruct (IH j) as (k & Hk & E'); [lia|lia|]. exists k. split; [lia|done].
Qed.

Lemma steps_end fuel i j : (i <= S j)%nat -> (j <= max_tick)%nat -> (S j <= fuel + i)%nat ->
  is_Some (steps fuel (tick i) overheadTickStep (tick j)).
Proof.
  revert i. induction fuel as [|fuel IH]; intros i Hi Hj Hf; cbn [steps].
  - replace i with (S j) by lia. by rewrite (proj2 (ticks_ok j Hj)).
  - destruct (decide (i = S j)) as [->|Ne]; [by rewrite (proj2 (ticks_ok j Hj))|].
    destruct (f64_leb (tick i) (tick j)); [|done]. rewrite (proj1 (ticks_ok i ltac:(lia))).
    destruct (IH (S i)) as [l ->]; [lia..|done].
Qed.

Lemma overhead_drawn cmp : Overheads cmp <> [] -> Forall in_reach (Overheads cmp) -> is_Some (drawOverhead max_tick cmp).
Proof.
  intros Ne F. unfold drawOverhead. assert (E : overheadTickStep = tick 1) by (vm_compute; reflexivity).
  assert (E0 : f64_zero = tick 0) by (vm_compute; reflexivity).
  destruct (domain_ends (Overheads cmp) max_tick 1) as (j & Hj & D); [vm_compute; lia|lia|done|].
  rewrite <- E in D. rewrite D. cbn [mbind option_bind].
  destruct (steps_end (S (S max_tick)) 0 j) as [l S]; [lia|lia|lia|]. rewrite <- E0 in S. rewrite S. cbn [mbind option_bind].
  by destruct (Overheads cmp).
Qed.

Lemma sweep_drawn file s : loadCacheStudy file = inl s -> is_Some (drawThresholdSweep s).
Proof.
  intros L. destruct (loaded_study _ _ L) as [_ [p F]]. unfold drawThresholdSweep. rewrite F. cbn [mbind option_bind].
  assert (S : is_Some (steps 6 f64_zero (int 20) (int 100))) by (vm_compute; by eexists). destruct S as [l ->]. done.
Qed.

#[local] Transparent tick max_tick f64_add f64_ltb f64_leb.

Lemma written_figures writable figures files e : write_figures writable figures = (files, e) ->
  (forall name text, (name, text) ∈ files -> writable name = true /\
     exists c title desc, (name, Some (c, title, desc)) ∈ figures /\ text = Bytes title desc c /\ Validate c = []) /\
  (e = Finished -> fst <$> files = fst <$> figures) /\
  (Forall (fun f => is_Some f.2) figures -> e <> Stuck).
Proof.
  revert files e. induction figures as [|[file [[[c title] desc]|]] figures IH]; intros files e; cbn [write_figures].
  - intros [= <- <-]. split_and!; [by intros ? ? ?%not_elem_of_nil|done|done].
  - destruct (Validate c) eqn:V.
    2:{ intros [= <- <-]. split_and!; [by intros ? ? ?%not_elem_of_nil|done|done]. }
    destruct (writable file) eqn:W.
    2:{ intros [= <- <-]. split_and!; [by intros ? ? ?%not_elem_of_nil|done|done]. }
    destruct (write_figures writable figures) as [files' e'] eqn:E. intros [= <- <-].
    destruct (IH _ _ eq_refl) as (A & B & C). split_and!.
    + intros name text [[= -> ->]|Hin]%elem_of_cons.
      * split; [done|]. exists c, title, desc. split_and!; [left|done|done].
      * destruct (A _ _ Hin) as (Hw & c' & t' & d' & Hf & Ht & Hv). split; [done|]. exists c', t', d'. split_and!; [by right|done|done].
    + intros He. cbn. by rewrite (B He).
    + intros [_ F]%list.Forall_cons. by apply C.
  - intros [= <- <-]. split_and!; [by intros ? ? ?%not_elem_of_nil|done|].
    intros [[x Hx] _]%list.Forall_cons. done.
Qed.

(** (C40) Nothing is drawn that was not measured and checked: the command writes a
    figure only after both results were accepted, and only a drawing in which the
    validation found nothing; it succeeds only with both figures written; and
    where no gateway added more than ten seconds it ends, whatever the files hold,
    with both figures or with an error: no missing threshold, label or statistic
    is dereferenced, and the search for the end of the axis stops. *)
Theorem only_checked_figures_are_written read writable :
  let '(files, e) := run max_tick read writable in
  (forall name text, (name, text) ∈ files -> writable name = true /\
     exists c title desc study cmp, text = Bytes title desc c /\ Validate c = [] /\
       loadCacheStudy (read cacheStudyFile) = inl study /\ loadComparison compareFile (read compareFile) = inl cmp /\
       (Some (c, title, desc) = drawThresholdSweep study \/ Some (c, title, desc) = drawOverhead max_tick cmp)) /\
  (e = Finished -> fst <$> files = ["cache-threshold-sweep.svg"; "gateway-overhead.svg"]%string) /\
  ((forall cmp, loadComparison compareFile (read compareFile) = inl cmp -> Forall in_reach (Overheads cmp)) -> e <> Stuck).
Proof.
  destruct (run max_tick read writable) as [files e] eqn:R. unfold run in R.
  destruct (loadCacheStudy _) as [study|] eqn:L.
  2:{ injection R as <- <-. split_and!; [by intros ? ? ?%not_elem_of_nil|done|done]. }
  destruct (loadComparison _ _) as [cmp|] eqn:M.
  2:{ injection R as <- <-. split_and!; [by intros ? ? ?%not_elem_of_nil|done|done]. }
  apply written_figures in R as (A & B & C). split_and!.
  - intros name text Hin. destruct (A _ _ Hin) as (Hw & c & title & desc & Hf & Ht & Hv). split; [done|].
    exists c, title, desc, study, cmp. split_and!; try done. rewrite !elem_of_cons in Hf.
    destruct Hf as [[= _ ->]|[[= _ ->]|[]%not_elem_of_nil]]; auto.
  - exact B.
  - intros F. apply C. repeat constructor; cbn [snd].
    + by apply (sweep_drawn (read cacheStudyFile)).
    + apply overhead_drawn; [|by apply F]. destruct (loaded_comparison _ _ _ M) as (s & _ & Rows).
      intros E. rewrite E in Rows. inversion Rows.
Qed.

(** *** The committed figures *)

Module FiguresExample.
(** What the figures read of bench/results. *)
Definition point (r : string * string * string) : string :=
  let '(t, opposite, paraphrase) := r in
  "{'threshold':" +:+ t +:+ ",'labels':{'opposite':{'n':57,'false_hit_rate':" +:+ opposite
  +:+ "},'paraphrase':{'n':100,'correct_hit_rate':" +:+ paraphrase +:+ "}}}".
Definition study_text : string := quoted
  ("{'corpus':{'groups':50,'probes_by_label':{'opposite':57,'paraphrase':100},'distinct_prompts_embedded':257},"
   +:+ "'embedder':{'model':'gemini-embedding-001','dimensions':3072},'sweep':[" +:+ String.concat "," (point <$>
  [("0.8", "1", "1");
   ("0.81", "1", "1");
   ("0.82", "1", "1");
   ("0.83", "1", "1");
   ("0.84", "1", "1");
   ("0.85", "1", "0.98");
   ("0.86", "0.9649122807017544", "0.96");
   ("0.87", "0.9473684210526315", "0.92");
   ("0.88", "0.9122807017543859", "0.89");
   ("0.89", "0.8596491228070176", "0.87");
   ("0.9", "0.8070175438596491", "0.84");
   ("0.91", "0.7017543859649122", "0.76");
   ("0.92", "0.6842105263157895", "0.62");
   ("0.93", "0.631578947368421", "0.48");
   ("0.94", "0.5614035087719298", "0.36");
   ("0.95", "0.43859649122807015", "0.24");
   ("0.96", "0.3157894736842105", "0.08");
   ("0.97", "0.24561403508771928", "0.06");
   ("0.98", "0.15789473684210525", "0.01");
   ("0.99", "0.017543859649122806", "0")]%string) +:+ "]}").

Definition arm (r : string * (string * string * string * string * string)) : string :=
  let '(name, (avg, p50, p95, p99, count)) := r in
  "'" +:+ name +:+ "':{'values':{'avg':" +:+ avg +:+ ",'p(50)':" +:+ p50 +:+ ",'p(95)':" +:+ p95 +:+ ",'p(99)':" +:+ p99
  +:+ ",'count':" +:+ count +:+ "}}".
Definition comparison_text : string := quoted ("{'metrics':{" +:+ String.concat "," (arm <$>
  [("direct_latency", ("19.362442755833325", "15.684393499999999", "44.273942649999995", "66.71615893999994", "2400"));
   ("direct_recheck_latency", ("19.756215344023293", "16.414033", "45.298891", "67.531615", "2401"));
   ("penstock_latency", ("20.386549675416646", "16.673944", "44.24681984999983", "68.4072236499999", "2400"));
   ("litellm_latency", ("31.501282406080815", "28.02864", "58.360197", "79.464254", "2401"))]%string) +:+ "}}").
Definition results (file : string) : option string :=
  if String.eqb file cacheStudyFile then Some study_text else if String.eqb file compareFile then Some comparison_text else None.

(** The two files of docs/img, by their fingerprints. *)
Example the_committed_figures :
  (fun p => (prod_map id fingerprint <$> p.1, p.2)) (run 5 results (fun _ => true))
  = ([("cache-threshold-sweep.svg", 466017841937190740); ("gateway-overhead.svg", 1045575245507128445)]%string, Finished).
Proof. vm_compute. reflexivity. Qed.

(** The description of the committed figure says that the tail deltas are inside
    the noise floor; the last one is not. *)
Example the_last_delta_is_above_the_floor :
  (fun c => map (fun o => (StatisticOf o, BelowFloor o)) (Overheads c)) <$>
    match loadComparison compareFile (Some comparison_text) with inl c => Some c | inr _ => None end
  = Some [("mean", false); ("p50", false); ("p95", true); ("p99", false)]%string.
Proof. vm_compute. reflexivity. Qed.

Example a_study_without_the_floor :
  loadCacheStudy (Some (quoted ("{'sweep':[" +:+ point ("0.9", "0.5", "0.5") +:+ "]}"))) = inr FloorNotSwept.
Proof. vm_compute. reflexivity. Qed.

(** No latency the gateways added is out of reach. *)
Definition all_in_reach (read : string -> option string) : bool :=
  match loadComparison compareFile (read compareFile) with
  | inl c => forallb (fun o => negb (f64_ltb (tick max_tick) (target o))) (Overheads c)
  | inr _ => true
  end.

Lemma all_in_reach_spec read cmp : all_in_reach read = true ->
  loadComparison compareFile (read compareFile) = inl cmp -> Forall in_reach (Overheads cmp).
Proof.
  unfold all_in_reach. intros A E. rewrite E, forallb_forall in A. apply list.Forall_forall. intros o Ho.
  apply list_elem_of_In in Ho. specialize (A o Ho). by apply negb_true_iff in A.
Qed.

Example only_checked_figures_are_written_witness : exists files e, run max_tick results (fun _ => true) = (files, e) /\ e <> Stuck.
Proof.
  pose proof (only_checked_figures_are_written results (fun _ => true)) as T.
  destruct (run max_tick results (fun _ => true)) as [files e]. destruct T as (_ & _ & T). exists files, e. split; [reflexivity|]. apply T.
  intros cmp E. refine (all_in_reach_spec results cmp _ E). vm_compute. reflexivity.
Defined.
End FiguresExample.
