(* ===== verification/Process.v ===== *)
(** * The process (cmd/penstock/main.go, internal/obs/logging.go)

    A run of the gateway from its configuration to its exit: what each step of the
    boot opens and what is released on every way out, as the trace of [run]; and
    serving, draining and stopping as a step relation over two listeners and the
    requests inside them. *)

From Stdlib Require Import ZArith Lia String Ascii.
From stdpp Require Import base gmap strings list numbers.
From S2P Require Import Prelude Float64 GoString Providers Budget Pricing Durable Guard Config Wiring.

Local Open Scope Z_scope.

(** ** Logging (logging.go) *)

Inductive Level := LevelDebug | LevelInfo | LevelWarn | LevelError.
Definition parseLevel (level : string) : option Level :=
  if String.eqb level "debug" then Some LevelDebug
  else if String.eqb level "info" then Some LevelInfo
  else if String.eqb level "warn" then Some LevelWarn
  else if String.eqb level "error" then Some LevelError
  else None.

(** ** Booting *)

Inductive resource := SignalContext | Tracing | LedgerFile | BudgetStore.
#[export] Instance resource_eq_dec : EqDecision resource.
Proof. solve_decision. Defined.

(** [Served]: both listeners are handed to [serve]. *)
Inductive action := Opened (r : resource) | Released (r : resource) | Served.

#[export] Instance action_eq_dec : EqDecision action.
Proof. solve_decision. Defined.

(** [budget.OpenSQLiteStore] and the load of its rows. *)
Inductive store_open := CannotOpen | CannotLoad | Loads (rows : list (SpendRow f64)).
Definition opened_rows (s : store_open) : option (option (list (SpendRow f64))) :=
  match s with CannotOpen => None | CannotLoad => Some None | Loads rows => Some (Some rows) end.

(** [buildAccounting], by what it opens: the actions, and on success what its
    [close] releases, in order. *)
Definition boot_store (cfg : Config) (store : store_open) : list action * option (list resource) :=
  if bool_decide (StorePath (CAccounting cfg) = ""%string) then ([], Some [])
  else match store with
       | CannotOpen => ([], None)
       | CannotLoad => ([Opened BudgetStore; Released BudgetStore], None)
       | Loads _ => ([Opened BudgetStore], Some [BudgetStore])
       end.

Definition boot_accounting (cfg : Config) (prices : option Table) (ledger_opens : bool) (store : store_open)
    : list action * option (list resource) :=
  if bool_decide (tenantLimits cfg = ∅) then ([], Some [])
  else match prices with
  | None => ([], None)
  | Some _ =>
      let no_file := bool_decide (LedgerPath (CAccounting cfg) = ""%string) in
      if negb no_file && negb ledger_opens then ([], None)
      else
        let file := if no_file then [] else [LedgerFile] in
        let '(acts, closers) := boot_store cfg store in
        match closers with
        | None => ((Opened <$> file) ++ acts ++ (Released <$> file), None)
        | Some closers => ((Opened <$> file) ++ acts, Some (file ++ closers))
        end
  end.

(** What [run] is given by the outside, step by step. *)
Record outside := mkOutside {
  loaded : option Config; tracing_starts : bool; providers_build : bool; routes_build : bool;
  prices : option Table; ledger_opens : bool; store : store_open
}.

(** [run]: its actions, the deferred ones last to first. *)
Definition run (o : outside) : list action :=
  match loaded o with
  | None => []
  | Some cfg =>
      match parseLevel (LogLevel (CTelemetry cfg)) with
      | None => []
      | Some _ =>
          [Opened SignalContext]
          ++ (if negb (tracing_starts o) then []
              else [Opened Tracing]
                   ++ (if negb (providers_build o && routes_build o) then []
                       else let '(acts, closers) := boot_accounting cfg (prices o) (ledger_opens o) (store o) in
                            match closers with
                            | None => acts
                            | Some closers => acts ++ [Served] ++ (Released <$> closers)
                            end)
                   ++ [Released Tracing])
          ++ [Released SignalContext]
      end
  end.

(** What is open after some actions; [None]: something was opened twice or released
    unopened. *)
Fixpoint replay (acts : list action) (held : list resource) : option (list resource) :=
  match acts with
  | [] => Some held
  | Opened r :: acts => if decide (r ∈ held) then None else replay acts (r :: held)
  | Released r :: acts => if decide (r ∈ held) then replay acts (filter (fun x => x <> r) held) else None
  | Served :: acts => replay acts held
  end.

(** ** Serving *)

Definition shutdownGrace : Z := 5 * Second.

Record listener := mkListener { accepting : bool; active : nat }.
Definition one_more (s : listener) : listener := mkListener (accepting s) (S (active s)).
Definition one_less (s : listener) : listener := mkListener (accepting s) (pred (active s)).
Definition stopped (s : listener) : listener := mkListener false (active s).

Inductive end_of_serve := Drained | ListenFailed | DeadlineExceeded.

(** Where [run] is; a drain carries the deadline that both shutdowns share. *)
Inductive stage :=
| Serving
| DrainingAdmin (deadline : Z)
| DrainingGateway (deadline : Z)
| Returned (e : end_of_serve)
| AccountingClosed (e : end_of_serve).

(** [unrecorded]: requests that were settled after the accounting was closed. *)
Record process := mkProcess { clock : Z; gateway_l : listener; admin_l : listener; at_ : stage; unrecorded : nat }.
Definition started (now : Z) : process := mkProcess now (mkListener true 0) (mkListener true 0) Serving 0.

(** One thing that happens.  [Shutdown] stops a listener at once, then returns when
    nothing is active in it or the deadline has passed. *)
Inductive step : process -> process -> Prop :=
| request_arrives t g a s u : accepting g = true ->
    step (mkProcess t g a s u) (mkProcess t (one_more g) a s u)
| admin_arrives t g a s u : accepting a = true ->
    step (mkProcess t g a s u) (mkProcess t g (one_more a) s u)
| request_settles t g a s u : active g <> O ->
    step (mkProcess t g a s u)
      (mkProcess t (one_less g) a s (match s with AccountingClosed _ => S u | _ => u end))
| admin_answers t g a s u : active a <> O ->
    step (mkProcess t g a s u) (mkProcess t g (one_less a) s u)
| gateway_fails t g a u :
    step (mkProcess t g a Serving u) (mkProcess t (stopped g) a (Returned ListenFailed) u)
| admin_fails t g a u :
    step (mkProcess t g a Serving u) (mkProcess t g (stopped a) (Returned ListenFailed) u)
| signaled t g a u :
    step (mkProcess t g a Serving u) (mkProcess t g (stopped a) (DrainingAdmin (t + shutdownGrace)) u)
| admin_drained t g a d u : active a = O \/ d <= t ->
    step (mkProcess t g a (DrainingAdmin d) u) (mkProcess t (stopped g) a (DrainingGateway d) u)
| gateway_drained t g a d u : active g = O ->
    step (mkProcess t g a (DrainingGateway d) u) (mkProcess t g a (Returned Drained) u)
| gateway_late t g a d u : active g <> O -> d <= t ->
    step (mkProcess t g a (DrainingGateway d) u) (mkProcess t g a (Returned DeadlineExceeded) u)
| accounting_closes t g a e u :
    step (mkProcess t g a (Returned e) u) (mkProcess t g a (AccountingClosed e) u)
| time_passes t dt g a s u : 0 < dt ->
    match s with DrainingAdmin d | DrainingGateway d => t + dt <= d | _ => True end ->
    step (mkProcess t g a s u) (mkProcess (t + dt) g a s u).

Definition reachable (w : process) : Prop := exists now, rtc step (started now) w.

(** Before it serves the process only opens, afterwards it only releases. *)
Fixpoint in_order (served : bool) (acts : list action) : bool :=
  match acts with
  | [] => true
  | Opened _ :: acts => negb served && in_order served acts
  | Released _ :: acts => served && in_order served acts
  | Served :: acts => negb served && in_order true acts
  end.

(** ** What boots, serves *)

(** The trace says what [Wiring.buildAccounting] says. *)
Lemma boot_accounting_agrees cfg prices ledger_opens clk store :
  is_Some (boot_accounting cfg prices ledger_opens store).2
  <-> is_Some (buildAccounting cfg prices ledger_opens clk (opened_rows store)).
Proof.
  unfold boot_accounting, buildAccounting. case_bool_decide; [split; by eexists|]. destruct prices as [t|]; [|by split; intros []].
  unfold openLedger, boot_store, openEnforcer. case_bool_decide as Lf; case_bool_decide as St; cbn [negb andb];
    destruct ledger_opens, store; cbn; (split; intros [x Hx]; try done; try by eexists).
Qed.

(** The possible traces of the accounting. *)
Lemma boot_accounting_cases cfg prices ledger_opens store :
  let '(acts, closers) := boot_accounting cfg prices ledger_opens store in
  (exists rs, closers = Some rs /\ acts = Opened <$> rs /\ rs ∈ [[]; [LedgerFile]; [BudgetStore]; [LedgerFile; BudgetStore]]) \/
  (closers = None /\ acts ∈ [[]; [Opened LedgerFile; Released LedgerFile]; [Opened BudgetStore; Released BudgetStore];
     [Opened LedgerFile; Opened BudgetStore; Released BudgetStore; Released LedgerFile]]).
Proof.
  unfold boot_accounting, boot_store. case_bool_decide; [left; exists []; set_solver|]. destruct prices as [t|]; [|right; set_solver].
  case_bool_decide as Lf; case_bool_decide as St; cbn [negb andb]; destruct ledger_opens, store; cbn;
    first [left; eexists; split_and!; [done|done|set_solver] | right; split; [done|set_solver]].
Qed.

(** ** The ways a process ends *)

Definition safe (w : process) : Prop :=
  match at_ w with
  | Serving => unrecorded w = O
  | DrainingAdmin d => clock w <= d /\ unrecorded w = O
  | DrainingGateway d => clock w <= d /\ accepting (gateway_l w) = false /\ unrecorded w = O
  | Returned e => unrecorded w = O /\ (e = Drained -> accepting (gateway_l w) = false /\ active (gateway_l w) = O)
  | AccountingClosed e => e = Drained -> accepting (gateway_l w) = false /\ active (gateway_l w) = O /\ unrecorded w = O
  end.

Lemma step_safe w w' : step w w' -> safe w -> safe w'.
Proof.
  assert (G : 0 < shutdownGrace) by done.
  unfold safe. intros St S. destruct St as [t g a s u A|t g a s u A|t g a s u A|t g a s u A|t g a u|t g a u|t g a u|t g a d u D|
    t g a d u D|t g a d u N D|t g a e u|t dt g a s u P D]; cbn in *.
  - destruct s as [|d|d|e|e]; naive_solver congruence.
  - destruct s as [|d|d|e|e]; naive_solver.
  - destruct s as [|d|d|e|e]; naive_solver.
  - destruct s as [|d|d|e|e]; naive_solver.
  - naive_solver.
  - naive_solver.
  - split; [lia|done].
  - naive_solver.
  - naive_solver.
  - naive_solver.
  - naive_solver.
  - destruct s as [|d|d|e|e]; naive_solver.
Qed.

Lemma reachable_safe w : reachable w -> safe w.
Proof.
  intros [now R]. assert (S0 : safe (started now)) by done. revert S0.
  induction R as [|x y z S R IH]; [done|]. intros S0. by apply IH, (step_safe x).
Qed.

(** (C38) Every way out of [run] gives back what was taken: whichever step of the boot
    fails, everything opened is released, once, and nothing stays held.  The process
    serves exactly when the configuration was accepted and every step succeeded, the
    accounting among them; everything is opened before it serves, and released only
    after [serve] has returned.  That is not after the last request: those a failed
    listener leaves behind are still running ([a_failed_listener_drains_nothing]). *)
Theorem every_exit_releases o :
  replay (run o) [] = Some [] /\
  (Served ∈ run o <-> exists cfg, loaded o = Some cfg /\ is_Some (parseLevel (LogLevel (CTelemetry cfg))) /\
     tracing_starts o = true /\ providers_build o = true /\ routes_build o = true /\
     forall clk, is_Some (buildAccounting cfg (prices o) (ledger_opens o) clk (opened_rows (store o)))) /\
  (Served ∈ run o -> in_order false (run o) = true).
Proof.
  unfold run. destruct (loaded o) as [cfg|].
  2:{ split_and!; [done| |by intros ?%not_elem_of_nil]. split; [by intros ?%not_elem_of_nil|by intros (? & ? & _)]. }
  destruct (parseLevel _) as [lvl|] eqn:Lv.
  2:{ split_and!; [done| |by intros ?%not_elem_of_nil]. split; [by intros ?%not_elem_of_nil|].
      intros (c & [= <-] & [? E] & _). by rewrite Lv in E. }
  destruct (tracing_starts o); cbn [negb app].
  2:{ split_and!; [done| |set_solver]. split; [set_solver|]. by intros (? & _ & _ & ? & _). }
  destruct (providers_build o && routes_build o) eqn:B; cbn [negb app].
  2:{ split_and!; [done| |set_solver]. split; [set_solver|]. intros (? & _ & _ & _ & P & R & _). by rewrite P, R in B. }
  apply andb_true_iff in B as [P R]. pose proof (boot_accounting_cases cfg (prices o) (ledger_opens o) (store o)) as C.
  pose proof (fun clk => boot_accounting_agrees cfg (prices o) (ledger_opens o) clk (store o)) as A.
  destruct (boot_accounting _ _ _ _) as [acts closers]. cbn [snd] in A.
  destruct C as [(rs & -> & -> & C)|[-> C]].
  - assert (S : forall clk, is_Some (buildAccounting cfg (prices o) (ledger_opens o) clk (opened_rows (store o))))
      by (intros clk; apply A; by eexists).
    rewrite !elem_of_cons in C. split_and!.
    + destruct C as [->|[->|[->|[->|[]%not_elem_of_nil]]]]; vm_compute; reflexivity.
    + split; [|set_solver]. intros _. exists cfg. split_and!; [done|by eexists|done..].
    + destruct C as [->|[->|[->|[->|[]%not_elem_of_nil]]]]; done.
  - assert (N : ~ Served ∈ Opened SignalContext :: Opened Tracing :: (acts ++ [Released Tracing]) ++ [Released SignalContext]).
    { rewrite !elem_of_cons in C. destruct C as [->|[->|[->|[->|[]%not_elem_of_nil]]]]; set_solver. }
    split_and!; [| |done].
    + rewrite !elem_of_cons in C. destruct C as [->|[->|[->|[->|[]%not_elem_of_nil]]]]; vm_compute; reflexivity.
    + split; [done|]. intros (c & [= <-] & _ & _ & _ & _ & S). by destruct (proj2 (A 0) (S 0)).
Qed.

(** (C33) A drain is bounded and a clean one loses nothing: in any interleaving of
    requests, signals and failures, neither shutdown outlasts the five seconds that
    start at the signal, and when [serve] returns without an error every request the
    gateway took has been answered and settled before the accounting is closed. *)
Theorem clean_drain_loses_nothing w : reachable w ->
  (forall d, at_ w = DrainingAdmin d \/ at_ w = DrainingGateway d -> clock w <= d) /\
  (at_ w = Returned Drained \/ at_ w = AccountingClosed Drained ->
     active (gateway_l w) = O /\ accepting (gateway_l w) = false /\ unrecorded w = O) /\
  (forall d, at_ w = DrainingAdmin d \/ at_ w = DrainingGateway d ->
     exists w', rtc step w w' /\ clock w' <= d /\ exists e, at_ w' = AccountingClosed e).
Proof.
  intros R. pose proof (reachable_safe w R) as S. destruct w as [t g a s u]. unfold safe in S. cbn in *. split_and!.
  - intros d [-> | ->]; tauto.
  - intros [-> | ->].
    + destruct S as [Hu S]. destruct (S eq_refl). done.
    + destruct (S eq_refl) as (? & ? & ?). done.
  - assert (G : forall t g d, t <= d -> exists w', rtc step (mkProcess t g a (DrainingGateway d) u) w' /\ clock w' <= d /\
      exists e, at_ w' = AccountingClosed e).
    { clear. intros t g d L. destruct (decide (active g = O)) as [E|E].
      - exists (mkProcess t g a (AccountingClosed Drained) u). split; [|split; [exact L|by eexists]].
        eapply rtc_l; [by apply gateway_drained|]. eapply rtc_l; [apply accounting_closes|]. reflexivity.
      - assert (W : exists w', rtc step (mkProcess d g a (DrainingGateway d) u) w' /\ clock w' <= d /\ exists e, at_ w' = AccountingClosed e).
        { exists (mkProcess d g a (AccountingClosed DeadlineExceeded) u). split; [|split; [cbn; lia|by eexists]].
          eapply rtc_l; [by apply gateway_late|]. eapply rtc_l; [apply accounting_closes|]. reflexivity. }
        destruct W as (w' & St & W). exists w'. split; [|exact W]. destruct (decide (t = d)) as [->|Ne]; [exact St|].
        eapply rtc_l; [apply (time_passes t (d - t)); cbn; lia|]. by replace (t + (d - t)) with d by lia. }
    intros d [-> | ->]; [|apply G; by destruct S]. destruct S as [L _].
    assert (W : exists w', rtc step (mkProcess d g a (DrainingAdmin d) u) w' /\ clock w' <= d /\ exists e, at_ w' = AccountingClosed e).
    { destruct (G d (stopped g) d ltac:(lia)) as (w' & St & W). exists w'. split; [|exact W].
      eapply rtc_l; [apply admin_drained; right; lia|exact St]. }
    destruct W as (w' & St & W). exists w'. split; [|exact W]. destruct (decide (t = d)) as [->|Ne]; [exact St|].
    eapply rtc_l; [apply (time_passes t (d - t)); cbn; lia|]. by replace (t + (d - t)) with d by lia.
Qed.

Module ProcessExample.
(** A configuration whose tenant is metered, with both files. *)
Definition metered : Config :=
  mkConfig (mkServerConfig "" 0 0 0 "" 0) (mkAuthConfig [] [mkTenantConfig "acme" [] (mkTenantLimits 0 0 f64_zero f64_zero true)])
    (mkAccountingConfig "ledger.jsonl" "budget.db") (mkCacheConfig false 0 0 f64_zero (mkSemanticConfig false f64_zero "" "" "" 0)) [] []
    (mkRouterConfig 0 0 0 0 0) (mkTelemetryConfig "" "" "info").
Definition prices_ok : option Table := Some (mkTable 1 "" ∅).

Example a_whole_run : run (mkOutside (Some metered) true true true prices_ok true (Loads []))
  = [Opened SignalContext; Opened Tracing; Opened LedgerFile; Opened BudgetStore; Served;
     Released LedgerFile; Released BudgetStore; Released Tracing; Released SignalContext].
Proof. vm_compute. reflexivity. Qed.

Example a_store_that_does_not_load : run (mkOutside (Some metered) true true true prices_ok true CannotLoad)
  = [Opened SignalContext; Opened Tracing; Opened LedgerFile; Opened BudgetStore; Released BudgetStore;
     Released LedgerFile; Released Tracing; Released SignalContext].
Proof. vm_compute. reflexivity. Qed.

Definition idle (accepts : bool) : listener := mkListener accepts 0.
Definition busy (accepts : bool) : listener := mkListener accepts 1.

(** A clean drain: a request arrives, the signal, the request settles, the end. *)
Definition drained : process := mkProcess 0 (idle false) (idle false) (Returned Drained) 0.
Lemma drained_reachable : reachable drained.
Proof.
  exists 0. unfold started, drained.
  eapply rtc_l; [by apply request_arrives|]. eapply rtc_l; [apply signaled|]. eapply rtc_l; [apply admin_drained; by left|].
  eapply rtc_l; [by apply request_settles|]. eapply rtc_l; [by apply gateway_drained|]. reflexivity.
Qed.

Example clean_drain_loses_nothing_witness : active (gateway_l drained) = O /\ unrecorded drained = O.
Proof.
  destruct (clean_drain_loses_nothing drained drained_reachable) as (_ & D & _).
  destruct (D (or_introl eq_refl)) as (A & _ & U). split; [exact A|exact U].
Defined.

(** One admin request that does not end takes the whole grace: the gateway accepted
    requests until the deadline, and is given no time to finish them. *)
Example a_slow_scrape_takes_the_grace :
  reachable (mkProcess shutdownGrace (busy false) (busy false) (Returned DeadlineExceeded) 0).
Proof.
  exists 0. unfold started.
  eapply rtc_l; [by apply admin_arrives|]. eapply rtc_l; [apply signaled|].
  eapply rtc_l; [apply (time_passes 0 shutdownGrace); done|].
  eapply rtc_l; [by apply request_arrives|]. eapply rtc_l; [apply admin_drained; right; done|].
  eapply rtc_l; [by apply gateway_late|]. reflexivity.
Qed.

(** A listener that fails ends the process without a drain: a request in flight is
    settled, if at all, when its ledger is closed. *)
Example a_failed_listener_drains_nothing :
  reachable (mkProcess 0 (idle true) (idle false) (AccountingClosed ListenFailed) 1).
Proof.
  exists 0. unfold started.
  eapply rtc_l; [by apply request_arrives|]. eapply rtc_l; [apply admin_fails|]. eapply rtc_l; [apply accounting_closes|].
  eapply rtc_l; [by apply request_settles|]. reflexivity.
Qed.
End ProcessExample.
