(* ===== verification/Metrics.v ===== *)
(** * The instruments (internal/obs/metrics.go, sink.go)

    The counters and histograms of the gateway and the sink that feeds them with the
    measurements of the request path.  The Prometheus client is an interface: what a
    series was told, and when the client panics.  The sink never makes it panic, and
    every series holds exactly what the requests told. *)

From Stdlib Require Import ZArith Lia String Ascii SpecFloat.
From stdpp Require Import base gmap strings list option.
From S2P Require Import Prelude Float64 GoString Json Providers Budget Exact Wire.

Local Open Scope Z_scope.

(** ** Instruments (metrics.go) *)

Definition DirectionPrompt : string := "prompt".
Definition DirectionCompletion : string := "completion".

Inductive instrument :=
| RequestsTotal | RequestDurationSeconds | TTFTSeconds | TokensTotal | CacheEventsTotal | CostUSDTotal | DenialsTotal.

#[export] Instance instrument_eq_dec : EqDecision instrument.
Proof. solve_decision. Defined.

#[export] Instance instrument_countable : Countable instrument.
Proof.
  refine (inj_countable'
    (fun i => match i with RequestsTotal => 0 | RequestDurationSeconds => 1 | TTFTSeconds => 2 | TokensTotal => 3
                         | CacheEventsTotal => 4 | CostUSDTotal => 5 | DenialsTotal => 6 end%nat)
    (fun n => match n with 0 => RequestsTotal | 1 => RequestDurationSeconds | 2 => TTFTSeconds | 3 => TokensTotal
                         | 4 => CacheEventsTotal | 5 => CostUSDTotal | _ => DenialsTotal end%nat) _).
  by intros [].
Defined.

(** [NewMetrics]: the label names of each vector. *)
Definition label_names (i : instrument) : list string :=
  match i with
  | RequestsTotal => ["path"; "provider"; "code"]
  | RequestDurationSeconds => ["path"; "provider"; "stream"]
  | TTFTSeconds => ["provider"]
  | TokensTotal => ["provider"; "direction"]
  | CostUSDTotal => ["tenant"; "provider"; "model"]
  | DenialsTotal => ["tenant"; "reason"]
  | CacheEventsTotal => ["event"]
  end%string.

Definition is_counter (i : instrument) : bool :=
  match i with RequestDurationSeconds | TTFTSeconds => false | _ => true end.

(** ** The client library *)

(** [told i ls v r]: [WithLabelValues(ls...)] of the vector, then [Add(v)] of a
    counter or [Observe(v)] of a histogram; [None] is a panic.  [amounts] is what a
    series was given so far, [None] when it does not exist. *)
Class Client (R : Type) := {
  told : instrument -> list string -> f64 -> R -> option R;
  amounts : R -> instrument -> list string -> option (list f64)
}.

(** One value for each label, each of valid UTF-8. *)
Definition good_labels (i : instrument) (ls : list string) : Prop :=
  length ls = length (label_names i) /\ Forall valid_utf8 ls.

(** A counter cannot be lowered. *)
Definition good_amount (i : instrument) (v : f64) : Prop := is_counter i = true -> f64_ltb v f64_zero = false.

Class ClientLaws (R : Type) `{Client R} : Prop := {
  told_ok (i : instrument) (ls : list string) (v : f64) (r : R) : good_labels i ls -> good_amount i v ->
    exists r', told i ls v r = Some r' /\ amounts r' i ls = Some (default [] (amounts r i ls) ++ [v]) /\
      forall j ks, (j, ks) <> (i, ls) -> amounts r' j ks = amounts r j ks
}.

(** ** The sink (sink.go) *)

Definition labelOrNone (tenant : string) : string :=
  if bool_decide (tenant = ""%string) then "anonymous"%string else tenant.

Definition FormatBool (b : bool) : string := if b then "true" else "false".

(** The names of the events and of the refusals. *)
Definition event_text (e : Event) : string :=
  match e with
  | EventExactHit => "exact_hit" | EventSemanticHit => "semantic_hit" | EventMiss => "miss"
  | EventIneligible => "ineligible" | EventStored => "stored" | EventEvicted => "evicted"
  | EventEmbedFailed => "embed_failed"
  end.
Definition reason_text (r : DenyReason) : string :=
  match r with
  | DenyRequestRate => "request_rate" | DenyTokenRate => "token_rate" | DenyDailyBudget => "daily_budget"
  | DenyMonthlyBudget => "monthly_budget" | DenyStoreDegraded => "accounting_unavailable" | DenyUnknownTenant => "unknown_tenant"
  end.

Definition one : f64 := f64_of_Z 1.

Section Sink.
Context {R : Type} `{Client R}.

Definition ObserveRequest (path provider code : string) (seconds : f64) (stream : bool) (r : R) : option R :=
  r ← told RequestsTotal [path; provider; code] one r;
  told RequestDurationSeconds [path; provider; FormatBool stream] seconds r.

Definition ObserveTTFT (provider : string) (seconds : f64) (r : R) : option R := told TTFTSeconds [provider] seconds r.

Definition AddCost (tenant provider model : string) (usd : f64) (r : R) : option R :=
  if f64_ltb usd f64_zero then Some r else told CostUSDTotal [labelOrNone tenant; provider; model] usd r.

Definition AddDenial (tenant : string) (reason : DenyReason) (r : R) : option R :=
  told DenialsTotal [labelOrNone tenant; reason_text reason] one r.

Definition AddCacheEvent (e : Event) (r : R) : option R := told CacheEventsTotal [event_text e] one r.

Definition AddTokens (provider : string) (prompt completion : Z) (r : R) : option R :=
  r ← (if 0 <? prompt then told TokensTotal [provider; DirectionPrompt] (f64_of_Z prompt) r else Some r);
  if 0 <? completion then told TokensTotal [provider; DirectionCompletion] (f64_of_Z completion) r else Some r.

Fixpoint AddCacheEvents (evs : list Event) (r : R) : option R :=
  match evs with [] => Some r | e :: evs => r ← AddCacheEvent e r; AddCacheEvents evs r end.

(** One measurement of the request path, with the seconds its clock gave. *)
Definition feed (m : metric * f64) (r : R) : option R :=
  match m.1 with
  | MRequest path provider code stream => ObserveRequest path provider code m.2 stream r
  | MTTFT provider => ObserveTTFT provider m.2 r
  | MTokens provider prompt completion => AddTokens provider prompt completion r
  | MCost tenant provider model usd => AddCost tenant provider model usd r
  | MDenial tenant reason => AddDenial tenant reason r
  | MCache evs => AddCacheEvents evs r
  end.

Fixpoint feed_all (ms : list (metric * f64)) (r : R) : option R :=
  match ms with [] => Some r | m :: ms => r ← feed m r; feed_all ms r end.
End Sink.

(** ** What the series hold *)

(** One addition to one series. *)
Definition addition : Type := instrument * list string * f64.

(** What a measurement is meant to tell, and to which series. *)
Definition tells (m : metric * f64) : list addition :=
  match m.1 with
  | MRequest path provider code stream =>
      [(RequestsTotal, [path; provider; code], one); (RequestDurationSeconds, [path; provider; FormatBool stream], m.2)]
  | MTTFT provider => [(TTFTSeconds, [provider], m.2)]
  | MTokens provider prompt completion =>
      (if 0 <? prompt then [(TokensTotal, [provider; DirectionPrompt], f64_of_Z prompt)] else []) ++
      (if 0 <? completion then [(TokensTotal, [provider; DirectionCompletion], f64_of_Z completion)] else [])
  | MCost tenant provider model usd =>
      if f64_ltb usd f64_zero then [] else [(CostUSDTotal, [labelOrNone tenant; provider; model], usd)]
  | MDenial tenant reason => [(DenialsTotal, [labelOrNone tenant; reason_text reason], one)]
  | MCache evs => (fun e => (CacheEventsTotal, [event_text e], one)) <$> evs
  end.

(** What was told to one series, in order. *)
Definition told_to (i : instrument) (ls : list string) (ts : list addition) : list f64 :=
  omap (fun t => if decide (t.1 = (i, ls)) then Some t.2 else None) ts.

Lemma told_to_cons i ls j ks v ts :
  told_to i ls ((j, ks, v) :: ts) = if decide ((j, ks) = (i, ls)) then v :: told_to i ls ts else told_to i ls ts.
Proof. unfold told_to. cbn. by case_decide. Qed.

(** The strings a measurement carries. *)
Definition carried (m : metric) : list string :=
  match m with
  | MRequest path provider code _ => [path; provider; code]
  | MTTFT provider | MTokens provider _ _ => [provider]
  | MCost tenant provider model _ => [tenant; provider; model]
  | MDenial tenant _ => [tenant]
  | MCache _ => []
  end.

Definition good_addition (t : addition) : Prop := good_labels t.1.1 t.1.2 /\ good_amount t.1.1 t.2.

Section Told.
Context {R : Type} `{Client R, !ClientLaws R}.

Fixpoint told_each (ts : list addition) (r : R) : option R :=
  match ts with [] => Some r | t :: ts => r ← told t.1.1 t.1.2 t.2 r; told_each ts r end.

Lemma told_each_app ts us r : told_each (ts ++ us) r = (r ← told_each ts r; told_each us r).
Proof.
  revert r. induction ts as [|t ts IH]; intros r; [done|]. cbn. destruct (told _ _ _ _); cbn; [apply IH|done].
Qed.

Lemma told_one (i : instrument) ls v (r : R) : told_each [(i, ls, v)] r = told i ls v r.
Proof. cbn. by destruct (told i ls v r). Qed.

Lemma feed_tells m r : feed m r = told_each (tells m) r.
Proof.
  destruct m as [m s]. unfold feed, tells. cbn [fst snd]. destruct m as [p|p a b|t p m u|t re|p q c st|evs].
  - by rewrite told_one.
  - unfold AddTokens. rewrite told_each_app. destruct (0 <? a), (0 <? b); cbn; try done.
    + destruct (told _ _ _ r) as [x|]; cbn; [by destruct (told _ _ _ x)|done].
    + by destruct (told _ _ _ r).
    + by destruct (told _ _ _ r).
  - unfold AddCost. by destruct (f64_ltb u f64_zero); rewrite ?told_one.
  - by rewrite told_one.
  - unfold ObserveRequest. cbn. destruct (told RequestsTotal _ _ r) as [x|]; [cbn|done]. by destruct (told _ _ _ x).
  - revert r. induction evs as [|e evs IH]; intros r; [done|]. cbn. unfold AddCacheEvent. destruct (told _ _ _ r); cbn; [apply IH|done].
Qed.

Lemma feed_all_tells ms r : feed_all ms r = told_each (ms ≫= tells) r.
Proof.
  revert r. induction ms as [|m ms IH]; intros r; [done|]. rewrite bind_cons, told_each_app. cbn. rewrite feed_tells.
  destruct (told_each (tells m) r); cbn; [apply IH|done].
Qed.

(** Good additions are all taken, each by its own series. *)
Lemma told_each_amounts ts r : Forall good_addition ts ->
  exists r', told_each ts r = Some r' /\ forall i ls, amounts r' i ls =
    match told_to i ls ts with [] => amounts r i ls | vs => Some (default [] (amounts r i ls) ++ vs) end.
Proof.
  intros G. revert r. induction G as [|[[i ls] v] ts [Gl Ga] G IH]; intros r; [by exists r|].
  destruct (told_ok i ls v r Gl Ga) as (r1 & E & Own & Others). destruct (IH r1) as (r' & E' & A).
  exists r'. split; [cbn; by rewrite E|]. intros j ks. rewrite A, told_to_cons.
  destruct (decide ((i, ls) = (j, ks))) as [[= <- <-]|N].
  - rewrite Own. destruct (told_to i ls ts); cbn; by rewrite <-?app_assoc.
  - by rewrite (Others j ks) by congruence.
Qed.

End Told.

(** ** The amounts and the labels are good *)

Lemma positive_counts z : 0 <= z -> f64_ltb (f64_of_Z z) f64_zero = false.
Proof. intros Hz. by apply f64_nonneg_not_neg, f64_of_Z_nonneg. Qed.

Lemma labelOrNone_valid t : valid_utf8 t -> valid_utf8 (labelOrNone t).
Proof. unfold labelOrNone. by case_bool_decide. Qed.

Lemma labelOrNone_named t : labelOrNone t <> ""%string.
Proof. unfold labelOrNone. by case_bool_decide. Qed.

Lemma good_one i ls v : good_labels i ls -> good_amount i v -> Forall good_addition [(i, ls, v)].
Proof. intros L A. apply list.Forall_singleton. by split. Qed.

Lemma tells_good m : Forall valid_utf8 (carried m.1) -> Forall good_addition (tells m).
Proof.
  unfold tells. destruct m as [[p|p a b|t p m u|t re|p q c st|evs] s]; cbn [fst snd carried]; intros V.
  - by apply good_one.
  - apply list.Forall_cons in V as [V _]. apply list.Forall_app. split.
    + destruct (Z.ltb_spec 0 a); [|done]. apply good_one; [by repeat constructor|intros _; apply positive_counts; lia].
    + destruct (Z.ltb_spec 0 b); [|done]. apply good_one; [by repeat constructor|intros _; apply positive_counts; lia].
  - destruct (f64_ltb u f64_zero) eqn:L; [done|]. rewrite !list.Forall_cons in V. destruct V as (Vt & Vp & Vm & _).
    apply good_one; [|by intros _]. split; [done|].
    repeat apply list.Forall_cons_2; [by apply labelOrNone_valid|done..].
  - apply list.Forall_cons in V as [V _]. apply good_one; [|done]. split; [done|].
    repeat apply list.Forall_cons_2; [by apply labelOrNone_valid|by destruct re|done].
  - rewrite !list.Forall_cons in V. destruct V as (Vp & Vq & Vc & _).
    constructor; [|apply good_one; [|done]].
    + split; [|done]. split; [done|]. by repeat apply list.Forall_cons_2.
    + split; [done|]. repeat apply list.Forall_cons_2; [done|done|by destruct st|done].
  - apply list.Forall_fmap, list.Forall_forall. intros e _. cbn. split; [|done]. split; [done|]. repeat constructor. by destruct e.
Qed.

Lemma tells_named m i (ls : list string) v : (i, ls, v) ∈ tells m -> i = CostUSDTotal \/ i = DenialsTotal -> hd_error ls <> Some ""%string.
Proof.
  unfold tells. destruct m as [[p|p a b|t p m u|t re|p q c st|evs] s]; cbn [fst snd]; intros E I.
  - apply list_elem_of_singleton in E as [= -> _ _]. by destruct I.
  - apply elem_of_app in E as [E|E]; destruct (0 <? _); try by apply not_elem_of_nil in E.
    all: apply list_elem_of_singleton in E as [= -> _ _]; by destruct I.
  - destruct (f64_ltb _ _); [by apply not_elem_of_nil in E|]. apply list_elem_of_singleton in E as [= _ -> _].
    intros [= X]. by apply labelOrNone_named in X.
  - apply list_elem_of_singleton in E as [= _ -> _]. intros [= X]. by apply labelOrNone_named in X.
  - rewrite !elem_of_cons in E. destruct E as [[= -> _ _]|[[= -> _ _]|E]]; [by destruct I..|by apply not_elem_of_nil in E].
  - apply list_elem_of_fmap in E as (e & [= -> _ _] & _). by destruct I.
Qed.

Lemma told_to_elem i ls ts v : v ∈ told_to i ls ts <-> (i, ls, v) ∈ ts.
Proof.
  unfold told_to. rewrite list_elem_of_omap. split.
  - intros ([[j ks] w] & E & D). cbn in D. case_decide as X; [|done]. by simplify_eq.
  - intros E. exists (i, ls, v). split; [done|]. cbn. by rewrite decide_True.
Qed.

(** The instruments show the traffic and cannot bring the gateway down: from a
    fresh registry, any sequence of measurements whose strings are valid UTF-8 is
    taken without a panic of the client, each series holds exactly what the
    measurements told it, in order, and none exists otherwise; every amount of a
    counter was allowed; and no caller is shown under an empty tenant. *)
Theorem series_show_the_traffic {R : Type} `{Client R, !ClientLaws R} (ms : list (metric * f64)) (r : R) :
  Forall (fun m => Forall valid_utf8 (carried m.1)) ms -> (forall i ls, amounts r i ls = None) ->
  exists r', feed_all ms r = Some r' /\
    (forall i ls, amounts r' i ls = match told_to i ls (ms ≫= tells) with [] => None | vs => Some vs end) /\
    (forall i ls vs, amounts r' i ls = Some vs -> good_labels i ls /\ Forall (good_amount i) vs) /\
    (forall i ls, i = CostUSDTotal \/ i = DenialsTotal -> amounts r' i (""%string :: ls) = None).
Proof.
  intros V F. assert (G : Forall good_addition (ms ≫= tells)).
  { apply list.Forall_bind. by apply (list.Forall_impl _ _ _ V), tells_good. }
  destruct (told_each_amounts (ms ≫= tells) r G) as (r' & E & A). exists r'. rewrite feed_all_tells. split; [done|].
  assert (A' : forall i ls, amounts r' i ls = match told_to i ls (ms ≫= tells) with [] => None | vs => Some vs end).
  { intros i ls. rewrite A, F. by destruct (told_to i ls _). }
  rewrite list.Forall_forall in G. split_and!; [done| |].
  - intros i ls vs Vs. rewrite A' in Vs. destruct (told_to i ls _) as [|v us] eqn:T; [done|]. injection Vs as <-. rewrite <- T. split.
    + assert (v ∈ told_to i ls (ms ≫= tells)) as X by (rewrite T; left). apply told_to_elem, G in X. apply X.
    + apply list.Forall_forall. intros w X. apply told_to_elem, G in X. apply X.
  - intros i ls I. rewrite A'. destruct (told_to i _ _) as [|v us] eqn:T; [done|].
    assert (v ∈ told_to i (""%string :: ls) (ms ≫= tells)) as X by (rewrite T; left). apply told_to_elem in X.
    apply list_elem_of_bind in X as (m & X & _). by destruct (tells_named m i _ v X I).
Qed.

(** ** A client *)

Module MetricsExample.
Definition registry : Type := gmap (instrument * list string) (list f64).

Definition labels_fit (i : instrument) (ls : list string) : bool :=
  (length ls =? length (label_names i))%nat && forallb (fun s => String.eqb (sanitize s) s) ls.

#[export] Instance registry_client : Client registry := {|
  told i ls v r :=
    if labels_fit i ls && negb (is_counter i && f64_ltb v f64_zero)
    then Some (<[(i, ls) := default [] (r !! (i, ls)) ++ [v]]> r) else None;
  amounts r i ls := r !! (i, ls)
|}.

#[export] Instance registry_laws : ClientLaws registry.
Proof.
  constructor. intros i ls v r [Ll Lv] A.
  assert (F : labels_fit i ls = true).
  { unfold labels_fit. rewrite (proj2 (Nat.eqb_eq _ _) Ll). cbn. apply forallb_forall. intros s Hs. apply String.eqb_eq.
    rewrite list.Forall_forall in Lv. by apply Lv, list_elem_of_In. }
  assert (B : is_counter i && f64_ltb v f64_zero = false) by (destruct (is_counter i) eqn:C; [by apply A|done]).
  eexists. split; [cbn; by rewrite F, B|]. split; [apply lookup_insert_eq|]. intros j ks N. by apply lookup_insert_ne.
Qed.

Definition second : f64 := one.
Definition afternoon : list (metric * f64) :=
  [(MCost "" "groq" "llama" one, second); (MTokens "groq" 5 0, second); (MCost "acme" "groq" "llama" (SFopp one), second);
   (MRequest "/v1/chat/completions" "groq" "200" true, second); (MRequest "/v1/chat/completions" "groq" "500" true, second)].

Example series_show_the_traffic_witness :
  exists r', feed_all afternoon (∅ : registry) = Some r' /\
    amounts r' CostUSDTotal ["anonymous"; "groq"; "llama"]%string = Some [one] /\
    amounts r' CostUSDTotal ["acme"; "groq"; "llama"]%string = None /\
    amounts r' RequestDurationSeconds ["/v1/chat/completions"; "groq"; "true"]%string = Some [second; second].
Proof.
  destruct (series_show_the_traffic afternoon (∅ : registry)) as (r' & E & A & _).
  - unfold afternoon. repeat constructor.
  - intros i ls. apply lookup_empty.
  - exists r'. split; [exact E|]. rewrite !A. split; [|split]; reflexivity.
Defined.

(** A price that is not a number is no negative amount: it is added, and the
    counter of that tenant is lost. *)
Example a_nan_cost_is_added :
  exists r', feed_all [(MCost "acme" "groq" "llama" one, second); (MCost "acme" "groq" "llama" S754_nan, second);
                       (MCost "acme" "groq" "llama" one, second)] (∅ : registry) = Some r' /\
    option_map (foldl f64_add f64_zero) (amounts r' CostUSDTotal ["acme"; "groq"; "llama"]%string) = Some S754_nan.
Proof. eexists. split; [reflexivity|]. vm_compute. reflexivity. Qed.

(** What is not guarded is the text of a label: one that is not UTF-8 panics. *)
Example a_broken_label_panics :
  feed (MTTFT (String "255" ""), second) (∅ : registry) = None.
Proof. vm_compute. reflexivity. Qed.
End MetricsExample.
