(* ===== verification/JsonIndent.v ===== *)
(** * Indented JSON ([encoding/json.MarshalIndent])

    The text [MarshalIndent] gives a value with the empty prefix and two spaces, and
    what reads it back.  A text is [laid] out as a value when every part of it is the
    text of the corresponding part, whatever the white space; decoders are specified
    against that, so that what a program decodes does not depend on how another one
    laid it out. *)

From Stdlib Require Import ZArith Lia String Ascii SpecFloat.
From stdpp Require Import base gmap strings list numbers sorting.
From S2P Require Import Prelude Float64 GoString Json JsonText JsonLine Providers Sse Dialect Ledger.

Local Open Scope Z_scope.
Local Open Scope string_scope.

(** ** The text *)

Fixpoint blanks (n : nat) : string := match n with O => "" | S n => String " " (blanks n) end.

(** A new line, indented [n] levels. *)
Definition pad (n : nat) : string := String LF (blanks (2 * n)).

(** Texts separated by commas, white space in front of each. *)
Fixpoint joined (w : string) (ts : list string) : string :=
  match ts with
  | [] => ""
  | t :: ts => w +:+ t +:+ (match ts with [] => "" | _ => String "," (joined w ts) end)
  end.

Definition bracketed (o c : ascii) (n : nat) (ts : list string) : string :=
  match ts with
  | [] => String o (String c "")
  | _ => String o (joined (pad (S n)) ts +:+ pad n +:+ String c "")
  end.

Definition member_line (k t : string) : string := quote k +:+ String ":" (String " " t).

(** [MarshalIndent] of a value, at [n] levels. *)
Fixpoint indent (j : json) (n : nat) : string :=
  match j with
  | JArr l => bracketed "[" "]" n (map (fun j => indent j (S n)) l)
  | JObj ms => bracketed "{" "}" n (map (fun m => member_line m.1 (indent m.2 (S n))) ms)
  | j => marshal j
  end.

(** ** Values as the encoder takes them *)

Definition jint (z : Z) : option json := Some (JNum (Itoa z)).
Definition jfloat (x : f64) : option json := JNum <$> f64_text x.
Definition jstr (s : string) : option json := Some (JStr s).
Definition jbool (b : bool) : option json := Some (JBool b).

(** The members of a struct, in order; a float that is not a number fails the whole. *)
Definition jobj (fs : list (string * option json)) : option json :=
  JObj <$> mapM (fun f => pair f.1 <$> f.2) fs.

(** [omitempty] of a string. *)
Definition jomit (name s : string) : list (string * option json) :=
  if String.eqb s "" then [] else [(name, jstr s)].

(** A nil slice is [null]. *)
Definition jslice {A} (f : A -> option json) (l : list A) : option json :=
  match l with [] => Some JNull | _ => JArr <$> mapM f l end.

(** A map is written by key. *)
Definition key_le {A} (p q : string * A) : Prop := String.leb p.1 q.1 = true.
#[export] Instance key_le_dec {A} (p q : string * A) : Decision (key_le p q).
Proof. unfold key_le. apply _. Defined.
Definition by_key {A} (m : gmap string A) : list (string * A) := merge_sort key_le (map_to_list m).
Definition jmap {A} (f : A -> option json) (m : gmap string A) : option json :=
  jobj ((fun p => (p.1, f p.2)) <$> by_key m).

(** ** Reading it *)

Lemma skip_blanks n x : skip_ws (blanks n +:+ x) = skip_ws x.
Proof. induction n as [|n IH]; [done|]. cbn [blanks]. rewrite str_app_cons. exact IH. Qed.

Lemma skip_pad n x : skip_ws (pad n +:+ x) = skip_ws x.
Proof. unfold pad. rewrite str_app_cons. exact (skip_blanks _ x). Qed.

Lemma stops_pad n x : stops (pad n +:+ x).
Proof. unfold pad. by rewrite str_app_cons. Qed.

Lemma joined_cons w t u ts : joined w (t :: u :: ts) = w +:+ t +:+ String "," (joined w (u :: ts)).
Proof. done. Qed.

(** What is behind the first of them. *)
Definition others (w : string) (ts : list string) : string :=
  match ts with [] => "" | _ => String "," (joined w ts) end.

Lemma joined_others w t ts : joined w (t :: ts) = w +:+ t +:+ others w ts.
Proof. by destruct ts. Qed.

Lemma others_length w ts : (length ts <= String.length (others w ts))%nat.
Proof.
  induction ts as [|t ts IH]; [done|]. cbn [others String.length length]. rewrite joined_others, !str_app_length. lia.
Qed.

Lemma loop_elements_joined d k n m l rest :
  l <> [] -> Forall (fun p => reads_as d p.1 p.2) l -> (length l <= k)%nat ->
  loop_elements (value d) k (skip_ws (joined (pad n) (map fst l) +:+ pad m +:+ String "]" rest)) = Some (l, rest).
Proof.
  intros Ne Hl. revert k. induction Hl as [|[t j] l [St Rt] Hl IH]; intros k Hk; [done|].
  destruct k as [|k]; [simpl in Hk; lia|]. cbn [fst snd] in *. destruct l as [|p l].
  - cbn [map fst joined]. rewrite str_app_empty, !str_app_assoc, skip_pad, starts_skip by done.
    cbn [loop_elements]. rewrite Rt by apply stops_pad. by rewrite consumed_app, skip_pad.
  - cbn [map]. rewrite joined_cons, !str_app_assoc, skip_pad, starts_skip by done. rewrite str_app_cons.
    cbn [loop_elements]. rewrite Rt by done. rewrite consumed_app. cbn [skip_ws is_ws Ascii.eqb Bool.eqb orb fst].
    change (p.1 :: map fst l) with (map fst (p :: l)). rewrite IH by (try done; simpl in *; lia). done.
Qed.

Definition line_of (m : string * (string * json)) : string := member_line m.1 m.2.1.

Lemma loop_members_joined d k n m ms rest :
  ms <> [] -> Forall (fun m => valid_utf8 m.1 /\ reads_as d m.2.1 m.2.2) ms -> (length ms <= k)%nat ->
  loop_members (value d) k (skip_ws (joined (pad n) (map line_of ms) +:+ pad m +:+ String "}" rest)) = Some (ms, rest).
Proof.
  intros Ne Hl. revert k. induction Hl as [|[key [t v]] ms (Vk & Rt) Hl IH]; intros k Hk; [done|].
  destruct k as [|k]; [simpl in Hk; lia|]. cbn [fst snd] in *.
  assert (Skip : forall w x, w ∈ [""; " "; pad m] -> skip_ws (w +:+ x) = skip_ws x /\ (stops x -> stops (w +:+ x))).
  { intros w x Hw. rewrite !elem_of_cons in Hw. destruct Hw as [->|[->|[->|[]%not_elem_of_nil]]]; [done|done|].
    split; [apply skip_pad|intros _; apply stops_pad]. }
  assert (L : forall x, lex_str (quote_from Fresh key +:+ String dquote x) = Some (quote_from Fresh key, x)) by apply lex_quote.
  assert (U : unquote (quote_from Fresh key) = key) by (by rewrite unquote_quote).
  assert (T : forall x, line_of (key, (t, v)) +:+ x
            = String dquote (quote_from Fresh key +:+ String dquote ("" +:+ String ":" (" " +:+ t +:+ x)))).
  { intros x. unfold line_of, member_line, quote. cbn [fst snd]. by rewrite !str_app_cons, !str_app_assoc, !str_app_cons. }
  destruct ms as [|p ms].
  - cbn [map joined]. rewrite str_app_empty, !str_app_assoc, skip_pad, T. cbn [skip_ws is_ws Ascii.eqb Bool.eqb orb dquote].
    rewrite (loop_members_turn d (value_compacts_ok d) k _ t v "" " " (pad m) "}"%char rest L Rt Skip) by by right. by rewrite U.
  - cbn [map]. rewrite joined_cons, !str_app_assoc, skip_pad, T, str_app_cons.
    cbn [skip_ws is_ws Ascii.eqb Bool.eqb orb dquote].
    pose proof (loop_members_turn d (value_compacts_ok d) k _ t v "" " " "" ","%char
      (joined (pad n) (map line_of (p :: ms)) +:+ pad m +:+ String "}" rest) L Rt) as Turn.
    etransitivity; [apply Turn; [intros w x Hw; apply Skip; set_solver|by left]|].
    unfold after_member. cbn [Ascii.eqb Bool.eqb]. change (line_of p :: map line_of ms) with (map line_of (p :: ms)).
    rewrite IH by (try done; simpl in *; lia). by rewrite U.
Qed.

(** The inside of a container that is not empty, from its first part on. *)
Lemma first_part n m t ts (c : ascii) rest : starts t ->
  let s := skip_ws (joined (pad n) (t :: ts) +:+ pad m +:+ String c rest) in
  s = t +:+ others (pad n) ts +:+ pad m +:+ String c rest /\ (length (t :: ts) <= S (String.length s))%nat /\
  exists a u, s = String a u /\ is_ws a = false /\ a <> "]"%char.
Proof.
  intros St. cbn zeta. rewrite joined_others, !str_app_assoc, skip_pad, starts_skip by done. split; [done|]. split.
  - rewrite !str_app_length. pose proof (others_length (pad n) ts). cbn [length]. lia.
  - destruct St as (a & u & -> & H). rewrite str_app_cons. by eexists _, _.
Qed.

Lemma array_body_bracketed d n l rest :
  Forall (fun p => reads_as d p.1 p.2) l ->
  exists s, bracketed "[" "]" n (map fst l) +:+ rest = String "[" s /\ array_body (value d) s = Some (l, rest).
Proof.
  intros Hl. destruct l as [|p l]; [by eexists|]. eexists. split.
  { cbn [map bracketed]. rewrite str_app_cons, !str_app_assoc, str_app_cons, str_app_nil. done. }
  destruct (first_part (S n) n p.1 (map fst l) "]"%char rest (proj1 (Forall_inv Hl))) as (_ & K & a & u & E & _ & Na).
  change (p.1 :: map fst l) with (map fst (p :: l)) in *. rewrite length_map in K.
  pose proof (loop_elements_joined d _ (S n) n (p :: l) rest ltac:(done) Hl K) as R.
  unfold array_body. rewrite E in R |- *. by destruct (Ascii.eqb_spec a "]"%char).
Qed.

Lemma object_body_bracketed d n ms rest :
  Forall (fun m => valid_utf8 m.1 /\ reads_as d m.2.1 m.2.2) ms ->
  exists s, bracketed "{" "}" n (map line_of ms) +:+ rest = String "{" s /\ object_body (value d) s = Some (ms, rest).
Proof.
  intros Hl. destruct ms as [|m ms]; [by eexists|]. eexists. split.
  { cbn [map bracketed]. rewrite str_app_cons, !str_app_assoc, str_app_cons, str_app_nil. done. }
  assert (St : starts (line_of m)) by (unfold line_of, member_line, quote; rewrite str_app_cons; by eexists _, _).
  destruct (first_part (S n) n (line_of m) (map line_of ms) "}"%char rest St) as (F & K & a & u & E & _ & _).
  change (line_of m :: map line_of ms) with (map line_of (m :: ms)) in *. rewrite length_map in K.
  pose proof (loop_members_joined d _ (S n) n (m :: ms) rest ltac:(done) Hl K) as R.
  assert (Q : a = dquote).
  { rewrite F in E. unfold line_of, member_line, quote in E. rewrite !str_app_cons in E. by injection E. }
  unfold object_body. rewrite E in R |- *. by subst a.
Qed.

Lemma reads_bracketed_arr d n l :
  Forall (fun p => reads_as d p.1 p.2) l -> reads_as (S d) (bracketed "[" "]" n (map fst l)) (JArr (map snd l)).
Proof.
  intros Hl. split; [destruct l; by eexists _, _|]. intros rest _.
  destruct (array_body_bracketed d n l rest Hl) as (s & -> & B). by rewrite value_arr, B.
Qed.

Lemma reads_bracketed_obj d n ms :
  Forall (fun m => valid_utf8 m.1 /\ reads_as d m.2.1 m.2.2) ms ->
  reads_as (S d) (bracketed "{" "}" n (map line_of ms)) (JObj (map (fun m => (m.1, m.2.2)) ms)).
Proof.
  intros Hl. split; [destruct ms; by eexists _, _|]. intros rest _.
  destruct (object_body_bracketed d n ms rest Hl) as (s & -> & B). by rewrite value_obj, B.
Qed.

Lemma map_pair {A B C} (f : A -> B) (g : A -> C) (l : list A) : map fst (map (fun x => (f x, g x)) l) = map f l.
Proof. by rewrite map_map. Qed.

(** An indented value reads as the value, as its compact text does. *)
Lemma reads_indent j d n : text_json d j -> reads_as d (indent j n) j.
Proof.
  revert d n. induction j as [|b|lit|s|l IH|ms IH] using json_ind'; intros d n W;
    [by apply value_text|by apply value_text|by apply value_text|by apply value_text| |].
  - inversion_clear W as [| | | |d' ? H|]. cbn [indent].
    rewrite <- (map_pair (fun j => indent j (S n)) (fun j => j)).
    replace (JArr l) with (JArr (map snd (map (fun j => (indent j (S n), j)) l))) by (by rewrite map_map, map_id).
    apply reads_bracketed_arr.
    rewrite list.Forall_forall in IH, H. apply list.Forall_forall. intros p (x & -> & Hx)%list_elem_of_fmap.
    by apply IH, H.
  - inversion_clear W as [| | | | |d' ? H]. cbn [indent].
    pose (full := map (fun m : string * json => (m.1, (indent m.2 (S n), m.2))) ms).
    assert (E1 : map (fun m : string * json => member_line m.1 (indent m.2 (S n))) ms = map line_of full)
      by (unfold full; by rewrite map_map).
    assert (E2 : ms = map (fun m => (m.1, m.2.2)) full).
    { unfold full. rewrite map_map. rewrite <- (map_id ms) at 1. apply map_ext. by intros []. }
    rewrite E1. replace (JObj ms) with (JObj (map (fun m => (m.1, m.2.2)) full)) by (by rewrite <- E2). apply reads_bracketed_obj.
    rewrite list.Forall_forall in IH, H. apply list.Forall_forall. intros p (x & -> & Hx)%list_elem_of_fmap.
    destruct (H x Hx). split; [done|]. by apply (IH x).
Qed.

(** ** Layouts *)

Definition is_leaf (j : json) : bool := match j with JArr _ | JObj _ => false | _ => true end.

(** [t] is a text of [j], and so are the texts a decoder takes out of it. *)
Inductive laid : string -> json -> Prop :=
| laid_leaf t j : is_leaf j = true -> tree_of t = j -> laid t j
| laid_arr t ts l : tree_of t = JArr l -> elements t = ts -> Forall2 laid ts l -> laid t (JArr l)
| laid_obj t ts ms : tree_of t = JObj ms -> members t = zip ms.*1 ts -> Forall2 laid ts ms.*2 -> laid t (JObj ms).

Lemma laid_tree t j : laid t j -> tree_of t = j.
Proof. by destruct 1. Qed.

Lemma skip_bracketed o c n ts : is_ws o = false -> skip_ws (bracketed o c n ts) = bracketed o c n ts.
Proof. intros H. destruct ts; cbn [bracketed skip_ws]; by rewrite H. Qed.

Lemma elements_bracketed n l :
  Forall (fun p => reads_as (pred maxNestingDepth) p.1 p.2) l -> elements (bracketed "[" "]" n (map fst l)) = map fst l.
Proof.
  intros Hl. destruct (array_body_bracketed _ n l "" Hl) as (s & E & B). rewrite str_app_empty in E.
  unfold elements. rewrite skip_bracketed, E by done. cbn [Ascii.eqb Bool.eqb]. by rewrite B.
Qed.

Lemma members_bracketed n ms rest :
  Forall (fun m => valid_utf8 m.1 /\ reads_as (pred maxNestingDepth) m.2.1 m.2.2) ms ->
  members (bracketed "{" "}" n (map line_of ms) +:+ rest) = (fun m => (m.1, m.2.1)) <$> ms.
Proof.
  intros Hl. destruct (object_body_bracketed _ n ms rest Hl) as (s & E & B). unfold members. rewrite E.
  cbn [skip_ws is_ws Ascii.eqb Bool.eqb orb]. by rewrite B.
Qed.

Lemma indent_members d n ms rest : text_json (S d) (JObj ms) -> (S d <= maxNestingDepth)%nat ->
  members (indent (JObj ms) n +:+ rest) = zip ms.*1 (map (fun m => indent m.2 (S n)) ms).
Proof.
  intros W D. inversion_clear W as [| | | | |d' ? H]. rewrite list.Forall_forall in H. cbn [indent].
  pose (full := map (fun m : string * json => (m.1, (indent m.2 (S n), m.2))) ms).
  assert (E1 : map (fun m : string * json => member_line m.1 (indent m.2 (S n))) ms = map line_of full)
    by (unfold full; by rewrite map_map).
  rewrite E1, members_bracketed.
  - unfold full. clear. induction ms as [|m ms IH]; [done|]. cbn. f_equal. exact IH.
  - apply list.Forall_forall. intros p (x & -> & Hx)%list_elem_of_fmap. destruct (H x Hx) as [Vx Tx]. split; [done|].
    eapply reads_mono, reads_indent, Tx. lia.
Qed.

Lemma indent_laid j d n : text_json d j -> (d <= maxNestingDepth)%nat -> laid (indent j n) j.
Proof.
  revert d n. induction j as [|b|lit|s|l IH|ms IH] using json_ind'; intros d n W D;
    try (apply laid_leaf; [done|]; by eapply tree_of_text, reads_indent).
  - destruct d as [|d]; [by inversion W|]. pose proof W as W0. inversion_clear W as [| | | |d' ? H|].
    rewrite list.Forall_forall in IH, H.
    apply laid_arr with (map (fun j => indent j (S n)) l); [by eapply tree_of_text, reads_indent| |].
    + cbn [indent]. rewrite <- (map_pair (fun j => indent j (S n)) (fun j => j)). apply elements_bracketed.
      apply list.Forall_forall. intros p (x & -> & Hx)%list_elem_of_fmap.
      eapply reads_mono, reads_indent, H, Hx. lia.
    + apply Forall2_fmap_l, Forall_Forall2_diag, list.Forall_forall. intros x Hx. eapply IH; [done|by apply H|lia].
  - destruct d as [|d]; [by inversion W|]. pose proof W as W0. inversion_clear W as [| | | | |d' ? H].
    rewrite list.Forall_forall in IH, H.
    apply laid_obj with (map (fun m => indent m.2 (S n)) ms); [by eapply tree_of_text, reads_indent| |].
    + rewrite <- (str_app_empty (indent _ n)). by eapply indent_members.
    + apply Forall2_fmap_l, Forall2_fmap_r, Forall_Forall2_diag, list.Forall_forall. intros x Hx.
      eapply (IH x); [done|by apply H|lia].
Qed.

(** What a file that holds it, with a new line at its end, is parsed as. *)
Lemma parse_indent j d : text_json d j -> (d <= maxNestingDepth)%nat -> parse (indent j 0 +:+ newline) = Some j.
Proof. intros W D. eapply reads_parse_line, reads_mono, reads_indent; done. Qed.

Lemma file_laid ms d : text_json (S d) (JObj ms) -> (S d <= maxNestingDepth)%nat ->
  laid (indent (JObj ms) 0 +:+ newline) (JObj ms).
Proof.
  intros W D. apply laid_obj with (map (fun m => indent m.2 1) ms).
  - unfold tree_of. by rewrite (parse_indent _ (S d)).
  - by eapply indent_members.
  - inversion_clear W as [| | | | |d' ? H]. rewrite list.Forall_forall in H.
    apply Forall2_fmap_l, Forall2_fmap_r, Forall_Forall2_diag, list.Forall_forall. intros x Hx.
    eapply indent_laid; [by apply H|lia].
Qed.

(** ** Decoding a layout *)

(** [d], over a destination that holds [old], takes [a] from any text of [j]. *)
Definition decodes {A} (d : decoder A) (j : json) (old a : A) : Prop := forall t, laid t j -> d t old = (a, true).

Lemma decodes_int z old : is_int64 z -> decodes dec_int (JNum (Itoa z)) old z.
Proof. intros I t L. unfold dec_int. rewrite (laid_tree _ _ L). by rewrite ParseInt_Itoa. Qed.

Lemma decodes_float x lit old : f64_text x = Some lit -> decodes dec_float (JNum lit) old x.
Proof.
  intros E t L. pose proof (dec_float_text x lit old E) as D. unfold dec_float in *.
  rewrite (laid_tree _ _ L). by rewrite (tree_of_reads _ _ (reads_f64 _ _ _ E)) in D.
Qed.

Lemma decodes_string s old : decodes dec_string (JStr s) old s.
Proof. intros t L. unfold dec_string. by rewrite (laid_tree _ _ L). Qed.

Lemma decodes_bool b old : decodes dec_bool (JBool b) old b.
Proof. intros t L. unfold dec_bool. by rewrite (laid_tree _ _ L). Qed.

Lemma decodes_at {A B} (get : A -> B) set d j old x :
  decodes d j (get old) x -> decodes (at_field get set d) j old (set x old).
Proof. intros D t L. by apply at_field_eq, D. Qed.

(** The fields of a struct, member after member. *)
Definition takes {A} (fs : list (field A)) (ms : list (string * json)) (old a : A) : Prop :=
  forall ts, Forall2 laid ts ms.*2 -> dec_fields fs (zip ms.*1 ts) old = (a, true).

Lemma takes_none {A} (fs : list (field A)) a : takes fs [] a a.
Proof. by intros ts ->%Forall2_nil_inv_r. Qed.

Lemma takes_hit {A} (fs : list (field A)) k j ms old b a d :
  find_field fs k = Some d -> decodes d j old b -> takes fs ms b a -> takes fs ((k, j) :: ms) old a.
Proof.
  intros F D T ts L. cbn [fmap list_fmap fst snd] in L. apply Forall2_cons_inv_r in L as (t & ts' & Lt & Lts & ->).
  cbn [fmap list_fmap fst snd zip zip_with]. rewrite (dec_fields_hit _ _ _ _ _ d b F) by (by apply D). by apply T.
Qed.

Lemma takes_miss {A} (fs : list (field A)) k j ms old a :
  find_field fs k = None -> takes fs ms old a -> takes fs ((k, j) :: ms) old a.
Proof.
  intros F T ts L. cbn [fmap list_fmap fst snd] in L. apply Forall2_cons_inv_r in L as (t & ts' & Lt & Lts & ->).
  cbn [fmap list_fmap fst snd zip zip_with]. rewrite dec_fields_miss by done. by apply T.
Qed.

Lemma decodes_struct {A} (fs : list (field A)) ms old a : takes fs ms old a -> decodes (dec_struct fs) (JObj ms) old a.
Proof.
  intros T t L. inversion L as [? ? Lf|?|? ts ? E M F]; subst; [done|]. unfold dec_struct. rewrite E, M. by apply T.
Qed.

Lemma decodes_slice {A} (zero : A) (d : decoder A) l vs :
  Forall2 (fun j v => decodes d j zero v) l vs ->
  decodes (dec_slice zero d) (JArr l) nil_slice (if decide (l = []) then nil_slice else mkSlice (length vs) vs).
Proof.
  intros F t L. inversion L as [? ? Lf|? ts ? E M G|?]; subst; [done|]. unfold dec_slice. rewrite E.
  destruct l as [|j l]; [done|]. rewrite decide_False by done. cbn [backing nil_slice].
  assert (D : decode_over zero d (elements t) [] = (vs, true)).
  { clear -F G. revert vs F. induction G as [|u x us xs Lu G IH]; intros vs F.
    - by apply Forall2_nil_inv_l in F as ->.
    - apply Forall2_cons_inv_l in F as (v & vs' & D & F & ->). cbn [decode_over].
      change (default zero (head [])) with zero. rewrite (D _ Lu). change (tail (@nil A)) with (@nil A). by rewrite (IH vs' F). }
  rewrite D. by rewrite (Forall2_length _ _ _ G), (Forall2_length _ _ _ F).
Qed.

(** ** Decoding what was encoded *)

(** The same of a value that may fail to be encoded. *)
Definition odecodes {A} (d : decoder A) (oj : option json) (old a : A) : Prop := forall j, oj = Some j -> decodes d j old a.
Definition otakes {A} (fs : list (field A)) (os : list (string * option json)) (old a : A) : Prop :=
  forall ms, mapM (fun f => pair f.1 <$> f.2) os = Some ms -> takes fs ms old a.

Lemma odecodes_int z old : is_int64 z -> odecodes dec_int (jint z) old z.
Proof. intros I j [= <-]. by apply decodes_int. Qed.

Lemma odecodes_float x old : odecodes dec_float (jfloat x) old x.
Proof. intros j H. unfold jfloat in H. destruct (f64_text x) eqn:E; [|done]. injection H as <-. by eapply decodes_float. Qed.

Lemma odecodes_string s old : odecodes dec_string (jstr s) old s.
Proof. intros j [= <-]. apply decodes_string. Qed.

Lemma odecodes_bool b old : odecodes dec_bool (jbool b) old b.
Proof. intros j [= <-]. apply decodes_bool. Qed.

Lemma odecodes_at {A B} (get : A -> B) set d oj old x :
  odecodes d oj (get old) x -> odecodes (at_field get set d) oj old (set x old).
Proof. intros D j E. by apply decodes_at, D. Qed.

Lemma otakes_none {A} (fs : list (field A)) a : otakes fs [] a a.
Proof. intros ms [= <-]. apply takes_none. Qed.

Lemma mapM_field k oj os ms : mapM (fun f : string * option json => pair f.1 <$> f.2) ((k, oj) :: os) = Some ms ->
  exists j ms', oj = Some j /\ mapM (fun f => pair f.1 <$> f.2) os = Some ms' /\ ms = (k, j) :: ms'.
Proof.
  cbn [mapM fst snd]. destruct oj as [j|]; [|done]. cbn. destruct (mapM _ os) as [ms'|]; [|done]. cbn. intros [= <-]. by eexists _, _.
Qed.

Lemma otakes_hit {A} (fs : list (field A)) k oj os old b a d :
  find_field fs k = Some d -> odecodes d oj old b -> otakes fs os b a -> otakes fs ((k, oj) :: os) old a.
Proof. intros F D T ms (j & ms' & -> & E & ->)%mapM_field. eapply takes_hit; [done|by apply D|by apply T]. Qed.

Lemma otakes_miss {A} (fs : list (field A)) k oj os old a :
  find_field fs k = None -> otakes fs os old a -> otakes fs ((k, oj) :: os) old a.
Proof. intros F T ms (j & ms' & -> & E & ->)%mapM_field. eapply takes_miss; [done|by apply T]. Qed.

Lemma odecodes_struct {A} (fs : list (field A)) os old a : otakes fs os old a -> odecodes (dec_struct fs) (jobj os) old a.
Proof.
  intros T j E. unfold jobj in E. destruct (mapM _ os) as [ms|] eqn:M; [|done]. injection E as <-. by apply decodes_struct, T.
Qed.

Definition slice_of {A} (l : list A) : slice A := mkSlice (length l) l.
Lemma slice_list_of {A} (l : list A) : slice_list (slice_of l) = l.
Proof. apply firstn_all. Qed.

Lemma odecodes_list {A B} (zero : B) (d : decoder B) (f : A -> option json) (g : A -> B) l :
  Forall (fun x => odecodes d (f x) zero (g x)) l ->
  odecodes (dec_slice zero d) (JArr <$> mapM f l) nil_slice (slice_of (g <$> l)).
Proof.
  intros F j E. destruct (mapM f l) as [js|] eqn:M; [|done]. injection E as <-. apply mapM_Some in M.
  assert (G : Forall2 (fun j v => decodes d j zero v) js (g <$> l)).
  { apply Forall2_fmap_r. clear -F M. induction M as [|x j l js E M IH]; [constructor|].
    apply list.Forall_cons in F as [Fx F]. constructor; [by apply Fx|by apply IH]. }
  pose proof (decodes_slice zero d js _ G) as D. case_decide as N; [|exact D]. subst js. apply Forall2_nil_inv_r in M. by subst l.
Qed.

(** ** When a value can be read back *)

(** Every string in it is valid UTF-8. *)
Definition otext (d : nat) (oj : option json) : Prop := forall j, oj = Some j -> text_json d j.

Lemma otext_int d z : otext d (jint z).
Proof. intros j [= <-]. constructor. apply Itoa_number. Qed.
Lemma otext_float d x : otext d (jfloat x).
Proof. intros j H. unfold jfloat in H. destruct (f64_text x) eqn:E; [|done]. injection H as <-. constructor. by apply (f64_text_spec x). Qed.
Lemma otext_string d s : valid_utf8 s -> otext d (jstr s).
Proof. intros V j [= <-]. by constructor. Qed.
Lemma otext_bool d b : otext d (jbool b).
Proof. intros j [= <-]. constructor. Qed.
Lemma otext_null d : otext d (Some JNull).
Proof. intros j [= <-]. constructor. Qed.

Lemma otext_obj d os : Forall (fun f => valid_utf8 f.1 /\ otext d f.2) os -> otext (S d) (jobj os).
Proof.
  intros F j E. unfold jobj in E. destruct (mapM _ os) as [ms|] eqn:M; [|done]. injection E as <-. constructor.
  revert ms M. induction F as [|[k oj] os [V T] F IH]; intros ms M; [by injection M as <-|].
  apply mapM_field in M as (j & ms' & -> & E & ->). constructor; [by split; [|apply T]|by apply IH].
Qed.

Lemma otext_arr {A} d (f : A -> option json) l : Forall (fun x => otext d (f x)) l -> otext (S d) (JArr <$> mapM f l).
Proof.
  intros F j E. destruct (mapM f l) as [js|] eqn:M; [|done]. injection E as <-. apply mapM_Some in M. constructor.
  induction M as [|x j l js E M IH]; [constructor|]. apply list.Forall_cons in F as [Fx F]. constructor; [by apply Fx|by apply IH].
Qed.

Lemma otext_slice {A} d (f : A -> option json) l : Forall (fun x => otext d (f x)) l -> otext (S d) (jslice f l).
Proof. intros F. destruct l; [apply otext_null|by apply otext_arr]. Qed.

Lemma by_key_perm {A} (m : gmap string A) : by_key m ≡ₚ map_to_list m.
Proof. apply merge_sort_Permutation. Qed.

Lemma otext_map {A} d (f : A -> option json) (m : gmap string A) :
  map_Forall (fun k x => valid_utf8 k /\ otext d (f x)) m -> otext (S d) (jmap f m).
Proof.
  intros F. apply otext_obj, list.Forall_fmap. rewrite by_key_perm. apply list.Forall_forall. intros [k x] Hx.
  apply elem_of_map_to_list in Hx. by apply (F k x).
Qed.

Create HintDb encoded.
#[export] Hint Resolve otext_int otext_float otext_string otext_bool otext_null : encoded.

(** ** A file of one object *)

(** The bytes of a file, if its value can be encoded. *)
Definition written (os : list (string * option json)) : option string := (fun j => indent j 0 +:+ newline) <$> jobj os.

Lemma written_reads {A} (d : decoder A) n os text old a : (S n <= maxNestingDepth)%nat ->
  written os = Some text -> otext (S n) (jobj os) -> odecodes d (jobj os) old a -> Unmarshal d text old = Some a.
Proof.
  unfold written. intros N E T D. destruct (jobj os) as [j|] eqn:J; [|done]. cbn in E. injection E as <-.
  specialize (T j eq_refl). specialize (D j eq_refl).
  assert (exists ms, j = JObj ms) as [ms ->].
  { unfold jobj in J. destruct (mapM _ os) as [ms|]; [|done]. injection J as <-. by exists ms. }
  unfold Unmarshal. rewrite (parse_indent _ (S n) T) by lia. by rewrite (D _ (file_laid ms n T ltac:(lia))).
Qed.

(** One field after another of a struct that is encoded. *)
Ltac encoded_fields := repeat (apply list.Forall_cons_2; [split; [reflexivity|cbn [snd]]|]); try apply list.Forall_nil_2.

(** The next member of an encoded struct is a field of the decoder, or is none. *)
Ltac simpl_old := cbn -[jobj jmap jint jfloat jstr jbool mapM fmap].
Tactic Notation "taken" uconstr(H) := eapply otakes_hit; [reflexivity|apply odecodes_at, H|simpl_old].
Ltac skipped := apply otakes_miss; [reflexivity|].
