(* ===== verification/ProfileFile.v ===== *)
(** * What a calibration writes and the simulator replays (cmd/calibrate/main.go,
      internal/llmsim/profile.go)

    The document of a calibration as the file it becomes, and the file as the
    simulator loads it. *)

From Stdlib Require Import ZArith Lia String Ascii SpecFloat.
From stdpp Require Import base gmap strings list numbers sorting.
From S2P Require Import Prelude Float64 GoString Timestamp Providers Json JsonText JsonLine JsonIndent Wire Upstream LlmSim Calibrate.

Local Open Scope Z_scope.

(** ** The document *)

(** The flags and the clock of the run, of which the file tells. *)
Record origin := mkOrigin { baseURL : string; prompt : string; recorded_at : Time }.

(** The maps of Go are encoded in the order of their keys. *)
Definition dist_json (d : Dist) : option json := jobj [("mean", jfloat (Mean d)); ("p95", jfloat (P95 d))]%string.
Definition recorded_json (o : origin) (r : Recorded) : option json := jobj
  [("chunk_samples", jint (chunk_samples r)); ("model", jstr (provider_model r)); ("prompt", jstr (prompt o));
   ("provider_base_url", jstr (baseURL o)); ("recorded_at", jstr (rfc3339 0 (recorded_at o / Nano * Nano)));
   ("samples", jint (sample_count r))]%string.
Definition profile_members (o : origin) (r : Recorded) : list (string * option json) :=
  [("itl_ms", dist_json (ITL (profile r))); ("name", jstr (PrName (profile r)));
   ("output_tokens", dist_json (OutputTokens (profile r))); ("recorded", recorded_json o r);
   ("ttft_ms", dist_json (TTFT (profile r)))]%string.

Inductive command_error := RunFailed (e : Calibrate.run_error) | EncodeFailed | WriteFailed.

(** [run], from the recordings on: the text written to the file, and the error.  The
    same bytes less the new line go to standard output. *)
Definition command (key name model : string) (n : Z) (recs : nat -> Time * recording) (o : origin) (writable : bool)
    : option string * option command_error :=
  match calibrate key name model n recs with
  | inr e => (None, Some (RunFailed e))
  | inl r =>
      match written (profile_members o r) with
      | None => (None, Some EncodeFailed)
      | Some text => if writable then (Some text, None) else (None, Some WriteFailed)
      end
  end.

(** ** It is replayed as it was recorded *)

Definition origin_utf8 (o : origin) (r : Recorded) : Prop :=
  valid_utf8 (baseURL o) /\ valid_utf8 (prompt o) /\ valid_utf8 (rfc3339 0 (recorded_at o / Nano * Nano)) /\
  valid_utf8 (provider_model r) /\ valid_utf8 (PrName (profile r)).

Lemma otext_dist d x : otext (S d) (dist_json x).
Proof. apply otext_obj. encoded_fields; auto with encoded. Qed.
#[export] Hint Resolve otext_dist : encoded.

Lemma otext_profile d o r : origin_utf8 o r -> otext (S (S d)) (jobj (profile_members o r)).
Proof.
  intros (V1 & V2 & V3 & V4 & V5). apply otext_obj. encoded_fields; auto with encoded. apply otext_obj. encoded_fields; auto with encoded.
Qed.

Lemma odecodes_dist x old : odecodes dec_dist (dist_json x) old x.
Proof.
  apply odecodes_struct. taken (odecodes_float _ _). taken (odecodes_float _ _). destruct x. apply otakes_none.
Qed.

Lemma odecodes_profile o r : odecodes dec_profile (jobj (profile_members o r)) zeroProfile (profile r).
Proof.
  apply odecodes_struct. taken (odecodes_dist _ _). taken (odecodes_string _ _). taken (odecodes_dist _ _). skipped.
  taken (odecodes_dist _ _). destruct (profile r). apply otakes_none.
Qed.

(** (C37) The simulator replays what was recorded: the file of a calibration loads as the
    very profile that was measured, bit for bit, or is refused for what is wrong with
    the measured numbers; it is never taken for something else, and never unreadable. *)
Theorem the_simulator_replays_the_recording key name model n recs o writable r text :
  calibrate key name model n recs = inl r -> origin_utf8 o r ->
  command key name model n recs o writable = (Some text, None) ->
  LoadProfile (Some text) = match validate (profile r) with None => inl (profile r) | Some why => inr (ErrInvalid why) end.
Proof.
  unfold command. intros -> V E. destruct (written _) as [t|] eqn:W; [|done]. destruct writable; [|done]. injection E as ->.
  unfold LoadProfile.
  by rewrite (written_reads dec_profile 1 _ text _ _ ltac:(pose proof deep; lia) W (otext_profile 0 o r V) (odecodes_profile o r)).
Qed.

Module ProfileExample.
Import CalibrateExample.
Definition recs (i : nat) : Time * recording := (ms 10, Response 200 "" lines false).
Definition o : origin := mkOrigin "https://api.groq.com/openai/v1" defaultPrompt 63922088399012340000.
Definition measured : Recorded :=
  mkRecorded (LlmSim.mkProfile "small" (mkDist (f64_of_Z 90) (f64_of_Z 90)) (mkDist (f64_of_Z 30) (f64_of_Z 30))
    (mkDist (f64_of_Z 2) (f64_of_Z 2))) 2 2 "small".
Lemma recorded : calibrate "k" "" "small" 2 recs = inl measured.
Proof. vm_compute. reflexivity. Qed.

Definition file : string := default ""%string (written (profile_members o measured)).

(** Byte for byte, with its quotes turned. *)
Example the_file : String.concat newline
   ["{"; "  'itl_ms': {"; "    'mean': 30,"; "    'p95': 30"; "  },"; "  'name': 'small',"; "  'output_tokens': {";
    "    'mean': 2,"; "    'p95': 2"; "  },"; "  'recorded': {"; "    'chunk_samples': 2,"; "    'model': 'small',";
    "    'prompt': 'Count slowly from one to twenty, one number per line.',";
    "    'provider_base_url': 'https://api.groq.com/openai/v1',"; "    'recorded_at': '2026-08-11T23:39:59Z',";
    "    'samples': 2"; "  },"; "  'ttft_ms': {"; "    'mean': 90,"; "    'p95': 90"; "  }"; "}"; ""]%string
  = string_of_list_ascii ((fun c => if (c =? "034")%char then "'"%char else c) <$> list_ascii_of_string file).
Proof. vm_compute. reflexivity. Qed.

Example the_simulator_replays_the_recording_witness : LoadProfile (Some file) = inl (profile measured).
Proof.
  assert (V : origin_utf8 o measured) by (vm_compute; tauto).
  exact (the_simulator_replays_the_recording "k" "" "small" 2 recs o true measured file recorded V ltac:(vm_compute; reflexivity)).
Defined.
End ProfileExample.
