(* ===== verification/StudyRun.v ===== *)
(** * A run of the cache study (cmd/cachestudy/main.go, report.go)

    The command from its options to the result file: what it loads, buys, measures
    and refuses, in order, and the JSON text it writes, to the byte.  The network,
    the clock and the file system are given; of the answers to price, which the
    workers fetch in any order, the outcome is given. *)

From Stdlib Require Import ZArith Lia String Ascii SpecFloat.
From stdpp Require Import base gmap strings list numbers sorting.
From S2P Require Import Prelude Float64 GoString Canvas Decimal Timestamp Providers Json JsonText JsonLine JsonIndent.
From S2P Require Import Upstream Embedder Samples Corpus Study Verdict Collect.

Local Open Scope Z_scope.

(** ** The result (report.go) *)

Definition resultSchema : string := "penstock/cache-quality/result/v1".
Definition verdictQuestion : string :=
  "Is there any similarity threshold where the paraphrase hit rate is meaningfully above the opposite false hit rate?".

Record CorpusSummary := mkCorpusSummary {
  Path : string; NGroups : Z; ProbesByLabel : gmap string Z; GroupsByDomain : gmap string Z; DistinctPrompts : Z
}.
Record EmbedderSummary := mkEmbedderSummary { EBaseURL : string; EModel : string; EDimensions : Z; BatchSize : Z }.
Record Result := mkResult {
  GeneratedAt : string; RCorpus : CorpusSummary; REmbedder : EmbedderSummary;
  RCompletions : option (completionOptions * CompletionsSummary);
  ExactTier : gmap string TierRow; RSimilarity : SimilaritySummary; RSweep : list SweepRow; RVerdict : Verdict;
  CosineDisagreements : Z
}.

Definition studyTenant : string := "cachestudy".
Definition studyModel : string := "cachestudy-model".

Definition corpus_json (c : CorpusSummary) : option json := jobj
  [("path", jstr (Path c)); ("groups", jint (NGroups c)); ("probes_by_label", jmap jint (ProbesByLabel c));
   ("groups_by_domain", jmap jint (GroupsByDomain c)); ("distinct_prompts_embedded", jint (DistinctPrompts c))]%string.
Definition embedder_json (e : EmbedderSummary) : option json := jobj
  [("base_url", jstr (EBaseURL e)); ("model", jstr (EModel e)); ("dimensions", jint (EDimensions e));
   ("batch_size", jint (BatchSize e))]%string.
Definition request_json : option json := jobj
  [("tenant", jstr studyTenant); ("routed_model", jstr studyModel); ("temperature", jstr "0");
   ("prompt_text_form", jstr "user:<question>")]%string.
Definition completions_json (c : completionOptions * CompletionsSummary) : option json := jobj
  [("base_url", jstr (BaseURL c.1)); ("model", jstr (CModel c.1)); ("max_tokens", jint (MaxTokens c.1));
   ("questions", jint (SQuestions c.2)); ("total_completion_tokens", jint (TotalTokens c.2));
   ("mean_completion_tokens", jfloat (MeanTokens c.2))]%string.
Definition tier_json (r : TierRow) : option json := jobj
  [("n", jint (TN r)); ("hits", jint (THits r)); ("own_group_hits", jint (TOwn r));
   ("cross_group_hits", jint (TCross r)); ("hit_rate", jfloat (THitRate r))]%string.
Definition label_json (r : LabelRow) : option json := jobj
  [("n", jint (LN r)); ("hits", jint (LHits r)); ("own_group_hits", jint (LOwn r)); ("cross_group_hits", jint (LCross r));
   ("correct_hits", jint (LCorrect r)); ("false_hits", jint (LFalse r)); ("hit_rate", jfloat (HitRate r));
   ("correct_hit_rate", jfloat (CorrectHitRate r)); ("false_hit_rate", jfloat (FalseHitRate r))]%string.
Definition token_json (t : TokenRow) : option json := jobj
  [("served_correct", jint (ServedCorrect t)); ("served_wrong", jint (ServedWrong t));
   ("wrong_share", jfloat (WrongShare t))]%string.
Definition row_json (r : SweepRow) : option json := jobj
  [("threshold", jfloat (Threshold r)); ("labels", jmap label_json (Labels r));
   ("paraphrase_minus_opposite_pp", jfloat (MarginPP r)); ("tokens_excluding_repeats", token_json (RTokens r))]%string.
Definition stats_json (s : Stats) : option json := jobj
  [("n", jint (N s)); ("min", jfloat (Min s)); ("p05", jfloat (P05 s)); ("p25", jfloat (P25 s));
   ("median", jfloat (Median s)); ("p75", jfloat (P75 s)); ("p95", jfloat (P95 s)); ("max", jfloat (Max s));
   ("mean", jfloat (Mean s))]%string.
Definition pair_json (p : Pair) : option json := jobj
  (("cosine"%string, jfloat (Cosine p)) :: jomit "group" (PGroup p)
   ++ [("a"%string, jstr (PA p)); ("b"%string, jstr (PB p))] ++ jomit "flip" (PFlip p)).
Definition similarity_json (s : SimilaritySummary) : option json := jobj
  [("own_anchor_by_label", jmap stats_json (OwnAnchorByLabel s)); ("cross_anchor_pairs", stats_json (CrossAnchorPairs s));
   ("highest_scoring_opposites", jslice pair_json (HighestOpposites s));
   ("lowest_scoring_paraphrases", jslice pair_json (LowestParaphrases s));
   ("closest_unrelated_anchor_pairs", jslice pair_json (ClosestAnchorPairs s));
   ("paraphrase_vs_opposite_auc", jfloat (ParaphraseVsOppositeAUC s));
   ("opposites_above_paraphrase_median", jfloat (OppositesAboveParaphraseMedian s));
   ("paraphrases_below_opposite_median", jfloat (ParaphrasesBelowOppositeMedian s)); ("separable", jbool (Separable s))]%string.
Definition criterion_json (c : Criterion) : option json := jobj
  [("name", jstr (CName c)); ("max_opposite_false_hit_rate", jfloat (MaxOppositeFalseHitRate c));
   ("satisfied", jbool (Satisfied c));
   ("threshold", match CThreshold c with None => Some JNull | Some t => jfloat t end);
   ("paraphrase_hit_rate", jfloat (ParaphraseHitRate c)); ("opposite_false_hit_rate", jfloat (OppositeFalseHitRate c))]%string.

(** The sentences of [answerFrom]. *)
Definition answer_text (a : Answer) : string :=
  match a with
  | Yes th p =>
      "Yes. At a threshold of " +:+ FormatFixed 2 th +:+ " the semantic tier catches " +:+ FormatFixed 0 p
      +:+ "% of paraphrases and answers no opposite question."
  | Partly th p o =>
      "Partly. No threshold is clean, but at " +:+ FormatFixed 2 th +:+ " the tier catches " +:+ FormatFixed 0 p
      +:+ "% of paraphrases while answering " +:+ FormatFixed 0 o +:+ "% of opposites wrongly."
  | No o m th =>
      "No. Every threshold that catches a paraphrase at all also answers more than " +:+ FormatFixed 0 o
      +:+ "% of opposite-meaning questions from the cache. The best paraphrase-minus-opposite margin over the whole sweep is "
      +:+ FormatSigned 1 m +:+ " percentage points, at a threshold of " +:+ FormatFixed 2 th +:+ "."
  end%string.
Definition verdict_json (v : Verdict) : option json := jobj
  [("question", jstr verdictQuestion); ("answer", jstr (answer_text (VAnswer v)));
   ("best_margin_threshold", jfloat (BestMarginThreshold v)); ("best_margin_pp", jfloat (BestMarginPP v));
   ("separable", jbool (VSeparable v)); ("criteria", JArr <$> mapM criterion_json (Criteria v))]%string.
Definition result_json (r : Result) : option json := jobj
  [("schema", jstr resultSchema); ("generated_at", jstr (GeneratedAt r)); ("corpus", corpus_json (RCorpus r));
   ("embedder", embedder_json (REmbedder r)); ("request", request_json);
   ("completions", match RCompletions r with None => Some JNull | Some c => completions_json c end);
   ("exact_tier", jmap tier_json (ExactTier r)); ("similarity", similarity_json (RSimilarity r));
   ("sweep", JArr <$> mapM row_json (RSweep r)); ("verdict", verdict_json (RVerdict r));
   ("checks", jobj [("cosine_disagreements", jint (CosineDisagreements r))])]%string.

(** [WriteResult]: the bytes of the file, if it can be encoded. *)
Definition WriteResult (r : Result) : option string := (fun j => indent j 0 +:+ newline) <$> result_json r.

(** ** The command (main.go) *)

Record options := mkOptions {
  corpusPath : string; outPath : string; minThreshold : f64; maxThreshold : f64; step : f64;
  embedBaseURL : string; embedModel : string; embedBatch : Z; embedPerMinute : Z;
  completions : completionOptions; priced : bool
}.

Definition defaultCorpusPath : string := "bench/corpus/questions.json".
Definition resultsDir : string := "bench/results".
Definition defaultEmbedBatch : Z := 25.
Definition defaultEmbedPerMinute : Z := 90.

(** [parseFlags] of an empty command line. *)
Definition default_options : options :=
  mkOptions defaultCorpusPath "" (dec 80 100) (dec 99 100) (dec 1 100) "" "" defaultEmbedBatch defaultEmbedPerMinute
    (mkCompletionOptions "http://127.0.0.1:8100/v1" "local" 160 4) false.

(** What the run meets: the files, the key, the outcome of [fetchCompletions], the
    [k]-th exchange with the embedder, what is cancelled, the clocks, and whether
    the result file and the report can be written. *)
Record outside := mkOutside {
  corpus_file : option string; api_key : string;
  fetched_answers : list string -> gmap string completion + fetch_error;
  exchanges : nat -> http_request -> http_outcome;
  retry_stops : nat -> bool; wait_stops : nat -> bool; pace_clock : nat -> Time * Time;
  store_clock : nat -> Time; read_clock : Time; generated : Time; stamped : Time;
  file_writes : string -> bool; report_prints : bool
}.

Inductive run_error :=
| RunLoad (e : load_error) | RunThresholds (e : thresholds_error) | RunNoKey | RunStudy (e : study_error)
| RunFetch (e : fetch_error) | RunEmbed (e : Collect.embed_error) | RunEncode | RunWrite | RunPrint | RunDisagreement.

Definition baseURLOr (configured : string) : string :=
  if String.eqb configured "" then DefaultEmbedBaseURL else configured.
Definition modelOr (configured : string) : string := if String.eqb configured "" then DefaultEmbedModel else configured.

(** The width of the first vector the map yields, whichever that is. *)
Definition observedDimensions (vectors : gmap string (list f64)) (embedder : geminiEmbedder) : Z :=
  match map_to_list vectors with [] => Dimensions embedder | (_, v) :: _ => Z.of_nat (length v) end.

Definition priceQuestions (o : options) (w : outside) (c : Corpus)
    : gmap string completion * option CompletionsSummary + fetch_error :=
  if negb (priced o) then inl (∅, None)
  else match fetched_answers w (distinctQuestions c) with
       | inr e => inr e
       | inl got => inl (got, Some (price_summary got))
       end.

(** The stamps of [generated_at] and of the file name, in UTC. *)
Definition seconds_of (t : Time) : Time := t / Nano * Nano.
Definition run_stamp (t : Time) : string :=
  let secs := t / Nano in
  let '(y, m, d) := civil (secs / 86400) in
  let s := secs mod 86400 in
  (padded 4 y +:+ padded 2 m +:+ padded 2 d +:+ "T" +:+ padded 2 (s / 3600) +:+ padded 2 (s / 60 mod 60)
   +:+ padded 2 (s mod 60) +:+ "Z")%string.
Definition out_path (o : options) (w : outside) : string :=
  if String.eqb (outPath o) "" then resultsDir +:+ "/cache-study-" +:+ run_stamp (stamped w) +:+ ".json" else outPath o.

(** A result or what stopped the run; [None] is a panic or a loop without end. *)
Definition attempted (A : Type) : Type := option (A + run_error).
Definition and_then {A B E} (wrap : E -> run_error) (r : option (A + E)) (k : A -> attempted B) : attempted B :=
  match r with None => None | Some (inr e) => Some (inr (wrap e)) | Some (inl a) => k a end.
Local Notation "'let*' x := r 'or' wrap 'in' k" := (and_then wrap r (fun x => k))
  (at level 200, x pattern, r at level 100, wrap at level 9, k at level 200).

(** Everything before the result is written. *)
Definition measure (fuel : nat) (o : options) (w : outside) : attempted Result :=
  let* corpus := Some (LoadCorpus (corpus_file w)) or RunLoad in
  let* thresholds := Thresholds fuel (minThreshold o) (maxThreshold o) (step o) or RunThresholds in
  if String.eqb (api_key w) "" then Some (inr RunNoKey)
  else
    let embedder := NewGeminiEmbedder (embedBaseURL o) (api_key w) (embedModel o) in
    let* texts := Some (promptTexts corpus studyModel) or RunStudy in
    let* (answers, summary) := Some (priceQuestions o w corpus) or RunFetch in
    let* vectors := embedAll (fun k batch => reply (Embed embedder (exchanges w k) batch)) (retry_stops w) (wait_stops w)
                      (pace_clock w) texts (embedBatch o) (embedPerMinute o) or RunEmbed in
    let* study := Some (NewStudy corpus studyTenant studyModel vectors answers) or RunStudy in
    let* exact := Some (RunExactTier study (store_clock w)) or RunStudy in
    let* sweep := Sweep study (store_clock w) (read_clock w) thresholds or RunStudy in
    let similarity := Similarity study in
    match buildVerdict sweep (Separable similarity) with
    | None => None
    | Some verdict =>
        Some (inl (mkResult (rfc3339 0 (seconds_of (generated w)))
          (mkCorpusSummary (corpusPath o) (Z.of_nat (length (Groups corpus))) (LabelCounts corpus) (DomainCounts corpus)
             (Z.of_nat (length texts)))
          (mkEmbedderSummary (baseURLOr (embedBaseURL o)) (modelOr (embedModel o)) (observedDimensions vectors embedder)
             (embedBatch o))
          (pair (completions o) <$> summary) exact similarity sweep verdict
          (Verify study (store_clock w) (read_clock w))))
    end.

(** The files written, and how the run ended. *)
Definition run (fuel : nat) (o : options) (w : outside) : option (list (string * string) * option run_error) :=
  match measure fuel o w with
  | None => None
  | Some (inr e) => Some ([], Some e)
  | Some (inl r) =>
      match WriteResult r with
      | None => Some ([], Some RunEncode)
      | Some text =>
          if negb (file_writes w (out_path o w)) then Some ([], Some RunWrite)
          else Some ([(out_path o w, text)],
            if negb (report_prints w) then Some RunPrint
            else if 0 <? CosineDisagreements r then Some RunDisagreement else None)
      end
  end.

(** ** The committed run *)

Module StudyRunExample.
(** The hits and own-group hits of the four labels, and the tokens served right and
    wrong, at each threshold of the committed result. *)
Definition counted : list (list (Z * Z) * (Z * Z)) :=
  [([(50, 50); (100, 100); (57, 57); (1, 0)], (15158, 8456));
   ([(50, 50); (100, 100); (57, 57); (0, 0)], (15158, 8414));
   ([(50, 50); (100, 100); (57, 57); (0, 0)], (15158, 8414));
   ([(50, 50); (100, 100); (57, 57); (0, 0)], (15158, 8414));
   ([(50, 50); (100, 100); (57, 57); (0, 0)], (15158, 8414));
   ([(50, 50); (98, 98); (57, 57); (0, 0)], (14838, 8414));
   ([(50, 50); (96, 96); (55, 55); (0, 0)], (14518, 8094));
   ([(50, 50); (92, 92); (54, 54); (0, 0)], (13878, 7934));
   ([(50, 50); (89, 89); (52, 52); (0, 0)], (13398, 7614));
   ([(50, 50); (87, 87); (49, 49); (0, 0)], (13078, 7134));
   ([(50, 50); (84, 84); (46, 46); (0, 0)], (12598, 6654));
   ([(50, 50); (76, 76); (40, 40); (0, 0)], (11318, 5714));
   ([(50, 50); (62, 62); (39, 39); (0, 0)], (9293, 5554));
   ([(50, 50); (48, 48); (36, 36); (0, 0)], (7262, 5074));
   ([(50, 50); (36, 36); (32, 32); (0, 0)], (5421, 4434));
   ([(50, 50); (24, 24); (25, 25); (0, 0)], (3543, 3402));
   ([(50, 50); (8, 8); (18, 18); (0, 0)], (1123, 2468));
   ([(50, 50); (6, 6); (14, 14); (0, 0)], (803, 1947));
   ([(50, 50); (1, 1); (9, 9); (0, 0)], (160, 1309));
   ([(50, 50); (0, 0); (1, 1); (0, 0)], (0, 160))].

Definition row_of_counts (l : string) (n : Z) (c : Z * Z) : string * LabelRow :=
  let correct := if answerable l then c.2 else 0 in
  (l, rated (mkLabelRow n c.1 c.2 (c.1 - c.2) correct (c.1 - correct) f64_zero f64_zero f64_zero)).
Definition sweep_row (th : f64) (c : list (Z * Z) * (Z * Z)) : SweepRow :=
  let rows : gmap string LabelRow := list_to_map
    ((fun p => row_of_counts p.1.1 p.1.2 p.2) <$> zip (zip labelOrder [50; 100; 57; 50]) c.1) in
  mkSweepRow th rows
    (f64_mul (f64_of_Z 100) (f64_sub (CorrectHitRate (row_of rows LabelParaphrase)) (FalseHitRate (row_of rows LabelOpposite))))
    (mkTokenRow c.2.1 c.2.2 (ratio c.2.2 (c.2.1 + c.2.2))).

Definition hundredth (n : Z) : f64 := dec n 100.
Definition committed_sweep : list SweepRow :=
  match Thresholds 25 (hundredth 80) (hundredth 99) (hundredth 1) with
  | Some (inl ths) => zip_with sweep_row ths counted
  | _ => []
  end.

(** The verdict of the committed result file and three rows of its sweep (the first,
    the one of the best margin, the last), byte for byte: their text by its
    fingerprint. *)
Example the_committed_result :
  option_map (fun j => fingerprint (indent j 0))
    (jobj [("sweep", JArr <$> (rows ← mapM (fun i => committed_sweep !! i) [0; 11; 19]%nat; mapM row_json rows));
           ("verdict", v ← buildVerdict committed_sweep false; verdict_json v)])%string
  = Some 1517851864379124796.
Proof. vm_compute. reflexivity. Qed.
End StudyRunExample.
