(* ===== verification/Report.v ===== *)
(** * The printed report of the study (cmd/cachestudy/report.go, text/tabwriter)

    The report that names the result file: its lines, and the tables that text/tabwriter
    lines up.  The writer's cells end at a tab, its columns are blocks of consecutive
    lines that have a cell in them, and the text after the last tab of a line belongs
    to no column. *)

From Stdlib Require Import ZArith Lia String Ascii SpecFloat.
From stdpp Require Import base gmap strings list numbers.
From S2P Require Import Prelude Float64 GoString Canvas Json JsonText JsonLine JsonIndent Sse Samples Corpus Study Verdict Collect StudyRun.

Local Open Scope Z_scope.

(** ** The table writer

    [tabwriter.NewWriter(out, 0, 0, 2, ' ', 0)]. *)

Definition TAB : ascii := "009".
Definition VT : ascii := "011".
Definition FF : ascii := "012".
Definition padding : nat := 2.

(** [utf8.RuneCount]; [skip] bytes belong to a rune already counted. *)
Fixpoint rune_count (skip : nat) (s : string) : nat :=
  match s with
  | EmptyString => 0
  | String _ t => match skip with S k => rune_count k t | O => S (rune_count (pred (utf8_width s)) t) end
  end.
Definition cell_width (c : string) : nat := rune_count 0 c.

(** A buffered line: its cells, the last of which no tab ends, and its end. *)
Record tline := mkLine { cells : list string; ending : string }.

(** What is written, as the lines that each flush finds: a form feed flushes. *)
Fixpoint buffered (s : string) (cell : string) (line : list string) (lines : list tline) : list (list tline) :=
  match s with
  | EmptyString => [lines ++ [mkLine (line ++ [cell]) ""]]
  | String c s =>
      if Ascii.eqb c TAB || Ascii.eqb c VT then buffered s "" (line ++ [cell]) lines
      else if Ascii.eqb c LF then buffered s "" [] (lines ++ [mkLine (line ++ [cell]) newline])
      else if Ascii.eqb c FF then (lines ++ [mkLine (line ++ [cell]) newline]) :: buffered s "" [] []
      else buffered s (cell +:+ String c "") line lines
  end.

Definition has_column (column : nat) (l : tline) : bool := (S column <? length (cells l))%nat.

(** Consecutive lines that agree on [p]. *)
Fixpoint runs {A} (p : A -> bool) (l : list A) : list (bool * list A) :=
  match l with
  | [] => []
  | x :: l =>
      match runs p l with
      | (b, r) :: rs => if Bool.eqb b (p x) then (b, x :: r) :: rs else (p x, [x]) :: (b, r) :: rs
      | [] => [(p x, [x])]
      end
  end.

Definition column_width (column : nat) (ls : list tline) : nat :=
  foldr Nat.max 0%nat ((fun l => (cell_width (default "" (cells l !! column)) + padding)%nat) <$> ls).

Fixpoint write_cells (widths : list nat) (cs : list string) : string :=
  match cs, widths with
  | [], _ => ""
  | c :: cs, w :: widths => c +:+ blanks (w - cell_width c) +:+ write_cells widths cs
  | c :: cs, [] => c +:+ write_cells [] cs
  end.
Definition write_line (widths : list nat) (l : tline) : string := write_cells widths (cells l) +:+ ending l.
Definition writeLines (widths : list nat) (ls : list tline) : string := String.concat "" (write_line widths <$> ls).

(** [Writer.format], with the column after those of [widths] first. *)
Fixpoint format (columns : nat) (widths : list nat) (ls : list tline) : string :=
  match columns with
  | O => writeLines widths ls
  | S columns =>
      String.concat "" ((fun r : bool * list tline =>
        if r.1 then format columns (widths ++ [column_width (length widths) r.2]) r.2 else writeLines widths r.2)
        <$> runs (has_column (length widths)) ls)
  end.

Definition most_cells (ls : list tline) : nat := foldr Nat.max 0%nat ((fun l => length (cells l)) <$> ls).

(** What the writer makes of a text by its last flush. *)
Definition tabwrite (s : string) : string := String.concat "" ((fun ls => format (most_cells ls) [] ls) <$> buffered s "" [] []).

(** [reportWriter.table]: the header is just the first row. *)
Definition table (header : string) (rows : list string) : string :=
  tabwrite (String.concat "" ((fun line => line +:+ newline) <$> header :: rows)).

(** ** The report *)

Local Open Scope string_scope.

Definition percent (x : f64) : string := FormatFixed 1 (f64_mul (f64_of_Z 100) x) +:+ "%".
Definition tabbed (cs : list string) : string := String.concat (String TAB "") cs.
Definition bool_text (b : bool) : string := if b then "true" else "false".

Definition printExactTier (r : Result) : string :=
  newline +:+ "EXACT TIER (no embedder involved)" +:+ newline
  +:+ table (tabbed ["label"; "n"; "hits"; "hit rate"])
        ((fun l => let row := tier_of (ExactTier r) l in tabbed [l; Itoa (TN row); Itoa (THits row); percent (THitRate row)]) <$> labelOrder)
  +:+ "The repeat row is 100% by construction: a repeat is the same bytes, so it is the same key." +:+ newline.

Definition stats_row (name : string) (s : Stats) : string :=
  tabbed (name :: Itoa (N s) :: (FormatFixed 3 <$> [Min s; P05 s; Median s; P95 s; Max s; Samples.Mean s])).

Definition pairRows (pairs : list Pair) (withFlip : bool) : list string :=
  (fun p => if withFlip then tabbed [FormatFixed 3 (Cosine p); PFlip p; PA p; PB p]
            else tabbed [FormatFixed 3 (Cosine p); PA p; PB p]) <$> pairs.

Definition printSimilarity (r : Result) : string :=
  let s := RSimilarity r in
  newline +:+ "COSINE TO OWN ANCHOR, by label" +:+ newline
  +:+ table (tabbed ["label"; "n"; "min"; "p05"; "median"; "p95"; "max"; "mean"])
        (((fun l => stats_row l (default zeroStats (OwnAnchorByLabel s !! l))) <$> labelOrder)
         ++ [stats_row "anchor pairs" (CrossAnchorPairs s)])%list
  +:+ "paraphrase beats opposite " +:+ percent (ParaphraseVsOppositeAUC s) +:+ " of the time (50% is no signal)" +:+ newline
  +:+ percent (OppositesAboveParaphraseMedian s) +:+ " of opposites score above the median paraphrase" +:+ newline
  +:+ "separable by any threshold: " +:+ bool_text (Separable s) +:+ newline
  +:+ newline +:+ "Highest scoring OPPOSITES, the pairs a safe threshold must exclude" +:+ newline
  +:+ table (tabbed ["cosine"; "flip"; "anchor"; "opposite"]) (pairRows (HighestOpposites s) true)
  +:+ newline +:+ "Lowest scoring paraphrases, the pairs a useful threshold must admit" +:+ newline
  +:+ table (tabbed ["cosine"; "anchor"; "paraphrase"]) (pairRows (LowestParaphrases s) false).

Definition sweep_cells (priced : bool) (row : SweepRow) : list string :=
  let at_ l := row_of (Labels row) l in
  ([FormatFixed 2 (Threshold row); percent (CorrectHitRate (at_ LabelRepeat)); percent (CorrectHitRate (at_ LabelParaphrase));
    percent (FalseHitRate (at_ LabelOpposite)); percent (FalseHitRate (at_ LabelUnrelated));
    FormatSigned 1 (MarginPP row) +:+ "pp"]
   ++ if priced then [percent (WrongShare (RTokens row))] else [])%list.

Definition printSweep (r : Result) : string :=
  let priced := match RCompletions r with Some _ => true | None => false end in
  newline +:+ "THRESHOLD SWEEP, semantic tier against a cache warmed with every anchor" +:+ newline
  +:+ table (tabbed (["threshold"; "repeat hit"; "paraphrase hit"; "OPPOSITE FALSE"; "unrelated false"; "margin"]
                     ++ if priced then ["wrong tokens"] else [])%list)
        ((fun row => tabbed (sweep_cells priced row)) <$> RSweep r)
  +:+ if priced
      then "wrong tokens is the share of tokens served from cache that answered a different question, repeats excluded." +:+ newline
      else "".

Definition printVerdict (r : Result) : string :=
  let v := RVerdict r in
  newline +:+ "VERDICT" +:+ newline +:+ verdictQuestion +:+ newline +:+ answer_text (VAnswer v) +:+ newline +:+ newline
  +:+ table (tabbed ["tolerance"; "met"; "threshold"; "paraphrase hit"; "opposite false"])
        ((fun c => tabbed [CName c; bool_text (Satisfied c); match CThreshold c with Some t => FormatFixed 2 t | None => "-" end;
                           percent (ParaphraseHitRate c); percent (OppositeFalseHitRate c)]) <$> Criteria v)
  +:+ if (0 <? CosineDisagreements r)%Z
      then newline +:+ "WARNING: " +:+ Itoa (CosineDisagreements r)
           +:+ " probes where this command's cosine disagreed with the production store. Do not quote this run." +:+ newline
      else "".

(** [PrintReport], to a writer that takes all of it. *)
Definition PrintReport (r : Result) (resultPath : string) : string :=
  let c := RCorpus r in
  newline +:+ "corpus            " +:+ Path c +:+ newline
  +:+ "groups            " +:+ Itoa (NGroups c) +:+ " across " +:+ Itoa (Z.of_nat (size (GroupsByDomain c))) +:+ " domains" +:+ newline
  +:+ "probes            " +:+ String.concat ", " ((fun l => l +:+ " " +:+ Itoa (default 0 (ProbesByLabel c !! l))) <$> labelOrder)
  +:+ newline +:+ "embedder          " +:+ EModel (REmbedder r) +:+ ", " +:+ Itoa (EDimensions (REmbedder r)) +:+ " dimensions, "
  +:+ Itoa (DistinctPrompts c) +:+ " distinct prompts embedded once" +:+ newline
  +:+ match RCompletions r with
      | Some (o, s) => "completions       " +:+ CModel o +:+ ", " +:+ Itoa (SQuestions s) +:+ " answers, " +:+ Itoa (TotalTokens s)
                       +:+ " completion tokens total" +:+ newline
      | None => ""
      end
  +:+ printExactTier r +:+ printSimilarity r +:+ printSweep r +:+ printVerdict r
  +:+ newline +:+ "raw result written to " +:+ resultPath +:+ newline.

Local Close Scope string_scope.

(** ** Tables line up *)


Definition no_control (c : ascii) : bool :=
  negb (Ascii.eqb c TAB || Ascii.eqb c VT || Ascii.eqb c LF || Ascii.eqb c FF).
Fixpoint plain (s : string) : bool := match s with EmptyString => true | String c s => no_control c && plain s end.

Lemma buffered_plain c s cell line lines : plain c = true -> buffered (c +:+ s) cell line lines = buffered s (cell +:+ c) line lines.
Proof.
  revert cell. induction c as [|a c IH]; intros cell P; [by rewrite str_app_empty|]. cbn [plain] in P.
  apply andb_true_iff in P as [Pa Pc]. unfold no_control in Pa. apply negb_true_iff in Pa. rewrite !orb_false_iff in Pa.
  destruct Pa as [[[P1 P2] P3] P4]. rewrite str_app_cons. cbn [buffered]. rewrite P1, P2, P3, P4. cbn [orb].
  rewrite IH by done. f_equal. by rewrite str_app_assoc.
Qed.

Lemma buffered_row cs s line lines : cs <> [] -> Forall (fun c => plain c = true) cs ->
  buffered (tabbed cs +:+ newline +:+ s) "" line lines = buffered s "" [] (lines ++ [mkLine (line ++ cs) newline]).
Proof.
  intros Ne F. revert line Ne. induction F as [|c cs Pc F IH]; intros line Ne; [done|]. destruct cs as [|d cs].
  - unfold tabbed. cbn [String.concat]. rewrite buffered_plain by done. reflexivity.
  - change (tabbed (c :: d :: cs)) with (c +:+ String TAB "" +:+ tabbed (d :: cs))%string. rewrite !str_app_assoc, buffered_plain by done.
    change (String TAB "" +:+ tabbed (d :: cs) +:+ newline +:+ s) with (String TAB (tabbed (d :: cs) +:+ newline +:+ s)).
    cbn [buffered]. change (Ascii.eqb TAB TAB || _) with true. cbn iota. rewrite IH by done. by rewrite <- app_assoc.
Qed.

Lemma buffered_rows rows lines : Forall (fun cs => cs <> [] /\ Forall (fun c => plain c = true) cs) rows ->
  buffered (String.concat "" ((fun line => line +:+ newline) <$> (tabbed <$> rows))) "" [] lines
  = [lines ++ ((fun cs => mkLine cs newline) <$> rows) ++ [mkLine [""%string] ""]].
Proof.
  intros F. revert lines. induction F as [|cs rows [Ne P] F IH]; intros lines; [reflexivity|].
  cbn [fmap list_fmap]. rewrite str_concat_cons, str_app_assoc, buffered_row by done. rewrite IH. cbn [app]. by rewrite <- app_assoc.
Qed.

Lemma runs_all {A} (p : A -> bool) b l : l <> [] -> Forall (fun x => p x = b) l -> runs p l = [(b, l)].
Proof.
  intros Ne F. induction F as [|x l Px F IH]; [done|]. cbn [runs]. destruct l as [|y l]; [by rewrite <- Px|].
  rewrite IH by done. rewrite Px. by destruct b.
Qed.

Lemma runs_last {A} (p : A -> bool) l e : l <> [] -> Forall (fun x => p x = true) l -> p e = false ->
  runs p (l ++ [e]) = [(true, l); (false, [e])].
Proof.
  intros Ne F E. induction F as [|x l Px F IH]; [done|]. cbn [app runs]. destruct l as [|y l]; cbn [app runs].
  - by rewrite E, Px.
  - cbn [app runs] in IH. rewrite IH by done. by rewrite Px.
Qed.

Lemma format_rect columns k widths ls : ls <> [] -> Forall (fun l => length (cells l) = (length widths + k + 1)%nat) ls ->
  (k <= columns)%nat ->
  format columns widths ls = writeLines (widths ++ ((fun j => column_width j ls) <$> seq (length widths) k)) ls.
Proof.
  revert k widths. induction columns as [|columns IH]; intros k widths Ne F Hk; cbn [format].
  { destruct k; [|lia]. by rewrite app_nil_r. }
  destruct k as [|k].
  - rewrite (runs_all _ false); [|done|].
    + cbn. by rewrite app_nil_r.
    + eapply list.Forall_impl; [exact F|]. intros l E. unfold has_column. apply Nat.ltb_ge. rewrite E. lia.
  - rewrite (runs_all _ true); [|done|].
    + cbn [fmap list_fmap fst snd String.concat]. rewrite (IH k); [|done| |lia].
      * rewrite length_app. cbn [length]. cbn [seq fmap list_fmap]. rewrite <- app_assoc. by rewrite Nat.add_1_r.
      * eapply list.Forall_impl; [exact F|]. intros l E. rewrite length_app. cbn [length]. rewrite E. lia.
    + eapply list.Forall_impl; [exact F|]. intros l E. unfold has_column. apply Nat.ltb_lt. rewrite E. lia.
Qed.

(** The width of a column: its widest cell and the padding. *)
Definition widest (rows : list (list string)) (j : nat) : nat :=
  foldr Nat.max 0%nat ((fun cs => (cell_width (default "" (cs !! j)) + padding)%nat) <$> rows).

(** Every row of a table of plain cells has the cells of a column at the same place:
    each is padded to the widest of its column and two more, the last is not. *)
Lemma table_lines_up n header rows :
  Forall (fun cs => length cs = S n /\ Forall (fun c => plain c = true) cs) (header :: rows) ->
  table (tabbed header) (tabbed <$> rows) =
    String.concat "" ((fun cs => write_cells (widest (header :: rows) <$> seq 0 n) cs +:+ newline) <$> header :: rows).
Proof.
  intros F. unfold table, tabwrite. change (tabbed header :: (tabbed <$> rows)) with (tabbed <$> header :: rows).
  rewrite buffered_rows; [|eapply list.Forall_impl; [exact F|]; cbn; intros cs [L P]; split; [by destruct cs|exact P]].
  remember (header :: rows) as all_rows eqn:R. assert (Ne : all_rows <> []) by (by subst). clear header rows R.
  cbn [app fmap list_fmap String.concat]. set (ls := (fun cs => mkLine cs newline) <$> all_rows).
  assert (Nl : ls <> []) by (by destruct all_rows).
  assert (G : Forall (fun l => length (cells l) = S n) ls).
  { apply list.Forall_fmap. eapply list.Forall_impl; [exact F|]. by intros cs [L _]. }
  assert (W : forall ws, writeLines ws ls = String.concat "" ((fun cs => write_cells ws cs +:+ newline) <$> all_rows)).
  { intros ws. unfold writeLines, ls. by rewrite <- list_fmap_compose. }
  assert (M : (S n <= most_cells (ls ++ [mkLine [""%string] ""]))%nat).
  { destruct ls as [|l ls']; [done|]. apply list.Forall_cons in G as [L _]. unfold most_cells. cbn [app fmap list_fmap foldr]. lia. }
  destruct (most_cells _) as [|columns]; [lia|]. cbn [format length].
  assert (C : (fun j => column_width j ls) <$> seq 0 n = widest all_rows <$> seq 0 n).
  { apply list_fmap_ext. intros i j _. unfold column_width, widest, ls. by rewrite <- list_fmap_compose. }
  destruct n as [|n].
  - rewrite (runs_all _ false).
    + cbn [fmap list_fmap fst snd String.concat seq]. rewrite <- W. unfold writeLines. rewrite fmap_app, str_concat_app. apply str_app_empty.
    + by destruct ls.
    + apply Forall_app. split; [|by repeat constructor]. eapply list.Forall_impl; [exact G|]. intros l E. unfold has_column. by rewrite E.
  - rewrite runs_last; [|done| |done].
    + cbn [fmap list_fmap fst snd app]. rewrite (format_rect columns n); [|done| |lia].
      * cbn [length app]. rewrite <- W, <- C, str_concat_cons. cbn [String.concat]. apply str_app_empty.
      * eapply list.Forall_impl; [exact G|]. intros l ->. cbn [length]. lia.
    + eapply list.Forall_impl; [exact G|]. intros l E. unfold has_column. by rewrite E.
Qed.

(** ** The committed run *)

Module ReportExample.
Import StudyRunExample.
Definition some_rows : list SweepRow := default [] (mapM (fun i => committed_sweep !! i) [0; 5; 11; 14; 19]%nat).

(** The rows as docs/cache-quality.md has them. *)
Example the_documented_rows : sweep_cells true <$> some_rows =
  [["0.80"; "100.0%"; "100.0%"; "100.0%"; "2.0%"; "+0.0pp"; "35.8%"];
   ["0.85"; "100.0%"; "98.0%"; "100.0%"; "0.0%"; "-2.0pp"; "36.2%"];
   ["0.91"; "100.0%"; "76.0%"; "70.2%"; "0.0%"; "+5.8pp"; "33.5%"];
   ["0.94"; "100.0%"; "36.0%"; "56.1%"; "0.0%"; "-20.1pp"; "45.0%"];
   ["0.99"; "100.0%"; "0.0%"; "1.8%"; "0.0%"; "-1.8pp"; "100.0%"]]%string.
Proof. vm_compute. reflexivity. Qed.

Example a_table : table (tabbed ["label"; "n"; "hit rate"]) [tabbed ["repeat"; "50"; "100.0%"]; tabbed ["paraphrase"; "100"; "0.0%"]]
  = ("label       n    hit rate" +:+ newline +:+ "repeat      50   100.0%" +:+ newline +:+ "paraphrase  100  0.0%" +:+ newline)%string.
Proof. vm_compute. reflexivity. Qed.

(** A tab in a cell moves what follows it to the next column. *)
Example a_tab_in_a_cell : table "a" [tabbed ["x"; "y"]; tabbed ["xxx"; "y"; "z"]]
  = ("a" +:+ newline +:+ "x    y" +:+ newline +:+ "xxx  y  z" +:+ newline)%string.
Proof. vm_compute. reflexivity. Qed.
End ReportExample.
