(* ===== verification/Published.v ===== *)
(** * What the study writes and the figures show (cmd/cachestudy, cmd/plot)

    The result file of the study is what the figures are drawn from: its text is read
    back as what was measured, through two independent descriptions of the same
    JSON. *)

From Stdlib Require Import ZArith Lia String Ascii SpecFloat.
From stdpp Require Import base gmap strings list numbers sorting.
From S2P Require Import Prelude Float64 GoString Providers Json JsonText JsonLine JsonIndent Figures.
From S2P Require Import Semantic Samples Corpus Study Verdict Collect StudyRun.

Local Open Scope Z_scope.

(** ** Maps *)

Lemma insert_all {A} (l : list (string * A)) (m : gmap string A) : NoDup l.*1 ->
  foldl (fun m p => <[p.1 := p.2]> m) m l = list_to_map l ∪ m.
Proof.
  revert m. induction l as [|[k v] l IH]; intros m; cbn [fmap list_fmap foldl fst snd]; [by rewrite list_to_map_nil, (left_id_L ∅ (∪))|].
  intros [Nk Nl]%list.NoDup_cons. rewrite IH by done. cbn [list_to_map foldr fst snd].
  rewrite <- insert_union_r by (by apply not_elem_of_list_to_map). by rewrite insert_union_l.
Qed.

(** A map crosses from the encoder's order to the decoder's. *)
Lemma odecodes_map {A B} (zero : B) (d : decoder B) (f : A -> option json) (g : A -> B) (m : gmap string A) :
  map_Forall (fun _ x => odecodes d (f x) zero (g x)) m -> odecodes (dec_map zero d) (jmap f m) ∅ (g <$> m).
Proof.
  intros F j E. unfold jmap, jobj in E. destruct (mapM _ _) as [ms|] eqn:M; [|done]. injection E as <-.
  intros t L. inversion L as [? ? Lf|?|? ts ? T Mb G]; subst; [done|]. unfold dec_map. rewrite T, Mb.
  assert (P : forall l ms ts old, Forall (fun p => odecodes d (f p.2) zero (g p.2)) l ->
    mapM (fun f0 : string * option json => pair f0.1 <$> f0.2) ((fun p => (p.1, f p.2)) <$> l) = Some ms ->
    Forall2 laid ts ms.*2 ->
    dec_entries zero d (zip ms.*1 ts) old = (foldl (fun m p => <[p.1 := p.2]> m) old (prod_map id g <$> l), true)).
  { clear. induction l as [|[k x] l IH]; intros ms ts old Fl M G; [by injection M as <-; apply Forall2_nil_inv_r in G as ->|].
    apply list.Forall_cons in Fl as [Fx Fl]. cbn [fmap list_fmap fst snd] in M. apply mapM_field in M as (j & ms' & E & M & ->).
    cbn [fmap list_fmap fst snd] in G. apply Forall2_cons_inv_r in G as (u & us & Lu & G & ->).
    cbn [fmap list_fmap fst snd zip zip_with dec_entries foldl prod_map id]. rewrite (Fx j E u Lu). by rewrite (IH ms' us _ Fl M G). }
  rewrite (P (by_key m) ms ts ∅); [|apply list.Forall_forall; intros [k x] Hx|exact M|exact G].
  2:{ rewrite by_key_perm in Hx. apply elem_of_map_to_list in Hx. by apply (F k x). }
  assert (Nd : NoDup (prod_map id g <$> by_key m).*1).
  { rewrite <- list_fmap_compose. change (fst ∘ prod_map id g) with (fun p : string * A => p.1).
    rewrite by_key_perm. apply NoDup_fst_map_to_list. }
  rewrite insert_all, (right_id_L ∅ (∪)) by done. f_equal.
  change (prod_map id g) with (fun p : string * A => (p.1, g p.2)). rewrite <- (list_to_map_to_list m) at 2.
  rewrite <- list_to_map_fmap. apply list_to_map_proper; [done|]. by rewrite by_key_perm.
Qed.

(** ** The study and its figure *)

Definition counts_view (r : LabelRow) : Figures.LabelCounts :=
  Figures.mkLabelCounts (LN r) (LHits r) (LCorrect r) (LFalse r) (CorrectHitRate r) (FalseHitRate r).
Definition point_view (r : SweepRow) : SweepPoint := mkSweepPoint (Threshold r) (counts_view <$> Labels r).

(** What the figure is drawn from. *)
Definition study_view (r : Result) : CacheStudy :=
  mkCacheStudy
    (mkCorpusPart (NGroups (RCorpus r)) (ProbesByLabel (RCorpus r)) (DistinctPrompts (RCorpus r)))
    (mkEmbedderPart (EModel (REmbedder r)) (EDimensions (REmbedder r)))
    (slice_of (point_view <$> RSweep r))
    (mkVerdictPart (BestMarginThreshold (RVerdict r)) (BestMarginPP (RVerdict r)) (VSeparable (RVerdict r))).

(** The counts are machine integers. *)
Definition row_fits (r : LabelRow) : Prop := is_int64 (LN r) /\ is_int64 (LHits r) /\ is_int64 (LCorrect r) /\ is_int64 (LFalse r).

Definition pair_utf8 (p : Pair) : Prop :=
  valid_utf8 (PGroup p) /\ valid_utf8 (PA p) /\ valid_utf8 (PB p) /\ valid_utf8 (PFlip p).

Record printable (r : Result) : Prop := mkPrintable {
  pr_counts : is_int64 (NGroups (RCorpus r)) /\ is_int64 (DistinctPrompts (RCorpus r)) /\ is_int64 (EDimensions (REmbedder r));
  pr_probes : map_Forall (fun k n => valid_utf8 k /\ is_int64 n) (ProbesByLabel (RCorpus r));
  pr_rows : Forall (fun row => map_Forall (fun k x => valid_utf8 k /\ row_fits x) (Labels row)) (RSweep r);
  pr_strings : valid_utf8 (Path (RCorpus r)) /\ valid_utf8 (EBaseURL (REmbedder r)) /\ valid_utf8 (EModel (REmbedder r));
  pr_stamp : valid_utf8 (GeneratedAt r) /\ valid_utf8 (answer_text (VAnswer (RVerdict r)));
  pr_completions : match RCompletions r with None => True | Some c => valid_utf8 (BaseURL c.1) /\ valid_utf8 (CModel c.1) end;
  pr_maps : map_Forall (fun k _ => valid_utf8 k) (GroupsByDomain (RCorpus r)) /\ map_Forall (fun k _ => valid_utf8 k) (ExactTier r) /\
    map_Forall (fun k _ => valid_utf8 k) (OwnAnchorByLabel (RSimilarity r));
  pr_pairs : Forall pair_utf8 (HighestOpposites (RSimilarity r)) /\ Forall pair_utf8 (LowestParaphrases (RSimilarity r)) /\
    Forall pair_utf8 (ClosestAnchorPairs (RSimilarity r));
  pr_criteria : Forall (fun c => valid_utf8 (CName c)) (Criteria (RVerdict r))
}.

(** ** The text can be read *)

Lemma otext_row d x : otext (S d) (label_json x).
Proof. apply otext_obj. encoded_fields; auto with encoded. Qed.

Lemma otext_tier d x : otext (S d) (tier_json x).
Proof. apply otext_obj. encoded_fields; auto with encoded. Qed.

Lemma otext_stats d x : otext (S d) (stats_json x).
Proof. apply otext_obj. encoded_fields; auto with encoded. Qed.

Lemma otext_token d x : otext (S d) (token_json x).
Proof. apply otext_obj. encoded_fields; auto with encoded. Qed.

Lemma otext_request d : otext (S d) request_json.
Proof. apply otext_obj. encoded_fields; apply otext_string; reflexivity. Qed.

#[export] Hint Resolve otext_row otext_tier otext_stats otext_token otext_request : encoded.

Lemma otext_omit d name s : valid_utf8 name -> valid_utf8 s ->
  Forall (fun f => valid_utf8 f.1 /\ otext d f.2) (jomit name s).
Proof.
  intros Vn Vs. unfold jomit. destruct (String.eqb _ _); [constructor|].
  apply list.Forall_singleton. split; [done|]. by apply otext_string.
Qed.

Lemma otext_pair d p : pair_utf8 p -> otext (S d) (pair_json p).
Proof.
  intros (Vg & Va & Vb & Vf). apply otext_obj. apply list.Forall_cons_2; [split; [reflexivity|apply otext_float]|].
  apply list.Forall_app_2; [by apply otext_omit|]. apply list.Forall_app_2; [|by apply otext_omit]. encoded_fields; auto with encoded.
Qed.

Lemma otext_criterion d c : valid_utf8 (CName c) -> otext (S d) (criterion_json c).
Proof. intros V. apply otext_obj. encoded_fields; auto with encoded. destruct (CThreshold c); auto with encoded. Qed.

Lemma otext_keys {A} d (f : A -> option json) (m : gmap string A) :
  map_Forall (fun k _ => valid_utf8 k) m -> (forall x, otext d (f x)) -> otext (S d) (jmap f m).
Proof. intros V F. apply otext_map. intros k x E. split; [by eapply V|apply F]. Qed.

Lemma otext_pairs d l : Forall pair_utf8 l -> otext (S (S d)) (jslice pair_json l).
Proof. intros F. apply otext_slice. eapply list.Forall_impl; [exact F|]. intros p. apply otext_pair. Qed.

Lemma otext_result r d : printable r -> otext (6 + d) (result_json r).
Proof.
  intros [_ Pb Rw (Vp & Vu & Vm) (Vg & Va) Co (Mg & Mt & Mo) (P1 & P2 & P3) Cr].
  apply otext_obj. encoded_fields; auto with encoded.
  - apply otext_string. reflexivity.
  - apply otext_obj. encoded_fields; auto with encoded; apply otext_keys; auto with encoded. intros k x E. by apply (Pb k x).
  - apply otext_obj. encoded_fields; auto with encoded.
  - destruct (RCompletions r) as [c|]; [|auto with encoded]. destruct Co. apply otext_obj. encoded_fields; auto with encoded.
  - apply otext_keys; auto with encoded.
  - apply otext_obj. encoded_fields; auto with encoded; try (by apply otext_pairs). apply otext_keys; auto with encoded.
  - apply otext_arr. eapply list.Forall_impl; [exact Rw|]. intros row F. apply otext_obj. encoded_fields; auto with encoded.
    apply otext_keys; [|auto with encoded]. intros k x E. by apply (F k x).
  - apply otext_obj. encoded_fields; auto with encoded; [apply otext_string; reflexivity|]. apply otext_arr.
    eapply list.Forall_impl; [exact Cr|]. intros c. apply otext_criterion.
  - apply otext_obj. encoded_fields; auto with encoded.
Qed.

(** ** It is read as what was measured *)

Lemma odecodes_counts x old : row_fits x -> odecodes dec_counts (label_json x) old (counts_view x).
Proof.
  intros (I1 & I2 & I3 & I4). apply odecodes_struct.
  taken (odecodes_int _ _ I1). taken (odecodes_int _ _ I2). skipped. skipped. taken (odecodes_int _ _ I3).
  taken (odecodes_int _ _ I4). skipped. taken (odecodes_float _ _). taken (odecodes_float _ _). apply otakes_none.
Qed.

Lemma odecodes_point row : map_Forall (fun k x => valid_utf8 k /\ row_fits x) (Labels row) ->
  odecodes dec_point (row_json row) zeroPoint (point_view row).
Proof.
  intros F. apply odecodes_struct. taken (odecodes_float _ _).
  eapply otakes_hit; [reflexivity|apply odecodes_at, (odecodes_map _ _ _ counts_view)|simpl_old].
  - intros k x E. apply odecodes_counts, (F k x E).
  - skipped. skipped. apply otakes_none.
Qed.

Lemma odecodes_study r : printable r -> odecodes dec_study (result_json r) zeroStudy (study_view r).
Proof.
  intros [(C1 & C2 & C3) Pb Rw _ _ _ _ _ _]. apply odecodes_struct. do 2 skipped.
  eapply otakes_hit; [reflexivity|apply odecodes_at|simpl_old].
  { apply odecodes_struct. skipped. taken (odecodes_int _ _ C1).
    eapply otakes_hit; [reflexivity|apply odecodes_at, (odecodes_map _ _ _ id)|simpl_old].
    { intros k x E. apply odecodes_int, (Pb k x E). }
    skipped. taken (odecodes_int _ _ C2). apply otakes_none. }
  eapply otakes_hit; [reflexivity|apply odecodes_at|simpl_old].
  { apply odecodes_struct. skipped. taken (odecodes_string _ _). taken (odecodes_int _ _ C3). skipped. apply otakes_none. }
  do 4 skipped.
  eapply otakes_hit; [reflexivity|apply odecodes_at, (odecodes_list _ _ _ point_view)|simpl_old].
  { eapply list.Forall_impl; [exact Rw|]. intros row. apply odecodes_point. }
  eapply otakes_hit; [reflexivity|apply odecodes_at|simpl_old].
  { apply odecodes_struct. do 2 skipped. taken (odecodes_float _ _). taken (odecodes_float _ _). taken (odecodes_bool _ _).
    skipped. apply otakes_none. }
  skipped. rewrite map_fmap_id. apply otakes_none.
Qed.

Lemma result_reads r text : printable r -> WriteResult r = Some text ->
  readJSON (Some text) dec_study zeroStudy = inl (study_view r).
Proof.
  intros P E. unfold readJSON.
  by rewrite (written_reads dec_study 5 _ text _ _ ltac:(pose proof deep; lia) E (otext_result r 0 P) (odecodes_study r P)).
Qed.

(** ** The sweep of a run *)

Lemma sweep_probes_dom s now store ps rows t rows' t' :
  sweep_probes s now store ps rows t = Some (inl (rows', t')) -> dom rows' = dom rows.
Proof.
  revert rows t. induction ps as [|p ps IH]; intros rows t; cbn [sweep_probes]; [by intros [= <- <-]|].
  destruct (rows !! label p) as [row|] eqn:E; [|done].
  assert (K : forall x, dom (<[label p := x]> rows) = dom rows).
  { intros x. rewrite dom_insert_L. apply elem_of_dom_2 in E. set_solver. }
  destruct (Nearest _ _ _ _) as [[[e sc]|] ?]; cbn [fst].
  - destruct (decodeAnswer e); [|done]. intros H. apply IH in H. by rewrite H, K.
  - intros H. apply IH in H. by rewrite H, K.
Qed.

(** A row for each threshold, each with all four labels. *)
Lemma Sweep_rows s clock now ths rows : Sweep s clock now ths = Some (inl rows) ->
  Threshold <$> rows = ths /\ Forall (fun row => dom (Labels row) = list_to_set labelOrder) rows.
Proof.
  revert rows. induction ths as [|th ths IH]; intros rows; cbn [Sweep]; [by intros [= <-]; split; [|constructor]|].
  unfold sweepOne. destruct (sweep_probes _ _ _ _ _ _) as [[[rs t]|e]|] eqn:P; [|done..].
  destruct (Sweep s clock now ths) as [[l|e]|]; [|done..]. intros [= <-]. destruct (IH l eq_refl) as [<- F].
  split; [done|]. constructor; [|done]. cbn [Labels]. rewrite dom_fmap_L, (sweep_probes_dom _ _ _ _ _ _ _ _ P). by vm_compute.
Qed.

Lemma measure_sweep fuel o w r : measure fuel o w = Some (inl r) ->
  exists ths, Thresholds fuel (minThreshold o) (maxThreshold o) (step o) = Some (inl ths) /\
    Threshold <$> RSweep r = ths /\ Forall (fun row => dom (Labels row) = list_to_set labelOrder) (RSweep r).
Proof.
  unfold measure, and_then. destruct (LoadCorpus _) as [c|e]; [|done].
  destruct (Thresholds _ _ _ _) as [[ths|e]|]; [|done..]. destruct (String.eqb _ _); [done|].
  destruct (promptTexts _ _) as [texts|e]; [|done]. destruct (priceQuestions _ _ _) as [[ans summary]|e]; [|done].
  destruct (embedAll _ _ _ _ _ _ _) as [[vectors|e]|]; [|done..]. destruct (NewStudy _ _ _ _ _) as [st|e]; [|done].
  destruct (RunExactTier _ _) as [exact|e]; [|done]. destruct (Sweep _ _ _ _) as [[rows|e]|] eqn:S; [|done..].
  destruct (buildVerdict _ _) as [v|]; [|done]. intros [= <-]. exists ths. cbn [RSweep]. by destruct (Sweep_rows _ _ _ _ _ S).
Qed.

Lemma nothing_missing rows : Forall (fun row => dom (Labels row) = list_to_set labelOrder) rows ->
  omap missing (point_view <$> rows) = [].
Proof.
  induction 1 as [|row rows D F IH]; [done|]. cbn [fmap list_fmap].
  assert (H : forall l, l ∈ labelOrder -> exists x, Labels row !! l = Some x).
  { intros l Hl. apply elem_of_dom. rewrite D. by apply elem_of_list_to_set. }
  destruct (H labelParaphrase ltac:(set_solver)) as [x X], (H labelOpposite ltac:(set_solver)) as [y Y].
  cbn [omap list_omap]. unfold missing at 1. unfold point_view at 1 2. cbn [Figures.Labels]. rewrite !lookup_fmap, X, Y. exact IH.
Qed.

(** The floor of the gateway, as the figure looks for it. *)
Definition at_floor (t : f64) : bool := f64_ltb (Figures.abs (f64_sub t shippedFloor)) (Canvas.dec 1 1000000000).

Lemma floor_found ps : is_Some (list_find (fun p => at_floor (Figures.Threshold p) = true) (point_view <$> ps))
  <-> existsb at_floor (Threshold <$> ps) = true.
Proof.
  rewrite existsb_exists. split.
  - intros [[i p] (L & A & _)%list_find_Some]. apply list_elem_of_lookup_2, list_elem_of_fmap in L as (row & -> & Hr).
    exists (Threshold row). split; [|exact A]. apply list_elem_of_In, list_elem_of_fmap. by exists row.
  - intros (t & (row & -> & Hr)%list_elem_of_In%list_elem_of_fmap & A).
    apply (list_find_elem_of _ _ (point_view row)); [|exact A]. apply list_elem_of_fmap. by exists row.
Qed.

(** (C35) What is drawn is what was measured: of any result a run of the study measures
    and writes, the figures load exactly the rates, counts and thresholds of the run,
    bit for bit; they are refused only when the sweep has no threshold at the floor
    the gateway ships, and never for a label that is missing. *)
Theorem the_figure_shows_the_study fuel o w r text :
  measure fuel o w = Some (inl r) -> printable r -> WriteResult r = Some text ->
  exists ths, Thresholds fuel (minThreshold o) (maxThreshold o) (step o) = Some (inl ths) /\
    loadCacheStudy (Some text) =
      match ths with
      | [] => inr NoSweep
      | _ => if existsb at_floor ths then inl (study_view r) else inr FloorNotSwept
      end.
Proof.
  intros M P E. destruct (measure_sweep _ _ _ _ M) as (ths & T & Rt & Rl). exists ths. split; [exact T|].
  unfold loadCacheStudy. rewrite (result_reads r text P E). cbn [study_view Figures.Sweep]. rewrite slice_list_of.
  pose proof (nothing_missing _ Rl) as N. pose proof (floor_found (RSweep r)) as F. rewrite Rt in F.
  destruct (RSweep r) as [|row rows] eqn:S; [by subst ths|]. destruct ths as [|th ths]; [done|].
  cbn [fmap list_fmap] in N, F |- *. rewrite N. unfold findThreshold. cbn [study_view Figures.Sweep].
  rewrite slice_list_of, S. cbn [fmap list_fmap]. unfold at_floor in F |- *. destruct (list_find _ _) as [p|]; cbn [fmap option_fmap].
  - by rewrite (proj1 F (mk_is_Some _ p eq_refl)).
  - destruct (existsb _ _); [|done]. by destruct (proj2 F eq_refl).
Qed.

(** ** A run and its figure *)

Module PublishedExample.
Definition vectors_reply : string := quoted "{'embeddings':[{'values':[1,0]},{'values':[1,1]},{'values':[9,1]},{'values':[0,1]}]}".
Definition o : options :=
  mkOptions "bench/corpus/questions.json" "" (Canvas.dec 94 100) (Canvas.dec 95 100) (Canvas.dec 1 100) "" "" 25 90
    (mkCompletionOptions "" "" 0 0) false.
Definition w (key : string) : outside :=
  mkOutside (Some StudyExample.file) key (fun _ => inl ∅)
    (fun _ _ => Upstream.Response 200 (Sse.mkBody (list_ascii_of_string vectors_reply) (ErrSentinel IoEOF)) None)
    (fun _ => false) (fun _ => false) (fun _ => (1, 1)) (fun _ => 1) 1 63922088399012340000 63922088399012340000
    (fun _ => true) true.

#[export] Instance is_int64_dec z : Decision (is_int64 z).
Proof. unfold is_int64. apply _. Defined.
#[export] Instance valid_utf8_dec s : Decision (valid_utf8 s).
Proof. unfold valid_utf8. apply _. Defined.
#[export] Instance row_fits_dec x : Decision (row_fits x).
Proof. unfold row_fits. apply _. Defined.
#[export] Instance pair_utf8_dec p : Decision (pair_utf8 p).
Proof. unfold pair_utf8. apply _. Defined.

(** A result without priced answers, checked field by field. *)
Definition unpriced_printable (r : Result) : bool := bool_decide (
  RCompletions r = None /\
  (is_int64 (NGroups (RCorpus r)) /\ is_int64 (DistinctPrompts (RCorpus r)) /\ is_int64 (EDimensions (REmbedder r))) /\
  map_Forall (fun k n => valid_utf8 k /\ is_int64 n) (ProbesByLabel (RCorpus r)) /\
  Forall (fun row => map_Forall (fun k x => valid_utf8 k /\ row_fits x) (Labels row)) (RSweep r) /\
  (valid_utf8 (Path (RCorpus r)) /\ valid_utf8 (EBaseURL (REmbedder r)) /\ valid_utf8 (EModel (REmbedder r))) /\
  (valid_utf8 (GeneratedAt r) /\ valid_utf8 (answer_text (VAnswer (RVerdict r)))) /\
  (map_Forall (fun k _ => valid_utf8 k) (GroupsByDomain (RCorpus r)) /\ map_Forall (fun k _ => valid_utf8 k) (ExactTier r) /\
    map_Forall (fun k _ => valid_utf8 k) (OwnAnchorByLabel (RSimilarity r))) /\
  (Forall pair_utf8 (HighestOpposites (RSimilarity r)) /\ Forall pair_utf8 (LowestParaphrases (RSimilarity r)) /\
    Forall pair_utf8 (ClosestAnchorPairs (RSimilarity r))) /\
  Forall (fun c => valid_utf8 (CName c)) (Criteria (RVerdict r))).

Lemma unpriced r : unpriced_printable r = true -> printable r.
Proof. unfold unpriced_printable. rewrite bool_decide_eq_true. intros (N & H). constructor; try tauto. by rewrite N. Qed.

Lemma measured : match measure 10 o (w "k") with
  | Some (inl r) => unpriced_printable r && match WriteResult r with Some _ => true | None => false end = true
  | _ => False end.
Proof. vm_compute. reflexivity. Qed.

Lemma floor_swept : match Thresholds 10 (minThreshold o) (maxThreshold o) (step o) with
  | Some (inl (th :: ths)) => existsb at_floor (th :: ths) = true
  | _ => False end.
Proof. vm_compute. reflexivity. Qed.

Example the_figure_shows_the_study_witness :
  exists r text, measure 10 o (w "k") = Some (inl r) /\ WriteResult r = Some text /\
    loadCacheStudy (Some text) = inl (study_view r).
Proof.
  pose proof measured as H. destruct (measure 10 o (w "k")) as [[r|e]|] eqn:M; [|destruct H..].
  apply andb_true_iff in H as [P W]. destruct (WriteResult r) as [text|] eqn:E; [|discriminate].
  exists r, text. split; [reflexivity|split; [exact E|]].
  destruct (the_figure_shows_the_study 10 o (w "k") r text M (unpriced r P) E) as (ths & T & L). rewrite L.
  pose proof floor_swept as F. rewrite T in F. destruct ths as [|th ths]; [destruct F|].
  change (existsb at_floor (th :: ths) = true) in F. rewrite F. reflexivity.
Defined.

(** Without a key nothing is measured, and nothing is written. *)
Example no_key_no_result : run 10 o (w "") = Some ([], Some RunNoKey).
Proof. vm_compute. reflexivity. Qed.
End PublishedExample.
